(* ===== verification/_CoqProject ===== *)
-Q . S2P
Prelude.v
Util.v
Checksum.v
Ip.v
Tcp.v
Udp.v
Icmp.v
AntiReplay.v
Fips197.v
AesTable.v
Prims.v
Kdf.v
Auth.v
Cipher.v
Crypto.v
Wire.v
Conv.v
Types.v
Text.v
NetText.v
EndpointState.v
EndpointCache.v
World.v
SecureFile.v
SecureFileSpec.v
Dns.v
Config.v
Route.v
Iptables.v
Kernel.v
LowerLevel.v
Resources.v
Endpoint.v
CommandLine.v
EndpointInv.v
DnsSpec.v
EndpointOps.v
EndpointSpec.v
CommandLineSpec.v
FakeTcp.v
Bpf.v
Conn.v
Pipeline.v
Session.v
Silence.v
Client.v
ClientKernel.v
ClientInv.v
ClientSpec.v
Program.v
ProgramInv.v
ProgramSpec.v
Server.v
ServerTables.v
ServerInv.v
ServerSpec.v
