(* ===== verification/Prelude.v ===== *)
(** * A verification library for udp2raw-rust

    udp2raw carries UDP datagrams inside raw packets that look like TCP (FakeTCP), UDP or
    ICMP.  A client and a server each run one I/O thread around a poller, with optional
    worker threads for the cryptography.  A datagram takes this way:

    - the I/O thread frames it with the connection's ids and sequence number ([conn.rs],
      [wire.rs]) and submits a job to the pipeline ([pipeline.rs]);
    - a worker encrypts and authenticates it ([crypto/]); the pipeline hands results back
      in submission order;
    - the I/O thread builds the transport and IP headers ([faketcp.rs], [packet/]) and
      queues the packet for the kernel ([net/mod.rs]), with sequence numbers that imitate
      a TCP stream;
    - the peer's kernel filter ([net/bpf.rs]) lets it through; it is parsed, decrypted by
      a worker, checked against the ids and the replay window ([anti_replay.rs]) and handed
      to the conversation it belongs to ([conv.rs]).

    The server ([server.rs]) keeps the table of connections: handshakes, recovery of a
    connection whose client changed its address, expiry.  The client ([client.rs]) keeps one
    connection: it takes the relay's address from the endpoint controller ([endpoint.rs],
    with the resolver [dns.rs]), installs a firewall rule ([iptables.rs]) and a host route
    ([net/route.rs]) for it, does the handshakes, and starts over when the session is lost.
    [main.rs] reads the command line ([config.rs]) and starts one of the two.

    ** How code is modelled

    Integers are [Z] at their width, with the wrap-around of the release profile written
    out ([wrap], [+⟨w⟩]); byte strings and text are lists of [Z].  Code that can abort (an
    index, a slice, an [unwrap]) is in [outcome], so that not aborting is a theorem.  Code
    that reads the clock, randomness or files, or talks to the kernel, is in the state monad
    [Io] of [World.v], over an environment record of arbitrary streams; what it hands to the
    kernel is appended to a trace.  [runs m w Q] says that [m] returns in [w] and its result
    satisfies [Q].  External crates are the classes [Prims] (hashes, AES, the AEAD) and
    [DnsLib] (DNS messages) with their documented behaviour as [PrimsOk] and [DnsLibOk];
    [demo_prims] and [demo_dns] are instances of both; clap is an argument of [parse_args].
    Log lines and allocation reuse have no effect and are left out.

    ** The files (all sources under [src/src/])

    - [Prelude]: the monad of outcomes, machine integers, slices, big-endian encoding.
    - [Util]: [util.rs].  [Checksum], [Ip], [Tcp], [Udp], [Icmp]: [packet/].
    - [AntiReplay]: [anti_replay.rs].
    - [Fips197]: reference AES-128.  [AesTable]: [crypto/aes_table.rs].  [Prims]: the
      external crates.  [Kdf]: [crypto/kdf.rs], [Keys::derive].  [Auth]: [crypto/auth.rs].
      [Cipher]: [crypto/cipher.rs].  [Crypto]: [crypto/mod.rs], [crypto/aead.rs].
    - [Wire]: [wire.rs].  [Conv]: [conv.rs].  [Types]: [types.rs].
    - [Text]: the Standard Library's functions on text.  [NetText]: its parser and printer of
      IP and socket addresses, with their round trip.
    - [World]: the environment; clocks and randomness of [util.rs], the packet queue of
      [net/mod.rs], link-layer addresses of [net/raw.rs].
    - [SecureFile]: [secure_file.rs] and [create_fifo] of [fifo.rs], over an arbitrary sequence
      of answers to the system calls.  [SecureFileSpec]: protocols (automata over the calls
      and their answers) and the theorems that each operation follows its own.
    - [Config]: the fields of [config.rs] the modelled code reads.  [CommandLine]: the
      configuration file, the checks of the command line, [EndpointSpec::parse] and the
      redaction of [main.rs].  [CommandLineSpec]: its theorems.
    - [Dns]: [dns.rs], over a network of its own with a clock, UDP sockets and TCP streams.
      [DnsSpec]: its theorems.
    - [EndpointState], [EndpointCache], [Endpoint]: [endpoint.rs], its state files, its host
      names and the controller.  [EndpointInv], [EndpointOps]: the controller's invariant and
      its preservation.  [EndpointSpec]: the theorems on its histories.
    - [Route]: [net/route.rs].  [Iptables]: [iptables.rs].  [Kernel]: which kernels agree with
      the answers of the two, as a relation on traces.  [LowerLevel]:
      [net/lower_level.rs] and the part of [net/addr.rs] the client calls.  [Resources]: the
      client's record of what it installed.
    - [FakeTcp]: [faketcp.rs].  [Bpf]: [net/bpf.rs].  [Conn]: [conn.rs].
    - [Pipeline]: [pipeline.rs], with a step relation for the threads.
    - [Session], [Silence]: what both roles need about connections and quiet code.
    - [Client]: [client.rs], one definition per method; [client_round] is the body of the event
      loop.  [ClientKernel]: its rules and routes against a kernel.  [ClientInv]: the
      invariant and its preservation by every handler.  [ClientSpec]: the timeouts.
    - [Program]: [run] of [main.rs] and of [client.rs].  [ProgramInv]: its start, loop and end.
      [ProgramSpec]: the theorems on whole runs.
    - [Server]: [server.rs], one definition per method; [server_round] is the body of the
      event loop.  [ServerTables]: its tables, abstractly.  [ServerInv]: the invariant and
      its preservation by every handler.  [ServerSpec]: the theorems on executions.

    ** What the theorems show

    - Whole runs of the client, without [--keep-rule], with a source address of the relay's
      family if it has one, and without the TCP segments the parser aborts on: a client
      started with an accepted command line runs to its exit without an abort
      ([accepted_client_runs]); in every kernel that held none of its rules and routes and
      agrees with the answers received, a client that is not idle has the rule and the route
      of its relay ([session_needs_rule_and_route]), and what is left after the exit is
      listed as pending or a route whose creation was answered by an error
      ([exit_leaves_nothing_unlisted]); silence ends a session within the timeouts
      ([silence_ends_session]).
    - Configuration: an accepted command line is within the limits of [settings_ok] and does
      what its options say, a configuration file is the same as its options, endpoints are
      printed and read back, the log shows the arguments without a password that is given as
      [-k], [--key] or [--key=] (a cluster such as [-ck] is shown).
    - Private files: whatever the system calls answer, a write replaces its destination by one
      rename of a complete, synced and checked file, and leaves no temporary behind
      ([atomic_write_protocol]); a read returns only bytes of a checked file
      ([read_owner_only_sound]); an action under a lock runs only while the named file is
      locked ([with_lock_sound]); a command fifo is the user's own and a failed opening
      removes what it made ([create_fifo_sound]).
    - Names: a resolver's answer comes from a reply to the question, with its id and from the
      server asked, before the deadline, through at most eight aliases, filtered by the
      address policy; the controller keeps its invariants for every history of answers,
      commits an address only on evidence, returns to an old one only within its budget or
      for the operator, and waits after an answer it cannot use.
    - Formats: IP, TCP, UDP and ICMP headers, the framing and a whole raw packet parse back
      to what was built; the kernel filter accepts exactly the packets it describes and
      hides none the parser accepts; a route or a rule is recognised in a listing exactly
      when it is the one asked for, whatever else the listing holds.
    - Cryptography: table AES is FIPS-197; HMAC, PBKDF2 and HKDF are the RFCs'; the two
      backends interoperate; a packet decrypts to its plaintext in every mode, singly or in
      a merged burst; a tag is accepted exactly on its own body.
    - Replay: the ring buffer answers as a set of accepted numbers; a session delivers every
      genuine packet at most once, and all of them within the window.
    - Untrusted input: parsing, decryption, receiving on a connection, a whole round of the
      server and every turn of the client return on arbitrary bytes, except for the segments
      of [parse_tcp_panics_iff], which abort the process.
    - State: the maps and the LRU set of a conversation table implement one abstract table
      with the order of use; the server's address, identity, slot and socket tables agree in every
      reachable state; the emulated sequence numbers stay in the peer's window and the
      acknowledgements never go back.
    - Scheduling: for every interleaving the pipeline delivers in order and loses no wake-up;
      handing a queue to the kernel sends its packets in order, less those refused; expiry
      passes drain idle conversations; a sweep erases exactly the stale ones of the
      connections it inspects.

    ** Fuel

    Loops without a structural argument take fuel that is enough, which their theorems
    show: [gro_unwrap] the length of the buffer (each step consumes at least a header), the
    [sendmmsg] loop the length of the chunk (each call sends or skips a packet) and
    [EINTR_FUEL] repetitions of a call that a signal interrupts (out of fuel aborts in the
    model, and [env_ok] says that no call is interrupted that often in a row),
    [collect] the number of batches in flight, the sweep the number of slots (it counts the
    slots it visits), the attributes and messages of a netlink datagram its length, the
    aliases of a DNS reply nine turns (eight hops), [find_direct_dest] the source's own hop
    limit, [bind_new_random_port], [create_temp_with] and [open_or_create_lock] the source's
    own number of tries.  [lock_exclusive] repeats while its call is interrupted, which no
    bound limits; [lock_exclusive_ends] says that fuel beyond the interruptions is enough.
    [secure_random_u32_nz] retries until the generator is not 0; its fuel is 64 draws, and
    the environment condition [env_ok] says a draw among them is not 0; a new conversation id
    is drawn until it is unused, with [FRESH_FUEL] draws and the like condition.  The
    repetitions of [--retry-on-error] and of link-layer detection at the start are a number
    of tries that the theorems quantify over.  The loops that drain a socket end with the
    input: the model's input is the finite list of batches the kernel has.

    ** Threads and the kernel

    The crypto workers are interleaved with the event loop: between the rounds by the
    [Worker] turns of [event_loop], and inside a round before every operation of
    the I/O thread on their channels ([meanwhile]), by a schedule of the environment.  An abort of a worker
    aborts the process, as in the release profile.  [Kernel.v] relates a trace to the kernels
    that agree with its answers: nothing else changes the client's rules and routes, an
    [iptables] command that fails has no effect, a listing shows what there is, and a request
    for a route that is answered by an error may have taken effect all the same (its
    acknowledgement was lost).

    ** Not modelled

    The thread of [--keep-rule] is not interleaved with the event loop ([keep] is modelled,
    the theorems on whole runs assume it is off).  Opening and configuring sockets
    ([net/addr.rs], [net/raw.rs]) are system calls whose answers are the environment's.  The
    scope id and the flow information of an IPv6 socket address are not represented: text
    with a scope id is read as the address without it.  The
    mutex that [secure_file.rs] adds to its locks between threads of one process is not
    modelled, and the controller's model takes its state files from the environment ([World])
    and not from [SecureFile]; the protocols of [SecureFileSpec] count the call that removes a
    file when it is made, whatever it answers, as the code ignores the answer.  [logging.rs] only
    formats, [selftest.rs] compares fixed vectors.  The server's start-up and exit, and the
    joining of the worker threads when the pipeline is dropped, are not modelled; nor are
    the probes of the CPU and the kernel configuration in [types.rs].  Packets whose IP
    addresses are of two families, which [--source-ip] allows, and TCP segments with a data
    offset of one to four words abort the process; the theorems on runs exclude them. *)

From stdpp Require Export base tactics numbers list option countable gmap.
From Stdlib Require Export ZArith Lia Bool.

#[export] Set Default Proof Using "Type".

(** * Outcomes: a computation either returns or panics

    Rust indexing, slicing, [unwrap] and [panic!] abort the process (the
    release profile sets [panic = "abort"]).  Code that can do so is modelled in
    this monad, so that the absence of panics is a theorem and not a convention
    of the model. *)
Inductive outcome (A : Type) : Type :=
| Done (a : A)
| Panic.
Arguments Done {_} _.
Arguments Panic {_}.

#[export] Instance outcome_ret : MRet outcome := fun A a => Done a.
#[export] Instance outcome_bind : MBind outcome :=
  fun A B f m => match m with Done a => f a | Panic => Panic end.
#[export] Instance outcome_fmap : FMap outcome :=
  fun A B f m => match m with Done a => Done (f a) | Panic => Panic end.

Lemma bind_Done {A B} (a : A) (f : A → outcome B) : (Done a ≫= f) = f a.
Proof. reflexivity. Qed.

Definition is_done {A} (o : outcome A) : Prop := ∃ a, o = Done a.

Create Rewrite HintDb outcomes.
#[export] Hint Rewrite @bind_Done : outcomes.

(** * Machine integers: a [w]-bit value is a [Z] in [[0, 2^w)] *)
Declare Scope rust_scope.
Delimit Scope rust_scope with rust.

Definition is_u (w z : Z) : Prop := (0 ≤ z < 2 ^ w)%Z.
Definition wrap (w z : Z) : Z := (z mod 2 ^ w)%Z.
Abbreviation is_byte := (is_u 8).
Abbreviation bytes := (Forall is_byte).

(** Reinterpretation of a [w]-bit pattern as a signed integer ([as i32], [as i16]). *)
Definition as_signed (w z : Z) : Z := (if z <? 2 ^ (w - 1) then z else z - 2 ^ w)%Z.

Notation "x +⟨ w ⟩ y" := (wrap w (x + y)%Z) (at level 50, w at next level, left associativity) : rust_scope.
Notation "x -⟨ w ⟩ y" := (wrap w (x - y)%Z) (at level 50, w at next level, left associativity) : rust_scope.
Open Scope rust_scope.
Open Scope Z_scope.

Lemma wrap_range w z : 0 ≤ w → is_u w (wrap w z).
Proof. intros. unfold is_u, wrap. apply Z.mod_pos_bound, Z.pow_pos_nonneg; lia. Qed.

Lemma wrap_small w z : is_u w z → wrap w z = z.
Proof. apply Z.mod_small. Qed.

Lemma wrap_wrap w z : 0 ≤ w → wrap w (wrap w z) = wrap w z.
Proof. intros. apply wrap_small, wrap_range. lia. Qed.

Lemma is_u_mono v w z : 0 ≤ v ≤ w → is_u v z → is_u w z.
Proof.
  unfold is_u. intros Hvw [H0 H1]. split; [lia|].
  eapply Z.lt_le_trans; [apply H1|]. apply Z.pow_le_mono_r; lia.
Qed.

(** Saturating subtraction of unsigned integers. *)
Definition saturating_sub (a b : Z) : Z := if a <? b then 0 else a - b.
Definition saturating_add (w a b : Z) : Z := Z.min (a + b) (2 ^ w - 1).
Definition saturating_mul (w a b : Z) : Z := Z.min (a * b) (2 ^ w - 1).

(** Bitwise operations keep the width. *)
Lemma is_u_bits w z : 0 ≤ w → is_u w z ↔ (0 ≤ z ∧ ∀ i, w ≤ i → Z.testbit z i = false).
Proof.
  intros Hw. unfold is_u. split.
  - intros [H0 H1]. split; [done|]. intros i Hi.
    rewrite <-(Z.mod_small z (2 ^ w)) by done.
    apply Z.mod_pow2_bits_high. lia.
  - intros [H0 Hb]. split; [done|].
    assert (z = z mod 2 ^ w) as ->.
    { apply Z.bits_inj'. intros i Hi. destruct (decide (i < w)).
      - by rewrite Z.mod_pow2_bits_low.
      - rewrite Z.mod_pow2_bits_high by lia. apply Hb. lia. }
    apply Z.mod_pos_bound, Z.pow_pos_nonneg; lia.
Qed.

Lemma is_u_lxor w a b : 0 ≤ w → is_u w a → is_u w b → is_u w (Z.lxor a b).
Proof.
  intros Hw Ha Hb. apply is_u_bits in Ha as [? Ha], Hb as [? Hb]; try done.
  apply is_u_bits; [done|]. split.
  - apply Z.lxor_nonneg. lia.
  - intros i Hi. rewrite Z.lxor_spec, Ha, Hb; done.
Qed.

Lemma is_u_lor w a b : 0 ≤ w → is_u w a → is_u w b → is_u w (Z.lor a b).
Proof.
  intros Hw Ha Hb. apply is_u_bits in Ha as [? Ha], Hb as [? Hb]; try done.
  apply is_u_bits; [done|]. split.
  - apply Z.lor_nonneg. lia.
  - intros i Hi. rewrite Z.lor_spec, Ha, Hb; done.
Qed.

Lemma is_u_land_l w a b : 0 ≤ w → is_u w a → is_u w (Z.land a b).
Proof.
  intros Hw Ha. apply is_u_bits in Ha as [? Ha]; [|done].
  apply is_u_bits; [done|]. split.
  - apply Z.land_nonneg. lia.
  - intros i Hi. rewrite Z.land_spec, Ha; done.
Qed.

(** Masks with [n] ones are remainders. *)
Lemma land_15 z : Z.land z 15 = z mod 16.
Proof. apply (Z.land_ones z 4). lia. Qed.
Lemma land_255 z : Z.land z 255 = z mod 256.
Proof. apply (Z.land_ones z 8). lia. Qed.
Lemma land_65535 z : Z.land z 65535 = z mod 65536.
Proof. apply (Z.land_ones z 16). lia. Qed.
Lemma shiftr_div z n : 0 ≤ n → Z.shiftr z n = z / 2 ^ n.
Proof. apply Z.shiftr_div_pow2. Qed.

Lemma lxor_cancel_r a b : Z.lxor (Z.lxor a b) b = a.
Proof. by rewrite Z.lxor_assoc, Z.lxor_nilpotent, Z.lxor_0_r. Qed.

Lemma lxor_cancel_l a b : Z.lxor a (Z.lxor a b) = b.
Proof. by rewrite <-Z.lxor_assoc, Z.lxor_nilpotent, Z.lxor_0_l. Qed.

(** * Lengths, indexing and slicing with [usize] values *)
Abbreviation zlen l := (Z.of_nat (length l)).

Definition idx (l : list Z) (i : Z) : outcome Z :=
  if (0 <=? i) && (i <? zlen l) then Done (nth (Z.to_nat i) l 0) else Panic.

(** [&l[a..b]] *)
Definition slice {A} (l : list A) (a b : Z) : outcome (list A) :=
  if (0 <=? a) && (a <=? b) && (b <=? zlen l)
  then Done (take (Z.to_nat (b - a)) (drop (Z.to_nat a) l)) else Panic.

(** [&l[a..]] *)
Definition slice_from {A} (l : list A) (a : Z) : outcome (list A) := slice l a (zlen l).

(** [l[i..i + v.len()].copy_from_slice(v)] *)
Definition put {A} (l : list A) (i : Z) (v : list A) : outcome (list A) :=
  if (0 <=? i) && (i + zlen v <=? zlen l)
  then Done (take (Z.to_nat i) l ++ v ++ drop (Z.to_nat (i + zlen v)) l) else Panic.

(** [Vec::resize(n, v)] *)
Definition vec_resize {A} (l : list A) (n : Z) (v : A) : list A :=
  take (Z.to_nat n) l ++ replicate (Z.to_nat (n - zlen l)) v.

Create Rewrite HintDb zlen.
Lemma zlen_app {A} (l k : list A) : zlen (l ++ k) = zlen l + zlen k.
Proof. rewrite length_app. lia. Qed.
Lemma zlen_cons {A} (x : A) l : zlen (x :: l) = 1 + zlen l.
Proof. simpl. lia. Qed.
Lemma zlen_nil {A} : zlen (@nil A) = 0.
Proof. done. Qed.
Lemma zlen_take {A} n (l : list A) : zlen (take n l) = Z.min (Z.of_nat n) (zlen l).
Proof. rewrite length_take. lia. Qed.
Lemma zlen_drop {A} n (l : list A) : zlen (drop n l) = Z.max 0 (zlen l - Z.of_nat n).
Proof. rewrite length_drop. lia. Qed.
Lemma zlen_replicate {A} n (x : A) : zlen (replicate n x) = Z.of_nat n.
Proof. by rewrite length_replicate. Qed.
Lemma length_nil {A} : length (@nil A) = 0%nat.
Proof. done. Qed.
#[export] Hint Rewrite @zlen_app @zlen_cons @zlen_nil @zlen_take @zlen_drop @zlen_replicate
  : zlen.
Create Rewrite HintDb lens.
#[export] Hint Rewrite @length_insert @length_fmap @length_app @length_cons @length_nil @length_take
  @length_drop @length_replicate : lens.

(** Linear arithmetic up to the lengths of list expressions. *)
Ltac len_lia :=
  repeat match goal with x := _ |- _ => clearbody x end; autorewrite with zlen in *; autorewrite with lens in *; lia.

Ltac case_ifs :=
  repeat match goal with
  | |- context [if ?b then _ else _] => let E := fresh "E" in destruct b eqn:E
  end.

Lemma idx_Done l i : 0 ≤ i < zlen l → idx l i = Done (nth (Z.to_nat i) l 0).
Proof. intros. unfold idx. case_ifs; [done|lia]. Qed.

Lemma idx_inv l i x : idx l i = Done x → 0 ≤ i < zlen l ∧ x = nth (Z.to_nat i) l 0.
Proof. unfold idx. case_ifs; [|done]. intros [= <-]. split; [lia|done]. Qed.

Lemma slice_Done {A} (l : list A) a b :
  0 ≤ a ≤ b → b ≤ zlen l → slice l a b = Done (take (Z.to_nat (b - a)) (drop (Z.to_nat a) l)).
Proof. intros. unfold slice. case_ifs; [done|lia]. Qed.

Lemma slice_from_Done {A} (l : list A) a :
  0 ≤ a ≤ zlen l → slice_from l a = Done (drop (Z.to_nat a) l).
Proof.
  intros. unfold slice_from. rewrite slice_Done by lia.
  rewrite take_ge; [done|]. rewrite length_drop. lia.
Qed.

Lemma slice_app_mid {A} (l m r : list A) a b :
  a = zlen l → b = zlen l + zlen m → slice (l ++ m ++ r) a b = Done m.
Proof.
  intros -> ->. rewrite slice_Done by len_lia.
  rewrite drop_app_length' by lia. rewrite take_app_length' by lia. done.
Qed.

Lemma slice_app_head {A} (l r : list A) b : b = zlen l → slice (l ++ r) 0 b = Done l.
Proof. intros ->. apply (slice_app_mid [] l r); done. Qed.

Lemma slice_from_app {A} (l r : list A) a : a = zlen l → slice_from (l ++ r) a = Done r.
Proof. intros ->. rewrite slice_from_Done by len_lia. by rewrite drop_app_length' by lia. Qed.

Lemma put_Done {A} (l v : list A) i :
  0 ≤ i → i + zlen v ≤ zlen l →
  put l i v = Done (take (Z.to_nat i) l ++ v ++ drop (Z.to_nat (i + zlen v)) l).
Proof. intros. unfold put. case_ifs; [done|lia]. Qed.

(** Overwriting the middle of a concatenation. *)
Lemma put_app_mid {A} (l m r v : list A) i :
  i = zlen l → length m = length v → put (l ++ m ++ r) i v = Done (l ++ v ++ r).
Proof.
  intros -> Hm. rewrite put_Done by len_lia. do 2 f_equal.
  - by rewrite take_app_length' by lia.
  - f_equal. rewrite app_assoc, drop_app_length'; [done|]. rewrite length_app. lia.
Qed.

Lemma put_length {A} (l v k : list A) i : put l i v = Done k → length k = length l.
Proof.
  unfold put. case_ifs; [|done]. intros [= <-].
  rewrite !length_app, length_take, length_drop. lia.
Qed.

Lemma list_filter_all {A} (P : A → Prop) `{∀ x, Decision (P x)} l : Forall P l → filter P l = l.
Proof. induction 1 as [|x l Hx _ IH]; [done|]. by rewrite filter_cons, decide_True, IH. Qed.
Lemma list_filter_none {A} (P : A → Prop) `{∀ x, Decision (P x)} l :
  Forall (λ x, ¬ P x) l → filter P l = [].
Proof. induction 1 as [|x l Hx _ IH]; [done|]. by rewrite filter_cons, decide_False. Qed.

(** * Big- and little-endian byte strings *)
Fixpoint to_le (n : nat) (z : Z) : list Z :=
  match n with
  | O => []
  | S n' => z mod 256 :: to_le n' (z / 256)
  end.
Fixpoint from_le (l : list Z) : Z :=
  match l with
  | [] => 0
  | b :: l' => b + 256 * from_le l'
  end.
Definition to_be (n : nat) (z : Z) : list Z := rev (to_le n z).
Definition from_be (l : list Z) : Z := from_le (rev l).

Lemma length_to_le n z : length (to_le n z) = n.
Proof. revert z. induction n; simpl; auto. Qed.
Lemma length_to_be n z : length (to_be n z) = n.
Proof. unfold to_be. by rewrite length_rev, length_to_le. Qed.
Lemma zlen_to_le n z : zlen (to_le n z) = Z.of_nat n.
Proof. by rewrite length_to_le. Qed.
Lemma zlen_to_be n z : zlen (to_be n z) = Z.of_nat n.
Proof. by rewrite length_to_be. Qed.
#[export] Hint Rewrite zlen_to_le zlen_to_be : zlen.
#[export] Hint Rewrite length_to_le length_to_be : lens.

Lemma bytes_to_le n z : bytes (to_le n z).
Proof.
  revert z. induction n; simpl; constructor; [|done].
  unfold is_u. apply Z.mod_pos_bound. lia.
Qed.
Lemma bytes_to_be n z : bytes (to_be n z).
Proof. apply Forall_rev, bytes_to_le. Qed.

Lemma from_to_le n z : from_le (to_le n z) = wrap (8 * Z.of_nat n) z.
Proof.
  revert z. induction n as [|n IH]; intros z; simpl.
  { unfold wrap. by rewrite Z.mod_1_r. }
  rewrite IH. unfold wrap.
  replace (8 * Z.of_nat (S n)) with (8 + 8 * Z.of_nat n) by lia.
  rewrite Z.pow_add_r by lia. change (2 ^ 8) with 256.
  rewrite Z.rem_mul_r by lia. done.
Qed.

Lemma from_to_be n z : is_u (8 * Z.of_nat n) z → from_be (to_be n z) = z.
Proof.
  intros H. unfold from_be, to_be. rewrite rev_involutive, from_to_le. by apply wrap_small.
Qed.

Lemma from_le_range l : bytes l → is_u (8 * zlen l) (from_le l).
Proof.
  induction 1 as [|b l Hb _ IH]; unfold is_u in *; simpl from_le; [simpl; lia|].
  rewrite zlen_cons. replace (8 * (1 + zlen l)) with (8 + 8 * zlen l) by lia.
  rewrite Z.pow_add_r by lia. change (2 ^ 8) with 256 in *. lia.
Qed.
Lemma from_be_range l : bytes l → is_u (8 * zlen l) (from_be l).
Proof.
  intros H. unfold from_be. rewrite <-(length_rev l). apply from_le_range. by apply Forall_rev.
Qed.

Lemma to_from_le l : bytes l → to_le (length l) (from_le l) = l.
Proof.
  induction 1 as [|b l Hb _ IH]; [done|]. unfold is_u in *. cbn [to_le from_le length].
  change (2 ^ 8) with 256 in *. f_equal.
  - rewrite Z.mul_comm, Z.mod_add by lia. apply Z.mod_small. lia.
  - rewrite Z.mul_comm, Z.div_add by lia. rewrite Z.div_small by lia. apply IH.
Qed.
Lemma to_from_be l : bytes l → to_be (length l) (from_be l) = l.
Proof.
  intros H. unfold to_be, from_be. rewrite <-(length_rev l), to_from_le by by apply Forall_rev.
  apply rev_involutive.
Qed.

Create HintDb bytes.
#[export] Hint Resolve bytes_to_le bytes_to_be Forall_nil_2 Forall_cons_2 Forall_app_2
  Forall_take Forall_drop Forall_replicate : bytes.

(** Byte strings given by concrete values. *)
Lemma bytes_check l : forallb (λ b, (0 <=? b) && (b <? 256)) l = true → bytes l.
Proof.
  rewrite forallb_forall, Forall_forall. intros H x Hx. apply list_elem_of_In in Hx.
  specialize (H x Hx). unfold is_u. lia.
Qed.
#[export] Hint Extern 3 (Forall (is_u 8) _) => (apply bytes_check; reflexivity) : bytes.

(** [idx]/[slice] on a buffer that is a concatenation, by computation of lengths. *)
Ltac done_idx :=
  rewrite ?idx_Done, ?slice_from_Done, ?slice_Done by len_lia; rewrite ?bind_Done.

(** Case analysis on the tests of a goal, with the indexing they justify. *)
Ltac run_step :=
  first
    [ rewrite bind_Done
    | rewrite idx_Done by len_lia
    | rewrite slice_from_Done by len_lia
    | rewrite slice_Done by len_lia
    | match goal with |- context [if ?b then _ else _] => let E := fresh "E" in destruct b eqn:E end ].

(** Execution of a goal whose tests are decided by arithmetic: replacing a test
    by its value also reduces the conditional. *)
Ltac solve_test :=
  first [ reflexivity | assumption
        | first [apply Z.ltb_ge | apply Z.ltb_lt | apply Z.leb_le | apply Z.leb_gt
                |apply Z.eqb_eq | apply Z.eqb_neq | idtac]; len_lia
        | len_lia ].
(** Boolean tests decided by arithmetic, in either orientation. *)
Ltac blia := solve [lia | symmetry; solve_test | solve_test].
Ltac exec_if :=
  match goal with
  | |- context [if ?b then _ else _] =>
      first [ replace b with true by (symmetry; solve_test)
            | replace b with false by (symmetry; solve_test) ]
  end.
(** The outermost index expression; [exec] also simplifies what it reads. *)
Ltac exec_idx :=
  match goal with
  | |- context [idx ?l ?i ≫= _] => rewrite (idx_Done l i) by len_lia; rewrite bind_Done
  end.
Ltac exec_slice :=
  match goal with
  | |- context [slice ?l ?a ?b ≫= _] => rewrite (slice_Done l a b) by len_lia; rewrite bind_Done
  | |- context [slice_from ?l ?a ≫= _] => rewrite (slice_from_Done l a) by len_lia; rewrite bind_Done
  end.
(** Inversion of a run that returned: every test and every call it went through. *)
Lemma bind_inv {A B} (m : outcome A) (f : A → outcome B) b :
  (m ≫= f) = Done b → ∃ a, m = Done a ∧ f a = Done b.
Proof. destruct m; [eauto|discriminate]. Qed.
Lemma slice_inv {A} (l : list A) a b r :
  slice l a b = Done r → 0 ≤ a ≤ b ∧ b ≤ zlen l ∧ r = take (Z.to_nat (b - a)) (drop (Z.to_nat a) l).
Proof. unfold slice. case_ifs; [|discriminate]. intros [= <-]. split_and!; try done; lia. Qed.
Lemma slice_from_inv {A} (l : list A) a r :
  slice_from l a = Done r → 0 ≤ a ≤ zlen l ∧ r = drop (Z.to_nat a) l.
Proof.
  intros E. pose proof (slice_inv _ _ _ _ E) as (?&?&_). split; [lia|].
  rewrite slice_from_Done in E by lia. congruence.
Qed.
Ltac run_inv H :=
  repeat match type of H with
  | Panic = Done _ => discriminate H
  | Done None = Done (Some _) => discriminate H
  | Done _ = Done _ => injection H as H
  | (if ?b then _ else _) = _ => let E := fresh "E" in destruct b eqn:E
  | (idx _ _ ≫= _) = _ =>
      let v := fresh "v" in let E := fresh "E" in
      apply bind_inv in H as (v & E & H); apply idx_inv in E as [E ->]
  | (slice _ _ _ ≫= _) = _ =>
      let v := fresh "v" in let E := fresh "E" in let E' := fresh "E" in
      apply bind_inv in H as (v & E & H); apply slice_inv in E as (E & E' & ->)
  | (slice_from _ _ ≫= _) = _ =>
      let v := fresh "v" in let E := fresh "E" in
      apply bind_inv in H as (v & E & H); apply slice_from_inv in E as [E ->]
  | (_ ≫= _) = _ =>
      let v := fresh "v" in let E := fresh "E" in apply bind_inv in H as (v & E & H)
  end.
Ltac exec_step := first [rewrite bind_Done | exec_if | exec_idx].
Ltac exec := repeat exec_step.
