(* ===== verification/Util.v ===== *)
(** Shared helpers of [src/src/util.rs]: serial-number comparison, hexadecimal
    text, the constant-time tag comparison, the packet-buffer free list and the
    xoshiro256** generator used for cosmetic randomness.

    Text is the list of its ASCII codes; a pooled buffer is its capacity
    together with its contents. *)
From S2P Require Import Prelude.

(** * Serial-number comparison *)
Definition larger_than_u32 (a b : Z) : bool := 0 <? as_signed 32 (a -⟨32⟩ b).
Definition larger_than_u16 (a b : Z) : bool := 0 <? as_signed 16 (a -⟨16⟩ b).

(** * Hexadecimal text *)
Definition hex_digit (n : Z) : Z := if n <? 10 then 48 + n else 97 + (n - 10).

Definition hex (bs : list Z) : list Z :=
  bs ≫= λ b, [hex_digit (Z.shiftr b 4); hex_digit (Z.land b 15)].

(** [char::to_digit(16)] *)
Definition to_digit16 (c : Z) : option Z :=
  if (48 <=? c) && (c <=? 57) then Some (c - 48)
  else if (97 <=? c) && (c <=? 102) then Some (c - 97 + 10)
  else if (65 <=? c) && (c <=? 70) then Some (c - 65 + 10)
  else None.

Fixpoint unhex_pairs (s : list Z) : option (list Z) :=
  match s with
  | a :: b :: s' =>
      hi ← to_digit16 a; lo ← to_digit16 b; out ← unhex_pairs s';
      Some (wrap 8 (hi * 16 + lo) :: out)
  | _ => Some []
  end.

Definition unhex (s : list Z) : option (list Z) :=
  if bool_decide (s = [45]) then Some []
  else if negb (zlen s mod 2 =? 0) then None
  else unhex_pairs s.

(** * Constant-time equality of tags *)
Definition ct_eq (a b : list Z) : bool :=
  if negb (zlen a =? zlen b) then false
  else foldl (λ acc '(x, y), Z.lor acc (Z.lxor x y)) 0 (zip a b) =? 0.

(** * The free list of packet buffers *)
Record Buf := mkBuf { buf_capacity : Z; buf_data : list Z }.
Record BufPool := mkBufPool { bp_free : list Buf; bp_buf_cap : Z; bp_max_free : Z }.

Definition BufPool_new (buf_cap max_free : Z) : BufPool := mkBufPool [] buf_cap max_free.

(** [free] is a stack: [pop] takes the last pushed buffer. *)
Definition BufPool_take (p : BufPool) : Buf * BufPool :=
  match bp_free p with
  | b :: fr => (b, mkBufPool fr (bp_buf_cap p) (bp_max_free p))
  | [] => (mkBuf (bp_buf_cap p) [], p)
  end.

Definition BufPool_recycle (p : BufPool) (b : Buf) : BufPool :=
  if (zlen (bp_free p) <? bp_max_free p) && (bp_buf_cap p <=? buf_capacity b)
  then mkBufPool (mkBuf (buf_capacity b) [] :: bp_free p) (bp_buf_cap p) (bp_max_free p)
  else p.

(** * xoshiro256** *)
Definition rotate_left (w x n : Z) : Z :=
  wrap w (Z.lor (Z.shiftl x n) (Z.shiftr x (w - n))).

Record Xoshiro256 := mkXoshiro { xs0 : Z; xs1 : Z; xs2 : Z; xs3 : Z }.

Definition Xoshiro_next_u64 (g : Xoshiro256) : Z * Xoshiro256 :=
  let '(mkXoshiro s0 s1 s2 s3) := g in
  let result := wrap 64 (rotate_left 64 (wrap 64 (s1 * 5)) 7 * 9) in
  let t := wrap 64 (Z.shiftl s1 17) in
  let s2 := Z.lxor s2 s0 in
  let s3 := Z.lxor s3 s1 in
  let s1 := Z.lxor s1 s2 in
  let s0 := Z.lxor s0 s3 in
  let s2 := Z.lxor s2 t in
  let s3 := rotate_left 64 s3 45 in
  (result, mkXoshiro s0 s1 s2 s3).

Definition Xoshiro_next_u32 (g : Xoshiro256) : Z * Xoshiro256 :=
  let '(r, g') := Xoshiro_next_u64 g in (Z.shiftr r 32, g').

(** * Serial comparison: facts used by the FakeTCP sequence emulation *)
Lemma larger_than_u32_spec a b :
  larger_than_u32 a b = true ↔ 0 < (a - b) mod 2 ^ 32 < 2 ^ 31.
Proof.
  unfold larger_than_u32, as_signed, wrap. change (32 - 1) with 31.
  pose proof (Z.mod_pos_bound (a - b) (2 ^ 32) ltac:(lia)).
  rewrite Z.ltb_lt. case_ifs; rewrite ?Z.ltb_lt, ?Z.ltb_ge in *; lia.
Qed.

Lemma larger_than_u16_spec a b :
  larger_than_u16 a b = true ↔ 0 < (a - b) mod 2 ^ 16 < 2 ^ 15.
Proof.
  unfold larger_than_u16, as_signed, wrap. change (16 - 1) with 15.
  pose proof (Z.mod_pos_bound (a - b) (2 ^ 16) ltac:(lia)).
  rewrite Z.ltb_lt. case_ifs; rewrite ?Z.ltb_lt, ?Z.ltb_ge in *; lia.
Qed.

(** Within half the number space, serial comparison orders by distance:
    advancing [b] by [d] makes it larger exactly when [0 < d < 2^31]. *)
Lemma larger_than_u32_advance b d :
  0 ≤ d < 2 ^ 32 → larger_than_u32 (b +⟨32⟩ d) b = (0 <? d) && (d <? 2 ^ 31).
Proof.
  intros Hd. apply eq_true_iff_eq. rewrite larger_than_u32_spec, andb_true_iff, !Z.ltb_lt.
  unfold wrap. rewrite Zminus_mod_idemp_l. replace (b + d - b) with d by lia.
  rewrite Z.mod_small by lia. lia.
Qed.

(** * Hexadecimal round trip *)
Lemma to_digit16_hex_digit n : 0 ≤ n < 16 → to_digit16 (hex_digit n) = Some n.
Proof.
  intros. unfold to_digit16, hex_digit.
  destruct (n <? 10) eqn:?; case_ifs; first [f_equal; lia | lia].
Qed.

Lemma unhex_pairs_hex bs : bytes bs → unhex_pairs (hex bs) = Some bs.
Proof.
  induction 1 as [|b bs Hb _ IH]; [done|]. unfold is_u in Hb. change (2 ^ 8) with 256 in Hb.
  cbn [hex mbind list_bind app unhex_pairs].
  rewrite (shiftr_div b 4), (land_15 b) by lia. change (2 ^ 4) with 16.
  rewrite !to_digit16_hex_digit by
    (first [apply Z.mod_pos_bound; lia | split; [apply Z.div_pos; lia|apply Z.div_lt_upper_bound; lia]]).
  cbn [mbind option_bind]. fold (hex bs). rewrite IH.
  rewrite <-(Z.mul_comm 16), <-Z.div_mod, wrap_small by (unfold is_u; lia). done.
Qed.

Lemma hex_length bs : zlen (hex bs) = 2 * zlen bs.
Proof.
  induction bs as [|b bs IH]; [done|].
  change (hex (b :: bs)) with (hex_digit (Z.shiftr b 4) :: hex_digit (Z.land b 15) :: hex bs).
  rewrite !zlen_cons. lia.
Qed.

(** * Tag comparison *)
Lemma ct_eq_acc_pos l acc :
  0 ≤ acc → Forall (λ p, is_byte p.1 ∧ is_byte p.2) l →
  foldl (λ acc '(x, y), Z.lor acc (Z.lxor x y)) acc l = 0 ↔ acc = 0 ∧ Forall (λ p, p.1 = p.2) l.
Proof.
  intros Hacc H. revert acc Hacc. induction H as [|[x y] l [Hx Hy] _ IH]; intros acc Hacc; simpl.
  { split; [auto|intuition]. }
  unfold is_u in *. simpl in *.
  assert (0 ≤ Z.lxor x y) by (apply Z.lxor_nonneg; lia).
  rewrite IH by (apply Z.lor_nonneg; lia).
  rewrite Z.lor_eq_0_iff, Forall_cons, Z.lxor_eq_0_iff. simpl. tauto.
Qed.

Lemma zip_diag_eq (a b : list Z) :
  length a = length b → Forall (λ p, p.1 = p.2) (zip a b) → a = b.
Proof.
  revert b. induction a; intros [|y b] Hl H; simplify_eq/=; [done|].
  apply Forall_cons in H as [Heq ?]. simpl in Heq. subst. f_equal. by apply IHa.
Qed.

Lemma zip_diag (a : list Z) : Forall (λ p, p.1 = p.2) (zip a a).
Proof. induction a; simpl; constructor; auto. Qed.

Lemma bytes_zip a b :
  bytes a → bytes b → Forall (λ p, is_byte p.1 ∧ is_byte p.2) (zip a b).
Proof.
  intros Ha. revert b. induction Ha; intros b Hb; [constructor|].
  destruct Hb; simpl; constructor; auto.
Qed.

Lemma ct_eq_refl a : ct_eq a a = true.
Proof.
  unfold ct_eq. rewrite Z.eqb_refl. simpl. apply Z.eqb_eq.
  induction a as [|x a IH]; [done|]. simpl. by rewrite Z.lxor_nilpotent.
Qed.

Lemma ct_eq_iff a b : bytes a → bytes b → ct_eq a b = true ↔ a = b.
Proof.
  intros Ha Hb. split; [|intros <-; apply ct_eq_refl].
  unfold ct_eq. destruct (zlen a =? zlen b) eqn:E; [|done]. cbn [negb]. intros H%Z.eqb_eq.
  apply ct_eq_acc_pos in H as [_ H]; [|done|by apply bytes_zip]. apply zip_diag_eq; [lia|done].
Qed.

(** The pool hands out empty buffers of at least the configured capacity and
    never holds more than [max_free] of them. *)
Definition BufPool_ok (p : BufPool) : Prop :=
  zlen (bp_free p) ≤ Z.max 0 (bp_max_free p) ∧
  Forall (λ b, buf_data b = [] ∧ bp_buf_cap p ≤ buf_capacity b) (bp_free p).

Lemma BufPool_take_ok p b p' :
  BufPool_ok p → BufPool_take p = (b, p') →
  BufPool_ok p' ∧ buf_data b = [] ∧ bp_buf_cap p ≤ buf_capacity b.
Proof.
  unfold BufPool_take, BufPool_ok.
  destruct p as [[|b0 fr] cap mx]; cbn [bp_free bp_buf_cap bp_max_free]; intros [Hl Hf] [= <- <-];
    cbn [bp_free bp_buf_cap bp_max_free buf_data buf_capacity].
  - repeat split; auto; lia.
  - apply Forall_cons in Hf as [[? ?] ?]. rewrite zlen_cons in Hl. repeat split; auto; lia.
Qed.

Lemma BufPool_recycle_ok p b : BufPool_ok p → BufPool_ok (BufPool_recycle p b).
Proof.
  unfold BufPool_recycle, BufPool_ok. intros [Hl Hf].
  case_ifs; [|done]. cbn [bp_free bp_buf_cap bp_max_free]. rewrite zlen_cons.
  apply andb_true_iff in E as [E1 E2]. split; [lia|]. constructor; [simpl; split; [done|lia]|done].
Qed.

(** The generator stays in its 64-bit state space. *)
Definition Xoshiro_ok (g : Xoshiro256) : Prop :=
  is_u 64 (xs0 g) ∧ is_u 64 (xs1 g) ∧ is_u 64 (xs2 g) ∧ is_u 64 (xs3 g).

Lemma Xoshiro_next_u64_ok g r g' :
  Xoshiro_ok g → Xoshiro_next_u64 g = (r, g') → Xoshiro_ok g' ∧ is_u 64 r.
Proof.
  destruct g as [s0 s1 s2 s3]. unfold Xoshiro_ok. simpl. intros (?&?&?&?) [= <- <-]. simpl.
  repeat split_and?; try (apply wrap_range; lia);
    repeat (apply is_u_lxor; [lia|..]); auto using wrap_range with lia.
Qed.

