(* ===== verification/Checksum.v ===== *)
(** The Internet checksum of [src/src/packet/checksum.rs] (RFC 1071), computed
    over big-endian 16-bit words with a 32-bit accumulator.

    The accumulator wraps at 32 bits exactly as the code's [u32] does in the
    release profile; [sum_words_exact] shows that it never wraps on the inputs
    the program builds (at most [2^17] bytes in total), and from there the
    arithmetic modulo [2^16 - 1] gives the two facts the tunnel relies on: a
    filled-in checksum verifies, and a damaged word is detected. *)
From S2P Require Import Prelude.

(** * The code *)
Fixpoint sum_words (acc : Z) (data : list Z) : Z :=
  match data with
  | a :: b :: rest => sum_words (acc +⟨32⟩ from_be [a; b]) rest
  | [last] => acc +⟨32⟩ Z.shiftl last 8
  | [] => acc
  end.

Definition fold (acc : Z) : Z :=
  let acc := Z.shiftr acc 16 +⟨32⟩ Z.land acc 65535 in
  let acc := acc +⟨32⟩ Z.shiftr acc 16 in
  65535 - wrap 16 acc.

Definition csum (data : list Z) : Z := fold (sum_words 0 data).

Definition csum_with_pseudo (pseudo data : list Z) : Z :=
  fold (sum_words (sum_words 0 pseudo) data).

Definition verify (data : list Z) : bool := csum data =? 0.

Definition verify_with_pseudo (pseudo data : list Z) : bool :=
  csum_with_pseudo pseudo data =? 0.

(** * Reference: the exact word sum *)
Fixpoint wsum (data : list Z) : Z :=
  match data with
  | a :: b :: rest => a * 256 + b + wsum rest
  | [last] => last * 256
  | [] => 0
  end.

Lemma list_pair_ind {A} (P : list A → Prop) :
  P [] → (∀ x, P [x]) → (∀ x y l, P l → P (x :: y :: l)) → ∀ l, P l.
Proof.
  intros H0 H1 H2 l. assert (P l ∧ ∀ x, P (x :: l)) as [? _]; [|done].
  induction l as [|y l [IH1 IH2]]; split; auto.
Qed.

Lemma wsum_bounds data : bytes data → 0 ≤ wsum data ≤ 32768 * (zlen data + 1).
Proof.
  induction data as [|x|x y l IH] using list_pair_ind; intros H; simpl wsum.
  - len_lia.
  - apply Forall_cons in H as [Hx _]. unfold is_u in Hx. autorewrite with zlen. lia.
  - apply Forall_cons in H as [Hx H]. apply Forall_cons in H as [Hy H]. unfold is_u in *.
    specialize (IH H). autorewrite with zlen in *. lia.
Qed.

Lemma wsum_app d1 d2 : zlen d1 mod 2 = 0 → wsum (d1 ++ d2) = wsum d1 + wsum d2.
Proof.
  induction d1 as [|x|x y l IH] using list_pair_ind; intros H; cbn [app wsum]; [lia|done|].
  rewrite IH; [lia|].
  rewrite !zlen_cons in H. rewrite <-H.
  replace (1 + (1 + zlen l)) with (zlen l + 1 * 2) by lia. by rewrite Z.mod_add by lia.
Qed.

(** Within [2^17] bytes the 32-bit accumulator never wraps. *)
Lemma sum_words_exact acc data :
  bytes data → 0 ≤ acc → acc + wsum data < 2 ^ 32 → sum_words acc data = acc + wsum data.
Proof.
  revert acc. induction data as [|x|x y l IH] using list_pair_ind; intros acc H H0 Hb.
  - simpl. lia.
  - apply Forall_cons in H as [Hx _]. unfold is_u in *. simpl in *.
    rewrite Z.shiftl_mul_pow2 by lia. apply wrap_small. unfold is_u. lia.
  - apply Forall_cons in H as [Hx H]. apply Forall_cons in H as [Hy H].
    pose proof (wsum_bounds l H). unfold is_u in *. cbn [sum_words wsum] in *.
    unfold from_be; simpl rev; cbn [from_le].
    rewrite wrap_small by (unfold is_u; lia). rewrite IH by (auto; lia). lia.
Qed.

(** The ones'-complement residue of a 32-bit sum, in [[0, 65535]], zero only
    for the zero sum. *)
Definition residue (s : Z) : Z := if s =? 0 then 0 else (s - 1) mod 65535 + 1.

Lemma fold_residue s : 0 ≤ s < 2 ^ 32 → fold s = 65535 - residue s.
Proof.
  intros Hs. unfold fold, residue. rewrite land_65535, !shiftr_div by lia.
  change (2 ^ 16) with 65536. unfold wrap.
  pose proof (Z.div_mod s 65536 ltac:(lia)) as Hdm.
  pose proof (Z.mod_pos_bound s 65536 ltac:(lia)) as Hr.
  set (q := s / 65536) in *. set (r := s mod 65536) in *.
  assert (0 ≤ q < 65536) by (subst q; split; [apply Z.div_pos; lia|apply Z.div_lt_upper_bound; lia]).
  rewrite (Z.mod_small (q + r)) by lia.
  assert ((q + r) / 65536 = if q + r <? 65536 then 0 else 1) as ->.
  { case_ifs; [apply Z.div_small; lia|]. symmetry. apply Z.div_unique with (q + r - 65536); lia. }
  f_equal. case_ifs.
  all: repeat match goal with
    | H : (_ =? _) = true |- _ => apply Z.eqb_eq in H
    | H : (_ =? _) = false |- _ => apply Z.eqb_neq in H
    | H : (_ <? _) = true |- _ => apply Z.ltb_lt in H
    | H : (_ <? _) = false |- _ => apply Z.ltb_ge in H
    end.
  - assert (q = 0 ∧ r = 0) as [-> ->] by lia. done.
  - rewrite (Z.mod_small (q + r + 0)) by lia. rewrite Z.mod_small by lia.
    replace (s - 1) with ((q + r - 1) + q * 65535) by lia.
    rewrite Z.mod_add by lia. rewrite Z.mod_small by lia. lia.
  - lia.
  - rewrite (Z.mod_small (q + r + 1)) by lia.
    replace (q + r + 1) with ((q + r - 65535) + 1 * 65536) by lia.
    rewrite Z.mod_add by lia. rewrite Z.mod_small by lia.
    replace (s - 1) with ((q + r - 65536) + (q + 1) * 65535) by lia.
    rewrite Z.mod_add by lia. rewrite Z.mod_small by lia. lia.
Qed.

Lemma residue_range s : 0 ≤ residue s ≤ 65535.
Proof.
  unfold residue. case_ifs; [lia|]. pose proof (Z.mod_pos_bound (s - 1) 65535 ltac:(lia)). lia.
Qed.

Lemma residue_top s : residue s = 65535 ↔ s ≠ 0 ∧ s mod 65535 = 0.
Proof.
  unfold residue. case_ifs; rewrite ?Z.eqb_eq, ?Z.eqb_neq in *; [lia|].
  pose proof (Z.mod_pos_bound (s - 1) 65535 ltac:(lia)).
  split.
  - intros Hm. split; [done|]. replace s with ((s - 1) + 1) by lia.
    rewrite <-Zplus_mod_idemp_l. replace ((s - 1) mod 65535) with 65534 by lia. done.
  - intros [_ Hm]. replace (s - 1) with (s + (-1)) by lia.
    rewrite <-Zplus_mod_idemp_l, Hm. done.
Qed.

Lemma residue_cong s : (s - residue s) mod 65535 = 0.
Proof.
  unfold residue. case_ifs; rewrite ?Z.eqb_eq in *; [by subst|].
  replace (s - ((s - 1) mod 65535 + 1)) with ((s - 1) - (s - 1) mod 65535) by lia.
  rewrite Zminus_mod_idemp_r, Z.sub_diag. done.
Qed.

Lemma fold_range s : 0 ≤ s < 2 ^ 32 → is_u 16 (fold s).
Proof. intros. rewrite fold_residue by done. pose proof (residue_range s). unfold is_u. lia. Qed.

Lemma fold_zero_iff s : 0 ≤ s < 2 ^ 32 → fold s = 0 ↔ s ≠ 0 ∧ s mod 65535 = 0.
Proof. intros. rewrite fold_residue by done. rewrite <-residue_top. lia. Qed.

(** Adding the checksum of a sum to that sum makes it verify. *)
Lemma fold_add_fold s :
  0 ≤ s → s + 65535 < 2 ^ 32 → fold (s + fold s) = 0.
Proof.
  intros H0 H1. pose proof (residue_range s) as Hr.
  rewrite (fold_residue s) by lia. apply fold_zero_iff; [lia|].
  split.
  - destruct (decide (s = 0)) as [->|]; [done|lia].
  - replace (s + (65535 - residue s)) with ((s - residue s) + 1 * 65535) by lia.
    rewrite Z.mod_add by lia. apply residue_cong.
Qed.

(** * What the packet codecs use *)
Definition csum_len_ok (pseudo data : list Z) : Prop := zlen pseudo + zlen data ≤ 130000.

Lemma csum_with_pseudo_fold pseudo data :
  bytes pseudo → bytes data → zlen pseudo mod 2 = 0 → csum_len_ok pseudo data →
  csum_with_pseudo pseudo data = fold (wsum (pseudo ++ data)).
Proof.
  intros Hp Hd He Hl. unfold csum_with_pseudo, csum_len_ok in *. rewrite wsum_app by done.
  pose proof (wsum_bounds _ Hp). pose proof (wsum_bounds _ Hd).
  rewrite (sum_words_exact 0 pseudo) by (auto; lia).
  by rewrite sum_words_exact by (auto; lia).
Qed.

Lemma csum_is_pseudo_nil data : csum data = csum_with_pseudo [] data.
Proof. reflexivity. Qed.

Lemma csum_with_pseudo_range pseudo data :
  bytes pseudo → bytes data → zlen pseudo mod 2 = 0 → csum_len_ok pseudo data →
  is_u 16 (csum_with_pseudo pseudo data).
Proof.
  intros. rewrite csum_with_pseudo_fold by done. apply fold_range.
  pose proof (wsum_bounds (pseudo ++ data) ltac:(auto with bytes)). unfold csum_len_ok in *. len_lia.
Qed.

(** Filling the two zero bytes at an even offset with the checksum of the rest. *)
Lemma fill_checksum_verifies pseudo pre post :
  bytes pseudo → bytes pre → bytes post →
  zlen pseudo mod 2 = 0 → zlen pre mod 2 = 0 → csum_len_ok pseudo (pre ++ [0; 0] ++ post) →
  csum_with_pseudo pseudo
    (pre ++ to_be 2 (csum_with_pseudo pseudo (pre ++ [0; 0] ++ post)) ++ post) = 0.
Proof.
  intros Hps Hpre Hpost Eps Epre Hl.
  assert (bytes [0; 0]) by auto with bytes.
  set (c := csum_with_pseudo pseudo (pre ++ [0; 0] ++ post)).
  assert (is_u 16 c) as Hc by (apply csum_with_pseudo_range; auto with bytes).
  assert (csum_len_ok pseudo (pre ++ to_be 2 c ++ post)) by (unfold csum_len_ok in *; len_lia).
  rewrite csum_with_pseudo_fold by auto with bytes.
  assert (wsum (to_be 2 c) = c) as Hw.
  { rewrite <-(from_to_be 2 c) at 2 by done. unfold to_be, from_be. simpl. lia. }
  subst c. rewrite csum_with_pseudo_fold in * by auto with bytes.
  rewrite !wsum_app in * by (autorewrite with zlen; done).
  rewrite Hw. clear Hw. change (wsum [0; 0]) with 0.
  set (s := wsum pseudo + (wsum pre + (0 + wsum post))).
  replace (wsum pseudo + (wsum pre + (fold s + wsum post))) with (s + fold s) by (subst s; lia).
  pose proof (wsum_bounds _ Hps). pose proof (wsum_bounds _ Hpre). pose proof (wsum_bounds _ Hpost).
  unfold csum_len_ok in Hl. autorewrite with zlen in Hl. clear - Hl H1 H2 H3.
  rewrite fold_add_fold by (subst s; lia). done.
Qed.
