(* ===== verification/Ip.v ===== *)
(** IPv4 and IPv6 headers: [src/src/packet/ip.rs].

    Addresses are their octets; [build_ip_header] and [parse_ip] follow the
    code's writes and reads one by one, with a panic for every index or slice
    that would be out of range and for mixed address families. *)
From S2P Require Import Prelude Checksum.

(** * Data *)
Inductive IpAddr :=
| V4 (octets : list Z)
| V6 (octets : list Z).

#[export] Instance IpAddr_eq_dec : EqDecision IpAddr.
Proof. solve_decision. Defined.
#[export] Instance IpAddr_countable : Countable IpAddr.
Proof.
  refine (inj_countable' (λ a, match a with V4 o => inl o | V6 o => inr o end)
                         (λ s, match s with inl o => V4 o | inr o => V6 o end) _).
  by intros [].
Defined.

Definition is_ipv6 (a : IpAddr) : bool := match a with V4 _ => false | V6 _ => true end.

(** The octet strings the type [std::net::IpAddr] can hold. *)
Definition ip_ok (a : IpAddr) : Prop :=
  match a with
  | V4 o => bytes o ∧ length o = 4%nat
  | V6 o => bytes o ∧ length o = 16%nat
  end.
Definition same_family (a b : IpAddr) : Prop := is_ipv6 a = is_ipv6 b.

Definition IPV4_HEADER_LEN : Z := 20.
Definition IPV6_HEADER_LEN : Z := 40.
Definition IPPROTO_ICMP : Z := 1.
Definition IPPROTO_TCP : Z := 6.
Definition IPPROTO_UDP : Z := 17.
Definition IPPROTO_ICMPV6 : Z := 58.

Record ParsedIp := mkParsedIp {
  ip_src : IpAddr;
  ip_dst : IpAddr;
  ip_protocol : Z;
  ip_header_len : Z;
  ip_total_len : Z }.

(** * Building *)
Definition build_ip_header (out : list Z) (src dst : IpAddr) (protocol ttl id payload_len : Z)
  : outcome (list Z) :=
  match src, dst with
  | V4 s, V4 d =>
      let start := zlen out in
      let out := vec_resize out (start + IPV4_HEADER_LEN) 0 in
      h ← slice_from out start;
      h ← put h 0 [0x45];
      h ← put h 1 [0];
      let tot := wrap 16 (IPV4_HEADER_LEN + payload_len) in
      h ← put h 2 (to_be 2 tot);
      h ← put h 4 (to_be 2 id);
      h ← put h 6 (to_be 2 0x4000);
      h ← put h 8 [ttl];
      h ← put h 9 [protocol];
      h ← put h 10 [0];
      h ← put h 11 [0];
      h ← put h 12 s;
      h ← put h 16 d;
      hd ← slice h 0 IPV4_HEADER_LEN;
      let c := csum hd in
      h ← put h 10 (to_be 2 c);
      put out start h
  | V6 s, V6 d =>
      let start := zlen out in
      let out := vec_resize out (start + IPV6_HEADER_LEN) 0 in
      h ← slice_from out start;
      h ← put h 0 [0x60];
      h ← put h 4 (to_be 2 (wrap 16 payload_len));
      h ← put h 6 [protocol];
      h ← put h 7 [ttl];
      h ← put h 8 s;
      h ← put h 24 d;
      put out start h
  | _, _ => Panic
  end.

(** [ParsedIp::payload] *)
Definition ip_payload (p : ParsedIp) (buf : list Z) : outcome (list Z) :=
  slice buf (ip_header_len p) (ip_total_len p).

(** * Parsing *)
Definition parse_ip (buf : list Z) (want_v6 verify_csum : bool) : outcome (option ParsedIp) :=
  if zlen buf =? 0 then Done None else
  b0 ← idx buf 0;
  let version := Z.shiftr b0 4 in
  if negb want_v6 then
    if negb (version =? 4) then Done None else
    if zlen buf <? IPV4_HEADER_LEN then Done None else
    b0 ← idx buf 0;
    let ihl := Z.land b0 15 * 4 in
    if (ihl <? IPV4_HEADER_LEN) || (zlen buf <? ihl) then Done None else
    b2 ← idx buf 2; b3 ← idx buf 3;
    let tot_len := from_be [b2; b3] in
    if (zlen buf <? tot_len) || (tot_len <? ihl) then Done None else
    hd ← slice buf 0 ihl;
    if verify_csum && negb (verify hd) then Done None else
    src ← slice buf 12 16;
    dst ← slice buf 16 20;
    protocol ← idx buf 9;
    Done (Some (mkParsedIp (V4 src) (V4 dst) protocol ihl tot_len))
  else
    if negb (version =? 6) then Done None else
    if zlen buf <? IPV6_HEADER_LEN then Done None else
    b4 ← idx buf 4; b5 ← idx buf 5;
    let payload_len := from_be [b4; b5] in
    let tot := IPV6_HEADER_LEN + payload_len in
    if zlen buf <? tot then Done None else
    src ← slice buf 8 24;
    dst ← slice buf 24 40;
    protocol ← idx buf 6;
    Done (Some (mkParsedIp (V6 src) (V6 dst) protocol IPV6_HEADER_LEN tot)).

(** * Pseudo header for the transport checksums *)
Definition pseudo_header (src dst : IpAddr) (protocol transport_len : Z) : outcome (list Z) :=
  match src, dst with
  | V4 s, V4 d => Done (s ++ d ++ [0] ++ [protocol] ++ to_be 2 (wrap 16 transport_len))
  | V6 s, V6 d =>
      let be := to_be 2 (wrap 16 transport_len) in
      b0 ← idx be 0; b1 ← idx be 1;
      Done (s ++ d ++ [b0; b1; 0; 0] ++ [0; 0; 0] ++ [protocol])
  | _, _ => Panic
  end.

(** * Layout lemmas *)
(** Replace a list of known literal length by its elements. *)
Ltac explode1 l H := destruct l as [|? l]; [discriminate H|].
Ltac explode0 l H := destruct l; [clear H|discriminate H].
Ltac explode4 l H := do 4 explode1 l H; explode0 l H.
Ltac explode16 l H := do 16 explode1 l H; explode0 l H.

(** Overwriting the freshly grown tail of a buffer. *)
Lemma put_tail (out h : list Z) n :
  zlen h = Z.of_nat n → put (out ++ replicate n 0) (zlen out) h = Done (out ++ h).
Proof.
  intros Hn. rewrite <-(app_nil_r (replicate n 0)).
  rewrite put_app_mid by (rewrite ?length_replicate; lia). by rewrite app_nil_r.
Qed.

Lemma vec_resize_grow {A} (l : list A) n (v : A) :
  0 ≤ n → vec_resize l (zlen l + n) v = l ++ replicate (Z.to_nat n) v.
Proof.
  intros. unfold vec_resize. rewrite take_ge by lia. do 2 f_equal. lia.
Qed.

(** The fixed fields before the checksum, and the complete header. *)
Definition ip4_fixed (tot id ttl protocol : Z) : list Z :=
  [0x45; 0] ++ to_be 2 tot ++ to_be 2 id ++ to_be 2 0x4000 ++ [ttl; protocol].
Definition ip4_header (s d : list Z) (tot id ttl protocol : Z) : list Z :=
  ip4_fixed tot id ttl protocol ++
  to_be 2 (csum (ip4_fixed tot id ttl protocol ++ [0; 0] ++ s ++ d)) ++ s ++ d.

Lemma build_ip4_layout out s d protocol ttl id n :
  length s = 4%nat → length d = 4%nat →
  build_ip_header out (V4 s) (V4 d) protocol ttl id n
  = Done (out ++ ip4_header s d (wrap 16 (20 + n)) id ttl protocol).
Proof.
  intros Hs Hd. unfold build_ip_header, IPV4_HEADER_LEN.
  rewrite vec_resize_grow by lia. cbv zeta. rewrite slice_from_app by done. rewrite bind_Done.
  set (tot := wrap 16 (20 + n)).
  transitivity (put (out ++ replicate 20 0) (zlen out) (ip4_header s d tot id ttl protocol)).
  { explode4 s Hs. explode4 d Hd. reflexivity. }
  apply put_tail. unfold ip4_header, ip4_fixed. len_lia.
Qed.

Definition ip6_header (s d : list Z) (n ttl protocol : Z) : list Z :=
  [0x60; 0; 0; 0] ++ to_be 2 n ++ [protocol; ttl] ++ s ++ d.

Lemma build_ip6_layout out s d protocol ttl id n :
  length s = 16%nat → length d = 16%nat →
  build_ip_header out (V6 s) (V6 d) protocol ttl id n
  = Done (out ++ ip6_header s d (wrap 16 n) ttl protocol).
Proof.
  intros Hs Hd. unfold build_ip_header, IPV6_HEADER_LEN.
  rewrite vec_resize_grow by lia. cbv zeta. rewrite slice_from_app by done. rewrite bind_Done.
  set (k := wrap 16 n).
  transitivity (put (out ++ replicate 40 0) (zlen out) (ip6_header s d k ttl protocol)).
  { explode16 s Hs. explode16 d Hd. reflexivity. }
  apply put_tail. unfold ip6_header. len_lia.
Qed.

Lemma nth_byte l i : bytes l → is_byte (nth i l 0).
Proof.
  intros H. destruct (decide (i < length l)%nat) as [Hi|Hi].
  - rewrite Forall_forall in H. apply H. apply list_elem_of_In, nth_In. lia.
  - rewrite nth_overflow by lia. unfold is_u. lia.
Qed.

Lemma from_be2_range a b : is_byte a → is_byte b → 0 ≤ from_be [a; b] < 65536.
Proof. intros Ha Hb. pose proof (from_be_range [a; b] ltac:(auto with bytes)) as H. apply H. Qed.

(** * Parsing is total, and what it returns delimits a payload inside the buffer *)
Definition parsed_ip_ok (buf : list Z) (p : ParsedIp) : Prop :=
  ip_ok (ip_src p) ∧ ip_ok (ip_dst p) ∧ same_family (ip_src p) (ip_dst p) ∧ is_byte (ip_protocol p) ∧
  20 ≤ ip_header_len p ≤ ip_total_len p ∧ ip_total_len p ≤ zlen buf.

Lemma parse_ip_total buf v6 vc :
  bytes buf →
  ∃ r, parse_ip buf v6 vc = Done r ∧
       ∀ p, r = Some p → parsed_ip_ok buf p ∧ is_ipv6 (ip_src p) = v6.
Proof.
  intros Hb. unfold parse_ip, IPV4_HEADER_LEN, IPV6_HEADER_LEN.
  repeat (run_step; try (eexists; split; [done|]; done)).
  all: eexists; split; [done|]; intros p [= <-]; unfold parsed_ip_ok; simpl.
  all: pose proof (from_be2_range _ _ (nth_byte buf (Z.to_nat 4) Hb) (nth_byte buf (Z.to_nat 5) Hb)).
  all: split_and!; auto using Forall_take, Forall_drop, nth_byte; try lia; try done.
  all: try (rewrite length_take, length_drop; lia).
  all: first [by destruct v6 | lia].
Qed.

Lemma ip_payload_total buf p :
  parsed_ip_ok buf p → ∃ d, ip_payload p buf = Done d ∧ zlen d = ip_total_len p - ip_header_len p.
Proof.
  intros (_&_&_&_&?&?). unfold ip_payload. rewrite slice_Done by lia.
  eexists. split; [done|]. len_lia.
Qed.

(** Skipping the checksum accepts at least what checking it accepts. *)
Lemma parse_ip_unchecked buf v6 p :
  parse_ip buf v6 true = Done (Some p) → parse_ip buf v6 false = Done (Some p).
Proof.
  destruct v6; [done|]. unfold parse_ip. cbn [negb andb]. intros H.
  repeat match type of H with
  | (if ?b then _ else _) = _ => destruct b; [discriminate H|]
  | (?m ≫= _) = _ => destruct m; [rewrite bind_Done in *|discriminate H]
  end. done.
Qed.

(** * Round trips *)
Lemma bytes_ip4_fixed tot id ttl protocol :
  is_byte ttl → is_byte protocol → bytes (ip4_fixed tot id ttl protocol).
Proof. intros. unfold ip4_fixed. auto 10 with bytes. Qed.

Lemma verify_ip4_header s d tot id ttl protocol :
  ip_ok (V4 s) → ip_ok (V4 d) → is_byte ttl → is_byte protocol →
  verify (ip4_header s d tot id ttl protocol) = true.
Proof.
  intros [Hs Ls] [Hd Ld] Ht Hp. unfold verify, ip4_header. apply Z.eqb_eq.
  rewrite !csum_is_pseudo_nil.
  apply (fill_checksum_verifies [] (ip4_fixed tot id ttl protocol) (s ++ d));
    auto using bytes_ip4_fixed with bytes.
  unfold csum_len_ok, ip4_fixed. len_lia.
Qed.

Lemma parse_build_ip4 s d tot id ttl protocol payload vc :
  ip_ok (V4 s) → ip_ok (V4 d) → is_byte ttl → is_byte protocol →
  tot = 20 + zlen payload → tot < 65536 →
  parse_ip (ip4_header s d tot id ttl protocol ++ payload) false vc
  = Done (Some (mkParsedIp (V4 s) (V4 d) protocol 20 tot)).
Proof.
  intros Hs Hd Ht Hp Htot Hlt.
  pose proof (verify_ip4_header s d tot id ttl protocol Hs Hd Ht Hp) as Hv.
  destruct Hs as [Hs Ls], Hd as [Hd Ld].
  set (h := ip4_header s d tot id ttl protocol) in *.
  assert (zlen h = 20) as Hlen by (unfold h, ip4_header, ip4_fixed; len_lia).
  unfold parse_ip, IPV4_HEADER_LEN. cbv zeta. exec_if.
  exec_idx. change (nth (Z.to_nat 0) (h ++ payload) 0) with 69.
  exec. change (from_be _) with (from_be (to_be 2 tot)).
  rewrite from_to_be by (unfold is_u; lia). change (Z.land 69 15 * 4) with 20. exec.
  rewrite (slice_app_head h payload 20) by lia.
  rewrite bind_Done, Hv, andb_false_r.
  do 2 exec_slice. exec_idx. clear Hlen Hv. explode4 s Ls. explode4 d Ld. reflexivity.
Qed.

Lemma parse_build_ip6 s d n ttl protocol payload vc :
  ip_ok (V6 s) → ip_ok (V6 d) → n = zlen payload → n < 65536 →
  parse_ip (ip6_header s d n ttl protocol ++ payload) true vc
  = Done (Some (mkParsedIp (V6 s) (V6 d) protocol 40 (40 + n))).
Proof.
  intros [Hs Ls] [Hd Ld] Hn Hlt.
  set (h := ip6_header s d n ttl protocol).
  assert (zlen h = 40) as Hlen by (unfold h, ip6_header; len_lia).
  unfold parse_ip, IPV6_HEADER_LEN. cbv zeta. exec_if.
  exec_idx. change (nth (Z.to_nat 0) (h ++ payload) 0) with 96.
  exec. change (from_be _) with (from_be (to_be 2 n)).
  rewrite from_to_be by (unfold is_u; lia). exec_if.
  do 2 exec_slice. exec_idx. clear Hlen. explode16 s Ls. explode16 d Ld. reflexivity.
Qed.

(** What the transport codecs need of a header in front of a payload, in either
    address family. *)
Lemma ip_build_parse src dst protocol ttl id payload vc :
  ip_ok src → ip_ok dst → same_family src dst → is_byte ttl → is_byte protocol →
  40 + zlen payload < 65536 →
  ∃ pkt p, build_ip_header [] src dst protocol ttl id (zlen payload) = Done pkt ∧
    parse_ip (pkt ++ payload) (is_ipv6 src) vc = Done (Some p) ∧
    ip_src p = src ∧ ip_dst p = dst ∧ ip_protocol p = protocol ∧
    ip_payload p (pkt ++ payload) = Done payload.
Proof.
  intros Hs Hd Hf Ht Hp Hlen. destruct src as [s|s], dst as [d|d]; try discriminate Hf.
  - pose proof (proj2 Hs). pose proof (proj2 Hd). rewrite build_ip4_layout by done.
    rewrite wrap_small by (unfold is_u; lia).
    eexists _, _. split; [reflexivity|]. rewrite app_nil_l.
    split; [by apply parse_build_ip4; try lia|]. split_and!; try done.
    unfold ip_payload. cbn [ip_header_len ip_total_len]. rewrite slice_Done by (unfold ip4_header, ip4_fixed; len_lia).
    f_equal. rewrite drop_app_length' by (unfold ip4_header, ip4_fixed; len_lia).
    apply take_ge. lia.
  - pose proof (proj2 Hs). pose proof (proj2 Hd). rewrite build_ip6_layout by done.
    rewrite wrap_small by (unfold is_u; lia).
    eexists _, _. split; [reflexivity|]. rewrite app_nil_l.
    split; [by apply parse_build_ip6; try lia|]. split_and!; try done.
    unfold ip_payload. cbn [ip_header_len ip_total_len]. rewrite slice_Done by (unfold ip6_header; len_lia).
    f_equal. rewrite drop_app_length' by (unfold ip6_header; len_lia).
    apply take_ge. lia.
Qed.

Lemma pseudo_header_Done src dst protocol n :
  ip_ok src → ip_ok dst → same_family src dst → is_byte protocol →
  ∃ p, pseudo_header src dst protocol n = Done p ∧ bytes p ∧ zlen p mod 2 = 0 ∧ zlen p ≤ 40.
Proof.
  intros Hs Hd Hf Hp. destruct src as [s|s], dst as [d|d]; try discriminate Hf;
    destruct Hs as [? Ls], Hd as [? Ld]; eexists; (split; [reflexivity|]).
  - split; [auto 10 with bytes|]. autorewrite with zlen. rewrite Ls, Ld. done.
  - split; [|autorewrite with zlen; rewrite Ls, Ld; done].
    pose proof (bytes_to_be 2 (wrap 16 n)) as Hb. change (to_be 2 (wrap 16 n)) with
      [(wrap 16 n / 256) mod 256; wrap 16 n mod 256] in *.
    apply Forall_cons in Hb as [? Hb]. apply Forall_cons in Hb as [? _]. auto 15 with bytes.
Qed.

(** * Properties *)

(** [parse_ip] never panics on any received bytes, for either expected
    version and with or without the checksum check, and an accepted packet
    delimits a payload inside the buffer: the slice the caller takes with
    [ParsedIp::payload] cannot panic either, its addresses are of the expected
    family and at least the fixed header was present. *)
Theorem parse_ip_never_panics (buf : list Z) (want_v6 verify_csum : bool) (Hb : bytes buf) :
  ∃ r, parse_ip buf want_v6 verify_csum = Done r ∧
    ∀ p, r = Some p →
      is_ipv6 (ip_src p) = want_v6 ∧ is_ipv6 (ip_dst p) = want_v6 ∧
      20 ≤ ip_header_len p ≤ ip_total_len p ∧ ip_total_len p ≤ zlen buf ∧
      ∃ d, ip_payload p buf = Done d ∧ zlen d = ip_total_len p - ip_header_len p.
Proof.
  destruct (parse_ip_total buf want_v6 verify_csum Hb) as (r & Hr & Hok).
  exists r. split; [done|]. intros p Hp. destruct (Hok p Hp) as [Hwf Hv].
  destruct (ip_payload_total _ _ Hwf) as (d & Hd & Hl).
  destruct Hwf as (_&_&Hf&_&?&?). unfold same_family in Hf.
  split_and!; try done; try congruence; try lia. eauto.
Qed.

(**  An IP header built by [build_ip_header] in front of a payload parses
    back: either address family, with the IPv4 checksum verified or not, the
    parser returns the same addresses and protocol and the payload is exactly
    the bytes that follow the header. *)
Theorem ip_header_roundtrip (src dst : IpAddr) (protocol ttl id : Z) (payload : list Z) (vc : bool)
  (Hs : ip_ok src) (Hd : ip_ok dst) (Hf : same_family src dst)
  (Ht : is_byte ttl) (Hp : is_byte protocol) (Hlen : 40 + zlen payload < 65536) :
  ∃ pkt p, build_ip_header [] src dst protocol ttl id (zlen payload) = Done pkt ∧
    parse_ip (pkt ++ payload) (is_ipv6 src) vc = Done (Some p) ∧
    ip_src p = src ∧ ip_dst p = dst ∧ ip_protocol p = protocol ∧
    ip_payload p (pkt ++ payload) = Done payload.
Proof. by apply ip_build_parse. Qed.

(** RFC 8200 section 8.1: 32-bit length, three zero bytes, next header. *)
Definition rfc8200_pseudo_header (s d : list Z) (protocol transport_len : Z) : list Z :=
  s ++ d ++ to_be 4 transport_len ++ [0; 0; 0] ++ [protocol].

(** The IPv6 pseudo header keeps the byte layout of the C++ struct (the
    16-bit length in the first half of the 32-bit field), which is not the
    layout of RFC 8200; for every length below 65536 the checksum over it is
    nevertheless the RFC's, for every segment. *)
Theorem pseudo_header_v6_checksum_rfc (s d data : list Z) (protocol n : Z)
  (Hs : ip_ok (V6 s)) (Hd : ip_ok (V6 d)) (Hdata : bytes data) (Hp : is_byte protocol)
  (Hn : is_u 16 n) (Hlen : zlen data < 65536) :
  ∃ p, pseudo_header (V6 s) (V6 d) protocol n = Done p ∧
    csum_with_pseudo p data = csum_with_pseudo (rfc8200_pseudo_header s d protocol n) data.
Proof.
  destruct (pseudo_header_Done (V6 s) (V6 d) protocol n) as (p & Ep & Hb & He & Hl); try done.
  exists p. split; [done|]. destruct Hs as [Hs Ls], Hd as [Hd Ld].
  assert (bytes (rfc8200_pseudo_header s d protocol n)) by (unfold rfc8200_pseudo_header; auto 10 with bytes).
  assert (zlen (rfc8200_pseudo_header s d protocol n) = 40) as L40
    by (unfold rfc8200_pseudo_header; len_lia).
  rewrite !csum_with_pseudo_fold; try done; try (unfold csum_len_ok; lia); [|by rewrite L40].
  f_equal. rewrite !wsum_app by (rewrite ?L40; done). f_equal.
  injection Ep as <-. unfold rfc8200_pseudo_header. rewrite wrap_small by done.
  rewrite !(wsum_app s), !(wsum_app d) by (rewrite ?Ls, ?Ld; done). do 2 f_equal.
  unfold is_u in Hn. simpl. clear - Hn.
  replace (n / 256 / 256) with 0 by (rewrite Z.div_div, Z.div_small; lia).
  rewrite Z.div_0_l, !Z.mod_0_l by lia. lia.
Qed.

Lemma parse_ip_never_panics_witness :
  bytes [0x45; 0] ∧ ∃ r, parse_ip [0x45; 0] false true = Done r ∧
    ∀ p, r = Some p →
      is_ipv6 (ip_src p) = false ∧ is_ipv6 (ip_dst p) = false ∧
      20 ≤ ip_header_len p ≤ ip_total_len p ∧ ip_total_len p ≤ zlen [0x45; 0] ∧
      ∃ d, ip_payload p [0x45; 0] = Done d ∧ zlen d = ip_total_len p - ip_header_len p.
Proof.
  assert (bytes [0x45; 0]) as H by auto with bytes.
  split; [exact H | exact (parse_ip_never_panics [0x45; 0] false true H)].
Defined.

Definition addr_a : IpAddr := V4 [10; 0; 0; 1].
Definition addr_b : IpAddr := V4 [10; 0; 0; 2].
Definition addr6_a : IpAddr := V6 [254; 128; 0; 0; 0; 0; 0; 0; 0; 0; 0; 0; 0; 0; 0; 1].
Definition addr6_b : IpAddr := V6 [254; 128; 0; 0; 0; 0; 0; 0; 0; 0; 0; 0; 0; 0; 0; 2].

Lemma addr_ok : ip_ok addr_a ∧ ip_ok addr_b ∧ ip_ok addr6_a ∧ ip_ok addr6_b.
Proof. repeat split; auto with bytes. Qed.

Lemma ip_header_roundtrip_witness :
  ∃ pkt p, build_ip_header [] addr_a addr_b 6 64 0x1234 (zlen [1; 2; 3]) = Done pkt ∧
    parse_ip (pkt ++ [1; 2; 3]) (is_ipv6 addr_a) true = Done (Some p) ∧
    ip_src p = addr_a ∧ ip_dst p = addr_b ∧ ip_protocol p = 6 ∧
    ip_payload p (pkt ++ [1; 2; 3]) = Done [1; 2; 3].
Proof.
  apply (ip_header_roundtrip addr_a addr_b 6 64 0x1234 [1; 2; 3] true);
    try apply addr_ok; try reflexivity; unfold is_u; simpl; lia.
Defined.

Lemma pseudo_header_v6_checksum_rfc_witness :
  ∃ p, pseudo_header (V6 (replicate 16 1)) (V6 (replicate 16 2)) 6 3 = Done p ∧
    csum_with_pseudo p [1; 2; 3]
    = csum_with_pseudo (rfc8200_pseudo_header (replicate 16 1) (replicate 16 2) 6 3) [1; 2; 3].
Proof.
  apply (pseudo_header_v6_checksum_rfc (replicate 16 1) (replicate 16 2) [1; 2; 3] 6 3);
    try (split; [|reflexivity]); try (auto with bytes; fail); unfold is_u; simpl; lia.
Defined.
