(* ===== verification/Tcp.v ===== *)
(** FakeTCP segments: [src/src/packet/tcp.rs].

    [build_tcp] writes the header field by field into the grown output buffer as
    the code does; [parse_tcp] keeps the code's slicing, so that the one slice
    whose bounds are not checked ([&seg[20..hlen]]) can panic in the model too. *)
From S2P Require Import Prelude Checksum Ip.

Definition TCP_MIN_HEADER : Z := 20.
Definition SYN_MSS : Z := 1460.
Definition WSCALE : Z := 5.

Record TcpSendParams := mkTcpSendParams {
  tp_src_port : Z; tp_dst_port : Z; tp_seq : Z; tp_ack_seq : Z;
  tp_syn : bool; tp_ack : bool; tp_psh : bool;
  tp_window : Z; tp_ts : Z; tp_ts_ack : Z }.

Record ParsedTcp := mkParsedTcp {
  t_src_port : Z; t_dst_port : Z; t_seq : Z; t_ack_seq : Z;
  t_syn : bool; t_ack : bool; t_psh : bool; t_rst : bool;
  t_has_ts : bool; t_ts : Z; t_ts_ack : Z;
  t_header_len : Z; t_csum_ok : bool }.

(** The flag byte. *)
Definition tcp_flags (p : TcpSendParams) : Z :=
  let flags := 0 in
  let flags := if tp_syn p then Z.lor flags 0x02 else flags in
  let flags := if tp_psh p then Z.lor flags 0x08 else flags in
  if tp_ack p then Z.lor flags 0x10 else flags.

(** The option area, written from offset [TCP_MIN_HEADER]. *)
Definition put_tcp_options (h : list Z) (p : TcpSendParams) : outcome (list Z) :=
  let i := TCP_MIN_HEADER in
  if tp_syn p then
    h ← put h i [0x02];
    h ← put h (i + 1) [0x04];
    h ← put h (i + 2) (to_be 2 SYN_MSS);
    let i := i + 4 in
    h ← put h i [0x04];
    h ← put h (i + 1) [0x02];
    let i := i + 2 in
    h ← put h i [0x08];
    h ← put h (i + 1) [0x0a];
    h ← put h (i + 2) (to_be 4 (tp_ts p));
    h ← put h (i + 6) (to_be 4 (tp_ts_ack p));
    let i := i + 10 in
    h ← put h i [0x01];
    h ← put h (i + 1) [0x03];
    h ← put h (i + 2) [0x03];
    put h (i + 3) [WSCALE]
  else
    h ← put h i [0x01];
    h ← put h (i + 1) [0x01];
    h ← put h (i + 2) [0x08];
    h ← put h (i + 3) [0x0a];
    h ← put h (i + 4) (to_be 4 (tp_ts p));
    put h (i + 8) (to_be 4 (tp_ts_ack p)).

(** The block that fills the header in place. *)
Definition put_tcp_header (h : list Z) (p : TcpSendParams) (doff : Z) : outcome (list Z) :=
  h ← put h 0 (to_be 2 (tp_src_port p));
  h ← put h 2 (to_be 2 (tp_dst_port p));
  h ← put h 4 (to_be 4 (tp_seq p));
  h ← put h 8 (to_be 4 (tp_ack_seq p));
  h ← put h 12 [wrap 8 (Z.shiftl doff 4)];
  h ← put h 13 [tcp_flags p];
  h ← put h 14 (to_be 2 (tp_window p));
  h ← put h 16 [0];
  h ← put h 17 [0];
  h ← put h 18 [0];
  h ← put h 19 [0];
  put_tcp_options h p.

Definition build_tcp (out : list Z) (src dst : IpAddr) (p : TcpSendParams) (payload : list Z)
  : outcome (list Z * Z) :=
  let start := zlen out in
  let doff := if tp_syn p then 10 else 8 in
  let hlen := doff * 4 in
  let out := vec_resize out (start + hlen) 0 in
  h ← slice_from out start;
  h ← put_tcp_header h p doff;
  out ← put out start h;
  let out := out ++ payload in
  let seg_len := hlen + zlen payload in
  pseudo ← pseudo_header src dst IPPROTO_TCP seg_len;
  seg ← slice_from out start;
  let c := csum_with_pseudo pseudo seg in
  out ← put out (start + 16) (to_be 2 c);
  Done (out, seg_len).

(** [read_u32_be(&p[i..])] *)
Definition read_u32_at (p : list Z) (i : Z) : outcome Z :=
  p ← slice_from p i;
  a ← idx p 0; b ← idx p 1; c ← idx p 2; d ← idx p 3;
  Done (from_be [a; b; c; d]).

Definition set_ts (t : ParsedTcp) (has : bool) (ts ts_ack : Z) : ParsedTcp :=
  mkParsedTcp (t_src_port t) (t_dst_port t) (t_seq t) (t_ack_seq t) (t_syn t) (t_ack t) (t_psh t)
    (t_rst t) has ts ts_ack (t_header_len t) (t_csum_ok t).

(** The [while] loop of [parse_options]; every turn advances [i], so the length of
    the option area is enough fuel ([parse_options_total]). *)
Fixpoint parse_options_loop (fuel : nat) (opt : list Z) (i : Z) (out : ParsedTcp) : outcome ParsedTcp :=
  match fuel with
  | O => Panic
  | S fuel =>
      if negb (i <? zlen opt) then Done out else
      k ← idx opt i;
      if k =? 0 then Done out
      else if k =? 1 then parse_options_loop fuel opt (i + 1) out
      else if k =? 8 then
        if zlen opt <=? i + 1 then Done out else
        l ← idx opt (i + 1);
        if negb (l =? 10) || (zlen opt <? i + 10) then Done out else
        ts ← read_u32_at opt (i + 2);
        ts_ack ← read_u32_at opt (i + 6);
        parse_options_loop fuel opt (i + 10) (set_ts out true ts ts_ack)
      else
        if zlen opt <=? i + 1 then Done out else
        len ← idx opt (i + 1);
        if len <=? 1 then Done out else
        parse_options_loop fuel opt (i + len) out
  end.

Definition parse_options (opt : list Z) (out : ParsedTcp) : outcome ParsedTcp :=
  parse_options_loop (S (length opt)) opt 0 (set_ts out false 0 (t_ts_ack out)).

Definition parse_tcp (seg : list Z) (src dst : IpAddr) : outcome (option (ParsedTcp * list Z)) :=
  if zlen seg <? TCP_MIN_HEADER then Done None else
  b12 ← idx seg 12;
  let hlen := Z.shiftr b12 4 * 4 in
  if (hlen =? 0) || (60 <? hlen) || (zlen seg <? hlen) then Done None else
  pseudo ← pseudo_header src dst IPPROTO_TCP (zlen seg);
  let csum_ok := verify_with_pseudo pseudo seg in
  flags ← idx seg 13;
  s0 ← idx seg 0; s1 ← idx seg 1;
  s2 ← idx seg 2; s3 ← idx seg 3;
  seq ← read_u32_at seg 4;
  ack_seq ← read_u32_at seg 8;
  let t := mkParsedTcp (from_be [s0; s1]) (from_be [s2; s3]) seq ack_seq
             (negb (Z.land flags 0x02 =? 0)) (negb (Z.land flags 0x10 =? 0))
             (negb (Z.land flags 0x08 =? 0)) (negb (Z.land flags 0x04 =? 0))
             false 0 0 hlen csum_ok in
  opt ← slice seg TCP_MIN_HEADER hlen;
  t ← parse_options opt t;
  payload ← slice_from seg hlen;
  Done (Some (t, payload)).

(** * The option parser terminates and never panics *)
Lemma read_u32_at_Done p i :
  0 ≤ i → i + 4 ≤ zlen p → ∃ v, read_u32_at p i = Done v.
Proof. intros. unfold read_u32_at. repeat run_step. eauto. Qed.

Lemma parse_options_loop_total fuel opt i out :
  bytes opt → 0 ≤ i → Z.max 0 (zlen opt - i) < Z.of_nat fuel →
  ∃ t, parse_options_loop fuel opt i out = Done t.
Proof.
  intros Hb. revert i out. induction fuel as [|fuel IH]; intros i out Hi Hf; [lia|].
  cbn [parse_options_loop].
  destruct (i <? zlen opt) eqn:E; [|eauto]. cbn [negb]. exec_idx.
  set (k := nth _ _ _). pose proof (nth_byte opt (Z.to_nat i) Hb : is_byte k) as Hk.
  destruct (k =? 0); [eauto|]. destruct (k =? 1); [apply IH; lia|].
  destruct (k =? 8).
  - destruct (zlen opt <=? i + 1) eqn:?; [eauto|]. exec_idx.
    destruct (negb _ || _) eqn:E2; [eauto|].
    destruct (read_u32_at_Done opt (i + 2)) as [v1 ->]; [lia..|].
    destruct (read_u32_at_Done opt (i + 6)) as [v2 ->]; [lia..|].
    rewrite !bind_Done. apply IH; lia.
  - destruct (zlen opt <=? i + 1) eqn:?; [eauto|]. exec_idx.
    destruct (_ <=? 1) eqn:?; [eauto|]. apply IH; lia.
Qed.

Lemma parse_options_total opt out : bytes opt → ∃ t, parse_options opt out = Done t.
Proof. intros. apply parse_options_loop_total; [done|lia..]. Qed.

(** The options change nothing but the timestamps. *)
Definition same_header (t t' : ParsedTcp) : Prop :=
  set_ts t false 0 0 = set_ts t' false 0 0 ∧ (is_u 32 (t_ts t) → is_u 32 (t_ts_ack t) →
    is_u 32 (t_ts t') ∧ is_u 32 (t_ts_ack t')).

Lemma read_u32_at_range p i v : bytes p → read_u32_at p i = Done v → is_u 32 v.
Proof.
  intros Hb H. unfold read_u32_at in H. run_inv H. subst.
  apply (from_be_range [_; _; _; _]). repeat constructor; apply nth_byte; auto with bytes.
Qed.

Lemma parse_options_loop_header fuel opt i out t :
  bytes opt → parse_options_loop fuel opt i out = Done t → same_header out t.
Proof.
  intros Hb. revert i out. induction fuel as [|fuel IH]; intros i out H; [discriminate|].
  cbn [parse_options_loop] in H. run_inv H; subst; try (by split); try (by eapply IH).
  apply IH in H as [H1 H2]. split; [done|]. intros _ _. apply H2; simpl; by eapply read_u32_at_range.
Qed.

(** * Exactly which segments make the parser panic *)
Lemma hlen_range b : is_byte b → 0 ≤ Z.shiftr b 4 < 16.
Proof.
  intros [? ?]. rewrite shiftr_div by lia. change (2 ^ 4) with 16.
  split; [apply Z.div_pos; lia|apply Z.div_lt_upper_bound; lia].
Qed.

(** Everything before the option slice succeeds. *)
Lemma parse_tcp_prefix seg src dst :
  bytes seg → ip_ok src → ip_ok dst → same_family src dst → 20 ≤ zlen seg →
  let hlen := Z.shiftr (nth 12 seg 0) 4 * 4 in
  hlen ≠ 0 → hlen ≤ zlen seg →
  ∃ t, parse_tcp seg src dst =
    (opt ← slice seg 20 hlen; t ← parse_options opt t;
     payload ← slice_from seg hlen; Done (Some (t, payload))).
Proof.
  intros Hb Hs Hd Hf Hl hlen H0 Hh. unfold parse_tcp, TCP_MIN_HEADER.
  exec_if. exec_idx. change (nth (Z.to_nat 12) seg 0) with (nth 12 seg 0). fold hlen.
  pose proof (hlen_range _ (nth_byte seg 12 Hb)).
  replace ((hlen =? 0) || (60 <? hlen) || (zlen seg <? hlen)) with false by lia.
  destruct (pseudo_header_Done src dst IPPROTO_TCP (zlen seg)) as (ps & -> & _); try done.
  rewrite bind_Done. do 5 exec_idx.
  destruct (read_u32_at_Done seg 4) as [v1 ->]; [lia..|].
  destruct (read_u32_at_Done seg 8) as [v2 ->]; [lia..|].
  rewrite !bind_Done. eexists. reflexivity.
Qed.

Lemma parse_tcp_panic seg src dst :
  bytes seg → ip_ok src → ip_ok dst → same_family src dst →
  parse_tcp seg src dst = Panic ↔ 20 ≤ zlen seg ∧ 1 ≤ Z.shiftr (nth 12 seg 0) 4 ≤ 4.
Proof.
  intros Hb Hs Hd Hf.
  destruct (decide (20 ≤ zlen seg)) as [Hl|Hl].
  2:{ unfold parse_tcp, TCP_MIN_HEADER. exec_if. split; [done|lia]. }
  set (doff := Z.shiftr (nth 12 seg 0) 4).
  pose proof (hlen_range _ (nth_byte seg 12 Hb) : 0 ≤ doff < 16) as Hr.
  destruct (decide (doff * 4 ≠ 0 ∧ doff * 4 ≤ zlen seg)) as [[H0 Hh]|Hno].
  2:{ unfold parse_tcp, TCP_MIN_HEADER. exec_if. exec_idx.
      change (nth (Z.to_nat 12) seg 0) with (nth 12 seg 0). fold doff.
      replace ((doff * 4 =? 0) || (60 <? doff * 4) || (zlen seg <? doff * 4)) with true by lia.
      split; [done|lia]. }
  destruct (parse_tcp_prefix seg src dst Hb Hs Hd Hf Hl H0 Hh) as [t ->]. fold doff.
  destruct (decide (doff ≤ 4)).
  - split; [lia|intros _]. unfold slice. exec_if. done.
  - split; [|lia]. exec_slice.
    destruct (parse_options_total (take (Z.to_nat (doff * 4 - 20)) (drop (Z.to_nat 20) seg)) t) as [t' ->];
      [auto with bytes|]. rewrite bind_Done. exec_slice. done.
Qed.

(** [parse_tcp] aborts the process on exactly the segments of at least 20
    bytes whose data offset is 1 to 4 (a header length of 4 to 16 bytes): the
    guard only rejects an offset of zero, and the option slice [&seg[20..hlen]]
    then has its end before its start.  On every other received segment it
    returns. *)
Theorem parse_tcp_panics_iff (seg : list Z) (src dst : IpAddr)
  (Hb : bytes seg) (Hs : ip_ok src) (Hd : ip_ok dst) (Hf : same_family src dst) :
  parse_tcp seg src dst = Panic ↔ 20 ≤ zlen seg ∧ 1 ≤ Z.shiftr (nth 12 seg 0) 4 ≤ 4.
Proof. by apply parse_tcp_panic. Qed.

(** What an accepted segment says. *)
Lemma parse_tcp_fields seg src dst t data :
  bytes seg → parse_tcp seg src dst = Done (Some (t, data)) →
  20 ≤ zlen seg ∧ t_src_port t = from_be [nth 0 seg 0; nth 1 seg 0] ∧
  t_dst_port t = from_be [nth 2 seg 0; nth 3 seg 0] ∧ t_syn t = negb (Z.land (nth 13 seg 0) 2 =? 0) ∧
  is_u 32 (t_seq t) ∧ is_u 32 (t_ack_seq t) ∧ is_u 32 (t_ts t) ∧ is_u 32 (t_ts_ack t) ∧
  ∃ n, data = drop n seg.
Proof.
  intros Hb H. unfold parse_tcp, TCP_MIN_HEADER in H. run_inv H. simplify_eq.
  match goal with Ho : parse_options _ _ = _ |- _ => rename Ho into Hopt end.
  unfold parse_options in Hopt. apply parse_options_loop_header in Hopt as [Hh Hts]; [|auto with bytes].
  unfold set_ts in Hh. simpl in Hh, Hts. injection Hh as Hh1 Hh2 Hh3 Hh4 Hh5 Hh6 Hh7 Hh8 Hh9 Hh10.
  rewrite <-Hh1, <-Hh2, <-Hh3, <-Hh4, <-Hh5. destruct Hts as [? ?]; [unfold is_u; lia..|].
  split; [lia|]. split_and!; try done; eauto; by eapply read_u32_at_range.
Qed.

(** * Layout of a built segment *)
Definition tcp_hlen (p : TcpSendParams) : Z := if tp_syn p then 40 else 32.
Definition tcp_head (p : TcpSendParams) : list Z :=
  to_be 2 (tp_src_port p) ++ to_be 2 (tp_dst_port p) ++ to_be 4 (tp_seq p) ++ to_be 4 (tp_ack_seq p)
  ++ [if tp_syn p then 160 else 128; tcp_flags p] ++ to_be 2 (tp_window p).
Definition tcp_opts (p : TcpSendParams) : list Z :=
  if tp_syn p
  then [2; 4] ++ to_be 2 SYN_MSS ++ [4; 2] ++ [8; 10] ++ to_be 4 (tp_ts p) ++ to_be 4 (tp_ts_ack p)
       ++ [1; 3; 3; WSCALE]
  else [1; 1; 8; 10] ++ to_be 4 (tp_ts p) ++ to_be 4 (tp_ts_ack p).
Definition tcp_rest (p : TcpSendParams) (payload : list Z) : list Z := [0; 0] ++ tcp_opts p ++ payload.

Lemma zlen_tcp_head p : zlen (tcp_head p) = 16.
Proof. done. Qed.
Lemma zlen_tcp_opts p : zlen (tcp_opts p) = tcp_hlen p - 20.
Proof. unfold tcp_opts, tcp_hlen. by destruct (tp_syn p). Qed.
Lemma zlen_tcp_rest p payload : zlen (tcp_rest p payload) = tcp_hlen p - 18 + zlen payload.
Proof. unfold tcp_rest. rewrite !zlen_app, zlen_tcp_opts. change (zlen [0; 0]) with 2. lia. Qed.

#[export] Hint Rewrite zlen_tcp_head zlen_tcp_opts zlen_tcp_rest : zlen.

Lemma tcp_flags_byte p : is_byte (tcp_flags p).
Proof. unfold tcp_flags, is_u. destruct (tp_syn p), (tp_psh p), (tp_ack p); vm_compute; split; congruence. Qed.
Lemma bytes_tcp_head p : bytes (tcp_head p).
Proof.
  pose proof (tcp_flags_byte p). assert (is_byte (if tp_syn p then 160 else 128)).
  { unfold is_u. destruct (tp_syn p); lia. }
  unfold tcp_head. auto 10 with bytes.
Qed.
Lemma bytes_tcp_rest p payload : bytes payload → bytes (tcp_rest p payload).
Proof.
  intros. assert (bytes (tcp_opts p)).
  { unfold tcp_opts. destruct (tp_syn p); auto 15 with bytes. }
  unfold tcp_rest. auto 10 with bytes.
Qed.

Lemma put_tcp_header_layout p :
  put_tcp_header (replicate (Z.to_nat (tcp_hlen p)) 0) p (if tp_syn p then 10 else 8)
  = Done (tcp_head p ++ [0; 0] ++ [0; 0] ++ tcp_opts p).
Proof. destruct p as [sp dp sq aq [] ack psh win ts tsa]; reflexivity. Qed.

Lemma build_tcp_layout out src dst p payload pseudo :
  pseudo_header src dst IPPROTO_TCP (tcp_hlen p + zlen payload) = Done pseudo →
  build_tcp out src dst p payload
  = Done (out ++ tcp_head p ++
            to_be 2 (csum_with_pseudo pseudo (tcp_head p ++ [0; 0] ++ tcp_rest p payload))
            ++ tcp_rest p payload,
          tcp_hlen p + zlen payload).
Proof.
  intros Hps. unfold build_tcp. cbv zeta.
  replace ((if tp_syn p then 10 else 8) * 4) with (tcp_hlen p) by (unfold tcp_hlen; by destruct (tp_syn p)).
  assert (0 ≤ tcp_hlen p) by (unfold tcp_hlen; destruct (tp_syn p); lia).
  rewrite vec_resize_grow by done. rewrite slice_from_app, bind_Done by done.
  rewrite put_tcp_header_layout, bind_Done. rewrite put_tail, bind_Done.
  2:{ rewrite !zlen_app, zlen_tcp_head, zlen_tcp_opts. change (zlen [0; 0]) with 2. lia. }
  rewrite Hps, bind_Done. rewrite <-app_assoc, slice_from_app, bind_Done by done.
  rewrite <-!app_assoc. fold (tcp_rest p payload).
  rewrite (app_assoc out), put_app_mid, bind_Done; [by rewrite <-app_assoc|len_lia|done].
Qed.

(** * Round trip *)
Definition tcp_params_ok (p : TcpSendParams) : Prop :=
  is_u 16 (tp_src_port p) ∧ is_u 16 (tp_dst_port p) ∧ is_u 32 (tp_seq p) ∧ is_u 32 (tp_ack_seq p) ∧
  is_u 32 (tp_ts p) ∧ is_u 32 (tp_ts_ack p).

(** What the receiver reads back from a segment sent with [p]. *)
Definition parsed_of (p : TcpSendParams) : ParsedTcp :=
  mkParsedTcp (tp_src_port p) (tp_dst_port p) (tp_seq p) (tp_ack_seq p) (tp_syn p) (tp_ack p)
    (tp_psh p) false true (tp_ts p) (tp_ts_ack p) (tcp_hlen p) true.

Lemma read_u32_at_app l v r i : is_u 32 v → i = zlen l → read_u32_at (l ++ to_be 4 v ++ r) i = Done v.
Proof.
  intros Hv ->. unfold read_u32_at. rewrite slice_from_app, bind_Done by done.
  do 4 exec_idx. change (from_be _) with (from_be (to_be 4 v)). by rewrite from_to_be.
Qed.

Lemma parse_tcp_opts p t :
  is_u 32 (tp_ts p) → is_u 32 (tp_ts_ack p) →
  parse_options (tcp_opts p) t = Done (set_ts t true (tp_ts p) (tp_ts_ack p)).
Proof.
  intros H1 H2. unfold parse_options, tcp_opts. destruct (tp_syn p).
  - set (o := _ ++ _).
    assert (read_u32_at o (6 + 2) = Done (tp_ts p)) as R1
      by (apply (read_u32_at_app [2; 4; 5; 180; 4; 2; 8; 10] (tp_ts p) _ 8); done).
    assert (read_u32_at o (6 + 6) = Done (tp_ts_ack p)) as R2
      by (apply (read_u32_at_app ([2; 4; 5; 180; 4; 2; 8; 10] ++ to_be 4 (tp_ts p)) (tp_ts_ack p) _ 12); done).
    transitivity (ts ← read_u32_at o (6 + 2); ts_ack ← read_u32_at o (6 + 6);
                  Done (set_ts t true ts ts_ack)); [reflexivity|].
    by rewrite R1, R2.
  - set (o := _ ++ _).
    assert (read_u32_at o (2 + 2) = Done (tp_ts p)) as R1
      by (apply (read_u32_at_app [1; 1; 8; 10] (tp_ts p) _ 4); done).
    assert (read_u32_at o (2 + 6) = Done (tp_ts_ack p)) as R2
      by (apply (read_u32_at_app ([1; 1; 8; 10] ++ to_be 4 (tp_ts p)) (tp_ts_ack p) [] 8); done).
    transitivity (ts ← read_u32_at o (2 + 2); ts_ack ← read_u32_at o (2 + 6);
                  Done (set_ts t true ts ts_ack)); [reflexivity|].
    by rewrite R1, R2.
Qed.

Lemma tcp_flag_bits p :
  negb (Z.land (tcp_flags p) 2 =? 0) = tp_syn p ∧ negb (Z.land (tcp_flags p) 16 =? 0) = tp_ack p ∧
  negb (Z.land (tcp_flags p) 8 =? 0) = tp_psh p ∧ negb (Z.land (tcp_flags p) 4 =? 0) = false.
Proof. unfold tcp_flags. by destruct (tp_syn p), (tp_psh p), (tp_ack p). Qed.

Lemma parse_built_tcp src dst p c payload pseudo :
  tcp_params_ok p → bytes payload → tcp_hlen p + zlen payload < 65536 →
  pseudo_header src dst IPPROTO_TCP (tcp_hlen p + zlen payload) = Done pseudo →
  csum_with_pseudo pseudo (tcp_head p ++ to_be 2 c ++ tcp_rest p payload) = 0 →
  parse_tcp (tcp_head p ++ to_be 2 c ++ tcp_rest p payload) src dst
  = Done (Some (parsed_of p, payload)).
Proof.
  intros (Hsp&Hdp&Hsq&Haq&Hts&Hta) Hb Hlt Hps Hc.
  assert (20 < tcp_hlen p ≤ 40) as Hh by (unfold tcp_hlen; destruct (tp_syn p); lia).
  set (seg := tcp_head p ++ to_be 2 c ++ tcp_rest p payload) in *.
  assert (zlen seg = tcp_hlen p + zlen payload) as Hl by (unfold seg; len_lia).
  unfold parse_tcp, TCP_MIN_HEADER. exec_if. exec_idx.
  change (nth (Z.to_nat 12) seg 0) with (if tp_syn p then 160 else 128).
  assert (Z.shiftr (if tp_syn p then 160 else 128) 4 * 4 = tcp_hlen p) as ->
    by (unfold tcp_hlen; by destruct (tp_syn p)).
  replace ((tcp_hlen p =? 0) || (60 <? tcp_hlen p) || (zlen seg <? tcp_hlen p)) with false by lia.
  rewrite Hl, Hps, bind_Done. do 5 exec_idx. unfold verify_with_pseudo. rewrite Hc.
  assert (read_u32_at seg 4 = Done (tp_seq p)) as ->.
  { apply (read_u32_at_app (to_be 2 (tp_src_port p) ++ to_be 2 (tp_dst_port p)) (tp_seq p) _ 4); done. }
  assert (read_u32_at seg 8 = Done (tp_ack_seq p)) as ->.
  { apply (read_u32_at_app (to_be 2 (tp_src_port p) ++ to_be 2 (tp_dst_port p) ++ to_be 4 (tp_seq p))
             (tp_ack_seq p) _ 8); done. }
  rewrite !bind_Done.
  assert (slice seg 20 (tcp_hlen p) = Done (tcp_opts p)) as ->.
  { unfold seg, tcp_rest. rewrite !(app_assoc _ [0; 0]), (app_assoc _ (to_be 2 c ++ [0; 0])).
    apply slice_app_mid; len_lia. }
  rewrite bind_Done, parse_tcp_opts, bind_Done by done.
  assert (slice_from seg (tcp_hlen p) = Done payload) as ->.
  { unfold seg, tcp_rest. rewrite !app_assoc. apply slice_from_app. len_lia. }
  rewrite bind_Done. do 3 f_equal. unfold set_ts, parsed_of. cbn [t_src_port t_dst_port t_seq t_ack_seq
    t_syn t_ack t_psh t_rst t_header_len t_csum_ok].
  change (nth (Z.to_nat 13) seg 0) with (tcp_flags p).
  destruct (tcp_flag_bits p) as (-> & -> & -> & ->).
  change (from_be [nth (Z.to_nat 0) seg 0; nth (Z.to_nat 1) seg 0]) with (from_be (to_be 2 (tp_src_port p))).
  change (from_be [nth (Z.to_nat 2) seg 0; nth (Z.to_nat 3) seg 0]) with (from_be (to_be 2 (tp_dst_port p))).
  rewrite !from_to_be by done. done.
Qed.

(** A segment built for a payload of at most 65495 bytes, and what its receiver reads. *)
Lemma tcp_build_parse src dst p payload :
  ip_ok src → ip_ok dst → same_family src dst → tcp_params_ok p → bytes payload →
  40 + zlen payload < 65536 →
  ∃ seg, build_tcp [] src dst p payload = Done (seg, zlen seg) ∧ bytes seg ∧
    zlen seg = tcp_hlen p + zlen payload ∧
    parse_tcp seg src dst = Done (Some (parsed_of p, payload)).
Proof.
  intros Hs Hd Hf Hp Hb Hlen.
  assert (20 < tcp_hlen p ≤ 40) as Hh by (unfold tcp_hlen; destruct (tp_syn p); lia).
  destruct (pseudo_header_Done src dst IPPROTO_TCP (tcp_hlen p + zlen payload))
    as (ps & Eps & Hpb & Hpe & Hpl); try done.
  rewrite (build_tcp_layout [] _ _ _ _ _ Eps). rewrite app_nil_l.
  set (c := csum_with_pseudo _ _). set (seg := tcp_head p ++ to_be 2 c ++ tcp_rest p payload).
  assert (zlen seg = tcp_hlen p + zlen payload) as Hl by (unfold seg; len_lia).
  exists seg. split_and!; [by rewrite Hl| |done|].
  - unfold seg. pose proof (bytes_tcp_head p). pose proof (bytes_tcp_rest p payload Hb). auto with bytes.
  - apply (parse_built_tcp src dst p c payload ps); try done; [lia|].
    apply fill_checksum_verifies; auto using bytes_tcp_head, bytes_tcp_rest.
    unfold csum_len_ok. len_lia.
Qed.

(** * Properties *)

(** FakeTCP round trip: a segment built by [build_tcp], SYN or not, in
    either address family, is parsed by [parse_tcp] to the ports, sequence
    numbers, flags and timestamps it was built with, a verified checksum, no
    RST, and exactly the payload. *)
Theorem tcp_roundtrip (src dst : IpAddr) (p : TcpSendParams) (payload : list Z)
  (Hs : ip_ok src) (Hd : ip_ok dst) (Hf : same_family src dst) (Hp : tcp_params_ok p)
  (Hb : bytes payload) (Hlen : 40 + zlen payload < 65536) :
  ∃ seg, build_tcp [] src dst p payload = Done (seg, zlen seg) ∧
    parse_tcp seg src dst = Done (Some (parsed_of p, payload)).
Proof. destruct (tcp_build_parse src dst p payload) as (seg & ? & _ & _ & ?); eauto. Qed.

Definition demo_params : TcpSendParams :=
  mkTcpSendParams 1234 443 100 200 false true true 41000 7 8.

Lemma tcp_roundtrip_witness :
  ∃ seg, build_tcp [] addr_a addr_b demo_params [104; 105] = Done (seg, zlen seg) ∧
    parse_tcp seg addr_a addr_b = Done (Some (parsed_of demo_params, [104; 105])).
Proof.
  apply (tcp_roundtrip addr_a addr_b demo_params [104; 105]); try apply addr_ok; try reflexivity;
    [repeat split; vm_compute; congruence | auto with bytes].
Defined.

(** A 20-byte segment with data offset 1. *)
Definition short_doff_segment : list Z := replicate 12 0 ++ [0x10; 0x10] ++ replicate 6 0.

Lemma parse_tcp_panics_iff_witness :
  parse_tcp short_doff_segment addr_a addr_b = Panic.
Proof.
  apply (parse_tcp_panics_iff short_doff_segment addr_a addr_b); try apply addr_ok;
    [auto with bytes | reflexivity | vm_compute; split_and!; congruence].
Defined.
