(* ===== verification/Udp.v ===== *)
(** Raw UDP datagrams: [src/src/packet/udp.rs]. *)
From S2P Require Import Prelude Checksum Ip.

Definition UDP_HEADER_LEN : Z := 8.

Definition build_udp (out : list Z) (src dst : IpAddr) (src_port dst_port : Z) (payload : list Z)
  : outcome (option (list Z * Z)) :=
  let tot := UDP_HEADER_LEN + zlen payload in
  if 65535 <? tot then Done None else
  let start := zlen out in
  let out := vec_resize out (start + UDP_HEADER_LEN) 0 in
  out ← put out start (to_be 2 src_port);
  out ← put out (start + 2) (to_be 2 dst_port);
  out ← put out (start + 4) (to_be 2 (wrap 16 tot));
  let out := out ++ payload in
  pseudo ← pseudo_header src dst IPPROTO_UDP tot;
  seg ← slice_from out start;
  let c := csum_with_pseudo pseudo seg in
  out ← put out (start + 6) (to_be 2 c);
  Done (Some (out, tot)).

Definition parse_udp (seg : list Z) (src dst : IpAddr) : outcome (option (Z * Z * list Z)) :=
  if zlen seg <? UDP_HEADER_LEN then Done None else
  b4 ← idx seg 4; b5 ← idx seg 5;
  let len := from_be [b4; b5] in
  if negb (len =? zlen seg) then Done None else
  pseudo ← pseudo_header src dst IPPROTO_UDP (zlen seg);
  if negb (verify_with_pseudo pseudo seg) then Done None else
  b0 ← idx seg 0; b1 ← idx seg 1;
  b2 ← idx seg 2; b3 ← idx seg 3;
  payload ← slice_from seg UDP_HEADER_LEN;
  Done (Some (from_be [b0; b1], from_be [b2; b3], payload)).

(** * Parsing is total *)
Lemma parse_udp_total seg src dst :
  ip_ok src → ip_ok dst → same_family src dst → ∃ r, parse_udp seg src dst = Done r.
Proof.
  intros Hs Hd Hf. unfold parse_udp, UDP_HEADER_LEN.
  destruct (zlen seg <? 8) eqn:?; [eauto|]. do 2 exec_idx.
  destruct (negb _); [eauto|].
  destruct (pseudo_header_Done src dst IPPROTO_UDP (zlen seg)) as (ps & -> & _); try done.
  rewrite bind_Done. destruct (negb _); [eauto|]. do 4 exec_idx. exec_slice. eauto.
Qed.

(** What an accepted datagram says. *)
Lemma parse_udp_fields seg src dst sp dp data :
  parse_udp seg src dst = Done (Some (sp, dp, data)) →
  8 ≤ zlen seg ∧ sp = from_be [nth 0 seg 0; nth 1 seg 0] ∧ dp = from_be [nth 2 seg 0; nth 3 seg 0] ∧
  data = drop 8 seg.
Proof.
  unfold parse_udp, UDP_HEADER_LEN. intros H. run_inv H. simplify_eq. split; [lia|]. by split_and!.
Qed.

(** * Layout and round trip *)
Definition udp_head (sp dp tot : Z) : list Z := to_be 2 sp ++ to_be 2 dp ++ to_be 2 tot.

Lemma build_udp_layout out src dst sp dp payload pseudo :
  8 + zlen payload ≤ 65535 →
  pseudo_header src dst IPPROTO_UDP (8 + zlen payload) = Done pseudo →
  build_udp out src dst sp dp payload
  = let head := udp_head sp dp (8 + zlen payload) in
    Done (Some (out ++ head ++ to_be 2 (csum_with_pseudo pseudo (head ++ [0; 0] ++ payload)) ++ payload,
                8 + zlen payload)).
Proof.
  intros Hlen Hps. unfold build_udp, UDP_HEADER_LEN. cbv zeta. exec_if.
  rewrite wrap_small by (unfold is_u; lia). rewrite vec_resize_grow by lia.
  change (replicate (Z.to_nat 8) 0) with ([0; 0] ++ [0; 0] ++ [0; 0] ++ [0; 0]).
  rewrite put_app_mid, bind_Done by done.
  rewrite (app_assoc out), put_app_mid, bind_Done by len_lia.
  rewrite (app_assoc _ (to_be 2 dp)), put_app_mid, bind_Done by len_lia.
  rewrite Hps, bind_Done. rewrite <-!app_assoc, slice_from_app, bind_Done by done.
  unfold udp_head. rewrite <-!app_assoc.
  rewrite (app_assoc (to_be 2 sp)), (app_assoc _ (to_be 2 (8 + zlen payload))), (app_assoc out).
  rewrite put_app_mid, bind_Done by len_lia. by rewrite <-!app_assoc.
Qed.

Lemma udp_build_parse src dst sp dp payload :
  ip_ok src → ip_ok dst → same_family src dst → is_u 16 sp → is_u 16 dp → bytes payload →
  8 + zlen payload ≤ 65535 →
  ∃ seg, build_udp [] src dst sp dp payload = Done (Some (seg, zlen seg)) ∧ bytes seg ∧
    zlen seg = 8 + zlen payload ∧ parse_udp seg src dst = Done (Some (sp, dp, payload)).
Proof.
  intros Hs Hd Hf Hsp Hdp Hb Hlen.
  destruct (pseudo_header_Done src dst IPPROTO_UDP (8 + zlen payload))
    as (ps & Eps & Hpb & Hpe & Hpl); try done.
  rewrite (build_udp_layout [] _ _ _ _ _ _ Hlen Eps). cbv zeta. rewrite app_nil_l.
  set (head := udp_head sp dp (8 + zlen payload)).
  set (c := csum_with_pseudo _ _). set (seg := head ++ to_be 2 c ++ payload).
  assert (zlen head = 6) as Hh by done.
  assert (zlen seg = 8 + zlen payload) as Hl by (unfold seg; len_lia).
  assert (bytes head) by (unfold head, udp_head; auto with bytes).
  exists seg. split_and!; [by rewrite Hl|unfold seg; auto with bytes|done|].
  assert (csum_with_pseudo ps seg = 0) as Hc.
  { apply fill_checksum_verifies; auto. unfold csum_len_ok. len_lia. }
  unfold parse_udp, UDP_HEADER_LEN. exec_if. do 2 exec_idx.
  change (from_be [nth (Z.to_nat 4) seg 0; nth (Z.to_nat 5) seg 0])
    with (from_be (to_be 2 (8 + zlen payload))).
  rewrite from_to_be by (unfold is_u; simpl; lia). exec_if.
  rewrite Hl, Eps, bind_Done. unfold verify_with_pseudo. rewrite Hc. cbn [negb Z.eqb].
  do 4 exec_idx.
  assert (slice_from seg 8 = Done payload) as ->.
  { unfold seg. rewrite app_assoc. apply slice_from_app. len_lia. }
  rewrite bind_Done.
  change (from_be [nth (Z.to_nat 0) seg 0; nth (Z.to_nat 1) seg 0]) with (from_be (to_be 2 sp)).
  change (from_be [nth (Z.to_nat 2) seg 0; nth (Z.to_nat 3) seg 0]) with (from_be (to_be 2 dp)).
  by rewrite !from_to_be.
Qed.

(** * Properties *)

(**  Raw-UDP round trip: a datagram that fits the 16-bit length is built and
    parsed back to its ports and payload; one that does not fit is refused by
    [build_udp]; and [parse_udp] never panics, whatever it is given. *)
Theorem udp_roundtrip (src dst : IpAddr) (sp dp : Z) (payload : list Z)
  (Hs : ip_ok src) (Hd : ip_ok dst) (Hf : same_family src dst) (Hsp : is_u 16 sp) (Hdp : is_u 16 dp)
  (Hb : bytes payload) :
  (if zlen payload <=? 65527
   then ∃ seg, build_udp [] src dst sp dp payload = Done (Some (seg, zlen seg)) ∧
          parse_udp seg src dst = Done (Some (sp, dp, payload))
   else build_udp [] src dst sp dp payload = Done None) ∧
  ∀ seg, ∃ r, parse_udp seg src dst = Done r.
Proof.
  split; [|intros; by apply parse_udp_total].
  destruct (zlen payload <=? 65527) eqn:E.
  - destruct (udp_build_parse src dst sp dp payload) as (seg & ? & _ & _ & ?); try done; [lia|eauto].
  - unfold build_udp, UDP_HEADER_LEN. exec_if. done.
Qed.

Lemma udp_roundtrip_witness :
  (if zlen [97; 98; 99] <=? 65527
   then ∃ seg, build_udp [] addr6_a addr6_b 1000 2000 [97; 98; 99] = Done (Some (seg, zlen seg)) ∧
          parse_udp seg addr6_a addr6_b = Done (Some (1000, 2000, [97; 98; 99]))
   else build_udp [] addr6_a addr6_b 1000 2000 [97; 98; 99] = Done None) ∧
  ∀ seg, ∃ r, parse_udp seg addr6_a addr6_b = Done r.
Proof.
  apply (udp_roundtrip addr6_a addr6_b 1000 2000 [97; 98; 99]); try apply addr_ok; try reflexivity;
    [unfold is_u; simpl; lia.. | auto with bytes].
Defined.
