(* ===== verification/Icmp.v ===== *)
(** Raw ICMP mode: [src/src/packet/icmp.rs].  The client sends echo requests, the
    server echo replies; the identifier carries the tunnel port. *)
From S2P Require Import Prelude Checksum Ip.

Definition ICMP_HEADER_LEN : Z := 8.

Definition echo_type (is_v6 is_client : bool) : Z :=
  match is_v6, is_client with
  | false, true => 8
  | false, false => 0
  | true, true => 128
  | true, false => 129
  end.

Definition build_icmp (out : list Z) (src dst : IpAddr) (is_client : bool) (id seq : Z) (payload : list Z)
  : outcome (list Z * Z) :=
  let is_v6 := is_ipv6 src in
  let start := zlen out in
  let out := vec_resize out (start + ICMP_HEADER_LEN) 0 in
  out ← put out start [echo_type is_v6 is_client];
  out ← put out (start + 1) [0];
  out ← put out (start + 4) (to_be 2 id);
  out ← put out (start + 6) (to_be 2 seq);
  let out := out ++ payload in
  let tot := ICMP_HEADER_LEN + zlen payload in
  seg ← slice_from out start;
  c ← (if is_v6 : bool then
         pseudo ← pseudo_header src dst IPPROTO_ICMPV6 tot;
         Done (csum_with_pseudo pseudo seg)
       else Done (csum seg));
  out ← put out (start + 2) (to_be 2 c);
  Done (out, tot).

Record ParsedIcmp := mkParsedIcmp { icmp_ptype : Z; icmp_id : Z; icmp_seq : Z }.

Definition parse_icmp (seg : list Z) (src dst : IpAddr) (is_client : bool)
  : outcome (option (ParsedIcmp * list Z)) :=
  if zlen seg <? ICMP_HEADER_LEN then Done None else
  let is_v6 := is_ipv6 src in
  ptype ← idx seg 0;
  code ← idx seg 1;
  if negb (code =? 0) then Done None else
  if negb (ptype =? echo_type is_v6 (negb is_client)) then Done None else
  ok ← (if is_v6 : bool then
          pseudo ← pseudo_header src dst IPPROTO_ICMPV6 (zlen seg);
          Done (verify_with_pseudo pseudo seg)
        else Done (verify seg));
  if negb ok then Done None else
  b4 ← idx seg 4; b5 ← idx seg 5;
  b6 ← idx seg 6; b7 ← idx seg 7;
  payload ← slice_from seg ICMP_HEADER_LEN;
  Done (Some (mkParsedIcmp ptype (from_be [b4; b5]) (from_be [b6; b7]), payload)).

(** The bytes the checksum covers besides the segment: the pseudo header for
    ICMPv6, nothing for ICMPv4. *)
Lemma icmp_pseudo src dst tot :
  ip_ok src → ip_ok dst → same_family src dst →
  ∃ ps, bytes ps ∧ zlen ps mod 2 = 0 ∧ zlen ps ≤ 40 ∧
    (∀ (A : Type) (f : list Z → A) (g : A), (is_ipv6 src = false → g = f []) →
       (if is_ipv6 src then (pseudo ← pseudo_header src dst IPPROTO_ICMPV6 tot; Done (f pseudo)) else Done g)
       = Done (f ps)).
Proof.
  intros Hs Hd Hf. destruct (is_ipv6 src) eqn:E.
  - destruct (pseudo_header_Done src dst IPPROTO_ICMPV6 tot) as (ps & Eps & ? & ? & ?); try done.
    exists ps. split_and!; try done. intros A f g _. rewrite Eps. done.
  - exists []. split_and!; try done. intros A f g Hg. by rewrite Hg.
Qed.

Lemma echo_type_byte v c : is_byte (echo_type v c).
Proof. unfold is_u. destruct v, c; simpl; lia. Qed.

Lemma parse_icmp_total seg src dst is_client :
  ip_ok src → ip_ok dst → same_family src dst → ∃ r, parse_icmp seg src dst is_client = Done r.
Proof.
  intros Hs Hd Hf. unfold parse_icmp, ICMP_HEADER_LEN.
  destruct (zlen seg <? 8) eqn:?; [eauto|]. do 2 exec_idx. cbv zeta.
  destruct (negb _); [eauto|]. destruct (negb _); [eauto|].
  destruct (icmp_pseudo src dst (zlen seg)) as (ps & _ & _ & _ & Hps); try done.
  rewrite (Hps _ (λ p, verify_with_pseudo p seg)) by done. rewrite bind_Done.
  destruct (negb _); [eauto|]. do 4 exec_idx. exec_slice. eauto.
Qed.

(** What an accepted echo packet says. *)
Lemma parse_icmp_fields seg src dst is_client h data :
  parse_icmp seg src dst is_client = Done (Some (h, data)) →
  8 ≤ zlen seg ∧ icmp_id h = from_be [nth 4 seg 0; nth 5 seg 0] ∧
  icmp_seq h = from_be [nth 6 seg 0; nth 7 seg 0] ∧ data = drop 8 seg.
Proof.
  unfold parse_icmp, ICMP_HEADER_LEN. intros H. run_inv H; simplify_eq; (split; [lia|]); by split_and!.
Qed.

Lemma icmp_build_parse src dst is_client id seq payload :
  ip_ok src → ip_ok dst → same_family src dst → is_u 16 id → is_u 16 seq → bytes payload →
  8 + zlen payload < 65536 →
  ∃ seg, build_icmp [] src dst is_client id seq payload = Done (seg, zlen seg) ∧ bytes seg ∧
    zlen seg = 8 + zlen payload ∧
    parse_icmp seg src dst (negb is_client)
    = Done (Some (mkParsedIcmp (echo_type (is_ipv6 src) is_client) id seq, payload)) ∧
    parse_icmp seg src dst is_client = Done None.
Proof.
  intros Hs Hd Hf Hid Hseq Hb Hlen.
  destruct (icmp_pseudo src dst (8 + zlen payload)) as (ps & Hpb & Hpe & Hpl & Hps); try done.
  set (ty := echo_type (is_ipv6 src) is_client).
  pose proof (echo_type_byte (is_ipv6 src) is_client : is_byte ty) as Hty.
  set (rest := to_be 2 id ++ to_be 2 seq ++ payload).
  set (c := csum_with_pseudo ps ([ty; 0] ++ [0; 0] ++ rest)).
  set (seg := [ty; 0] ++ to_be 2 c ++ rest).
  assert (zlen rest = 4 + zlen payload) as Hrl by (unfold rest; len_lia).
  assert (zlen seg = 8 + zlen payload) as Hl by (unfold seg; len_lia).
  assert (bytes rest) as Hrb by (unfold rest; auto with bytes).
  assert (bytes [ty; 0]) by (constructor; [done|auto with bytes]).
  assert (csum_with_pseudo ps seg = 0) as Hc.
  { apply fill_checksum_verifies; auto. unfold csum_len_ok. len_lia. }
  exists seg. split_and!; [|unfold seg; auto with bytes|done| |].
  - unfold build_icmp, ICMP_HEADER_LEN. cbv zeta. rewrite vec_resize_grow by lia.
    rewrite app_nil_l. fold ty.
    transitivity (
      seg ← slice_from ([ty; 0] ++ [0; 0] ++ rest) (zlen (@nil Z));
      c ← (if is_ipv6 src then (pseudo ← pseudo_header src dst IPPROTO_ICMPV6 (8 + zlen payload);
                                Done (csum_with_pseudo pseudo seg)) else Done (csum seg));
      out ← put ([ty; 0] ++ [0; 0] ++ rest) 2 (to_be 2 c);
      Done (out, 8 + zlen payload)); [reflexivity|].
    rewrite (slice_from_app [] ([ty; 0] ++ [0; 0] ++ rest)), bind_Done by done.
    rewrite (Hps _ (λ p, csum_with_pseudo p ([ty; 0] ++ [0; 0] ++ rest))) by done.
    rewrite bind_Done. fold c. rewrite put_app_mid, bind_Done by done. by rewrite Hl.
  - unfold parse_icmp, ICMP_HEADER_LEN. exec_if. do 2 exec_idx. cbv zeta.
    change (nth (Z.to_nat 0) seg 0) with ty. change (nth (Z.to_nat 1) seg 0) with 0.
    rewrite negb_involutive. fold ty. rewrite Z.eqb_refl. cbn [negb Z.eqb]. rewrite Hl.
    rewrite (Hps _ (λ p, verify_with_pseudo p seg)) by done.
    rewrite bind_Done. unfold verify_with_pseudo. rewrite Hc. cbn [negb Z.eqb].
    do 4 exec_idx. assert (slice_from seg 8 = Done payload) as ->.
    { unfold seg, rest. rewrite !app_assoc. apply slice_from_app. len_lia. }
    rewrite bind_Done.
    change (from_be [nth (Z.to_nat 4) seg 0; nth (Z.to_nat 5) seg 0]) with (from_be (to_be 2 id)).
    change (from_be [nth (Z.to_nat 6) seg 0; nth (Z.to_nat 7) seg 0]) with (from_be (to_be 2 seq)).
    by rewrite !from_to_be, Z.eqb_refl.
  - unfold parse_icmp, ICMP_HEADER_LEN. exec_if. do 2 exec_idx. cbv zeta.
    change (nth (Z.to_nat 0) seg 0) with ty. change (nth (Z.to_nat 1) seg 0) with 0.
    unfold ty. by destruct (is_ipv6 src), is_client.
Qed.

(** * Properties *)

(**  Raw-ICMP round trip: an echo packet built in one role (either address
    family) is parsed by the other role to its identifier, sequence number and
    payload, and is rejected by its own role (a client does not accept its own
    requests); and [parse_icmp] never panics. *)
Theorem icmp_roundtrip (src dst : IpAddr) (is_client : bool) (id seq : Z) (payload : list Z)
  (Hs : ip_ok src) (Hd : ip_ok dst) (Hf : same_family src dst) (Hid : is_u 16 id) (Hseq : is_u 16 seq)
  (Hb : bytes payload) (Hlen : 8 + zlen payload < 65536) :
  (∃ seg, build_icmp [] src dst is_client id seq payload = Done (seg, zlen seg) ∧
     parse_icmp seg src dst (negb is_client)
     = Done (Some (mkParsedIcmp (echo_type (is_ipv6 src) is_client) id seq, payload)) ∧
     parse_icmp seg src dst is_client = Done None) ∧
  ∀ seg role, ∃ r, parse_icmp seg src dst role = Done r.
Proof.
  split; [|intros; by apply parse_icmp_total].
  destruct (icmp_build_parse src dst is_client id seq payload) as (seg & ? & _ & _ & ? & ?); eauto.
Qed.

Lemma icmp_roundtrip_witness :
  (∃ seg, build_icmp [] addr_a addr_b true 4321 9 [1; 2; 3] = Done (seg, zlen seg) ∧
     parse_icmp seg addr_a addr_b (negb true)
     = Done (Some (mkParsedIcmp (echo_type (is_ipv6 addr_a) true) 4321 9, [1; 2; 3])) ∧
     parse_icmp seg addr_a addr_b true = Done None) ∧
  ∀ seg role, ∃ r, parse_icmp seg addr_a addr_b role = Done r.
Proof.
  apply (icmp_roundtrip addr_a addr_b true 4321 9 [1; 2; 3]); try apply addr_ok; try reflexivity;
    [unfold is_u; simpl; lia.. | auto with bytes].
Defined.
