(* ===== verification/AntiReplay.v ===== *)
(** Sliding-window anti-replay: [src/src/anti_replay.rs].

    The window is the code's ring of bytes indexed by [seq % 4000].  It is
    related to an abstract specification that remembers the set of accepted
    sequence numbers: soundly ([Sound]: every accepted number in range is marked)
    and exactly ([Refines]: no other number is), also after [re_init], which
    resets the maximum and leaves the old marks in the ring. *)
From S2P Require Import Prelude.

Definition ANTI_REPLAY_WINDOW_SIZE : Z := 4000.

Record AntiReplay := mkAntiReplay {
  max_packet_received : Z;
  window : list Z;
  next_send_seq : Z;
  ar_disabled : bool }.

(** [random] is the value drawn from the OS generator. *)
Definition AntiReplay_new (random : Z) (disabled : bool) : AntiReplay :=
  mkAntiReplay 0 (replicate (Z.to_nat ANTI_REPLAY_WINDOW_SIZE) 0) (random / 10) disabled.

Definition re_init (a : AntiReplay) : AntiReplay :=
  mkAntiReplay 0 (window a) (next_send_seq a) (ar_disabled a).

Definition next_seq_for_send (a : AntiReplay) : Z * AntiReplay :=
  (next_send_seq a,
   mkAntiReplay (max_packet_received a) (window a) (next_send_seq a +⟨64⟩ 1) (ar_disabled a)).

(** [self.window[(seq % w) as usize] = v]; the index is below 4000, the length of
    the window ([wf_length]). *)
Definition slot (seq : Z) : nat := Z.to_nat (seq mod ANTI_REPLAY_WINDOW_SIZE).
Definition mark (w : list Z) (seq v : Z) : list Z := <[slot seq := v]> w.

(** [while i < seq { window[i % w] = 0; i += 1 }] *)
Fixpoint clear_between (fuel : nat) (i seq : Z) (w : list Z) : list Z :=
  match fuel with
  | O => w
  | S fuel => if i <? seq then clear_between fuel (i + 1) seq (mark w i 0) else w
  end.

Definition is_valid (a : AntiReplay) (seq : Z) : bool * AntiReplay :=
  if ar_disabled a then (true, a) else
  let w := ANTI_REPLAY_WINDOW_SIZE in
  let mx := max_packet_received a in
  if seq =? mx then (false, a)
  else if mx <? seq then
    let win :=
      if w <=? seq - mx
      then mark ((λ _, 0) <$> window a) seq 1
      else mark (clear_between (Z.to_nat w) (mx + 1) seq (window a)) seq 1 in
    (true, mkAntiReplay seq win (next_send_seq a) (ar_disabled a))
  else if w <=? mx - seq then (false, a)
  else if nth (slot seq) (window a) 0 =? 1 then (false, a)
  else (true, mkAntiReplay mx (mark (window a) seq 1) (next_send_seq a) (ar_disabled a)).

(** * Abstract specification: the set of accepted numbers *)
Record spec := mkSpec { s_max : Z; s_acc : gset Z }.

Definition spec_accepts (s : spec) (seq : Z) : bool :=
  negb (seq =? s_max s) &&
  ((s_max s <? seq) ||
   ((s_max s - seq <? ANTI_REPLAY_WINDOW_SIZE) && bool_decide (seq ∉ s_acc s))).

Definition spec_step (s : spec) (seq : Z) : bool * spec :=
  if spec_accepts s seq then (true, mkSpec (Z.max (s_max s) seq) ({[seq]} ∪ s_acc s)) else (false, s).

(** * Slots *)
Lemma slot_lt seq : (slot seq < Z.to_nat ANTI_REPLAY_WINDOW_SIZE)%nat.
Proof.
  unfold slot, ANTI_REPLAY_WINDOW_SIZE. pose proof (Z.mod_pos_bound seq 4000 ltac:(lia)). lia.
Qed.

(** Numbers closer than the window have different slots. *)
Lemma slot_ne p q : 0 < Z.abs (p - q) < ANTI_REPLAY_WINDOW_SIZE → slot p ≠ slot q.
Proof.
  unfold slot, ANTI_REPLAY_WINDOW_SIZE. intros H E.
  pose proof (Z.mod_pos_bound p 4000 ltac:(lia)). pose proof (Z.mod_pos_bound q 4000 ltac:(lia)).
  assert (p mod 4000 = q mod 4000) as Hm by lia.
  pose proof (Z.div_mod p 4000 ltac:(lia)). pose proof (Z.div_mod q 4000 ltac:(lia)).
  assert (p - q = 4000 * (p / 4000 - q / 4000)) by lia.
  assert (p / 4000 - q / 4000 = 0 ∨ 1 ≤ p / 4000 - q / 4000 ∨ p / 4000 - q / 4000 ≤ -1) by lia. lia.
Qed.

Lemma nth_lookup_default (l : list Z) i : nth i l 0 = default 0 (l !! i).
Proof. revert i. induction l; intros [|i]; simpl; auto. Qed.

Lemma nth_mark_eq w seq v :
  length w = Z.to_nat ANTI_REPLAY_WINDOW_SIZE → nth (slot seq) (mark w seq v) 0 = v.
Proof.
  intros Hl. unfold mark. rewrite nth_lookup_default, list_lookup_insert_eq; [done|].
  rewrite Hl. apply slot_lt.
Qed.

Lemma nth_mark_ne w p q v : slot p ≠ slot q → nth (slot q) (mark w p v) 0 = nth (slot q) w 0.
Proof. intros H. unfold mark. rewrite !nth_lookup_default, list_lookup_insert_ne; done. Qed.

Lemma length_mark w seq v : length (mark w seq v) = length w.
Proof. apply length_insert. Qed.

Lemma length_clear_between fuel i seq w : length (clear_between fuel i seq w) = length w.
Proof.
  revert i w. induction fuel; intros i w; simpl; [done|]. case_ifs; [|done].
  by rewrite IHfuel, length_mark.
Qed.

(** The loop zeroes exactly the slots of the skipped numbers. *)
Lemma nth_clear_between fuel i seq w q :
  length w = Z.to_nat ANTI_REPLAY_WINDOW_SIZE →
  seq - i ≤ Z.of_nat fuel → seq - i < ANTI_REPLAY_WINDOW_SIZE →
  seq - ANTI_REPLAY_WINDOW_SIZE < q < seq →
  nth (slot q) (clear_between fuel i seq w) 0 = if (i <=? q) then 0 else nth (slot q) w 0.
Proof.
  revert i w. induction fuel as [|fuel IH]; intros i w Hl Hf Hs Hq; cbn [clear_between].
  { replace (i <=? q) with false by lia. done. }
  destruct (i <? seq) eqn:E.
  2:{ replace (i <=? q) with false by lia. done. }
  rewrite IH by (rewrite ?length_mark; lia).
  destruct (decide (q = i)) as [->|Hne].
  - replace (i + 1 <=? i) with false by lia. replace (i <=? i) with true by lia.
    by apply nth_mark_eq.
  - destruct (i <=? q) eqn:E2.
    + replace (i + 1 <=? q) with true by lia. done.
    + replace (i + 1 <=? q) with false by lia. apply nth_mark_ne, slot_ne. lia.
Qed.

(** * Invariants of the concrete state *)
Record Wf (a : AntiReplay) : Prop := {
  wf_enabled : ar_disabled a = false;
  wf_length : length (window a) = Z.to_nat ANTI_REPLAY_WINDOW_SIZE;
  wf_max : 0 ≤ max_packet_received a }.

(** Every accepted number still inside the window is marked. *)
Record Sound (a : AntiReplay) (s : spec) : Prop := {
  snd_wf : Wf a;
  snd_max : max_packet_received a = s_max s;
  snd_acc_le : ∀ q, q ∈ s_acc s → q ≤ s_max s;
  snd_marked : ∀ q, q ∈ s_acc s → s_max s - ANTI_REPLAY_WINDOW_SIZE < q →
                    nth (slot q) (window a) 0 = 1 }.

(** ... and no other number of the class [P] is marked: all numbers for a zeroed
    ring, the positive ones after [re_init]. *)
Record Refines (P : Z → Prop) (a : AntiReplay) (s : spec) : Prop := {
  ref_sound : Sound a s;
  ref_exact : ∀ q, P q → s_max s - ANTI_REPLAY_WINDOW_SIZE < q ≤ s_max s →
                   nth (slot q) (window a) 0 = 1 → q ∈ s_acc s }.

(** The window after accepting a number above the maximum, read at a number that
    is inside the new window. *)
Lemma nth_advance a seq q :
  Wf a → max_packet_received a < seq → seq - ANTI_REPLAY_WINDOW_SIZE < q < seq →
  nth (slot q) (window (is_valid a seq).2) 0
  = if (q <=? max_packet_received a) then nth (slot q) (window a) 0 else 0.
Proof.
  intros [Hd Hl Hm] Hgt Hq. unfold is_valid. rewrite Hd.
  replace (seq =? max_packet_received a) with false by lia.
  replace (max_packet_received a <? seq) with true by lia. cbv zeta. cbn [snd window].
  destruct (ANTI_REPLAY_WINDOW_SIZE <=? seq - max_packet_received a) eqn:E;
    rewrite nth_mark_ne by (apply slot_ne; lia).
  - replace (q <=? max_packet_received a) with false by lia.
    rewrite nth_lookup_default, list_lookup_fmap. by destruct (window a !! slot q).
  - rewrite nth_clear_between by (unfold ANTI_REPLAY_WINDOW_SIZE in *; lia).
    destruct (q <=? max_packet_received a) eqn:E2.
    + by replace (max_packet_received a + 1 <=? q) with false by lia.
    + by replace (max_packet_received a + 1 <=? q) with true by lia.
Qed.

Lemma nth_advance_new a seq :
  Wf a → max_packet_received a < seq → nth (slot seq) (window (is_valid a seq).2) 0 = 1.
Proof.
  intros [Hd Hl Hm] Hgt. unfold is_valid. rewrite Hd.
  replace (seq =? max_packet_received a) with false by lia.
  replace (max_packet_received a <? seq) with true by lia. cbn [snd window].
  case_ifs; apply nth_mark_eq; by rewrite ?length_fmap, ?length_clear_between.
Qed.

Lemma is_valid_wf a seq : Wf a → Wf (is_valid a seq).2.
Proof.
  intros [Hd Hl Hm]. unfold is_valid. rewrite Hd.
  case_ifs; constructor; cbn [ar_disabled window max_packet_received snd];
    rewrite ?length_mark, ?length_fmap, ?length_clear_between; first [assumption|lia].
Qed.

(** The three ways a call returns, on an enabled state. *)
Lemma is_valid_cases a seq :
  Wf a →
  (max_packet_received a < seq ∧ (is_valid a seq).1 = true ∧
     max_packet_received (is_valid a seq).2 = seq) ∨
  (max_packet_received a - ANTI_REPLAY_WINDOW_SIZE < seq < max_packet_received a ∧
     nth (slot seq) (window a) 0 ≠ 1 ∧
     is_valid a seq = (true, mkAntiReplay (max_packet_received a) (mark (window a) seq 1)
                               (next_send_seq a) (ar_disabled a))) ∨
  (is_valid a seq = (false, a) ∧
     (seq = max_packet_received a ∨
      max_packet_received a - ANTI_REPLAY_WINDOW_SIZE < seq < max_packet_received a ∧
        nth (slot seq) (window a) 0 = 1 ∨
      seq ≤ max_packet_received a - ANTI_REPLAY_WINDOW_SIZE)).
Proof.
  intros [Hd _ _]. unfold is_valid. rewrite Hd. unfold ANTI_REPLAY_WINDOW_SIZE.
  case_ifs; rewrite ?Z.eqb_eq, ?Z.eqb_neq in *; cbn [fst snd max_packet_received];
    first [left; split_and!; solve [done|lia]
          |right; right; split; [done|]; lia
          |right; left; split_and!; solve [done|lia]].
Qed.

Lemma sound_step a s seq :
  Sound a s →
  ((is_valid a seq).1 = true → seq ∉ s_acc s) ∧
  Sound (is_valid a seq).2
    (if (is_valid a seq).1 then mkSpec (Z.max (s_max s) seq) ({[seq]} ∪ s_acc s) else s).
Proof.
  intros [Hwf Hmax Hle Hmk].
  pose proof (is_valid_wf a seq Hwf) as Hwf'.
  destruct (is_valid_cases a seq Hwf) as [(Hgt & Hv & Hm') | [(Hr & Hn & Hv) | (Hv & Hr)]].
  - rewrite Hv. split; [intros _ Hin; specialize (Hle _ Hin); lia|].
    constructor; cbn [s_max s_acc]; [done|lia| |].
    + intros q [->%elem_of_singleton|Hq]%elem_of_union; [lia|]. specialize (Hle _ Hq). lia.
    + intros q [->%elem_of_singleton|Hq]%elem_of_union Hlo; [by apply nth_advance_new|].
      pose proof (Hle _ Hq). rewrite nth_advance by (try done; lia).
      replace (q <=? max_packet_received a) with true by lia. apply Hmk; [done|lia].
  - rewrite Hv in *. cbn [fst snd] in *. split.
    { intros _ Hin. apply Hn, Hmk; [done|lia]. }
    constructor; cbn [s_max s_acc max_packet_received window]; [done|lia| |].
    + intros q [->%elem_of_singleton|Hq]%elem_of_union; [lia|]. specialize (Hle _ Hq). lia.
    + intros q [->%elem_of_singleton|Hq]%elem_of_union Hlo; [apply nth_mark_eq, Hwf|].
      pose proof (Hle _ Hq). destruct (decide (q = seq)) as [->|]; [apply nth_mark_eq, Hwf|].
      rewrite nth_mark_ne by (apply slot_ne; unfold ANTI_REPLAY_WINDOW_SIZE in *; lia).
      apply Hmk; [done|lia].
  - rewrite Hv. split; done.
Qed.

Lemma refines_step P a s seq :
  Refines P a s → P seq →
  (is_valid a seq).1 = (spec_step s seq).1 ∧ Refines P (is_valid a seq).2 (spec_step s seq).2.
Proof.
  intros [Hs Hex] HP. pose proof (sound_step a s seq Hs) as [_ Hs'].
  destruct Hs as [Hwf Hmax Hle Hmk].
  assert ((is_valid a seq).1 = spec_accepts s seq) as Hacc.
  { unfold spec_accepts.
    destruct (is_valid_cases a seq Hwf) as [(Hgt & Hv & Hm') | [(Hr & Hn & Hv) | (Hv & Hr)]].
    - rewrite Hv. lia.
    - rewrite Hv. cbn [fst]. rewrite bool_decide_true; [lia|].
      intros Hin. apply Hn, Hmk; [done|lia].
    - rewrite Hv. cbn [fst]. unfold ANTI_REPLAY_WINDOW_SIZE in *.
      destruct (bool_decide_reflect (seq ∉ s_acc s)) as [Hnin|]; [|lia].
      destruct Hr as [Hr|[[Hr Hn]|Hr]]; [lia| |lia]. exfalso. apply Hnin, Hex; [done|lia|done]. }
  rewrite Hacc in Hs'. unfold spec_step.
  rewrite Hacc. destruct (spec_accepts s seq) eqn:E; cbn [fst snd] in *; (split; [done|]);
    constructor; try done; cbn [s_max s_acc].
  - intros q HPq Hq Hone. apply elem_of_union.
    destruct (decide (q = seq)) as [->|Hne]; [left; by apply elem_of_singleton|right].
    destruct (is_valid_cases a seq Hwf) as [(Hgt & Hv & Hm') | [(Hr & Hn & Hv) | (Hv & Hr)]].
    + rewrite nth_advance in Hone by (try done; lia).
      destruct (q <=? max_packet_received a) eqn:E2; [|done]. apply Hex; [done|lia|done].
    + rewrite Hv in Hone. cbn [snd window] in Hone.
      rewrite nth_mark_ne in Hone by (apply slot_ne; unfold ANTI_REPLAY_WINDOW_SIZE in *; lia).
      apply Hex; [done|lia|done].
    + rewrite Hv in Hacc. done.
  - destruct (is_valid_cases a seq Hwf) as [(Hgt & Hv & Hm') | [(Hr & Hn & Hv) | (Hv & Hr)]];
      [congruence|rewrite Hv in Hacc; done|]. rewrite Hv. done.
Qed.

(** * Sequences of calls *)
Fixpoint is_valid_all (a : AntiReplay) (seqs : list Z) : list bool :=
  match seqs with
  | [] => []
  | q :: qs => let '(v, a') := is_valid a q in v :: is_valid_all a' qs
  end.

Fixpoint spec_all (s : spec) (seqs : list Z) : list bool :=
  match seqs with
  | [] => []
  | q :: qs => let '(v, s') := spec_step s q in v :: spec_all s' qs
  end.

Definition empty_spec : spec := mkSpec 0 ∅.

(** The numbers that were accepted, in order. *)
Definition accepted (a : AntiReplay) (seqs : list Z) : list Z :=
  (λ p, p.1) <$> filter (λ p, p.2 = true) (zip seqs (is_valid_all a seqs)).

(** [n] consecutive calls of [next_seq_for_send]. *)
Fixpoint send_all (a : AntiReplay) (n : nat) : list Z :=
  match n with
  | O => []
  | S n => let '(q, a') := next_seq_for_send a in q :: send_all a' n
  end.

Lemma refines_all P a s seqs :
  Refines P a s → Forall P seqs → is_valid_all a seqs = spec_all s seqs.
Proof.
  intros H HP. revert a s H. induction HP as [|q qs Hq HP IH]; intros a s H; [done|].
  cbn [is_valid_all spec_all]. pose proof (refines_step P a s q H Hq) as [Hv Hr].
  destruct (is_valid a q), (spec_step s q). cbn [fst snd] in *. f_equal; auto.
Qed.

Lemma sound_reset a : Wf a → Sound (re_init a) empty_spec.
Proof.
  intros [Hd Hl _]. constructor; done.
Qed.

Lemma wf_new random : Wf (AntiReplay_new random false).
Proof. constructor; [done| |done]. apply length_replicate. Qed.

Lemma sound_new random : Sound (AntiReplay_new random false) empty_spec.
Proof. constructor; [apply wf_new|done..]. Qed.

Lemma refines_new random : Refines (λ _, True) (AntiReplay_new random false) empty_spec.
Proof.
  constructor; [apply sound_new|]. intros q _ _. unfold AntiReplay_new. cbn [window].
  rewrite nth_lookup_default.
  destruct (_ !! slot q) as [x|] eqn:E; [apply lookup_replicate in E as [-> _]|]; done.
Qed.

(** The marks of the previous connection are never read for a positive number:
    the numbers between 0 and the maximum were cleared on the way up. *)
Lemma refines_reset a : Wf a → Refines (λ q, 1 ≤ q) (re_init a) empty_spec.
Proof. intros H. constructor; [by apply sound_reset|]. cbn [empty_spec s_max]. lia. Qed.

Lemma accepted_cons a q qs :
  accepted a (q :: qs)
  = (if (is_valid a q).1 then [q] else []) ++ accepted (is_valid a q).2 qs.
Proof.
  unfold accepted. cbn [is_valid_all]. destruct (is_valid a q) as [v a']. cbn [zip zip_with fst snd].
  rewrite filter_cons. cbn [snd]. destruct v; case_decide; done.
Qed.

Lemma accepted_fresh a s seqs :
  Sound a s → NoDup (accepted a seqs) ∧ (∀ q, q ∈ accepted a seqs → q ∉ s_acc s).
Proof.
  revert a s. induction seqs as [|q qs IH]; intros a s H.
  { split; [constructor|]. intros q Hq. apply elem_of_nil in Hq. done. }
  rewrite accepted_cons. pose proof (sound_step a s q H) as [Hq Hs'].
  destruct (is_valid a q) as [v a']. cbn [fst snd] in *.
  specialize (IH _ _ Hs') as [Hnd Hni]. destruct v; cbn [app]; [|done]. split.
  - constructor; [|done]. intros Hin. apply Hni in Hin. cbn [s_acc] in Hin. set_solver.
  - intros p [->|Hp]%elem_of_cons; [auto|]. apply Hni in Hp. cbn [s_acc] in Hp. set_solver.
Qed.

(** Distinct numbers, each within the window of the largest number before it. *)
Fixpoint windowed (mx : Z) (seqs : list Z) : bool :=
  match seqs with
  | [] => true
  | q :: qs => (mx - q <? ANTI_REPLAY_WINDOW_SIZE) && windowed (Z.max mx q) qs
  end.

Lemma spec_all_windowed s seqs :
  (∀ q, q ∈ s_acc s → q ≤ s_max s) → (s_max s ∈ s_acc s ∨ s_max s ∉ seqs) →
  NoDup seqs → (∀ q, q ∈ seqs → q ∉ s_acc s) → windowed (s_max s) seqs = true →
  spec_all s seqs = replicate (length seqs) true.
Proof.
  revert s. induction seqs as [|q qs IH]; intros s Hle Hmx Hnd Hni Hw; [done|].
  apply NoDup_cons in Hnd as [Hq Hnd]. cbn [windowed] in Hw. apply andb_prop in Hw as [Hlt Hw].
  assert (q ∉ s_acc s) as Hqa by (apply Hni; by left).
  assert (q ≠ s_max s) as Hqm by (destruct Hmx as [Hm|Hm]; intros ->; [done|set_solver +Hm]).
  assert (spec_accepts s q = true) as Hacc.
  { unfold spec_accepts. rewrite bool_decide_true by done. lia. }
  cbn [spec_all length replicate]. unfold spec_step. rewrite Hacc. f_equal.
  apply IH; cbn [s_max s_acc]; [| |done| |done].
  - intros p [->%elem_of_singleton|Hp]%elem_of_union; [lia|]. specialize (Hle _ Hp). lia.
  - destruct (decide (s_max s < q)).
    + left. rewrite Z.max_r by lia. set_solver +.
    + rewrite Z.max_l by lia. destruct Hmx as [Hm|Hm]; [left; set_solver +Hm|right; set_solver +Hm].
  - intros p Hp [->%elem_of_singleton|Hpa]%elem_of_union; [done|].
    apply (Hni p); [by right|done].
Qed.

(** * Claims *)

(** C15. A receiver that was just created answers every sequence of packet numbers
    exactly as the specification that remembers the whole set of accepted
    numbers: a number is accepted iff it was not accepted before, is not the
    current maximum (0 at the start) and is less than 4000 behind the maximum. *)
Theorem anti_replay_refines (random : Z) (seqs : list Z) :
  is_valid_all (AntiReplay_new random false) seqs = spec_all empty_spec seqs.
Proof. eapply refines_all; [apply refines_new|]. by apply Forall_true. Qed.

(** No packet number is accepted twice between two [re_init] calls, whatever
    the state the previous connection left behind. *)
Theorem anti_replay_no_duplicates (a : AntiReplay) (seqs : list Z) :
  Wf a → NoDup (accepted (re_init a) seqs).
Proof. intros H. apply (accepted_fresh _ empty_spec), sound_reset, H. Qed.

Definition used_window : AntiReplay :=
  (is_valid (is_valid (AntiReplay_new 50 false) 4010).2 4007).2.

Lemma used_window_wf : Wf used_window.
Proof. apply is_valid_wf, is_valid_wf, wf_new. Qed.

Lemma anti_replay_no_duplicates_witness :
  accepted (re_init used_window) [5; 7; 5; 6; 7] = [5; 7; 6] ∧
  NoDup (accepted (re_init used_window) [5; 7; 5; 6; 7]).
Proof.
  split; [vm_compute; reflexivity|]. apply (anti_replay_no_duplicates used_window).
  exact used_window_wf.
Defined.

(** [re_init] does not clear the ring, but the marks the previous connection
    left in it are never consulted for a positive number: the receiver answers
    the next connection exactly as a fresh specification. *)
Theorem anti_replay_re_init_exact (a : AntiReplay) (seqs : list Z) :
  Wf a → Forall (λ q, 1 ≤ q) seqs →
  is_valid_all (re_init a) seqs = spec_all empty_spec seqs.
Proof. intros Hwf. by apply refines_all, refines_reset. Qed.

Lemma anti_replay_re_init_exact_witness :
  is_valid_all (re_init used_window) [12; 10; 7; 10; 4007; 7]
  = [true; true; true; false; true; false].
Proof.
  rewrite (anti_replay_re_init_exact used_window [12; 10; 7; 10; 4007; 7]);
    [reflexivity|exact used_window_wf|].
  repeat constructor; lia.
Defined.

Lemma send_all_spec a n q :
  next_send_seq a + Z.of_nat n ≤ 2 ^ 64 → 0 ≤ next_send_seq a →
  q ∈ send_all a n ↔ next_send_seq a ≤ q < next_send_seq a + Z.of_nat n.
Proof.
  revert a. induction n as [|n IH]; intros a Hb H0.
  { cbn [send_all]. rewrite elem_of_nil. lia. }
  cbn [send_all next_seq_for_send]. rewrite elem_of_cons.
  destruct n as [|n'].
  { cbn [send_all]. rewrite elem_of_nil. lia. }
  rewrite IH; cbn [next_send_seq]; rewrite wrap_small by (unfold is_u; lia); lia.
Qed.

Lemma send_all_nodup a n :
  next_send_seq a + Z.of_nat n ≤ 2 ^ 64 → 0 ≤ next_send_seq a → NoDup (send_all a n).
Proof.
  revert a. induction n as [|n IH]; intros a Hb H0; cbn [send_all next_seq_for_send]; [constructor|].
  destruct n as [|n']; [apply NoDup_singleton|].
  assert (wrap 64 (next_send_seq a + 1) = next_send_seq a + 1) as Hw
    by (apply wrap_small; unfold is_u; lia).
  constructor; [|apply IH; cbn [next_send_seq]; rewrite Hw; lia].
  rewrite send_all_spec; cbn [next_send_seq]; rewrite Hw; lia.
Qed.

(** Packets a sender numbers before its 64-bit counter wraps are all accepted
    by a fresh receiver in any order of delivery [seqs] (without duplicates)
    that keeps every packet less than 4000 numbers behind the largest one
    delivered before it. *)
Theorem anti_replay_accepts_reordered (a : AntiReplay) (n : nat) (random : Z) (seqs : list Z) :
  1 ≤ next_send_seq a → next_send_seq a + Z.of_nat n ≤ 2 ^ 64 →
  seqs ≡ₚ send_all a n → windowed 0 seqs = true →
  is_valid_all (AntiReplay_new random false) seqs = replicate (length seqs) true.
Proof.
  intros H1 Hb Hp Hw.
  rewrite (refines_all _ _ _ _ (refines_new random)) by by apply Forall_true.
  apply spec_all_windowed; cbn [empty_spec s_max s_acc]; [| | | |done].
  - set_solver.
  - right. rewrite Hp, send_all_spec by lia. lia.
  - rewrite Hp. apply send_all_nodup; lia.
  - set_solver.
Qed.

Lemma anti_replay_accepts_reordered_witness :
  is_valid_all (AntiReplay_new 3 false) [71; 70; 73; 72] = replicate 4 true.
Proof.
  apply (anti_replay_accepts_reordered (AntiReplay_new 700 false) 4 3 [71; 70; 73; 72]).
  - vm_compute. discriminate.
  - vm_compute. discriminate.
  - apply (Permutation_trans (l' := [70; 71; 73; 72])); [apply perm_swap|].
    apply perm_skip, perm_skip, perm_swap.
  - reflexivity.
Defined.
