(* ===== verification/Fips197.v ===== *)
(** Reference definition of AES-128 (FIPS-197) and the algebra of its transformations.

    The block ciphers of [src/src/crypto] are compared with this file: the
    table-driven code of [aes_table.rs] is proved equal to it ([AesTable.v]) and
    the external [aes] crate is assumed to implement it.  A state is the list of
    its 16 bytes in column order; multiplication is that of
    GF(2)[x]/(x^8+x^4+x^3+x+1), written as a polynomial product and a reduction,
    and the S-box is the inverse followed by the affine map. *)
From S2P Require Import Prelude.
From Stdlib Require Import Btauto.

Definition all_bytes : list Z := Z.of_nat <$> seq 0 256.

(** A decidable property of a byte is checked on the 256 values. *)
Lemma byte_forall (P : Z → bool) :
  forallb P all_bytes = true → ∀ x, is_byte x → P x = true.
Proof.
  intros H x Hx. rewrite forallb_forall in H. apply H. unfold all_bytes, is_u in *.
  apply list_elem_of_In, list_elem_of_fmap. exists (Z.to_nat x).
  change (2 ^ 8) with 256 in Hx. rewrite elem_of_seq. split; lia.
Qed.

(** * The field *)
Fixpoint poly_mul (n : nat) (a b : Z) : Z :=
  match n with
  | O => 0
  | S n => Z.lxor (if Z.testbit b (Z.of_nat n) then Z.shiftl a (Z.of_nat n) else 0) (poly_mul n a b)
  end.
(** Reduction of a polynomial of degree at most [7 + n]. *)
Fixpoint poly_mod (n : nat) (p : Z) : Z :=
  match n with
  | O => p
  | S n => poly_mod n (if Z.testbit p (8 + Z.of_nat n) then Z.lxor p (Z.shiftl 0x11b (Z.of_nat n)) else p)
  end.
Definition gmul (a b : Z) : Z := poly_mod 7 (poly_mul 8 a b).

Definition ginv (x : Z) : Z := default 0 (head (filter (λ y, gmul x y = 1) all_bytes)).

(** * The S-box *)
Definition affine (b : Z) : Z :=
  foldr (λ i acc,
    let bit k := Z.testbit b ((Z.of_nat i + k) mod 8) in
    Z.lxor (if xorb (bit 0) (xorb (bit 4) (xorb (bit 5) (xorb (bit 6) (bit 7)))) then Z.shiftl 1 (Z.of_nat i) else 0) acc)
    0x63 (seq 0 8).
Definition S_box (x : Z) : Z := affine (ginv x).
Definition S_tab : list Z := Eval vm_compute in S_box <$> all_bytes.
Definition sub (x : Z) : Z := nth (Z.to_nat x) S_tab 0.
Definition InvS_tab : list Z :=
  Eval vm_compute in (λ y, default 0 (head (filter (λ x, sub x = y) all_bytes))) <$> all_bytes.
Definition inv_sub (y : Z) : Z := nth (Z.to_nat y) InvS_tab 0.

(** * The transformations of the state *)
Definition SubBytes (s : list Z) : list Z := sub <$> s.
Definition InvSubBytes (s : list Z) : list Z := inv_sub <$> s.

(** Row [r], column [c] is byte [r + 4 c]; row [r] rotates by [r]. *)
Definition ShiftRows (s : list Z) : list Z :=
  (λ i, nth (i `mod` 4 + 4 * ((i `div` 4 + i `mod` 4) `mod` 4))%nat s 0) <$> seq 0 16.
Definition InvShiftRows (s : list Z) : list Z :=
  (λ i, nth (i `mod` 4 + 4 * ((i `div` 4 + 4 - i `mod` 4) `mod` 4))%nat s 0) <$> seq 0 16.

Definition xor4 (a b c d : Z) : Z := Z.lxor a (Z.lxor b (Z.lxor c d)).
Definition mix_column (m0 m1 m2 m3 : Z) (a b c d : Z) : list Z :=
  [xor4 (gmul m0 a) (gmul m1 b) (gmul m2 c) (gmul m3 d);
   xor4 (gmul m3 a) (gmul m0 b) (gmul m1 c) (gmul m2 d);
   xor4 (gmul m2 a) (gmul m3 b) (gmul m0 c) (gmul m1 d);
   xor4 (gmul m1 a) (gmul m2 b) (gmul m3 c) (gmul m0 d)].
Definition on_columns (f : Z → Z → Z → Z → list Z) (s : list Z) : list Z :=
  flat_map (λ c, f (nth (4 * c) s 0) (nth (4 * c + 1) s 0) (nth (4 * c + 2) s 0) (nth (4 * c + 3) s 0))
    (seq 0 4).
Definition MixColumns : list Z → list Z := on_columns (mix_column 2 3 1 1).
Definition InvMixColumns : list Z → list Z := on_columns (mix_column 0xe 0xb 0xd 0x9).

Definition xor_bytes (a b : list Z) : list Z := zip_with Z.lxor a b.
Definition round_key (w : list (list Z)) (r : nat) : list Z := mjoin (take 4 (drop (4 * r) w)).
Definition AddRoundKey (w : list (list Z)) (r : nat) (s : list Z) : list Z :=
  xor_bytes s (round_key w r).

(** * Key expansion and the cipher *)
Definition rcon (i : nat) : Z := Nat.iter (i - 1) (gmul 2) 1.
Definition rot_word (w : list Z) : list Z := drop 1 w ++ take 1 w.
Definition next_word (w : list (list Z)) : list Z :=
  let i := length w in
  let temp := nth (i - 1) w [] in
  let temp := if (i `mod` 4 =? 0)%nat
              then xor_bytes (SubBytes (rot_word temp)) [rcon (i / 4); 0; 0; 0] else temp in
  xor_bytes (nth (i - 4) w []) temp.
Definition extend (w : list (list Z)) : list (list Z) := w ++ [next_word w].
Definition key_words (key : list Z) : list (list Z) :=
  (λ i, take 4 (drop (4 * i) key)) <$> seq 0 4.
Definition KeyExpansion (key : list Z) : list (list Z) := Nat.iter 40 extend (key_words key).

(** [rounds w n r s]: rounds [r], [r + 1], ..., [r + n - 1]. *)
Fixpoint rounds (w : list (list Z)) (n r : nat) (s : list Z) : list Z :=
  match n with
  | O => s
  | S n => rounds w n (S r) (AddRoundKey w r (MixColumns (ShiftRows (SubBytes s))))
  end.
Definition Cipher (w : list (list Z)) (block : list Z) : list Z :=
  AddRoundKey w 10 (ShiftRows (SubBytes (rounds w 9 1 (AddRoundKey w 0 block)))).

(** [inv_rounds w n]: rounds [n], [n - 1], ..., 1 of the inverse cipher. *)
Fixpoint inv_rounds (w : list (list Z)) (n : nat) (s : list Z) : list Z :=
  match n with
  | O => s
  | S n' => inv_rounds w n' (InvMixColumns (AddRoundKey w n (InvSubBytes (InvShiftRows s))))
  end.
Definition InvCipher (w : list (list Z)) (block : list Z) : list Z :=
  AddRoundKey w 0 (InvSubBytes (InvShiftRows (inv_rounds w 9 (AddRoundKey w 10 block)))).

Definition aes128_encrypt (key block : list Z) : list Z := Cipher (KeyExpansion key) block.
Definition aes128_decrypt (key block : list Z) : list Z := InvCipher (KeyExpansion key) block.

(** * Algebra of the field operations on bytes *)

(** Equalities in the group generated by [Z.lxor]. *)
Ltac xor_ring :=
  apply Z.bits_inj'; intros ? _; rewrite ?Z.lxor_spec, ?Z.bits_0;
  repeat match goal with |- context [Z.testbit ?x ?i] => generalize (Z.testbit x i) end;
  intros; btauto.

(** Multiplication by 2 on bytes. *)
Definition xt (x : Z) : Z :=
  Z.lxor (Z.land (Z.shiftl x 1) 255) (if Z.testbit x 7 then 0x1b else 0).

Lemma xt_byte x : is_byte x → is_byte (xt x).
Proof.
  intros H. pose proof (byte_forall (λ x, (0 <=? xt x) && (xt x <? 256)) ltac:(vm_compute; done) x H).
  unfold is_u. simpl in *. lia.
Qed.

Lemma xt_lxor x y : xt (Z.lxor x y) = Z.lxor (xt x) (xt y).
Proof.
  unfold xt. rewrite Z.shiftl_lxor, Z.lxor_spec.
  apply Z.bits_inj'. intros i _. rewrite !Z.lxor_spec, !Z.land_spec, !Z.lxor_spec.
  destruct (Z.testbit x 7), (Z.testbit y 7); cbn [xorb]; rewrite ?Z.bits_0; btauto.
Qed.

Ltac byte_check x H :=
  apply Z.eqb_eq; pattern x;
  match goal with |- (fun z => @?P z = true) _ =>
    exact (byte_forall P ltac:(vm_compute; reflexivity) x H) end.

#[global] Opaque gmul xt sub inv_sub.

Lemma gmul_1 x : is_byte x → gmul 1 x = x.
Proof. intros H. byte_check x H. Qed.
Lemma gmul_2 x : is_byte x → gmul 2 x = xt x.
Proof. intros H. byte_check x H. Qed.
Lemma gmul_3 x : is_byte x → gmul 3 x = Z.lxor (xt x) x.
Proof. intros H. byte_check x H. Qed.
Lemma gmul_9 x : is_byte x → gmul 0x9 x = Z.lxor (xt (xt (xt x))) x.
Proof. intros H. byte_check x H. Qed.
Lemma gmul_11 x : is_byte x → gmul 0xb x = Z.lxor (xt (xt (xt x))) (Z.lxor (xt x) x).
Proof. intros H. byte_check x H. Qed.
Lemma gmul_13 x : is_byte x → gmul 0xd x = Z.lxor (xt (xt (xt x))) (Z.lxor (xt (xt x)) x).
Proof. intros H. byte_check x H. Qed.
Lemma gmul_14 x : is_byte x → gmul 0xe x = Z.lxor (xt (xt (xt x))) (Z.lxor (xt (xt x)) (xt x)).
Proof. intros H. byte_check x H. Qed.

Lemma byte_lxor x y : is_byte x → is_byte y → is_byte (Z.lxor x y).
Proof. apply is_u_lxor. lia. Qed.
Create HintDb aes.
#[export] Hint Resolve xt_byte byte_lxor : aes.
Lemma inv_sub_sub x : is_byte x → inv_sub (sub x) = x.
Proof. intros H. byte_check x H. Qed.
Lemma sub_inv_sub x : is_byte x → sub (inv_sub x) = x.
Proof. intros H. byte_check x H. Qed.
Lemma sub_byte x : is_byte x → is_byte (sub x).
Proof.
  intros H. pose proof (byte_forall (λ x, (0 <=? sub x) && (sub x <? 256)) ltac:(vm_compute; done) x H).
  unfold is_u. simpl in *. lia.
Qed.
Lemma inv_sub_byte x : is_byte x → is_byte (inv_sub x).
Proof.
  intros H. pose proof (byte_forall (λ x, (0 <=? inv_sub x) && (inv_sub x <? 256)) ltac:(vm_compute; done) x H).
  unfold is_u. simpl in *. lia.
Qed.
#[export] Hint Resolve sub_byte inv_sub_byte : aes.
(** Widths of byte expressions, directed by the syntax of the expression. *)
Ltac byte_step :=
  match goal with
  | H : is_u 8 ?x |- is_u 8 ?x => exact H
  | |- is_u 8 (Z.lxor _ _) => apply byte_lxor
  | |- is_u 8 (xt _) => apply xt_byte
  | |- is_u 8 (sub _) => apply sub_byte
  | |- is_u 8 (inv_sub _) => apply inv_sub_byte
  end.
Ltac byte := first [solve [repeat byte_step] | solve [eauto 20 with aes]].
Ltac byte_list := repeat (apply Forall_cons_2; [byte|]); apply Forall_nil_2.

(** Multiplication by the constants of the two mixing matrices, through [xt]. *)
Ltac mul_xt :=
  repeat first [rewrite gmul_1 by byte | rewrite gmul_3 by byte | rewrite gmul_9 by byte
               |rewrite gmul_11 by byte | rewrite gmul_13 by byte | rewrite gmul_14 by byte
               |rewrite gmul_2 by byte].

(** * States *)
Definition state (s : list Z) : Prop := length s = 16%nat ∧ bytes s.

Lemma state_inv s :
  state s →
  ∃ a0 a1 a2 a3 b0 b1 b2 b3 c0 c1 c2 c3 d0 d1 d2 d3,
    s = [a0; a1; a2; a3; b0; b1; b2; b3; c0; c1; c2; c3; d0; d1; d2; d3] ∧ bytes s.
Proof.
  intros [Hl Hb]. do 16 (destruct s as [|? s]; [discriminate Hl|]). destruct s; [|discriminate Hl].
  repeat eexists. done.
Qed.

Ltac inv_bytes :=
  repeat match goal with H : Forall _ (_ :: _) |- _ => apply Forall_cons in H as [? H] end.

(** Names the bytes of a state. *)
Ltac open_state H :=
  apply state_inv in H as (?&?&?&?&?&?&?&?&?&?&?&?&?&?&?&?&->&H); inv_bytes.

Lemma mix_column_byte m0 m1 m2 m3 a b c d :
  (∀ x, is_byte x → is_byte (gmul m0 x) ∧ is_byte (gmul m1 x) ∧ is_byte (gmul m2 x) ∧ is_byte (gmul m3 x)) →
  is_byte a → is_byte b → is_byte c → is_byte d → bytes (mix_column m0 m1 m2 m3 a b c d).
Proof.
  intros H Ha Hb Hc Hd. pose proof (H a Ha) as (?&?&?&?). pose proof (H b Hb) as (?&?&?&?).
  pose proof (H c Hc) as (?&?&?&?). pose proof (H d Hd) as (?&?&?&?).
  unfold mix_column, xor4. byte_list.
Qed.

Lemma state_on_columns f s :
  (∀ a b c d, is_byte a → is_byte b → is_byte c → is_byte d → length (f a b c d) = 4%nat ∧ bytes (f a b c d)) →
  state s → state (on_columns f s).
Proof.
  intros Hf Hs. open_state Hs. unfold on_columns. cbn [seq flat_map nth Nat.mul Nat.add].
  repeat match goal with
  | |- context [f ?a ?b ?c ?d] =>
      destruct (Hf a b c d) as [? ?]; [done..|]; generalize dependent (f a b c d); intros
  end.
  split; [rewrite !length_app; simpl; lia|]. rewrite !Forall_app. done.
Qed.

Lemma state_MixColumns s : state s → state (MixColumns s).
Proof.
  apply state_on_columns. intros. split; [done|]. apply mix_column_byte; [|done..].
  intros x Hx. rewrite gmul_3, !gmul_1, gmul_2 by done. split_and!; byte.
Qed.
Lemma state_InvMixColumns s : state s → state (InvMixColumns s).
Proof.
  apply state_on_columns. intros. split; [done|]. apply mix_column_byte; [|done..].
  intros x Hx. rewrite gmul_9, gmul_11, gmul_13, gmul_14 by done. split_and!; byte.
Qed.
Lemma state_SubBytes s : state s → state (SubBytes s).
Proof.
  intros [Hl Hb]. split; [by unfold SubBytes; rewrite length_fmap|].
  apply Forall_fmap. eapply Forall_impl; [exact Hb|]. apply sub_byte.
Qed.
Lemma state_InvSubBytes s : state s → state (InvSubBytes s).
Proof.
  intros [Hl Hb]. split; [by unfold InvSubBytes; rewrite length_fmap|].
  apply Forall_fmap. eapply Forall_impl; [exact Hb|]. apply inv_sub_byte.
Qed.
Lemma state_ShiftRows s : state s → state (ShiftRows s).
Proof. intros Hs. open_state Hs. split; [done|]. cbn. byte_list. Qed.
Lemma state_InvShiftRows s : state s → state (InvShiftRows s).
Proof. intros Hs. open_state Hs. split; [done|]. cbn. byte_list. Qed.
Lemma bytes_xor_bytes a b : bytes a → bytes b → bytes (xor_bytes a b).
Proof.
  intros Ha Hb. revert b Hb. induction Ha; intros b Hb; destruct Hb; constructor; byte.
Qed.
Lemma length_xor_bytes a b : length (xor_bytes a b) = (length a `min` length b)%nat.
Proof. apply length_zip_with. Qed.
Lemma state_xor a b : state a → state b → state (xor_bytes a b).
Proof.
  intros [Hla Ha] [Hlb Hb]. split; [rewrite length_xor_bytes; lia|]. by apply bytes_xor_bytes.
Qed.
#[export] Hint Resolve state_MixColumns state_InvMixColumns state_SubBytes state_InvSubBytes
  state_ShiftRows state_InvShiftRows state_xor : aes.

(** * The inverse transformations *)
Lemma InvSubBytes_SubBytes s : state s → InvSubBytes (SubBytes s) = s.
Proof.
  intros [_ Hb]. unfold InvSubBytes, SubBytes. induction Hb; [done|]. simpl. rewrite inv_sub_sub by done.
  by f_equal.
Qed.
Lemma InvShiftRows_ShiftRows s : state s → InvShiftRows (ShiftRows s) = s.
Proof. intros Hs. open_state Hs. reflexivity. Qed.
Lemma InvSubBytes_InvShiftRows s : state s → InvSubBytes (InvShiftRows s) = InvShiftRows (InvSubBytes s).
Proof. intros Hs. open_state Hs. reflexivity. Qed.

Lemma xor_bytes_cancel a b : length a = length b → xor_bytes (xor_bytes a b) b = a.
Proof.
  revert b. induction a as [|x a IH]; intros [|y b]; intros Hl; try done.
  cbn. rewrite lxor_cancel_r. f_equal. apply IH. simpl in Hl. lia.
Qed.

(** From [x = e], rewrites the goal with the values of [xt^3 x], [xt^2 x], [xt x] and [x]. *)
Ltac xt_powers E :=
  let E1 := fresh in let E2 := fresh in let E3 := fresh in
  pose proof (f_equal xt E) as E1; rewrite !xt_lxor in E1;
  pose proof (f_equal xt E1) as E2; rewrite !xt_lxor in E2;
  pose proof (f_equal xt E2) as E3; rewrite !xt_lxor in E3;
  rewrite E3, E2, E1, E; clear E1 E2 E3 E.

(** The inverse matrix: no reduction is needed, the products cancel as polynomials. *)
Lemma inv_mix_mix a b c d :
  is_byte a → is_byte b → is_byte c → is_byte d →
  match mix_column 2 3 1 1 a b c d with
  | [a'; b'; c'; d'] => mix_column 0xe 0xb 0xd 0x9 a' b' c' d' = [a; b; c; d]
  | _ => False
  end.
Proof.
  intros Ha Hb Hc Hd. unfold mix_column at 1, xor4. mul_xt.
  match goal with
  | |- mix_column _ _ _ _ ?p ?q ?r ?t = _ =>
      remember p as a' eqn:Ea; remember q as b' eqn:Eb; remember r as c' eqn:Ec; remember t as d' eqn:Ed
  end.
  assert (is_byte a' ∧ is_byte b' ∧ is_byte c' ∧ is_byte d') as (Ha'&Hb'&Hc'&Hd')
    by (subst; split_and!; byte).
  unfold mix_column, xor4. mul_xt.
  xt_powers Ea. xt_powers Eb. xt_powers Ec. xt_powers Ed.
  apply (f_equal2 cons); [xor_ring|]. apply (f_equal2 cons); [xor_ring|].
  apply (f_equal2 cons); [xor_ring|]. apply (f_equal2 cons); [xor_ring|]. reflexivity.
Qed.

Lemma InvMixColumns_MixColumns s : state s → InvMixColumns (MixColumns s) = s.
Proof.
  intros Hs. open_state Hs. unfold InvMixColumns, MixColumns, on_columns.
  cbn [seq flat_map nth Nat.mul Nat.add].
  repeat match goal with
  | |- context [mix_column 2 3 1 1 ?a ?b ?c ?d] =>
      pose proof (inv_mix_mix a b c d ltac:(done) ltac:(done) ltac:(done) ltac:(done));
      destruct (mix_column 2 3 1 1 a b c d) as [|? [|? [|? [|? [|]]]]]; try contradiction
  end.
  cbn [app nth]. repeat match goal with H : _ = _ |- _ => rewrite H; clear H end. reflexivity.
Qed.

Lemma mix_column_xor a b c d a' b' c' d' :
  is_byte a → is_byte b → is_byte c → is_byte d →
  is_byte a' → is_byte b' → is_byte c' → is_byte d' →
  mix_column 0xe 0xb 0xd 0x9 (Z.lxor a a') (Z.lxor b b') (Z.lxor c c') (Z.lxor d d')
  = xor_bytes (mix_column 0xe 0xb 0xd 0x9 a b c d) (mix_column 0xe 0xb 0xd 0x9 a' b' c' d').
Proof.
  intros. unfold mix_column, xor4, xor_bytes. cbn [zip_with]. mul_xt. rewrite !xt_lxor.
  repeat (f_equal; [xor_ring|]). f_equal. xor_ring.
Qed.

Lemma InvMixColumns_xor s k :
  state s → state k → InvMixColumns (xor_bytes s k) = xor_bytes (InvMixColumns s) (InvMixColumns k).
Proof.
  intros Hs Hk. open_state Hs. open_state Hk.
  unfold InvMixColumns, on_columns, xor_bytes at 1 2 3 4. cbn [zip_with seq flat_map nth Nat.mul Nat.add].
  rewrite !mix_column_xor by done. reflexivity.
Qed.

(** * Decryption inverts encryption, for any key schedule of 44 words *)
Definition schedule (w : list (list Z)) : Prop :=
  length w = 44%nat ∧ Forall (λ k, length k = 4%nat ∧ bytes k) w.

Lemma state_round_key w r : schedule w → (r ≤ 10)%nat → state (round_key w r).
Proof.
  intros [Hl Hw] Hr. unfold round_key.
  assert (Forall (λ k, length k = 4%nat ∧ bytes k) (take 4 (drop (4 * r) w))) as Hf
    by (by apply Forall_take, Forall_drop).
  assert (length (take 4 (drop (4 * r) w)) = 4%nat) as Hl4 by (rewrite length_take, length_drop; lia).
  destruct (take 4 (drop (4 * r) w)) as [|k0 [|k1 [|k2 [|k3 [|]]]]]; try discriminate Hl4.
  repeat match goal with H : Forall _ (_ :: _) |- _ => apply Forall_cons in H as [[? ?] H] end.
  split; simpl; [rewrite !length_app; simpl; lia|]. rewrite !Forall_app. done.
Qed.
#[export] Hint Resolve state_round_key : aes.

Lemma state_AddRoundKey w r s : schedule w → (r ≤ 10)%nat → state s → state (AddRoundKey w r s).
Proof. intros. unfold AddRoundKey. byte. Qed.
#[export] Hint Resolve state_AddRoundKey : aes.

Lemma AddRoundKey_twice w r s :
  schedule w → (r ≤ 10)%nat → state s → AddRoundKey w r (AddRoundKey w r s) = s.
Proof.
  intros Hw Hr [Hl _]. apply xor_bytes_cancel. pose proof (state_round_key w r Hw Hr) as [-> _]. done.
Qed.

Lemma rounds_snoc w n r s :
  rounds w (S n) r s
  = AddRoundKey w (r + n) (MixColumns (ShiftRows (SubBytes (rounds w n r s)))).
Proof.
  revert r s. induction n as [|n IH]; intros r s; [simpl; by rewrite Nat.add_0_r|].
  change (rounds w (S (S n)) r s) with
    (rounds w (S n) (S r) (AddRoundKey w r (MixColumns (ShiftRows (SubBytes s))))).
  rewrite (IH (S r)). replace (r + S n)%nat with (S r + n)%nat by lia. done.
Qed.

Lemma rounds_snoc_1 w n s :
  rounds w (S n) 1 s = AddRoundKey w (S n) (MixColumns (ShiftRows (SubBytes (rounds w n 1 s)))).
Proof. exact (rounds_snoc w n 1 s). Qed.

Lemma inv_rounds_S w n s :
  inv_rounds w (S n) s
  = inv_rounds w n (InvMixColumns (AddRoundKey w (S n) (InvSubBytes (InvShiftRows s)))).
Proof. reflexivity. Qed.
Lemma state_rounds w n r s : schedule w → (r + n ≤ 10)%nat → state s → state (rounds w n r s).
Proof.
  revert r s. induction n as [|n IH]; intros r s Hw Hr Hs; [done|]. cbn [rounds].
  apply IH; [done|lia|]. apply state_AddRoundKey; [done|lia|byte].
Qed.

#[local] Opaque rounds inv_rounds AddRoundKey MixColumns InvMixColumns ShiftRows InvShiftRows
  SubBytes InvSubBytes.

(** Undoing [n] rounds from the state inside round [n + 1]. *)
Lemma inv_rounds_rounds w n s :
  schedule w → (n ≤ 9)%nat → state s →
  inv_rounds w n (ShiftRows (SubBytes (rounds w n 1 s))) = ShiftRows (SubBytes s).
Proof.
  intros Hw. revert s. induction n as [|n IH]; intros s Hn Hs; [done|].
  pose proof (state_rounds w n 1 s Hw ltac:(lia) Hs) as Hst.
  pose proof (state_rounds w (S n) 1 s Hw ltac:(lia) Hs) as Hst1.
  rewrite inv_rounds_S, InvShiftRows_ShiftRows, InvSubBytes_SubBytes by byte.
  rewrite rounds_snoc_1, AddRoundKey_twice by (done || lia || byte).
  rewrite InvMixColumns_MixColumns by byte.
  apply IH; [lia|done].
Qed.

Lemma InvCipher_Cipher w block :
  schedule w → state block → InvCipher w (Cipher w block) = block.
Proof.
  intros Hw Hs. unfold InvCipher, Cipher.
  pose proof (state_AddRoundKey w 0 block Hw ltac:(lia) Hs) as Hs0.
  pose proof (state_rounds w 9 1 _ Hw ltac:(lia) Hs0) as Hst.
  rewrite AddRoundKey_twice by (done || lia || byte).
  rewrite inv_rounds_rounds by (done || lia).
  rewrite InvShiftRows_ShiftRows, InvSubBytes_SubBytes by byte.
  apply AddRoundKey_twice; [done|lia|done].
Qed.

Lemma state_Cipher w block : schedule w → state block → state (Cipher w block).
Proof.
  intros Hw Hs. unfold Cipher. apply state_AddRoundKey; [done|lia|].
  apply state_ShiftRows, state_SubBytes, state_rounds; [done|lia|]. byte.
Qed.

#[local] Transparent rounds inv_rounds AddRoundKey MixColumns InvMixColumns ShiftRows InvShiftRows
  SubBytes InvSubBytes.

Lemma state_inv_rounds w n s : schedule w → (n ≤ 10)%nat → state s → state (inv_rounds w n s).
Proof.
  intros Hw. revert s. induction n as [|n IH]; intros s Hn Hs; [done|]. cbn [inv_rounds].
  apply IH; [lia|]. apply state_InvMixColumns, state_AddRoundKey; [done|lia|byte].
Qed.

Lemma state_InvCipher w block : schedule w → state block → state (InvCipher w block).
Proof.
  intros Hw Hs. unfold InvCipher. apply state_AddRoundKey; [done|lia|].
  apply state_InvSubBytes, state_InvShiftRows, state_inv_rounds; [done|lia|]. byte.
Qed.

(** * The key schedule has 44 words of four bytes *)
Lemma extend_words n w :
  (4 ≤ length w)%nat → Forall (λ k, length k = 4%nat ∧ bytes k) w →
  (∀ i, (i ≤ 10)%nat → is_byte (rcon i)) → (length w + n ≤ 44)%nat →
  length (Nat.iter n extend w) = (length w + n)%nat ∧
  Forall (λ k, length k = 4%nat ∧ bytes k) (Nat.iter n extend w).
Proof.
  intros Hl Hw Hrc. induction n as [|n IH]; intros Hn; [simpl; split; [lia|done]|].
  destruct IH as [Hln Hfn]; [lia|]. cbn [Nat.iter nat_rect]. set (w' := Nat.iter n extend w) in *.
  change (nat_rect _ _ _ n) with w'.
  unfold extend. split; [rewrite length_app; simpl; lia|]. apply Forall_app. split; [done|].
  constructor; [|done].
  assert (∀ j, (j < length w')%nat → length (nth j w' []) = 4%nat ∧ bytes (nth j w' [])) as Hnth.
  { intros j Hj. rewrite Forall_forall in Hfn. apply Hfn, list_elem_of_In, nth_In. done. }
  destruct (Hnth (length w' - 1)%nat ltac:(lia)) as [Hl1 Hb1].
  destruct (Hnth (length w' - 4)%nat ltac:(lia)) as [Hl4 Hb4].
  unfold next_word. destruct (nth (length w' - 1) w' []) as [|x0 [|x1 [|x2 [|x3 [|]]]]]; try discriminate Hl1.
  inv_bytes. case_ifs; (split; [rewrite length_xor_bytes, Hl4; done|]); apply bytes_xor_bytes; try done.
  - apply bytes_xor_bytes; [cbn; byte_list|].
    constructor; [|by apply bytes_check]. apply Hrc.
    apply Nat.lt_succ_r, Nat.Div0.div_lt_upper_bound. lia.
  - byte_list.
Qed.

Lemma KeyExpansion_schedule key : state key → schedule (KeyExpansion key).
Proof.
  intros Hk. unfold KeyExpansion.
  destruct (extend_words 40 (key_words key)) as [Hl Hf]; [simpl; lia| | |simpl; lia|].
  - open_state Hk. unfold key_words. cbn. byte_list.
  - intros i Hi. assert (bytes (rcon <$> seq 0 11)) as Hb by (apply bytes_check; reflexivity).
    rewrite Forall_forall in Hb. apply Hb, list_elem_of_fmap. exists i. split; [done|].
    apply elem_of_seq. lia.
  - split; [rewrite Hl; done|done].
Qed.

Lemma state_aes128_encrypt key block : state key → state block → state (aes128_encrypt key block).
Proof. intros. apply state_Cipher; [by apply KeyExpansion_schedule|done]. Qed.

Lemma state_aes128_decrypt key block : state key → state block → state (aes128_decrypt key block).
Proof. intros. apply state_InvCipher; [by apply KeyExpansion_schedule|done]. Qed.

Lemma aes128_decrypt_encrypt key block :
  state key → state block → aes128_decrypt key (aes128_encrypt key block) = block.
Proof. intros. apply InvCipher_Cipher; [by apply KeyExpansion_schedule|done]. Qed.

(** The FIPS-197 appendix C.1 example. *)
Example fips197_c1 :
  aes128_encrypt (Z.of_nat <$> seq 0 16) ((λ i, Z.of_nat (17 * i)) <$> seq 0 16)
  = [0x69; 0xc4; 0xe0; 0xd8; 0x6a; 0x7b; 0x04; 0x30; 0xd8; 0xcd; 0xb7; 0x80; 0x70; 0xb4; 0xc5; 0x5a].
Proof. vm_compute. reflexivity. Qed.
