(* ===== verification/AesTable.v ===== *)
(** Table-driven AES-128: [src/src/crypto/aes_table.rs].

    The definitions follow the code: tables generated from the generator 3 and its
    logarithms, the key schedule as an array of 44 words filled by index, and the
    two block functions on four 32-bit columns.  They are proved equal to the
    FIPS-197 reference of [Fips197.v] for every key and every block. *)
From S2P Require Import Prelude Fips197.

Record Tables := mkTables {
  sbox : list Z;
  inv_sbox : list Z;
  te : list (list Z);
  td : list (list Z) }.

Definition xtime (x : Z) : Z :=
  Z.lxor (wrap 8 (Z.shiftl x 1)) (if Z.land x 0x80 =? 0 then 0 else 0x1b).

(** [while b != 0]; eight iterations empty a byte ([gf_mul_fuel]). *)
Fixpoint gf_mul_loop (fuel : nat) (a b p : Z) : Z :=
  match fuel with
  | O => p
  | S fuel =>
      if b =? 0 then p
      else gf_mul_loop fuel (xtime a) (Z.shiftr b 1) (if Z.land b 1 =? 0 then p else Z.lxor p a)
  end.
Definition gf_mul (a b : Z) : Z := gf_mul_loop 8 a b 0.

Definition rotate_left8 (x n : Z) : Z := Z.lor (wrap 8 (Z.shiftl x n)) (Z.shiftr x (8 - n)).
Definition rotate_right32 (x n : Z) : Z := Z.lor (Z.shiftr x n) (wrap 32 (Z.shiftl x (32 - n))).

(** Reading an array of 256 (or 44) entries at an index the types keep in range. *)
Definition at_ (t : list Z) (i : Z) : Z := nth (Z.to_nat i) t 0.

(** [for i in 0..255]: powers of 3 and their logarithms. *)
Definition pow_log : list Z * list Z * Z :=
  foldl (λ '(pow, log, x) i,
           (<[i := x]> pow, <[Z.to_nat x := Z.of_nat i]> log, Z.lxor x (xtime x)))
    (replicate 256 0, replicate 256 0, 1) (seq 0 255).

Definition gen_sboxes : list Z * list Z :=
  let '(pow, log, _) := pow_log in
  foldl (λ '(sb, inv_sb) i,
           let inv := if (i =? 0)%nat then 0 else at_ pow ((255 - at_ log (Z.of_nat i)) mod 255) in
           let '(s, _) :=
             Nat.iter 4 (λ '(s, y), let y := rotate_left8 y 1 in (Z.lxor s y, y)) (inv, inv) in
           let s := Z.lxor s 0x63 in
           (<[i := s]> sb, <[Z.to_nat s := Z.of_nat i]> inv_sb))
    (replicate 256 0, replicate 256 0) (seq 0 256).

Definition te_entry (sb : list Z) (i : nat) : Z :=
  let s := at_ sb (Z.of_nat i) in
  let s2 := xtime s in
  let s3 := Z.lxor s2 s in
  Z.lor (Z.lor (Z.lor (Z.shiftl s2 24) (Z.shiftl s 16)) (Z.shiftl s 8)) s3.
Definition td_entry (inv_sb : list Z) (i : nat) : Z :=
  let si := at_ inv_sb (Z.of_nat i) in
  Z.lor (Z.lor (Z.lor (Z.shiftl (gf_mul si 0x0e) 24) (Z.shiftl (gf_mul si 0x09) 16))
    (Z.shiftl (gf_mul si 0x0d) 8)) (gf_mul si 0x0b).
Definition rotations (entry : nat → Z) : list (list Z) :=
  (λ r, (λ i, rotate_right32 (entry i) r) <$> seq 0 256) <$> [8; 16; 24].

Definition gen_tables : Tables :=
  let '(sb, inv_sb) := gen_sboxes in
  mkTables sb inv_sb
    ((te_entry sb <$> seq 0 256) :: rotations (te_entry sb))
    ((td_entry inv_sb <$> seq 0 256) :: rotations (td_entry inv_sb)).

(** The value behind the [OnceLock]. *)
Definition tables : Tables := gen_tables.

Definition RCON : list Z :=
  [0x01000000; 0x02000000; 0x04000000; 0x08000000; 0x10000000; 0x20000000; 0x40000000;
   0x80000000; 0x1b000000; 0x36000000].

Record AesTable := mkAesTable { ek : list Z; dk : list Z }.

(** The first four bytes of the slice, which has at least four ([key] has 16). *)
Definition get_u32 (b : list Z) : Z := from_be (take 4 b).

Definition byte3 (w : Z) : Z := Z.shiftr w 24.
Definition byte2 (w : Z) : Z := Z.land (Z.shiftr w 16) 0xff.
Definition byte1 (w : Z) : Z := Z.land (Z.shiftr w 8) 0xff.
Definition byte0 (w : Z) : Z := Z.land w 0xff.

(** The four look-ups of a column, as they occur in the rounds. *)
Definition look4 (t : list (list Z)) (a b c d : Z) : Z :=
  Z.lxor (Z.lxor (Z.lxor (at_ (nth 0 t []) a) (at_ (nth 1 t []) b)) (at_ (nth 2 t []) c))
    (at_ (nth 3 t []) d).
Definition sub4 (s : list Z) (a b c d : Z) : Z :=
  Z.lxor (Z.lxor (Z.lxor (Z.shiftl (at_ s a) 24) (Z.shiftl (at_ s b) 16)) (Z.shiftl (at_ s c) 8))
    (at_ s d).

Definition ek_round (ek : list Z) (i : nat) : list Z :=
  let s := sbox tables in
  let tmp := nth (4 * i + 3) ek 0 in
  let sub := sub4 s (byte2 tmp) (byte1 tmp) (byte0 tmp) (byte3 tmp) in
  let ek := <[(4 * i + 4)%nat := Z.lxor (Z.lxor (nth (4 * i) ek 0) sub) (nth i RCON 0)]> ek in
  let ek := <[(4 * i + 5)%nat := Z.lxor (nth (4 * i + 1) ek 0) (nth (4 * i + 4) ek 0)]> ek in
  let ek := <[(4 * i + 6)%nat := Z.lxor (nth (4 * i + 2) ek 0) (nth (4 * i + 5) ek 0)]> ek in
  <[(4 * i + 7)%nat := Z.lxor (nth (4 * i + 3) ek 0) (nth (4 * i + 6) ek 0)]> ek.

Definition expand_key (key : list Z) : list Z :=
  let ek := foldl (λ ek i, <[i := get_u32 (drop (i * 4) key)]> ek) (replicate 44 0) (seq 0 4) in
  foldl ek_round ek (seq 0 10).

Definition dk_word (v : Z) : Z :=
  let t := tables in
  let s := sbox t in
  look4 (td t) (at_ s (byte3 v)) (at_ s (byte2 v)) (at_ s (byte1 v)) (at_ s (byte0 v)).

(** Reversed round keys; then [dk.iter_mut().take(40).skip(4)]. *)
Definition invert_key (ek : list Z) : list Z :=
  let dk := flat_map (λ i, take 4 (drop (4 * (10 - i)) ek)) (seq 0 11) in
  take 4 dk ++ (dk_word <$> drop 4 (take 40 dk)) ++ drop 40 dk.

Definition AesTable_new (key : list Z) : AesTable :=
  let ek := expand_key key in mkAesTable ek (invert_key ek).

Definition columns := (Z * Z * Z * Z)%type.

Definition load (rk : list Z) (block : list Z) : columns :=
  (Z.lxor (get_u32 block) (nth 0 rk 0), Z.lxor (get_u32 (drop 4 block)) (nth 1 rk 0),
   Z.lxor (get_u32 (drop 8 block)) (nth 2 rk 0), Z.lxor (get_u32 (drop 12 block)) (nth 3 rk 0)).
Definition store (c : columns) : list Z :=
  let '(o0, o1, o2, o3) := c in to_be 4 o0 ++ to_be 4 o1 ++ to_be 4 o2 ++ to_be 4 o3.

Definition enc_round (rk : list Z) (k : nat) (c : columns) : columns :=
  let '(s0, s1, s2, s3) := c in
  let t := te tables in
  (Z.lxor (look4 t (byte3 s0) (byte2 s1) (byte1 s2) (byte0 s3)) (nth k rk 0),
   Z.lxor (look4 t (byte3 s1) (byte2 s2) (byte1 s3) (byte0 s0)) (nth (k + 1) rk 0),
   Z.lxor (look4 t (byte3 s2) (byte2 s3) (byte1 s0) (byte0 s1)) (nth (k + 2) rk 0),
   Z.lxor (look4 t (byte3 s3) (byte2 s0) (byte1 s1) (byte0 s2)) (nth (k + 3) rk 0)).
Fixpoint enc_rounds (n : nat) (rk : list Z) (k : nat) (c : columns) : columns :=
  match n with
  | O => c
  | S n => enc_rounds n rk (k + 4) (enc_round rk k c)
  end.
Definition enc_last (rk : list Z) (c : columns) : columns :=
  let '(s0, s1, s2, s3) := c in
  let s := sbox tables in
  (Z.lxor (sub4 s (byte3 s0) (byte2 s1) (byte1 s2) (byte0 s3)) (nth 40 rk 0),
   Z.lxor (sub4 s (byte3 s1) (byte2 s2) (byte1 s3) (byte0 s0)) (nth 41 rk 0),
   Z.lxor (sub4 s (byte3 s2) (byte2 s3) (byte1 s0) (byte0 s1)) (nth 42 rk 0),
   Z.lxor (sub4 s (byte3 s3) (byte2 s0) (byte1 s1) (byte0 s2)) (nth 43 rk 0)).
Definition encrypt_block (self : AesTable) (block : list Z) : list Z :=
  store (enc_last (ek self) (enc_rounds 9 (ek self) 4 (load (ek self) block))).

Definition dec_round (rk : list Z) (k : nat) (c : columns) : columns :=
  let '(s0, s1, s2, s3) := c in
  let t := td tables in
  (Z.lxor (look4 t (byte3 s0) (byte2 s3) (byte1 s2) (byte0 s1)) (nth k rk 0),
   Z.lxor (look4 t (byte3 s1) (byte2 s0) (byte1 s3) (byte0 s2)) (nth (k + 1) rk 0),
   Z.lxor (look4 t (byte3 s2) (byte2 s1) (byte1 s0) (byte0 s3)) (nth (k + 2) rk 0),
   Z.lxor (look4 t (byte3 s3) (byte2 s2) (byte1 s1) (byte0 s0)) (nth (k + 3) rk 0)).
Fixpoint dec_rounds (n : nat) (rk : list Z) (k : nat) (c : columns) : columns :=
  match n with
  | O => c
  | S n => dec_rounds n rk (k + 4) (dec_round rk k c)
  end.
Definition dec_last (rk : list Z) (c : columns) : columns :=
  let '(s0, s1, s2, s3) := c in
  let si := inv_sbox tables in
  (Z.lxor (sub4 si (byte3 s0) (byte2 s3) (byte1 s2) (byte0 s1)) (nth 40 rk 0),
   Z.lxor (sub4 si (byte3 s1) (byte2 s0) (byte1 s3) (byte0 s2)) (nth 41 rk 0),
   Z.lxor (sub4 si (byte3 s2) (byte2 s1) (byte1 s0) (byte0 s3)) (nth 42 rk 0),
   Z.lxor (sub4 si (byte3 s3) (byte2 s2) (byte1 s1) (byte0 s0)) (nth 43 rk 0)).
Definition decrypt_block (self : AesTable) (block : list Z) : list Z :=
  store (dec_last (dk self) (dec_rounds 9 (dk self) 4 (load (dk self) block))).

Example encrypt_c1 :
  encrypt_block (AesTable_new (Z.of_nat <$> seq 0 16)) ((λ i, Z.of_nat (17 * i)) <$> seq 0 16)
  = [0x69; 0xc4; 0xe0; 0xd8; 0x6a; 0x7b; 0x04; 0x30; 0xd8; 0xcd; 0xb7; 0x80; 0x70; 0xb4; 0xc5; 0x5a].
Proof. vm_compute. reflexivity. Qed.

(** * The tables are those of the standard *)
Lemma gf_mul_fuel fuel a b p :
  is_byte b → (8 ≤ fuel)%nat → gf_mul_loop fuel a b p = gf_mul_loop 8 a b p.
Proof.
  intros Hb Hf. unfold is_u in Hb. change (2 ^ 8) with 256 in Hb.
  assert (∀ n m a b p, 0 ≤ b < 2 ^ Z.of_nat n → (n ≤ m)%nat → gf_mul_loop m a b p = gf_mul_loop n a b p) as H.
  { clear. induction n as [|n IH]; intros m a b p Hb Hm.
    - change (2 ^ Z.of_nat 0) with 1 in Hb. assert (b = 0) as -> by lia. destruct m; done.
    - destruct m as [|m]; [lia|]. cbn [gf_mul_loop]. destruct (b =? 0); [done|].
      apply IH; [|lia]. rewrite Z.shiftr_div_pow2 by lia. change (2 ^ 1) with 2.
      rewrite Nat2Z.inj_succ, Z.pow_succ_r in Hb by lia. split; [apply Z.div_pos; lia|].
      apply Z.div_lt_upper_bound; lia. }
  apply (H 8%nat fuel); [simpl; lia|lia].
Qed.

(** The shift-and-add loop is multiplication in the field. *)
Lemma gf_mul_gmul a b : is_byte a → is_byte b → gf_mul a b = gmul b a.
Proof.
  intros Ha Hb. pose proof (byte_forall
    (λ a, forallb (λ b, gf_mul a b =? gmul b a) all_bytes) ltac:(vm_compute; reflexivity) a Ha) as H.
  apply Z.eqb_eq. exact (byte_forall (λ b, gf_mul a b =? gmul b a) H b Hb).
Qed.

Lemma sbox_sub x : is_byte x → at_ (sbox tables) x = sub x.
Proof. intros H. byte_check x H. Qed.
Lemma inv_sbox_inv_sub x : is_byte x → at_ (inv_sbox tables) x = inv_sub x.
Proof. intros H. byte_check x H. Qed.

Lemma te0 x : is_byte x →
  at_ (nth 0 (te tables) []) x = from_be [gmul 2 (sub x); gmul 1 (sub x); gmul 1 (sub x); gmul 3 (sub x)].
Proof. intros H. byte_check x H. Qed.
Lemma te1 x : is_byte x →
  at_ (nth 1 (te tables) []) x = from_be [gmul 3 (sub x); gmul 2 (sub x); gmul 1 (sub x); gmul 1 (sub x)].
Proof. intros H. byte_check x H. Qed.
Lemma te2 x : is_byte x →
  at_ (nth 2 (te tables) []) x = from_be [gmul 1 (sub x); gmul 3 (sub x); gmul 2 (sub x); gmul 1 (sub x)].
Proof. intros H. byte_check x H. Qed.
Lemma te3 x : is_byte x →
  at_ (nth 3 (te tables) []) x = from_be [gmul 1 (sub x); gmul 1 (sub x); gmul 3 (sub x); gmul 2 (sub x)].
Proof. intros H. byte_check x H. Qed.
Lemma td0 x : is_byte x →
  at_ (nth 0 (td tables) []) x
  = from_be [gmul 0xe (inv_sub x); gmul 0x9 (inv_sub x); gmul 0xd (inv_sub x); gmul 0xb (inv_sub x)].
Proof. intros H. byte_check x H. Qed.
Lemma td1 x : is_byte x →
  at_ (nth 1 (td tables) []) x
  = from_be [gmul 0xb (inv_sub x); gmul 0xe (inv_sub x); gmul 0x9 (inv_sub x); gmul 0xd (inv_sub x)].
Proof. intros H. byte_check x H. Qed.
Lemma td2 x : is_byte x →
  at_ (nth 2 (td tables) []) x
  = from_be [gmul 0xd (inv_sub x); gmul 0xb (inv_sub x); gmul 0xe (inv_sub x); gmul 0x9 (inv_sub x)].
Proof. intros H. byte_check x H. Qed.
Lemma td3 x : is_byte x →
  at_ (nth 3 (td tables) []) x
  = from_be [gmul 0x9 (inv_sub x); gmul 0xd (inv_sub x); gmul 0xb (inv_sub x); gmul 0xe (inv_sub x)].
Proof. intros H. byte_check x H. Qed.
#[global] Opaque tables at_.

(** * Words and their bytes *)
Lemma word_eq a b c d : from_be [a; b; c; d] = a * 2 ^ 24 + b * 2 ^ 16 + c * 2 ^ 8 + d.
Proof. unfold from_be. simpl. lia. Qed.

Ltac pow_lia :=
  unfold is_u in *; change (2 ^ 24) with 16777216 in *; change (2 ^ 16) with 65536 in *;
  change (2 ^ 8) with 256 in *; Z.to_euclidean_division_equations; lia.

Section word.
Context (a b c d : Z) (Ha : is_byte a) (Hb : is_byte b) (Hc : is_byte c) (Hd : is_byte d).

Lemma byte3_word : byte3 (from_be [a; b; c; d]) = a.
Proof using Ha Hb Hc Hd.
  unfold byte3. rewrite word_eq, shiftr_div by lia. pow_lia.
Qed.
Lemma byte2_word : byte2 (from_be [a; b; c; d]) = b.
Proof using Ha Hb Hc Hd.
  unfold byte2. rewrite word_eq, shiftr_div, land_255 by lia. pow_lia.
Qed.
Lemma byte1_word : byte1 (from_be [a; b; c; d]) = c.
Proof using Ha Hb Hc Hd.
  unfold byte1. rewrite word_eq, shiftr_div, land_255 by lia. pow_lia.
Qed.
Lemma byte0_word : byte0 (from_be [a; b; c; d]) = d.
Proof using Ha Hb Hc Hd.
  unfold byte0. rewrite word_eq, land_255 by lia. pow_lia.
Qed.
Lemma to_be_word : to_be 4 (from_be [a; b; c; d]) = [a; b; c; d].
Proof using Ha Hb Hc Hd. apply (to_from_be [a; b; c; d]). byte_list. Qed.
End word.

(** Concatenating a byte below a number, as a sum and as an exclusive or. *)
Lemma lxor_shift8 x b : is_byte b → Z.lxor (Z.shiftl x 8) b = x * 2 ^ 8 + b.
Proof.
  intros Hb. rewrite <-Z.add_nocarry_lxor; [by rewrite Z.shiftl_mul_pow2 by lia|].
  apply Z.bits_inj'. intros i Hi. rewrite Z.land_spec, Z.bits_0.
  destruct (decide (i < 8)).
  - rewrite Z.shiftl_spec_low by lia. done.
  - apply is_u_bits in Hb as [_ Hb]; [|lia]. rewrite (Hb i) by lia. apply andb_false_r.
Qed.

Lemma word_lxor_form a b c d :
  is_byte a → is_byte b → is_byte c → is_byte d →
  Z.lxor (Z.lxor (Z.lxor (Z.shiftl a 24) (Z.shiftl b 16)) (Z.shiftl c 8)) d = from_be [a; b; c; d].
Proof.
  intros Ha Hb Hc Hd. rewrite word_eq.
  replace (Z.shiftl a 24) with (Z.shiftl (Z.shiftl a 8) 16) by (rewrite Z.shiftl_shiftl by lia; done).
  rewrite <-Z.shiftl_lxor, lxor_shift8 by done.
  replace (Z.shiftl (a * 2 ^ 8 + b) 16) with (Z.shiftl (Z.shiftl (a * 2 ^ 8 + b) 8) 8)
    by (rewrite Z.shiftl_shiftl by lia; done).
  rewrite <-Z.shiftl_lxor, !lxor_shift8 by done. lia.
Qed.

Lemma word_lxor a b c d a' b' c' d' :
  is_byte a → is_byte b → is_byte c → is_byte d →
  is_byte a' → is_byte b' → is_byte c' → is_byte d' →
  Z.lxor (from_be [a; b; c; d]) (from_be [a'; b'; c'; d'])
  = from_be [Z.lxor a a'; Z.lxor b b'; Z.lxor c c'; Z.lxor d d'].
Proof.
  intros. rewrite <-!word_lxor_form by byte. rewrite !Z.shiftl_lxor. xor_ring.
Qed.

Lemma word_xor_bytes k l :
  length k = 4%nat → length l = 4%nat → bytes k → bytes l →
  Z.lxor (from_be k) (from_be l) = from_be (xor_bytes k l).
Proof.
  intros Hk Hl Bk Bl. destruct k as [|k0 [|k1 [|k2 [|k3 [|]]]]]; try discriminate Hk.
  destruct l as [|l0 [|l1 [|l2 [|l3 [|]]]]]; try discriminate Hl. inv_bytes. by apply word_lxor.
Qed.

Lemma gmul_bytes x :
  is_byte x →
  is_byte (gmul 1 x) ∧ is_byte (gmul 2 x) ∧ is_byte (gmul 3 x) ∧ is_byte (gmul 0x9 x) ∧
  is_byte (gmul 0xb x) ∧ is_byte (gmul 0xd x) ∧ is_byte (gmul 0xe x).
Proof. intros H. mul_xt. split_and!; byte. Qed.

(** A column of look-ups is a mixed column. *)
Lemma lxor4_eq a b c d a' b' c' d' :
  a = a' → b = b' → c = c' → d = d' →
  Z.lxor (Z.lxor (Z.lxor a b) c) d = Z.lxor (Z.lxor (Z.lxor a' b') c') d'.
Proof. by intros -> -> -> ->. Qed.

Lemma look4_te a b c d :
  is_byte a → is_byte b → is_byte c → is_byte d →
  look4 (te tables) a b c d = from_be (mix_column 2 3 1 1 (sub a) (sub b) (sub c) (sub d)).
Proof.
  intros Ha Hb Hc Hd. unfold look4.
  rewrite (lxor4_eq _ _ _ _ _ _ _ _ (te0 a Ha) (te1 b Hb) (te2 c Hc) (te3 d Hd)).
  destruct (gmul_bytes (sub a)) as (?&?&?&_); [byte|]. destruct (gmul_bytes (sub b)) as (?&?&?&_); [byte|].
  destruct (gmul_bytes (sub c)) as (?&?&?&_); [byte|]. destruct (gmul_bytes (sub d)) as (?&?&?&_); [byte|].
  rewrite !word_lxor by byte. unfold mix_column, xor4. rewrite <-!Z.lxor_assoc. done.
Qed.
Lemma look4_td a b c d :
  is_byte a → is_byte b → is_byte c → is_byte d →
  look4 (td tables) a b c d
  = from_be (mix_column 0xe 0xb 0xd 0x9 (inv_sub a) (inv_sub b) (inv_sub c) (inv_sub d)).
Proof.
  intros Ha Hb Hc Hd. unfold look4.
  rewrite (lxor4_eq _ _ _ _ _ _ _ _ (td0 a Ha) (td1 b Hb) (td2 c Hc) (td3 d Hd)).
  destruct (gmul_bytes (inv_sub a)) as (_&_&_&?&?&?&?); [byte|].
  destruct (gmul_bytes (inv_sub b)) as (_&_&_&?&?&?&?); [byte|].
  destruct (gmul_bytes (inv_sub c)) as (_&_&_&?&?&?&?); [byte|].
  destruct (gmul_bytes (inv_sub d)) as (_&_&_&?&?&?&?); [byte|].
  rewrite !word_lxor by byte. unfold mix_column, xor4. rewrite <-!Z.lxor_assoc. done.
Qed.
Lemma sub4_sbox a b c d :
  is_byte a → is_byte b → is_byte c → is_byte d →
  sub4 (sbox tables) a b c d = from_be [sub a; sub b; sub c; sub d].
Proof.
  intros Ha Hb Hc Hd. unfold sub4.
  rewrite (sbox_sub a Ha), (sbox_sub b Hb), (sbox_sub c Hc), (sbox_sub d Hd).
  apply word_lxor_form; byte.
Qed.
Lemma sub4_inv_sbox a b c d :
  is_byte a → is_byte b → is_byte c → is_byte d →
  sub4 (inv_sbox tables) a b c d = from_be [inv_sub a; inv_sub b; inv_sub c; inv_sub d].
Proof.
  intros Ha Hb Hc Hd. unfold sub4.
  rewrite (inv_sbox_inv_sub a Ha), (inv_sbox_inv_sub b Hb), (inv_sbox_inv_sub c Hc), (inv_sbox_inv_sub d Hd).
  apply word_lxor_form; byte.
Qed.

(** * Columns of words and states of bytes *)
Definition cols (s : list Z) : columns :=
  (from_be (take 4 s), from_be (take 4 (drop 4 s)), from_be (take 4 (drop 8 s)),
   from_be (take 4 (drop 12 s))).
Definition cxor (c k : columns) : columns :=
  let '(c0, c1, c2, c3) := c in
  let '(k0, k1, k2, k3) := k in
  (Z.lxor c0 k0, Z.lxor c1 k1, Z.lxor c2 k2, Z.lxor c3 k3).
Definition rkcols (rk : list Z) (k : nat) : columns :=
  (nth k rk 0, nth (k + 1) rk 0, nth (k + 2) rk 0, nth (k + 3) rk 0).

(** The bytes a round combines into each column, before the key is added. *)
Definition enc_pat (f : Z → Z → Z → Z → Z) (c : columns) : columns :=
  let '(s0, s1, s2, s3) := c in
  (f (byte3 s0) (byte2 s1) (byte1 s2) (byte0 s3), f (byte3 s1) (byte2 s2) (byte1 s3) (byte0 s0),
   f (byte3 s2) (byte2 s3) (byte1 s0) (byte0 s1), f (byte3 s3) (byte2 s0) (byte1 s1) (byte0 s2)).
Definition dec_pat (f : Z → Z → Z → Z → Z) (c : columns) : columns :=
  let '(s0, s1, s2, s3) := c in
  (f (byte3 s0) (byte2 s3) (byte1 s2) (byte0 s1), f (byte3 s1) (byte2 s0) (byte1 s3) (byte0 s2),
   f (byte3 s2) (byte2 s1) (byte1 s0) (byte0 s3), f (byte3 s3) (byte2 s2) (byte1 s1) (byte0 s0)).

Lemma enc_round_split rk k c :
  enc_round rk k c = cxor (enc_pat (look4 (te tables)) c) (rkcols rk k).
Proof. destruct c as [[[s0 s1] s2] s3]. reflexivity. Qed.
Lemma enc_last_split rk c : enc_last rk c = cxor (enc_pat (sub4 (sbox tables)) c) (rkcols rk 40).
Proof. destruct c as [[[s0 s1] s2] s3]. reflexivity. Qed.
Lemma dec_round_split rk k c :
  dec_round rk k c = cxor (dec_pat (look4 (td tables)) c) (rkcols rk k).
Proof. destruct c as [[[s0 s1] s2] s3]. reflexivity. Qed.
Lemma dec_last_split rk c : dec_last rk c = cxor (dec_pat (sub4 (inv_sbox tables)) c) (rkcols rk 40).
Proof. destruct c as [[[s0 s1] s2] s3]. reflexivity. Qed.

Lemma load_cols rk block : load rk block = cxor (cols block) (rkcols rk 0).
Proof. reflexivity. Qed.

Lemma store_cols s : state s → store (cols s) = s.
Proof.
  intros Hs. open_state Hs. unfold cols, store. cbn [take drop]. rewrite !to_be_word by assumption. done.
Qed.

Lemma cols_xor s k : state s → state k → cols (xor_bytes s k) = cxor (cols s) (cols k).
Proof.
  intros Hs Hk. open_state Hs. open_state Hk. unfold cols, cxor, xor_bytes. cbn [zip_with take drop].
  rewrite !word_lxor by assumption. done.
Qed.

Section patterns.
Context (f : Z → Z → Z → Z → Z) (g : Z → Z → Z → Z → list Z).
Context (Hfg : ∀ a b c d, is_byte a → is_byte b → is_byte c → is_byte d → f a b c d = from_be (g a b c d)).

Lemma enc_pat_cols s :
  state s →
  let x i := nth i s 0 in
  enc_pat f (cols s)
  = (from_be (g (x 0%nat) (x 5%nat) (x 10%nat) (x 15%nat)), from_be (g (x 4%nat) (x 9%nat) (x 14%nat) (x 3%nat)),
     from_be (g (x 8%nat) (x 13%nat) (x 2%nat) (x 7%nat)), from_be (g (x 12%nat) (x 1%nat) (x 6%nat) (x 11%nat))).
Proof using Hfg.
  intros Hs. open_state Hs. unfold enc_pat, cols. cbn [take drop nth].
  rewrite !byte3_word, !byte2_word, !byte1_word, !byte0_word, !Hfg by assumption. reflexivity.
Qed.
Lemma dec_pat_cols s :
  state s →
  let x i := nth i s 0 in
  dec_pat f (cols s)
  = (from_be (g (x 0%nat) (x 13%nat) (x 10%nat) (x 7%nat)), from_be (g (x 4%nat) (x 1%nat) (x 14%nat) (x 11%nat)),
     from_be (g (x 8%nat) (x 5%nat) (x 2%nat) (x 15%nat)), from_be (g (x 12%nat) (x 9%nat) (x 6%nat) (x 3%nat))).
Proof using Hfg.
  intros Hs. open_state Hs. unfold dec_pat, cols. cbn [take drop nth].
  rewrite !byte3_word, !byte2_word, !byte1_word, !byte0_word, !Hfg by assumption. reflexivity.
Qed.
End patterns.

Ltac show_cols H lem :=
  rewrite lem by assumption; cbv zeta; open_state H; reflexivity.

Lemma enc_mix_cols s :
  state s → enc_pat (look4 (te tables)) (cols s) = cols (MixColumns (ShiftRows (SubBytes s))).
Proof. intros Hs. show_cols Hs (enc_pat_cols _ _ look4_te). Qed.
Lemma enc_sub_cols s :
  state s → enc_pat (sub4 (sbox tables)) (cols s) = cols (ShiftRows (SubBytes s)).
Proof. intros Hs. show_cols Hs (enc_pat_cols _ _ sub4_sbox). Qed.
Lemma dec_mix_cols s :
  state s → dec_pat (look4 (td tables)) (cols s) = cols (InvMixColumns (InvSubBytes (InvShiftRows s))).
Proof. intros Hs. show_cols Hs (dec_pat_cols _ _ look4_td). Qed.
Lemma dec_sub_cols s :
  state s → dec_pat (sub4 (inv_sbox tables)) (cols s) = cols (InvSubBytes (InvShiftRows s)).
Proof. intros Hs. show_cols Hs (dec_pat_cols _ _ sub4_inv_sbox). Qed.
#[local] Opaque enc_pat dec_pat cols cxor rkcols.

(** * Encryption with the words of a key schedule *)
(** [rk] holds, from index [4 r], the round keys [K r]. *)
Definition holds_keys (rk : list Z) (K : nat → list Z) : Prop :=
  ∀ r, (r ≤ 10)%nat → state (K r) ∧ rkcols rk (4 * r) = cols (K r).

Lemma enc_rounds_S n rk k c : enc_rounds (S n) rk k c = enc_rounds n rk (k + 4) (enc_round rk k c).
Proof. reflexivity. Qed.
Lemma dec_rounds_S n rk k c : dec_rounds (S n) rk k c = dec_rounds n rk (k + 4) (dec_round rk k c).
Proof. reflexivity. Qed.
Lemma rounds_S w n r s :
  rounds w (S n) r s = rounds w n (S r) (AddRoundKey w r (MixColumns (ShiftRows (SubBytes s)))).
Proof. reflexivity. Qed.

Lemma enc_round_add w r rk k s :
  state s → state (round_key w r) → rkcols rk k = cols (round_key w r) →
  enc_round rk k (cols s) = cols (AddRoundKey w r (MixColumns (ShiftRows (SubBytes s)))).
Proof.
  intros Hs Hk E. unfold AddRoundKey.
  rewrite enc_round_split, enc_mix_cols, E, cols_xor by byte. reflexivity.
Qed.
#[local] Opaque enc_rounds dec_rounds enc_round dec_round rounds inv_rounds AddRoundKey.

Lemma enc_rounds_spec w rk n r s :
  schedule w → holds_keys rk (round_key w) → (r + n ≤ 10)%nat → state s →
  enc_rounds n rk (4 * r) (cols s) = cols (rounds w n r s).
Proof.
  intros Hw Hk. revert r s. induction n as [|n IH]; intros r s Hr Hs; [done|].
  destruct (Hk r ltac:(lia)) as [Hkr Er].
  rewrite enc_rounds_S, rounds_S, (enc_round_add w r) by done.
  replace (4 * r + 4)%nat with (4 * S r)%nat by lia. apply IH; [lia|].
  apply state_AddRoundKey; [done|lia|byte].
Qed.

Lemma encrypt_cipher w t block :
  schedule w → holds_keys (ek t) (round_key w) → state block →
  encrypt_block t block = Cipher w block.
Proof.
  intros Hw Hk Hs. unfold encrypt_block, Cipher.
  destruct (Hk 0%nat ltac:(lia)) as [Hk0 E0]. destruct (Hk 10%nat ltac:(lia)) as [Hk10 E10].
  change (4 * 0)%nat with 0%nat in E0. change (4 * 10)%nat with 40%nat in E10.
  rewrite load_cols, E0, <-cols_xor by done.
  pose proof (enc_rounds_spec w (ek t) 9 1 (AddRoundKey w 0 block) Hw Hk ltac:(lia) ltac:(byte)) as E.
  change (4 * 1)%nat with 4%nat in E. change (xor_bytes block (round_key w 0)) with (AddRoundKey w 0 block).
  rewrite E.
  assert (state (rounds w 9 1 (AddRoundKey w 0 block))) as Hr by (apply state_rounds; [done|lia|byte]).
  rewrite enc_last_split, enc_sub_cols, E10, <-cols_xor by byte.
  apply store_cols. byte.
Qed.

(** Decryption uses the round keys backwards, mixed. *)
Definition dec_key (w : list (list Z)) (i : nat) : list Z :=
  if (i =? 0)%nat || (i =? 10)%nat then round_key w (10 - i) else InvMixColumns (round_key w (10 - i)).

Lemma dec_round_add w r rk k s :
  state s → state (round_key w r) → rkcols rk k = cols (InvMixColumns (round_key w r)) →
  dec_round rk k (cols s) = cols (InvMixColumns (AddRoundKey w r (InvSubBytes (InvShiftRows s)))).
Proof.
  intros Hs Hk E. rewrite dec_round_split, dec_mix_cols, E, <-cols_xor, <-InvMixColumns_xor by byte.
  reflexivity.
Qed.

Lemma dec_rounds_spec w rk n s :
  schedule w → holds_keys rk (dec_key w) → (n ≤ 9)%nat → state s →
  dec_rounds n rk (4 * (10 - n)) (cols s) = cols (inv_rounds w n s) ∧ state (inv_rounds w n s).
Proof.
  intros Hw Hk. revert s. induction n as [|n IH]; intros s Hn Hs; [done|].
  destruct (Hk (10 - S n)%nat ltac:(lia)) as [Hkr Er].
  assert (dec_key w (10 - S n) = InvMixColumns (round_key w (S n))) as Ek.
  { unfold dec_key. replace ((10 - S n =? 0)%nat) with false by (symmetry; apply Nat.eqb_neq; lia).
    replace ((10 - S n =? 10)%nat) with false by (symmetry; apply Nat.eqb_neq; lia).
    cbn [orb]. do 2 f_equal. lia. }
  pose proof (state_round_key w (S n) Hw ltac:(lia)) as Hrk.
  rewrite dec_rounds_S, inv_rounds_S, (dec_round_add w (S n)) by (congruence || done).
  replace (4 * (10 - S n) + 4)%nat with (4 * (10 - n))%nat by lia. apply IH; [lia|].
  apply state_InvMixColumns, state_AddRoundKey; [done|lia|byte].
Qed.

Lemma decrypt_inv_cipher w t block :
  schedule w → holds_keys (dk t) (dec_key w) → state block →
  decrypt_block t block = InvCipher w block.
Proof.
  intros Hw Hk Hs. unfold decrypt_block, InvCipher.
  destruct (Hk 0%nat ltac:(lia)) as [Hk0 E0]. destruct (Hk 10%nat ltac:(lia)) as [Hk10 E10].
  change (4 * 0)%nat with 0%nat in E0. change (4 * 10)%nat with 40%nat in E10.
  change (dec_key w 0) with (round_key w 10) in *. change (dec_key w 10) with (round_key w 0) in *.
  rewrite load_cols, E0, <-cols_xor by done.
  destruct (dec_rounds_spec w (dk t) 9 (AddRoundKey w 10 block) Hw Hk ltac:(lia) ltac:(byte)) as [E Hr].
  change (4 * (10 - 9))%nat with 4%nat in E.
  change (xor_bytes block (round_key w 10)) with (AddRoundKey w 10 block). rewrite E.
  rewrite dec_last_split, dec_sub_cols, E10, <-cols_xor by byte.
  apply store_cols. byte.
Qed.

(** * The key schedule *)
Definition word (k : list Z) : Prop := length k = 4%nat ∧ bytes k.

Lemma word_xor k l : word k → word l → word (xor_bytes k l).
Proof. intros [Hk Bk] [Hl Bl]. split; [rewrite length_xor_bytes; lia|by apply bytes_xor_bytes]. Qed.

Lemma from_be_xor k l : word k → word l → from_be (xor_bytes k l) = Z.lxor (from_be k) (from_be l).
Proof. intros [Hk Bk] [Hl Bl]. symmetry. by apply word_xor_bytes. Qed.

Lemma RCON_rcon i : (i < 10)%nat → nth i RCON 0 = from_be [rcon (S i); 0; 0; 0] ∧ is_byte (rcon (S i)).
Proof. intros Hi. do 10 (destruct i as [|i]; [split; [|unfold is_u]; vm_compute; done|]). lia. Qed.

(** The word [sub ^ RCON[i]] computed from the last word of the previous group. *)
Definition g_word (k : list Z) (i : nat) : list Z :=
  xor_bytes (SubBytes (rot_word k)) [rcon (S i); 0; 0; 0].

Lemma g_word_spec k i :
  word k → (i < 10)%nat →
  word (g_word k i) ∧
  Z.lxor (let tmp := from_be k in sub4 (sbox tables) (byte2 tmp) (byte1 tmp) (byte0 tmp) (byte3 tmp))
    (nth i RCON 0) = from_be (g_word k i).
Proof.
  intros [Hl Hb] Hi. destruct (RCON_rcon i Hi) as [-> Hrc].
  destruct k as [|a [|b [|c [|d [|]]]]]; try discriminate Hl. inv_bytes.
  assert (word (SubBytes (rot_word [a; b; c; d]))) as Hs by (split; [done|cbn; byte_list]).
  assert (word [rcon (S i); 0; 0; 0]) as Hr
    by (split; [done|]; constructor; [done|by apply bytes_check]).
  unfold g_word. split; [by apply word_xor|]. rewrite from_be_xor by done. f_equal. cbv zeta.
  rewrite byte3_word, byte2_word, byte1_word, byte0_word by assumption.
  by rewrite sub4_sbox by assumption.
Qed.

Lemma next_word_app pre k0 k1 k2 k3 :
  next_word (pre ++ [k0; k1; k2; k3])
  = if (length pre `mod` 4 =? 0)%nat
    then xor_bytes k0 (xor_bytes (SubBytes (rot_word k3)) [rcon (S (length pre / 4)); 0; 0; 0])
    else xor_bytes k0 k3.
Proof.
  unfold next_word. cbv zeta. rewrite length_app. cbn [length].
  replace (length pre + 4 - 1)%nat with (length pre + 3)%nat by lia.
  replace (length pre + 4 - 4)%nat with (length pre + 0)%nat by lia. rewrite !app_nth2_plus. cbn [nth].
  replace (length pre + 4)%nat with (length pre + 1 * 4)%nat by lia.
  rewrite Nat.Div0.mod_add, Nat.div_add by lia. rewrite Nat.add_1_r. case_ifs; done.
Qed.

(** Four steps of the standard's expansion. *)
Lemma extend4 pre k0 k1 k2 k3 i :
  length pre = (4 * i)%nat →
  let k4 := xor_bytes k0 (g_word k3 i) in
  let k5 := xor_bytes k1 k4 in
  let k6 := xor_bytes k2 k5 in
  let k7 := xor_bytes k3 k6 in
  Nat.iter 4 extend (pre ++ [k0; k1; k2; k3]) = pre ++ [k0; k1; k2; k3] ++ [k4; k5; k6; k7].
Proof.
  intros Hp. cbv zeta. cbn [Nat.iter nat_rect].
  assert (extend (pre ++ [k0; k1; k2; k3])
          = (pre ++ [k0]) ++ [k1; k2; k3; xor_bytes k0 (g_word k3 i)]) as ->.
  { unfold extend. rewrite next_word_app, Hp, Nat.mul_comm, Nat.Div0.mod_mul, Nat.div_mul by lia.
    cbn [Nat.eqb]. by rewrite <-!app_assoc. }
  assert (∀ p a b c d j, length p = (4 * i + j)%nat → (j = 1 ∨ j = 2 ∨ j = 3)%nat →
            extend (p ++ [a; b; c; d]) = (p ++ [a]) ++ [b; c; d; xor_bytes a d]) as Hx.
  { intros p a b c d j Hl Hj. unfold extend. rewrite next_word_app, Hl.
    replace (4 * i + j)%nat with (j + i * 4)%nat by lia. rewrite Nat.Div0.mod_add.
    destruct Hj as [-> | [-> | ->]]; cbn; by rewrite <-!app_assoc. }
  rewrite (Hx _ _ _ _ _ 1%nat) by (rewrite ?length_app; simpl; lia).
  rewrite (Hx _ _ _ _ _ 2%nat) by (rewrite ?length_app; simpl; lia).
  rewrite (Hx _ _ _ _ _ 3%nat) by (rewrite ?length_app; simpl; lia).
  by rewrite <-!app_assoc.
Qed.

(** One iteration of the code's loop. *)
Lemma ek_round_spec pre k0 k1 k2 k3 i rest :
  length pre = (4 * i)%nat → (i < 10)%nat → Forall word [k0; k1; k2; k3] →
  let k4 := xor_bytes k0 (g_word k3 i) in
  let k5 := xor_bytes k1 k4 in
  let k6 := xor_bytes k2 k5 in
  let k7 := xor_bytes k3 k6 in
  ek_round ((from_be <$> pre ++ [k0; k1; k2; k3]) ++ [0; 0; 0; 0] ++ rest) i
  = (from_be <$> pre ++ [k0; k1; k2; k3] ++ [k4; k5; k6; k7]) ++ rest
  ∧ Forall word [k4; k5; k6; k7].
Proof.
  intros Hp Hi Hw. cbv zeta.
  apply Forall_cons in Hw as [H0 Hw]. apply Forall_cons in Hw as [H1 Hw].
  apply Forall_cons in Hw as [H2 Hw]. apply Forall_cons in Hw as [H3 _].
  destruct (g_word_spec k3 i H3 Hi) as [Hg Eg]. cbv zeta in Eg.
  assert (word (xor_bytes k0 (g_word k3 i))) as H4 by (by apply word_xor).
  assert (word (xor_bytes k1 (xor_bytes k0 (g_word k3 i)))) as H5 by (by apply word_xor).
  assert (word (xor_bytes k2 (xor_bytes k1 (xor_bytes k0 (g_word k3 i))))) as H6 by (by apply word_xor).
  assert (word (xor_bytes k3 (xor_bytes k2 (xor_bytes k1 (xor_bytes k0 (g_word k3 i)))))) as H7
    by (by apply word_xor).
  split; [|repeat (apply Forall_cons_2; [assumption|]); apply Forall_nil_2].
  rewrite !fmap_app, <-!app_assoc. set (P := from_be <$> pre).
  assert ((4 * i)%nat = length P) as El by (unfold P; rewrite length_fmap; lia).
  unfold ek_round. cbv zeta. rewrite El.
  replace (nth (length P)) with (nth (length P + 0)%nat : list Z → Z → Z) by (rewrite Nat.add_0_r; done).
  rewrite !(app_nth2_plus P). cbn [fmap list_fmap app nth].
  rewrite insert_app_r. cbn [insert list_insert]. rewrite !(app_nth2_plus P). cbn [nth].
  rewrite insert_app_r. cbn [insert list_insert]. rewrite !(app_nth2_plus P). cbn [nth].
  rewrite insert_app_r. cbn [insert list_insert]. rewrite !(app_nth2_plus P). cbn [nth].
  rewrite insert_app_r. cbn [insert list_insert].
  rewrite (from_be_xor k3), (from_be_xor k2), (from_be_xor k1), (from_be_xor k0) by done.
  rewrite Z.lxor_assoc, Eg. done.
Qed.

Lemma last4 (w : list (list Z)) n :
  length w = (n + 4)%nat → ∃ pre k0 k1 k2 k3, w = pre ++ [k0; k1; k2; k3] ∧ length pre = n.
Proof.
  intros Hl. exists (take n w).
  assert (length (drop n w) = 4%nat) as Hd by (rewrite length_drop; lia).
  destruct (drop n w) as [|k0 [|k1 [|k2 [|k3 [|]]]]] eqn:E; try discriminate Hd.
  exists k0, k1, k2, k3. rewrite <-E, take_drop. split; [done|]. rewrite length_take. lia.
Qed.

Lemma ek_loop n w i rest :
  length w = (4 * i + 4)%nat → (i + n ≤ 10)%nat → Forall word w →
  foldl ek_round ((from_be <$> w) ++ replicate (4 * n) 0 ++ rest) (seq i n)
  = (from_be <$> Nat.iter (4 * n) extend w) ++ rest.
Proof.
  revert w i. induction n as [|n IH]; intros w i Hl Hi Hw; [done|].
  destruct (last4 w (4 * i) Hl) as (pre & k0 & k1 & k2 & k3 & -> & Hp).
  apply Forall_app in Hw as [Hpre Hk].
  replace (4 * S n)%nat with (4 * n + 4)%nat by lia.
  rewrite Nat.iter_add, (extend4 _ _ _ _ _ i Hp). rewrite Nat.add_comm, replicate_add, <-app_assoc.
  cbn [seq foldl].
  destruct (ek_round_spec pre k0 k1 k2 k3 i (replicate (4 * n) 0 ++ rest) Hp ltac:(lia) Hk) as [E Hk'].
  change (replicate 4 0) with [0; 0; 0; 0]. rewrite E. apply IH; [|lia|].
  - rewrite !length_app. simpl. lia.
  - rewrite !Forall_app. done.
Qed.

Lemma key_words_word key : state key → Forall word (key_words key).
Proof.
  intros Hk. open_state Hk. unfold key_words. cbn.
  repeat (apply Forall_cons_2; [split; [reflexivity|byte_list]|]). apply Forall_nil_2.
Qed.

Lemma expand_key_spec key : state key → expand_key key = from_be <$> KeyExpansion key.
Proof.
  intros Hk. unfold expand_key, KeyExpansion.
  assert (foldl (λ ek i, <[i := get_u32 (drop (i * 4) key)]> ek) (replicate 44 0) (seq 0 4)
          = (from_be <$> key_words key) ++ replicate (4 * 10) 0 ++ []) as ->.
  { unfold key_words, get_u32. reflexivity. }
  cbv zeta. rewrite ek_loop; [|done|lia|by apply key_words_word]. apply app_nil_r.
Qed.

(** Reading four words of the schedule. *)
Lemma words_cols (k0 k1 k2 k3 : list Z) :
  word k0 → word k1 → word k2 → word k3 →
  (from_be k0, from_be k1, from_be k2, from_be k3) = cols (k0 ++ k1 ++ k2 ++ k3).
Proof.
  intros [H0 _] [H1 _] [H2 _] [H3 _].
  destruct k0 as [|? [|? [|? [|? [|]]]]]; try discriminate H0.
  destruct k1 as [|? [|? [|? [|? [|]]]]]; try discriminate H1.
  destruct k2 as [|? [|? [|? [|? [|]]]]]; try discriminate H2.
  destruct k3 as [|? [|? [|? [|? [|]]]]]; try discriminate H3. reflexivity.
Qed.

Lemma schedule_at w r :
  schedule w → (r ≤ 10)%nat →
  ∃ k0 k1 k2 k3, take 4 (drop (4 * r) w) = [k0; k1; k2; k3] ∧ word k0 ∧ word k1 ∧ word k2 ∧ word k3.
Proof.
  intros [Hl Hw] Hr.
  assert (Forall word (take 4 (drop (4 * r) w))) as Hf by (by apply Forall_take, Forall_drop).
  assert (length (take 4 (drop (4 * r) w)) = 4%nat) as Hl4 by (rewrite length_take, length_drop; lia).
  destruct (take 4 (drop (4 * r) w)) as [|k0 [|k1 [|k2 [|k3 [|]]]]]; try discriminate Hl4.
  repeat match goal with H : Forall _ (_ :: _) |- _ => apply Forall_cons in H as [? H] end.
  exists k0, k1, k2, k3. split_and!; [reflexivity|assumption..].
Qed.

Lemma nth_take_drop (l : list Z) k j : (j < 4)%nat → nth j (take 4 (drop k l)) 0 = nth (k + j) l 0.
Proof.
  intros Hj. rewrite nth_firstn. replace (j <? 4)%nat with true by (symmetry; by apply Nat.ltb_lt).
  by rewrite nth_skipn.
Qed.

#[local] Transparent rkcols.
Lemma rkcols_take rk k a b c d : take 4 (drop k rk) = [a; b; c; d] → rkcols rk k = (a, b, c, d).
Proof.
  intros E. unfold rkcols. rewrite <-(Nat.add_0_r k) at 1.
  rewrite <-!nth_take_drop, E by lia. reflexivity.
Qed.

Lemma ek_holds w : schedule w → holds_keys (from_be <$> w) (round_key w).
Proof.
  intros Hw r Hr. split; [by apply state_round_key|].
  destruct (schedule_at w r Hw Hr) as (k0 & k1 & k2 & k3 & E & H0 & H1 & H2 & H3).
  rewrite (rkcols_take _ _ (from_be k0) (from_be k1) (from_be k2) (from_be k3)).
  - rewrite words_cols by assumption. unfold round_key. rewrite E. cbn [mjoin list_join].
    by rewrite app_nil_r.
  - by rewrite <-fmap_drop, <-fmap_take, E.
Qed.

(** [InvMixColumns] of one round-key word, through the S-box and [td]. *)
Lemma dk_word_mix a b c d :
  is_byte a → is_byte b → is_byte c → is_byte d →
  dk_word (from_be [a; b; c; d]) = from_be (mix_column 0xe 0xb 0xd 0x9 a b c d).
Proof.
  intros Ha Hb Hc Hd. unfold dk_word. cbv zeta.
  rewrite byte3_word, byte2_word, byte1_word, byte0_word by assumption.
  rewrite (sbox_sub a Ha), (sbox_sub b Hb), (sbox_sub c Hc), (sbox_sub d Hd).
  rewrite look4_td by byte.
  rewrite (inv_sub_sub a Ha), (inv_sub_sub b Hb), (inv_sub_sub c Hc), (inv_sub_sub d Hd). reflexivity.
Qed.

#[local] Opaque dk_word.
Lemma invert_key_at (l : list Z) i :
  length l = 44%nat → (i ≤ 10)%nat →
  take 4 (drop (4 * i) (invert_key l))
  = (if (i =? 0)%nat || (i =? 10)%nat then id else fmap dk_word) (take 4 (drop (4 * (10 - i)) l)).
Proof.
  intros Hl Hi. do 44 (destruct l as [|? l]; [discriminate Hl|]). destruct l; [|discriminate Hl].
  do 11 (destruct i as [|i]; [reflexivity|]). lia.
Qed.

#[local] Transparent cols.
Lemma mixed_words_cols k0 k1 k2 k3 :
  word k0 → word k1 → word k2 → word k3 →
  (dk_word (from_be k0), dk_word (from_be k1), dk_word (from_be k2), dk_word (from_be k3))
  = cols (InvMixColumns (k0 ++ k1 ++ k2 ++ k3)).
Proof.
  intros [H0 B0] [H1 B1] [H2 B2] [H3 B3].
  destruct k0 as [|? [|? [|? [|? [|]]]]]; try discriminate H0.
  destruct k1 as [|? [|? [|? [|? [|]]]]]; try discriminate H1.
  destruct k2 as [|? [|? [|? [|? [|]]]]]; try discriminate H2.
  destruct k3 as [|? [|? [|? [|? [|]]]]]; try discriminate H3. inv_bytes.
  rewrite !dk_word_mix by assumption. reflexivity.
Qed.

Lemma dk_holds w : schedule w → holds_keys (invert_key (from_be <$> w)) (dec_key w).
Proof.
  intros Hw i Hi.
  pose proof (state_round_key w (10 - i) Hw ltac:(lia)) as Hs.
  split; [unfold dec_key; case_ifs; byte|].
  destruct (schedule_at w (10 - i) Hw ltac:(lia)) as (k0 & k1 & k2 & k3 & E & H0 & H1 & H2 & H3).
  assert (round_key w (10 - i) = k0 ++ k1 ++ k2 ++ k3) as Ek
    by (unfold round_key; rewrite E; cbn [mjoin list_join]; by rewrite app_nil_r).
  pose proof (invert_key_at (from_be <$> w) i) as Ei.
  rewrite length_fmap, <-fmap_drop, <-fmap_take, E in Ei.
  specialize (Ei (proj1 Hw) Hi). unfold dec_key.
  destruct ((i =? 0)%nat || (i =? 10)%nat);
    rewrite (rkcols_take _ _ _ _ _ _ Ei), Ek; [by apply words_cols|by apply mixed_words_cols].
Qed.

Lemma encrypt_block_aes key block :
  state key → state block → encrypt_block (AesTable_new key) block = aes128_encrypt key block.
Proof.
  intros Hk Hb. pose proof (KeyExpansion_schedule key Hk) as Hw.
  apply encrypt_cipher; [done| |done].
  unfold AesTable_new. cbn [ek]. rewrite expand_key_spec by done. by apply ek_holds.
Qed.

Lemma decrypt_block_aes key block :
  state key → state block → decrypt_block (AesTable_new key) block = aes128_decrypt key block.
Proof.
  intros Hk Hb. pose proof (KeyExpansion_schedule key Hk) as Hw.
  apply decrypt_inv_cipher; [done| |done].
  unfold AesTable_new. cbn [dk]. rewrite expand_key_spec by done. by apply dk_holds.
Qed.

(** * Claims *)

(** C20. The table-driven AES-128 is the AES-128 of FIPS-197: for every 16-byte key
    and block both directions return the standard's result, and decryption
    inverts encryption. *)
Theorem aes_table_is_aes128 (key block : list Z) :
  state key → state block →
  encrypt_block (AesTable_new key) block = aes128_encrypt key block ∧
  decrypt_block (AesTable_new key) block = aes128_decrypt key block ∧
  decrypt_block (AesTable_new key) (encrypt_block (AesTable_new key) block) = block.
Proof.
  intros Hk Hb. split_and!; [by apply encrypt_block_aes|by apply decrypt_block_aes|].
  rewrite encrypt_block_aes by done.
  rewrite decrypt_block_aes by (try apply state_aes128_encrypt; done). by apply aes128_decrypt_encrypt.
Qed.

Definition demo_key : list Z :=
  [0x2b; 0x7e; 0x15; 0x16; 0x28; 0xae; 0xd2; 0xa6; 0xab; 0xf7; 0x15; 0x88; 0x09; 0xcf; 0x4f; 0x3c].
Definition demo_block : list Z :=
  [0x6b; 0xc1; 0xbe; 0xe2; 0x2e; 0x40; 0x9f; 0x96; 0xe9; 0x3d; 0x7e; 0x11; 0x73; 0x93; 0x17; 0x2a].

Lemma aes_table_is_aes128_witness :
  encrypt_block (AesTable_new demo_key) demo_block
    = [0x3a; 0xd7; 0x7b; 0xb4; 0x0d; 0x7a; 0x36; 0x60; 0xa8; 0x9e; 0xca; 0xf3; 0x24; 0x66; 0xef; 0x97] ∧
  decrypt_block (AesTable_new demo_key) (encrypt_block (AesTable_new demo_key) demo_block) = demo_block.
Proof.
  split; [vm_compute; reflexivity|].
  apply (aes_table_is_aes128 demo_key demo_block); (split; [reflexivity|apply bytes_check; reflexivity]).
Defined.

#[global] Opaque encrypt_block decrypt_block AesTable_new aes128_encrypt aes128_decrypt.
