(* ===== verification/Prims.v ===== *)
(** Cryptographic primitives the program takes from external crates, as an
    interface: [md5], [sha1], [sha2], [crc32fast], [aes] and [chacha20poly1305].

    [Prims] holds the functions, [PrimsOk] the documented facts the program relies
    on: output widths, that the [aes] crate implements FIPS-197, and that the AEAD
    opens what it sealed under the same key and nonce.  [demo_prims] is a concrete
    instance that satisfies the laws. *)
From stdpp Require Import strings.
From S2P Require Import Prelude Fips197.

(** The bytes of a literal. *)
Definition str (s : string) : list Z :=
  (λ c, Z.of_nat (Ascii.nat_of_ascii c)) <$> String.list_ascii_of_string s.

Class Prims := {
  md5_digest : list Z → list Z;
  sha1_digest : list Z → list Z;
  sha256_digest : list Z → list Z;
  crc32fast_hash : list Z → Z;
  (** [Aes128::new_from_slice(key)] with [encrypt_block] / [decrypt_block] *)
  aes128_crate_encrypt : list Z → list Z → list Z;
  aes128_crate_decrypt : list Z → list Z → list Z;
  (** XChaCha20-Poly1305 with empty associated data: key, nonce, message. *)
  xchacha_seal : list Z → list Z → list Z → option (list Z);
  xchacha_open : list Z → list Z → list Z → option (list Z) }.

Definition hash_ok (n : nat) (h : list Z → list Z) : Prop := ∀ m, length (h m) = n ∧ bytes (h m).

Class PrimsOk (P : Prims) : Prop := {
  md5_ok : hash_ok 16 md5_digest;
  sha1_ok : hash_ok 20 sha1_digest;
  sha256_ok : hash_ok 32 sha256_digest;
  crc32_ok m : is_u 32 (crc32fast_hash m);
  aes_crate_enc_ok key b : state key → state b → aes128_crate_encrypt key b = aes128_encrypt key b;
  aes_crate_dec_ok key b : state key → state b → aes128_crate_decrypt key b = aes128_decrypt key b;
  (** Sealing adds a 16-byte tag and succeeds on every message a packet can hold. *)
  seal_ok key nonce m : length key = 32%nat → length nonce = 24%nat → bytes m → zlen m ≤ 65535 →
    ∃ c, xchacha_seal key nonce m = Some c ∧ length c = (length m + 16)%nat ∧ bytes c ∧
         xchacha_open key nonce c = Some m }.

(** * A concrete instance *)
Definition demo_hash (n : nat) (m : list Z) : list Z :=
  (λ i, foldl (λ acc b, acc * 31 + b + Z.of_nat i) (Z.of_nat i) m mod 256) <$> seq 1 n.

Lemma demo_hash_ok n : hash_ok n (demo_hash n).
Proof.
  intros m. unfold demo_hash. split; [by rewrite length_fmap, length_seq|].
  apply Forall_fmap, Forall_true. intros i. unfold compose. apply (wrap_range 8). lia.
Qed.

Definition demo_prims : Prims := {|
  md5_digest := demo_hash 16;
  sha1_digest := demo_hash 20;
  sha256_digest := demo_hash 32;
  crc32fast_hash m := from_be (demo_hash 4 m);
  aes128_crate_encrypt := aes128_encrypt;
  aes128_crate_decrypt := aes128_decrypt;
  xchacha_seal key nonce m := Some (m ++ demo_hash 16 (key ++ nonce ++ m));
  xchacha_open key nonce c :=
    let m := take (length c - 16) c in
    if decide (c = m ++ demo_hash 16 (key ++ nonce ++ m)) then Some m else None |}.

#[export] Instance demo_prims_ok : PrimsOk demo_prims.
Proof.
  constructor; try apply demo_hash_ok; try done.
  - intros m. destruct (demo_hash_ok 4 m) as [Hl Hb]. simpl crc32fast_hash.
    pose proof (from_be_range (demo_hash 4 m) Hb) as H. by rewrite Hl in H.
  - intros key nonce m _ _ Hm _. destruct (demo_hash_ok 16 (key ++ nonce ++ m)) as [Hl Hb].
    exists (m ++ demo_hash 16 (key ++ nonce ++ m)). simpl xchacha_seal. simpl xchacha_open.
    split_and!; [done| | |].
    + by rewrite length_app, Hl.
    + by apply Forall_app.
    + rewrite length_app, Hl, Nat.add_sub, take_app_length. by rewrite decide_True.
Qed.
