(* ===== verification/Kdf.v ===== *)
(** Key derivation: [src/src/crypto/kdf.rs] and [Keys::derive] of
    [src/src/crypto/mod.rs].

    HMAC, PBKDF2 and HKDF-Expand are written out in the source over the hash
    crates; they are modelled over [Prims] and proved equal to RFC 2104, RFC 8018
    and RFC 5869.  A streaming hash state ([Sha1], [Sha256]) is the message
    absorbed so far. *)
From stdpp Require Import strings.
From S2P Require Import Prelude Fips197 Prims.

Section kdf.
Context `{P : Prims}.

Definition md5 (data : list Z) : list Z := md5_digest data.
Definition sha1 (data : list Z) : list Z := sha1_digest data.
Definition sha256 (data : list Z) : list Z := sha256_digest data.

(** [k[..v.len()].copy_from_slice(v)] on an array of 64 zeros. *)
Definition key_array (v : list Z) : list Z := v ++ replicate (64 - length v) 0.

Definition pad (b : Z) (k : list Z) : list Z := xor_bytes (replicate 64 b) k.

Record HmacSha1 := mkHmacSha1 { h1_inner : list Z; h1_outer : list Z }.
Definition HmacSha1_new (key : list Z) : HmacSha1 :=
  let k := if 64 <? zlen key then key_array (sha1 key) else key_array key in
  mkHmacSha1 (pad 0x36 k) (pad 0x5c k).
Definition HmacSha1_mac (self : HmacSha1) (data : list Z) : list Z :=
  let ih := sha1_digest (h1_inner self ++ data) in
  sha1_digest (h1_outer self ++ ih).
Definition hmac_sha1 (key data : list Z) : list Z := HmacSha1_mac (HmacSha1_new key) data.

Record HmacSha256 := mkHmacSha256 { h2_inner : list Z; h2_outer : list Z }.
Definition HmacSha256_new (key : list Z) : HmacSha256 :=
  let k := if 64 <? zlen key then key_array (sha256 key) else key_array key in
  mkHmacSha256 (pad 0x36 k) (pad 0x5c k).
Definition mac_parts (self : HmacSha256) (parts : list (list Z)) : list Z :=
  let inner := foldl (λ m p, m ++ p) (h2_inner self) parts in
  let ih := sha256_digest inner in
  sha256_digest (h2_outer self ++ ih).
Definition HmacSha256_mac (self : HmacSha256) (data : list Z) : list Z := mac_parts self [data].
Definition hmac_sha256 (key data : list Z) : list Z := HmacSha256_mac (HmacSha256_new key) data.

(** [for _ in 1..iterations { u = prf.mac(&u); t ^= u }] *)
Fixpoint pbkdf2_iterate (prf : HmacSha256) (n : nat) (u t : list Z) : list Z :=
  match n with
  | O => t
  | S n => let u := HmacSha256_mac prf u in pbkdf2_iterate prf n u (xor_bytes t u)
  end.

(** [out[written..written + n].copy_from_slice(&t[..n])] with [n = min(len - written, 32)] *)
Definition put_block (out : list Z) (written : nat) (t : list Z) : list Z :=
  let n := ((length out - written) `min` 32)%nat in
  take written out ++ take n t ++ drop (written + n) out.

(** [while written < out.len()]; every pass writes at least one byte, so
    [out.len()] passes are enough. *)
Fixpoint pbkdf2_loop (fuel : nat) (prf : HmacSha256) (salt : list Z) (iterations : Z)
    (block_index : Z) (written : nat) (out : list Z) : list Z :=
  match fuel with
  | O => out
  | S fuel =>
      if (written <? length out)%nat then
        let u := mac_parts prf [salt; to_be 4 block_index] in
        let t := pbkdf2_iterate prf (Z.to_nat (iterations - 1)) u u in
        pbkdf2_loop fuel prf salt iterations (block_index + 1)
          (written + ((length out - written) `min` 32))%nat (put_block out written t)
      else out
  end.
Definition pbkdf2_hmac_sha256 (password salt : list Z) (iterations : Z) (out : list Z) : list Z :=
  pbkdf2_loop (length out) (HmacSha256_new password) salt iterations 1 0 out.

Fixpoint hkdf_loop (fuel : nat) (prf : HmacSha256) (info prev : list Z) (written : nat)
    (counter : Z) (out : list Z) : list Z :=
  match fuel with
  | O => out
  | S fuel =>
      if (written <? length out)%nat then
        let t := mac_parts prf [prev; info; [counter]] in
        hkdf_loop fuel prf info t (written + ((length out - written) `min` 32))%nat
          (counter +⟨8⟩ 1) (put_block out written t)
      else out
  end.
Definition hkdf_sha256_expand (prk info out : list Z) : outcome (list Z) :=
  if zlen prk <? 32 then Panic
  else if 255 * 32 <? zlen out then Panic
  else Done (hkdf_loop (length out) (HmacSha256_new prk) info [] 0 1 out).

Record Keys := mkKeys {
  normal_key : list Z;
  cipher_key_encrypt : list Z;
  cipher_key_decrypt : list Z;
  hmac_key_encrypt : list Z;
  hmac_key_decrypt : list Z;
  gro_xor : list Z }.

Definition Keys_derive (password : list Z) (is_client : bool) : outcome Keys :=
  let normal_key := md5 (password ++ str "key1") in
  let salt := md5 (str "udp2raw_salt1") in
  let prk := pbkdf2_hmac_sha256 password (take 16 salt) 10000 (replicate 32 0) in
  let '(info_hmac_enc, info_hmac_dec, info_cipher_enc, info_cipher_dec) :=
    if is_client then
      (str "hmac_key client-->server", str "hmac_key server-->client",
       str "cipher_key client-->server", str "cipher_key server-->client")
    else
      (str "hmac_key server-->client", str "hmac_key client-->server",
       str "cipher_key server-->client", str "cipher_key client-->server") in
  cke ← hkdf_sha256_expand prk info_cipher_enc (replicate 64 0);
  ckd ← hkdf_sha256_expand prk info_cipher_dec (replicate 64 0);
  hke ← hkdf_sha256_expand prk info_hmac_enc (replicate 64 0);
  hkd ← hkdf_sha256_expand prk info_hmac_dec (replicate 64 0);
  gro ← hkdf_sha256_expand prk (str "gro") (replicate 256 0);
  Done (mkKeys normal_key cke ckd hke hkd gro).

(** * The standards *)
(** RFC 2104 with a 64-byte block. *)
Definition rfc2104 (h : list Z → list Z) (key msg : list Z) : list Z :=
  let k0 := if 64 <? zlen key then h key else key in
  let k := k0 ++ replicate (64 - length k0) 0 in
  h (xor_bytes k (replicate 64 0x5c) ++ h (xor_bytes k (replicate 64 0x36) ++ msg)).

(** RFC 8018: [U_1 = PRF(P, S || INT(i))], [U_j = PRF(P, U_(j-1))], [F = U_1 xor ... xor U_c]. *)
Fixpoint rfc8018_U (password salt : list Z) (i : Z) (j : nat) : list Z :=
  match j with
  | O => rfc2104 sha256_digest password (salt ++ to_be 4 i)
  | S j => rfc2104 sha256_digest password (rfc8018_U password salt i j)
  end.
Fixpoint rfc8018_F (password salt : list Z) (c : nat) (i : Z) : list Z :=
  match c with
  | O => rfc8018_U password salt i 0
  | S c => xor_bytes (rfc8018_F password salt c i) (rfc8018_U password salt i (S c))
  end.
Definition rfc8018 (password salt : list Z) (c : Z) (dklen : nat) : list Z :=
  take dklen (flat_map (λ i, rfc8018_F password salt (Z.to_nat (c - 1)) (Z.of_nat i)) (seq 1 dklen)).

(** RFC 5869: [T(n) = HMAC(PRK, T(n-1) || info || n)]. *)
Fixpoint rfc5869_T (prk info : list Z) (n : nat) : list Z :=
  match n with
  | O => []
  | S n => rfc2104 sha256_digest prk (rfc5869_T prk info n ++ info ++ [Z.of_nat (S n)])
  end.
Definition rfc5869_expand (prk info : list Z) (len : nat) : list Z :=
  take len (flat_map (rfc5869_T prk info) (seq 1 len)).
End kdf.

(** * Equivalence *)
Section proofs.
Context `{P : Prims} {HP : PrimsOk P}.

Lemma xor_bytes_comm a b : xor_bytes a b = xor_bytes b a.
Proof.
  unfold xor_bytes. revert b. induction a as [|x a IH]; intros [|y b]; try done.
  cbn. by rewrite Z.lxor_comm, IH.
Qed.

Lemma foldl_app_mjoin (m : list Z) parts : foldl (λ m p, m ++ p) m parts = m ++ mjoin parts.
Proof.
  revert m. induction parts as [|p parts IH]; intros m; cbn; [by rewrite app_nil_r|].
  by rewrite IH, app_assoc.
Qed.

Lemma hmac_sha1_rfc key data : hmac_sha1 key data = rfc2104 sha1_digest key data.
Proof.
  unfold hmac_sha1, HmacSha1_mac, HmacSha1_new, rfc2104, pad, key_array, sha1. cbn [h1_inner h1_outer].
  rewrite !(xor_bytes_comm (replicate 64 _)). by destruct (64 <? zlen key).
Qed.

Lemma mac_parts_rfc key parts :
  mac_parts (HmacSha256_new key) parts = rfc2104 sha256_digest key (mjoin parts).
Proof.
  unfold mac_parts, HmacSha256_new, rfc2104, pad, key_array, sha256. cbn [h2_inner h2_outer].
  rewrite foldl_app_mjoin, !(xor_bytes_comm (replicate 64 _)). by destruct (64 <? zlen key).
Qed.

Lemma rfc2104_sha256_len key msg : length (rfc2104 sha256_digest key msg) = 32%nat.
Proof using HP. apply sha256_ok. Qed.
Lemma rfc2104_sha256_bytes key msg : bytes (rfc2104 sha256_digest key msg).
Proof using HP. apply sha256_ok. Qed.

Lemma pbkdf2_iterate_rfc password salt i n k :
  pbkdf2_iterate (HmacSha256_new password) n
    (rfc8018_U password salt i k) (rfc8018_F password salt k i)
  = rfc8018_F password salt (k + n) i.
Proof.
  revert k. induction n as [|n IH]; intros k; cbn [pbkdf2_iterate]; [by rewrite Nat.add_0_r|].
  replace (k + S n)%nat with (S k + n)%nat by lia. rewrite <-IH. unfold HmacSha256_mac.
  rewrite mac_parts_rfc. cbn [mjoin list_join rfc8018_U rfc8018_F]. by rewrite app_nil_r.
Qed.

(** Filling a buffer with 32-byte blocks, the shape of both expansion loops. *)
Fixpoint write_blocks (B : nat → list Z) (fuel i written : nat) (out : list Z) : list Z :=
  match fuel with
  | O => out
  | S fuel =>
      if (written <? length out)%nat
      then write_blocks B fuel (S i) (written + ((length out - written) `min` 32))%nat
             (put_block out written (B i))
      else out
  end.

Lemma length_put_block out written t :
  (written ≤ length out)%nat → length t = 32%nat → length (put_block out written t) = length out.
Proof.
  intros Hw Ht. unfold put_block. rewrite !length_app, !length_take, length_drop. lia.
Qed.

Lemma write_blocks_spec B fuel i written out n :
  (∀ i, (0 < i)%nat → length (B i) = 32%nat) → (0 < i)%nat → (written ≤ length out)%nat →
  (length out - written ≤ fuel)%nat → (length out - written ≤ n)%nat →
  write_blocks B fuel i written out
  = take written out ++ take (length out - written) (flat_map B (seq i n)).
Proof.
  intros HB. revert i written out n. induction fuel as [|fuel IH]; intros i written out n Hi Hw Hf Hn.
  { replace (length out - written)%nat with 0%nat by lia. cbn.
    by rewrite app_nil_r, take_ge by lia. }
  cbn [write_blocks]. destruct (written <? length out)%nat eqn:E.
  2:{ apply Nat.ltb_ge in E. replace (length out - written)%nat with 0%nat by lia. cbn.
      by rewrite app_nil_r, take_ge by lia. }
  apply Nat.ltb_lt in E. destruct n as [|n]; [lia|]. cbn [seq flat_map].
  pose proof (length_put_block out written (B i) Hw (HB i Hi)) as Hl.
  rewrite (IH _ _ _ n) by (rewrite ?Hl; lia). rewrite Hl, take_app, HB by done.
  set (k := ((length out - written) `min` 32)%nat).
  assert (take (written + k) (put_block out written (B i)) = take written out ++ take k (B i)) as ->.
  { unfold put_block. fold k. rewrite app_assoc, take_app_length'; [done|].
    rewrite length_app, !length_take, HB by done. lia. }
  rewrite <-app_assoc. f_equal. unfold k.
  destruct (decide (length out - written ≤ 32)%nat).
  - rewrite Nat.min_l by lia. replace (length out - (written + (length out - written)))%nat with 0%nat by lia.
    replace (length out - written - 32)%nat with 0%nat by lia. done.
  - rewrite Nat.min_r, (take_ge (B i) 32), (take_ge (B i)) by (rewrite ?HB by done; lia). do 2 f_equal. lia.
Qed.

Lemma pbkdf2_loop_blocks fuel password salt iterations i written out :
  pbkdf2_loop fuel (HmacSha256_new password) salt iterations (Z.of_nat i) written out
  = write_blocks (λ i, rfc8018_F password salt (Z.to_nat (iterations - 1)) (Z.of_nat i)) fuel i written out.
Proof.
  revert i written out. induction fuel as [|fuel IH]; intros i written out; [done|].
  cbn [pbkdf2_loop write_blocks]. destruct (written <? length out)%nat; [|done].
  replace (Z.of_nat i + 1) with (Z.of_nat (S i)) by lia. rewrite IH. do 2 f_equal.
  rewrite mac_parts_rfc. cbn [mjoin list_join]. rewrite app_nil_r.
  exact (pbkdf2_iterate_rfc password salt (Z.of_nat i) (Z.to_nat (iterations - 1)) 0).
Qed.

Lemma rfc8018_F_len password salt c i : length (rfc8018_F password salt c i) = 32%nat.
Proof using HP.
  assert (∀ j, length (rfc8018_U password salt i j) = 32%nat) as HU
    by (intros [|j]; apply rfc2104_sha256_len).
  induction c as [|c IH]; cbn [rfc8018_F]; [apply HU|]. rewrite length_xor_bytes, IH, HU. done.
Qed.

Lemma pbkdf2_rfc password salt iterations out :
  pbkdf2_hmac_sha256 password salt iterations out = rfc8018 password salt iterations (length out).
Proof using HP.
  unfold pbkdf2_hmac_sha256, rfc8018. change 1 with (Z.of_nat 1) at 1. rewrite pbkdf2_loop_blocks.
  rewrite (write_blocks_spec _ _ _ _ _ (length out)) by (try (intros; apply rfc8018_F_len); lia).
  cbn [take app]. by rewrite Nat.sub_0_r.
Qed.

(** The counter of HKDF stays a byte because the output has at most 255 blocks. *)
Lemma hkdf_loop_blocks fuel prk info i written out :
  (Z.of_nat (length out) - Z.of_nat written) + 32 * Z.of_nat i ≤ 255 * 32 →
  hkdf_loop fuel (HmacSha256_new prk) info (rfc5869_T prk info i) written (wrap 8 (Z.of_nat (S i))) out
  = write_blocks (rfc5869_T prk info) fuel (S i) written out.
Proof using HP.
  revert i written out. induction fuel as [|fuel IH]; intros i written out Hb; [done|].
  cbn [hkdf_loop write_blocks]. destruct (written <? length out)%nat eqn:E; [|done].
  apply Nat.ltb_lt in E.
  assert (wrap 8 (Z.of_nat (S i)) = Z.of_nat (S i)) as Hi by (apply wrap_small; unfold is_u; lia).
  assert (mac_parts (HmacSha256_new prk) [rfc5869_T prk info i; info; [wrap 8 (Z.of_nat (S i))]]
          = rfc5869_T prk info (S i)) as ->.
  { rewrite mac_parts_rfc, Hi. cbn [mjoin list_join rfc5869_T]. by rewrite app_nil_r. }
  rewrite Hi. replace (Z.of_nat (S i) + 1) with (Z.of_nat (S (S i))) by lia.
  assert (length (put_block out written (rfc5869_T prk info (S i))) = length out) as Hl
    by (apply length_put_block; [lia|apply rfc2104_sha256_len]).
  destruct (decide (length out - written ≤ 32)%nat) as [Hlast|Hmore].
  - replace (written + ((length out - written) `min` 32))%nat with (length out) by lia.
    destruct fuel; [done|]. cbn [hkdf_loop write_blocks]. rewrite Hl, Nat.ltb_irrefl. done.
  - apply IH. rewrite Hl. lia.
Qed.

Lemma hkdf_rfc prk info out :
  32 ≤ zlen prk → zlen out ≤ 255 * 32 →
  hkdf_sha256_expand prk info out = Done (rfc5869_expand prk info (length out)).
Proof using HP.
  intros Hp Ho. unfold hkdf_sha256_expand, rfc5869_expand. exec. f_equal.
  pose proof (hkdf_loop_blocks (length out) prk info 0 0 out ltac:(lia)) as E.
  change (wrap 8 (Z.of_nat 1)) with 1 in E. cbn [rfc5869_T] in E. rewrite E.
  rewrite (write_blocks_spec _ _ _ _ _ (length out)); [| |lia..].
  2:{ intros [|j] Hj; [lia|apply rfc2104_sha256_len]. }
  rewrite Nat.sub_0_r. done.
Qed.

Lemma flat_map_bytes {A} (f : A → list Z) l : (∀ x, bytes (f x)) → bytes (flat_map f l).
Proof. intros H. induction l; cbn; [constructor|]. by apply Forall_app. Qed.

Lemma flat_map_length_seq (f : nat → list Z) i n :
  (∀ j, (0 < j)%nat → length (f j) = 32%nat) → (0 < i)%nat → length (flat_map f (seq i n)) = (32 * n)%nat.
Proof.
  intros Hf. revert i. induction n as [|n IH]; intros i Hi; [done|]. cbn [seq flat_map].
  rewrite length_app, IH, Hf by lia. lia.
Qed.

Lemma expand_ok prk info n :
  length (rfc5869_expand prk info n) = n ∧ bytes (rfc5869_expand prk info n).
Proof using HP.
  unfold rfc5869_expand. split.
  - rewrite length_take, flat_map_length_seq; [lia| |lia]. intros [|j] Hj; [lia|apply rfc2104_sha256_len].
  - apply Forall_take, flat_map_bytes. intros [|j]; [constructor|apply rfc2104_sha256_bytes].
Qed.

Definition arr (n : nat) (l : list Z) : Prop := length l = n ∧ bytes l.

Record keys_ok (k : Keys) : Prop := {
  ko_normal : arr 16 (normal_key k);
  ko_cke : arr 64 (cipher_key_encrypt k);
  ko_ckd : arr 64 (cipher_key_decrypt k);
  ko_hke : arr 64 (hmac_key_encrypt k);
  ko_hkd : arr 64 (hmac_key_decrypt k);
  ko_gro : arr 256 (gro_xor k) }.

(** The two ends' keys: what one encrypts with the other decrypts with. *)
Record mirrored (a b : Keys) : Prop := {
  mi_normal : normal_key a = normal_key b;
  mi_enc : cipher_key_encrypt a = cipher_key_decrypt b;
  mi_dec : cipher_key_decrypt a = cipher_key_encrypt b;
  mi_henc : hmac_key_encrypt a = hmac_key_decrypt b;
  mi_hdec : hmac_key_decrypt a = hmac_key_encrypt b;
  mi_gro : gro_xor a = gro_xor b }.

Lemma mirrored_sym a b : mirrored a b → mirrored b a.
Proof. intros []. by constructor. Qed.

Definition prk_of (password : list Z) : list Z :=
  pbkdf2_hmac_sha256 password (take 16 (md5 (str "udp2raw_salt1"))) 10000 (replicate 32 0).

Definition expected_keys (password : list Z) (me peer : string) : Keys :=
  let ex pre a b := rfc5869_expand (prk_of password) (str (pre +:+ a +:+ "-->" +:+ b)) 64 in
  mkKeys (md5 (password ++ str "key1"))
    (ex "cipher_key " me peer) (ex "cipher_key " peer me)
    (ex "hmac_key " me peer) (ex "hmac_key " peer me)
    (rfc5869_expand (prk_of password) (str "gro") 256).

Lemma prk_of_len password : length (prk_of password) = 32%nat.
Proof using HP.
  unfold prk_of. rewrite pbkdf2_rfc. unfold rfc8018. rewrite length_replicate, length_take, flat_map_length_seq; [lia| |lia].
  intros. apply rfc8018_F_len.
Qed.

#[local] Opaque pbkdf2_hmac_sha256 rfc5869_expand.
Lemma Keys_derive_expected password is_client :
  Keys_derive password is_client
  = Done (if is_client then expected_keys password "client" "server"
          else expected_keys password "server" "client").
Proof using HP.
  pose proof (prk_of_len password) as Hp. unfold Keys_derive.
  unfold expected_keys, prk_of in *.
  generalize dependent (pbkdf2_hmac_sha256 password (take 16 (md5 (str "udp2raw_salt1"))) 10000 (replicate 32 0)).
  intros prk Hp. cbv zeta.
  assert (∀ info n, (n ≤ 256)%nat →
    hkdf_sha256_expand prk info (replicate n 0) = Done (rfc5869_expand prk info n)) as He.
  { intros info n Hn. rewrite hkdf_rfc by (rewrite ?length_replicate; lia). by rewrite length_replicate. }
  destruct is_client; rewrite !He by lia; reflexivity.
Qed.

Lemma expected_keys_ok password a b : keys_ok (expected_keys password a b).
Proof using HP. constructor; apply expand_ok || apply md5_ok. Qed.

Lemma expected_keys_mirrored password a b :
  mirrored (expected_keys password a b) (expected_keys password b a).
Proof. unfold expected_keys. generalize (prk_of password). intros prk. by constructor. Qed.

(** * Claims *)

(** C36. The key-derivation routines compute the standards: HMAC-SHA1 is RFC 2104,
    PBKDF2-HMAC-SHA256 is RFC 8018 for every iteration count and output length,
    and HKDF-Expand is RFC 5869 for every output of at most 255 blocks and
    aborts exactly on a short key or a longer output. *)
Theorem kdf_rfc (password salt key data prk info out : list Z) (iterations : Z) :
  hmac_sha1 key data = rfc2104 sha1_digest key data ∧
  pbkdf2_hmac_sha256 password salt iterations out = rfc8018 password salt iterations (length out) ∧
  hkdf_sha256_expand prk info out
  = (if (zlen prk <? 32) || (255 * 32 <? zlen out) then Panic
     else Done (rfc5869_expand prk info (length out))).
Proof using HP.
  split_and!; [apply hmac_sha1_rfc|apply pbkdf2_rfc|].
  destruct (zlen prk <? 32) eqn:E1; [unfold hkdf_sha256_expand; by rewrite E1|].
  destruct (255 * 32 <? zlen out) eqn:E2; [unfold hkdf_sha256_expand; by rewrite E1, E2|].
  cbn [orb]. apply hkdf_rfc; lia.
Qed.

(** From one password the two roles derive, without aborting, well-formed and
    mirrored keys: each side's encryption and HMAC keys are the other side's
    decryption and verification keys. *)
Theorem keys_mirrored (password : list Z) :
  ∃ c s, Keys_derive password true = Done c ∧ Keys_derive password false = Done s ∧
         keys_ok c ∧ keys_ok s ∧ mirrored c s.
Proof using HP.
  exists (expected_keys password "client" "server"), (expected_keys password "server" "client").
  split_and!; [apply Keys_derive_expected..|apply expected_keys_ok|apply expected_keys_ok|].
  apply expected_keys_mirrored.
Qed.
End proofs.

Lemma kdf_rfc_witness :
  pbkdf2_hmac_sha256 (P := demo_prims) (str "pw") (str "salt") 2 (replicate 40 0)
  = rfc8018 (P := demo_prims) (str "pw") (str "salt") 2 40.
Proof. apply (kdf_rfc (P := demo_prims) (str "pw") (str "salt") [] [] [] [] (replicate 40 0) 2). Defined.

Lemma keys_mirrored_witness :
  ∃ c s, Keys_derive (P := demo_prims) (str "secret key") true = Done c ∧
         Keys_derive (P := demo_prims) (str "secret key") false = Done s ∧ mirrored c s.
Proof.
  destruct (keys_mirrored (P := demo_prims) (str "secret key")) as (c & s & Hc & Hs & _ & _ & Hm).
  exists c, s. split; [exact Hc|split; [exact Hs|exact Hm]].
Defined.
