(* ===== verification/Auth.v ===== *)
(** Authentication modes: [src/src/crypto/auth.rs]. *)
From stdpp Require Import strings.
From S2P Require Import Prelude Util Fips197 Prims Kdf.

Inductive AuthMode := AuthNone | Md5 | Crc32 | Simple | HmacSha1Mode.
#[export] Instance AuthMode_eq_dec : EqDecision AuthMode.
Proof. solve_decision. Defined.

Definition AuthMode_parse (s : string) : option AuthMode :=
  if decide (s = "none") then Some AuthNone
  else if decide (s = "md5") then Some Md5
  else if decide (s = "crc32") then Some Crc32
  else if decide (s = "simple") then Some Simple
  else if decide (s = "hmac_sha1") then Some HmacSha1Mode
  else None.
Definition AuthMode_name (m : AuthMode) : string :=
  match m with
  | AuthNone => "none" | Md5 => "md5" | Crc32 => "crc32" | Simple => "simple"
  | HmacSha1Mode => "hmac_sha1"
  end.
Definition tag_len (m : AuthMode) : Z :=
  match m with AuthNone => 0 | Md5 => 16 | Crc32 => 4 | Simple => 8 | HmacSha1Mode => 20 end.

Definition simple_hash (data : list Z) : list Z :=
  let '(hash, hash2) :=
    foldl (λ '(hash, hash2) c,
             (Z.lxor (wrap 32 (Z.shiftl hash 5) +⟨32⟩ hash) c,
              (c +⟨32⟩ wrap 32 (Z.shiftl hash2 6)) +⟨32⟩ wrap 32 (Z.shiftl hash2 16) -⟨32⟩ hash2))
      (5381, 0) data in
  to_be 4 hash ++ to_be 4 hash2.

Section auth.
Context `{P : Prims}.

Record Authenticator := mkAuthenticator { au_mode : AuthMode; au_hmac : option HmacSha1 }.

Definition Authenticator_new (mode : AuthMode) (hmac_key : list Z) : outcome Authenticator :=
  if decide (mode = HmacSha1Mode)
  then k ← slice hmac_key 0 20; Done (mkAuthenticator mode (Some (HmacSha1_new k)))
  else Done (mkAuthenticator mode None).

Definition unwrap {A} (o : option A) : outcome A :=
  match o with Some a => Done a | None => Panic end.

Definition append_tag (self : Authenticator) (buf : list Z) : outcome (list Z) :=
  match au_mode self with
  | AuthNone => Done buf
  | Md5 => Done (buf ++ md5 buf)
  | Crc32 => Done (buf ++ to_be 4 (crc32fast_hash buf))
  | Simple => Done (buf ++ simple_hash buf)
  | HmacSha1Mode => h ← unwrap (au_hmac self); Done (buf ++ HmacSha1_mac h buf)
  end.

(** The payload length on success. *)
Definition auth_verify (self : Authenticator) (data : list Z) : outcome (option Z) :=
  let tl := tag_len (au_mode self) in
  if zlen data <? tl then Done None else
  body ← slice data 0 (zlen data - tl);
  tag ← slice_from data (zlen data - tl);
  ok ← match au_mode self with
       | AuthNone => Done true
       | Md5 => Done (ct_eq (md5 body) tag)
       | Crc32 => Done (ct_eq (to_be 4 (crc32fast_hash body)) tag)
       | Simple => Done (ct_eq (simple_hash body) tag)
       | HmacSha1Mode => h ← unwrap (au_hmac self); Done (ct_eq (HmacSha1_mac h body) tag)
       end;
  Done (if ok : bool then Some (zlen body) else None).
End auth.

Lemma AuthMode_parse_name m : AuthMode_parse (AuthMode_name m) = Some m.
Proof. by destruct m. Qed.

Lemma simple_hash_ok data : length (simple_hash data) = 8%nat ∧ bytes (simple_hash data).
Proof.
  unfold simple_hash. destruct (foldl _ _ data) as [h h2].
  split; [by rewrite length_app, !length_to_be|auto with bytes].
Qed.

Section proofs.
Context `{P : Prims} {HP : PrimsOk P}.

(** The tag an authenticator computes over a body. *)
Definition tag_of (mode : AuthMode) (hmac_key body : list Z) : list Z :=
  match mode with
  | AuthNone => []
  | Md5 => md5 body
  | Crc32 => to_be 4 (crc32fast_hash body)
  | Simple => simple_hash body
  | HmacSha1Mode => rfc2104 sha1_digest (take 20 hmac_key) body
  end.

Lemma tag_of_ok mode key body :
  zlen (tag_of mode key body) = tag_len mode ∧ bytes (tag_of mode key body).
Proof using HP.
  destruct mode; cbn [tag_of tag_len].
  - done.
  - unfold md5. destruct (md5_ok body) as [-> ?]. done.
  - rewrite length_to_be. auto with bytes.
  - destruct (simple_hash_ok body) as [-> ?]. done.
  - unfold rfc2104. match goal with |- context [sha1_digest ?m] => destruct (sha1_ok m) as [-> ?] end. done.
Qed.

(** What [Authenticator::new] returns on a 64-byte key. *)
Definition auth_for (mode : AuthMode) (key : list Z) : Authenticator :=
  mkAuthenticator mode (if decide (mode = HmacSha1Mode) then Some (HmacSha1_new (take 20 key)) else None).

Lemma Authenticator_new_Done mode key : 20 ≤ zlen key → Authenticator_new mode key = Done (auth_for mode key).
Proof.
  intros Hk. unfold Authenticator_new, auth_for. case_decide; [|done].
  rewrite slice_Done by lia. rewrite bind_Done. done.
Qed.

Lemma append_tag_Done mode key buf :
  append_tag (auth_for mode key) buf = Done (buf ++ tag_of mode key buf).
Proof.
  unfold append_tag, auth_for. destruct mode; cbn [au_mode au_hmac tag_of]; rewrite ?app_nil_r; try done.
  rewrite decide_True by done. cbn [unwrap]. rewrite bind_Done, <-hmac_sha1_rfc. done.
Qed.

Lemma auth_verify_eq mode key data :
  tag_len mode ≤ zlen data →
  let body := take (Z.to_nat (zlen data - tag_len mode)) data in
  let tag := drop (Z.to_nat (zlen data - tag_len mode)) data in
  bytes tag →
  auth_verify (auth_for mode key) data
  = Done (if bool_decide (tag_of mode key body = tag) then Some (zlen body) else None).
Proof using HP.
  intros Hl body tag Htag. unfold auth_verify. cbn [auth_for au_mode au_hmac].
  assert (0 ≤ tag_len mode) by (destruct mode; cbn; lia). exec_if.
  rewrite slice_Done, slice_from_Done by lia. rewrite !bind_Done, Z.sub_0_r.
  change (drop (Z.to_nat 0) data) with data.
  fold body tag.
  assert (zlen tag = tag_len mode) as Hlt by (unfold tag; rewrite length_drop; lia). clearbody body tag. destruct (tag_of_ok mode key body) as [Ht Hb].
  assert (bool_decide (tag_of mode key body = tag) = ct_eq (tag_of mode key body) tag) as ->.
  { destruct (ct_eq _ _) eqn:E.
    - apply bool_decide_eq_true. by apply ct_eq_iff in E.
    - apply bool_decide_eq_false. intros E2. rewrite E2, ct_eq_refl in E. done. }
  destruct mode; cbn [tag_of]; rewrite ?bind_Done; try done.
  - assert (tag = []) as -> by (apply nil_length_inv; cbn [tag_len] in Hlt; lia). reflexivity.
  - rewrite decide_True by done. cbn [unwrap]. by rewrite !bind_Done, <-hmac_sha1_rfc.
Qed.

Lemma auth_verify_app mode key body :
  auth_verify (auth_for mode key) (body ++ tag_of mode key body) = Done (Some (zlen body)).
Proof using HP.
  destruct (tag_of_ok mode key body) as [Hl Hb].
  assert (Z.to_nat (zlen (body ++ tag_of mode key body) - tag_len mode) = length body) as E
    by (rewrite zlen_app; lia).
  rewrite auth_verify_eq; rewrite ?E, ?take_app_length, ?drop_app_length;
    [by rewrite bool_decide_true|rewrite zlen_app; lia|done].
Qed.

(** * Claims *)

(** For every authentication mode, appending a tag never aborts and adds
    exactly [tag_len] bytes, and [verify] accepts a byte string exactly when it
    is a body followed by the tag of that body; then it returns the body's
    length.  Any other input, a shorter one included, is refused without
    aborting. *)
Theorem auth_verify_exact (mode : AuthMode) (key data : list Z) :
  20 ≤ zlen key → bytes data →
  ∃ a, Authenticator_new mode key = Done a ∧
    (∃ tagged, append_tag a data = Done tagged ∧ zlen tagged = zlen data + tag_len mode ∧
               auth_verify a tagged = Done (Some (zlen data))) ∧
    (∃ r, auth_verify a data = Done r ∧
      ∀ n, r = Some n ↔
        ∃ body, data = body ++ tag_of mode key body ∧ n = zlen body).
Proof using HP.
  intros Hk Hd. exists (auth_for mode key). split; [by apply Authenticator_new_Done|]. split.
  { exists (data ++ tag_of mode key data). destruct (tag_of_ok mode key data) as [Hl _].
    rewrite append_tag_Done, auth_verify_app, zlen_app, Hl. done. }
  destruct (decide (tag_len mode ≤ zlen data)) as [Hlen|Hlen].
  - rewrite auth_verify_eq by (try done; by apply Forall_drop).
    set (n0 := Z.to_nat (zlen data - tag_len mode)).
    eexists. split; [reflexivity|]. intros n. case_bool_decide as E.
    + split.
      * intros [= <-]. exists (take n0 data). by rewrite E, take_drop.
      * intros (body & Hdata & ->). f_equal. destruct (tag_of_ok mode key body) as [Hl _].
        assert (n0 = length body) as -> by (unfold n0; rewrite Hdata, zlen_app; lia).
        by rewrite Hdata, take_app_length.
    + split; [done|]. intros (body & Hdata & ->). exfalso. apply E.
      destruct (tag_of_ok mode key body) as [Hl _].
      assert (n0 = length body) as -> by (unfold n0; rewrite Hdata, zlen_app; lia).
      by rewrite Hdata, take_app_length, drop_app_length.
  - exists None. split; [unfold auth_verify; cbn [auth_for au_mode]; by exec_if|].
    intros n. split; [done|]. intros (body & Hdata & _). destruct (tag_of_ok mode key body) as [Hl _].
    rewrite Hdata, zlen_app in Hlen. lia.
Qed.
End proofs.

Lemma auth_verify_exact_witness :
  ∃ a, Authenticator_new (P := demo_prims) Simple (replicate 64 7) = Done a ∧
       auth_verify (P := demo_prims) a (str "ab" ++ simple_hash (str "ab")) = Done (Some 2).
Proof.
  destruct (auth_verify_exact (P := demo_prims) Simple (replicate 64 7) (str "ab")) as (a & Ha & (t & Ht & _ & Hv) & _).
  - cbn. lia.
  - apply bytes_check. reflexivity.
  - exists a. split; [exact Ha|]. injection Ha as <-. injection Ht as <-. exact Hv.
Defined.
