(* ===== verification/Cipher.v ===== *)
(** Cipher modes: [src/src/crypto/cipher.rs].

    The modes are written against the interface [BlockCipher]; [implements k key]
    is the promise of a block cipher: it is AES-128 under [key].  The table-driven
    code discharges it by [AesTable.v], the external crate by assumption
    ([PrimsOk]), so the two ends of a tunnel may use different backends. *)
From stdpp Require Import strings.
From S2P Require Import Prelude Fips197 AesTable Prims.

Inductive AesBackend := Auto | Hardware | Table | Fixslice.
#[export] Instance AesBackend_eq_dec : EqDecision AesBackend.
Proof. solve_decision. Defined.

Definition AesBackend_parse (s : string) : option AesBackend :=
  if decide (s = "auto") then Some Auto
  else if decide (s = "hw") then Some Hardware
  else if decide (s = "hardware") then Some Hardware
  else if decide (s = "table") then Some Table
  else if decide (s = "fixslice") then Some Fixslice
  else if decide (s = "soft") then Some Fixslice
  else None.
Definition AesBackend_name (b : AesBackend) : string :=
  match b with Auto => "auto" | Hardware => "hardware" | Table => "table" | Fixslice => "fixslice" end.

(** [cpu_has_aes] is what the CPU reports. *)
Definition resolve_backend (cpu_has_aes : bool) (b : AesBackend) : AesBackend :=
  match b with
  | Auto => if cpu_has_aes then Hardware else Table
  | other => other
  end.

Inductive CipherMode := CipherNone | Xor | Aes128Cbc | Aes128Cfb | ChaCha20Poly1305.
#[export] Instance CipherMode_eq_dec : EqDecision CipherMode.
Proof. solve_decision. Defined.

(** (mode, legacy_cfb_without_first_block_ecb) *)
Definition CipherMode_parse (s : string) : option (CipherMode * bool) :=
  if decide (s = "none") then Some (CipherNone, false)
  else if decide (s = "xor") then Some (Xor, false)
  else if decide (s = "aes128cbc") then Some (Aes128Cbc, false)
  else if decide (s = "aes128cfb") then Some (Aes128Cfb, false)
  else if decide (s = "aes128cfb_0") then Some (Aes128Cfb, true)
  else if decide (s = "chacha20poly1305") then Some (ChaCha20Poly1305, false)
  else if decide (s = "chacha") then Some (ChaCha20Poly1305, false)
  else None.
Definition CipherMode_name (m : CipherMode) : string :=
  match m with
  | CipherNone => "none" | Xor => "xor" | Aes128Cbc => "aes128cbc" | Aes128Cfb => "aes128cfb"
  | ChaCha20Poly1305 => "chacha20poly1305"
  end.
Definition is_aes (m : CipherMode) : bool :=
  match m with Aes128Cbc | Aes128Cfb => true | _ => false end.
Definition is_aead (m : CipherMode) : bool :=
  match m with ChaCha20Poly1305 => true | _ => false end.

(** * Block ciphers *)
Class BlockCipher (K : Type) := {
  bc_encrypt : K → list Z → list Z;
  bc_decrypt : K → list Z → list Z }.

Definition implements {K} `{BlockCipher K} (k : K) (key : list Z) : Prop :=
  ∀ b, state b → bc_encrypt k b = aes128_encrypt key b ∧ bc_decrypt k b = aes128_decrypt key b.

#[export] Instance AesTable_cipher : BlockCipher AesTable :=
  {| bc_encrypt := encrypt_block; bc_decrypt := decrypt_block |}.

Section aes_key.
Context `{P : Prims}.

(** [Crate] holds the schedule the crate made of the key, represented by the key. *)
Inductive AesKey := Crate (key : list Z) | TableKey (t : AesTable).

Definition with_backend (cpu_has_aes : bool) (key16 : list Z) (backend : AesBackend) : outcome AesKey :=
  k ← slice key16 0 16;
  match resolve_backend cpu_has_aes backend with
  | Table => Done (TableKey (AesTable_new k))
  | _ => Done (Crate k)
  end.

Definition AesKey_backend (cpu_has_aes : bool) (self : AesKey) : AesBackend :=
  match self with
  | Crate _ => if cpu_has_aes then Hardware else Fixslice
  | TableKey _ => Table
  end.

Definition AesKey_encrypt_block (self : AesKey) (block : list Z) : list Z :=
  match self with
  | Crate key => aes128_crate_encrypt key block
  | TableKey t => encrypt_block t block
  end.
Definition AesKey_decrypt_block (self : AesKey) (block : list Z) : list Z :=
  match self with
  | Crate key => aes128_crate_decrypt key block
  | TableKey t => decrypt_block t block
  end.

#[export] Instance AesKey_cipher : BlockCipher AesKey :=
  {| bc_encrypt := AesKey_encrypt_block; bc_decrypt := AesKey_decrypt_block |}.
End aes_key.

(** * Modes *)
Definition zero_block : list Z := replicate 16 0.

Section modes.
Context {K : Type} `{BlockCipher K}.

(** [for chunk in data.chunks_exact_mut(16)]; a remainder stays as it is. *)
Fixpoint cbc_encrypt_chunks (n : nat) (k : K) (prev data : list Z) : list Z :=
  match n with
  | O => data
  | S n =>
      let b := bc_encrypt k (xor_bytes (take 16 data) prev) in
      b ++ cbc_encrypt_chunks n k b (drop 16 data)
  end.
Definition cbc_encrypt_zero_iv (k : K) (data : list Z) : list Z :=
  cbc_encrypt_chunks (length data / 16) k zero_block data.

(** The serial loop of the table-driven key. *)
Fixpoint cbc_decrypt_chunks (n : nat) (k : K) (prev data : list Z) : list Z :=
  match n with
  | O => data
  | S n =>
      let ct := take 16 data in
      xor_bytes (bc_decrypt k ct) prev ++ cbc_decrypt_chunks n k ct (drop 16 data)
  end.

(** The crate decrypts all blocks at once, then each is combined with the previous
    ciphertext block. *)
Fixpoint chunks16 (n : nat) (data : list Z) : list (list Z) :=
  match n with O => [] | S n => take 16 data :: chunks16 n (drop 16 data) end.
Fixpoint cbc_combine (blocks : list (list Z)) (prev data : list Z) : list Z :=
  match blocks with
  | [] => data
  | b :: blocks => xor_bytes b prev ++ cbc_combine blocks (take 16 data) (drop 16 data)
  end.

(** State of the CFB loop: the feedback register and the offset in it. *)
Fixpoint cfb_encrypt_loop (k : K) (data iv : list Z) (off : Z) : list Z :=
  match data with
  | [] => []
  | byte :: rest =>
      let iv := if off =? 0 then bc_encrypt k iv else iv in
      let c := Z.lxor byte (nth (Z.to_nat off) iv 0) in
      c :: cfb_encrypt_loop k rest (<[Z.to_nat off := c]> iv) (Z.land (off + 1) 0x0f)
  end.
Definition cfb_encrypt_zero_iv (k : K) (data : list Z) : list Z := cfb_encrypt_loop k data zero_block 0.

Fixpoint cfb_decrypt_loop (k : K) (data iv : list Z) (off : Z) : list Z :=
  match data with
  | [] => []
  | c :: rest =>
      let iv := if off =? 0 then bc_encrypt k iv else iv in
      Z.lxor c (nth (Z.to_nat off) iv 0)
      :: cfb_decrypt_loop k rest (<[Z.to_nat off := c]> iv) (Z.land (off + 1) 0x0f)
  end.
Definition cfb_decrypt_zero_iv (k : K) (data : list Z) : list Z := cfb_decrypt_loop k data zero_block 0.
End modes.

Definition cbc_decrypt_zero_iv `{P : Prims} (k : AesKey) (data : list Z) : list Z :=
  let n := (length data / 16)%nat in
  if (n =? 0)%nat then data else
  match k with
  | Crate key => cbc_combine (aes128_crate_decrypt key <$> chunks16 n data) zero_block data
  | TableKey t => cbc_decrypt_chunks n t zero_block data
  end.

Definition pad16 (buf : list Z) : list Z :=
  let old := zlen buf in
  let new_len := old + 1 in
  let new_len := if negb (new_len mod 16 =? 0) then (new_len / 16) * 16 + 16 else new_len in
  <[Z.to_nat (new_len - 1) := wrap 8 (new_len - old)]> (vec_resize buf new_len 0).

(** [None] stands for the result [false]; otherwise the truncated buffer. *)
Definition unpad16 (buf : list Z) : option (list Z) :=
  match last buf with
  | None => None
  | Some p =>
      if (16 <? p) || (zlen buf <? p) then None
      else Some (take (Z.to_nat (zlen buf - p)) buf)
  end.

(** [for (i, b) in data.iter_mut().enumerate() { *b ^= key16[i & 15] }] *)
Fixpoint xor_from (i : Z) (data key16 : list Z) : list Z :=
  match data with
  | [] => []
  | b :: rest => Z.lxor b (nth (Z.to_nat (Z.land i 15)) key16 0) :: xor_from (i + 1) rest key16
  end.
Definition xor_in_place (data key16 : list Z) : list Z := xor_from 0 data key16.

(** * Proofs *)
Lemma CipherMode_parse_name m : CipherMode_parse (CipherMode_name m) = Some (m, false).
Proof. by destruct m. Qed.
Lemma AesBackend_parse_name b : AesBackend_parse (AesBackend_name b) = Some b.
Proof. by destruct b. Qed.

Lemma xor_in_place_twice data key16 : xor_in_place (xor_in_place data key16) key16 = data.
Proof.
  unfold xor_in_place. generalize 0 as i. induction data as [|b data IH]; intros i; [done|].
  cbn [xor_from]. by rewrite lxor_cancel_r, IH.
Qed.
Lemma length_xor_in_place data key16 : length (xor_in_place data key16) = length data.
Proof.
  unfold xor_in_place. generalize 0 as i. induction data as [|b data IH]; intros i; [done|].
  cbn [xor_from length]. by rewrite IH.
Qed.

Lemma bytes_xor_in_place data key16 : bytes data → state key16 → bytes (xor_in_place data key16).
Proof.
  intros Hb [Hkl Hkb]. unfold xor_in_place. generalize 0 as i.
  induction Hb; intros i; cbn [xor_from]; constructor; [|done].
  apply byte_lxor; [done|]. rewrite Forall_forall in Hkb. apply Hkb, list_elem_of_In, nth_In.
  rewrite land_15. pose proof (Z.mod_pos_bound i 16 ltac:(lia)). lia.
Qed.

Lemma AesTable_implements key : state key → implements (AesTable_new key) key.
Proof. intros Hk b Hb. split; [by apply encrypt_block_aes|by apply decrypt_block_aes]. Qed.

Section keys.
Context `{P : Prims} {HP : PrimsOk P}.

Lemma with_backend_ok cpu key16 backend :
  16 ≤ zlen key16 → bytes key16 →
  ∃ k, with_backend cpu key16 backend = Done k ∧ implements k (take 16 key16).
Proof using HP.
  intros Hl Hb. assert (state (take 16 key16)) as Hk.
  { split; [rewrite length_take; lia|by apply Forall_take]. }
  unfold with_backend. rewrite slice_Done by lia. rewrite bind_Done.
  change (take (Z.to_nat (16 - 0)) (drop (Z.to_nat 0) key16)) with (take 16 key16).
  assert (implements (Crate (take 16 key16)) (take 16 key16)) as Hc.
  { intros b Hs. split; [by apply aes_crate_enc_ok|by apply aes_crate_dec_ok]. }
  destruct (resolve_backend cpu backend); eexists; (split; [reflexivity|]); try done.
  intros b Hs. exact (AesTable_implements _ Hk b Hs).
Qed.
End keys.

Lemma state_zero : state zero_block.
Proof. split; [done|by apply bytes_check]. Qed.

(** * CBC *)
Section cbc.
Context {K K' : Type} `{BlockCipher K, BlockCipher K'}.
Context (ke : K) (kd : K') (key : list Z).
Context (Hkey : state key) (He : implements ke key) (Hd : implements kd key).

Lemma bc_encrypt_state b : state b → state (bc_encrypt ke b).
Proof using He Hkey. intros Hb. destruct (He b Hb) as [-> _]. by apply state_aes128_encrypt. Qed.

Lemma bc_decrypt_encrypt b : state b → bc_decrypt kd (bc_encrypt ke b) = b.
Proof using He Hd Hkey.
  intros Hb. pose proof (bc_encrypt_state b Hb) as Hs. destruct (Hd _ Hs) as [_ ->].
  destruct (He b Hb) as [-> _]. by apply aes128_decrypt_encrypt.
Qed.

Lemma bc_decrypt_state b : state b → state (bc_decrypt kd b).
Proof using Hd Hkey. intros Hb. destruct (Hd b Hb) as [_ ->]. by apply state_aes128_decrypt. Qed.

(** Decryption of arbitrary bytes keeps the length and the byte range. *)
Lemma cbc_decrypt_ok n prev data :
  state prev → bytes data → length data = (16 * n)%nat →
  bytes (cbc_decrypt_chunks n kd prev data) ∧ length (cbc_decrypt_chunks n kd prev data) = length data.
Proof using Hd Hkey.
  revert prev data. induction n as [|n IH]; intros prev data Hp Hb Hl; [done|].
  cbn [cbc_decrypt_chunks].
  assert (state (take 16 data)) as Ht by (split; [rewrite length_take; lia|by apply Forall_take]).
  destruct (state_xor _ _ (bc_decrypt_state _ Ht) Hp) as [Hxl Hxb].
  destruct (IH (take 16 data) (drop 16 data)) as [IHb IHl];
    [done|by apply Forall_drop|rewrite length_drop; lia|].
  split; [by apply Forall_app|]. rewrite length_app, Hxl, IHl, length_drop. lia.
Qed.

Lemma cfb_decrypt_ok data iv off :
  state iv → 0 ≤ off < 16 → bytes data →
  bytes (cfb_decrypt_loop kd data iv off) ∧ length (cfb_decrypt_loop kd data iv off) = length data.
Proof using Hd Hkey.
  intros Hiv Hoff Hb. revert iv off Hiv Hoff.
  induction Hb as [|x data Hx Hb IH]; intros iv off Hiv Hoff; [done|].
  cbn [cfb_decrypt_loop].
  set (iv' := if off =? 0 then bc_encrypt kd iv else iv).
  assert (state iv') as [Hl' Hb'].
  { unfold iv'. destruct (off =? 0); [|done]. destruct (Hd iv Hiv) as [-> _]. by apply state_aes128_encrypt. }
  destruct (IH (<[Z.to_nat off := x]> iv') (Z.land (off + 1) 0x0f)) as [IHb IHl].
  - split; [by rewrite length_insert|by apply Forall_insert].
  - rewrite land_15. apply Z.mod_pos_bound. lia.
  - split; [|cbn [length]; by rewrite IHl]. constructor; [|done]. apply byte_lxor; [done|].
    rewrite Forall_forall in Hb'. apply Hb', list_elem_of_In, nth_In. lia.
Qed.

Lemma cbc_chunks_roundtrip n prev data :
  state prev → bytes data → length data = (16 * n)%nat →
  cbc_decrypt_chunks n kd prev (cbc_encrypt_chunks n ke prev data) = data ∧
  bytes (cbc_encrypt_chunks n ke prev data) ∧
  length (cbc_encrypt_chunks n ke prev data) = length data.
Proof using He Hd Hkey.
  revert prev data. induction n as [|n IH]; intros prev data Hp Hb Hl.
  { destruct data; [|simpl in Hl; lia]. done. }
  cbn [cbc_encrypt_chunks cbc_decrypt_chunks].
  assert (state (take 16 data)) as Ht
    by (split; [rewrite length_take; lia|by apply Forall_take]).
  assert (state (xor_bytes (take 16 data) prev)) as Hx by (by apply state_xor).
  pose proof (bc_encrypt_state _ Hx) as Hc. set (c := bc_encrypt ke _) in *.
  destruct (IH c (drop 16 data)) as (IH1 & IH2 & IH3);
    [done|by apply Forall_drop|rewrite length_drop; lia|].
  destruct Hc as [Hlc Hbc].
  rewrite take_app_length', drop_app_length' by done.
  split_and!.
  - rewrite IH1. unfold c. rewrite bc_decrypt_encrypt by done.
    rewrite xor_bytes_cancel; [apply take_drop|]. destruct Ht as [-> _], Hp as [-> _]. done.
  - by apply Forall_app.
  - rewrite length_app, IH3, length_drop. lia.
Qed.

Lemma cfb_roundtrip data iv off :
  state iv → 0 ≤ off < 16 → bytes data →
  cfb_decrypt_loop kd (cfb_encrypt_loop ke data iv off) iv off = data ∧
  bytes (cfb_encrypt_loop ke data iv off) ∧
  length (cfb_encrypt_loop ke data iv off) = length data.
Proof using He Hd Hkey.
  intros Hiv Hoff Hb. revert iv off Hiv Hoff.
  induction Hb as [|x data Hx Hb IH]; intros iv off Hiv Hoff; [done|].
  cbn [cfb_encrypt_loop cfb_decrypt_loop].
  assert (state (bc_encrypt ke iv)) as Hei by (by apply bc_encrypt_state).
  assert (bc_encrypt kd iv = bc_encrypt ke iv) as ->.
  { destruct (Hd iv Hiv) as [-> _]. destruct (He iv Hiv) as [-> _]. done. }
  set (iv' := if off =? 0 then bc_encrypt ke iv else iv).
  assert (state iv') as Hiv' by (unfold iv'; by destruct (off =? 0)). clearbody iv'.
  assert (is_byte (nth (Z.to_nat off) iv' 0)) as Hn.
  { destruct Hiv' as [Hl' Hb']. rewrite Forall_forall in Hb'. apply Hb', list_elem_of_In, nth_In. lia. }
  set (c := Z.lxor x (nth (Z.to_nat off) iv' 0)). assert (is_byte c) as Hc by (by apply byte_lxor).
  destruct (IH (<[Z.to_nat off := c]> iv') (Z.land (off + 1) 0x0f)) as (IH1 & IH2 & IH3).
  - destruct Hiv' as [Hl' Hb']. split; [by rewrite length_insert|by apply Forall_insert].
  - rewrite land_15. apply Z.mod_pos_bound. lia.
  - split_and!.
    + rewrite IH1. f_equal. unfold c. apply lxor_cancel_r.
    + by constructor.
    + cbn [length]. by rewrite IH3.
Qed.
End cbc.

(** The pipelined decryption of the crate and the serial one agree. *)
Lemma cbc_combine_chunks `{P : Prims} key n prev data :
  cbc_combine (aes128_crate_decrypt key <$> chunks16 n data) prev data
  = cbc_decrypt_chunks n (Crate key) prev data.
Proof.
  revert prev data. induction n as [|n IH]; intros prev data; [done|].
  cbn [chunks16 fmap list_fmap cbc_combine cbc_decrypt_chunks]. by rewrite IH.
Qed.

Lemma cbc_decrypt_serial `{P : Prims} (k : AesKey) data :
  cbc_decrypt_zero_iv k data = cbc_decrypt_chunks (length data / 16) k zero_block data.
Proof.
  unfold cbc_decrypt_zero_iv. destruct (length data / 16)%nat as [|n] eqn:E; [done|].
  cbn [Nat.eqb]. destruct k as [key|t]; [apply cbc_combine_chunks|].
  generalize zero_block as prev. rewrite <-E. clear E. generalize (length data / 16)%nat as m.
  clear n. intros m. revert data. induction m as [|m IH]; intros data prev; [done|].
  cbn [cbc_decrypt_chunks]. by rewrite IH.
Qed.

Lemma unpad16_ok buf b : bytes buf → unpad16 buf = Some b → bytes b ∧ zlen b ≤ zlen buf.
Proof.
  intros Hb. unfold unpad16. destruct (last buf); [|done]. case_ifs; [done|]. intros [= <-].
  split; [by apply Forall_take|]. rewrite length_take. lia.
Qed.

Section modes_ok.
Context `{P : Prims} {HP : PrimsOk P}.
Context (ke kd : AesKey) (key : list Z).
Context (Hkey : state key) (He : implements ke key) (Hd : implements kd key).

Lemma cbc_roundtrip data :
  bytes data → zlen data mod 16 = 0 →
  cbc_decrypt_zero_iv kd (cbc_encrypt_zero_iv ke data) = data ∧
  bytes (cbc_encrypt_zero_iv ke data) ∧ length (cbc_encrypt_zero_iv ke data) = length data.
Proof using He Hd Hkey.
  intros Hb Hm. unfold cbc_encrypt_zero_iv. rewrite cbc_decrypt_serial.
  assert (length data = (16 * (length data / 16))%nat) as Hl.
  { apply Nat2Z.inj. rewrite Nat2Z.inj_mul, Nat2Z.inj_div. apply Z.div_exact in Hm; [exact Hm|lia]. }
  destruct (cbc_chunks_roundtrip ke kd key Hkey He Hd (length data / 16) zero_block data state_zero Hb Hl)
    as (H1 & H2 & H3).
  rewrite H3. done.
Qed.

Lemma cfb_zero_roundtrip data :
  bytes data →
  cfb_decrypt_zero_iv kd (cfb_encrypt_zero_iv ke data) = data ∧
  bytes (cfb_encrypt_zero_iv ke data) ∧ length (cfb_encrypt_zero_iv ke data) = length data.
Proof using He Hd Hkey.
  intros Hb. apply (cfb_roundtrip ke kd key Hkey He Hd); [apply state_zero|lia|done].
Qed.
End modes_ok.

(** * Padding *)
Definition padded_len (n : Z) : Z := (n / 16 + 1) * 16.

Lemma pad16_eq buf :
  bytes buf →
  ∃ z, pad16 buf = buf ++ replicate (Z.to_nat (z - 1)) 0 ++ [z] ∧
       1 ≤ z ≤ 16 ∧ zlen buf + z = padded_len (zlen buf).
Proof.
  intros Hb. set (n := zlen buf).
  pose proof (Z.div_mod n 16 ltac:(lia)). pose proof (Z.mod_pos_bound n 16 ltac:(lia)).
  set (q := n / 16) in *. set (r := n mod 16) in *.
  assert ((if negb ((n + 1) mod 16 =? 0) then (n + 1) / 16 * 16 + 16 else n + 1) = padded_len n) as E.
  { unfold padded_len. fold q. destruct (decide (r = 15)) as [E|E].
    - assert ((n + 1) mod 16 = 0) as -> by (symmetry; apply (Z.mod_unique (n + 1) 16 (q + 1)); lia).
      cbn [negb Z.eqb]. lia.
    - assert ((n + 1) mod 16 = r + 1) as -> by (symmetry; apply (Z.mod_unique (n + 1) 16 q); lia).
      assert ((n + 1) / 16 = q) as -> by (symmetry; apply (Z.div_unique (n + 1) 16 q (r + 1)); lia).
      replace (r + 1 =? 0) with false by lia. cbn [negb]. lia. }
  unfold pad16. fold n. cbv zeta. rewrite E. unfold padded_len. fold q.
  exists ((q + 1) * 16 - n). split; [|lia].
  unfold vec_resize. fold n. rewrite take_ge by lia.
  rewrite wrap_small by (unfold is_u; lia).
  rewrite (insert_app_r_alt _ _ (Z.to_nat ((q + 1) * 16 - 1))) by lia. f_equal.
  replace (Z.to_nat ((q + 1) * 16 - n)) with (Z.to_nat ((q + 1) * 16 - n - 1) + 1)%nat by lia.
  rewrite replicate_add. cbn [replicate].
  replace (Z.to_nat ((q + 1) * 16 - 1) - length buf)%nat
    with (length (replicate (Z.to_nat ((q + 1) * 16 - n - 1)) 0%Z) + 0)%nat
    by (rewrite length_replicate; lia).
  rewrite insert_app_r. done.
Qed.

Lemma unpad16_pad16 buf :
  bytes buf →
  unpad16 (pad16 buf) = Some buf ∧ bytes (pad16 buf) ∧ zlen (pad16 buf) = padded_len (zlen buf).
Proof.
  intros Hb. destruct (pad16_eq buf Hb) as (z & -> & Hz & Hl).
  assert (zlen (buf ++ replicate (Z.to_nat (z - 1)) 0 ++ [z]) = zlen buf + z) as Hlen by len_lia.
  split_and!.
  - unfold unpad16. rewrite Hlen, app_assoc, last_snoc, <-app_assoc.
    replace (16 <? z) with false by lia. replace (zlen buf + z <? z) with false by lia. cbn [orb].
    by rewrite take_app_length' by lia.
  - apply Forall_app_2; [done|]. apply Forall_app_2; [by apply Forall_replicate|].
    constructor; [unfold is_u; lia|done].
  - by rewrite Hlen.
Qed.

(** Two implementations of the same key give the same ciphertext. *)
Section agree.
Context {K K' : Type} `{BlockCipher K, BlockCipher K'}.
Context (k : K) (k' : K') (key : list Z).
Context (Hkey : state key) (Hk : implements k key) (Hk' : implements k' key).

Lemma bc_encrypt_agree b : state b → bc_encrypt k b = bc_encrypt k' b.
Proof using Hk Hk'. intros Hb. destruct (Hk b Hb) as [-> _], (Hk' b Hb) as [-> _]. done. Qed.

Lemma cbc_agree n prev data :
  state prev → bytes data → length data = (16 * n)%nat →
  cbc_encrypt_chunks n k prev data = cbc_encrypt_chunks n k' prev data.
Proof using Hk Hk' Hkey.
  revert prev data. induction n as [|n IH]; intros prev data Hp Hb Hl; [done|].
  cbn [cbc_encrypt_chunks].
  assert (state (xor_bytes (take 16 data) prev)) as Hx
    by (apply state_xor; [split; [rewrite length_take; lia|by apply Forall_take]|done]).
  rewrite <-(bc_encrypt_agree _ Hx). f_equal.
  apply IH; [by apply (bc_encrypt_state k key)|by apply Forall_drop|rewrite length_drop; lia].
Qed.

Lemma cfb_agree data iv off :
  state iv → 0 ≤ off < 16 → bytes data →
  cfb_encrypt_loop k data iv off = cfb_encrypt_loop k' data iv off.
Proof using Hk Hk' Hkey.
  intros Hiv Hoff Hb. revert iv off Hiv Hoff.
  induction Hb as [|x data Hx Hb IH]; intros iv off Hiv Hoff; [done|].
  cbn [cfb_encrypt_loop]. rewrite <-(bc_encrypt_agree _ Hiv).
  set (iv' := if off =? 0 then bc_encrypt k iv else iv).
  assert (state iv') as [Hl' Hb'] by (unfold iv'; destruct (off =? 0); [by apply (bc_encrypt_state k key)|done]).
  f_equal. apply IH.
  - split; [by rewrite length_insert|]. apply Forall_insert; [done|]. apply byte_lxor; [done|].
    rewrite Forall_forall in Hb'. apply Hb', list_elem_of_In, nth_In. lia.
  - rewrite land_15. apply Z.mod_pos_bound. lia.
Qed.
End agree.

(** * Claims *)

(** Any two AES backends (table-driven code, the crate, whatever [Auto]
    resolves to on each CPU) interoperate under the same key: CBC with padding
    and CFB produce the same ciphertext on both and decrypt each other's output
    to the original data, for every length. *)
Theorem backends_interoperate `{P : Prims} {HP : PrimsOk P}
    (cpu1 cpu2 : bool) (b1 b2 : AesBackend) (key data : list Z) :
  16 ≤ zlen key → bytes key → bytes data →
  ∃ k1 k2, with_backend cpu1 key b1 = Done k1 ∧ with_backend cpu2 key b2 = Done k2 ∧
    unpad16 (cbc_decrypt_zero_iv k2 (cbc_encrypt_zero_iv k1 (pad16 data))) = Some data ∧
    cfb_decrypt_zero_iv k2 (cfb_encrypt_zero_iv k1 data) = data ∧
    cbc_encrypt_zero_iv k1 (pad16 data) = cbc_encrypt_zero_iv k2 (pad16 data) ∧
    cfb_encrypt_zero_iv k1 data = cfb_encrypt_zero_iv k2 data.
Proof.
  intros Hl Hbk Hb.
  destruct (with_backend_ok cpu1 key b1 Hl Hbk) as (k1 & -> & H1).
  destruct (with_backend_ok cpu2 key b2 Hl Hbk) as (k2 & -> & H2).
  assert (state (take 16 key)) as Hk by (split; [rewrite length_take; lia|by apply Forall_take]).
  destruct (unpad16_pad16 data Hb) as (Hu & Hpb & Hpl).
  assert (zlen (pad16 data) mod 16 = 0) as Hm by (rewrite Hpl; apply Z.mod_mul; lia).
  exists k1, k2. split_and!; [done|done| | | |].
  - destruct (cbc_roundtrip k1 k2 _ Hk H1 H2 (pad16 data) Hpb Hm) as (-> & _). done.
  - apply (cfb_zero_roundtrip k1 k2 _ Hk H1 H2 data Hb).
  - apply (cbc_agree k1 k2 _ Hk H1 H2); [apply state_zero|done|].
    apply Nat2Z.inj. rewrite Nat2Z.inj_mul, Nat2Z.inj_div. apply Z.div_exact in Hm; [exact Hm|lia].
  - apply (cfb_agree k1 k2 _ Hk H1 H2); [apply state_zero|lia|done].
Qed.

Lemma backends_interoperate_witness :
  ∃ k1 k2, with_backend false demo_key Auto = Done k1 ∧
           with_backend true demo_key Auto = Done k2 ∧
           AesKey_backend false k1 = Table ∧ AesKey_backend true k2 = Hardware ∧
           unpad16 (cbc_decrypt_zero_iv (P := demo_prims) k2
             (cbc_encrypt_zero_iv (H := AesKey_cipher (P := demo_prims)) k1 (pad16 demo_block))) = Some demo_block.
Proof.
  destruct (backends_interoperate (P := demo_prims) false true Auto Auto demo_key demo_block)
    as (k1 & k2 & H1 & H2 & H3 & _).
  - cbn. lia.
  - apply bytes_check. reflexivity.
  - apply bytes_check. reflexivity.
  - exists k1, k2. split; [exact H1|]. split; [exact H2|].
    injection H1 as <-. injection H2 as <-. split; [reflexivity|]. split; [reflexivity|exact H3].
Defined.
