(* ===== verification/Crypto.v ===== *)
(** Packet encryption: [src/src/crypto/mod.rs] and [src/src/crypto/aead.rs].

    One [Crypto] per role; the two roles' engines are built from mirrored keys
    ([Kdf.mirrored]).  The theorems relate the wire bytes one end produces to the
    plaintext the other recovers, for every cipher mode, authentication mode and
    pair of AES backends. *)
From stdpp Require Import strings.
From S2P Require Import Prelude Util Fips197 AesTable Prims Kdf Auth Cipher.

(** * AEAD *)
Definition NONCE_LEN : Z := 24.
Definition TAG_LEN : Z := 16.
Definition OVERHEAD : Z := NONCE_LEN + TAG_LEN.
Definition RESEED_EVERY : Z := 2 ^ 24.
Definition MAX_DATA_LEN : Z := 1800.

(** The per-thread nonce generator: [Rng] is the state of the external ChaCha12
    generator, [fill] its next 24 bytes, [seeded] a generator seeded from the OS. *)
Section nonce.
Context {Rng : Type} (fill : Rng → list Z * Rng).

Definition random_nonce (slot : option (Rng * Z)) (seeded : Rng) : list Z * option (Rng * Z) :=
  let '(rng, remaining) := default (seeded, RESEED_EVERY) slot in
  let '(rng, remaining) := if remaining =? 0 then (seeded, RESEED_EVERY) else (rng, remaining) in
  let remaining := remaining -⟨32⟩ 1 in
  let '(n, rng) := fill rng in
  (n, Some (rng, remaining)).
End nonce.

Section crypto.
Context `{P : Prims}.

Record Aead := mkAead { ae_enc : list Z; ae_dec : list Z }.

Definition Aead_new (enc_key dec_key : list Z) : outcome Aead :=
  e ← slice enc_key 0 32; d ← slice dec_key 0 32; Done (mkAead e d).

Definition encrypt_with_nonce (self : Aead) (buf nonce : list Z) : option (list Z) :=
  c ← xchacha_seal (ae_enc self) nonce buf; Some (nonce ++ c).

Definition Aead_decrypt_vec (self : Aead) (buf : list Z) : outcome (option (list Z)) :=
  if zlen buf <? OVERHEAD then Done None else
  nonce ← slice buf 0 NONCE_LEN;
  Done (xchacha_open (ae_dec self) nonce (drop (Z.to_nat NONCE_LEN) buf)).

(** * The engine *)
Record Crypto := mkCrypto {
  cr_cipher_mode : CipherMode;
  cr_auth_mode : AuthMode;
  cfb_legacy : bool;
  cr_keys : Keys;
  tx_xor_key : list Z;
  rx_xor_key : list Z;
  tx_aes : option AesKey;
  rx_aes : option AesKey;
  ecb_enc : option AesKey;
  ecb_dec : option AesKey;
  tx_auth : Authenticator;
  rx_auth : Authenticator;
  cr_aead : option Aead }.

Definition Crypto_with_backend (cpu : bool) (cipher_mode : CipherMode) (auth_mode : AuthMode)
    (cfb_legacy : bool) (keys : Keys) (backend : AesBackend) : outcome Crypto :=
  let auth_mode := if is_aead cipher_mode then AuthNone else auth_mode in
  aead ← (if is_aead cipher_mode
          then a ← Aead_new (cipher_key_encrypt keys) (cipher_key_decrypt keys); Done (Some a)
          else Done None);
  let hmac := bool_decide (auth_mode = HmacSha1Mode) in
  tx_key ← (if hmac then slice (cipher_key_encrypt keys) 0 16 else Done (normal_key keys));
  rx_key ← (if hmac then slice (cipher_key_decrypt keys) 0 16 else Done (normal_key keys));
  ks ← (if is_aes cipher_mode then
          a ← with_backend cpu tx_key backend;
          b ← with_backend cpu rx_key backend;
          e ← slice (cipher_key_encrypt keys) 0 16;
          c ← with_backend cpu e backend;
          f ← slice (cipher_key_decrypt keys) 0 16;
          d ← with_backend cpu f backend;
          Done (Some a, Some b, Some c, Some d)
        else Done (None, None, None, None));
  tx_au ← Authenticator_new auth_mode (hmac_key_encrypt keys);
  rx_au ← Authenticator_new auth_mode (hmac_key_decrypt keys);
  let '(a, b, c, d) := ks in
  Done (mkCrypto cipher_mode auth_mode cfb_legacy keys tx_key rx_key a b c d tx_au rx_au aead).

Definition is_hmac_used (self : Crypto) : bool := bool_decide (cr_auth_mode self = HmacSha1Mode).

(** Replace the first 16 bytes by their image. *)
Definition on_head16 (f : list Z → list Z) (buf : list Z) : outcome (list Z) :=
  b ← slice buf 0 16; put buf 0 (f b).

Definition cipher_encrypt (self : Crypto) (buf : list Z) : outcome (option (list Z)) :=
  match cr_cipher_mode self with
  | CipherNone | ChaCha20Poly1305 => Done (Some buf)
  | Xor => Done (Some (xor_in_place buf (tx_xor_key self)))
  | Aes128Cbc =>
      let buf := pad16 buf in
      k ← unwrap (tx_aes self); Done (Some (cbc_encrypt_zero_iv k buf))
  | Aes128Cfb =>
      if zlen buf <? 16 then Done None else
      buf ← (if cfb_legacy self then Done buf
             else k ← unwrap (ecb_enc self); on_head16 (AesKey_encrypt_block k) buf);
      k ← unwrap (tx_aes self); Done (Some (cfb_encrypt_zero_iv k buf))
  end.

Definition cipher_decrypt (self : Crypto) (buf : list Z) : outcome (option (list Z)) :=
  match cr_cipher_mode self with
  | CipherNone | ChaCha20Poly1305 => Done (Some buf)
  | Xor => Done (Some (xor_in_place buf (rx_xor_key self)))
  | Aes128Cbc =>
      if negb (zlen buf mod 16 =? 0) then Done None else
      k ← unwrap (rx_aes self);
      Done (unpad16 (cbc_decrypt_zero_iv k buf))
  | Aes128Cfb =>
      if zlen buf <? 16 then Done None else
      k ← unwrap (rx_aes self);
      let buf := cfb_decrypt_zero_iv k buf in
      if cfb_legacy self then Done (Some buf)
      else k ← unwrap (ecb_dec self); buf ← on_head16 (AesKey_decrypt_block k) buf; Done (Some buf)
  end.

(** [nonce] is the value [random_nonce] returns for this packet. *)
Definition encrypt_vec (self : Crypto) (nonce buf : list Z) : outcome (option (list Z)) :=
  if MAX_DATA_LEN <? zlen buf then Done None else
  match cr_aead self with
  | Some a => Done (encrypt_with_nonce a buf nonce)
  | None =>
      if is_hmac_used self then
        r ← cipher_encrypt self buf;
        match r with None => Done None | Some buf => t ← append_tag (tx_auth self) buf; Done (Some t) end
      else
        t ← append_tag (tx_auth self) buf;
        cipher_encrypt self t
  end.

Definition decrypt_vec (self : Crypto) (buf : list Z) : outcome (option (list Z)) :=
  if MAX_DATA_LEN <? zlen buf then Done None else
  match cr_aead self with
  | Some a => Aead_decrypt_vec a buf
  | None =>
      if is_hmac_used self then
        r ← auth_verify (rx_auth self) buf;
        match r with None => Done None | Some n => cipher_decrypt self (take (Z.to_nat n) buf) end
      else
        r ← cipher_decrypt self buf;
        match r with
        | None => Done None
        | Some buf =>
            v ← auth_verify (rx_auth self) buf;
            match v with None => Done None | Some n => Done (Some (take (Z.to_nat n) buf)) end
        end
  end.

Definition ecb_encrypt1 (self : Crypto) (block : list Z) : outcome (list Z) :=
  b ← slice block 0 16; k ← unwrap (ecb_enc self); put block 0 (AesKey_encrypt_block k b).
Definition ecb_decrypt1 (self : Crypto) (block : list Z) : outcome (list Z) :=
  b ← slice block 0 16; k ← unwrap (ecb_dec self); put block 0 (AesKey_decrypt_block k b).

(** [head[0] ^= gro_xor[0]; head[1] ^= gro_xor[1]] *)
Definition xor_head2 (self : Crypto) (head : list Z) : outcome (list Z) :=
  h0 ← idx head 0; g0 ← idx (gro_xor (cr_keys self)) 0; head ← put head 0 [Z.lxor h0 g0];
  h1 ← idx head 1; g1 ← idx (gro_xor (cr_keys self)) 1; put head 1 [Z.lxor h1 g1].

Definition gro_obfuscate_head (self : Crypto) (head : list Z) : outcome (list Z) :=
  match cr_cipher_mode self with
  | Xor | ChaCha20Poly1305 => xor_head2 self head
  | Aes128Cbc | Aes128Cfb => ecb_encrypt1 self head
  | CipherNone => Done head
  end.
Definition gro_deobfuscate_head (self : Crypto) (head : list Z) : outcome (list Z) :=
  match cr_cipher_mode self with
  | Xor | ChaCha20Poly1305 => xor_head2 self head
  | Aes128Cbc | Aes128Cfb => ecb_decrypt1 self head
  | CipherNone => Done head
  end.
End crypto.

(** * What an engine built from well-formed keys holds *)
Section engine.
Context `{P : Prims} {HP : PrimsOk P}.

Definition eff_auth (cm : CipherMode) (am : AuthMode) : AuthMode := if is_aead cm then AuthNone else am.
Definition key_tx (am : AuthMode) (keys : Keys) : list Z :=
  if bool_decide (am = HmacSha1Mode) then take 16 (cipher_key_encrypt keys) else normal_key keys.
Definition key_rx (am : AuthMode) (keys : Keys) : list Z :=
  if bool_decide (am = HmacSha1Mode) then take 16 (cipher_key_decrypt keys) else normal_key keys.

Record engine (cr : Crypto) (cm : CipherMode) (am : AuthMode) (legacy : bool) (keys : Keys) : Prop := {
  en_keys_ok : keys_ok keys;
  en_mode : cr_cipher_mode cr = cm;
  en_auth : cr_auth_mode cr = eff_auth cm am;
  en_legacy : cfb_legacy cr = legacy;
  en_keys : cr_keys cr = keys;
  en_txx : tx_xor_key cr = key_tx (eff_auth cm am) keys;
  en_rxx : rx_xor_key cr = key_rx (eff_auth cm am) keys;
  en_aes : is_aes cm = true → ∃ a b c d,
    tx_aes cr = Some a ∧ implements a (key_tx (eff_auth cm am) keys) ∧
    rx_aes cr = Some b ∧ implements b (key_rx (eff_auth cm am) keys) ∧
    ecb_enc cr = Some c ∧ implements c (take 16 (cipher_key_encrypt keys)) ∧
    ecb_dec cr = Some d ∧ implements d (take 16 (cipher_key_decrypt keys));
  en_txau : tx_auth cr = auth_for (eff_auth cm am) (hmac_key_encrypt keys);
  en_rxau : rx_auth cr = auth_for (eff_auth cm am) (hmac_key_decrypt keys);
  en_aead : cr_aead cr =
    if is_aead cm
    then Some (mkAead (take 32 (cipher_key_encrypt keys)) (take 32 (cipher_key_decrypt keys))) else None }.

Lemma state_take16 n l : arr n l → (16 ≤ n)%nat → state (take 16 l).
Proof. intros [Hl Hb] Hn. split; [rewrite length_take; lia|by apply Forall_take]. Qed.

Lemma state_key_tx am keys : keys_ok keys → state (key_tx am keys).
Proof.
  intros Hk. unfold key_tx. case_bool_decide; [eapply state_take16; [apply Hk|lia]|apply Hk].
Qed.
Lemma state_key_rx am keys : keys_ok keys → state (key_rx am keys).
Proof.
  intros Hk. unfold key_rx. case_bool_decide; [eapply state_take16; [apply Hk|lia]|apply Hk].
Qed.

Lemma slice_0_take (l : list Z) n z :
  z = Z.of_nat n → (n ≤ length l)%nat → slice l 0 z = Done (take n l).
Proof. intros -> Hn. rewrite slice_Done by lia. rewrite Z.sub_0_r, Nat2Z.id. done. Qed.

Lemma with_backend_16 cpu k b : state k → ∃ r, with_backend cpu k b = Done r ∧ implements r k.
Proof using HP.
  intros [Hl Hb]. destruct (with_backend_ok cpu k b) as (r & E & Hi); [lia|done|].
  rewrite take_ge in Hi by lia. by exists r.
Qed.

Lemma Crypto_with_backend_ok cpu cm am legacy keys backend :
  keys_ok keys →
  ∃ cr, Crypto_with_backend cpu cm am legacy keys backend = Done cr ∧ engine cr cm am legacy keys.
Proof using HP.
  intros Hk. unfold Crypto_with_backend. fold (eff_auth cm am). set (am' := eff_auth cm am).
  destruct (ko_cke keys Hk) as [Hl1 Hb1], (ko_ckd keys Hk) as [Hl2 Hb2].
  destruct (ko_hke keys Hk) as [Hl3 _], (ko_hkd keys Hk) as [Hl4 _].
  assert ((if is_aead cm
           then a ← Aead_new (cipher_key_encrypt keys) (cipher_key_decrypt keys); Done (Some a)
           else Done None)
          = Done (if is_aead cm
                  then Some (mkAead (take 32 (cipher_key_encrypt keys)) (take 32 (cipher_key_decrypt keys)))
                  else None)) as ->.
  { destruct (is_aead cm); [|done]. unfold Aead_new.
    rewrite !(slice_0_take _ 32 32 eq_refl) by lia. done. }
  rewrite bind_Done. cbv zeta.
  assert (∀ l, (16 ≤ length l)%nat →
    (if bool_decide (am' = HmacSha1Mode) then slice l 0 16 else Done (normal_key keys))
    = Done (if bool_decide (am' = HmacSha1Mode) then take 16 l else normal_key keys)) as Hsel.
  { intros l Hl. case_bool_decide; [|done]. by rewrite (slice_0_take l 16 16 eq_refl) by lia. }
  rewrite !Hsel by lia. rewrite !bind_Done.
  fold (key_tx am' keys) (key_rx am' keys).
  rewrite !Authenticator_new_Done by lia.
  destruct (is_aes cm) eqn:Ea.
  - destruct (with_backend_16 cpu _ backend (state_key_tx am' keys Hk)) as (a & -> & Ha).
    destruct (with_backend_16 cpu _ backend (state_key_rx am' keys Hk)) as (b & -> & Hb).
    rewrite !(slice_0_take _ 16 16 eq_refl) by lia. rewrite !bind_Done.
    destruct (with_backend_16 cpu (take 16 (cipher_key_encrypt keys)) backend) as (c & -> & Hc);
      [by eapply state_take16; [apply Hk|lia]|].
    rewrite !bind_Done.
    destruct (with_backend_16 cpu (take 16 (cipher_key_decrypt keys)) backend) as (d & -> & Hd);
      [by eapply state_take16; [apply Hk|lia]|].
    rewrite !bind_Done. eexists. split; [reflexivity|].
    constructor; try reflexivity; [exact Hk|]. intros _. exists a, b, c, d.
    exact (conj eq_refl (conj Ha (conj eq_refl (conj Hb (conj eq_refl (conj Hc (conj eq_refl Hd))))))).
  - rewrite !bind_Done. eexists. split; [reflexivity|]. constructor; try reflexivity; congruence.
Qed.

Lemma on_head16_Done f buf :
  (∀ b, state b → state (f b)) → 16 ≤ zlen buf → bytes buf →
  on_head16 f buf = Done (f (take 16 buf) ++ drop 16 buf).
Proof.
  intros Hf Hl Hb. unfold on_head16. rewrite (slice_0_take buf 16 16 eq_refl) by lia. rewrite bind_Done.
  destruct (Hf (take 16 buf)) as [Hlf _]; [split; [rewrite length_take; lia|by apply Forall_take]|].
  rewrite put_Done by lia. rewrite Hlf. done.
Qed.

Lemma keys_cross am ka kb : mirrored ka kb → key_rx am kb = key_tx am ka.
Proof. intros Hm. unfold key_rx, key_tx. by rewrite (mi_enc _ _ Hm), (mi_normal _ _ Hm). Qed.

(** The length of the ciphertext without tag. *)
Definition cipher_len (cm : CipherMode) (n : Z) : Z :=
  match cm with Aes128Cbc => padded_len n | _ => n end.

Section pair.
Context (A B : Crypto) (cm : CipherMode) (am : AuthMode) (legacy : bool) (ka kb : Keys).
Context (HA : engine A cm am legacy ka) (HB : engine B cm am legacy kb) (Hm : mirrored ka kb).

(** The block keys of the sender and of the receiver implement the same AES keys. *)
Lemma pair_keys :
  is_aes cm = true →
  ∃ t e r d, tx_aes A = Some t ∧ ecb_enc A = Some e ∧ rx_aes B = Some r ∧ ecb_dec B = Some d ∧
    ∃ k k', state k ∧ state k' ∧ implements t k ∧ implements r k ∧ implements e k' ∧ implements d k'.
Proof using HA HB Hm.
  intros Ha. destruct (en_aes _ _ _ _ _ HA Ha) as (t & _ & e & _ & Et & Ht & _ & _ & Ee & He & _).
  destruct (en_aes _ _ _ _ _ HB Ha) as (_ & r & _ & d & _ & _ & Er & Hr & _ & _ & Ed & Hd).
  exists t, e, r, d. split; [exact Et|]. split; [exact Ee|]. split; [exact Er|]. split; [exact Ed|].
  exists (key_tx (eff_auth cm am) ka), (take 16 (cipher_key_encrypt ka)).
  rewrite (keys_cross _ _ _ Hm) in Hr. rewrite <-(mi_enc _ _ Hm) in Hd.
  split; [apply state_key_tx, HA|]. split; [eapply state_take16; [apply HA|lia]|].
  exact (conj Ht (conj Hr (conj He Hd))).
Qed.

Lemma cbc_pair buf :
  cm = Aes128Cbc → bytes buf →
  ∃ w, cipher_encrypt A buf = Done (Some w) ∧ bytes w ∧ zlen w = padded_len (zlen buf) ∧
       cipher_decrypt B w = Done (Some buf).
Proof using HA HB Hm.
  intros Hcm Hb. destruct pair_keys as (t & e & r & d & Et & _ & Er & _ & k & k' & Hk & _ & Ht & Hr & _);
    [by rewrite Hcm|].
  unfold cipher_encrypt, cipher_decrypt.
  rewrite (en_mode _ _ _ _ _ HA), (en_mode _ _ _ _ _ HB), Hcm, Et, Er. cbn [unwrap].
  rewrite !bind_Done. destruct (unpad16_pad16 buf Hb) as (Hu & Hpb & Hpl).
  assert (zlen (pad16 buf) mod 16 = 0) as Hmod by (rewrite Hpl; apply Z.mod_mul; lia).
  destruct (cbc_roundtrip t r k Hk Ht Hr (pad16 buf) Hpb Hmod) as (Hd & Hwb & Hwl).
  eexists. split; [reflexivity|]. split; [exact Hwb|]. rewrite Hwl. split; [exact Hpl|].
  rewrite Hmod. cbn [Z.eqb negb]. rewrite bind_Done, Hd, Hu. done.
Qed.

Lemma cfb_pair buf :
  cm = Aes128Cfb → bytes buf → 16 ≤ zlen buf →
  ∃ w, cipher_encrypt A buf = Done (Some w) ∧ bytes w ∧ zlen w = zlen buf ∧
       cipher_decrypt B w = Done (Some buf).
Proof using HA HB Hm.
  intros Hcm Hb Hl.
  destruct pair_keys as (t & e & r & d & Et & Ee & Er & Ed & k & k' & Hk & Hk' & Ht & Hr & He & Hd);
    [by rewrite Hcm|].
  unfold cipher_encrypt, cipher_decrypt.
  rewrite (en_mode _ _ _ _ _ HA), (en_mode _ _ _ _ _ HB), Hcm, Et, Er, Ee, Ed. cbn [unwrap].
  rewrite (en_legacy _ _ _ _ _ HA), (en_legacy _ _ _ _ _ HB).
  replace (zlen buf <? 16) with false by lia. rewrite !bind_Done.
  assert (state (take 16 buf)) as Hs by (split; [rewrite length_take; lia|by apply Forall_take]).
  set (hd := AesKey_encrypt_block e (take 16 buf)).
  assert (state hd) as [Hhl Hhb] by (exact (bc_encrypt_state e k' Hk' He _ Hs)).
  set (buf' := if legacy then buf else hd ++ drop 16 buf).
  assert (bytes buf') as Hb' by (unfold buf'; destruct legacy; [done|apply Forall_app_2; [done|by apply Forall_drop]]).
  assert (length buf' = length buf) as Hl'.
  { unfold buf'. destruct legacy; [done|]. rewrite length_app, length_drop. lia. }
  assert ((if legacy then Done buf else on_head16 (AesKey_encrypt_block e) buf) = Done buf') as ->.
  { unfold buf'. destruct legacy; [done|]. apply on_head16_Done; [|lia|done].
    exact (bc_encrypt_state e k' Hk' He). }
  rewrite bind_Done. destruct (cfb_zero_roundtrip t r k Hk Ht Hr buf' Hb') as (Hdec & Hwb & Hwl).
  eexists. split; [reflexivity|]. split; [exact Hwb|]. rewrite Hwl, Hl'. split; [done|].
  replace (zlen buf <? 16) with false by lia. rewrite bind_Done, Hdec. unfold buf'.
  destruct legacy; [done|]. rewrite bind_Done.
  unfold on_head16.
  rewrite (slice_0_take _ 16 16 eq_refl), bind_Done, take_app_length' by (rewrite ?length_app; lia).
  assert (AesKey_decrypt_block d hd = take 16 buf) as -> by (exact (bc_decrypt_encrypt e d k' Hk' He Hd _ Hs)).
  rewrite put_Done by (rewrite ?length_app, ?length_take, ?length_drop; lia).
  rewrite bind_Done. do 2 f_equal. cbn [take app].
  replace (Z.to_nat (0 + zlen (take 16 buf))) with (length hd) by (rewrite length_take; lia).
  rewrite drop_app_length. apply take_drop.
Qed.

Lemma cipher_pair buf :
  bytes buf → ¬ (cm = Aes128Cfb ∧ zlen buf < 16) →
  ∃ w, cipher_encrypt A buf = Done (Some w) ∧ bytes w ∧ zlen w = cipher_len cm (zlen buf) ∧
       cipher_decrypt B w = Done (Some buf).
Proof using HA HB Hm.
  intros Hb Hn. destruct (decide (cm = Aes128Cbc)) as [E|].
  { replace (cipher_len cm (zlen buf)) with (padded_len (zlen buf)) by (by rewrite E).
    exact (cbc_pair buf E Hb). }
  destruct (decide (cm = Aes128Cfb)) as [E|].
  { replace (cipher_len cm (zlen buf)) with (zlen buf) by (by rewrite E).
    apply (cfb_pair buf E Hb). destruct (decide (zlen buf < 16)); [by exfalso; apply Hn|lia]. }
  exists (if decide (cm = Xor) then xor_in_place buf (tx_xor_key A) else buf).
  unfold cipher_encrypt, cipher_decrypt. rewrite (en_mode _ _ _ _ _ HA), (en_mode _ _ _ _ _ HB).
  assert (rx_xor_key B = tx_xor_key A) as Hx.
  { rewrite (en_rxx _ _ _ _ _ HB), (en_txx _ _ _ _ _ HA). by apply keys_cross. }
  assert (bytes (xor_in_place buf (tx_xor_key A))) as Hxb.
  { rewrite (en_txx _ _ _ _ _ HA).
    apply bytes_xor_in_place; [done|apply state_key_tx, HA]. }
  destruct cm; try done; cbn [cipher_len]; case_decide; try done; (split; [done|]); (split; [done|]).
  split; [by rewrite length_xor_in_place|]. by rewrite Hx, xor_in_place_twice.
Qed.

(** The tagged and encrypted length, and the packets the sender refuses. *)
Definition wire_len (cm : CipherMode) (am : AuthMode) (n : Z) : Z :=
  if is_aead cm then n + OVERHEAD
  else if bool_decide (am = HmacSha1Mode) then cipher_len cm n + tag_len am
  else cipher_len cm (n + tag_len am).
Definition refused (cm : CipherMode) (am : AuthMode) (n : Z) : bool :=
  (MAX_DATA_LEN <? n) ||
  (bool_decide (cm = Aes128Cfb) && ((if bool_decide (am = HmacSha1Mode) then n else n + tag_len am) <? 16)).

Lemma cfb_short buf : cm = Aes128Cfb → zlen buf < 16 → cipher_encrypt A buf = Done None.
Proof using HA.
  intros Hcm Hl. unfold cipher_encrypt. rewrite (en_mode _ _ _ _ _ HA), Hcm.
  by replace (zlen buf <? 16) with true by lia.
Qed.

Lemma hmac_used C keys :
  engine C cm am legacy keys → is_aead cm = false →
  is_hmac_used C = bool_decide (am = HmacSha1Mode) ∧ cr_aead C = None ∧ eff_auth cm am = am.
Proof.
  intros HC Hae. unfold is_hmac_used. rewrite (en_auth _ _ _ _ _ HC), (en_aead _ _ _ _ _ HC).
  unfold eff_auth. by rewrite Hae.
Qed.

Lemma tag_cross body : tag_of am (hmac_key_decrypt kb) body = tag_of am (hmac_key_encrypt ka) body.
Proof using Hm. by rewrite (mi_henc _ _ Hm). Qed.

Lemma aead_pair nonce m :
  is_aead cm = true → length nonce = 24%nat → bytes m → zlen m ≤ MAX_DATA_LEN →
  ∃ w, encrypt_vec A nonce m = Done (Some w) ∧ zlen w = zlen m + OVERHEAD ∧ (bytes nonce → bytes w) ∧
       decrypt_vec B w = Done (if MAX_DATA_LEN <? zlen w then None else Some m).
Proof using HA HB Hm HP.
  intros Hae Hn Hb Hl. unfold encrypt_vec. rewrite (en_aead _ _ _ _ _ HA), Hae.
  replace (MAX_DATA_LEN <? zlen m) with false by lia.
  destruct (ko_cke _ (en_keys_ok _ _ _ _ _ HA)) as [Hkl _].
  destruct (seal_ok (take 32 (cipher_key_encrypt ka)) nonce m) as (c & Es & Hcl & Hcb & Eo);
    [rewrite length_take; lia|done|done|unfold MAX_DATA_LEN in *; lia|].
  unfold encrypt_with_nonce. cbn [ae_enc]. rewrite Es. cbn [mbind option_bind].
  assert (zlen (nonce ++ c) = zlen m + OVERHEAD) as Hw by (rewrite zlen_app; unfold OVERHEAD, NONCE_LEN, TAG_LEN; lia).
  exists (nonce ++ c). split; [done|]. split; [done|]. split; [intros; by apply Forall_app|].
  unfold decrypt_vec. rewrite Hw.
  destruct (MAX_DATA_LEN <? zlen m + OVERHEAD) eqn:E; [done|].
  rewrite (en_aead _ _ _ _ _ HB), Hae. unfold Aead_decrypt_vec. rewrite Hw.
  replace (zlen m + OVERHEAD <? OVERHEAD) with false by lia.
  rewrite (slice_0_take _ 24 NONCE_LEN eq_refl) by (rewrite length_app; lia). rewrite bind_Done.
  change (Z.to_nat NONCE_LEN) with 24%nat.
  rewrite take_app_length', drop_app_length' by done. cbn [ae_dec].
  by rewrite <-(mi_enc _ _ Hm), Eo.
Qed.

Lemma hmac_pair nonce m :
  is_aead cm = false → am = HmacSha1Mode → refused cm am (zlen m) = false → bytes m →
  ∃ w, encrypt_vec A nonce m = Done (Some w) ∧ zlen w = wire_len cm am (zlen m) ∧ (bytes nonce → bytes w) ∧
       decrypt_vec B w = Done (if MAX_DATA_LEN <? zlen w then None else Some m).
Proof using HA HB Hm HP.
  intros Hae Ham Hr Hb. unfold refused in Hr. rewrite (bool_decide_true (am = HmacSha1Mode) Ham) in Hr.
  apply orb_false_iff in Hr as [Hr1 Hr2].
  destruct (hmac_used A ka HA Hae) as (HhA & HaA & Hea), (hmac_used B kb HB Hae) as (HhB & HaB & _).
  rewrite (bool_decide_true (am = HmacSha1Mode) Ham) in HhA, HhB.
  destruct (cipher_pair m Hb) as (c & Ec & Hcb & Hcl & Ed).
  { intros [E1 E2]. rewrite bool_decide_true in Hr2 by done. lia. }
  unfold encrypt_vec, decrypt_vec. rewrite Hr1, HaA, HhA, Ec, bind_Done.
  rewrite (en_txau _ _ _ _ _ HA), Hea, append_tag_Done, bind_Done.
  destruct (tag_of_ok am (hmac_key_encrypt ka) c) as [Htl Htb].
  eexists. split; [reflexivity|]. unfold wire_len. rewrite Hae, (bool_decide_true (am = HmacSha1Mode) Ham).
  split; [rewrite zlen_app, Hcl, Htl; done|]. split; [intros _; by apply Forall_app|].
  destruct (MAX_DATA_LEN <? zlen (c ++ tag_of am (hmac_key_encrypt ka) c)); [done|].
  rewrite HaB, HhB, (en_rxau _ _ _ _ _ HB), Hea, <-tag_cross, auth_verify_app, bind_Done.
  rewrite Nat2Z.id, take_app_length. exact Ed.
Qed.

Lemma mac_pair nonce m :
  is_aead cm = false → am ≠ HmacSha1Mode → refused cm am (zlen m) = false → bytes m →
  ∃ w, encrypt_vec A nonce m = Done (Some w) ∧ zlen w = wire_len cm am (zlen m) ∧ (bytes nonce → bytes w) ∧
       decrypt_vec B w = Done (if MAX_DATA_LEN <? zlen w then None else Some m).
Proof using HA HB Hm HP.
  intros Hae Ham Hr Hb. unfold refused in Hr. rewrite (bool_decide_false (am = HmacSha1Mode) Ham) in Hr.
  apply orb_false_iff in Hr as [Hr1 Hr2].
  destruct (hmac_used A ka HA Hae) as (HhA & HaA & Hea), (hmac_used B kb HB Hae) as (HhB & HaB & _).
  rewrite (bool_decide_false (am = HmacSha1Mode) Ham) in HhA, HhB.
  destruct (tag_of_ok am (hmac_key_encrypt ka) m) as [Htl Htb].
  set (t := m ++ tag_of am (hmac_key_encrypt ka) m).
  assert (zlen t = zlen m + tag_len am) as Hl by (unfold t; rewrite zlen_app, Htl; done).
  destruct (cipher_pair t) as (c & Ec & Hcb & Hcl & Ed).
  { by apply Forall_app. }
  { intros [E1 E2]. rewrite bool_decide_true in Hr2 by done. lia. }
  unfold encrypt_vec, decrypt_vec. rewrite Hr1, HaA, HhA.
  rewrite (en_txau _ _ _ _ _ HA), Hea, append_tag_Done, bind_Done. fold t. rewrite Ec.
  exists c. split; [done|]. unfold wire_len. rewrite Hae, (bool_decide_false (am = HmacSha1Mode) Ham).
  split; [by rewrite Hcl, Hl|]. split; [done|]. destruct (MAX_DATA_LEN <? zlen c); [done|].
  rewrite HaB, HhB, Ed, bind_Done, (en_rxau _ _ _ _ _ HB), Hea. unfold t.
  rewrite <-tag_cross, auth_verify_app, bind_Done, Nat2Z.id, take_app_length. done.
Qed.

Lemma encrypt_refused nonce m :
  is_aead cm = false → refused cm am (zlen m) = true → encrypt_vec A nonce m = Done None.
Proof using HA HP.
  intros Hae Hr. unfold encrypt_vec. destruct (MAX_DATA_LEN <? zlen m) eqn:E; [done|].
  unfold refused in Hr. rewrite E in Hr. cbn [orb] in Hr. apply andb_prop in Hr as [Hc Hr].
  apply bool_decide_eq_true in Hc.
  destruct (hmac_used A ka HA Hae) as (HhA & HaA & Hea). rewrite HaA, HhA. case_bool_decide.
  - rewrite cfb_short by (done || lia). done.
  - rewrite (en_txau _ _ _ _ _ HA), Hea, append_tag_Done, bind_Done. apply cfb_short; [done|].
    destruct (tag_of_ok am (hmac_key_encrypt ka) m) as [Htl _]. rewrite zlen_app, Htl. lia.
Qed.

Lemma packet_pair nonce m :
  length nonce = 24%nat → bytes m →
  if refused cm (eff_auth cm am) (zlen m) then encrypt_vec A nonce m = Done None
  else ∃ w, encrypt_vec A nonce m = Done (Some w) ∧ zlen w = wire_len cm am (zlen m) ∧
       (bytes nonce → bytes w) ∧ decrypt_vec B w = Done (if MAX_DATA_LEN <? zlen w then None else Some m).
Proof using HA HB Hm HP.
  intros Hn Hb. destruct (is_aead cm) eqn:Hae.
  - destruct (refused _ _ _) eqn:Hr; unfold refused in Hr;
      (rewrite (bool_decide_false (cm = Aes128Cfb)), andb_false_l, orb_false_r in Hr by (intros E; by rewrite E in Hae)).
    + unfold encrypt_vec. by rewrite Hr.
    + unfold wire_len. rewrite Hae. apply aead_pair; try done. lia.
  - replace (eff_auth cm am) with am by (unfold eff_auth; by rewrite Hae).
    destruct (refused _ _ _) eqn:Hr; [by apply encrypt_refused|].
    destruct (decide (am = HmacSha1Mode)); [by apply hmac_pair|by apply mac_pair].
Qed.
End pair.

(** * Untrusted input *)
Lemma on_head16_dec k key buf :
  state key → implements k key → 16 ≤ zlen buf → bytes buf →
  ∃ b, on_head16 (AesKey_decrypt_block k) buf = Done b ∧ bytes b ∧ zlen b = zlen buf.
Proof.
  intros Hkey Hk Hl Hb. rewrite on_head16_Done; [|exact (bc_decrypt_state k key Hkey Hk)|done|done].
  destruct (bc_decrypt_state k key Hkey Hk (take 16 buf)) as [Hsl Hsb];
    [split; [rewrite length_take; lia|by apply Forall_take]|].
  change (bc_decrypt k) with (AesKey_decrypt_block k) in Hsl, Hsb.
  eexists. split; [reflexivity|]. split; [apply Forall_app_2; [exact Hsb|by apply Forall_drop]|].
  rewrite zlen_app, Hsl, zlen_drop. lia.
Qed.

Lemma cipher_decrypt_total cr cm am legacy keys buf :
  engine cr cm am legacy keys → bytes buf →
  ∃ r, cipher_decrypt cr buf = Done r ∧ ∀ b, r = Some b → bytes b ∧ zlen b ≤ zlen buf.
Proof.
  intros He Hb. pose proof (en_keys_ok _ _ _ _ _ He) as Hk.
  unfold cipher_decrypt. rewrite (en_mode _ _ _ _ _ He). destruct cm.
  1,5: eexists; split; [reflexivity|]; intros b [= <-]; done.
  - eexists. split; [reflexivity|]. intros b [= <-]. rewrite length_xor_in_place. split; [|lia].
    rewrite (en_rxx _ _ _ _ _ He). destruct (state_key_rx (eff_auth Xor am) keys Hk) as [Hkl Hkb].
    apply bytes_xor_in_place; [done|by split].
  - destruct (en_aes _ _ _ _ _ He eq_refl) as (_ & r & _ & _ & _ & _ & Er & Hr & _).
    destruct (zlen buf mod 16 =? 0) eqn:E; cbn [negb]; [|by exists None].
    rewrite Er. cbn [unwrap]. rewrite bind_Done. eexists. split; [reflexivity|]. intros b Hu.
    apply Z.eqb_eq in E. rewrite cbc_decrypt_serial in Hu.
    destruct (cbc_decrypt_ok r _ (state_key_rx _ keys Hk) Hr (length buf / 16) zero_block buf) as [Hbb Hbl];
      [apply state_zero|done| |].
    { apply Nat2Z.inj. rewrite Nat2Z.inj_mul, Nat2Z.inj_div. apply Z.div_exact in E; [exact E|lia]. }
    destruct (unpad16_ok _ _ Hbb Hu) as [? ?]. split; [done|lia].
  - destruct (en_aes _ _ _ _ _ He eq_refl) as (_ & r & _ & d & _ & _ & Er & Hr & _ & _ & Ed & Hd).
    destruct (zlen buf <? 16) eqn:E; [by exists None|]. rewrite Er, Ed. cbn [unwrap]. rewrite !bind_Done.
    destruct (cfb_decrypt_ok r _ (state_key_rx _ keys Hk) Hr buf zero_block 0) as [Hbb Hbl];
      [apply state_zero|lia|done|].
    fold (cfb_decrypt_zero_iv r buf) in Hbb, Hbl.
    destruct (cfb_legacy cr); [eexists; split; [reflexivity|]; intros b [= <-]; split; [done|lia]|].
    destruct (on_head16_dec d (take 16 (cipher_key_decrypt keys)) (cfb_decrypt_zero_iv r buf))
      as (b & -> & Hb1 & Hb2); [eapply state_take16; [apply Hk|lia]|exact Hd|lia|done|].
    rewrite bind_Done. eexists. split; [reflexivity|]. intros b' [= <-]. split; [done|lia].
Qed.

Lemma auth_verify_total mode key data :
  bytes data →
  ∃ r, auth_verify (auth_for mode key) data = Done r ∧ ∀ n, r = Some n → 0 ≤ n ≤ zlen data.
Proof using HP.
  intros Hd. destruct (decide (tag_len mode ≤ zlen data)).
  - rewrite auth_verify_eq by (try done; by apply Forall_drop). eexists. split; [reflexivity|].
    intros n. case_bool_decide; [|done]. intros [= <-]. rewrite length_take. lia.
  - exists None. split; [|done]. unfold auth_verify. cbn [auth_for au_mode].
    by replace (zlen data <? tag_len mode) with true by lia.
Qed.

Lemma decrypt_vec_total cr cm am legacy keys buf :
  engine cr cm am legacy keys → bytes buf → ∃ r, decrypt_vec cr buf = Done r.
Proof using HP.
  intros He Hb. unfold decrypt_vec. destruct (MAX_DATA_LEN <? zlen buf); [by eexists|].
  destruct (cr_aead cr) as [a|].
  { unfold Aead_decrypt_vec. destruct (zlen buf <? OVERHEAD) eqn:E; [by eexists|].
    unfold OVERHEAD, NONCE_LEN, TAG_LEN in *. rewrite slice_Done by lia. by eexists. }
  rewrite (en_rxau _ _ _ _ _ He). destruct (is_hmac_used cr).
  - destruct (auth_verify_total (eff_auth cm am) (hmac_key_decrypt keys) buf Hb) as (r & -> & Hr).
    rewrite bind_Done. destruct r as [n|]; [|by eexists].
    destruct (cipher_decrypt_total cr cm am legacy keys (take (Z.to_nat n) buf) He) as (r' & -> & _);
      [by apply Forall_take|]. by eexists.
  - destruct (cipher_decrypt_total cr cm am legacy keys buf He Hb) as (r & -> & Hr).
    rewrite bind_Done. destruct r as [b|]; [|by eexists]. destruct (Hr b eq_refl) as [Hbb _].
    destruct (auth_verify_total (eff_auth cm am) (hmac_key_decrypt keys) b Hbb) as (v & -> & _).
    rewrite bind_Done. by destruct v; eexists.
Qed.
End engine.

Section gro.
Context `{P : Prims} {HP : PrimsOk P}.

Lemma xor_head2_Done cr h0 h1 rest :
  keys_ok (cr_keys cr) →
  xor_head2 cr (h0 :: h1 :: rest)
  = Done (Z.lxor h0 (nth 0 (gro_xor (cr_keys cr)) 0) :: Z.lxor h1 (nth 1 (gro_xor (cr_keys cr)) 0) :: rest).
Proof.
  intros Hk. destruct (ko_gro _ Hk) as [Hl _]. unfold xor_head2.
  exec_idx. exec_idx. rewrite put_Done by len_lia. rewrite bind_Done.
  cbn [length take drop app Z.to_nat]. change (Z.to_nat (0 + Z.of_nat 1)) with 1%nat. cbn [drop app].
  exec_idx. exec_idx. rewrite put_Done by len_lia. reflexivity.
Qed.

Lemma ecb1_Done k (F : AesKey → list Z → list Z) head :
  (∀ b, state b → state (F k b)) → 16 ≤ zlen head → bytes head →
  (b ← slice head 0 16; k ← unwrap (Some k); put head 0 (F k b))
  = Done (F k (take 16 head) ++ drop 16 head).
Proof.
  intros Hf Hl Hb. cbn [unwrap]. rewrite <-(on_head16_Done (F k) head Hf Hl Hb). unfold on_head16.
  destruct (slice head 0 16); done.
Qed.

Section pair.
Context (A B : Crypto) (cm : CipherMode) (am : AuthMode) (legacy : bool) (ka kb : Keys).
Context (HA : engine A cm am legacy ka) (HB : engine B cm am legacy kb) (Hm : mirrored ka kb).
Context (head : list Z) (Hl : 16 ≤ zlen head) (Hb : bytes head).

Lemma xor_head_pair :
  ∃ h, xor_head2 A head = Done h ∧ zlen h = zlen head ∧ bytes h ∧
       xor_head2 B h = Done head ∧ drop 16 h = drop 16 head.
Proof using HA HB Hm Hl Hb.
  destruct head as [|h0 [|h1 rest]]; [cbn in Hl; lia|cbn in Hl; lia|].
  apply Forall_cons in Hb as [Hb0 Hb']. apply Forall_cons in Hb' as [Hb1 Hbr].
  pose proof (en_keys_ok _ _ _ _ _ HA) as HkA. pose proof (en_keys_ok _ _ _ _ _ HB) as HkB.
  rewrite xor_head2_Done by (by rewrite (en_keys _ _ _ _ _ HA)).
  eexists. split; [reflexivity|]. rewrite (en_keys _ _ _ _ _ HA). destruct (ko_gro _ HkA) as [Hgl Hgb].
  assert (∀ i, (i < 256)%nat → is_byte (nth i (gro_xor ka) 0)) as Hg.
  { intros i Hi. rewrite Forall_forall in Hgb. apply Hgb, list_elem_of_In, nth_In. lia. }
  split_and!; [len_lia| | |done].
  - repeat (apply Forall_cons_2; [apply byte_lxor; [done|apply Hg; lia]|]). done.
  - rewrite xor_head2_Done by (by rewrite (en_keys _ _ _ _ _ HB)).
    by rewrite (en_keys _ _ _ _ _ HB), <-(mi_gro _ _ Hm), !lxor_cancel_r.
Qed.

Lemma ecb_head_pair :
  is_aes cm = true →
  ∃ h, ecb_encrypt1 A head = Done h ∧ zlen h = zlen head ∧ bytes h ∧
       ecb_decrypt1 B h = Done head ∧ drop 16 h = drop 16 head.
Proof using HA HB Hm Hl Hb.
  intros Ha. destruct (pair_keys A B cm am legacy ka kb HA HB Hm Ha)
    as (t & e & r & d & _ & Ee & _ & Ed & k & k' & _ & Hk' & _ & _ & He & Hd).
  assert (state (take 16 head)) as Hs by (split; [rewrite length_take; lia|by apply Forall_take]).
  pose proof (bc_encrypt_state e k' Hk' He _ Hs) as [Hel Heb].
  pose proof (bc_decrypt_encrypt e d k' Hk' He Hd _ Hs) as Hde.
  unfold ecb_encrypt1, ecb_decrypt1. rewrite Ee, Ed.
  rewrite (ecb1_Done e AesKey_encrypt_block) by first [exact (bc_encrypt_state e k' Hk' He)|assumption].
  cbn [bc_encrypt bc_decrypt AesKey_cipher] in Hel, Heb, Hde.
  set (hd := AesKey_encrypt_block e (take 16 head)) in *.
  assert (bytes (hd ++ drop 16 head)) as Hbh by (apply Forall_app_2; [exact Heb|by apply Forall_drop]).
  assert (zlen (hd ++ drop 16 head) = zlen head) as Hlh by (rewrite zlen_app, Hel, zlen_drop; lia).
  eexists. split; [reflexivity|]. split_and!; [exact Hlh|exact Hbh| |by rewrite drop_app_length'].
  rewrite (ecb1_Done d AesKey_decrypt_block); [|exact (bc_decrypt_state d k' Hk' Hd)|lia|exact Hbh].
  rewrite take_app_length', drop_app_length', Hde by done. by rewrite take_drop.
Qed.

(** Obfuscation by one end and deobfuscation by the other. *)
Lemma gro_head_pair :
  ∃ h, gro_obfuscate_head A head = Done h ∧ zlen h = zlen head ∧ bytes h ∧
       gro_deobfuscate_head B h = Done head ∧ drop 16 h = drop 16 head.
Proof using HA HB Hm Hl Hb.
  unfold gro_obfuscate_head, gro_deobfuscate_head.
  rewrite (en_mode _ _ _ _ _ HA), (en_mode _ _ _ _ _ HB).
  pose proof xor_head_pair as Hx. pose proof ecb_head_pair as He.
  destruct (decide (cm = CipherNone)) as [Ec|]; [rewrite Ec; by exists head|].
  destruct cm; first [exact Hx|exact (He eq_refl)|done].
Qed.
End pair.
End gro.

(** * Claims *)

(** C19. Packet encryption round trip.  For every cipher mode, authentication mode,
    legacy-CFB setting and pair of AES backends, engines built from mirrored keys
    never abort; the sender refuses exactly the packets over 1800 bytes and the
    CFB inputs under 16 bytes; otherwise the wire packet has the stated length
    and the peer recovers the plaintext, unless the wire packet itself exceeds
    1800 bytes, in which case the peer drops it. *)
Theorem packet_roundtrip `{P : Prims} {HP : PrimsOk P}
    (cpuA cpuB : bool) (cm : CipherMode) (am : AuthMode) (legacy : bool) (ka kb : Keys)
    (bA bB : AesBackend) (nonce m : list Z) :
  keys_ok ka → keys_ok kb → mirrored ka kb → length nonce = 24%nat → bytes m →
  ∃ A B, Crypto_with_backend cpuA cm am legacy ka bA = Done A ∧
         Crypto_with_backend cpuB cm am legacy kb bB = Done B ∧
    if refused cm (eff_auth cm am) (zlen m) then encrypt_vec A nonce m = Done None
    else ∃ w, encrypt_vec A nonce m = Done (Some w) ∧ zlen w = wire_len cm am (zlen m) ∧
         decrypt_vec B w = Done (if MAX_DATA_LEN <? zlen w then None else Some m).
Proof.
  intros Hka Hkb Hm Hn Hb.
  destruct (Crypto_with_backend_ok cpuA cm am legacy ka bA Hka) as (A & EA & HA).
  destruct (Crypto_with_backend_ok cpuB cm am legacy kb bB Hkb) as (B & EB & HB).
  exists A, B. split; [exact EA|]. split; [exact EB|].
  pose proof (packet_pair A B cm am legacy ka kb HA HB Hm nonce m Hn Hb) as H.
  destruct (refused cm (eff_auth cm am) (zlen m)); [exact H|].
  destruct H as (w & Ew & Hl & _ & Hd). exists w. exact (conj Ew (conj Hl Hd)).
Qed.

Definition demo_keys : Keys :=
  mkKeys demo_key (replicate 64 3) (replicate 64 5) (replicate 64 7) (replicate 64 11) (replicate 256 13).
Definition demo_keys' : Keys :=
  mkKeys demo_key (replicate 64 5) (replicate 64 3) (replicate 64 11) (replicate 64 7) (replicate 256 13).
Lemma demo_keys_ok : keys_ok demo_keys ∧ keys_ok demo_keys' ∧ mirrored demo_keys demo_keys'.
Proof. split; [|split]; constructor; try (split; [reflexivity|apply bytes_check; reflexivity]); reflexivity. Qed.

Lemma packet_roundtrip_witness :
  ∃ A B, Crypto_with_backend (P := demo_prims) false Aes128Cfb HmacSha1Mode false demo_keys Auto = Done A ∧
         Crypto_with_backend (P := demo_prims) true Aes128Cfb HmacSha1Mode false demo_keys' Auto = Done B ∧
    ∃ w, encrypt_vec (P := demo_prims) A (replicate 24 0) (demo_block ++ [1; 2; 3]) = Done (Some w) ∧
         zlen w = 39 ∧ decrypt_vec (P := demo_prims) B w = Done (Some (demo_block ++ [1; 2; 3])).
Proof.
  destruct demo_keys_ok as (H1 & H2 & H3).
  destruct (packet_roundtrip (P := demo_prims) false true Aes128Cfb HmacSha1Mode false demo_keys demo_keys'
              Auto Auto (replicate 24 0) (demo_block ++ [1; 2; 3]) H1 H2 H3 eq_refl
              ltac:(apply bytes_check; reflexivity)) as (A & B & EA & EB & H).
  exists A, B. split; [exact EA|]. split; [exact EB|]. destruct H as (w & Ew & Hl & Hd).
  exists w. split; [exact Ew|]. split; [exact Hl|]. rewrite Hl in Hd. exact Hd.
Defined.

(** C32. Decryption of untrusted bytes never aborts: whatever arrives from the
    network, in every mode, [decrypt] returns a plaintext or [None]. *)
Theorem decrypt_never_panics `{P : Prims} {HP : PrimsOk P}
    (cpu : bool) (cm : CipherMode) (am : AuthMode) (legacy : bool) (keys : Keys)
    (backend : AesBackend) (wire : list Z) :
  keys_ok keys → bytes wire →
  ∃ cr r, Crypto_with_backend cpu cm am legacy keys backend = Done cr ∧ decrypt_vec cr wire = Done r.
Proof.
  intros Hk Hb. destruct (Crypto_with_backend_ok cpu cm am legacy keys backend Hk) as (cr & E & He).
  destruct (decrypt_vec_total cr cm am legacy keys wire He Hb) as (r & Er).
  exists cr, r. split; [exact E|exact Er].
Qed.

Lemma decrypt_never_panics_witness :
  ∃ cr, Crypto_with_backend (P := demo_prims) false Aes128Cbc Md5 false demo_keys Table = Done cr ∧
        ∃ r, decrypt_vec (P := demo_prims) cr demo_block = Done r.
Proof.
  destruct (decrypt_never_panics (P := demo_prims) false Aes128Cbc Md5 false demo_keys Table demo_block)
    as (cr & r & E & Er).
  - apply demo_keys_ok.
  - apply bytes_check. reflexivity.
  - exists cr. split; [exact E|]. exists r. exact Er.
Defined.

(** The nonce counter: a generator serves at most 2^24 nonces, then a freshly
    seeded one replaces it, and the countdown never underflows. *)
Lemma random_nonce_reseeds {Rng} (fill : Rng → list Z * Rng) slot seeded n slot' :
  (∀ r k, slot = Some (r, k) → 0 ≤ k < RESEED_EVERY) →
  random_nonce fill slot seeded = (n, slot') →
  ∃ src left', n = (fill src).1 ∧ slot' = Some ((fill src).2, left') ∧ 0 ≤ left' < RESEED_EVERY ∧
    match slot with
    | Some (r, k) => if k =? 0 then src = seeded ∧ left' = RESEED_EVERY - 1 else src = r ∧ left' = k - 1
    | None => src = seeded ∧ left' = RESEED_EVERY - 1
    end.
Proof.
  unfold random_nonce, RESEED_EVERY. intros Hs H.
  destruct slot as [[r k]|]; unfold from_option, id in H; cbv beta iota zeta in H.
  - specialize (Hs r k eq_refl). destruct (k =? 0) eqn:E; cbv beta iota zeta in H.
    + destruct (fill seeded) as [n0 r0] eqn:Ef. injection H as <- <-. exists seeded, (2 ^ 24 - 1).
      rewrite Ef. split_and!; done.
    + destruct (fill r) as [n0 r0] eqn:Ef. injection H as <- <-. exists r, (k - 1). rewrite Ef.
      assert (wrap 32 (k - 1) = k - 1) as -> by (apply wrap_small; unfold is_u; lia).
      split_and!; done || lia.
  - change (2 ^ 24 =? 0) with false in H. cbv beta iota in H.
    destruct (fill seeded) as [n0 r0] eqn:Ef. injection H as <- <-. exists seeded, (2 ^ 24 - 1).
    rewrite Ef. split_and!; done.
Qed.
