(* ===== verification/Wire.v ===== *)
(** Application-layer framing: [src/src/wire.rs].

    Bare (handshake) and safer (data, heartbeat) plaintexts, the handshake and data
    payloads, and the [--fix-gro] length prefix that lets a receiver split a burst
    the kernel merged.  Parsers return [Done None] on short or foreign input; that
    they never panic is part of the theorems. *)
From S2P Require Import Prelude Util Fips197 Prims Kdf Auth Cipher Crypto.

Definition TYPE_HEARTBEAT : Z := 104.
Definition TYPE_DATA : Z := 100.
Definition BARE_MARKER : Z := 98.
Definition BARE_HEADER_LEN : Z := 8 + 8 + 1.
Definition SAFER_HEADER_LEN : Z := 4 + 4 + 8 + 1 + 1.
Definition HANDSHAKE_LEN : Z := 12.

Definition read_u16_be (p : list Z) : outcome Z := s ← slice p 0 2; Done (from_be s).
Definition read_u32_be (p : list Z) : outcome Z := s ← slice p 0 4; Done (from_be s).
Definition read_u64_be (p : list Z) : outcome Z := s ← slice p 0 8; Done (from_be s).

(** [to_ne_bytes] on a little-endian host. *)
Definition build_bare (iv padding : Z) (payload : list Z) : list Z :=
  to_le 8 iv ++ to_le 8 padding ++ [BARE_MARKER] ++ payload.

Definition parse_bare (plain : list Z) : outcome (option (list Z)) :=
  if zlen plain <? BARE_HEADER_LEN then Done None else
  m ← idx plain 16;
  if negb (m =? BARE_MARKER) then Done None else
  r ← slice_from plain BARE_HEADER_LEN; Done (Some r).

Definition build_handshake (id1 id2 id3 : Z) : list Z := to_be 4 id1 ++ to_be 4 id2 ++ to_be 4 id3.

Definition parse_handshake (data : list Z) : outcome (option (Z * Z * Z)) :=
  if zlen data <? HANDSHAKE_LEN then Done None else
  d0 ← slice_from data 0; a ← read_u32_be d0;
  d4 ← slice_from data 4; b ← read_u32_be d4;
  d8 ← slice_from data 8; c ← read_u32_be d8;
  Done (Some (a, b, c)).

Record SaferHeader := mkSaferHeader {
  sh_my_id : Z; sh_oppsite_id : Z; sh_seq : Z; sh_ptype : Z; sh_roller : Z }.

(** [build_safer] and [build_safer_into]: the output buffer is cleared first. *)
Definition build_safer (h : SaferHeader) (payload : list Z) : list Z :=
  to_be 4 (sh_my_id h) ++ to_be 4 (sh_oppsite_id h) ++ to_be 8 (sh_seq h) ++
  [sh_ptype h] ++ [sh_roller h] ++ payload.

Record SaferIds := mkSaferIds { si_oppsite_id : Z; si_my_id : Z; si_seq : Z }.

Definition parse_safer_ids (plain : list Z) : outcome (option SaferIds) :=
  if zlen plain <? 16 then Done None else
  p0 ← slice_from plain 0; o ← read_u32_be p0;
  p4 ← slice_from plain 4; m ← read_u32_be p4;
  p8 ← slice_from plain 8; s ← read_u64_be p8;
  Done (Some (mkSaferIds o m s)).

Definition parse_safer_body (plain : list Z) : outcome (option (Z * Z * list Z)) :=
  if zlen plain <? SAFER_HEADER_LEN then Done None else
  ptype ← idx plain 16;
  if negb (ptype =? TYPE_HEARTBEAT) && negb (ptype =? TYPE_DATA) then Done None else
  roller ← idx plain 17;
  payload ← slice_from plain SAFER_HEADER_LEN;
  Done (Some (ptype, roller, payload)).

Definition build_data_payload (conv : Z) (data : list Z) : list Z := to_be 4 conv ++ data.

Definition parse_data_payload (data : list Z) : outcome (option (Z * list Z)) :=
  if zlen data <? 4 then Done None else
  c ← read_u32_be data; d ← slice_from data 4; Done (Some (c, d)).

Section gro.
Context `{P : Prims}.

Definition gro_wrap_in_place (crypto : Crypto) (buf : list Z) : outcome (list Z) :=
  let len := zlen buf in
  let buf := [0; 0] ++ buf in
  buf ← put buf 0 (to_be 2 (wrap 16 len));
  if (16 <=? zlen buf) || negb (is_aes (cr_cipher_mode crypto))
  then gro_obfuscate_head crypto buf else Done buf.

(** State of the loop: the buffer, the position, the bytes left, the pairs found.
    Every pass consumes at least two bytes, so [length buf] passes are enough
    ([gro_unwrap_fuel]). *)
Fixpoint gro_unwrap_loop (fuel : nat) (crypto : Crypto) (buf : list Z) (pos remaining : Z)
    (out : list (Z * Z)) : outcome (list Z * list (Z * Z)) :=
  match fuel with
  | O => Done (buf, out)
  | S fuel =>
      if 16 <=? remaining then
        head ← slice buf pos (pos + 16);
        head ← gro_deobfuscate_head crypto head;
        buf ← put buf pos head;
        b ← slice_from buf pos;
        single_len ← read_u16_be b;
        let pos := pos + 2 in
        let remaining := remaining - 2 in
        if remaining <? single_len then Done (buf, out)
        else if MAX_DATA_LEN <? single_len then Done (buf, out)
        else gro_unwrap_loop fuel crypto buf (pos + single_len) (remaining - single_len)
               (out ++ [(pos, single_len)])
      else Done (buf, out)
  end.
Definition gro_unwrap (crypto : Crypto) (buf : list Z) : outcome (list Z * list (Z * Z)) :=
  gro_unwrap_loop (length buf) crypto buf 0 (zlen buf) [].
End gro.

(** * Reading integers back *)
Lemma read_u32_app v rest : is_u 32 v → read_u32_be (to_be 4 v ++ rest) = Done v.
Proof.
  intros Hv. unfold read_u32_be. rewrite slice_app_head by (by rewrite zlen_to_be).
  rewrite bind_Done, from_to_be by done. done.
Qed.
Lemma read_u64_app v rest : is_u 64 v → read_u64_be (to_be 8 v ++ rest) = Done v.
Proof.
  intros Hv. unfold read_u64_be. rewrite slice_app_head by (by rewrite zlen_to_be).
  rewrite bind_Done, from_to_be by done. done.
Qed.
Lemma read_u16_app v rest : is_u 16 v → read_u16_be (to_be 2 v ++ rest) = Done v.
Proof.
  intros Hv. unfold read_u16_be. rewrite slice_app_head by (by rewrite zlen_to_be).
  rewrite bind_Done, from_to_be by done. done.
Qed.

Lemma slice_from_0 {A} (l : list A) : slice_from l 0 = Done l.
Proof. by rewrite slice_from_Done by lia. Qed.

Lemma parse_build_bare iv padding payload : parse_bare (build_bare iv padding payload) = Done (Some payload).
Proof.
  unfold parse_bare, build_bare, BARE_HEADER_LEN. exec_if.
  rewrite idx_Done by len_lia. rewrite bind_Done.
  replace (nth (Z.to_nat 16) (to_le 8 iv ++ to_le 8 padding ++ [BARE_MARKER] ++ payload) 0) with BARE_MARKER.
  - rewrite Z.eqb_refl. cbn [negb]. rewrite !app_assoc, slice_from_app by len_lia. done.
  - reflexivity.
Qed.

Lemma parse_build_handshake a b c :
  is_u 32 a → is_u 32 b → is_u 32 c → parse_handshake (build_handshake a b c) = Done (Some (a, b, c)).
Proof.
  intros Ha Hb Hc. unfold parse_handshake, build_handshake, HANDSHAKE_LEN. exec_if.
  rewrite slice_from_0, bind_Done, read_u32_app, bind_Done by done.
  rewrite (slice_from_app (to_be 4 a) _ 4), bind_Done, read_u32_app, bind_Done by (done || len_lia).
  rewrite app_assoc, (slice_from_app (to_be 4 a ++ to_be 4 b)), bind_Done by len_lia.
  rewrite <-(app_nil_r (to_be 4 c)), read_u32_app by done. done.
Qed.

Definition safer_header_ok (h : SaferHeader) : Prop :=
  is_u 32 (sh_my_id h) ∧ is_u 32 (sh_oppsite_id h) ∧ is_u 64 (sh_seq h) ∧
  is_byte (sh_ptype h) ∧ is_byte (sh_roller h).

Lemma parse_build_safer_ids h payload :
  safer_header_ok h →
  parse_safer_ids (build_safer h payload)
  = Done (Some (mkSaferIds (sh_my_id h) (sh_oppsite_id h) (sh_seq h))).
Proof.
  intros (Hm & Ho & Hs & _). unfold parse_safer_ids, build_safer. exec_if.
  rewrite slice_from_0, bind_Done, read_u32_app, bind_Done by done.
  rewrite (slice_from_app (to_be 4 (sh_my_id h)) _ 4), bind_Done, read_u32_app, bind_Done by (done || len_lia).
  rewrite app_assoc, (slice_from_app (to_be 4 _ ++ to_be 4 _)), bind_Done, read_u64_app by (done || len_lia).
  done.
Qed.

Lemma parse_build_safer_body h payload :
  parse_safer_body (build_safer h payload)
  = Done (if bool_decide (sh_ptype h = TYPE_HEARTBEAT ∨ sh_ptype h = TYPE_DATA)
          then Some (sh_ptype h, sh_roller h, payload) else None).
Proof.
  unfold parse_safer_body, build_safer, SAFER_HEADER_LEN. exec_if.
  set (pre := to_be 4 (sh_my_id h) ++ to_be 4 (sh_oppsite_id h) ++ to_be 8 (sh_seq h)).
  replace (to_be 4 (sh_my_id h) ++ to_be 4 (sh_oppsite_id h) ++ to_be 8 (sh_seq h) ++
    [sh_ptype h] ++ [sh_roller h] ++ payload) with ((pre ++ [sh_ptype h; sh_roller h]) ++ payload)
    by (unfold pre; by rewrite <-!app_assoc).
  assert (length pre = 16%nat) as Hl by (unfold pre; autorewrite with lens; lia).
  rewrite (idx_Done _ 16), bind_Done by len_lia.
  replace (nth (Z.to_nat 16) ((pre ++ [sh_ptype h; sh_roller h]) ++ payload) 0) with (sh_ptype h)
    by (rewrite <-app_assoc, app_nth2 by lia; by rewrite Hl).
  case_bool_decide as E.
  - replace (negb (sh_ptype h =? TYPE_HEARTBEAT) && negb (sh_ptype h =? TYPE_DATA)) with false by lia.
    rewrite (idx_Done _ 17), bind_Done by len_lia.
    replace (nth (Z.to_nat 17) ((pre ++ [sh_ptype h; sh_roller h]) ++ payload) 0) with (sh_roller h)
      by (rewrite <-app_assoc, app_nth2 by lia; by rewrite Hl).
    rewrite slice_from_app by len_lia. done.
  - replace (negb (sh_ptype h =? TYPE_HEARTBEAT) && negb (sh_ptype h =? TYPE_DATA)) with true by lia. done.
Qed.

Lemma parse_build_data conv data :
  is_u 32 conv → parse_data_payload (build_data_payload conv data) = Done (Some (conv, data)).
Proof.
  intros Hc. unfold parse_data_payload, build_data_payload. exec_if.
  rewrite read_u32_app, bind_Done, slice_from_app by (done || len_lia). done.
Qed.

(** * Splitting merged bursts *)
Section gro_proofs.
Context `{P : Prims} {HP : PrimsOk P}.

Lemma xor_head2_local cr head tail :
  2 ≤ zlen head → keys_ok (cr_keys cr) →
  xor_head2 cr (head ++ tail) = (h ← xor_head2 cr head; Done (h ++ tail)).
Proof.
  intros Hl Hk. destruct head as [|a [|b head]]; [cbn in Hl; lia|cbn in Hl; lia|].
  cbn [app]. rewrite !xor_head2_Done by done. done.
Qed.

(** [gro_obfuscate_head] only touches the first 16 bytes. *)
Lemma gro_obfuscate_local A cm am legacy ka head tail :
  engine A cm am legacy ka → zlen head = 16 → bytes head → bytes tail →
  gro_obfuscate_head A (head ++ tail) = (h ← gro_obfuscate_head A head; Done (h ++ tail)).
Proof using HP.
  intros HA Hl Hb Ht. unfold gro_obfuscate_head. rewrite (en_mode _ _ _ _ _ HA).
  assert (keys_ok (cr_keys A)) as Hk by (rewrite (en_keys _ _ _ _ _ HA); apply HA).
  pose proof (xor_head2_local A head tail ltac:(lia) Hk) as Hx.
  destruct cm eqn:Ecm; try exact Hx; [done|..]; unfold ecb_encrypt1;
    destruct (en_aes _ _ _ _ _ HA eq_refl) as (_ & _ & c & _ & _ & _ & _ & _ & Ec & Hc & _);
    assert (state (take 16 (cipher_key_encrypt ka))) as Hkc by (eapply state_take16; [apply HA|lia]);
    rewrite Ec;
    rewrite (ecb1_Done c AesKey_encrypt_block (head ++ tail))
      by first [exact (bc_encrypt_state c _ Hkc Hc)|rewrite zlen_app; lia|by apply Forall_app_2];
    rewrite (ecb1_Done c AesKey_encrypt_block head)
      by first [exact (bc_encrypt_state c _ Hkc Hc)|lia|assumption];
    rewrite bind_Done, take_app_length', drop_app_length', !take_ge, !drop_ge by lia;
    by rewrite app_nil_r.
Qed.

Section pair.
Context (A B : Crypto) (cm : CipherMode) (am : AuthMode) (legacy : bool) (ka kb : Keys).
Context (HA : engine A cm am legacy ka) (HB : engine B cm am legacy kb) (Hm : mirrored ka kb).

(** A packet the wrapper can carry: long enough to be obfuscated as a block, and
    within the receiver's limit. *)
Definition wrappable (w : list Z) : Prop := bytes w ∧ 14 ≤ zlen w ≤ MAX_DATA_LEN.
Definition framed (w : list Z) : list Z := to_be 2 (zlen w) ++ w.

Lemma zlen_framed w : zlen (framed w) = 2 + zlen w.
Proof. unfold framed. rewrite zlen_app, zlen_to_be. lia. Qed.

Lemma wrap_spec_len w :
  bytes w → 14 ≤ zlen w < 65536 →
  ∃ h, gro_wrap_in_place A w = Done (h ++ drop 16 (framed w)) ∧ zlen h = 16 ∧ bytes h ∧
       gro_deobfuscate_head B h = Done (take 16 (framed w)).
Proof using HA HB Hm HP.
  intros Hb Hl. unfold gro_wrap_in_place.
  rewrite wrap_small by (unfold is_u; lia).
  assert (put ([0; 0] ++ w) 0 (to_be 2 (zlen w)) = Done (framed w)) as ->.
  { apply (put_app_mid [] [0; 0] w); [done|]. by rewrite length_to_be. }
  rewrite bind_Done.
  pose proof (zlen_framed w) as Hfl.
  assert (bytes (framed w)) as Hfb by (apply Forall_app_2; [apply bytes_to_be|done]).
  replace (16 <=? zlen (framed w)) with true by blia. cbn [orb].
  pose proof (gro_obfuscate_local A cm am legacy ka (take 16 (framed w)) (drop 16 (framed w)) HA
    ltac:(rewrite length_take; lia) ltac:(by apply Forall_take) ltac:(by apply Forall_drop)) as Eloc.
  rewrite take_drop in Eloc. rewrite Eloc.
  destruct (gro_head_pair A B cm am legacy ka kb HA HB Hm (take 16 (framed w)))
    as (h & -> & Hhl & Hhb & Hd & _); [rewrite length_take; lia|by apply Forall_take|].
  exists h. rewrite bind_Done. split_and!; [done|rewrite Hhl, length_take; lia|done|done].
Qed.

Lemma wrap_spec w :
  wrappable w →
  ∃ h, gro_wrap_in_place A w = Done (h ++ drop 16 (framed w)) ∧ zlen h = 16 ∧ bytes h ∧
       gro_deobfuscate_head B h = Done (take 16 (framed w)).
Proof using HA HB Hm HP. intros [Hb Hl]. unfold MAX_DATA_LEN in Hl. apply wrap_spec_len; [done|lia]. Qed.

(** One pass of the receiver over a wrapped packet. *)
Lemma unwrap_step fuel pre w h rest out :
  wrappable w → zlen h = 16 → gro_deobfuscate_head B h = Done (take 16 (framed w)) →
  gro_unwrap_loop (S fuel) B (pre ++ (h ++ drop 16 (framed w)) ++ rest) (zlen pre)
    (zlen (framed w) + zlen rest) out
  = gro_unwrap_loop fuel B ((pre ++ framed w) ++ rest) (zlen (pre ++ framed w)) (zlen rest)
      (out ++ [(zlen pre + 2, zlen w)]).
Proof.
  intros [Hb Hl] Hhl Hd. cbn [gro_unwrap_loop].
  pose proof (zlen_framed w) as Hfl.
  replace (16 <=? zlen (framed w) + zlen rest) with true by blia.
  rewrite <-(app_assoc h), (slice_app_mid pre h) by lia. rewrite bind_Done, Hd, bind_Done.
  rewrite (put_app_mid pre h) by (rewrite ?length_take; lia). rewrite bind_Done.
  rewrite (app_assoc (take 16 _)), take_drop.
  rewrite (slice_from_app pre) by lia. rewrite bind_Done.
  assert (read_u16_be (framed w ++ rest) = Done (zlen w)) as ->.
  { unfold framed. rewrite <-app_assoc. apply read_u16_app. unfold is_u, MAX_DATA_LEN in *. lia. }
  rewrite bind_Done.
  replace (zlen (framed w) + zlen rest - 2 <? zlen w) with false by blia.
  replace (MAX_DATA_LEN <? zlen w) with false by blia.
  rewrite <-app_assoc. f_equal; [rewrite zlen_app; lia|lia].
Qed.

(** The whole burst. *)
Fixpoint offsets (pos : Z) (ws : list (list Z)) : list (Z * Z) :=
  match ws with
  | [] => []
  | w :: ws => (pos + 2, zlen w) :: offsets (pos + 2 + zlen w) ws
  end.

Lemma unwrap_burst ws : ∀ fuel pre out ps,
  Forall wrappable ws → mapM (gro_wrap_in_place A) ws = Done ps →
  (length (mjoin ps) ≤ fuel)%nat →
  gro_unwrap_loop fuel B (pre ++ mjoin ps) (zlen pre) (zlen (mjoin ps)) out
  = Done (pre ++ mjoin (framed <$> ws), out ++ offsets (zlen pre) ws).
Proof using HA HB Hm HP.
  induction ws as [|w ws IH]; intros fuel pre out ps Hw Hps Hf.
  { injection Hps as <-. cbn. rewrite !app_nil_r. destruct fuel; done. }
  apply Forall_cons in Hw as [Hw Hws]. cbn [mapM] in Hps.
  destruct (wrap_spec w Hw) as (h & Eh & Hhl & _ & Hd). rewrite Eh, bind_Done in Hps.
  destruct (mapM (gro_wrap_in_place A) ws) as [ps'|] eqn:Eps; [|done].
  rewrite bind_Done in Hps.
  assert (ps = (h ++ drop 16 (framed w)) :: ps') as -> by (unfold mret, outcome_ret in Hps; congruence).
  cbn [mjoin list_join fmap list_fmap] in *.
  assert (zlen (h ++ drop 16 (framed w)) = zlen (framed w)) as Hlp.
  { destruct Hw as [_ Hl]. pose proof (zlen_framed w). rewrite zlen_app, zlen_drop. lia. }
  pose proof (zlen_framed w) as Hfl. pose proof Hw as [Hwb Hwl].
  rewrite (length_app (h ++ _)) in Hf. destruct fuel as [|fuel]; [lia|].
  rewrite zlen_app, Hlp, (unwrap_step fuel pre w h) by done.
  rewrite (IH fuel (pre ++ framed w) _ ps' Hws eq_refl).
  - rewrite <-!app_assoc. do 2 f_equal. cbn [offsets app]. do 3 f_equal. rewrite zlen_app. lia.
  - unfold mjoin in *. lia.
Qed.

Lemma offsets_slices ws : ∀ pre rest,
  Forall2 (λ '(off, len) w, slice (pre ++ mjoin (framed <$> ws) ++ rest) off (off + len) = Done w)
    (offsets (zlen pre) ws) ws.
Proof.
  induction ws as [|w ws IH]; intros pre rest; cbn [offsets]; constructor.
  - cbn [fmap list_fmap mjoin list_join]. unfold framed at 1.
    rewrite <-!app_assoc, (app_assoc pre). apply slice_app_mid; len_lia.
  - specialize (IH (pre ++ framed w) rest). cbn [fmap list_fmap mjoin list_join].
    rewrite <-app_assoc in IH. rewrite <-app_assoc.
    replace (zlen pre + 2 + zlen w) with (zlen (pre ++ framed w)) by (rewrite zlen_app, zlen_framed; lia). exact IH.
Qed.
End pair.

(** * Untrusted buffers *)
Lemma gro_deobfuscate_total cr cm am legacy keys head :
  engine cr cm am legacy keys → zlen head = 16 → bytes head →
  ∃ h, gro_deobfuscate_head cr head = Done h ∧ zlen h = 16 ∧ bytes h.
Proof.
  intros He Hl Hb. unfold gro_deobfuscate_head. rewrite (en_mode _ _ _ _ _ He).
  assert (keys_ok (cr_keys cr)) as Hk by (rewrite (en_keys _ _ _ _ _ He); apply He).
  assert (∃ h, xor_head2 cr head = Done h ∧ zlen h = 16 ∧ bytes h) as Hx.
  { destruct head as [|h0 [|h1 rest]]; [cbn in Hl; lia|cbn in Hl; lia|]. inv_bytes.
    rewrite xor_head2_Done by done. eexists. split; [done|]. split; [len_lia|].
    destruct (ko_gro _ Hk) as [Hgl Hgb]. rewrite Forall_forall in Hgb.
    repeat (apply Forall_cons_2; [apply byte_lxor; [done|]; apply Hgb, list_elem_of_In, nth_In; lia|]).
    done. }
  assert (is_aes cm = true → ∃ h, ecb_decrypt1 cr head = Done h ∧ zlen h = 16 ∧ bytes h) as Hd.
  { intros Ha. destruct (en_aes _ _ _ _ _ He Ha) as (_ & _ & _ & d & _ & _ & _ & _ & _ & _ & Ed & Hd).
    assert (state (take 16 (cipher_key_decrypt keys))) as Hkd by (eapply state_take16; [apply He|lia]).
    unfold ecb_decrypt1. rewrite Ed.
    rewrite (ecb1_Done d AesKey_decrypt_block); [|exact (bc_decrypt_state d _ Hkd Hd)|lia|done].
    assert (state head) as Hs by (split; [lia|done]).
    destruct (bc_decrypt_state d _ Hkd Hd head Hs) as [Hdl Hdb].
    cbn [bc_decrypt AesKey_cipher] in Hdl, Hdb.
    rewrite take_ge, drop_ge, app_nil_r by lia. eexists. split; [reflexivity|]. split; [lia|exact Hdb]. }
  destruct cm; first [exact Hx|exact (Hd eq_refl)|by exists head].
Qed.

(** A pair the receiver reports lies inside the buffer. *)
Definition in_buf (n : Z) (p : Z * Z) : Prop := 0 ≤ p.1 ∧ 0 ≤ p.2 ≤ MAX_DATA_LEN ∧ p.1 + p.2 ≤ n.

Lemma gro_unwrap_loop_safe cr cm am legacy keys fuel : ∀ buf pos remaining out,
  engine cr cm am legacy keys → bytes buf → 0 ≤ pos → 0 ≤ remaining → pos + remaining = zlen buf →
  remaining ≤ Z.of_nat fuel → Forall (in_buf (zlen buf)) out →
  ∃ buf' out', gro_unwrap_loop fuel cr buf pos remaining out = Done (buf', out') ∧
    zlen buf' = zlen buf ∧ bytes buf' ∧ Forall (in_buf (zlen buf)) out' ∧
    ∀ fuel', remaining ≤ Z.of_nat fuel' → gro_unwrap_loop fuel' cr buf pos remaining out = Done (buf', out').
Proof.
  induction fuel as [|fuel IH]; intros buf pos remaining out He Hb Hp Hr0 Hpr Hf Ho.
  { exists buf, out. split_and!; [done..|]. intros fuel' _. destruct fuel'; [done|]. cbn [gro_unwrap_loop].
    by replace (16 <=? remaining) with false by blia. }
  cbn [gro_unwrap_loop]. destruct (16 <=? remaining) eqn:E16.
  2:{ exists buf, out. split_and!; [done..|]. intros fuel' _. destruct fuel'; [done|].
      cbn [gro_unwrap_loop]. by rewrite E16. }
  assert (16 ≤ remaining) as Hge by lia.
  rewrite slice_Done by lia. rewrite bind_Done.
  destruct (gro_deobfuscate_total cr cm am legacy keys (take (Z.to_nat (pos + 16 - pos)) (drop (Z.to_nat pos) buf)))
    as (h & Eh & Hhl & Hhb); [done|rewrite length_take, length_drop; lia|by apply Forall_take, Forall_drop|].
  rewrite Eh, bind_Done, put_Done by lia. rewrite bind_Done.
  set (buf1 := take (Z.to_nat pos) buf ++ h ++ drop (Z.to_nat (pos + zlen h)) buf).
  assert (zlen buf1 = zlen buf) as Hl1 by (unfold buf1; rewrite !zlen_app, zlen_take, zlen_drop; lia).
  assert (bytes buf1) as Hb1 by (repeat apply Forall_app_2; [by apply Forall_take|done|by apply Forall_drop]).
  rewrite slice_from_Done by lia. rewrite bind_Done. unfold read_u16_be.
  rewrite slice_Done by (rewrite ?length_drop; lia). rewrite !bind_Done.
  set (b2 := take _ (drop (Z.to_nat 0) (drop (Z.to_nat pos) buf1))).
  assert (bytes b2) as Hb2 by (by apply Forall_take, Forall_drop, Forall_drop).
  pose proof (from_be_range b2 Hb2) as [Hn0 _]. set (n := from_be b2) in *.
  assert (∀ fuel' k, gro_unwrap_loop (S fuel') cr buf pos remaining out = k ↔
    (if remaining - 2 <? n then Done (buf1, out) else if MAX_DATA_LEN <? n then Done (buf1, out)
     else gro_unwrap_loop fuel' cr buf1 (pos + 2 + n) (remaining - 2 - n) (out ++ [(pos + 2, n)])) = k) as Hunf.
  { intros fuel' k. cbn [gro_unwrap_loop]. rewrite E16, slice_Done by lia. rewrite bind_Done, Eh, bind_Done.
    rewrite put_Done by lia. rewrite bind_Done. fold buf1. rewrite slice_from_Done by lia. rewrite bind_Done.
    unfold read_u16_be. rewrite slice_Done by (rewrite ?length_drop; lia). rewrite !bind_Done. done. }
  assert (∀ fuel', remaining ≤ Z.of_nat fuel' → ∃ f, fuel' = S f ∧ remaining - 2 ≤ Z.of_nat f) as Hfu.
  { intros [|f] Hf'; [lia|]. exists f. split; [done|lia]. }
  destruct (remaining - 2 <? n) eqn:E1; [|destruct (MAX_DATA_LEN <? n) eqn:E2].
  1,2: exists buf1, out; split_and!; [done|lia|done|done|]; intros fuel' Hf';
    destruct (Hfu fuel' Hf') as (f & -> & _); apply Hunf; done.
  destruct (IH buf1 (pos + 2 + n) (remaining - 2 - n) (out ++ [(pos + 2, n)]))
    as (buf' & out' & E & Hl' & Hb' & Ho' & Hfuel); [done|done|lia|lia|lia|lia| |].
  { rewrite Hl1. apply Forall_app_2; [done|]. constructor; [|done]. unfold in_buf. cbn [fst snd]. lia. }
  exists buf', out'. rewrite Hl1 in *. split_and!; [done|done|done|done|].
  intros fuel' Hf'. destruct (Hfu fuel' Hf') as (f & -> & Hff). apply Hunf. apply Hfuel. lia.
Qed.
End gro_proofs.

(** * Claims *)

(** Framing round trips: a bare packet gives back its payload, a handshake its
    three ids, a data payload its conversation and datagram, and a safer packet
    its ids, sequence number and, when its type is heartbeat or data, its type,
    roller and payload (any other type is refused). *)
Theorem wire_roundtrip (iv padding a b c conv : Z) (h : SaferHeader) (payload : list Z) :
  is_u 32 a → is_u 32 b → is_u 32 c → is_u 32 conv → safer_header_ok h →
  parse_bare (build_bare iv padding payload) = Done (Some payload) ∧
  parse_handshake (build_handshake a b c) = Done (Some (a, b, c)) ∧
  parse_data_payload (build_data_payload conv payload) = Done (Some (conv, payload)) ∧
  parse_safer_ids (build_safer h payload)
    = Done (Some (mkSaferIds (sh_my_id h) (sh_oppsite_id h) (sh_seq h))) ∧
  parse_safer_body (build_safer h payload)
    = Done (if bool_decide (sh_ptype h = TYPE_HEARTBEAT ∨ sh_ptype h = TYPE_DATA)
            then Some (sh_ptype h, sh_roller h, payload) else None).
Proof.
  intros Ha Hb Hc Hconv Hh. split_and!;
    [apply parse_build_bare|by apply parse_build_handshake|by apply parse_build_data
    |by apply parse_build_safer_ids|apply parse_build_safer_body].
Qed.

Lemma wire_roundtrip_witness :
  parse_safer_body (build_safer (mkSaferHeader 7 9 100 TYPE_DATA 3) [1; 2; 3])
  = Done (Some (TYPE_DATA, 3, [1; 2; 3])).
Proof.
  destruct (wire_roundtrip 1 2 3 4 5 6 (mkSaferHeader 7 9 100 TYPE_DATA 3) [1; 2; 3]) as (_ & _ & _ & _ & H);
    [unfold is_u; lia..| |exact H].
  unfold safer_header_ok, is_u, TYPE_DATA. cbn. lia.
Defined.

(** A merged burst splits into its packets: if the sender wraps each encrypted
    packet (14 to 1800 bytes) and the network delivers the concatenation, the
    receiver reports one range per packet, in order, and each range of the
    deobfuscated buffer holds exactly that packet, in every cipher mode. *)
Lemma gro_burst_splits `{P : Prims} {HP : PrimsOk P}
    (A B : Crypto) (cm : CipherMode) (am : AuthMode) (legacy : bool) (ka kb : Keys) (ws : list (list Z)) :
  engine A cm am legacy ka → engine B cm am legacy kb → mirrored ka kb → Forall wrappable ws →
  ∃ ps, mapM (gro_wrap_in_place A) ws = Done ps ∧
    ∃ buf out, gro_unwrap B (mjoin ps) = Done (buf, out) ∧
      Forall2 (λ '(off, len) w, slice buf off (off + len) = Done w) out ws.
Proof.
  intros HA HB Hm Hw.
  assert (∃ ps, mapM (gro_wrap_in_place A) ws = Done ps) as [ps Eps].
  { clear -HA HB Hm Hw HP. induction Hw as [|w ws Hw _ [ps IH]]; [by eexists|].
    destruct (wrap_spec A B cm am legacy ka kb HA HB Hm w Hw) as (h & E & _).
    cbn [mapM]. rewrite E, IH. by eexists. }
  exists ps. split; [done|].
  pose proof (unwrap_burst A B cm am legacy ka kb HA HB Hm ws (length (mjoin ps)) [] [] ps Hw Eps ltac:(lia)) as E.
  eexists _, _. split; [exact E|]. cbn [app length Z.of_nat].
  pose proof (offsets_slices ws [] []) as H. cbn [app] in H. by rewrite app_nil_r in H.
Qed.

(** Splitting an arbitrary received buffer never aborts, terminates within as
    many passes as the buffer has bytes (more passes change nothing), keeps the
    buffer's length, and reports only ranges of at most 1800 bytes inside it. *)
Lemma gro_unwrap_never_panics `{P : Prims} {HP : PrimsOk P}
    (cr : Crypto) (cm : CipherMode) (am : AuthMode) (legacy : bool) (keys : Keys) (buf : list Z) :
  engine cr cm am legacy keys → bytes buf →
  ∃ buf' out, gro_unwrap cr buf = Done (buf', out) ∧ zlen buf' = zlen buf ∧
    Forall (in_buf (zlen buf)) out ∧
    ∀ fuel, (length buf ≤ fuel)%nat → gro_unwrap_loop fuel cr buf 0 (zlen buf) [] = Done (buf', out).
Proof.
  intros He Hb.
  destruct (gro_unwrap_loop_safe cr cm am legacy keys (length buf) buf 0 (zlen buf) [])
    as (buf' & out & E & Hl & _ & Ho & Hf); [done|done|lia|lia|lia|lia|constructor|].
  exists buf', out. split_and!; [done|done|done|]. intros fuel Hfu. apply Hf. lia.
Qed.
