(* ===== verification/Conv.v ===== *)
(** Conversation bookkeeping with LRU expiry: [src/src/conv.rs].

    [ConvManager] keeps three hash maps and an ordered set that must agree.  The
    hash maps are [gmap]s, the [BTreeSet] is its ascending list of elements.  The
    abstract state is one table from conversation numbers to (data, time of last
    activity); a manager represents it when each of its four containers is what the table
    says, and every operation takes a represented table to the one it promises. *)
From stdpp Require Import sorting.
From S2P Require Import Prelude.

Definition CONV_CLEAR_RATIO : Z := 30.
Definition CONV_CLEAR_MIN : Z := 1.
Definition CONV_CLEAR_INTERVAL_MS : Z := 1000.
Definition CONV_TIMEOUT_MS : Z := 180000.

(** * [BTreeSet<(u64, u32)>] *)
Module PairSet.
Definition lt (p q : Z * Z) : Prop := p.1 < q.1 ∨ (p.1 = q.1 ∧ p.2 < q.2).
#[export] Instance lt_dec p q : Decision (lt p q).
Proof. unfold lt. apply _. Defined.

Fixpoint insert (p : Z * Z) (s : list (Z * Z)) : list (Z * Z) :=
  match s with
  | [] => [p]
  | q :: s' => if decide (p = q) then s else if decide (lt p q) then p :: s else q :: insert p s'
  end.
Fixpoint remove (p : Z * Z) (s : list (Z * Z)) : list (Z * Z) :=
  match s with
  | [] => []
  | q :: s' => if decide (p = q) then s' else q :: remove p s'
  end.
(** [iter().next()] *)
Definition first (s : list (Z * Z)) : option (Z * Z) := head s.

Abbreviation sorted := (StronglySorted lt).

Lemma lt_trans p q r : lt p q → lt q r → lt p r.
Proof. unfold lt. lia. Qed.
Lemma lt_irrefl p : ¬ lt p p.
Proof. unfold lt. lia. Qed.
Lemma lt_total p q : p ≠ q → ¬ lt p q → lt q p.
Proof. destruct p, q. unfold lt. simpl. intros Hne H. destruct (decide (z = z1 ∧ z0 = z2)) as [[-> ->]|]; [done|lia]. Qed.

Lemma elem_of_insert p q s : q ∈ insert p s ↔ q = p ∨ q ∈ s.
Proof.
  induction s as [|r s IH]; simpl; [by rewrite list_elem_of_singleton, elem_of_nil; naive_solver|].
  repeat case_decide; subst; rewrite ?elem_of_cons, ?IH; naive_solver.
Qed.
Lemma sorted_insert p s : sorted s → sorted (insert p s).
Proof.
  induction 1 as [|q s Hs IH Hall]; simpl; [by repeat constructor|].
  case_decide; [by constructor|]. case_decide as Hlt.
  - constructor; [by constructor|]. constructor; [done|].
    eapply Forall_impl; [done|]. intros r. by apply lt_trans.
  - constructor; [done|]. apply Forall_forall. intros r [->|Hr]%elem_of_insert.
    + by apply lt_total.
    + by eapply Forall_forall in Hall.
Qed.
Lemma head_fresh q s : Forall (lt q) s → q ∉ s.
Proof. intros Hall Hq. eapply Forall_forall in Hall; [|done]. by apply lt_irrefl in Hall. Qed.
Lemma elem_of_remove p q s : sorted s → q ∈ remove p s ↔ q ≠ p ∧ q ∈ s.
Proof.
  induction 1 as [|r s Hs IH Hall]; simpl; [rewrite elem_of_nil; naive_solver|].
  pose proof (head_fresh _ _ Hall). case_decide; subst; rewrite ?elem_of_cons, ?IH; naive_solver.
Qed.
Lemma sorted_remove p s : sorted s → sorted (remove p s).
Proof.
  induction 1 as [|q s Hs IH Hall]; simpl; [constructor|].
  case_decide; [done|]. constructor; [done|]. apply Forall_forall. intros r Hr.
  apply elem_of_remove in Hr as [_ Hr]; [|done]. by eapply Forall_forall in Hall.
Qed.
Lemma remove_first p s : remove p (p :: s) = s.
Proof. simpl. by rewrite decide_True. Qed.
Lemma sorted_NoDup s : sorted s → NoDup s.
Proof. induction 1; constructor; [by apply head_fresh|done]. Qed.
End PairSet.

Section conv.
Context {T : Type} `{Countable T}.

Record ConvManager := mkConvManager {
  data_to_conv : gmap T Z;
  conv_to_data : gmap Z T;
  last_active : gmap Z Z;
  lru : list (Z * Z);
  last_clear_time : Z }.

Definition ConvManager_new : ConvManager := mkConvManager ∅ ∅ ∅ [] 0.

Definition conv_len (m : ConvManager) : Z := Z.of_nat (size (conv_to_data m)).
Definition conv_is_empty (m : ConvManager) : bool := bool_decide (conv_to_data m = ∅).
Definition is_conv_used (m : ConvManager) (conv : Z) : bool := bool_decide (is_Some (conv_to_data m !! conv)).
Definition is_data_used (m : ConvManager) (data : T) : bool := bool_decide (is_Some (data_to_conv m !! data)).
Definition find_conv_by_data (m : ConvManager) (data : T) : option Z := data_to_conv m !! data.
Definition find_data_by_conv (m : ConvManager) (conv : Z) : option T := conv_to_data m !! conv.

(** [new_conv] over the values the generator delivers: the zeros are skipped by
    [secure_random_u32_nz], the used numbers by the loop; [None] when the values run
    out before the loop ends. *)
Fixpoint new_conv (m : ConvManager) (draws : list Z) : option (Z * list Z) :=
  match draws with
  | [] => None
  | c :: draws =>
      if c =? 0 then new_conv m draws
      else if is_conv_used m c then new_conv m draws
      else Some (c, draws)
  end.

Definition conv_insert (m : ConvManager) (conv : Z) (data : T) (now : Z) : ConvManager :=
  mkConvManager
    (<[data := conv]> (data_to_conv m))
    (<[conv := data]> (conv_to_data m))
    (<[conv := now]> (last_active m))
    (PairSet.insert (now, conv) (lru m))
    (last_clear_time m).

Definition update_active_time (m : ConvManager) (conv now : Z) : ConvManager :=
  match last_active m !! conv with
  | Some old =>
      if old =? now then m else
      mkConvManager (data_to_conv m) (conv_to_data m)
        (<[conv := now]> (last_active m))
        (PairSet.insert (now, conv) (PairSet.remove (old, conv) (lru m)))
        (last_clear_time m)
  | None => m
  end.

Definition conv_erase (m : ConvManager) (conv : Z) : option T * ConvManager :=
  match conv_to_data m !! conv with
  | None => (None, m)
  | Some data =>
      (Some data,
       mkConvManager
         (delete data (data_to_conv m))
         (delete conv (conv_to_data m))
         (delete conv (last_active m))
         (match last_active m !! conv with
          | Some ts => PairSet.remove (ts, conv) (lru m)
          | None => lru m
          end)
         (last_clear_time m))
  end.

(** The order of [HashMap::values] is unspecified; it is the order of
    [map_to_list] here, and the theorems speak of it up to permutation. *)
Definition conv_clear (m : ConvManager) : list T * ConvManager :=
  ((map_to_list (conv_to_data m)).*2, mkConvManager ∅ ∅ ∅ [] (last_clear_time m)).

(** The [for _ in 0..num_to_clean] loop. *)
Fixpoint clear_loop (n : nat) (m : ConvManager) (now : Z) (out : list (Z * T))
    : list (Z * T) * ConvManager :=
  match n with
  | O => (out, m)
  | S n =>
      match PairSet.first (lru m) with
      | None => (out, m)
      | Some (ts, conv) =>
          if saturating_sub now ts <? CONV_TIMEOUT_MS then (out, m) else
          match conv_erase m conv with
          | (Some data, m) => clear_loop n m now (out ++ [(conv, data)])
          | (None, m) => clear_loop n m now out
          end
      end
  end.

Definition num_to_clean (size : Z) : Z := Z.min (size / CONV_CLEAR_RATIO + CONV_CLEAR_MIN) size.

Definition clear_inactive (m : ConvManager) (now : Z) : list (Z * T) * ConvManager :=
  if saturating_sub now (last_clear_time m) <=? CONV_CLEAR_INTERVAL_MS then ([], m) else
  let m := mkConvManager (data_to_conv m) (conv_to_data m) (last_active m) (lru m) now in
  clear_loop (Z.to_nat (num_to_clean (zlen (lru m)))) m now [].
End conv.
Arguments ConvManager _ {_ _}.

(** * The invariant *)
Section conv_inv.
Context {T : Type} `{Countable T}.
Implicit Types (m : ConvManager T).

Record conv_inv m : Prop := {
  ci_fwd c d : conv_to_data m !! c = Some d → data_to_conv m !! d = Some c;
  ci_bwd d c : data_to_conv m !! d = Some c → conv_to_data m !! c = Some d;
  ci_dom c : conv_to_data m !! c = None ↔ last_active m !! c = None;
  ci_sorted : PairSet.sorted (lru m);
  ci_lru ts c : (ts, c) ∈ lru m ↔ last_active m !! c = Some ts }.

(** The abstract table. *)
Definition table m : gmap Z (T * Z) := map_zip (conv_to_data m) (last_active m).

Lemma table_lookup m c d ts :
  table m !! c = Some (d, ts) ↔ conv_to_data m !! c = Some d ∧ last_active m !! c = Some ts.
Proof.
  unfold table. rewrite map_lookup_zip_with.
  destruct (conv_to_data m !! c), (last_active m !! c); naive_solver.
Qed.
Lemma table_None m c : conv_inv m → table m !! c = None ↔ conv_to_data m !! c = None.
Proof.
  intros Hi. pose proof (ci_dom m Hi c). unfold table. rewrite map_lookup_zip_with.
  destruct (conv_to_data m !! c), (last_active m !! c); naive_solver.
Qed.
Lemma table_data m c : conv_inv m → fst <$> table m !! c = conv_to_data m !! c.
Proof.
  intros Hi. pose proof (ci_dom m Hi c). unfold table. rewrite map_lookup_zip_with.
  destruct (conv_to_data m !! c), (last_active m !! c); naive_solver.
Qed.

Lemma conv_inv_new : conv_inv ConvManager_new.
Proof.
  constructor; simpl; intros; rewrite ?lookup_empty in *; try done; [by constructor|].
  rewrite elem_of_nil. naive_solver.
Qed.

Lemma conv_inv_insert m c d now :
  conv_inv m → conv_to_data m !! c = None → data_to_conv m !! d = None →
  conv_inv (conv_insert m c d now).
Proof.
  intros Hi Hc Hd. pose proof (proj1 (ci_dom m Hi c) Hc) as Ha. constructor; simpl.
  - intros c' d'. rewrite !lookup_insert_Some. intros [[<- <-]|[Hne E]]; [by left|].
    right. apply (ci_fwd m Hi) in E. split; congruence.
  - intros d' c'. rewrite !lookup_insert_Some. intros [[<- <-]|[Hne E]]; [by left|].
    right. apply (ci_bwd m Hi) in E. split; congruence.
  - intros c'. rewrite !lookup_insert_None. by rewrite (ci_dom m Hi c').
  - apply PairSet.sorted_insert, Hi.
  - intros ts c'. rewrite PairSet.elem_of_insert, lookup_insert_Some, (ci_lru m Hi). naive_solver.
Qed.

Lemma table_insert m c d now : table (conv_insert m c d now) = <[c := (d, now)]> (table m).
Proof. unfold table, conv_insert. simpl. by rewrite map_insert_zip_with. Qed.

Lemma conv_inv_update m c now : conv_inv m → conv_inv (update_active_time m c now).
Proof.
  intros Hi. unfold update_active_time. destruct (last_active m !! c) as [old|] eqn:E; [|done].
  destruct (old =? now); [done|]. constructor; simpl; try apply Hi.
  - intros c'. rewrite lookup_insert_None, (ci_dom m Hi). naive_solver congruence.
  - by apply PairSet.sorted_insert, PairSet.sorted_remove, Hi.
  - intros ts c'. rewrite PairSet.elem_of_insert, PairSet.elem_of_remove, lookup_insert_Some, (ci_lru m Hi) by apply Hi.
    naive_solver congruence.
Qed.

Lemma table_update m c now : conv_inv m →
  table (update_active_time m c now) = alter (λ p, (p.1, now)) c (table m).
Proof.
  intros Hi. apply map_eq. intros c'. unfold update_active_time, table.
  pose proof (ci_dom m Hi c) as Hd.
  destruct (last_active m !! c) as [old|] eqn:E.
  - destruct (Z.eqb_spec old now) as [->|Hne]; simpl;
      (destruct (decide (c = c')) as [<-|Hc];
        [rewrite lookup_alter_eq|rewrite lookup_alter_ne by done]);
      rewrite !map_lookup_zip_with, ?lookup_insert_eq, ?lookup_insert_ne by done; try done;
      rewrite ?E; by destruct (conv_to_data m !! c).
  - destruct (decide (c = c')) as [<-|Hc]; [rewrite lookup_alter_eq|by rewrite lookup_alter_ne].
    rewrite !map_lookup_zip_with, E. by destruct (conv_to_data m !! c).
Qed.

Lemma conv_inv_erase m c o m' : conv_inv m → conv_erase m c = (o, m') → conv_inv m'.
Proof.
  intros Hi. unfold conv_erase. destruct (conv_to_data m !! c) as [d|] eqn:E; intros [= <- <-]; [|done].
  pose proof (ci_dom m Hi c) as Hd. destruct (last_active m !! c) as [ts|] eqn:Ea; [|naive_solver].
  pose proof (ci_fwd m Hi c d E) as Ef. constructor; simpl.
  - intros c' d'. rewrite !lookup_delete_Some. intros [Hne E']. split; [|by apply Hi].
    intros <-. apply (ci_fwd m Hi) in E'. congruence.
  - intros d' c'. rewrite !lookup_delete_Some. intros [Hne E']. split; [|by apply Hi].
    intros <-. apply (ci_bwd m Hi) in E'. congruence.
  - intros c'. rewrite !lookup_delete_None, (ci_dom m Hi). done.
  - by apply PairSet.sorted_remove, Hi.
  - intros ts' c'. rewrite PairSet.elem_of_remove, lookup_delete_Some, (ci_lru m Hi) by apply Hi.
    naive_solver congruence.
Qed.

Lemma table_erase m c : conv_inv m →
  (conv_erase m c).1 = fst <$> table m !! c ∧ table (conv_erase m c).2 = delete c (table m).
Proof.
  intros Hi. rewrite table_data by done. unfold conv_erase.
  destruct (conv_to_data m !! c) as [d|] eqn:E; simpl; (split; [done|]).
  - unfold table. simpl. by rewrite map_delete_zip_with.
  - symmetry. apply delete_id. by apply table_None.
Qed.

Lemma erase_lru m c ts : conv_inv m → last_active m !! c = Some ts →
  lru (conv_erase m c).2 = PairSet.remove (ts, c) (lru m).
Proof.
  intros Hi Ha. unfold conv_erase. pose proof (ci_dom m Hi c).
  destruct (conv_to_data m !! c); simpl; [by rewrite Ha|naive_solver].
Qed.
Lemma erase_clear_time m c : last_clear_time (conv_erase m c).2 = last_clear_time m.
Proof. unfold conv_erase. by destruct (conv_to_data m !! c). Qed.
End conv_inv.

(** * Expiry *)
Section expiry.
Context {T : Type} `{Countable T}.
Implicit Types (m : ConvManager T).

(** [now - ts] has reached the timeout. *)
Definition idle (now ts : Z) : Prop := CONV_TIMEOUT_MS ≤ now - ts.
#[export] Instance idle_dec now ts : Decision (idle now ts).
Proof. unfold idle. apply _. Defined.

Lemma saturating_idle now ts : (saturating_sub now ts <? CONV_TIMEOUT_MS) = false ↔ idle now ts.
Proof. unfold saturating_sub, idle, CONV_TIMEOUT_MS. destruct (now <? ts) eqn:E; lia. Qed.

(** What a run of the expiry loop removed: [k] entries from the old end. *)
Record expired_run (n : nat) m (now : Z) (k : nat) (gone : list (Z * T)) m' : Prop := {
  er_count : (k ≤ n)%nat;
  er_gone : gone.*1 = (take k (lru m)).*2;
  er_data : Forall (λ p, conv_to_data m !! p.1 = Some p.2) gone;
  er_lru : lru m' = drop k (lru m);
  er_inv : conv_inv m';
  er_idle : Forall (λ p, idle now p.1) (take k (lru m));
  er_stop : k = n ∨ ∀ p, head (lru m') = Some p → ¬ idle now p.1;
  er_table : table m' = filter (λ p, p.1 ∉ gone.*1) (table m);
  er_time : last_clear_time m' = last_clear_time m }.

Lemma expired_run_0 n m now : conv_inv m → n = 0%nat ∨ (∀ p, head (lru m) = Some p → ¬ idle now p.1) →
  expired_run n m now 0 [] m.
Proof.
  intros Hi Hs. constructor; rewrite ?take_0; simpl; try done; [lia|by destruct Hs; [left|right]|].
  symmetry. apply map_filter_id. intros c p _. apply not_elem_of_nil.
Qed.

Lemma lru_head_data m ts c l : conv_inv m → lru m = (ts, c) :: l →
  last_active m !! c = Some ts ∧ ∃ d, conv_to_data m !! c = Some d.
Proof.
  intros Hi Hl. assert ((ts, c) ∈ lru m) as Hin by (rewrite Hl; by left).
  apply (ci_lru m Hi) in Hin. split; [done|]. pose proof (ci_dom m Hi c).
  destruct (conv_to_data m !! c); naive_solver.
Qed.

Lemma expired_run_S n m now ts c d m1 k gone m' :
  conv_inv m → head (lru m) = Some (ts, c) → idle now ts → conv_erase m c = (Some d, m1) →
  expired_run n m1 now k gone m' → expired_run (S n) m now (S k) ((c, d) :: gone) m'.
Proof.
  intros Hi Hh Hid Ee Hr. destruct (lru m) as [|p l] eqn:Hl; simplify_eq/=.
  destruct (lru_head_data m ts c l Hi Hl) as (Ha & d0 & Hd).
  pose proof (erase_lru m c ts Hi Ha) as Hl1. rewrite Ee, Hl, PairSet.remove_first in Hl1. simpl in Hl1.
  pose proof (conv_inv_erase m c _ m1 Hi Ee) as Hi1.
  destruct (table_erase m c Hi) as [_ Ht]. rewrite Ee in Ht. simpl in Ht.
  assert (d0 = d ∧ conv_to_data m1 = delete c (conv_to_data m)) as [-> Hm1]
    by (unfold conv_erase in Ee; rewrite Hd in Ee; by simplify_eq).
  constructor.
  - apply le_n_S, Hr.
  - rewrite Hl, firstn_cons, !fmap_cons, (er_gone _ _ _ _ _ _ Hr), Hl1. done.
  - constructor; [done|]. eapply Forall_impl; [apply Hr|]. intros [c' d']. simpl. rewrite Hm1.
    intros [_ ?]%lookup_delete_Some. done.
  - rewrite Hl. simpl. rewrite (er_lru _ _ _ _ _ _ Hr). by rewrite Hl1.
  - apply Hr.
  - rewrite Hl. simpl. constructor; [done|]. rewrite <-Hl1. apply Hr.
  - destruct (er_stop _ _ _ _ _ _ Hr) as [->|?]; auto.
  - rewrite (er_table _ _ _ _ _ _ Hr), Ht. apply map_eq. intros c'. apply option_eq. intros p.
    rewrite !map_lookup_filter_Some, lookup_delete_Some. simpl. rewrite not_elem_of_cons. naive_solver.
  - rewrite (er_time _ _ _ _ _ _ Hr). rewrite <-(erase_clear_time m c), Ee. done.
Qed.

Lemma clear_loop_spec n m now out : conv_inv m →
  ∃ k gone m', clear_loop n m now out = (out ++ gone, m') ∧ expired_run n m now k gone m'.
Proof.
  revert m out. induction n as [|n IH]; intros m out Hi; simpl.
  { exists 0%nat, [], m. rewrite app_nil_r. split; [done|]. apply expired_run_0; auto. }
  unfold PairSet.first. destruct (head (lru m)) as [[ts c]|] eqn:Hh.
  2:{ exists 0%nat, [], m. rewrite app_nil_r. split; [done|]. apply expired_run_0; [done|].
      right. intros p. by rewrite Hh. }
  destruct (saturating_sub now ts <? CONV_TIMEOUT_MS) eqn:Et.
  { exists 0%nat, [], m. rewrite app_nil_r. split; [done|]. apply expired_run_0; [done|].
    right. intros p. rewrite Hh. intros [= <-] ?%saturating_idle. simpl in *. congruence. }
  apply saturating_idle in Et.
  destruct (lru m) as [|p l] eqn:Hl; simplify_eq/=.
  destruct (lru_head_data m ts c l Hi Hl) as (Ha & d & Hd).
  destruct (conv_erase m c) as [o m1] eqn:Ee.
  assert (o = Some d) as ->. { unfold conv_erase in Ee. rewrite Hd in Ee. by simplify_eq. }
  destruct (IH m1 (out ++ [(c, d)]) (conv_inv_erase _ _ _ _ Hi Ee)) as (k & gone & m' & -> & Hr).
  exists (S k), ((c, d) :: gone), m'. rewrite <-app_assoc. split; [done|].
  eapply expired_run_S; eauto. by rewrite Hl.
Qed.

(** The limit on one pass. *)
Definition pass_limit m : nat := Z.to_nat (num_to_clean (zlen (lru m))).

Lemma clear_inactive_spec m now : conv_inv m → last_clear_time m + CONV_CLEAR_INTERVAL_MS < now →
  ∃ k gone m', clear_inactive m now = (gone, m') ∧ last_clear_time m' = now ∧
    expired_run (pass_limit m) (mkConvManager (data_to_conv m) (conv_to_data m) (last_active m) (lru m) now)
      now k gone m'.
Proof.
  intros Hi Hn. unfold clear_inactive.
  replace (saturating_sub now (last_clear_time m) <=? CONV_CLEAR_INTERVAL_MS) with false
    by (unfold saturating_sub, CONV_CLEAR_INTERVAL_MS in *; destruct (now <? last_clear_time m) eqn:?; blia).
  cbv zeta. cbn [lru]. fold (pass_limit m).
  set (m0 := mkConvManager _ _ _ _ now).
  assert (conv_inv m0) as Hi0 by (destruct Hi; by constructor).
  destruct (clear_loop_spec (pass_limit m) m0 now [] Hi0) as (k & gone & m' & E & Hr).
  exists k, gone, m'. rewrite E. split; [done|]. split; [|done]. apply (er_time _ _ _ _ _ _ Hr).
Qed.

Lemma pass_limit_pos m : lru m ≠ [] → (1 ≤ pass_limit m)%nat.
Proof.
  intros Hl. unfold pass_limit, num_to_clean, CONV_CLEAR_RATIO, CONV_CLEAR_MIN.
  assert (0 < zlen (lru m)) by (destruct (lru m); [done|simpl; lia]).
  pose proof (Z.div_pos (zlen (lru m)) 30). lia.
Qed.
End expiry.

(** * Counting idle conversations *)
Section counting.
Context {T : Type} `{Countable T}.
Implicit Types (m : ConvManager T).

Definition idle_count now m : nat := size (filter (λ p, idle now p.2.2) (table m)).

Lemma table_lru (Q : Z → Prop) `{∀ ts, Decision (Q ts)} m : conv_inv m →
  (λ p, (p.2.2, p.1)) <$> map_to_list (filter (λ p, Q p.2.2) (table m)) ≡ₚ filter (λ p, Q p.1) (lru m).
Proof.
  intros Hi. apply NoDup_Permutation.
  - apply NoDup_fmap_2_strong; [|apply NoDup_map_to_list].
    intros [c [d ts]] [c' [d' ts']] Hp Hq [= -> ->].
    apply elem_of_map_to_list in Hp, Hq. simplify_eq. congruence.
  - by apply NoDup_filter, PairSet.sorted_NoDup, Hi.
  - intros [ts c]. rewrite list_elem_of_fmap, list_elem_of_filter, (ci_lru m Hi). split.
    + intros ([c' [d ts']] & [= -> ->] & Hp%elem_of_map_to_list).
      apply map_lookup_filter_Some in Hp as [Hp%table_lookup HQ]. naive_solver.
    + intros [HQ Ha]. destruct (conv_to_data m !! c) as [d|] eqn:Ed.
      * exists (c, (d, ts)). split; [done|].
        apply elem_of_map_to_list, map_lookup_filter_Some. split; [by apply table_lookup|done].
      * apply (ci_dom m Hi) in Ed. congruence.
Qed.

Lemma idle_count_lru now m : conv_inv m → idle_count now m = length (filter (λ p, idle now p.1) (lru m)).
Proof.
  intros Hi. rewrite <-(Permutation_length (table_lru (idle now) m Hi)), length_fmap, length_map_to_list. done.
Qed.

Lemma conv_len_lru m : conv_inv m → conv_len m = zlen (lru m).
Proof.
  intros Hi. unfold conv_len. f_equal.
  transitivity (size (table m)).
  - rewrite <-!(size_dom (D := gset Z)). f_equal. apply set_eq. intros c.
    rewrite !elem_of_dom, <-!not_eq_None_Some, table_None by done. done.
  - rewrite <-length_map_to_list, <-(length_fmap (λ p, (p.2.2, p.1))).
    pose proof (table_lru (λ _, True) m Hi) as Hp.
    rewrite map_filter_id in Hp by done. rewrite (Permutation_length Hp).
    f_equal. apply list_filter_all. by apply Forall_true.
Qed.

(** In a sorted list the idle entries are a prefix. *)
Lemma idle_prefix now l : PairSet.sorted l → (∀ p, head l = Some p → ¬ idle now p.1) →
  filter (λ p, idle now p.1) l = [].
Proof.
  intros Hs Hh. destruct Hs as [|p l Hs Hall]; [done|]. specialize (Hh p eq_refl).
  apply list_filter_none. constructor; [done|]. eapply Forall_impl; [done|].
  intros q. unfold PairSet.lt, idle in *. lia.
Qed.

Lemma run_count n m now k gone m' : conv_inv m → (n ≤ length (lru m))%nat →
  expired_run n m now k gone m' → k = (n `min` length (filter (λ p, idle now p.1%Z) (lru m)))%nat.
Proof.
  intros Hi Hn Hr. rewrite <-(take_drop k (lru m)), filter_app, length_app.
  rewrite list_filter_all by apply Hr.
  assert (length (take k (lru m)) = k) as -> by (rewrite length_take; pose proof (er_count _ _ _ _ _ _ Hr); lia).
  pose proof (er_count _ _ _ _ _ _ Hr) as Hk. rewrite <-(er_lru _ _ _ _ _ _ Hr).
  destruct (er_stop _ _ _ _ _ _ Hr) as [->|Hs]; [lia|].
  rewrite (idle_prefix now (lru m')); [simpl; lia|apply (er_inv _ _ _ _ _ _ Hr)|done].
Qed.

Lemma pass_limit_le m : (pass_limit m ≤ length (lru m))%nat.
Proof. unfold pass_limit, num_to_clean, CONV_CLEAR_MIN, CONV_CLEAR_RATIO. lia. Qed.
End counting.

(** * Executions *)
Section runs.
Context {T : Type} `{Countable T}.
Implicit Types (m : ConvManager T).

Inductive conv_op :=
| OpInsert (conv : Z) (data : T) (now : Z)
| OpTouch (conv now : Z)
| OpErase (conv : Z)
| OpClear
| OpExpire (now : Z).

Definition conv_run m (o : conv_op) : ConvManager T :=
  match o with
  | OpInsert c d now => conv_insert m c d now
  | OpTouch c now => update_active_time m c now
  | OpErase c => (conv_erase m c).2
  | OpClear => (conv_clear m).2
  | OpExpire now => (clear_inactive m now).2
  end.

(** The callers insert only numbers and data that are not in use. *)
Definition conv_allowed m (o : conv_op) : bool :=
  match o with
  | OpInsert c d _ => negb (is_conv_used m c) && negb (is_data_used m d)
  | _ => true
  end.

Inductive conv_reachable : ConvManager T → Prop :=
| reach_new : conv_reachable ConvManager_new
| reach_step m o : conv_reachable m → conv_allowed m o = true → conv_reachable (conv_run m o).

Lemma is_conv_used_false m c : is_conv_used m c = false ↔ conv_to_data m !! c = None.
Proof. unfold is_conv_used. rewrite bool_decide_eq_false, <-not_eq_None_Some. destruct (_ !! _); naive_solver. Qed.
Lemma is_data_used_false m d : is_data_used m d = false ↔ data_to_conv m !! d = None.
Proof. unfold is_data_used. rewrite bool_decide_eq_false, <-not_eq_None_Some. destruct (_ !! _); naive_solver. Qed.

Lemma conv_inv_clear_inactive m now : conv_inv m → conv_inv (clear_inactive m now).2.
Proof.
  intros Hi. destruct (decide (last_clear_time m + CONV_CLEAR_INTERVAL_MS < now)) as [Hn|Hn].
  - destruct (clear_inactive_spec m now Hi Hn) as (k & gone & m' & -> & _ & Hr). apply Hr.
  - unfold clear_inactive. replace (_ <=? _) with true; [done|].
    unfold saturating_sub, CONV_CLEAR_INTERVAL_MS in *. destruct (now <? last_clear_time m) eqn:?; blia.
Qed.

(** The conversations one pass hands back, and those it leaves. *)
Lemma lru_convs_NoDup m : conv_inv m → NoDup (lru m).*2.
Proof.
  intros Hi. apply NoDup_fmap_2_strong; [|apply PairSet.sorted_NoDup, Hi].
  intros [t c] [t' c'] Hp Hq E. cbn in E. subst c'. apply (ci_lru m Hi) in Hp, Hq. congruence.
Qed.
Lemma clear_inactive_gone m now gone m' : conv_inv m → clear_inactive m now = (gone, m') →
  conv_inv m' ∧ NoDup gone.*1 ∧ Forall (λ p, conv_to_data m !! p.1 = Some p.2) gone ∧
  ∀ c, conv_to_data m' !! c = if decide (c ∈ gone.*1) then None else conv_to_data m !! c.
Proof.
  intros Hi E. pose proof (conv_inv_clear_inactive m now Hi) as Hi'. rewrite E in Hi'. split; [done|].
  destruct (decide (last_clear_time m + CONV_CLEAR_INTERVAL_MS < now)) as [Hn|Hn].
  - destruct (clear_inactive_spec m now Hi Hn) as (k & gone' & m'' & E' & _ & Hr). rewrite E in E'.
    injection E' as <- <-. pose proof Hr as [_ Hg Hd _ _ _ _ Ht _]. cbn [lru conv_to_data] in Hg, Hd. split_and!; [|done|].
    + rewrite Hg. eapply sublist_NoDup; [apply (lru_convs_NoDup m Hi)|]. rewrite fmap_take. apply sublist_take.
    + intros c. rewrite <-(table_data m' c Hi'), Ht. case_decide as Hc.
      * rewrite (proj2 (map_lookup_filter_None _ _ c)); [done|]. right. intros x _ Hx. by apply Hx.
      * rewrite <-(table_data m c Hi). change (table (mkConvManager _ _ _ _ now)) with (table m).
        destruct (table m !! c) as [x|] eqn:Ex.
        -- by rewrite (proj2 (map_lookup_filter_Some _ _ c x) (conj Ex Hc)).
        -- rewrite (proj2 (map_lookup_filter_None _ _ c)); [done|by left].
  - unfold clear_inactive in E. replace (_ <=? _) with true in E.
    + injection E as <- <-. split_and!; [constructor|constructor|]. intros c. rewrite decide_False; [done|apply not_elem_of_nil].
    + unfold saturating_sub, CONV_CLEAR_INTERVAL_MS in *. destruct (now <? last_clear_time m) eqn:?; blia.
Qed.

Lemma conv_inv_empty t : conv_inv (mkConvManager (∅ : gmap T Z) ∅ ∅ [] t).
Proof. pose proof (conv_inv_new (T := T)) as Hi. destruct Hi. by constructor. Qed.

Lemma conv_inv_run m o : conv_inv m → conv_allowed m o = true → conv_inv (conv_run m o).
Proof.
  intros Hi. destruct o; simpl; intros Ha.
  - apply andb_true_iff in Ha as [Hc Hd]. apply negb_true_iff in Hc, Hd.
    by apply conv_inv_insert; [|apply is_conv_used_false|apply is_data_used_false].
  - by apply conv_inv_update.
  - destruct (conv_erase m conv) eqn:E. by eapply conv_inv_erase.
  - apply conv_inv_empty.
  - by apply conv_inv_clear_inactive.
Qed.

Lemma reachable_inv m : conv_reachable m → conv_inv m.
Proof. induction 1; [apply conv_inv_new|by apply conv_inv_run]. Qed.

(** Passes of the garbage collector at the given times. *)
Definition passes m (nows : list Z) : ConvManager T := foldl (λ m now, (clear_inactive m now).2) m nows.
Fixpoint spaced (last : Z) (nows : list Z) : Prop :=
  match nows with [] => True | now :: nows => last + CONV_CLEAR_INTERVAL_MS < now ∧ spaced now nows end.

Lemma pass_idle m now t0 : conv_inv m → last_clear_time m + CONV_CLEAR_INTERVAL_MS < now → t0 ≤ now →
  let m' := (clear_inactive m now).2 in
  conv_inv m' ∧ last_clear_time m' = now ∧ (idle_count t0 m' ≤ idle_count t0 m - 1)%nat.
Proof.
  intros Hi Hn Ht. destruct (clear_inactive_spec m now Hi Hn) as (k & gone & m' & -> & Htm & Hr). simpl.
  pose proof (er_inv _ _ _ _ _ _ Hr) as Hi'. split; [done|]. split; [done|].
  rewrite !idle_count_lru by done.
  assert (lru m' = drop k (lru m)) as Hlru by apply (er_lru _ _ _ _ _ _ Hr). rewrite Hlru.
  rewrite <-(take_drop k (lru m)) at 2. rewrite filter_app, length_app.
  destruct (decide (filter (λ p, idle t0 p.1) (take k (lru m)) = [])) as [E|E].
  2:{ destruct (filter (λ p, idle t0 p.1) (take k (lru m))); [done|]. simpl. lia. }
  rewrite E. simpl. enough (filter (λ p, idle t0 p.1) (drop k (lru m)) = []) as -> by (simpl; lia).
  assert (∀ p, head (drop k (lru m)) = Some p → ¬ idle t0 p.1) as Hh.
  { destruct (er_stop _ _ _ _ _ _ Hr) as [Hk|Hs].
    - pose proof (pass_limit_pos m) as Hpos. destruct (lru m) as [|q l] eqn:El; [by rewrite drop_nil|].
      destruct k as [|k]; [specialize (Hpos ltac:(done)); lia|]. simpl in E.
      rewrite filter_cons in E. case_decide as Hq; [done|]. intros p Hp Hid. apply Hq.
      pose proof (ci_sorted m Hi) as Hso. rewrite El in Hso. apply StronglySorted_inv in Hso as [_ Hall].
      simpl in Hp. destruct (drop k l) as [|p' r] eqn:Ed; simplify_eq/=.
      assert (p ∈ l) as Hin by (rewrite <-(take_drop k l), Ed; set_solver).
      eapply Forall_forall in Hall; [|done]. unfold PairSet.lt, idle in *. lia.
    - intros p Hp Hid. apply (Hs p); [by rewrite Hlru|]. unfold idle in *. lia. }
  apply idle_prefix; [|done]. rewrite <-Hlru. apply Hi'.
Qed.

Lemma passes_idle nows m t0 : conv_inv m → spaced (last_clear_time m) nows → Forall (Z.le t0) nows →
  conv_inv (passes m nows) ∧ (idle_count t0 (passes m nows) ≤ idle_count t0 m - length nows)%nat.
Proof.
  revert m. induction nows as [|now nows IH]; intros m Hi; simpl; [intros; split; [done|lia]|].
  intros [Hn Hs] [Ht Hall]%Forall_cons. destruct (pass_idle m now t0 Hi Hn Ht) as (Hi' & Htm & Hc).
  destruct (IH (clear_inactive m now).2 Hi') as [Hi2 Hc2]; [by rewrite Htm|done|].
  split; [done|]. lia.
Qed.
End runs.
Arguments conv_op _ : clear implicits.

(** * Theorems *)
Section theorems.
Context {T : Type} `{Countable T}.
Implicit Types (m : ConvManager T).

(** In every state the callers can reach, the two hash maps are inverse to each
    other, the activity map has the same conversations, the ordered set holds exactly
    the (time, conversation) pairs of the activity map in ascending order, and the
    reported length is the number of entries of that set. *)
Theorem conv_reachable_inv (m : ConvManager T) (Hr : conv_reachable m) :
  conv_inv m ∧ conv_len m = zlen (lru m).
Proof.
  pose proof (reachable_inv m Hr). split; [done|]. by apply conv_len_lru.
Qed.

(** One expiry pass, when more than a second has passed since the last: it
    removes only conversations idle for the timeout, exactly
    [min (idle conversations) (size / 30 + 1)] of them, each once and least recently
    active first, hands back their data, and leaves every other entry unchanged. *)
Theorem clear_inactive_exact (m : ConvManager T) (now : Z)
    (Hi : conv_inv m) (Hn : last_clear_time m + CONV_CLEAR_INTERVAL_MS < now) :
  let '(gone, m') := clear_inactive m now in
  (∀ c d, (c, d) ∈ gone → ∃ ts, table m !! c = Some (d, ts) ∧ idle now ts) ∧
  table m' = filter (λ p, p.1 ∉ gone.*1) (table m) ∧
  NoDup gone.*1 ∧
  zlen gone = Z.min (Z.of_nat (idle_count now m)) (conv_len m / 30 + 1) ∧
  (∀ c p c' p', c ∈ gone.*1 → table m !! c = Some p → table m' !! c' = Some p' → p.2 ≤ p'.2).
Proof.
  rewrite idle_count_lru, conv_len_lru by done.
  destruct (clear_inactive_spec m now Hi Hn) as (k & gone & m' & -> & _ & Hr).
  set (m0 := mkConvManager _ _ _ _ now) in *.
  assert (conv_inv m0) as Hi0 by (destruct Hi; by constructor).
  pose proof (run_count _ m0 now k gone m' Hi0 (pass_limit_le m) Hr) as Hk. simpl in Hk.
  pose proof (er_gone _ _ _ _ _ _ Hr) as Hg. cbn [lru m0] in Hg.
  assert (∀ c, c ∈ gone.*1 → ∃ ts, (ts, c) ∈ take k (lru m)) as Hgone.
  { intros c. rewrite Hg, list_elem_of_fmap. intros ([ts c'] & -> & ?). by exists ts. }
  pose proof (take_drop k (lru m)) as Htd. pose proof (ci_sorted m Hi) as Hso.
  assert (∀ ts c, (ts, c) ∈ take k (lru m) → last_active m !! c = Some ts) as Hact.
  { intros ts c Hin. apply (ci_lru m Hi). rewrite <-Htd. apply elem_of_app. by left. }
  split_and!.
  - intros c d Hc. pose proof (er_data _ _ _ _ _ _ Hr) as Hd. eapply Forall_forall in Hd; [|done].
    destruct (Hgone c) as [ts Hts]; [by apply (list_elem_of_fmap_2 fst _ (c, d))|].
    exists ts. pose proof (er_idle _ _ _ _ _ _ Hr) as Hid. eapply Forall_forall in Hid; [|done].
    split; [|done]. apply table_lookup. auto.
  - apply (er_table _ _ _ _ _ _ Hr).
  - rewrite Hg. apply NoDup_fmap_2_strong.
    + intros [t1 c1] [t2 c2] H1 H2. simpl. intros <-. apply Hact in H1, H2. congruence.
    + rewrite <-Htd in Hso. by apply PairSet.sorted_NoDup, NoDup_app in Hso as [? _].
  - apply (f_equal length) in Hg. rewrite !length_fmap, length_take in Hg. rewrite Hg.
    pose proof (length_filter (λ p : Z * Z, idle now p.1) (lru m)).
    unfold pass_limit, num_to_clean, CONV_CLEAR_MIN, CONV_CLEAR_RATIO in Hk.
    pose proof (Z.div_pos (zlen (lru m)) 30). lia.
  - intros c [d ts] c' [d' ts'] Hc Hl Hl'. simpl. destruct (Hgone c Hc) as [ts1 Hts].
    pose proof (Hact _ _ Hts) as Ha1.
    apply table_lookup in Hl as [_ Hl]. apply table_lookup in Hl' as [_ Hl'].
    apply (ci_lru m' (er_inv _ _ _ _ _ _ Hr)) in Hl'. rewrite (er_lru _ _ _ _ _ _ Hr) in Hl'.
    cbn [lru m0] in Hl'. assert (ts1 = ts) as -> by congruence. rewrite <-Htd in Hso.
    pose proof (StronglySorted_app_1_elem_of _ _ _ _ _ Hso Hts Hl') as Hlt.
    unfold PairSet.lt in Hlt. simpl in Hlt. lia.
Qed.

(** The manager holds this table, and last expired at that time: each of the containers is
    determined by the table. *)
Record represents m (tbl : gmap Z (T * Z)) (time : Z) : Prop := {
  rp_data c : conv_to_data m !! c = fst <$> tbl !! c;
  rp_active c : last_active m !! c = snd <$> tbl !! c;
  rp_back d c : data_to_conv m !! d = Some c ↔ ∃ ts, tbl !! c = Some (d, ts);
  rp_sorted : PairSet.sorted (lru m);
  rp_lru ts c : (ts, c) ∈ lru m ↔ ∃ d, tbl !! c = Some (d, ts);
  rp_time : last_clear_time m = time }.
Lemma represents_inv m tbl time : represents m tbl time → conv_inv m ∧ table m = tbl ∧ last_clear_time m = time.
Proof.
  intros [Hd Ha Hb Hs Hl Ht]. split; [|split; [|done]].
  - constructor; [..|done|].
    + intros c d. rewrite Hd. destruct (tbl !! c) as [[d' ts]|] eqn:E; [|done]. intros [= ->]. apply Hb. by exists ts.
    + intros d c [ts E]%Hb. by rewrite Hd, E.
    + intros c. rewrite Hd, Ha. by destruct (tbl !! c).
    + intros ts c. rewrite Hl, Ha. destruct (tbl !! c) as [[d' ts']|]; naive_solver.
  - apply map_eq. intros c. unfold table. rewrite map_lookup_zip_with, Hd, Ha. by destruct (tbl !! c) as [[]|].
Qed.
Lemma inv_represents m : conv_inv m → represents m (table m) (last_clear_time m).
Proof.
  intros Hi. assert (∀ c, conv_to_data m !! c = fst <$> table m !! c) as Hd by (intros c; by rewrite table_data).
  constructor; [done|..|apply Hi| |done].
  - intros c. pose proof (ci_dom m Hi c). unfold table. rewrite map_lookup_zip_with. destruct (conv_to_data m !! c), (last_active m !! c); naive_solver.
  - intros d c. split.
    + intros E%(ci_bwd m Hi). rewrite Hd in E. destruct (table m !! c) as [[d' ts]|]; [|done]. injection E as ->. by exists ts.
    + intros [ts E]. apply (ci_fwd m Hi). by rewrite Hd, E.
  - intros ts c. rewrite (ci_lru m Hi). split; [|by intros [d [_ ?]%table_lookup]]. intros E.
    destruct (conv_to_data m !! c) as [d|] eqn:Ec; [|apply (ci_dom m Hi) in Ec; congruence]. exists d. by apply table_lookup.
Qed.
Lemma represents_intro m tbl time : conv_inv m → table m = tbl → last_clear_time m = time → represents m tbl time.
Proof. intros Hi <- <-. by apply inv_represents. Qed.

(** What expiry at time [now] does to a table: nothing within a second of the last time; else
    the idle conversations that were active least recently go, at most one more than a
    thirtieth of all. *)
Definition expires (now : Z) (tbl : gmap Z (T * Z)) (time : Z) (gone : list (Z * T)) (tbl' : gmap Z (T * Z)) (time' : Z) : Prop :=
  if decide (time + CONV_CLEAR_INTERVAL_MS < now) then
    time' = now ∧ tbl' = filter (λ p, p.1 ∉ gone.*1) tbl ∧ NoDup gone.*1 ∧
    (∀ c d, (c, d) ∈ gone → ∃ ts, tbl !! c = Some (d, ts) ∧ idle now ts) ∧
    zlen gone = Z.min (Z.of_nat (size (filter (λ p, idle now p.2.2) tbl))) (Z.of_nat (size tbl) / 30 + 1) ∧
    (∀ c p c' p', c ∈ gone.*1 → tbl !! c = Some p → tbl' !! c' = Some p' → p.2 ≤ p'.2)
  else gone = [] ∧ tbl' = tbl ∧ time' = time.
Lemma conv_len_table m : conv_inv m → conv_len m = Z.of_nat (size (table m)).
Proof.
  intros Hi. unfold conv_len. rewrite <-!(size_dom (D := gset Z)). do 2 f_equal. apply set_eq. intros c.
  by rewrite !elem_of_dom, <-!not_eq_None_Some, table_None.
Qed.
Lemma clear_inactive_early m now : ¬ (last_clear_time m + CONV_CLEAR_INTERVAL_MS < now) → clear_inactive m now = ([], m).
Proof.
  intros Hn. unfold clear_inactive. replace (_ <=? _) with true; [done|].
  unfold saturating_sub, CONV_CLEAR_INTERVAL_MS in *. destruct (now <? last_clear_time m) eqn:?; blia.
Qed.
Lemma clear_inactive_expires m now : conv_inv m →
  let '(gone, m') := clear_inactive m now in expires now (table m) (last_clear_time m) gone (table m') (last_clear_time m').
Proof.
  intros Hi. unfold expires. case_decide as Hn; [|by rewrite clear_inactive_early].
  pose proof (clear_inactive_exact m now Hi Hn) as Hx. destruct (clear_inactive_spec m now Hi Hn) as (k & gone & m' & E & Ht & _).
  rewrite E in *. rewrite conv_len_table in Hx by done. destruct Hx as (H1 & H2 & H3 & H4 & H5). by split_and!.
Qed.
Lemma new_conv_spec m draws : match new_conv m draws with
  | Some (c, rest) => ∃ skipped, draws = skipped ++ c :: rest ∧ c ≠ 0 ∧ conv_to_data m !! c = None ∧ Forall (λ x, x = 0 ∨ is_Some (conv_to_data m !! x)) skipped
  | None => Forall (λ x, x = 0 ∨ is_Some (conv_to_data m !! x)) draws
  end.
Proof.
  induction draws as [|c draws IH]; cbn [new_conv]; [done|]. destruct (Z.eqb_spec c 0) as [->|H0].
  - destruct (new_conv m draws) as [[c' rest]|]; [|by constructor; [left|]]. destruct IH as (sk & -> & H1 & H2 & H3). exists (0 :: sk). split_and!; try done. by constructor; [left|].
  - destruct (is_conv_used m c) eqn:E.
    + apply bool_decide_eq_true in E. destruct (new_conv m draws) as [[c' rest]|]; [|by constructor; [right|]].
      destruct IH as (sk & -> & H1 & H2 & H3). exists (c :: sk). split_and!; try done. by constructor; [right|].
    + exists []. split_and!; try done. by apply is_conv_used_false.
Qed.

(** C23. Refinement: a manager that represents a table from conversation numbers to (data, last
    activity), in all four containers, answers every query as the table says (the number
    of conversations, whether a number or some data is used, the lookups in both
    directions, and a new number: the first one drawn that is neither zero nor used), and
    every change leaves a manager that represents the changed table: insertion of an unused
    number and data, refresh, removal, clearing (both hand back the data removed, each
    once) and expiry, which removes the conversations idle for the timeout, the least
    recently active first, at most one more than a thirtieth of all, once a second.  The
    new manager represents the empty table. *)
Theorem conv_refines (m : ConvManager T) (tbl : gmap Z (T * Z)) (time c : Z) (d : T) (now : Z) (draws : list Z) (Hr : represents m tbl time) :
  represents ConvManager_new ∅ 0 ∧
  conv_len m = Z.of_nat (size tbl) ∧ conv_is_empty m = bool_decide (tbl = ∅) ∧
  is_conv_used m c = bool_decide (is_Some (tbl !! c)) ∧
  (is_data_used m d = true ↔ ∃ c ts, tbl !! c = Some (d, ts)) ∧
  find_data_by_conv m c = fst <$> tbl !! c ∧
  (find_conv_by_data m d = Some c ↔ ∃ ts, tbl !! c = Some (d, ts)) ∧
  match new_conv m draws with
  | Some (c, rest) => ∃ skipped, draws = skipped ++ c :: rest ∧ c ≠ 0 ∧ tbl !! c = None ∧ Forall (λ x, x = 0 ∨ is_Some (tbl !! x)) skipped
  | None => Forall (λ x, x = 0 ∨ is_Some (tbl !! x)) draws
  end ∧
  (tbl !! c = None → (∀ c ts, tbl !! c ≠ Some (d, ts)) → represents (conv_insert m c d now) (<[c := (d, now)]> tbl) time) ∧
  represents (update_active_time m c now) (alter (λ p, (p.1, now)) c tbl) time ∧
  (conv_erase m c).1 = fst <$> tbl !! c ∧ represents (conv_erase m c).2 (delete c tbl) time ∧
  (conv_clear m).1 ≡ₚ (λ p, p.2.1) <$> map_to_list tbl ∧ represents (conv_clear m).2 ∅ time ∧
  let '(gone, m') := clear_inactive m now in ∃ tbl' time', represents m' tbl' time' ∧ expires now tbl time gone tbl' time'.
Proof.
  pose proof Hr as (Hi & <- & <-)%represents_inv. destruct (table_erase m c Hi) as [He1 He2].
  assert (conv_to_data m = fst <$> table m) as Hfst by (apply map_eq; intros c'; by rewrite lookup_fmap, table_data).
  assert (∀ x, is_Some (conv_to_data m !! x) ↔ is_Some (table m !! x)) as Hsome by (intros x; rewrite Hfst, lookup_fmap; apply fmap_is_Some).
  split_and!; try done.
  - by apply represents_intro; [apply conv_inv_new|..].
  - by apply conv_len_table.
  - unfold conv_is_empty. apply bool_decide_ext. rewrite Hfst. apply fmap_empty_iff.
  - unfold is_conv_used. apply bool_decide_ext, Hsome.
  - unfold is_data_used. rewrite bool_decide_eq_true. unfold is_Some. by setoid_rewrite (rp_back _ _ _ Hr).
  - apply (rp_data _ _ _ Hr).
  - apply (rp_back _ _ _ Hr).
  - pose proof (new_conv_spec m draws) as Hn. destruct (new_conv m draws) as [[c' rest]|].
    + destruct Hn as (sk & -> & H1 & H2 & H3). exists sk. split_and!; [done|done|by apply table_None|]. eapply Forall_impl; [done|]. intros x [?|?%Hsome]; [by left|by right].
    + eapply Forall_impl; [done|]. intros x [?|?%Hsome]; [by left|by right].
  - intros Hc Hd. apply represents_intro; [|apply table_insert|done]. apply conv_inv_insert; [done|by apply table_None|].
    destruct (data_to_conv m !! d) as [c'|] eqn:E; [|done]. apply (rp_back _ _ _ Hr) in E as [ts E]. by apply Hd in E.
  - apply represents_intro; [by apply conv_inv_update|by apply table_update|]. unfold update_active_time. by repeat case_match.
  - destruct (conv_erase m c) as [o m'] eqn:E. apply represents_intro; [by eapply conv_inv_erase|done|]. by rewrite <-(erase_clear_time m c), E.
  - unfold conv_clear. cbn [fst]. by rewrite Hfst, map_to_list_fmap, <-list_fmap_compose.
  - by apply represents_intro; [apply conv_inv_empty|..].
  - pose proof (clear_inactive_expires m now Hi) as Hx. pose proof (conv_inv_clear_inactive m now Hi) as Hi'. destruct (clear_inactive m now) as [gone m'].
    exists (table m'), (last_clear_time m'). split; [by apply inv_represents|done].
Qed.

(** Idle conversations do not survive: after as many expiry passes as there are
    conversations idle at time [t0], at times after [t0] more than a second apart, no
    conversation idle at [t0] is left. *)
Theorem clear_inactive_drains (m : ConvManager T) (t0 : Z) (nows : list Z)
    (Hi : conv_inv m) (Hs : spaced (last_clear_time m) nows) (Ht : Forall (Z.le t0) nows)
    (Hn : (idle_count t0 m ≤ length nows)%nat) :
  ∀ c d ts, table (passes m nows) !! c = Some (d, ts) → ¬ idle t0 ts.
Proof.
  destruct (passes_idle nows m t0 Hi Hs Ht) as [Hi' Hc]. intros c d ts Hl Hid.
  assert (idle_count t0 (passes m nows) = 0%nat) as H0 by lia.
  apply map_size_empty_inv, map_empty_filter_1 in H0. by apply (H0 c (d, ts)).
Qed.
End theorems.

(** * Concrete instances *)
Definition demo_convs : ConvManager Z :=
  foldl conv_run ConvManager_new [OpInsert 1 10 0; OpInsert 2 20 0; OpTouch 1 5000; OpExpire 2000].

Lemma demo_convs_reachable : conv_reachable demo_convs.
Proof. unfold demo_convs. cbn [foldl]. repeat (apply reach_step; [|vm_compute; reflexivity]). apply reach_new. Qed.

Lemma demo_convs_inv : conv_inv demo_convs.
Proof. apply reachable_inv, demo_convs_reachable. Qed.

Lemma conv_reachable_inv_witness : conv_inv demo_convs ∧ conv_len demo_convs = zlen (lru demo_convs).
Proof. apply conv_reachable_inv, demo_convs_reachable. Defined.

Definition demo_table : gmap Z (Z * Z) := {[1 := (10, 5000); 2 := (20, 0)]}.
Lemma demo_represents : represents demo_convs demo_table 2000.
Proof. apply represents_intro; [apply demo_convs_inv|vm_compute; reflexivity..]. Qed.
Lemma conv_refines_witness : new_conv demo_convs [0; 1; 7; 2] = Some (7, [2]) ∧
  represents (conv_insert demo_convs 7 30 9) (<[7 := (30, 9)]> demo_table) 2000 ∧ represents (conv_clear demo_convs).2 ∅ 2000.
Proof.
  split; [vm_compute; reflexivity|].
  destruct (conv_refines demo_convs demo_table 2000 7 30 9 [0; 1; 7; 2] demo_represents) as (_ & _ & _ & _ & _ & _ & _ & _ & Hins & _ & _ & _ & _ & Hc & _).
  split; [|exact Hc]. apply Hins; [vm_compute; reflexivity|]. intros c ts E. unfold demo_table in E. rewrite lookup_insert_Some, lookup_singleton_Some in E. naive_solver.
Defined.

Lemma clear_inactive_exact_witness :
  (clear_inactive demo_convs 180500).1 = [(2, 20)] ∧
  let '(gone, m') := clear_inactive demo_convs 180500 in NoDup gone.*1.
Proof.
  split; [vm_compute; reflexivity|].
  pose proof (clear_inactive_exact demo_convs 180500 demo_convs_inv ltac:(vm_compute; reflexivity)) as Hx.
  destruct (clear_inactive demo_convs 180500). apply Hx.
Defined.

Lemma clear_inactive_drains_witness :
  length [190000; 191001] = 2%nat ∧
  (∀ c d ts, table (passes demo_convs [190000; 191001]) !! c = Some (d, ts) → ¬ idle 190000 ts).
Proof.
  split; [reflexivity|].
  apply (clear_inactive_drains demo_convs 190000 [190000; 191001] demo_convs_inv).
  - vm_compute. auto.
  - repeat constructor; lia.
  - vm_compute. lia.
Defined.
