(* ===== verification/Types.v ===== *)
(** Shared enumerations: [src/src/types.rs]. *)
From stdpp Require Import strings.
From S2P Require Import Prelude.

Inductive RawMode := FakeTcp | RawUdp | RawIcmp.
#[export] Instance RawMode_eq_dec : EqDecision RawMode.
Proof. solve_decision. Defined.

(** The mode and whether it is the "easy" variant. *)
Definition RawMode_parse (s : string) : option (RawMode * bool) :=
  if decide (s = "faketcp") then Some (FakeTcp, false)
  else if decide (s = "easyfaketcp" ∨ s = "easy_faketcp" ∨ s = "easy-faketcp") then Some (FakeTcp, true)
  else if decide (s = "udp") then Some (RawUdp, false)
  else if decide (s = "icmp") then Some (RawIcmp, false)
  else None.
Definition RawMode_name (m : RawMode) : string :=
  match m with FakeTcp => "faketcp" | RawUdp => "udp" | RawIcmp => "icmp" end.

Inductive Syscalls := SysAuto | SysMmsg | SysSingle.
#[export] Instance Syscalls_eq_dec : EqDecision Syscalls.
Proof. solve_decision. Defined.

Definition Syscalls_parse (s : string) : option Syscalls :=
  if decide (s = "auto") then Some SysAuto
  else if decide (s = "mmsg") then Some SysMmsg
  else if decide (s = "single") then Some SysSingle
  else None.
Definition Syscalls_name (m : Syscalls) : string :=
  match m with SysAuto => "auto" | SysMmsg => "mmsg" | SysSingle => "single" end.

Definition decide_syscalls (has_lse : bool) (sw_pan : option bool) : Syscalls * string :=
  if has_lse then (SysMmsg, "cpu has LSE atomics: ARMv8.1+ with hardware PAN"%string) else
  match sw_pan with
  | Some false => (SysMmsg, "ARMv8.0 cpu, kernel built without software PAN"%string)
  | Some true => (SysSingle, "ARMv8.0 cpu, kernel uses software PAN (CONFIG_ARM64_SW_TTBR0_PAN)"%string)
  | None => (SysSingle, "ARMv8.0 cpu, kernel config not readable: assuming software PAN"%string)
  end.

(** [lse] and [sw_pan] are what the CPU and the kernel configuration say. *)
Definition Syscalls_resolve (lse : bool) (sw_pan : option bool) (m : Syscalls) : Syscalls * string :=
  match m with
  | SysAuto => decide_syscalls lse (if lse then None else sw_pan)
  | m => (m, "requested"%string)
  end.

Lemma RawMode_parse_name m : RawMode_parse (RawMode_name m) = Some (m, false).
Proof. by destruct m. Qed.
Lemma Syscalls_parse_name m : Syscalls_parse (Syscalls_name m) = Some m.
Proof. by destruct m. Qed.
(** The resolved choice is never [Auto]. *)
Lemma Syscalls_resolve_not_auto lse sw_pan m : (Syscalls_resolve lse sw_pan m).1 ≠ SysAuto.
Proof. destruct m, lse, sw_pan as [[]|]; done. Qed.
