(* ===== verification/Text.v ===== *)
(** The Standard Library's text functions that the endpoint state files use: splitting,
    decimal numbers, IPv4 addresses, UTF-8 validity and trimming.  Text is the list of its
    UTF-8 bytes. *)
From stdpp Require Import strings.
From S2P Require Import Prelude.

(** ASCII text. *)
Definition str (s : string) : list Z :=
  (λ a, Z.of_nat (Ascii.nat_of_ascii a)) <$> String.list_ascii_of_string s.

(** * [str::split], [join], [strip_prefix], [strip_suffix], [contains] *)
Fixpoint split_on (sep : Z) (l : list Z) : list (list Z) :=
  match l with
  | [] => [[]]
  | c :: l =>
      if c =? sep then [] :: split_on sep l
      else match split_on sep l with h :: t => (c :: h) :: t | [] => [[c]] end
  end.
Fixpoint join (sep : Z) (ls : list (list Z)) : list Z :=
  match ls with
  | [] => []
  | [x] => x
  | x :: ls => x ++ sep :: join sep ls
  end.
Definition strip_prefix (p l : list Z) : option (list Z) :=
  if bool_decide (take (length p) l = p) then Some (drop (length p) l) else None.
(** [s.strip_suffix(c).unwrap_or(s)] *)
Definition strip_last (c : Z) (l : list Z) : list Z :=
  if bool_decide (last l = Some c) then take (length l - 1) l else l.
Definition contains (c : Z) (l : list Z) : bool := bool_decide (c ∈ l).

Lemma split_on_nonempty sep l : split_on sep l ≠ [].
Proof. destruct l as [|c l]; cbn; [done|]. destruct (_ =? _); [done|]. by destruct (split_on sep l). Qed.

Lemma split_on_app sep x l : sep ∉ x →
  split_on sep (x ++ sep :: l) = x :: split_on sep l.
Proof.
  induction x as [|c x IH]; cbn; intros Hx; [by rewrite Z.eqb_refl|].
  apply not_elem_of_cons in Hx as [Hc Hx]. destruct (Z.eqb_spec c sep); [congruence|]. by rewrite IH.
Qed.
Lemma split_on_none sep x : sep ∉ x → split_on sep x = [x].
Proof.
  induction x as [|c x IH]; cbn; intros Hx; [done|].
  apply not_elem_of_cons in Hx as [Hc Hx]. destruct (Z.eqb_spec c sep); [congruence|]. by rewrite IH.
Qed.
Lemma split_join sep ls : ls ≠ [] → Forall (λ x, sep ∉ x) ls → split_on sep (join sep ls) = ls.
Proof.
  intros Hn H. induction H as [|x [|y ls] Hx Hls IH]; [done|by apply split_on_none|].
  change (join sep (x :: y :: ls)) with (x ++ sep :: join sep (y :: ls)).
  rewrite split_on_app by done. by rewrite IH.
Qed.

Lemma elem_of_join c sep ls : c ∈ join sep ls → c = sep ∨ ∃ x, x ∈ ls ∧ c ∈ x.
Proof.
  induction ls as [|x [|y ls] IH]; [by intros ?%elem_of_nil| |].
  - cbn. intros Hc. right. exists x. split; [by left|done].
  - change (join sep (x :: y :: ls)) with (x ++ sep :: join sep (y :: ls)).
    intros [Hc|[->|Hc]%elem_of_cons]%elem_of_app.
    + right. exists x. split; [by left|done].
    + by left.
    + destruct (IH Hc) as [->|(z & Hz & Hcz)]; [by left|]. right. exists z. split; [by right|done].
Qed.

Lemma strip_prefix_app p l : strip_prefix p (p ++ l) = Some l.
Proof. unfold strip_prefix. rewrite take_app_length, drop_app_length. by rewrite bool_decide_true. Qed.
Lemma strip_last_app c l : strip_last c (l ++ [c]) = l.
Proof.
  unfold strip_last. rewrite last_snoc, bool_decide_true, length_app by done. cbn.
  by rewrite Nat.add_sub, take_app_length.
Qed.

(** * Decimal numbers *)
Definition is_digit (c : Z) : bool := (48 <=? c) && (c <=? 57).
(** [u32], [u64], [u8] as [Display]; a [u64] has at most 20 digits. *)
Fixpoint digits (fuel : nat) (z : Z) : list Z :=
  match fuel with
  | O => []
  | S fuel => (if z <? 10 then [] else digits fuel (z / 10)) ++ [48 + z mod 10]
  end.
Definition DEC_FUEL : nat := 20.
Definition dec_string (z : Z) : list Z := digits DEC_FUEL z.
Fixpoint dec_value (acc : Z) (l : list Z) : option Z :=
  match l with
  | [] => Some acc
  | c :: l => if is_digit c then dec_value (acc * 10 + (c - 48)) l else None
  end.
(** [s.parse::<u_w>()]: an optional plus sign, then digits, within the width. *)
Definition parse_uint (w : Z) (s : list Z) : option Z :=
  match s with
  | [] => None
  | c :: r =>
      let s := if (c =? 43) && negb (bool_decide (r = [])) then r else s in
      match dec_value 0 s with
      | Some v => if v <? 2 ^ w then Some v else None
      | None => None
      end
  end.

Lemma dec_value_app acc l k : dec_value acc (l ++ k) = (v ← dec_value acc l; dec_value v k).
Proof. revert acc. induction l as [|c l IH]; intros acc; cbn; [done|]. by destruct (is_digit c). Qed.

Lemma digits_props fuel z : 0 ≤ z < 10 ^ Z.of_nat fuel →
  dec_value 0 (digits fuel z) = Some z ∧ Forall (λ c, is_digit c = true) (digits fuel z) ∧
  (1 ≤ fuel → digits fuel z ≠ [])%nat ∧ (length (digits fuel z) ≤ fuel)%nat ∧
  (10 ≤ z → head (digits fuel z) ≠ Some 48).
Proof.
  revert z. induction fuel as [|fuel IH]; intros z Hz.
  { replace z with 0 by (cbn in Hz; lia). cbn. split_and!; try done; lia. }
  cbn [digits]. rewrite Nat2Z.inj_succ, Z.pow_succ_r in Hz by lia.
  pose proof (Z.mod_pos_bound z 10). pose proof (Z.div_mod z 10).
  assert (is_digit (48 + z mod 10) = true) as Hd by (unfold is_digit; lia).
  destruct (Z.ltb_spec z 10).
  - cbn [app]. split_and!; [|by repeat constructor|done|cbn; lia|lia].
    cbn. rewrite Hd. f_equal. rewrite Z.mod_small by lia. lia.
  - destruct (IH (z / 10)) as (Hv & Hf & Hn & Hl & Hh); [split; [apply Z.div_pos; lia|apply Z.div_lt_upper_bound; lia]|].
    split_and!.
    + rewrite dec_value_app, Hv. cbn. rewrite Hd. f_equal. lia.
    + apply Forall_app_2; [done|by repeat constructor].
    + intros _ E. apply (f_equal length) in E. rewrite length_app in E. cbn in E. lia.
    + rewrite length_app. cbn. lia.
    + intros _. assert (1 ≤ fuel)%nat as Hf1 by (destruct fuel; [cbn in Hz; lia|lia]).
      destruct (digits fuel (z / 10)) as [|d l] eqn:E; [by destruct (Hn Hf1)|]. cbn.
      destruct (Z.leb_spec 10 (z / 10)); [by apply Hh|].
      destruct fuel as [|fuel]; [done|]. cbn [digits] in E. rewrite (proj2 (Z.ltb_lt _ _)) in E by done.
      cbn in E. injection E as <- <-. intros [= E].
      pose proof (Z.div_le_lower_bound z 10 1). rewrite Z.mod_small in E by (split; [apply Z.div_pos|]; lia). lia.
Qed.

Lemma u64_digits z : is_u 64 z → 0 ≤ z < 10 ^ Z.of_nat DEC_FUEL.
Proof. unfold is_u, DEC_FUEL. cbn. lia. Qed.

Lemma parse_dec w z : w ≤ 64 → is_u w z → parse_uint w (dec_string z) = Some z.
Proof.
  intros Hw Hz. assert (0 ≤ w) by (destruct (Z.neg_nonneg_cases w); [|lia]; unfold is_u in Hz; rewrite Z.pow_neg_r in Hz; lia).
  destruct (digits_props DEC_FUEL z) as (Hv & Hf & Hn & _ & _); [apply u64_digits; by apply (is_u_mono w)|].
  unfold parse_uint, dec_string. destruct (digits DEC_FUEL z) as [|c l] eqn:E; [by destruct Hn; [unfold DEC_FUEL; lia|]|].
  apply Forall_cons in Hf as [Hc _]. unfold is_digit in Hc.
  rewrite (proj2 (Z.eqb_neq c 43)) by lia. cbn [andb]. rewrite Hv.
  by rewrite (proj2 (Z.ltb_lt _ _)) by apply Hz.
Qed.

Lemma dec_string_nonempty z : is_u 64 z → dec_string z ≠ [].
Proof. intros Hz. apply (digits_props DEC_FUEL z (u64_digits z Hz)). unfold DEC_FUEL. lia. Qed.
Lemma dec_string_digits z : is_u 64 z → Forall (λ c, is_digit c = true) (dec_string z).
Proof. intros Hz. apply (digits_props DEC_FUEL z (u64_digits z Hz)). Qed.
Lemma dec_string_length z : is_u 64 z → (length (dec_string z) ≤ 20)%nat.
Proof. intros Hz. apply (digits_props DEC_FUEL z (u64_digits z Hz)). Qed.

(** * IPv4 addresses *)
Definition ipv4_string (o : list Z) : list Z := join 46 (dec_string <$> o).
Definition parse_octet (s : list Z) : option Z :=
  if (zlen s <? 1) || (3 <? zlen s) then None else
  if (1 <? zlen s) && bool_decide (head s = Some 48) then None else
  match dec_value 0 s with
  | Some v => if v <? 256 then Some v else None
  | None => None
  end.
(** [s.parse::<Ipv4Addr>()]: four octets without leading zeros. *)
Definition parse_ipv4 (s : list Z) : option (list Z) :=
  let parts := split_on 46 s in
  if zlen parts =? 4 then mapM parse_octet parts else None.

Definition v4_ok (o : list Z) : Prop := bytes o ∧ length o = 4%nat.

Lemma byte_digits z : is_byte z → dec_string z = digits 3 z.
Proof.
  intros Hz. unfold is_u in Hz. unfold dec_string, DEC_FUEL. cbn [digits].
  destruct (Z.ltb_spec z 10); [done|]. destruct (Z.ltb_spec (z / 10) 10); [done|].
  assert (z / 10 / 10 < 10) by (rewrite Z.div_div by lia; apply Z.div_lt_upper_bound; lia).
  by rewrite (proj2 (Z.ltb_lt (z / 10 / 10) 10)) by lia.
Qed.

Lemma parse_octet_dec z : is_byte z → parse_octet (dec_string z) = Some z.
Proof.
  intros Hz. rewrite byte_digits by done. unfold is_u in Hz.
  destruct (digits_props 3 z) as (Hv & Hf & Hn & Hl & Hh); [cbn; lia|]. unfold parse_octet.
  destruct (digits 3 z) as [|c l] eqn:E; [by destruct Hn; [lia|]|].
  rewrite (proj2 (Z.ltb_ge (zlen (c :: l)) 1)), (proj2 (Z.ltb_ge 3 (zlen (c :: l)))) by (cbn [length] in *; lia).
  cbn [orb]. destruct (Z.ltb_spec 1 (zlen (c :: l))).
  - rewrite bool_decide_false, Hv; [|apply Hh].
    + cbn [andb]. by rewrite (proj2 (Z.ltb_lt _ _)) by lia.
    + cbn [digits] in E. destruct (Z.ltb_spec z 10); [injection E as <- <-; cbn in *; lia|lia].
  - cbn [andb]. rewrite Hv. by rewrite (proj2 (Z.ltb_lt _ _)) by lia.
Qed.

Lemma dec_no_char c z : is_digit c = false → is_u 64 z → c ∉ dec_string z.
Proof. intros Hc Hz Hi. pose proof (proj1 (Forall_forall _ _) (dec_string_digits z Hz) c Hi). congruence. Qed.

Lemma byte_u64 z : is_byte z → is_u 64 z.
Proof. apply is_u_mono. lia. Qed.

Lemma parse_ipv4_string o : v4_ok o → parse_ipv4 (ipv4_string o) = Some o.
Proof.
  intros [Hb Hl]. unfold parse_ipv4, ipv4_string. rewrite split_join.
  - rewrite length_fmap, Hl. change (Z.of_nat 4 =? 4) with true. cbn iota.
    apply mapM_Some_2, Forall2_fmap_l, Forall_Forall2_diag, (Forall_impl _ _ _ Hb). apply parse_octet_dec.
  - destruct o; [done|]. done.
  - apply Forall_fmap, (Forall_impl _ _ _ Hb). intros z Hz. apply dec_no_char; [done|by apply byte_u64].
Qed.

Lemma ipv4_chars o c : v4_ok o → c ∈ ipv4_string o → is_digit c = true ∨ c = 46.
Proof.
  intros [Hb _] [->|(x & Hx & Hc)]%elem_of_join; [by right|]. apply list_elem_of_fmap in Hx as (z & -> & Hz).
  left. assert (is_u 64 z) as Hu by (by apply byte_u64, (proj1 (Forall_forall _ _) Hb)).
  exact (proj1 (Forall_forall _ _) (dec_string_digits z Hu) c Hc).
Qed.

(** * UTF-8 and white space *)
Definition cont (c : Z) : bool := (128 <=? c) && (c <=? 191).
Definition in_range (a b c : Z) : bool := (a <=? c) && (c <=? b).
(** [std::str::from_utf8] succeeds: well-formed byte sequences of the Unicode standard. *)
Fixpoint utf8_valid (l : list Z) : bool :=
  match l with
  | [] => true
  | a :: l1 =>
      if a <? 128 then utf8_valid l1 else
      match l1 with
      | [] => false
      | b :: l2 =>
          if in_range 194 223 a then cont b && utf8_valid l2 else
          match l2 with
          | [] => false
          | c :: l3 =>
              if in_range 224 239 a then
                in_range (if a =? 224 then 160 else 128) (if a =? 237 then 159 else 191) b && cont c && utf8_valid l3
              else
              match l3 with
              | [] => false
              | d :: l4 =>
                  in_range 240 244 a &&
                  in_range (if a =? 240 then 144 else 128) (if a =? 244 then 143 else 191) b &&
                  cont c && cont d && utf8_valid l4
              end
          end
      end
  end.

(** The characters [char::is_whitespace] accepts, in UTF-8. *)
Definition white_space : list (list Z) :=
  ((λ c, [c]) <$> [9; 10; 11; 12; 13; 32]) ++ [[0xc2; 0x85]; [0xc2; 0xa0]; [0xe1; 0x9a; 0x80]] ++
  ((λ c, [0xe2; 0x80; c]) <$> [0x80; 0x81; 0x82; 0x83; 0x84; 0x85; 0x86; 0x87; 0x88; 0x89; 0x8a; 0xa8; 0xa9; 0xaf]) ++
  [[0xe2; 0x81; 0x9f]; [0xe3; 0x80; 0x80]].
(** [s.trim() == s] *)
Definition is_trimmed (l : list Z) : bool :=
  negb (existsb (λ w, bool_decide (take (length w) l = w) || bool_decide (drop (length l - length w) l = w)) white_space).

(** Printable ASCII without the blank. *)
Definition graphic (c : Z) : Prop := 33 ≤ c ≤ 126.
Lemma graphic_digit c : is_digit c = true → graphic c.
Proof. unfold is_digit, graphic. lia. Qed.

Lemma utf8_ascii l : Forall (λ c, c < 128) l → utf8_valid l = true.
Proof. induction 1 as [|c l Hc _ IH]; [done|]. cbn [utf8_valid]. by rewrite (proj2 (Z.ltb_lt _ _)). Qed.

Lemma graphic_trimmed l : Forall graphic l → is_trimmed l = true.
Proof.
  intros Hl. unfold is_trimmed. apply negb_true_iff. apply not_true_is_false. intros (w & Hw & Hm)%existsb_exists.
  assert (∃ c, c ∈ w ∧ ¬ graphic c) as (c & Hc & Hg).
  { assert (Forall (λ w, ∃ c, c ∈ w ∧ ¬ graphic c) white_space) as H.
    { unfold white_space, graphic. cbn. repeat (constructor; [eexists; split; [left|lia]|]). constructor. }
    apply (proj1 (Forall_forall _ _) H). by apply list_elem_of_In. }
  apply Hg, (proj1 (Forall_forall _ _) Hl). apply orb_true_iff in Hm as [E|E]; apply bool_decide_eq_true in E; rewrite <-E in Hc.
  - by apply elem_of_take in Hc as (i & ? & _); apply list_elem_of_lookup; exists i.
  - apply list_elem_of_lookup in Hc as (i & Hi). rewrite lookup_drop in Hi. apply list_elem_of_lookup. eauto.
Qed.

(** [strict_field]: [name=value] with a canonical value. *)
Definition strict_field (line name : list Z) : option (list Z) :=
  match strip_prefix (name ++ [61]) line with
  | None => None
  | Some value =>
      if bool_decide (value = []) || negb (is_trimmed value) || contains 61 value then None else Some value
  end.

Lemma strict_field_ok name value : value ≠ [] → Forall graphic value → 61 ∉ value →
  strict_field (name ++ 61 :: value) name = Some value.
Proof.
  intros Hn Hg He. unfold strict_field, contains.
  replace (name ++ 61 :: value) with ((name ++ [61]) ++ value) by by rewrite <-app_assoc.
  rewrite strip_prefix_app, bool_decide_false, graphic_trimmed, bool_decide_false by done. done.
Qed.

(** * Lines and words *)
(** [str::lines]: a line ends with a newline, before which a carriage return is dropped; a last
    line without a newline is kept as it is, unless it is empty. *)
Fixpoint line_list (parts : list (list Z)) : list (list Z) :=
  match parts with
  | [] => []
  | [x] => if bool_decide (x = []) then [] else [x]
  | x :: parts => strip_last 13 x :: line_list parts
  end.
Definition text_lines (l : list Z) : list (list Z) := line_list (split_on 10 l).

(** The length of the white-space character at the head. *)
Definition white_len (l : list Z) : option nat :=
  length <$> head (filter (λ w, take (length w) l = w) white_space).
(** [str::split_whitespace]; each step consumes a byte. *)
Fixpoint words_from (fuel : nat) (l cur : list Z) : list (list Z) :=
  match fuel, l with
  | S fuel, c :: r =>
      match white_len l with
      | Some n => (if bool_decide (cur = []) then [] else [cur]) ++ words_from fuel (drop n l) []
      | None => words_from fuel r (cur ++ [c])
      end
  | _, _ => if bool_decide (cur = []) then [] else [cur]
  end.
Definition split_whitespace (l : list Z) : list (list Z) := words_from (length l) l [].

Definition strip_suffix (p l : list Z) : option (list Z) :=
  if bool_decide (drop (length l - length p) l = p) then Some (take (length l - length p) l) else None.

Lemma white_len_graphic c l : graphic c → white_len (c :: l) = None.
Proof.
  intros Hc. unfold white_len. destruct (head _) as [w|] eqn:E; [|done]. exfalso.
  apply list.head_Some_elem_of, list_elem_of_filter in E as [E Hw].
  assert (Forall (λ w, ∃ d k, w = d :: k ∧ ¬ graphic d) white_space) as H.
  { unfold white_space, graphic. cbn. repeat (constructor; [do 2 eexists; split; [reflexivity|lia]|]). constructor. }
  apply (proj1 (Forall_forall _ _) H) in Hw as (d & k & -> & Hd). cbn in E. injection E as <- _. done.
Qed.
Lemma words_graphic x : ∀ fuel l cur, Forall graphic x → (length x ≤ fuel)%nat →
  words_from fuel (x ++ l) cur = words_from (fuel - length x) l (cur ++ x).
Proof.
  induction x as [|c x IH]; intros fuel l cur Hx Hf; cbn [app length]; [by rewrite Nat.sub_0_r, app_nil_r|].
  apply Forall_cons in Hx as [Hc Hx]. destruct fuel as [|fuel]; cbn [length] in Hf; [lia|]. cbn [words_from].
  rewrite white_len_graphic by done. rewrite IH by (done || lia). by rewrite <-app_assoc.
Qed.
Lemma words_join ts : ∀ fuel, Forall (λ t, t ≠ [] ∧ Forall graphic t) ts → (length (join 32 ts) ≤ fuel)%nat →
  words_from fuel (join 32 ts) [] = ts.
Proof.
  induction ts as [|t [|u ts] IH]; intros fuel Ht Hf; [by destruct fuel| |].
  - apply Forall_cons in Ht as [[Hn Ht] _]. cbn [join] in *. rewrite <-(app_nil_r t) at 1. rewrite words_graphic by done. cbn [app].
    destruct (fuel - _)%nat; cbn; by rewrite bool_decide_false.
  - change (join 32 (t :: u :: ts)) with (t ++ 32 :: join 32 (u :: ts)) in *.
    apply Forall_cons in Ht as [[Hn Ht] Hts]. rewrite length_app in Hf. cbn [length] in Hf. rewrite words_graphic by (done || lia).
    destruct (fuel - length t)%nat as [|f] eqn:Ef; [lia|]. cbn [words_from]. change (white_len (32 :: _)) with (Some 1%nat).
    cbn iota. cbn [app drop]. rewrite bool_decide_false by done. cbn [app]. rewrite drop_0. f_equal. apply IH; [done|lia].
Qed.
Lemma split_whitespace_join ts : Forall (λ t, t ≠ [] ∧ Forall graphic t) ts → split_whitespace (join 32 ts) = ts.
Proof. intros. by apply words_join. Qed.

(** * Hexadecimal and IPv6 text *)
Definition hex_digit (d : Z) : Z := if d <? 10 then 48 + d else 87 + d.
(** [{:x}] of a number of at most [fuel] hexadecimal digits. *)
Fixpoint hex_digits (fuel : nat) (z : Z) : list Z :=
  match fuel with
  | O => []
  | S fuel => (if z <? 16 then [] else hex_digits fuel (z / 16)) ++ [hex_digit (z mod 16)]
  end.
Definition hex_u32 (z : Z) : list Z := hex_digits 8 z.

(** [Ipv6Addr]'s segments. *)
Fixpoint segments (o : list Z) : list Z :=
  match o with a :: b :: o => a * 256 + b :: segments o | _ => [] end.
(** The first longest run of zero segments: its start and length. *)
Fixpoint zero_run (segs : list Z) (i : nat) (cur best : nat * nat) : nat * nat :=
  match segs with
  | [] => best
  | s :: segs =>
      if s =? 0 then
        let cur := if (cur.2 =? 0)%nat then (i, 1%nat) else (cur.1, S cur.2) in
        zero_run segs (S i) cur (if (best.2 <? cur.2)%nat then cur else best)
      else zero_run segs (S i) (0%nat, 0%nat) best
  end.
(** [Display]: the IPv4-mapped form, the compressed form, or all segments. *)
Definition ipv6_string (o : list Z) : list Z :=
  let segs := segments o in
  if bool_decide (take 6 segs = [0; 0; 0; 0; 0; 0xffff]) then str "::ffff:" ++ ipv4_string (drop 12 o) else
  let '(start, len) := zero_run segs 0 (0%nat, 0%nat) (0%nat, 0%nat) in
  let text l := join 58 (hex_digits 4 <$> l) in
  if (1 <? len)%nat then text (take start segs) ++ str "::" ++ text (drop (start + len) segs) else text segs.
