(* ===== verification/NetText.v ===== *)
(** Addresses as text: the Standard Library's parser of IPv4, IPv6 and socket addresses
    ([str::parse] at [Ipv4Addr], [IpAddr] and [SocketAddr]) and their [Display].  A reader takes
    a prefix of the text and returns what is left; on failure the text is as before. *)
From stdpp Require Import strings.
From S2P Require Import Prelude Text Ip.

Definition COLON : Z := 58.
Definition to_digit (radix c : Z) : option Z :=
  let d := if in_range 48 57 c then Some (c - 48) else if in_range 97 122 c then Some (c - 87)
           else if in_range 65 90 c then Some (c - 55) else None in
  match d with Some d => if d <? radix then Some d else None | None => None end.

(** * Readers *)
Definition reader (A : Type) := list Z → option (A * list Z).
Definition read_given_char (c : Z) : reader unit :=
  λ l, match l with d :: r => if d =? c then Some (tt, r) else None | [] => None end.
Definition read_separator {A} (sep : Z) (index : nat) (inner : reader A) : reader A :=
  λ l, match index with O => inner l | S _ => r ← read_given_char sep l; inner r.2 end.
(** The digits of a number: with a maximal count no overflow is possible, without one it is
    checked. *)
Fixpoint read_digits (radix : Z) (max_digits : option nat) (w result : Z) (count : nat) (l : list Z) : option (Z * nat * list Z) :=
  match l with
  | [] => Some (result, count, [])
  | c :: r =>
      match to_digit radix c with
      | None => Some (result, count, l)
      | Some d =>
          match max_digits with
          | Some m => if (m <? S count)%nat then None else read_digits radix max_digits w (result * radix + d) (S count) r
          | None => if result * radix + d <? 2 ^ w then read_digits radix max_digits w (result * radix + d) (S count) r else None
          end
      end
  end.
Definition read_number (radix : Z) (max_digits : option nat) (allow_zero_prefix : bool) (w : Z) : reader Z :=
  λ l, '(v, n, r) ← read_digits radix max_digits w 0 0 l;
       if (n =? 0)%nat then None else
       if negb allow_zero_prefix && bool_decide (head l = Some 48) && (1 <? n)%nat then None else
       if v <? 2 ^ w then Some (v, r) else None.

#[global] Arguments read_number : simpl never.

Fixpoint read_octets (n i : nat) : reader (list Z) :=
  λ l, match n with
       | O => Some ([], l)
       | S n =>
           '(b, r) ← read_separator 46 i (read_number 10 (Some 3%nat) false 8) l;
           '(bs, r) ← read_octets n (S i) r;
           Some (b :: bs, r)
       end.
Definition read_ipv4_addr : reader (list Z) := read_octets 4 0.

(** Groups of an IPv6 address, at most [n] more, the next one the [i]th; whether an embedded IPv4
    address ended them. *)
Fixpoint read_groups (n i : nat) (l : list Z) : list Z * bool * list Z :=
  match n with
  | O => ([], false, l)
  | S n =>
      match (if (0 <? n)%nat then read_separator COLON i read_ipv4_addr l else None) with
      | Some (o, r) => (segments o, true, r)
      | None =>
          match read_separator COLON i (read_number 16 (Some 4%nat) true 16) l with
          | Some (g, r) => let '(gs, v4, r) := read_groups n (S i) r in (g :: gs, v4, r)
          | None => ([], false, l)
          end
      end
  end.
Definition group_octets (gs : list Z) : list Z := gs ≫= λ g, [g / 256; g mod 256].
Definition read_ipv6_addr : reader (list Z) :=
  λ l, let '(hd, v4, r) := read_groups 8 0 l in
       if (length hd =? 8)%nat then Some (group_octets hd, r) else
       if v4 then None else
       r ← read_given_char COLON r;
       r ← read_given_char COLON r.2;
       let '(tl, _, r) := read_groups (8 - (length hd + 1)) 0 r.2 in
       Some (group_octets (hd ++ replicate (8 - length hd - length tl) 0 ++ tl), r).
Definition read_ip_addr : reader IpAddr :=
  λ l, match read_ipv4_addr l with
       | Some (o, r) => Some (V4 o, r)
       | None => '(o, r) ← read_ipv6_addr l; Some (V6 o, r)
       end.
Definition read_port : reader Z := λ l, r ← read_given_char COLON l; read_number 10 None true 16 r.2.
Definition read_scope_id : reader Z := λ l, r ← read_given_char 37 l; read_number 10 None true 32 r.2.
Definition read_socket_addr_v4 : reader (IpAddr * Z) :=
  λ l, '(o, r) ← read_ipv4_addr l; '(p, r) ← read_port r; Some ((V4 o, p), r).
(** The scope identifier is read and dropped: socket addresses are without it here. *)
Definition read_socket_addr_v6 : reader (IpAddr * Z) :=
  λ l, r ← read_given_char 91 l;
       '(o, r) ← read_ipv6_addr r.2;
       let r := match read_scope_id r with Some (_, r) => r | None => r end in
       r ← read_given_char 93 r;
       '(p, r) ← read_port r.2;
       Some ((V6 o, p), r).
Definition read_socket_addr : reader (IpAddr * Z) :=
  λ l, match read_socket_addr_v4 l with Some x => Some x | None => read_socket_addr_v6 l end.

(** The whole text. *)
Definition parse_with {A} (inner : reader A) (l : list Z) : option A :=
  match inner l with Some (a, []) => Some a | _ => None end.
Definition parse_ip_addr : list Z → option IpAddr := parse_with read_ip_addr.
Definition parse_socket : list Z → option (IpAddr * Z) := parse_with read_socket_addr.

(** [Display] of a socket address. *)
Definition socket_string (a : IpAddr * Z) : list Z :=
  match a.1 with
  | V4 o => ipv4_string o ++ COLON :: dec_string a.2
  | V6 o => [91] ++ ipv6_string o ++ [93; COLON] ++ dec_string a.2
  end.

(** * What is read is well-formed *)
Lemma read_given_inv c l x : read_given_char c l = Some x → l = c :: x.2.
Proof. destruct l as [|d l]; cbn; [done|]. destruct (Z.eqb_spec d c) as [->|]; [|done]. by intros [= <-]. Qed.
Lemma read_separator_inv {A} sep i (inner : reader A) l x : read_separator sep i inner l = Some x →
  ∃ l', inner l' = Some x ∧ (i = 0%nat ∧ l = l' ∨ i ≠ 0%nat ∧ l = sep :: l').
Proof.
  destruct i; cbn [read_separator]; [intros; exists l; auto|]. intros ([u r] & E & Hx)%bind_Some.
  apply read_given_inv in E. exists r. auto.
Qed.
Lemma to_digit_bound radix c d : to_digit radix c = Some d → 0 ≤ d < radix.
Proof.
  unfold to_digit, in_range. destruct ((48 <=? c) && (c <=? 57)) eqn:E1; [|destruct ((97 <=? c) && (c <=? 122)) eqn:E2; [|destruct ((65 <=? c) && (c <=? 90)) eqn:E3]]; try done;
    (destruct (_ <? radix) eqn:E; [|done]); intros [= <-]; lia.
Qed.
Lemma read_digits_nonneg radix m w : ∀ l v n v' n' r, 0 ≤ v → read_digits radix m w v n l = Some (v', n', r) → 0 ≤ v'.
Proof.
  induction l as [|c l IH]; intros v n v' n' r Hv; cbn [read_digits]; [by intros [= <- _ _]|].
  destruct (to_digit radix c) as [d|] eqn:Ed; [|by intros [= <- _ _]]. apply to_digit_bound in Ed.
  destruct m as [m|]; [destruct (_ <? _)%nat; [done|]|destruct (_ <? _); [|done]]; apply IH; nia.
Qed.
Lemma read_number_u radix m z w l v r : read_number radix m z w l = Some (v, r) → is_u w v.
Proof.
  unfold read_number. intros ([[v' n] r'] & E & H)%bind_Some. apply read_digits_nonneg in E; [|lia].
  destruct (n =? 0)%nat; [done|]. destruct (_ && _); [done|]. destruct (Z.ltb_spec v' (2 ^ w)); [|done]. injection H as <- <-. by split.
Qed.
Lemma read_octets_ok n : ∀ i l o r, read_octets n i l = Some (o, r) → bytes o ∧ length o = n.
Proof.
  induction n as [|n IH]; intros i l o r; cbn [read_octets]; [by intros [= <- _]|].
  intros ([b r1] & (l' & E1 & _)%read_separator_inv & ([bs r2] & E2 & [= <- _])%bind_Some)%bind_Some.
  apply IH in E2 as [Hb <-]. apply read_number_u in E1. by split; [constructor|].
Qed.
Lemma segments_length n : ∀ o, length o = (2 * n)%nat → length (segments o) = n.
Proof. induction n as [|n IH]; intros [|a [|b o]] E; cbn in *; try lia. by rewrite (IH o) by lia. Qed.
Lemma segments_u16 n : ∀ o, length o = (2 * n)%nat → bytes o → Forall (is_u 16) (segments o).
Proof.
  induction n as [|n IH]; intros [|a [|b o]] E Hb; cbn in *; try lia; [done|].
  apply Forall_cons in Hb as [Ha Hb]. apply Forall_cons in Hb as [Hb Ho]. constructor; [unfold is_u in *; lia|by apply IH; [lia|]].
Qed.
Lemma group_octets_ok gs : Forall (is_u 16) gs → bytes (group_octets gs) ∧ length (group_octets gs) = (2 * length gs)%nat.
Proof.
  induction 1 as [|g gs Hg _ [IH1 IH2]]; [done|]. change (group_octets (g :: gs)) with ([g / 256; g mod 256] ++ group_octets gs).
  split; [|cbn [length app]; lia]. apply Forall_app_2; [|done]. unfold is_u in *. repeat constructor; try (apply Z.mod_pos_bound; lia).
  - apply Z.div_pos; lia.
  - apply Z.div_lt_upper_bound; lia.
Qed.
Lemma read_groups_ok n : ∀ i l gs v4 r, read_groups n i l = (gs, v4, r) → Forall (is_u 16) gs ∧ (length gs ≤ n)%nat.
Proof.
  induction n as [|n IH]; intros i l gs v4 r; cbn [read_groups]; [by intros [= <- _ _]|].
  destruct (if (0 <? n)%nat then _ else None) as [[o r1]|] eqn:E4.
  - destruct n as [|n]; [done|]. change (0 <? S n)%nat with true in E4. cbn iota in E4. apply read_separator_inv in E4 as (l' & [Hb Hl]%read_octets_ok & _). intros [= <- _ _].
    split; [by apply (segments_u16 2)|]. rewrite (segments_length 2) by done. lia.
  - destruct (read_separator _ _ (read_number _ _ _ _) l) as [[g r1]|] eqn:Eg; [|intros [= <- _ _]; split; [done|cbn; lia]].
    apply read_separator_inv in Eg as (l' & Hg%read_number_u & _). destruct (read_groups n (S i) r1) as [[gs' v4'] r2] eqn:E.
    intros [= <- _ _]. apply IH in E as [Hgs Hn]. split; [by constructor|cbn; lia].
Qed.
Lemma read_ipv6_ok l o r : read_ipv6_addr l = Some (o, r) → ip_ok (V6 o).
Proof.
  unfold read_ipv6_addr. destruct (read_groups 8 0 l) as [[hd v4] r1] eqn:E1. apply read_groups_ok in E1 as [Hh Hn].
  destruct (Nat.eqb_spec (length hd) 8) as [E8|N8].
  - intros [= <- _]. destruct (group_octets_ok hd Hh) as [Hb Hl]. split; [done|lia].
  - destruct v4; [done|]. intros (x & _ & (y & _ & H)%bind_Some)%bind_Some.
    destruct (read_groups _ _ _) as [[tl v] r2] eqn:E2. apply read_groups_ok in E2 as [Ht Hm]. injection H as <- _.
    destruct (group_octets_ok (hd ++ replicate (8 - length hd - length tl) 0 ++ tl)) as [Hb Hl].
    { apply Forall_app_2; [done|]. apply Forall_app_2; [by apply Forall_replicate|done]. }
    split; [done|]. rewrite Hl, !length_app, length_replicate. lia.
Qed.
Lemma parse_with_inv {A} (inner : reader A) l a : parse_with inner l = Some a → inner l = Some (a, []).
Proof. unfold parse_with. destruct (inner l) as [[b [|]]|]; [|done|done]. by intros [= <-]. Qed.
Lemma parse_ip_addr_ok l a : parse_ip_addr l = Some a → ip_ok a.
Proof.
  intros H%parse_with_inv. unfold read_ip_addr in H. destruct (read_ipv4_addr l) as [[o r]|] eqn:E.
  - injection H as <- _. by apply read_octets_ok in E.
  - apply bind_Some in H as ([o r] & E6 & [= <- _]). by eapply read_ipv6_ok.
Qed.
Lemma parse_socket_ok l a : parse_socket l = Some a → ip_ok a.1 ∧ is_u 16 a.2.
Proof.
  intros H%parse_with_inv. unfold read_socket_addr in H. destruct (read_socket_addr_v4 l) as [x|] eqn:E.
  - injection H as ->. unfold read_socket_addr_v4 in E. apply bind_Some in E as ([o r] & E4 & ([p r'] & Ep & [= <- _])%bind_Some).
    apply bind_Some in Ep as (u & _ & Hp%read_number_u). split; [by apply read_octets_ok in E4|done].
  - unfold read_socket_addr_v6 in H. apply bind_Some in H as (u & _ & ([o r] & E6 & (u' & _ & ([p r'] & Ep & [= <- _])%bind_Some)%bind_Some)%bind_Some).
    apply bind_Some in Ep as (u2 & _ & Hp%read_number_u). split; [by eapply read_ipv6_ok|done].
Qed.

(** * What is printed is read back *)
Fixpoint radix_value (radix acc : Z) (l : list Z) : option Z :=
  match l with
  | [] => Some acc
  | c :: l => d ← to_digit radix c; radix_value radix (acc * radix + d) l
  end.
Definition no_digit (radix : Z) (r : list Z) : Prop := match r with c :: _ => to_digit radix c = None | [] => True end.

Lemma to_digit_dec c : to_digit 10 c = if is_digit c then Some (c - 48) else None.
Proof.
  unfold to_digit, is_digit, in_range. destruct ((48 <=? c) && (c <=? 57)) eqn:E1; [destruct (Z.ltb_spec (c - 48) 10); [done|lia]|].
  destruct ((97 <=? c) && (c <=? 122)) eqn:E2; [destruct (Z.ltb_spec (c - 87) 10); [lia|done]|].
  destruct ((65 <=? c) && (c <=? 90)) eqn:E3; [destruct (Z.ltb_spec (c - 55) 10); [lia|done]|done].
Qed.
Lemma radix_dec l : ∀ acc, radix_value 10 acc l = dec_value acc l.
Proof. induction l as [|c l IH]; intros acc; cbn; [done|]. rewrite to_digit_dec. destruct (is_digit c); cbn; [apply IH|done]. Qed.
Lemma radix_app radix l k : ∀ acc, radix_value radix acc (l ++ k) = (v ← radix_value radix acc l; radix_value radix v k).
Proof. induction l as [|c l IH]; intros acc; cbn; [done|]. destruct (to_digit radix c); cbn; [apply IH|done]. Qed.
Lemma radix_mono radix l : ∀ acc v, 1 ≤ radix → 0 ≤ acc → radix_value radix acc l = Some v → acc ≤ v.
Proof.
  induction l as [|c l IH]; intros acc v Hr Ha; cbn; [intros [= <-]; lia|].
  intros (d & Hd%to_digit_bound & Hv)%bind_Some. apply IH in Hv; nia.
Qed.
Lemma read_digits_text radix m w r ds : ∀ acc n v, 1 ≤ radix → 0 ≤ acc → radix_value radix acc ds = Some v → no_digit radix r →
  match m with Some m => (n + length ds ≤ m)%nat | None => v < 2 ^ w end →
  read_digits radix m w acc n (ds ++ r) = Some (v, (n + length ds)%nat, r).
Proof.
  induction ds as [|c ds IH]; intros acc n v Hr Ha Hv Hn Hm; cbn [app length radix_value] in *.
  - injection Hv as <-. rewrite Nat.add_0_r. destruct r as [|c r]; [done|]. cbn [read_digits]. by rewrite Hn.
  - apply bind_Some in Hv as (d & Hd & Hv). cbn [read_digits]. rewrite Hd. apply to_digit_bound in Hd.
    assert (0 ≤ acc * radix + d) as Ha' by (apply Z.add_nonneg_nonneg; [apply Z.mul_nonneg_nonneg|]; lia).
    replace (n + S (length ds))%nat with (S n + length ds)%nat in * by lia. destruct m as [m|].
    + rewrite (proj2 (Nat.ltb_ge _ _)) by lia. by apply IH.
    + pose proof (radix_mono _ _ _ _ Hr Ha' Hv). rewrite (proj2 (Z.ltb_lt _ _)) by lia. by apply IH.
Qed.
Lemma read_number_text radix m z w ds v r : 1 ≤ radix → radix_value radix 0 ds = Some v → no_digit radix r → v < 2 ^ w → ds ≠ [] →
  match m with Some m => length ds ≤ m | None => True end%nat → (z = false → (1 < length ds)%nat → head ds ≠ Some 48) →
  read_number radix m z w (ds ++ r) = Some (v, r).
Proof.
  intros Hr Hv Hn Hw Hds Hm Hz. unfold read_number. rewrite (read_digits_text radix m w r ds 0 0 v) by (done || by destruct m). cbn.
  destruct ds as [|c ds]; [done|]. cbn [length Nat.eqb app head]. rewrite (proj2 (Z.ltb_lt _ _)) by done.
  destruct z; [done|]. cbn [negb andb]. destruct (bool_decide_reflect (Some c = Some 48)) as [[= ->]|]; [|done].
  destruct ds; [done|]. destruct (Hz eq_refl); cbn; [lia|done].
Qed.

Lemma read_octet b r : is_byte b → no_digit 10 r → read_number 10 (Some 3%nat) false 8 (dec_string b ++ r) = Some (b, r).
Proof.
  intros Hb Hr. rewrite byte_digits by done. destruct (digits_props 3 b) as (Hv & _ & Hn & Hl & Hh); [unfold is_u in Hb; cbn; lia|].
  apply read_number_text; [lia|by rewrite radix_dec|done|apply Hb|apply Hn; lia|done|]. intros _ H1. apply Hh.
  destruct (Z.le_gt_cases 10 b) as [|Hlt]; [done|]. exfalso. cbn [digits] in H1. rewrite (proj2 (Z.ltb_lt _ _)) in H1 by done. cbn in H1. lia.
Qed.
Lemma read_ipv4_text o r : v4_ok o → no_digit 10 r → read_ipv4_addr (ipv4_string o ++ r) = Some (o, r).
Proof.
  intros [Hb Hl] Hr. destruct o as [|a [|b [|c [|d [|]]]]]; try done. rewrite !Forall_cons in Hb. destruct Hb as (Ha & Hb & Hc & Hd & _).
  unfold ipv4_string, read_ipv4_addr. cbn [fmap list_fmap join]. rewrite <-!app_assoc. cbn [app]. rewrite <-!app_assoc. cbn [app]. rewrite <-!app_assoc. cbn [app].
  cbn [read_octets read_separator]. rewrite (read_octet a) by done. cbn. rewrite (read_octet b) by done. cbn. rewrite (read_octet c) by done. cbn.
  by rewrite (read_octet d).
Qed.
Lemma read_port_text p : is_u 16 p → read_port (COLON :: dec_string p) = Some (p, []).
Proof.
  intros Hp. assert (is_u 64 p) by by eapply is_u_mono; [|exact Hp]. change (read_port _) with (read_number 10 None true 16 (dec_string p)). rewrite <-(app_nil_r (dec_string p)).
  destruct (digits_props DEC_FUEL p) as (Hv & _ & Hn & _); [by apply u64_digits|].
  apply read_number_text; [lia|by rewrite radix_dec|done|apply Hp|apply Hn; unfold DEC_FUEL; lia|done|done].
Qed.

(** An IPv4 address is read from a text that starts with four runs of digits between dots. *)
Lemma read_digits_inv radix m w l : ∀ acc n v k r, read_digits radix m w acc n l = Some (v, k, r) →
  ∃ ds, l = ds ++ r ∧ k = (n + length ds)%nat ∧ Forall (λ c, to_digit radix c ≠ None) ds.
Proof.
  induction l as [|c l IH]; intros acc n v k r; cbn [read_digits]; [intros [= _ <- <-]; exists []; split_and!; [done|cbn; lia|done]|].
  destruct (to_digit radix c) as [d|] eqn:Ed; [|intros [= _ <- <-]; exists []; split_and!; [done|cbn; lia|done]].
  assert (∀ acc, read_digits radix m w acc (S n) l = Some (v, k, r) →
    ∃ ds, c :: l = ds ++ r ∧ k = (n + length ds)%nat ∧ Forall (λ c, to_digit radix c ≠ None) ds) as H.
  { intros acc' (ds & -> & -> & Hd)%IH. exists (c :: ds). split_and!; [done|cbn; lia|]. constructor; [by rewrite Ed|done]. }
  destruct m; [destruct (_ <? _)%nat; [done|]|destruct (_ <? _); [|done]]; apply H.
Qed.
Lemma read_number_inv radix m z w l v r : read_number radix m z w l = Some (v, r) →
  ∃ ds, l = ds ++ r ∧ ds ≠ [] ∧ Forall (λ c, to_digit radix c ≠ None) ds.
Proof.
  unfold read_number. intros ([[v' n] r'] & (ds & El & -> & Hd)%read_digits_inv & H)%bind_Some. destruct ds as [|c ds]; [done|].
  destruct (_ =? 0)%nat; [done|]. destruct (_ && _); [done|]. destruct (_ <? _); [|done]. injection H as _ <-. by exists (c :: ds).
Qed.
Definition dotted (i : nat) (ps : list (list Z)) : list Z := match i with O => join 46 ps | S _ => mjoin (cons 46 <$> ps) end.
Lemma join_cons sep x ls : join sep (x :: ls) = x ++ mjoin (cons sep <$> ls).
Proof. revert x. induction ls as [|y ls IH]; intros x; [by rewrite app_nil_r|]. change (join sep (x :: y :: ls)) with (x ++ sep :: join sep (y :: ls)). by rewrite IH. Qed.
Lemma read_octets_inv n : ∀ i l o r, read_octets n i l = Some (o, r) →
  ∃ ps, length ps = n ∧ l = dotted i ps ++ r ∧ Forall (λ p, p ≠ [] ∧ Forall (λ c, is_digit c = true) p) ps.
Proof.
  induction n as [|n IH]; intros i l o r; cbn [read_octets]; [intros [= <- <-]; exists []; by destruct i|].
  intros ([b r1] & (l' & (p & -> & Hp & Hd)%read_number_inv & Hi)%read_separator_inv & ([bs r2] & (ps & <- & -> & Hps)%IH & [= _ <-])%bind_Some)%bind_Some.
  exists (p :: ps). split_and!; [done| |].
  - destruct Hi as [[-> ->]|[Hi ->]]; [cbn [dotted]; by rewrite join_cons, app_assoc|]. destruct i; [done|]. cbn. by rewrite app_assoc.
  - constructor; [|done]. split; [done|]. eapply Forall_impl; [exact Hd|]. intros c Hc. cbn beta in Hc. rewrite to_digit_dec in Hc. by destruct (is_digit c).
Qed.

(** * IPv6 *)
Lemma to_digit_hex d : 0 ≤ d < 16 → to_digit 16 (hex_digit d) = Some d.
Proof.
  intros Hd. unfold hex_digit. destruct (Z.ltb_spec d 10); unfold to_digit, in_range; case_ifs; try lia; f_equal; lia.
Qed.
Lemma hex_props fuel : ∀ z, 0 ≤ z < 16 ^ Z.of_nat fuel →
  radix_value 16 0 (hex_digits fuel z) = Some z ∧ (length (hex_digits fuel z) ≤ fuel)%nat ∧ (1 ≤ fuel → hex_digits fuel z ≠ [])%nat.
Proof.
  induction fuel as [|fuel IH]; intros z Hz; [replace z with 0 by (cbn in Hz; lia); cbn; split_and!; try done; lia|].
  cbn [hex_digits]. rewrite Nat2Z.inj_succ, Z.pow_succ_r in Hz by lia. pose proof (Z.mod_pos_bound z 16). pose proof (Z.div_mod z 16).
  split_and!; [|rewrite length_app; destruct (_ <? _); [cbn; lia|]|by intros _ []%app_eq_nil].
  - rewrite radix_app. destruct (Z.ltb_spec z 16); cbn [radix_value mbind option_bind].
    + rewrite to_digit_hex by lia. cbn. f_equal. rewrite Z.mod_small by lia. lia.
    + destruct (IH (z / 16)) as (-> & _); [split; [apply Z.div_pos; lia|apply Z.div_lt_upper_bound; lia]|]. cbn. rewrite to_digit_hex by lia. cbn. f_equal. lia.
  - destruct (IH (z / 16)) as (_ & Hl & _); [split; [apply Z.div_pos; lia|apply Z.div_lt_upper_bound; lia]|]. cbn. lia.
Qed.
Lemma radix_digits radix l : ∀ acc v, radix_value radix acc l = Some v → Forall (λ c, to_digit radix c ≠ None) l.
Proof. induction l as [|c l IH]; intros acc v; cbn; [done|]. intros (d & Hd & Hv)%bind_Some. constructor; [by rewrite Hd|by eapply IH]. Qed.
Definition group_text (g : Z) : list Z := hex_digits 4 g.
Lemma group_text_props g : is_u 16 g → radix_value 16 0 (group_text g) = Some g ∧ (length (group_text g) ≤ 4)%nat ∧ group_text g ≠ [].
Proof. intros Hg. destruct (hex_props 4 g) as (H1 & H2 & H3); [unfold is_u in Hg; cbn; lia|]. split_and!; [done|done|apply H3; lia]. Qed.
Lemma read_group g r : is_u 16 g → no_digit 16 r → read_number 16 (Some 4%nat) true 16 (group_text g ++ r) = Some (g, r).
Proof. intros Hg Hr. destruct (group_text_props g Hg) as (H1 & H2 & H3). apply read_number_text; try done; [apply Hg]. Qed.

(** What may follow the last group: no digit, no dot, and a colon only before another. *)
Definition stops (r : list Z) : Prop :=
  match r with [] => True | c :: r => to_digit 16 c = None ∧ c ≠ 46 ∧ (c = COLON → head r = Some COLON) end.
Lemma digit_16 c : to_digit 16 c = None → is_digit c = false.
Proof. unfold to_digit, is_digit, in_range. destruct (_ && _) eqn:E; [|done]. rewrite (proj2 (Z.ltb_lt _ _)) by lia. done. Qed.
Lemma hex_no_dot : to_digit 16 46 = None.
Proof. done. Qed.
Lemma no_ipv4 ds r : Forall (λ c, to_digit 16 c ≠ None) ds → (match r with c :: _ => to_digit 16 c = None ∧ c ≠ 46 | [] => True end) → read_ipv4_addr (ds ++ r) = None.
Proof.
  intros Hd Hr. destruct (read_ipv4_addr (ds ++ r)) as [[o r']|] eqn:E; [|done]. exfalso.
  apply read_octets_inv in E as (ps & Hl & E & Hps). destruct ps as [|p [|q ps]]; try done. cbn [dotted] in E. rewrite join_cons in E. cbn in E. rewrite <-app_assoc in E. cbn in E.
  apply Forall_cons in Hps as [[_ Hp] _]. apply app_eq_inv in E as [(k & E1 & E2)|(k & E1 & E2)].
  - destruct k as [|c k]; cbn in E2; [by rewrite <-E2 in Hr; destruct Hr|]. injection E2 as <- _. subst ds. by apply Forall_app in Hd as [_ Hd%Forall_inv].
  - destruct k as [|c k]; cbn in E2; [by rewrite E2 in Hr; destruct Hr|]. rewrite E2 in Hr. destruct Hr as [Hc%digit_16 _].
    subst p. apply Forall_app in Hp as [_ Hp%Forall_inv]. congruence.
Qed.
Definition group_texts (i : nat) (gs : list Z) : list Z :=
  match i with O => join COLON (group_text <$> gs) | S _ => mjoin (cons COLON <$> (group_text <$> gs)) end.
Lemma group_texts_cons i g gs : group_texts i (g :: gs) = (match i with O => [] | S _ => [COLON] end) ++ group_text g ++ group_texts 1 gs.
Proof. destruct i; [|done]. unfold group_texts. cbn [fmap list_fmap]. by rewrite join_cons. Qed.
Lemma read_stop {A} i (inner : reader A) r : stops r → (∀ c l, to_digit 16 c = None → inner (c :: l) = None) → inner [] = None → read_separator COLON i inner r = None.
Proof.
  intros Hs Hi Hn. destruct i, r as [|c r]; cbn; try done; destruct Hs as (Hc & _ & Hh); [by apply Hi|].
  destruct (Z.eqb_spec c COLON) as [->|]; [|done]. cbn. specialize (Hh eq_refl). destruct r as [|d r]; [done|]. injection Hh as ->. by apply Hi.
Qed.
Lemma read_number_none m z w c l : to_digit 16 c = None → read_number 16 m z w (c :: l) = None.
Proof. intros H. unfold read_number. cbn. by rewrite H. Qed.
Lemma read_ipv4_none c l : to_digit 16 c = None → read_ipv4_addr (c :: l) = None.
Proof.
  intros Hc%digit_16. unfold read_ipv4_addr. cbn [read_octets read_separator]. unfold read_number. cbn [read_digits]. by rewrite to_digit_dec, Hc.
Qed.
Lemma read_separator_at {A} i (inner : reader A) l :
  read_separator COLON i inner ((match i with O => [] | S _ => [COLON] end) ++ l) = inner l.
Proof. by destruct i. Qed.
Lemma read_groups_text gs : ∀ n i r, Forall (is_u 16) gs → (length gs ≤ n)%nat → stops r →
  read_groups n i (group_texts i gs ++ r) = (gs, false, r).
Proof.
  induction gs as [|g gs IH]; intros n i r Hg Hn Hr.
  - replace (group_texts i [] ++ r) with r by by destruct i. destruct n as [|n]; [done|]. cbn [read_groups].
    rewrite !(read_stop i); [by destruct (0 <? n)%nat|done|apply read_number_none|done|done| |done].
    apply read_ipv4_none.
  - destruct n as [|n]; cbn [length] in Hn; [lia|]. apply Forall_cons in Hg as [Hg Hgs]. rewrite group_texts_cons, <-!app_assoc. cbn [read_groups].
    assert (match group_texts 1 gs ++ r with c :: _ => to_digit 16 c = None ∧ c ≠ 46 | [] => True end) as Hnext.
    { destruct gs; [|done]. cbn. destruct r; [done|]. by destruct Hr as (? & ? & _). }
    rewrite !(read_separator_at i). rewrite no_ipv4; [|by eapply radix_digits, group_text_props|done].
    rewrite read_group; [|done|by destruct (_ ++ r); [|destruct Hnext]]. rewrite (IH n (S i)) by (done || lia).
    by destruct (0 <? n)%nat.
Qed.

(** The run that is compressed is one of zeros. *)
Definition zeros_at (l : list Z) (p : nat * nat) : Prop := (p.1 + p.2 ≤ length l)%nat ∧ take p.2 (drop p.1 l) = replicate p.2 0.
Lemma zero_run_spec segs : ∀ pre cur best, zeros_at (pre ++ segs) best → zeros_at (pre ++ segs) cur →
  (cur.2 = 0%nat ∨ (cur.1 + cur.2)%nat = length pre) → zeros_at (pre ++ segs) (zero_run segs (length pre) cur best).
Proof.
  induction segs as [|s segs IH]; intros pre cur best Hb Hc Ha; cbn [zero_run]; [done|].
  assert (zeros_at (pre ++ s :: segs) (0%nat, 0%nat)) as H0 by (split; [cbn; lia|by rewrite take_0]).
  replace (pre ++ s :: segs) with ((pre ++ [s]) ++ segs) in * by by rewrite <-app_assoc.
  replace (S (length pre)) with (length (pre ++ [s])) by (rewrite length_app; cbn; lia).
  destruct (Z.eqb_spec s 0) as [->|]; [|apply IH; [done|done|by left]].
  set (cur' := if (cur.2 =? 0)%nat then _ else _).
  assert (zeros_at ((pre ++ [0]) ++ segs) cur' ∧ (cur'.1 + cur'.2)%nat = length (pre ++ [0])) as [Hc' Ha'].
  { rewrite length_app. cbn [length]. unfold cur'. destruct (Nat.eqb_spec (cur.2) 0) as [|Hn].
    - split; [|cbn; lia]. split; [rewrite !length_app; cbn; lia|]. cbn [fst snd]. by rewrite <-app_assoc, drop_app_length.
    - destruct Ha as [|Ha]; [done|]. split; [|cbn; lia]. destruct Hc as [_ Hz]. split; [rewrite !length_app; cbn; lia|]. cbn [fst snd].
      rewrite (take_S_r _ _ 0), Hz; [by rewrite <-replicate_cons_app|]. rewrite lookup_drop, Ha.
      rewrite lookup_app_l by (rewrite length_app; cbn; lia). by rewrite lookup_app_r, Nat.sub_diag by lia. }
  apply IH; [by destruct (_ <? _)%nat|done|by right].
Qed.
Lemma segments_octets n : ∀ o, length o = (2 * n)%nat → bytes o → group_octets (segments o) = o.
Proof.
  induction n as [|n IH]; intros [|a [|b o]] E Hb; cbn in E; try lia; [done|]. apply Forall_cons in Hb as [Ha Hb]. apply Forall_cons in Hb as [Hb Ho].
  cbn [segments]. change (group_octets (a * 256 + b :: segments o)) with ([(a * 256 + b) / 256; (a * 256 + b) mod 256] ++ group_octets (segments o)).
  rewrite IH by (done || lia). unfold is_u in *. rewrite Z.div_add_l, Z.div_small, Z.add_0_r by lia. rewrite Z.add_comm, Z.mod_add, Z.mod_small by lia. done.
Qed.
Lemma segments_drop k : ∀ o, segments (drop (2 * k) o) = drop k (segments o).
Proof.
  induction k as [|k IH]; intros o; [done|]. replace (2 * S k)%nat with (S (S (2 * k))) by lia.
  destruct o as [|a [|b o]]; [by rewrite drop_nil| |apply IH]. cbn. by destruct k.
Qed.

(** A text as [Display] writes it, up to what may follow it. *)
Lemma read_ipv6_split l hd r tl v r' : read_groups 8 0 l = (hd, false, COLON :: COLON :: r) → (length hd < 8)%nat →
  read_groups (8 - (length hd + 1)) 0 r = (tl, v, r') →
  read_ipv6_addr l = Some (group_octets (hd ++ replicate (8 - length hd - length tl) 0 ++ tl), r').
Proof. intros E1 Hl E2. unfold read_ipv6_addr. rewrite E1, (proj2 (Nat.eqb_neq _ _)) by lia. cbn -[Nat.sub read_groups]. by rewrite E2. Qed.
Lemma read_compressed hd tl r : Forall (is_u 16) hd → Forall (is_u 16) tl → (length hd + length tl ≤ 7)%nat → stops r →
  read_ipv6_addr (group_texts 0 hd ++ str "::" ++ group_texts 0 tl ++ r) =
  Some (group_octets (hd ++ replicate (8 - length hd - length tl) 0 ++ tl), r).
Proof. intros Hh Ht Hl Hr. eapply read_ipv6_split; [apply read_groups_text; try done; lia|lia|]. apply read_groups_text; try done; lia. Qed.
Lemma read_mapped o r : v4_ok o → no_digit 10 r →
  read_ipv6_addr (str "::ffff:" ++ ipv4_string o ++ r) = Some (group_octets (replicate 5 0 ++ 65535 :: segments o), r).
Proof.
  intros Ho Hd. set (rest := group_text 65535 ++ COLON :: ipv4_string o ++ r).
  assert (read_groups 7 0 rest = (65535 :: segments o, true, r)) as E.
  { unfold rest. change 7%nat with (S (S 5)). cbn [read_groups Nat.ltb Nat.leb read_separator].
    rewrite (no_ipv4 (group_text 65535)) by (by apply (radix_digits 16 _ 0 65535) || done). rewrite read_group by done.
    change (read_given_char COLON (COLON :: ?l)) with (Some (tt, l)). cbn [mbind option_bind snd]. by rewrite read_ipv4_text. }
  erewrite (read_ipv6_split _ [] rest); [|apply (read_groups_text [] 8 0 (COLON :: COLON :: rest)); by (done || cbn; lia)|cbn; lia|exact E].
  cbn [length]. by rewrite (segments_length 2) by apply Ho.
Qed.
Lemma read_ipv6_text o r : ip_ok (V6 o) → stops r → no_digit 10 r → read_ipv6_addr (ipv6_string o ++ r) = Some (o, r).
Proof.
  intros [Hb Hl] Hr Hd. unfold ipv6_string. pose proof (segments_length 8 o Hl) as Hs. pose proof (segments_u16 8 o Hl Hb) as Hu.
  destruct (bool_decide_reflect (take 6 (segments o) = [0; 0; 0; 0; 0; 65535])) as [E6|_].
  - rewrite <-app_assoc, read_mapped by (done || (split; [by apply Forall_drop|by rewrite length_drop, Hl])).
    rewrite (segments_drop 6). change (replicate 5 0 ++ 65535 :: ?l) with ([0; 0; 0; 0; 0; 65535] ++ l). rewrite <-E6, take_drop. by rewrite (segments_octets 8).
  - pose proof (zero_run_spec (segments o) [] (0, 0)%nat (0, 0)%nat) as Hz. cbn [app length] in Hz.
    destruct (zero_run _ _ _ _) as [start len]. destruct Hz as [Hle Hz]; [split; [cbn; lia|by rewrite take_0]..|by left|]. cbn [fst snd] in *. rewrite Hs in Hle.
    destruct (Nat.ltb_spec 1 len).
    + change (read_ipv6_addr ((group_texts 0 (take start (segments o)) ++ str "::" ++ group_texts 0 (drop (start + len) (segments o))) ++ r) = Some (o, r)).
      rewrite <-!app_assoc. rewrite read_compressed; [|by apply Forall_take|by apply Forall_drop|rewrite length_take, length_drop; lia|done].
      rewrite length_take, length_drop, Hs. replace (8 - start `min` 8 - (8 - (start + len)))%nat with len by lia.
      rewrite <-Hz, <-drop_drop, take_drop, take_drop. by rewrite (segments_octets 8).
    + change (read_ipv6_addr (group_texts 0 (segments o) ++ r) = Some (o, r)). unfold read_ipv6_addr. rewrite (read_groups_text (segments o) 8 0 r) by (done || lia). rewrite Hs. cbn [Nat.eqb]. by rewrite (segments_octets 8).
Qed.

Lemma parse_socket_string a : ip_ok a.1 → is_u 16 a.2 → parse_socket (socket_string a) = Some a.
Proof.
  destruct a as [[o|o] p]; cbn [fst snd]; intros Ho Hp; unfold parse_socket, parse_with, read_socket_addr, socket_string; cbn [fst snd].
  - unfold read_socket_addr_v4. rewrite read_ipv4_text by done. cbn [mbind option_bind]. by rewrite read_port_text.
  - change ([91] ++ ?l) with (91 :: l). unfold read_socket_addr_v4. rewrite read_ipv4_none by done. cbn [mbind option_bind].
    unfold read_socket_addr_v6. change (read_given_char 91 (91 :: ?l)) with (Some (tt, l)). cbn [mbind option_bind snd].
    rewrite read_ipv6_text by done. cbn [mbind option_bind]. change (read_scope_id _) with (@None (Z * list Z)). cbn iota.
    change (read_given_char 93 _) with (Some (tt, COLON :: dec_string p)). cbn [mbind option_bind snd]. by rewrite read_port_text.
Qed.
