(* ===== verification/EndpointState.v ===== *)
(** The endpoint's persistent state: [src/src/endpoint.rs] from [precharge_fallback_state]
    on, and the address policy of [src/src/dns.rs].

    The budget of old-address probes is a token bucket with a ledger; it is written to a
    text file before a probe starts and read back by every process that shares it.  An
    [io::Error] is [None]: its message only reaches the log. *)
From stdpp Require Import strings sorting.
From S2P Require Import Prelude Text.

(** An [Ipv4Addr] is its four octets. *)
Abbreviation Ipv4Addr := (list Z).
Definition ip_key (o : Ipv4Addr) : Z := from_be o.

Definition MAX_ENDPOINT_CANDIDATES : nat := 8.
Definition CACHE_MAX_BYTES : Z := 4096.
Definition STATE_MAX_BYTES : Z := 16 * 1024.
Definition MAX_BUDGET_ENTRIES : nat := 16.
Definition MAX_PERSISTED_COOLDOWN_SECS : Z := 86400.

(** * The address policy *)
Definition oct (o : Ipv4Addr) (i : nat) : Z := nth i o 0.
Definition is_private (o : Ipv4Addr) : bool :=
  (oct o 0 =? 10) || ((oct o 0 =? 172) && in_range 16 31 (oct o 1)) || ((oct o 0 =? 192) && (oct o 1 =? 168)).
Definition is_documentation (o : Ipv4Addr) : bool :=
  ((oct o 0 =? 192) && (oct o 1 =? 0) && (oct o 2 =? 2)) || ((oct o 0 =? 198) && (oct o 1 =? 51) && (oct o 2 =? 100)) ||
  ((oct o 0 =? 203) && (oct o 1 =? 0) && (oct o 2 =? 113)).
Definition check_endpoint_ip (ip : Ipv4Addr) (allow_private : bool) : bool :=
  if bool_decide (ip = [0; 0; 0; 0]) || (oct ip 0 =? 0) then false else
  if oct ip 0 =? 127 then false else
  if (oct ip 0 =? 169) && (oct ip 1 =? 254) then false else
  if in_range 224 239 (oct ip 0) then false else
  if bool_decide (ip = [255; 255; 255; 255]) || (240 <=? oct ip 0) then false else
  if is_documentation ip || ((oct ip 0 =? 198) && ((oct ip 1 =? 18) || (oct ip 1 =? 19))) then false else
  if ((oct ip 0 =? 192) && (oct ip 1 =? 0) && (oct ip 2 =? 0)) || ((oct ip 0 =? 192) && (oct ip 1 =? 88) && (oct ip 2 =? 99))
  then false else
  let private := is_private ip in
  let cgnat := (oct ip 0 =? 100) && in_range 64 127 (oct ip 1) in
  negb ((private || cgnat) && negb allow_private).

(** * Sorting: [sort_by_key] is stable, [dedup] drops equal neighbours *)
Section sort.
Context {A : Type} (key : A → Z).
Fixpoint insert_by_key (x : A) (l : list A) : list A :=
  match l with
  | [] => [x]
  | y :: l' => if key x <=? key y then x :: l else y :: insert_by_key x l'
  end.
Fixpoint sort_by_key (l : list A) : list A :=
  match l with [] => [] | x :: l => insert_by_key x (sort_by_key l) end.
End sort.
Fixpoint dedup (l : list Ipv4Addr) : list Ipv4Addr :=
  match l with
  | x :: (y :: _) as l' => if bool_decide (x = y) then dedup l' else x :: dedup l'
  | _ => l
  end.
Definition canonical (l : list Ipv4Addr) : list Ipv4Addr := dedup (sort_by_key ip_key l).

(** * The policy and the budget *)
Record LastGoodFallbackPolicy := mkPolicy {
  fp_enabled : bool;
  fp_after_failures : Z;
  fp_max_attempts : Z;
  fp_cooldown_ms : Z;
  fp_max_age_ms : Z;
  fp_global_capacity : Z;
  fp_global_refill_ms : Z;
  fp_preferred_round_timeout_ms : Z;
  fp_probation_ms : Z;
  fp_rollback_window_ms : Z }.

Record BudgetEntry := mkBudgetEntry {
  be_candidate : Ipv4Addr;
  be_dns_set : list Ipv4Addr;
  be_charged : Z;
  be_not_before : Z;
  be_last_used : Z }.
Record FallbackState := mkFallbackState {
  global_tokens : Z;
  global_updated : Z;
  entries : list BudgetEntry }.
Definition FallbackState_new (capacity wall_now : Z) : FallbackState := mkFallbackState capacity wall_now [].

(** [(ms + 999) / 1000], saturating. *)
Definition ms_to_secs (ms : Z) : Z := saturating_add 64 ms 999 / 1000.

Definition refill (policy : LastGoodFallbackPolicy) (wall_now : Z) (next : FallbackState) : FallbackState :=
  let refill_secs := ms_to_secs (fp_global_refill_ms policy) in
  if (global_updated next <=? wall_now) && (0 <? refill_secs) then
    let elapsed := wall_now - global_updated next in
    let elapsed_intervals := elapsed / refill_secs in
    if 0 <? elapsed_intervals then
      let minted := Z.min elapsed_intervals (2 ^ 32 - 1) in
      mkFallbackState (Z.min (saturating_add 32 (global_tokens next) minted) (fp_global_capacity policy))
        (saturating_add 64 (global_updated next) (saturating_mul 64 elapsed_intervals refill_secs)) (entries next)
    else next
  else next.

Definition is_entry (candidate : Ipv4Addr) (dns_set : list Ipv4Addr) (e : BudgetEntry) : Prop :=
  be_candidate e = candidate ∧ be_dns_set e = dns_set.
#[export] Instance is_entry_dec candidate dns_set e : Decision (is_entry candidate dns_set e).
Proof. unfold is_entry. apply _. Defined.

Definition precharge_fallback_state (next : FallbackState) (policy : LastGoodFallbackPolicy) (wall_now : Z)
    (candidate : Ipv4Addr) (dns_set : list Ipv4Addr) : option FallbackState :=
  let next := refill policy wall_now next in
  if global_tokens next =? 0 then None else
  let cooldown_secs := ms_to_secs (fp_cooldown_ms policy) in
  let not_before := saturating_add 64 wall_now cooldown_secs in
  let charged :=
    match list_find (is_entry candidate dns_set) (entries next) with
    | Some (pos, entry) =>
        if (fp_max_attempts policy <=? be_charged entry) || (wall_now <? be_not_before entry) then None else
        Some (<[pos := mkBudgetEntry (be_candidate entry) (be_dns_set entry) (saturating_add 32 (be_charged entry) 1)
                         not_before wall_now]> (entries next))
    | None =>
        if (MAX_BUDGET_ENTRIES <=? length (entries next))%nat then None else
        Some (entries next ++ [mkBudgetEntry candidate dns_set 1 not_before wall_now])
    end in
  match charged with
  | None => None
  | Some es =>
      Some (mkFallbackState (global_tokens next - 1) (global_updated next)
              (sort_by_key (λ e, - be_last_used e) es))
  end.

(** * The text of the budget *)
Definition NL : Z := 10.
Definition line (name : string) (value : list Z) : list Z := str name ++ 61 :: value.
Definition entry_text (e : BudgetEntry) : list Z :=
  join 124 [ipv4_string (be_candidate e); dec_string (be_charged e); dec_string (be_not_before e);
            dec_string (be_last_used e); join 44 (ipv4_string <$> be_dns_set e)].
Definition state_lines (host : list Z) (port : Z) (state : FallbackState) : list (list Z) :=
  [str "# udp2raw fallback state v1"; line "version" (str "1"); line "host" host; line "port" (dec_string port);
   line "global_tokens" (dec_string (global_tokens state)); line "global_updated" (dec_string (global_updated state))] ++
  ((λ e, line "entry" (entry_text e)) <$> entries state).
Definition serialize_fallback_state (host : list Z) (port : Z) (state : FallbackState) : list Z :=
  join NL (state_lines host port state) ++ [NL].

Definition parse_state_ip (value : list Z) (allow_private : bool) : option Ipv4Addr :=
  match parse_ipv4 value with
  | None => None
  | Some ip =>
      if negb (bool_decide (ipv4_string ip = value)) then None else
      if check_endpoint_ip ip allow_private then Some ip else None
  end.
Definition parse_state_uint (w : Z) (value : list Z) : option Z :=
  match parse_uint w value with
  | None => None
  | Some v => if bool_decide (dec_string v = value) then Some v else None
  end.

Definition parse_entry (allow_private : bool) (wall_now : Z) (entries : list BudgetEntry) (l : list Z)
    : option BudgetEntry :=
  raw ← strict_field l (str "entry");
  match split_on 124 raw with
  | [f0; f1; f2; f3; f4] =>
      candidate ← parse_state_ip f0 allow_private;
      charged ← parse_state_uint 32 f1;
      not_before ← parse_state_uint 64 f2;
      last_used ← parse_state_uint 64 f3;
      if charged =? 0 then None else
      if saturating_add 64 wall_now 300 <? last_used then None else
      if (not_before <? last_used) || (MAX_PERSISTED_COOLDOWN_SECS <? saturating_sub not_before last_used) then None else
      dns_set ← mapM (λ v, parse_state_ip v allow_private) (split_on 44 f4);
      if negb (bool_decide (dns_set = canonical dns_set)) || bool_decide (dns_set = []) ||
         (MAX_ENDPOINT_CANDIDATES <? length dns_set)%nat then None else
      if existsb (λ e, bool_decide (is_entry candidate dns_set e)) entries then None else
      Some (mkBudgetEntry candidate dns_set charged not_before last_used)
  | _ => None
  end.
Fixpoint parse_entries (allow_private : bool) (wall_now : Z) (entries : list BudgetEntry) (ls : list (list Z))
    : option (list BudgetEntry) :=
  match ls with
  | [] => Some entries
  | l :: ls => e ← parse_entry allow_private wall_now entries l; parse_entries allow_private wall_now (entries ++ [e]) ls
  end.

(** [load_fallback_state] on the bytes of an existing file. *)
Definition parse_fallback_state (bytes : list Z) (host : list Z) (port capacity : Z) (allow_private : bool) (wall_now : Z)
    : option FallbackState :=
  if negb (utf8_valid bytes) then None else
  let text := strip_last NL bytes in
  if contains 13 text || bool_decide (text = []) then None else
  let lines := split_on NL text in
  match lines with
  | l0 :: l1 :: l2 :: l3 :: l4 :: l5 :: ls =>
      if (MAX_BUDGET_ENTRIES <? length ls)%nat then None else
      if negb (bool_decide (l0 = str "# udp2raw fallback state v1")) then None else
      version ← strict_field l1 (str "version");
      if negb (bool_decide (version = str "1")) then None else
      h ← strict_field l2 (str "host");
      if negb (bool_decide (h = host)) then None else
      p ← strict_field l3 (str "port");
      if negb (bool_decide (p = dec_string port)) then None else
      t ← strict_field l4 (str "global_tokens");
      tokens ← parse_state_uint 32 t;
      if capacity <? tokens then None else
      u ← strict_field l5 (str "global_updated");
      updated ← parse_state_uint 64 u;
      if saturating_add 64 wall_now 300 <? updated then None else
      es ← parse_entries allow_private wall_now [] ls;
      Some (mkFallbackState tokens updated es)
  | _ => None
  end.

(** * Sorting *)
Section sort_lemmas.
Context {A : Type} (key : A → Z).
Lemma insert_by_key_perm x l : insert_by_key key x l ≡ₚ x :: l.
Proof.
  induction l as [|y l IH]; cbn; [done|]. destruct (_ <=? _); [done|]. rewrite IH. apply Permutation_swap.
Qed.
Lemma sort_by_key_perm l : sort_by_key key l ≡ₚ l.
Proof. induction l as [|x l IH]; cbn; [done|]. by rewrite insert_by_key_perm, IH. Qed.
Lemma insert_by_key_sorted x l :
  StronglySorted (λ a b, key a ≤ key b) l → StronglySorted (λ a b, key a ≤ key b) (insert_by_key key x l).
Proof.
  induction 1 as [|y l Hs IH Hf]; cbn; [by repeat constructor|]. destruct (Z.leb_spec (key x) (key y)).
  - constructor; [by constructor|]. constructor; [done|]. eapply Forall_impl; [exact Hf|]. cbn. intros. lia.
  - constructor; [done|]. rewrite insert_by_key_perm. constructor; [lia|done].
Qed.
Lemma sort_by_key_sorted l : StronglySorted (λ a b, key a ≤ key b) (sort_by_key key l).
Proof. induction l as [|x l IH]; cbn; [constructor|by apply insert_by_key_sorted]. Qed.
Lemma sort_sorted l : StronglySorted (λ a b, key a ≤ key b) l → sort_by_key key l = l.
Proof.
  induction 1 as [|x l Hs IH Hf]; [done|]. cbn. rewrite IH. destruct Hf as [|y l Hxy _]; [done|].
  cbn. by rewrite (proj2 (Z.leb_le _ _)).
Qed.
End sort_lemmas.

(** Strictly ascending: sorted and without repetition. *)
Definition ascending (l : list Ipv4Addr) : Prop := StronglySorted (λ a b, ip_key a < ip_key b) l.
Lemma ip_key_inj a b : v4_ok a → v4_ok b → ip_key a = ip_key b → a = b.
Proof.
  intros [Ha La] [Hb Lb] E. unfold ip_key in E.
  rewrite <-(to_from_be a), <-(to_from_be b), La, Lb, E by done. done.
Qed.

Lemma dedup_cons x y l : dedup (x :: y :: l) = if bool_decide (x = y) then dedup (y :: l) else x :: dedup (y :: l).
Proof. done. Qed.
Lemma dedup_head x l : ∃ k, dedup (x :: l) = x :: k.
Proof.
  induction l as [|y l IH]; [by exists []|]. rewrite dedup_cons. case_bool_decide as E; [subst; exact IH|by eexists].
Qed.
Lemma elem_of_dedup x l : x ∈ dedup l ↔ x ∈ l.
Proof.
  induction l as [|a [|b l] IH]; [done|done|]. rewrite dedup_cons. case_bool_decide as E.
  - rewrite IH, (elem_of_cons (b :: l)). subst. split; [tauto|]. intros [->|?]; [left|done].
  - rewrite !(elem_of_cons _ x a), IH. done.
Qed.
Lemma dedup_ascending l : Forall v4_ok l → StronglySorted (λ a b, ip_key a ≤ ip_key b) l → ascending (dedup l).
Proof.
  intros Hv Hs. unfold ascending. induction Hs as [|a [|b l] Hs IH Hf]; [constructor|by repeat constructor|].
  apply Forall_cons in Hv as [Ha Hv]. specialize (IH Hv). rewrite dedup_cons. case_bool_decide as E; [done|].
  constructor; [exact IH|]. apply Forall_forall. intros x Hx. rewrite elem_of_dedup in Hx.
  pose proof (proj1 (Forall_forall _ _) Hf x Hx) as Hle. cbn in Hle.
  assert (ip_key a < ip_key b) as Hab.
  { apply Forall_cons in Hf as [Hab _]. apply Forall_cons in Hv as [Hb _].
    destruct (Z.eq_dec (ip_key a) (ip_key b)) as [Eq|]; [by apply ip_key_inj in Eq|lia]. }
  apply elem_of_cons in Hx as [->|Hx]; [done|]. apply StronglySorted_inv in Hs as [_ Hb].
  pose proof (proj1 (Forall_forall _ _) Hb x Hx) as Hbx. cbn in Hbx. lia.
Qed.

Lemma ascending_sorted l : ascending l → StronglySorted (λ a b, ip_key a ≤ ip_key b) l.
Proof. induction 1 as [|x l _ IH Hf]; constructor; [done|]. eapply Forall_impl; [exact Hf|]. cbn. lia. Qed.
Lemma dedup_id l : ascending l → dedup l = l.
Proof.
  induction 1 as [|a [|b k] Hk IH Hf]; [done|done|]. rewrite dedup_cons.
  rewrite IH, bool_decide_false; [done|]. intros ->. apply Forall_cons in Hf as [? _]. lia.
Qed.
Lemma ascending_canonical l : ascending l → canonical l = l.
Proof. intros Ha. unfold canonical. rewrite sort_sorted by by apply ascending_sorted. by apply dedup_id. Qed.

Lemma canonical_props l : Forall v4_ok l →
  ascending (canonical l) ∧ (∀ x, x ∈ canonical l ↔ x ∈ l) ∧ canonical (canonical l) = canonical l.
Proof.
  intros Hv. unfold canonical.
  assert (Forall v4_ok (sort_by_key ip_key l)) as Hv' by by rewrite sort_by_key_perm.
  assert (ascending (dedup (sort_by_key ip_key l))) as Ha by (apply dedup_ascending; [done|apply sort_by_key_sorted]).
  split_and!; [done| |].
  - intros x. rewrite elem_of_dedup. by rewrite (sort_by_key_perm ip_key l).
  - by apply ascending_canonical.
Qed.

Lemma ascending_take n l : ascending l → ascending (take n l).
Proof.
  intros H. revert n. unfold ascending in *. induction H as [|x l Hs IH Hf]; intros [|n]; cbn; try constructor; auto.
  by apply Forall_take.
Qed.
Lemma ascending_NoDup l : ascending l → NoDup l.
Proof.
  induction 1 as [|x l Hs IH Hf]; constructor; [|done]. intros Hx.
  pose proof (proj1 (Forall_forall _ _) Hf x Hx) as H. cbn in H. lia.
Qed.

(** * The ledger *)
Definition entry_key (e : BudgetEntry) : Ipv4Addr * list Ipv4Addr := (be_candidate e, be_dns_set e).
Definition ledger_ok (es : list BudgetEntry) : Prop := NoDup (entry_key <$> es).
Definition entry_of (k : Ipv4Addr * list Ipv4Addr) (es : list BudgetEntry) : option BudgetEntry :=
  snd <$> list_find (is_entry k.1 k.2) es.

Lemma is_entry_key k e : is_entry k.1 k.2 e ↔ entry_key e = k.
Proof. destruct k. unfold is_entry, entry_key. cbn. split; [intros [-> ->]; done|intros [= -> ->]; done]. Qed.
Lemma entry_of_Some k es e : ledger_ok es → entry_of k es = Some e ↔ e ∈ es ∧ entry_key e = k.
Proof.
  intros Hok. unfold entry_of. split.
  - intros ([i e'] & Ef & ->)%fmap_Some. apply list_find_Some in Ef as (Hi & Hk & _). cbn.
    split; [by apply list_elem_of_lookup_2 in Hi|by apply is_entry_key].
  - intros [He Hk]. destruct (list_find (is_entry k.1 k.2) es) as [[i e']|] eqn:Ef; cbn.
    + apply list_find_Some in Ef as (Hi & Hk' & _). f_equal. apply is_entry_key in Hk'.
      apply list_elem_of_lookup in He as (j & Hj).
      assert (i = j) as ->; [|congruence].
      eapply (NoDup_lookup (entry_key <$> es) _ _ k); [exact Hok|rewrite list_lookup_fmap, Hi; cbn; congruence|].
      rewrite list_lookup_fmap, Hj. cbn. congruence.
    + apply list_find_None in Ef. exfalso. apply (proj1 (Forall_forall _ _) Ef e He). by apply is_entry_key.
Qed.
Lemma entry_of_perm k es es' : ledger_ok es → es ≡ₚ es' → entry_of k es' = entry_of k es.
Proof.
  intros Hok Hp. assert (ledger_ok es') as Hok' by (unfold ledger_ok; by rewrite <-Hp).
  apply option_eq. intros e. rewrite !entry_of_Some by done. by rewrite Hp.
Qed.

(** What a successful charge does: one token, and one charge on the entry of the probe. *)
Lemma precharge_spec st policy now c d st' : ledger_ok (entries st) →
  precharge_fallback_state st policy now c d = Some st' →
  let st1 := refill policy now st in
  let old := entry_of (c, d) (entries st) in
  0 ≤ global_tokens st1 →
  1 ≤ global_tokens st1 ∧ global_tokens st' = global_tokens st1 - 1 ∧ global_updated st' = global_updated st1 ∧
  ledger_ok (entries st') ∧
  (∀ e, old = Some e → be_charged e < fp_max_attempts policy ∧ be_not_before e ≤ now) ∧
  entry_of (c, d) (entries st') = Some (mkBudgetEntry c d (match old with Some e => saturating_add 32 (be_charged e) 1 | None => 1 end)
     (saturating_add 64 now (ms_to_secs (fp_cooldown_ms policy))) now) ∧
  (∀ k, k ≠ (c, d) → entry_of k (entries st') = entry_of k (entries st)) ∧
  (length (entries st') ≤ MAX_BUDGET_ENTRIES ∨ length (entries st') ≤ length (entries st))%nat.
Proof.
  intros Hok E st1 old H0. unfold precharge_fallback_state in E. fold st1 in E.
  assert (entries st1 = entries st) as Hes by (unfold st1, refill; repeat case_match; done).
  destruct (Z.eqb_spec (global_tokens st1) 0); [done|]. rewrite Hes in E.
  assert (old = snd <$> list_find (is_entry c d) (entries st)) as Hold by done. clearbody old.
  set (ne := mkBudgetEntry c d _ _ now).
  assert (∀ es, ledger_ok es → ne ∈ es → (∀ e, entry_key e ≠ (c, d) → e ∈ es ↔ e ∈ entries st) →
    entry_of (c, d) es = Some ne ∧ ∀ k, k ≠ (c, d) → entry_of k es = entry_of k (entries st)) as Hkeys.
  { intros es Hl Hne Hoth. split; [by apply entry_of_Some|]. intros k Hk. apply option_eq. intros e.
    rewrite !entry_of_Some by done. split; intros [He <-]; (split; [by apply Hoth|done]). }
  destruct (list_find _ (entries st)) as [[i e]|] eqn:Ef; cbn in Hold; subst old.
  - apply list_find_Some in Ef as (Hi & [Hc Hd] & _).
    destruct (_ || _) eqn:Eg; [done|]. injection E as <-. cbn [entries global_tokens global_updated]. apply orb_false_iff in Eg as [Eg1 Eg2].
    pose proof (lookup_lt_Some _ _ _ Hi) as Hlt.
    assert (ledger_ok (<[i:=ne]> (entries st))) as Hl.
    { unfold ledger_ok. rewrite list_fmap_insert, list_insert_id; [done|]. rewrite list_lookup_fmap, Hi. cbn.
      unfold entry_key. cbn. by rewrite Hc, Hd. }
    rewrite Hc, Hd. change (mkBudgetEntry c d _ _ now) with ne.
    set (es' := <[i:=ne]> (entries st)) in *.
    pose proof (sort_by_key_perm (λ e, - be_last_used e) es') as Hp.
    destruct (Hkeys es' Hl) as [H1 H2].
    { apply list_elem_of_lookup. exists i. by apply list_lookup_insert_eq. }
    { intros e' He'. unfold es'. rewrite !list_elem_of_lookup. split; intros [j Hj]; exists j.
      - destruct (decide (j = i)) as [->|]; [|by rewrite list_lookup_insert_ne in Hj].
        rewrite list_lookup_insert_eq in Hj by done. injection Hj as <-. done.
      - destruct (decide (j = i)) as [->|]; [|by rewrite list_lookup_insert_ne].
        rewrite Hi in Hj. injection Hj as <-. exfalso. apply He'. unfold entry_key. by rewrite Hc, Hd. }
    assert (ledger_ok (sort_by_key (λ e, - be_last_used e) es')) by (unfold ledger_ok; by rewrite Hp).
    split_and!; try done; try lia.
    + intros e' [= <-]. lia.
    + by rewrite (entry_of_perm _ es').
    + intros k Hk. rewrite (entry_of_perm _ es') by done. by apply H2.
    + right. rewrite Hp. unfold es'. by rewrite length_insert.
  - destruct (Nat.leb_spec MAX_BUDGET_ENTRIES (length (entries st))); [done|]. injection E as <-. cbn [entries global_tokens global_updated].
    change (mkBudgetEntry c d 1 _ now) with ne. set (es' := entries st ++ [ne]). pose proof (sort_by_key_perm (λ e, - be_last_used e) es') as Hp.
    apply list_find_None in Ef.
    assert (ledger_ok es') as Hl.
    { unfold ledger_ok, es'. rewrite fmap_app. apply NoDup_app. split_and!; [done| |apply NoDup_singleton].
      intros k (e & -> & He)%list_elem_of_fmap Hk%list_elem_of_singleton.
      apply (proj1 (Forall_forall _ _) Ef e He). by apply (is_entry_key (c, d)). }
    destruct (Hkeys es' Hl) as [H1 H2].
    { apply elem_of_app. right. by left. }
    { intros e' He'. unfold es'. rewrite elem_of_app, list_elem_of_singleton. split; [|by left].
      intros [?| ->]; [done|]. by destruct He'. }
    assert (ledger_ok (sort_by_key (λ e, - be_last_used e) es')) by (unfold ledger_ok; by rewrite Hp).
    split_and!; try done; try lia.
    + by rewrite (entry_of_perm _ es').
    + intros k Hk. rewrite (entry_of_perm _ es') by done. by apply H2.
    + left. rewrite Hp. unfold es'. rewrite length_app. cbn. lia.
Qed.

(** * The budget over time *)
Lemma refill_entries policy now st : entries (refill policy now st) = entries st.
Proof. unfold refill. by repeat case_match. Qed.

Lemma refill_spec policy now st :
  let R := ms_to_secs (fp_global_refill_ms policy) in
  let st1 := refill policy now st in
  0 < R → 0 ≤ global_updated st → 0 ≤ global_tokens st ≤ fp_global_capacity policy → is_u 64 now →
  R * global_tokens st1 ≤ R * global_tokens st + (global_updated st1 - global_updated st) ∧
  global_updated st ≤ global_updated st1 ≤ Z.max (global_updated st) now ∧
  0 ≤ global_tokens st1 ≤ fp_global_capacity policy.
Proof.
  intros R st1 HR Hu Ht Hn. unfold st1, refill. fold R.
  destruct (Z.leb_spec (global_updated st) now); cbn [andb]; [|nia].
  rewrite (proj2 (Z.ltb_lt 0 R)) by done. destruct (Z.ltb_spec 0 ((now - global_updated st) / R)); [|nia].
  set (k := (now - global_updated st) / R) in *. cbn [global_tokens global_updated].
  assert (k * R ≤ now - global_updated st) by (rewrite Z.mul_comm; apply Z.mul_div_le; lia).
  unfold saturating_mul, saturating_add, is_u in *. rewrite (Z.min_l (k * R)) by lia.
  rewrite (Z.min_l (global_updated st + k * R)) by lia. split_and!; [|nia|lia|lia|lia].
  assert (Z.min (Z.min (global_tokens st + Z.min k (2 ^ 32 - 1)) (2 ^ 32 - 1)) (fp_global_capacity policy) ≤ global_tokens st + k) by lia.
  nia.
Qed.

(** A probe of an old address at a wall-clock time, and a sequence of them, by any processes
    that share the budget: the ones that were charged, and the budget after them. *)
Record Probe := mkProbe { pr_time : Z; pr_candidate : Ipv4Addr; pr_dns_set : list Ipv4Addr }.
Definition probe_key (p : Probe) : Ipv4Addr * list Ipv4Addr := (pr_candidate p, pr_dns_set p).
Fixpoint charge_run (policy : LastGoodFallbackPolicy) (st : FallbackState) (ps : list Probe) : list Probe * FallbackState :=
  match ps with
  | [] => ([], st)
  | p :: ps =>
      match precharge_fallback_state st policy (pr_time p) (pr_candidate p) (pr_dns_set p) with
      | None => charge_run policy st ps
      | Some st' => let '(ok, st'') := charge_run policy st' ps in (p :: ok, st'')
      end
  end.

Definition charged (k : Ipv4Addr * list Ipv4Addr) (st : FallbackState) : Z :=
  match entry_of k (entries st) with Some e => be_charged e | None => 0 end.
Definition cooling (k : Ipv4Addr * list Ipv4Addr) (st : FallbackState) : Z :=
  match entry_of k (entries st) with Some e => be_not_before e | None => 0 end.
Definition of_key (k : Ipv4Addr * list Ipv4Addr) (ps : list Probe) : list Probe := filter (λ p, probe_key p = k) ps.

(** What the bounds rest on: limits as the command line enforces them. *)
Record policy_ok (policy : LastGoodFallbackPolicy) : Prop := {
  po_refill : 0 < ms_to_secs (fp_global_refill_ms policy);
  po_attempts : 1 ≤ fp_max_attempts policy < 2 ^ 32;
  po_cooldown : 0 ≤ ms_to_secs (fp_cooldown_ms policy) ≤ MAX_PERSISTED_COOLDOWN_SECS;
  po_capacity : 0 ≤ fp_global_capacity policy < 2 ^ 32 }.
Record budget_ok (policy : LastGoodFallbackPolicy) (now : Z) (st : FallbackState) : Prop := {
  bo_ledger : ledger_ok (entries st);
  bo_tokens : 0 ≤ global_tokens st ≤ fp_global_capacity policy;
  bo_updated : 0 ≤ global_updated st ≤ now;
  bo_charges k : 0 ≤ charged k st;
  bo_entries : (length (entries st) ≤ MAX_BUDGET_ENTRIES)%nat }.

Section budget.
Context (policy : LastGoodFallbackPolicy) (Hpol : policy_ok policy) (W : Z) (HW : 0 ≤ W < 2 ^ 64 - MAX_PERSISTED_COOLDOWN_SECS).
Let R := ms_to_secs (fp_global_refill_ms policy).
Let cooldown := ms_to_secs (fp_cooldown_ms policy).

Lemma charge_step st p st' : budget_ok policy W st → 0 ≤ pr_time p ≤ W →
  precharge_fallback_state st policy (pr_time p) (pr_candidate p) (pr_dns_set p) = Some st' →
  budget_ok policy W st' ∧
  R * (global_tokens st' + 1) ≤ R * global_tokens st + (global_updated st' - global_updated st) ∧
  charged (probe_key p) st < fp_max_attempts policy ∧
  charged (probe_key p) st' = charged (probe_key p) st + 1 ∧
  cooling (probe_key p) st ≤ pr_time p ∧ cooling (probe_key p) st' = pr_time p + cooldown ∧
  (∀ k, k ≠ probe_key p → charged k st' = charged k st ∧ cooling k st' = cooling k st).
Proof using Hpol HW.
  intros [Hl Ht Hu Hc Hn] Hp E. destruct Hpol as [Hr Ha Hcd Hcap]. unfold MAX_PERSISTED_COOLDOWN_SECS in *.
  destruct (refill_spec policy (pr_time p) st Hr) as (HRt & Hup & Htk); [lia|done|unfold is_u; lia|].
  destruct (precharge_spec _ _ _ _ _ _ Hl E) as (H1 & Htok & Hupd & Hl' & Hguard & Hnew & Hoth & Hlen); [lia|].
  unfold charged, cooling. change (pr_candidate p, pr_dns_set p) with (probe_key p) in *.
  specialize (Hc (probe_key p)) as Hcp. unfold charged in Hcp.
  assert (∀ k, k ≠ probe_key p → charged k st' = charged k st ∧ cooling k st' = cooling k st) as Hother.
  { intros k Hk. unfold charged, cooling. by rewrite Hoth. }
  assert (charged (probe_key p) st' = charged (probe_key p) st + 1 ∧ charged (probe_key p) st < fp_max_attempts policy ∧
    cooling (probe_key p) st ≤ pr_time p) as (Hch & Hlt & Hco).
  { unfold charged, cooling. rewrite Hnew. cbn. destruct (entry_of (probe_key p) (entries st)) as [e|] eqn:Eo; [|lia].
    destruct (Hguard e eq_refl). unfold saturating_add. lia. }
  split_and!; try done.
  - constructor; [done|rewrite Htok; lia|rewrite Hupd; lia| |lia].
    intros k. destruct (decide (k = probe_key p)) as [->|Hk]; [rewrite Hch; unfold charged; lia|].
    rewrite (proj1 (Hother k Hk)). apply Hc.
  - rewrite Htok, Hupd. unfold R in *. nia.
  - rewrite Hnew. cbn. unfold saturating_add, cooldown. lia.
Qed.

Lemma charge_run_bounds ps st ok st' : budget_ok policy W st → Forall (λ p, 0 ≤ pr_time p ≤ W) ps →
  charge_run policy st ps = (ok, st') →
  budget_ok policy W st' ∧ sublist ok ps ∧
  R * (global_tokens st' + zlen ok) ≤ R * global_tokens st + (global_updated st' - global_updated st) ∧
  (∀ k, charged k st + zlen (of_key k ok) ≤ Z.max (charged k st) (fp_max_attempts policy)) ∧
  (∀ p, p ∈ ok → cooling (probe_key p) st ≤ pr_time p) ∧
  (∀ i j x y, (i < j)%nat → ok !! i = Some x → ok !! j = Some y → probe_key x = probe_key y →
     pr_time x + cooldown ≤ pr_time y).
Proof using Hpol HW.
  intros Hok Hps. revert st ok st' Hok. induction Hps as [|p ps Hp _ IH]; intros st ok st' Hok E; cbn [charge_run] in E.
  { injection E as <- <-. cbn. split_and!; try done; try lia. by intros ? ?%elem_of_nil. }
  destruct (precharge_fallback_state _ _ _ _ _) as [st1|] eqn:E1.
  - destruct (charge_run policy st1 ps) as [ok1 st2] eqn:E2. injection E as <- <-.
    destruct (charge_step _ _ _ Hok Hp E1) as (Hok1 & HR & Hlt & Hch & Hco & Hco' & Hoth).
    destruct (IH _ _ _ Hok1 E2) as (Hok2 & Hs & HR2 & Hk & Hc & Hpair). destruct Hpol as [Hr Ha Hcd Hcap].
    split_and!; [done|by constructor|rewrite zlen_cons; nia| | |].
    + intros k. unfold of_key. destruct (decide (k = probe_key p)) as [->|Hne].
      * rewrite filter_cons_True, zlen_cons by done. specialize (Hk (probe_key p)). unfold of_key in Hk. lia.
      * rewrite filter_cons_False by congruence. specialize (Hk k). unfold of_key in Hk. rewrite (proj1 (Hoth k Hne)) in Hk. lia.
    + intros q [->|Hq]%elem_of_cons; [lia|]. specialize (Hc q Hq).
      destruct (decide (probe_key q = probe_key p)) as [Eq|Hne]; [rewrite Eq in *; unfold cooldown in *; lia|].
      by rewrite (proj2 (Hoth _ Hne)) in Hc.
    + intros [|i] [|j] x y Hij Hi Hj Hxy; try lia; cbn in Hi, Hj.
      * injection Hi as ->. apply list_elem_of_lookup_2 in Hj. specialize (Hc y Hj). rewrite <-Hxy in Hc. lia.
      * eapply (Hpair i j); try done. lia.
  - destruct (IH _ _ _ Hok E) as (H1 & H2 & H3). split; [done|]. split; [by constructor|done].
Qed.
End budget.

(** * The text of the budget, read back *)
Record entry_ok (allow_private : bool) (now : Z) (e : BudgetEntry) : Prop := {
  en_candidate : v4_ok (be_candidate e) ∧ check_endpoint_ip (be_candidate e) allow_private = true;
  en_charged : is_u 32 (be_charged e) ∧ be_charged e ≠ 0;
  en_times : 0 ≤ be_last_used e ≤ be_not_before e ∧ is_u 64 (be_not_before e);
  en_now : be_last_used e ≤ saturating_add 64 now 300;
  en_cooldown : be_not_before e ≤ be_last_used e + MAX_PERSISTED_COOLDOWN_SECS;
  en_set : Forall (λ ip, v4_ok ip ∧ check_endpoint_ip ip allow_private = true) (be_dns_set e);
  en_set_canonical : ascending (be_dns_set e) ∧ be_dns_set e ≠ [];
  en_set_length : (length (be_dns_set e) ≤ MAX_ENDPOINT_CANDIDATES)%nat }.
Record state_ok (allow_private : bool) (capacity now : Z) (st : FallbackState) : Prop := {
  so_tokens : 0 ≤ global_tokens st ≤ capacity ∧ is_u 32 (global_tokens st);
  so_updated : 0 ≤ global_updated st ≤ saturating_add 64 now 300;
  so_ledger : ledger_ok (entries st);
  so_entries : Forall (entry_ok allow_private now) (entries st);
  so_length : (length (entries st) ≤ MAX_BUDGET_ENTRIES)%nat }.
(** A host name as [validate_hostname] accepts it. *)
Definition host_chars (host : list Z) : Prop :=
  host ≠ [] ∧ (length host ≤ 253)%nat ∧ Forall graphic host ∧ 61 ∉ host.

Lemma parse_state_ip_string ip ap : v4_ok ip → check_endpoint_ip ip ap = true → parse_state_ip (ipv4_string ip) ap = Some ip.
Proof. intros Hv Hc. unfold parse_state_ip. rewrite parse_ipv4_string, bool_decide_true by done. cbn [negb]. by rewrite Hc. Qed.
Lemma parse_state_uint_string w z : w ≤ 64 → is_u w z → parse_state_uint w (dec_string z) = Some z.
Proof. intros Hw Hz. unfold parse_state_uint. rewrite parse_dec by done. by rewrite bool_decide_true. Qed.

(** Characters of the fields: digits, dots, commas and bars. *)
Definition field_char (c : Z) : Prop := is_digit c = true ∨ c = 46 ∨ c = 44 ∨ c = 124.
Lemma field_graphic c : field_char c → graphic c ∧ c ≠ 61 ∧ c ≠ NL ∧ c ≠ 13.
Proof. unfold field_char, is_digit, graphic, NL. lia. Qed.
Lemma dec_chars z : is_u 64 z → Forall (λ c, is_digit c = true) (dec_string z).
Proof. apply dec_string_digits. Qed.
Lemma ip_chars ip : v4_ok ip → Forall (λ c, is_digit c = true ∨ c = 46) (ipv4_string ip).
Proof. intros Hv. apply Forall_forall. intros c. by apply ipv4_chars. Qed.
Lemma set_chars set : Forall v4_ok set → Forall (λ c, is_digit c = true ∨ c = 46 ∨ c = 44) (join 44 (ipv4_string <$> set)).
Proof.
  intros Hs. apply Forall_forall. intros c [->|(x & (ip & -> & Hip)%list_elem_of_fmap & Hc)]%elem_of_join; [auto|].
  destruct (ipv4_chars ip c) as [?| ->]; auto. by apply (proj1 (Forall_forall _ _) Hs).
Qed.
Lemma not_in_chars (P : Z → Prop) c l : Forall P l → ¬ P c → c ∉ l.
Proof. intros Hl Hc Hi. by apply Hc, (proj1 (Forall_forall _ _) Hl). Qed.

Lemma entry_fields ap now e : entry_ok ap now e →
  let fields := [ipv4_string (be_candidate e); dec_string (be_charged e); dec_string (be_not_before e);
                 dec_string (be_last_used e); join 44 (ipv4_string <$> be_dns_set e)] in
  Forall (λ f, Forall (λ c, is_digit c = true ∨ c = 46 ∨ c = 44) f) fields.
Proof.
  intros [[Hv _] [Hc _] [Ht Hn] _ _ Hs _ _]. unfold is_u in Hn.
  assert (∀ z, is_u 64 z → Forall (λ c, is_digit c = true ∨ c = 46 ∨ c = 44) (dec_string z)) as Hd.
  { intros z Hz. eapply Forall_impl; [by apply dec_chars|]. cbn. auto. }
  repeat apply Forall_cons_2; try apply Forall_nil_2.
  - eapply Forall_impl; [by apply ip_chars|]. cbn. tauto.
  - apply Hd. apply (is_u_mono 32); [lia|done].
  - apply Hd. unfold is_u. lia.
  - apply Hd. unfold is_u. lia.
  - apply set_chars. eapply Forall_impl; [exact Hs|]. by intros ? [? _].
Qed.
Lemma entry_text_chars ap now e : entry_ok ap now e → Forall field_char (entry_text e) ∧ entry_text e ≠ [].
Proof.
  intros He. pose proof (entry_fields ap now e He) as Hf. unfold entry_text. split.
  - apply Forall_forall. intros c [->|(x & Hx & Hc)]%elem_of_join; [by unfold field_char; auto|].
    pose proof (proj1 (Forall_forall _ _) (proj1 (Forall_forall _ _) Hf x Hx) c Hc) as H. cbn in H.
    unfold field_char. tauto.
  - cbn [join]. destruct (ipv4_string (be_candidate e)); done.
Qed.

Lemma parse_entry_text ap now es e : entry_ok ap now e → entry_key e ∉ entry_key <$> es →
  parse_entry ap now es (line "entry" (entry_text e)) = Some e.
Proof.
  intros He Hk. destruct (entry_text_chars ap now e He) as [Hc Hn]. unfold parse_entry, line.
  rewrite strict_field_ok; [|done|by eapply Forall_impl; [exact Hc|]; intros ? ?%field_graphic; tauto
    |eapply not_in_chars; [exact Hc|]; intros (_ & ? & _)%field_graphic; done].
  cbn [mbind option_bind]. unfold entry_text. rewrite split_join; [|done|].
  2:{ eapply Forall_impl; [by apply (entry_fields ap now)|]. intros f Hf.
      eapply not_in_chars; [exact Hf|]. cbn. unfold is_digit. lia. }
  destruct He as [[Hv Hcv] [Hch Hch0] [Ht Hn64] Hnow Hcd Hs [Has Hs0] Hsl]. unfold is_u in Hn64.
  rewrite parse_state_ip_string by done. cbn [mbind option_bind].
  rewrite (parse_state_uint_string 32); [|lia|done]. cbn [mbind option_bind].
  rewrite (parse_state_uint_string 64); [|lia|unfold is_u; lia]. cbn [mbind option_bind].
  rewrite (parse_state_uint_string 64); [|lia|unfold is_u; lia]. cbn [mbind option_bind].
  rewrite (proj2 (Z.eqb_neq (be_charged e) 0)) by done.
  rewrite (proj2 (Z.ltb_ge (saturating_add 64 now 300) _)) by done.
  rewrite (proj2 (Z.ltb_ge (be_not_before e) _)) by lia. cbn [orb].
  rewrite (proj2 (Z.ltb_ge MAX_PERSISTED_COOLDOWN_SECS _)) by (unfold saturating_sub; case_match; lia).
  rewrite split_join; [|by destruct (be_dns_set e)|].
  2:{ apply Forall_fmap. eapply Forall_impl; [exact Hs|]. intros ip [Hip _].
      eapply not_in_chars; [by apply ip_chars|]. cbn. unfold is_digit. lia. }
  assert (mapM (λ v, parse_state_ip v ap) (ipv4_string <$> be_dns_set e) = Some (be_dns_set e)) as ->.
  { apply mapM_Some_2, Forall2_fmap_l, Forall_Forall2_diag. eapply Forall_impl; [exact Hs|].
    intros ip [??]. by apply parse_state_ip_string. }
  cbn [mbind option_bind]. rewrite ascending_canonical, bool_decide_true, bool_decide_false by done. cbn [negb orb].
  rewrite (proj2 (Nat.ltb_ge _ _)) by done.
  assert (existsb (λ e0, bool_decide (is_entry (be_candidate e) (be_dns_set e) e0)) es = false) as ->.
  { apply not_true_is_false. intros (e' & He' & Hm)%existsb_exists. apply bool_decide_eq_true in Hm.
    apply Hk, list_elem_of_fmap. exists e'. split; [|by apply list_elem_of_In].
    symmetry. by apply (is_entry_key (entry_key e)). }
  by destruct e.
Qed.

Lemma parse_entries_text ap now es done_ : ledger_ok (done_ ++ es) → Forall (entry_ok ap now) es →
  parse_entries ap now done_ ((λ e, line "entry" (entry_text e)) <$> es) = Some (done_ ++ es).
Proof.
  revert done_. induction es as [|e es IH]; intros d Hl He; cbn [fmap list_fmap parse_entries]; [by rewrite app_nil_r|].
  apply Forall_cons in He as [He Hes].
  rewrite parse_entry_text; [|done|].
  2:{ unfold ledger_ok in Hl. rewrite fmap_app in Hl. apply NoDup_app in Hl as (_ & Hd & _). intros Hi.
      apply (Hd _ Hi). by left. }
  cbn [mbind option_bind]. change (list_fmap _ _ (λ e, line "entry" (entry_text e)) es) with ((λ e, line "entry" (entry_text e)) <$> es).
  rewrite IH; [by rewrite <-app_assoc|by rewrite <-app_assoc|done].
Qed.

Lemma line_chars name value : Forall graphic (str name) → Forall graphic value →
  Forall graphic (line name value).
Proof. intros. apply Forall_app_2; [done|]. constructor; [unfold graphic; lia|done]. Qed.

(** Every line is printable ASCII apart from blanks. *)
Definition line_char (c : Z) : Prop := 32 ≤ c ≤ 126.
Lemma line_check l : forallb (λ c, (32 <=? c) && (c <=? 126)) l = true → Forall line_char l.
Proof. rewrite forallb_forall, Forall_forall. unfold line_char. setoid_rewrite list_elem_of_In. intros H c Hc. specialize (H c Hc). lia. Qed.
Lemma graphic_check l : forallb (λ c, (33 <=? c) && (c <=? 126)) l = true → Forall graphic l.
Proof. rewrite forallb_forall, Forall_forall. unfold graphic. setoid_rewrite list_elem_of_In. intros H c Hc. specialize (H c Hc). lia. Qed.
Lemma state_lines_chars host port ap cap now st : host_chars host → is_u 16 port → state_ok ap cap now st →
  now < 2 ^ 64 - 300 → Forall (Forall line_char) (state_lines host port st).
Proof.
  intros (_ & _ & Hh & _) Hp [[Ht Ht32] Hu Hl He _] Hn.
  assert (∀ c, graphic c → line_char c) as Hgl by (unfold graphic, line_char; lia).
  assert (∀ s, Forall graphic s → Forall line_char s) as Hw by (intros; by eapply Forall_impl).
  assert (∀ z, is_u 64 z → Forall graphic (dec_string z)) as Hd
    by (intros; eapply Forall_impl; [by apply dec_string_digits|apply graphic_digit]).
  assert (∀ s v, forallb (λ c, (33 <=? c) && (c <=? 126)) (str s) = true → Forall graphic v → Forall line_char (line s v)) as Hln.
  { intros s v Hs Hv. by apply Hw, line_chars; [apply graphic_check|]. }
  unfold saturating_add in Hu. unfold state_lines. apply Forall_app_2.
  - apply Forall_cons_2; [by apply line_check|].
    apply Forall_cons_2; [apply Hln; [reflexivity|by apply graphic_check]|].
    apply Forall_cons_2; [by apply Hln|].
    apply Forall_cons_2; [apply Hln; [reflexivity|]; apply Hd, (is_u_mono 16); [lia|done]|].
    apply Forall_cons_2; [apply Hln; [reflexivity|]; apply Hd, (is_u_mono 32); [lia|done]|].
    apply Forall_cons_2; [apply Hln; [reflexivity|]; apply Hd; unfold is_u; lia|]. apply Forall_nil_2.
  - apply Forall_fmap. eapply Forall_impl; [exact He|]. intros e Hent. cbn beta. apply Hln; [reflexivity|].
    destruct (entry_text_chars ap now e Hent) as [Hc _]. eapply Forall_impl; [exact Hc|]. intros c Hf. by apply field_graphic in Hf as [? _].
Qed.

Lemma join_length b sep ls : Forall (λ x, (length x ≤ b)%nat) ls → (length (join sep ls) ≤ length ls * (b + 1))%nat.
Proof.
  induction 1 as [|x [|y ls] Hx Hls IH]; [cbn; lia|cbn; lia|].
  change (join sep (x :: y :: ls)) with (x ++ sep :: join sep (y :: ls)). rewrite length_app. cbn [length] in *. lia.
Qed.
Lemma ipv4_string_length ip : v4_ok ip → (length (ipv4_string ip) ≤ 16)%nat.
Proof.
  intros [Hb Hl]. unfold ipv4_string. etrans; [apply (join_length 3)|by rewrite length_fmap, Hl].
  apply Forall_fmap. eapply Forall_impl; [exact Hb|]. intros z Hz. change ((length (dec_string z) ≤ 3)%nat). rewrite byte_digits by done.
  apply (digits_props 3 z). unfold is_u in Hz. cbn. lia.
Qed.
Lemma entry_text_length ap now e : entry_ok ap now e → (length (entry_text e) ≤ 685)%nat.
Proof.
  intros [[Hv _] [Hc _] [Ht Hn] _ _ Hs _ Hl]. unfold entry_text. etrans; [apply (join_length 136)|done].
  unfold is_u in Hn. assert (∀ z, is_u 64 z → (length (dec_string z) ≤ 136)%nat) as Hd
    by (intros z Hz; pose proof (dec_string_length z Hz); lia).
  repeat apply Forall_cons_2; try apply Forall_nil_2.
  - pose proof (ipv4_string_length _ Hv). lia.
  - apply Hd, (is_u_mono 32); [lia|done].
  - apply Hd. unfold is_u. lia.
  - apply Hd. unfold is_u. lia.
  - etrans; [apply (join_length 16)|rewrite length_fmap; unfold MAX_ENDPOINT_CANDIDATES in Hl; lia].
    apply Forall_fmap. eapply Forall_impl; [exact Hs|]. intros ip [Hip _]. by apply ipv4_string_length.
Qed.

Lemma serialize_length host port ap cap now st : host_chars host → is_u 16 port → state_ok ap cap now st →
  now < 2 ^ 64 - 300 → zlen (serialize_fallback_state host port st) ≤ STATE_MAX_BYTES.
Proof.
  intros (_ & Hh & _ & _) Hp [[Ht Ht32] Hu _ He Hl] Hn. unfold saturating_add in Hu.
  assert (∀ s v, (length (str s) ≤ 14)%nat → (length v ≤ 685)%nat → (length (line s v) ≤ 700)%nat) as Hln.
  { intros s v H1 H2. unfold line. rewrite length_app. cbn [length]. lia. }
  assert (∀ z, is_u 64 z → (length (dec_string z) ≤ 685)%nat) as Hd by (intros z Hz; pose proof (dec_string_length z Hz); lia).
  assert (length (join NL (state_lines host port st)) ≤ length (state_lines host port st) * (700 + 1))%nat as Hj.
  { apply join_length. unfold state_lines. apply Forall_app_2.
    - apply Forall_cons_2; [cbn; lia|]. apply Forall_cons_2; [apply Hln; cbn; lia|].
      apply Forall_cons_2; [apply Hln; cbn; lia|].
      apply Forall_cons_2; [apply Hln; [cbn; lia|]; apply Hd, (is_u_mono 16); [lia|done]|].
      apply Forall_cons_2; [apply Hln; [cbn; lia|]; apply Hd, (is_u_mono 32); [lia|done]|].
      apply Forall_cons_2; [apply Hln; [cbn; lia|]; apply Hd; unfold is_u; lia|]. apply Forall_nil_2.
    - apply Forall_fmap. eapply Forall_impl; [exact He|]. intros e Hent. cbn beta.
      apply Hln; [cbn; lia|by eapply entry_text_length]. }
  unfold serialize_fallback_state. rewrite length_app. cbn [length].
  assert (length (state_lines host port st) ≤ 22)%nat.
  { unfold state_lines. rewrite length_app, length_fmap. unfold MAX_BUDGET_ENTRIES in Hl. cbn [length]. lia. }
  unfold STATE_MAX_BYTES. lia.
Qed.

Lemma parse_serialize host port ap cap now st : host_chars host → is_u 16 port → now < 2 ^ 64 - 300 →
  state_ok ap cap now st →
  parse_fallback_state (serialize_fallback_state host port st) host port cap ap now = Some st.
Proof.
  intros Hh Hp Hn Hs. pose proof (state_lines_chars host port ap cap now st Hh Hp Hs Hn) as Hc.
  destruct Hh as (Hh0 & _ & Hhg & Hhe). destruct Hs as [[Ht Ht32] Hu Hl He Hlen].
  assert (∀ c, c ∈ join NL (state_lines host port st) → c = NL ∨ line_char c) as Hj.
  { intros c [->|(x & Hx & Hcx)]%elem_of_join; [by left|right].
    exact (proj1 (Forall_forall _ _) (proj1 (Forall_forall _ _) Hc x Hx) c Hcx). }
  unfold parse_fallback_state, serialize_fallback_state. rewrite utf8_ascii.
  2:{ apply Forall_app_2; [|repeat constructor; unfold NL; lia]. apply Forall_forall. intros c [->|H]%Hj; unfold NL, line_char in *; lia. }
  cbn [negb]. rewrite strip_last_app. unfold contains. rewrite bool_decide_false.
  2:{ intros [E|H]%Hj; unfold NL, line_char in *; lia. }
  rewrite bool_decide_false by done. cbn [orb].
  rewrite split_join; [|done|].
  2:{ eapply Forall_impl; [exact Hc|]. intros x Hx. eapply not_in_chars; [exact Hx|]. unfold line_char, NL. lia. }
  unfold state_lines. cbn [app]. rewrite (proj2 (Nat.ltb_ge _ _)) by by rewrite length_fmap.
  rewrite bool_decide_true by done. cbn [negb]. unfold line.
  assert (∀ z, is_u 64 z → dec_string z ≠ [] ∧ Forall graphic (dec_string z) ∧ 61 ∉ dec_string z) as Hd.
  { intros z Hz. split_and!; [by apply dec_string_nonempty| |by apply dec_no_char].
    eapply Forall_impl; [by apply dec_string_digits|apply graphic_digit]. }
  unfold saturating_add in Hu.
  destruct (Hd port) as (?&?&?); [by apply (is_u_mono 16); [lia|]|].
  destruct (Hd (global_tokens st)) as (?&?&?); [by apply (is_u_mono 32); [lia|]|].
  destruct (Hd (global_updated st)) as (?&?&?); [unfold is_u; lia|].
  rewrite (strict_field_ok (str "version") (str "1")); [|done|by apply graphic_check|by apply (bool_decide_unpack (61 ∉ str "1")); vm_compute].
  cbn [mbind option_bind]. rewrite bool_decide_true by done. cbn [negb].
  rewrite (strict_field_ok (str "host")) by done. cbn [mbind option_bind]. rewrite bool_decide_true by done. cbn [negb].
  rewrite (strict_field_ok (str "port")) by done. cbn [mbind option_bind]. rewrite bool_decide_true by done. cbn [negb].
  rewrite (strict_field_ok (str "global_tokens")) by done. cbn [mbind option_bind].
  rewrite (parse_state_uint_string 32); [|lia|done]. cbn [mbind option_bind].
  rewrite (proj2 (Z.ltb_ge cap _)) by lia.
  rewrite (strict_field_ok (str "global_updated")) by done. cbn [mbind option_bind].
  rewrite (parse_state_uint_string 64); [|lia|unfold is_u; lia]. cbn [mbind option_bind].
  rewrite (proj2 (Z.ltb_ge (saturating_add 64 now 300) _)) by (unfold saturating_add; lia).
  change (λ e, str "entry" ++ 61 :: entry_text e) with (λ e, line "entry" (entry_text e)).
  rewrite (parse_entries_text ap now (entries st) []) by done. cbn. by destruct st.
Qed.

(** A set of DNS addresses as the controller keeps it. *)
Record set_ok (allow_private : bool) (set : list Ipv4Addr) : Prop := {
  st_addrs : Forall (λ ip, v4_ok ip ∧ check_endpoint_ip ip allow_private = true) set;
  st_ascending : ascending set;
  st_nonempty : set ≠ [];
  st_length : (length set ≤ MAX_ENDPOINT_CANDIDATES)%nat }.

Lemma state_ok_mono ap cap now now' st : now ≤ now' → state_ok ap cap now st → state_ok ap cap now' st.
Proof.
  intros Hn [Ht Hu Hl He Hlen]. assert (saturating_add 64 now 300 ≤ saturating_add 64 now' 300) by (unfold saturating_add; lia).
  constructor; try done; [lia|]. eapply Forall_impl; [exact He|]. intros e [? ? ? ? ? ? ? ?]. constructor; try done. lia.
Qed.

Lemma precharge_state_ok ap policy now st c d st' :
  policy_ok policy → 0 ≤ now < 2 ^ 64 - MAX_PERSISTED_COOLDOWN_SECS →
  state_ok ap (fp_global_capacity policy) now st →
  v4_ok c → check_endpoint_ip c ap = true → set_ok ap d →
  precharge_fallback_state st policy now c d = Some st' → state_ok ap (fp_global_capacity policy) now st'.
Proof.
  intros Hpol Hn [[Ht Ht32] Hu Hl He Hlen] Hc Hca [Hda Hdo Hd0 Hdl] E. destruct Hpol as [Hr Hat Hcd Hcap].
  unfold MAX_PERSISTED_COOLDOWN_SECS in *.
  destruct (refill_spec policy now st Hr) as (_ & Hup & Htk); [lia|done|unfold is_u; lia|].
  destruct (precharge_spec _ _ _ _ _ _ Hl E) as (H1 & Htok & Hupd & Hl' & Hguard & Hnew & Hoth & Hlen'); [lia|].
  constructor; [rewrite Htok; unfold is_u; lia|rewrite Hupd; unfold saturating_add in *; lia|done| |lia].
  apply Forall_forall. intros e Hin.
  assert (entry_of (entry_key e) (entries st') = Some e) as Heo by by apply entry_of_Some.
  destruct (decide (entry_key e = (c, d))) as [Ek|Hne].
  - rewrite Ek, Hnew in Heo. injection Heo as <-. constructor; cbn; try done.
    + destruct (entry_of (c, d) (entries st)) as [e|] eqn:Eo; [|unfold is_u; lia].
      destruct (Hguard e eq_refl) as [Hlt _]. apply entry_of_Some in Eo as [Hin' _]; [|done].
      destruct (proj1 (Forall_forall _ _) He e Hin') as [_ [Hch _] _ _ _ _ _ _]. unfold saturating_add, is_u in *. lia.
    + unfold saturating_add, is_u. lia.
    + unfold saturating_add. lia.
    + unfold saturating_add, MAX_PERSISTED_COOLDOWN_SECS. lia.
  - rewrite Hoth in Heo by done. apply entry_of_Some in Heo as [Hin' _]; [|done]. by apply (proj1 (Forall_forall _ _) He).
Qed.

(** C37. The budget of old-address probes holds for every sequence of attempts, by any number of
    processes, between restarts and with any clock readings up to [W]: at most the tokens
    there were plus one per elapsed refill interval are charged; no pair of a candidate and
    a set of DNS answers is charged more than [max_attempts] times in all; two charges of
    one pair are at least the cooldown apart; and the bucket and the ledger stay within
    their capacities. *)
Theorem probe_budget (policy : LastGoodFallbackPolicy) (W : Z) (st st' : FallbackState) (ps ok : list Probe)
    (Hpol : policy_ok policy) (HW : 0 ≤ W < 2 ^ 64 - MAX_PERSISTED_COOLDOWN_SECS) (Hst : budget_ok policy W st)
    (Hps : Forall (λ p, 0 ≤ pr_time p ≤ W) ps) (Hrun : charge_run policy st ps = (ok, st')) :
  sublist ok ps ∧
  zlen ok ≤ global_tokens st + (W - global_updated st) / ms_to_secs (fp_global_refill_ms policy) ∧
  (∀ k, charged k st ≤ fp_max_attempts policy → charged k st + zlen (of_key k ok) ≤ fp_max_attempts policy) ∧
  (∀ i j x y, (i < j)%nat → ok !! i = Some x → ok !! j = Some y → probe_key x = probe_key y →
     pr_time x + ms_to_secs (fp_cooldown_ms policy) ≤ pr_time y) ∧
  0 ≤ global_tokens st' ≤ fp_global_capacity policy ∧ (length (entries st') ≤ MAX_BUDGET_ENTRIES)%nat.
Proof.
  destruct (charge_run_bounds policy Hpol W HW ps st ok st' Hst Hps Hrun) as (Hok & Hs & HR & Hk & _ & Hp).
  pose proof (bo_updated _ _ _ Hok) as Hu'. pose proof (bo_tokens _ _ _ Hok) as Ht'. pose proof (po_refill _ Hpol) as Hr.
  split_and!; try done; [|by intros k Hc; specialize (Hk k); lia|apply Ht'|apply Ht'|apply Hok].
  set (R := ms_to_secs (fp_global_refill_ms policy)) in *.
  assert (zlen ok - global_tokens st ≤ (W - global_updated st) / R); [|lia].
  apply Z.div_le_lower_bound; [done|]. nia.
Qed.

(** A charge survives a restart: the text written for it is within the size the reader
    accepts, and reading it, at any time not before the charge, gives back exactly the
    charged budget. *)
Theorem charge_survives_restart (ap : bool) (policy : LastGoodFallbackPolicy) (host : list Z) (port now now' : Z)
    (st st' : FallbackState) (c : Ipv4Addr) (d : list Ipv4Addr)
    (Hpol : policy_ok policy) (Hh : host_chars host) (Hp : is_u 16 port)
    (Hn : 0 ≤ now ≤ now') (Hn' : now' < 2 ^ 64 - MAX_PERSISTED_COOLDOWN_SECS)
    (Hst : state_ok ap (fp_global_capacity policy) now st)
    (Hc : v4_ok c) (Hca : check_endpoint_ip c ap = true) (Hd : set_ok ap d)
    (E : precharge_fallback_state st policy now c d = Some st') :
  zlen (serialize_fallback_state host port st') ≤ STATE_MAX_BYTES ∧
  parse_fallback_state (serialize_fallback_state host port st') host port (fp_global_capacity policy) ap now' = Some st'.
Proof.
  assert (state_ok ap (fp_global_capacity policy) now' st') as Hs.
  { apply (state_ok_mono _ _ now); [lia|]. apply (precharge_state_ok ap policy now st c d); try done. lia. }
  unfold MAX_PERSISTED_COOLDOWN_SECS in Hn'.
  split; [eapply serialize_length; try done; lia|apply parse_serialize; try done; lia].
Qed.

(** * A concrete budget *)
Definition demo_policy : LastGoodFallbackPolicy := mkPolicy true 3 2 300000 86400000 4 900000 30000 30000 300000.
Lemma demo_policy_ok : policy_ok demo_policy.
Proof. constructor; vm_compute; intuition congruence. Qed.
Definition demo_old : Ipv4Addr := [1; 2; 3; 4].
Definition demo_set : list Ipv4Addr := [[5; 6; 7; 8]; [9; 10; 11; 12]].
Definition demo_probes : list Probe :=
  [mkProbe 1000 demo_old demo_set; mkProbe 1100 demo_old demo_set; mkProbe 1300 demo_old demo_set; mkProbe 9000 demo_old demo_set].

Lemma demo_budget : budget_ok demo_policy 10000 (FallbackState_new 4 1000).
Proof. constructor; [apply NoDup_nil_2|cbn; lia|cbn; lia|done|cbn; unfold MAX_BUDGET_ENTRIES; lia]. Qed.
Lemma demo_set_ok : set_ok false demo_set.
Proof.
  constructor; [| |done|cbn; unfold MAX_ENDPOINT_CANDIDATES; lia].
  - repeat constructor; unfold is_u; cbn; lia.
  - unfold ascending, demo_set. repeat constructor.
Qed.

Lemma probe_budget_witness :
  ∃ ok st', charge_run demo_policy (FallbackState_new 4 1000) demo_probes = (ok, st') ∧
    ok = [mkProbe 1000 demo_old demo_set; mkProbe 1300 demo_old demo_set] ∧
    zlen (of_key (demo_old, demo_set) ok) ≤ 2 ∧ 0 ≤ global_tokens st' ≤ 4.
Proof.
  destruct (charge_run demo_policy (FallbackState_new 4 1000) demo_probes) as [ok st'] eqn:E.
  destruct (probe_budget demo_policy 10000 (FallbackState_new 4 1000) st' demo_probes ok demo_policy_ok
    ltac:(unfold MAX_PERSISTED_COOLDOWN_SECS; lia) demo_budget ltac:(repeat constructor; cbn; lia) E) as (_ & _ & Hk & _ & Ht & _).
  exists ok, st'. split; [reflexivity|]. split; [vm_compute in E; injection E as <- <-; reflexivity|]. split; [|exact Ht].
  apply (Hk (demo_old, demo_set)). vm_compute. congruence.
Defined.

Lemma charge_survives_restart_witness :
  ∃ st', precharge_fallback_state (FallbackState_new 4 1000) demo_policy 1000 demo_old demo_set = Some st' ∧
    parse_fallback_state (serialize_fallback_state (str "relay.example.org") 443 st') (str "relay.example.org") 443 4 false 2000
      = Some st'.
Proof.
  destruct (precharge_fallback_state (FallbackState_new 4 1000) demo_policy 1000 demo_old demo_set) as [st'|] eqn:E;
    [|vm_compute in E; discriminate E].
  exists st'. split; [reflexivity|].
  apply (charge_survives_restart false demo_policy (str "relay.example.org") 443 1000 2000 (FallbackState_new 4 1000) st'
    demo_old demo_set demo_policy_ok).
  - split_and!; [done|cbn; lia|by apply graphic_check|by apply (bool_decide_unpack (61 ∉ str "relay.example.org")); vm_compute].
  - unfold is_u. lia.
  - lia.
  - unfold MAX_PERSISTED_COOLDOWN_SECS. lia.
  - constructor; [split; [cbn; lia|unfold is_u; cbn; lia]|unfold saturating_add; cbn; lia|apply NoDup_nil_2|constructor|cbn; unfold MAX_BUDGET_ENTRIES; lia].
  - repeat constructor; unfold is_u; cbn; lia.
  - reflexivity.
  - exact demo_set_ok.
  - exact E.
Defined.
