(* ===== verification/EndpointCache.v ===== *)
(** The endpoint cache file ([src/src/endpoint.rs]: [load_cache_entry],
    [save_cache_with_policy]) and host names ([validate_hostname]). *)
From stdpp Require Import strings.
From S2P Require Import Prelude Text EndpointState.

(** * Host names *)
Definition DOT : Z := 46.
Definition is_alpha (c : Z) : bool := in_range 65 90 c || in_range 97 122 c.
Definition valid_label (l : list Z) : bool :=
  negb (bool_decide (l = []) || (63 <? zlen l)) &&
  forallb (λ c, is_alpha c || is_digit c || (c =? 45)) l &&
  negb (bool_decide (head l = Some 45) || bool_decide (last l = Some 45)).
Definition validate_hostname (name : list Z) : bool :=
  let n := strip_last DOT name in
  if bool_decide (n = []) || (253 <? zlen n) then false else
  let labels := split_on DOT n in
  if negb (forallb valid_label labels) then false else
  negb (match last labels with Some l => forallb is_digit l | None => false end).

Definition ascii_lower (c : Z) : Z := if in_range 65 90 c then c + 32 else c.
(** [host.trim_end_matches('.')] *)
Fixpoint trim_dots (l : list Z) : list Z :=
  match l with
  | [] => []
  | c :: l => let r := trim_dots l in if (c =? DOT) && bool_decide (r = []) then [] else c :: r
  end.
Definition canonical_host (host : list Z) : list Z := ascii_lower <$> trim_dots host.

(** * The file *)
Record CacheEntry := mkCacheEntry { ce_addr : Ipv4Addr; ce_saved : option Z }.
Definition CACHE_HEADER : list Z := str "# udp2raw endpoint cache: the last address whose handshake succeeded".

(** [load_cache_entry] on the bytes of an existing file: [None] is an error,
    [Some None] an entry of another endpoint. *)
Definition parse_cache_entry (bytes : list Z) (host : list Z) (port : Z) (allow_private : bool)
    : option (option CacheEntry) :=
  if negb (utf8_valid bytes) then None else
  let text := strip_last NL bytes in
  if contains 13 text || bool_decide (text = []) then None else
  let lines := split_on NL text in
  let lines := if bool_decide (head lines = Some CACHE_HEADER) then tail lines else lines in
  match lines with
  | l0 :: l1 :: l2 :: rest =>
      if (1 <? length rest)%nat then None else
      h ← strict_field l0 (str "host");
      p ← strict_field l1 (str "port");
      a ← strict_field l2 (str "addr");
      if negb (bool_decide (h = host)) || negb (validate_hostname h) then Some None else
      parsed_port ← parse_uint 16 p;
      if negb (bool_decide (dec_string parsed_port = p)) || negb (parsed_port =? port) then Some None else
      addr ← parse_ipv4 a;
      if negb (bool_decide (ipv4_string addr = a)) then None else
      if negb (check_endpoint_ip addr allow_private) then None else
      match rest with
      | [] => Some (Some (mkCacheEntry addr None))
      | l3 :: _ =>
          value ← strict_field l3 (str "saved");
          saved ← parse_uint 64 value;
          if negb (bool_decide (dec_string saved = value)) then None else
          Some (Some (mkCacheEntry addr (Some saved)))
      end
  | _ => None
  end.

Definition cache_lines (host : list Z) (port : Z) (addr : Ipv4Addr) (saved : Z) : list (list Z) :=
  [CACHE_HEADER; line "host" host; line "port" (dec_string port); line "addr" (ipv4_string addr);
   line "saved" (dec_string saved)].
(** The text [save_cache_with_policy] writes, when its arguments are canonical. *)
Definition cache_text (host : list Z) (port : Z) (addr : Ipv4Addr) (saved : Z) (allow_private : bool) : option (list Z) :=
  if negb (validate_hostname host) then None else
  if negb (bool_decide (host = canonical_host host)) then None else
  if port =? 0 then None else
  if negb (check_endpoint_ip addr allow_private) then None else
  Some (join NL (cache_lines host port addr saved) ++ [NL]).

(** * What is saved is read back *)
Lemma validate_chars host : host = canonical_host host → validate_hostname host = true →
  host_chars host ∧ Forall line_char host.
Proof.
  intros Hc Hv. unfold validate_hostname in Hv. destruct (_ || _) eqn:E1; [done|].
  destruct (negb (forallb _ _)) eqn:E2; [done|]. apply orb_false_iff in E1 as [En El].
  apply bool_decide_eq_false in En. apply negb_false_iff in E2.
  assert (∀ c, c ∈ strip_last DOT host → graphic c ∧ c ≠ 61) as Hg.
  { assert (∀ l c, c ∈ l → c = DOT ∨ ∃ x, x ∈ split_on DOT l ∧ c ∈ x) as Hsplit.
    { induction l as [|d l IH]; intros c Hin; [by apply elem_of_nil in Hin|]. cbn [split_on].
      apply elem_of_cons in Hin as [->|Hin].
      - destruct (Z.eqb_spec d DOT); [by left|]. right. destruct (split_on DOT l) as [|h t]; eexists; (split; [by left|by left]).
      - destruct (IH c Hin) as [->|(x & Hx & Hcx)]; [by left|]. right. destruct (Z.eqb_spec d DOT).
        + exists x. split; [by right|done].
        + destruct (split_on DOT l) as [|h t]; [by apply elem_of_nil in Hx|].
          apply elem_of_cons in Hx as [->|Hx]; [exists (d :: h); split; [by left|by right]|exists x; split; [by right|done]]. }
    intros c Hin. destruct (Hsplit _ c Hin) as [->|(x & Hx & Hcx)]; [unfold graphic, DOT; lia|].
    rewrite forallb_forall in E2. apply list_elem_of_In in Hx. specialize (E2 x Hx). unfold valid_label in E2.
    apply andb_true_iff in E2 as [[_ E2]%andb_true_iff _]. rewrite forallb_forall in E2.
    apply list_elem_of_In in Hcx. specialize (E2 c Hcx). cbn beta in E2. unfold is_alpha, is_digit, in_range in E2. unfold graphic. lia. }
  assert (strip_last DOT host = host) as Hs.
  { unfold strip_last in *. case_bool_decide as Hl; [|done]. exfalso.
    destruct host as [|c host _] using rev_ind; [done|]. rewrite last_snoc in Hl. injection Hl as ->.
    assert (∀ l, canonical_host (l ++ [DOT]) = canonical_host l) as Ht.
    { intros l. unfold canonical_host. f_equal. induction l as [|d l IH]; [done|]. cbn. by rewrite IH. }
    rewrite Ht in Hc. apply (f_equal length) in Hc. unfold canonical_host in Hc. rewrite length_app, length_fmap in Hc.
    assert (∀ l, length (trim_dots l) ≤ length l)%nat as Hle.
    { induction l as [|d l IH]; cbn [trim_dots length]; [lia|]. destruct (_ && _); cbn [length]; lia. }
    specialize (Hle host). cbn in Hc. lia. }
  rewrite Hs in *. split; [split_and!|].
  - done.
  - lia.
  - apply Forall_forall. intros c Hin. by apply Hg.
  - intros Hin. by destruct (Hg _ Hin).
  - apply Forall_forall. intros c Hin. destruct (Hg c Hin). unfold graphic, line_char in *. lia.
Qed.

Lemma cache_roundtrip host port addr saved ap text : is_u 16 port → v4_ok addr → is_u 64 saved →
  cache_text host port addr saved ap = Some text →
  parse_cache_entry text host port ap = Some (Some (mkCacheEntry addr (Some saved))).
Proof.
  intros Hp Ha Hsv E. unfold cache_text in E. destruct (validate_hostname host) eqn:Ev; [|done]. cbn [negb] in E.
  destruct (bool_decide _) eqn:Ec; [|done]. cbn [negb] in E. destruct (Z.eqb_spec port 0); [done|].
  destruct (check_endpoint_ip addr ap) eqn:Eck; [|done]. cbn [negb] in E.
  assert (text = join NL (cache_lines host port addr saved) ++ [NL]) as -> by congruence. clear E.
  apply bool_decide_eq_true in Ec. destruct (validate_chars host Ec Ev) as [(Hh0 & _ & Hhg & Hhe) Hhl].
  assert (∀ z, is_u 64 z → dec_string z ≠ [] ∧ Forall graphic (dec_string z) ∧ 61 ∉ dec_string z) as Hd.
  { intros z Hz. split_and!; [by apply dec_string_nonempty| |by apply dec_no_char].
    eapply Forall_impl; [by apply dec_string_digits|apply graphic_digit]. }
  destruct (Hd port) as (?&Hpg&?); [by apply (is_u_mono 16); [lia|]|]. destruct (Hd saved) as (?&Hsg&?); [done|].
  assert (Forall graphic (ipv4_string addr)) as Hig.
  { eapply Forall_impl; [by apply ip_chars|]. intros c [?%graphic_digit| ->]; [done|unfold graphic; lia]. }
  assert (∀ s v, Forall graphic (str s) → Forall graphic v → Forall line_char (line s v)) as Hln.
  { intros s v ? ?. eapply Forall_impl; [by apply line_chars|]. unfold graphic, line_char. lia. }
  assert (Forall (Forall line_char) (cache_lines host port addr saved)) as Hc.
  { unfold cache_lines. apply Forall_cons_2; [by apply line_check|].
    repeat (apply Forall_cons_2; [apply Hln; [by apply graphic_check|done]|]). apply Forall_nil_2. }
  assert (∀ c, c ∈ join NL (cache_lines host port addr saved) → c = NL ∨ line_char c) as Hj.
  { intros c [->|(x & Hx & Hcx)]%elem_of_join; [by left|right].
    exact (proj1 (Forall_forall _ _) (proj1 (Forall_forall _ _) Hc x Hx) c Hcx). }
  unfold parse_cache_entry. rewrite utf8_ascii.
  2:{ apply Forall_app_2; [|repeat constructor; unfold NL; lia]. apply Forall_forall. intros c [->|H']%Hj; unfold NL, line_char in *; lia. }
  cbn [negb]. rewrite strip_last_app. unfold contains. rewrite bool_decide_false.
  2:{ intros [E|H']%Hj; unfold NL, line_char in *; lia. }
  rewrite bool_decide_false by done. cbn [orb]. rewrite split_join; [|done|].
  2:{ eapply Forall_impl; [exact Hc|]. intros x Hx. eapply not_in_chars; [exact Hx|]. unfold line_char, NL. lia. }
  unfold cache_lines. cbn [head tail]. rewrite bool_decide_true by done. cbn [length Nat.ltb Nat.leb]. unfold line.
  rewrite (strict_field_ok (str "host")) by done. cbn [mbind option_bind].
  rewrite (strict_field_ok (str "port")) by done. cbn [mbind option_bind].
  rewrite (strict_field_ok (str "addr")); [|by intros E%(f_equal parse_ipv4); rewrite parse_ipv4_string in E by done|done|].
  2:{ eapply not_in_chars; [by apply ip_chars|]. cbn. unfold is_digit. lia. }
  cbn [mbind option_bind]. rewrite bool_decide_true, Ev by done. cbn [negb orb].
  rewrite parse_dec; [|lia|done]. cbn [mbind option_bind]. rewrite bool_decide_true, Z.eqb_refl by done. cbn [negb orb].
  rewrite parse_ipv4_string by done. cbn [mbind option_bind]. rewrite bool_decide_true, Eck by done. cbn [negb].
  rewrite (strict_field_ok (str "saved")) by done. cbn [mbind option_bind].
  rewrite parse_dec; [|lia|done]. cbn [mbind option_bind]. by rewrite bool_decide_true.
Qed.
