(* ===== verification/World.v ===== *)
(** The environment of the I/O thread: clock, randomness, kernel answers and the
    effects it observes ([src/src/util.rs], [src/src/net/mod.rs], [src/src/net/raw.rs]).

    A handler is a function in [Io]: it reads the next values of the streams below,
    appends what it hands to the kernel to the trace, and returns or panics. *)
From S2P Require Import Prelude Util Text Ip.

(** [libc::sockaddr_ll] *)
Record SockaddrLl := mkSockaddrLl {
  sll_family : Z; sll_protocol : Z; sll_ifindex : Z; sll_hatype : Z; sll_pkttype : Z;
  sll_halen : Z; sll_addr : list Z }.
Definition sockaddr_ll_zeroed : SockaddrLl := mkSockaddrLl 0 0 0 0 0 0 (replicate 8 0).

(** [make_sockaddr_ll]: [AF_PACKET], the interface, a 6-byte address and
    [ETH_P_IP] in network byte order. *)
Definition make_sockaddr_ll (ifindex : Z) (dest_mac : list Z) : outcome SockaddrLl :=
  a ← put (replicate 8 0) 0 dest_mac;
  Done (mkSockaddrLl 17 (from_le (to_be 2 0x0800)) ifindex 0 0 6 a).
Definition reply_sockaddr_ll (recv : SockaddrLl) : SockaddrLl :=
  mkSockaddrLl (sll_family recv) (sll_protocol recv) (sll_ifindex recv) 0 0
    (sll_halen recv) (sll_addr recv).

Definition SocketAddr : Type := IpAddr * Z.

Inductive TxDst :=
| TxIp (ip : IpAddr)
| TxSock (a : SocketAddr)
| TxL2 (ll : SockaddrLl).

Record TxPacket := mkTxPacket { tx_buf : list Z; tx_off : Z; tx_dst : TxDst }.

(** The kernel's answer to [sendmmsg]/[sendto]. *)
Inductive SendRes :=
| Sent (n : Z)
| WouldBlock
| Refused
| Eintr.

(** The client's state files; their paths only tell them apart. *)
Inductive StateFile := CacheFile | BudgetFile.

(** What a netlink request came to: the replies, or an error and its number if it has one. *)
Inductive NlResult := NlOk (replies : list (list Z)) | NlErr (errno : option Z).

(** Effects, in order. *)
Inductive Event :=
| EvTx (p : TxPacket)              (** accepted by the kernel *)
| EvUdp (fd : Z) (data : list Z)   (** [send] on a connected UDP socket *)
| EvOpen (fd : Z)                  (** socket created and registered *)
| EvClose (fd : Z)                 (** deregistered and closed *)
| EvWrite (file : StateFile) (contents : list Z) (** a state file replaced *)
| EvCmd (cmd : list Z) (ok : bool) (out : list Z) (** a shell command, its status and output *)
| EvNl (msg : list Z) (r : NlResult). (** a netlink request and what it came to *)

(** A resolver's answer; what it only logs is left out. *)
Record DnsAnswer := mkDnsAnswer { dns_addrs : list (list Z); dns_ttl : Z }.
(** The answer of the file system to one locked, read or written file. *)
Record FileIo := mkFileIo { fio_ok : bool; fio_contents : option (list Z) }.

(** One netlink exchange: the process id, the failures of opening the socket and of sending,
    the datagrams [recv] returns and the error it then fails with. *)
Record NlIo := mkNlIo {
  nl_pid : Z; nl_open : option Z; nl_send : option Z; nl_recv : list (list Z); nl_last : Z }.

(** The answer of the system to one call about its network configuration: a shell command's
    status and output; a netlink exchange; the index of an interface; the text of a file below
    [/proc/net]; whether an interface uses ARP; the local address towards a peer of a family;
    a socket bound to a port; the success of a socket option.  A call reads its part. *)
Record NetIo := mkNetIo {
  nio_cmd : bool * list Z;
  nio_nl : NlIo;
  nio_index : option Z;
  nio_proc : option (list Z);
  nio_arp : option bool;
  nio_src : bool → option IpAddr;
  nio_fd : option Z;
  nio_ok : bool }.

(** What else the program asks the system for: the wall clock in seconds, the resolver, the
    files that keep its endpoint state, and the kernel's network configuration; and which
    worker threads the scheduler runs before the I/O thread goes on. *)
Record Host := mkHost {
  h_unix : nat → Z;
  h_unix_pos : nat;
  h_dns : nat → option DnsAnswer;
  h_dns_pos : nat;
  h_files : nat → FileIo;
  h_file_pos : nat;
  h_net : nat → NetIo;
  h_net_pos : nat;
  h_sched : nat → list nat;
  h_sched_pos : nat }.
Definition set_h_unix (v : nat → Z) (r : Host) : Host :=
  mkHost v (h_unix_pos r) (h_dns r) (h_dns_pos r) (h_files r) (h_file_pos r) (h_net r) (h_net_pos r) (h_sched r) (h_sched_pos r).
Definition set_h_unix_pos (v : nat) (r : Host) : Host :=
  mkHost (h_unix r) v (h_dns r) (h_dns_pos r) (h_files r) (h_file_pos r) (h_net r) (h_net_pos r) (h_sched r) (h_sched_pos r).
Definition set_h_dns (v : nat → option DnsAnswer) (r : Host) : Host :=
  mkHost (h_unix r) (h_unix_pos r) v (h_dns_pos r) (h_files r) (h_file_pos r) (h_net r) (h_net_pos r) (h_sched r) (h_sched_pos r).
Definition set_h_dns_pos (v : nat) (r : Host) : Host :=
  mkHost (h_unix r) (h_unix_pos r) (h_dns r) v (h_files r) (h_file_pos r) (h_net r) (h_net_pos r) (h_sched r) (h_sched_pos r).
Definition set_h_files (v : nat → FileIo) (r : Host) : Host :=
  mkHost (h_unix r) (h_unix_pos r) (h_dns r) (h_dns_pos r) v (h_file_pos r) (h_net r) (h_net_pos r) (h_sched r) (h_sched_pos r).
Definition set_h_file_pos (v : nat) (r : Host) : Host :=
  mkHost (h_unix r) (h_unix_pos r) (h_dns r) (h_dns_pos r) (h_files r) v (h_net r) (h_net_pos r) (h_sched r) (h_sched_pos r).
Definition set_h_net (v : nat → NetIo) (r : Host) : Host :=
  mkHost (h_unix r) (h_unix_pos r) (h_dns r) (h_dns_pos r) (h_files r) (h_file_pos r) v (h_net_pos r) (h_sched r) (h_sched_pos r).
Definition set_h_net_pos (v : nat) (r : Host) : Host :=
  mkHost (h_unix r) (h_unix_pos r) (h_dns r) (h_dns_pos r) (h_files r) (h_file_pos r) (h_net r) v (h_sched r) (h_sched_pos r).
Definition set_h_sched (v : nat → list nat) (r : Host) : Host :=
  mkHost (h_unix r) (h_unix_pos r) (h_dns r) (h_dns_pos r) (h_files r) (h_file_pos r) (h_net r) (h_net_pos r) v (h_sched_pos r).
Definition set_h_sched_pos (v : nat) (r : Host) : Host :=
  mkHost (h_unix r) (h_unix_pos r) (h_dns r) (h_dns_pos r) (h_files r) (h_file_pos r) (h_net r) (h_net_pos r) (h_sched r) v.

Record World := mkWorld {
  w_clock : nat → Z;
  w_clock_pos : nat;
  w_urandom : nat → Z;
  w_urandom_pos : nat;
  w_fast : Xoshiro256;
  w_nonces : nat → list Z;
  w_nonce_pos : nat;
  w_sends : nat → Z → SendRes;
  w_send_pos : nat;
  w_socks : nat → option Z;
  w_sock_pos : nat;
  w_regs : nat → bool;
  w_reg_pos : nat;
  w_single : bool;
  w_host : Host;
  w_trace : list Event }.
Definition set_w_clock (v : nat → Z) (r : World) : World :=
  mkWorld v (w_clock_pos r) (w_urandom r) (w_urandom_pos r) (w_fast r) (w_nonces r)
    (w_nonce_pos r) (w_sends r) (w_send_pos r) (w_socks r) (w_sock_pos r) (w_regs r)
    (w_reg_pos r) (w_single r) (w_host r) (w_trace r).
Definition set_w_clock_pos (v : nat) (r : World) : World :=
  mkWorld (w_clock r) v (w_urandom r) (w_urandom_pos r) (w_fast r) (w_nonces r) (w_nonce_pos r)
    (w_sends r) (w_send_pos r) (w_socks r) (w_sock_pos r) (w_regs r) (w_reg_pos r) (w_single r)
    (w_host r) (w_trace r).
Definition set_w_urandom (v : nat → Z) (r : World) : World :=
  mkWorld (w_clock r) (w_clock_pos r) v (w_urandom_pos r) (w_fast r) (w_nonces r)
    (w_nonce_pos r) (w_sends r) (w_send_pos r) (w_socks r) (w_sock_pos r) (w_regs r)
    (w_reg_pos r) (w_single r) (w_host r) (w_trace r).
Definition set_w_urandom_pos (v : nat) (r : World) : World :=
  mkWorld (w_clock r) (w_clock_pos r) (w_urandom r) v (w_fast r) (w_nonces r) (w_nonce_pos r)
    (w_sends r) (w_send_pos r) (w_socks r) (w_sock_pos r) (w_regs r) (w_reg_pos r) (w_single r)
    (w_host r) (w_trace r).
Definition set_w_fast (v : Xoshiro256) (r : World) : World :=
  mkWorld (w_clock r) (w_clock_pos r) (w_urandom r) (w_urandom_pos r) v (w_nonces r)
    (w_nonce_pos r) (w_sends r) (w_send_pos r) (w_socks r) (w_sock_pos r) (w_regs r)
    (w_reg_pos r) (w_single r) (w_host r) (w_trace r).
Definition set_w_nonces (v : nat → list Z) (r : World) : World :=
  mkWorld (w_clock r) (w_clock_pos r) (w_urandom r) (w_urandom_pos r) (w_fast r) v
    (w_nonce_pos r) (w_sends r) (w_send_pos r) (w_socks r) (w_sock_pos r) (w_regs r)
    (w_reg_pos r) (w_single r) (w_host r) (w_trace r).
Definition set_w_nonce_pos (v : nat) (r : World) : World :=
  mkWorld (w_clock r) (w_clock_pos r) (w_urandom r) (w_urandom_pos r) (w_fast r) (w_nonces r) v
    (w_sends r) (w_send_pos r) (w_socks r) (w_sock_pos r) (w_regs r) (w_reg_pos r) (w_single r)
    (w_host r) (w_trace r).
Definition set_w_sends (v : nat → Z → SendRes) (r : World) : World :=
  mkWorld (w_clock r) (w_clock_pos r) (w_urandom r) (w_urandom_pos r) (w_fast r) (w_nonces r)
    (w_nonce_pos r) v (w_send_pos r) (w_socks r) (w_sock_pos r) (w_regs r) (w_reg_pos r)
    (w_single r) (w_host r) (w_trace r).
Definition set_w_send_pos (v : nat) (r : World) : World :=
  mkWorld (w_clock r) (w_clock_pos r) (w_urandom r) (w_urandom_pos r) (w_fast r) (w_nonces r)
    (w_nonce_pos r) (w_sends r) v (w_socks r) (w_sock_pos r) (w_regs r) (w_reg_pos r)
    (w_single r) (w_host r) (w_trace r).
Definition set_w_socks (v : nat → option Z) (r : World) : World :=
  mkWorld (w_clock r) (w_clock_pos r) (w_urandom r) (w_urandom_pos r) (w_fast r) (w_nonces r)
    (w_nonce_pos r) (w_sends r) (w_send_pos r) v (w_sock_pos r) (w_regs r) (w_reg_pos r)
    (w_single r) (w_host r) (w_trace r).
Definition set_w_sock_pos (v : nat) (r : World) : World :=
  mkWorld (w_clock r) (w_clock_pos r) (w_urandom r) (w_urandom_pos r) (w_fast r) (w_nonces r)
    (w_nonce_pos r) (w_sends r) (w_send_pos r) (w_socks r) v (w_regs r) (w_reg_pos r)
    (w_single r) (w_host r) (w_trace r).
Definition set_w_regs (v : nat → bool) (r : World) : World :=
  mkWorld (w_clock r) (w_clock_pos r) (w_urandom r) (w_urandom_pos r) (w_fast r) (w_nonces r)
    (w_nonce_pos r) (w_sends r) (w_send_pos r) (w_socks r) (w_sock_pos r) v (w_reg_pos r)
    (w_single r) (w_host r) (w_trace r).
Definition set_w_reg_pos (v : nat) (r : World) : World :=
  mkWorld (w_clock r) (w_clock_pos r) (w_urandom r) (w_urandom_pos r) (w_fast r) (w_nonces r)
    (w_nonce_pos r) (w_sends r) (w_send_pos r) (w_socks r) (w_sock_pos r) (w_regs r) v
    (w_single r) (w_host r) (w_trace r).
Definition set_w_single (v : bool) (r : World) : World :=
  mkWorld (w_clock r) (w_clock_pos r) (w_urandom r) (w_urandom_pos r) (w_fast r) (w_nonces r)
    (w_nonce_pos r) (w_sends r) (w_send_pos r) (w_socks r) (w_sock_pos r) (w_regs r)
    (w_reg_pos r) v (w_host r) (w_trace r).
Definition set_w_host (v : Host) (r : World) : World :=
  mkWorld (w_clock r) (w_clock_pos r) (w_urandom r) (w_urandom_pos r) (w_fast r) (w_nonces r)
    (w_nonce_pos r) (w_sends r) (w_send_pos r) (w_socks r) (w_sock_pos r) (w_regs r)
    (w_reg_pos r) (w_single r) v (w_trace r).
Definition set_w_trace (v : list Event) (r : World) : World :=
  mkWorld (w_clock r) (w_clock_pos r) (w_urandom r) (w_urandom_pos r) (w_fast r) (w_nonces r)
    (w_nonce_pos r) (w_sends r) (w_send_pos r) (w_socks r) (w_sock_pos r) (w_regs r)
    (w_reg_pos r) (w_single r) (w_host r) v.

(** * The monad *)
Definition Io (A : Type) : Type := World → outcome (A * World).
#[export] Instance io_ret : MRet Io := λ A a w, Done (a, w).
#[export] Instance io_bind : MBind Io := λ A B f m w,
  match m w with Done (a, w') => f a w' | Panic => Panic end.
Definition lift {A} (o : outcome A) : Io A := λ w,
  match o with Done a => Done (a, w) | Panic => Panic end.
Definition panic {A} : Io A := λ _, Panic.

Definition now_ms : Io Z := λ w, Done (w_clock w (w_clock_pos w), set_w_clock_pos (S (w_clock_pos w)) w).
Definition secure_random_bytes (n : nat) : Io (list Z) := λ w,
  Done ((λ i, w_urandom w (w_urandom_pos w + i)%nat) <$> seq 0 n,
        set_w_urandom_pos (w_urandom_pos w + n)%nat w).
Definition secure_random_u32 : Io Z := b ← secure_random_bytes 4; mret (from_le b).
Definition secure_random_u64 : Io Z := b ← secure_random_bytes 8; mret (from_le b).

(** The loop ends at the first non-zero value; [fuel] values in a row that are all
    zero are reported as a run that does not return. *)
Fixpoint random_nz_loop (fuel : nat) : Io Z :=
  match fuel with
  | O => panic
  | S fuel => v ← secure_random_u32; if v =? 0 then random_nz_loop fuel else mret v
  end.
Definition NZ_FUEL : nat := 64.
Definition secure_random_u32_nz : Io Z := random_nz_loop NZ_FUEL.

Definition fast_random_u32 : Io Z := λ w,
  let '(v, g) := Xoshiro_next_u32 (w_fast w) in Done (v, set_w_fast g w).
(** The nonce [Crypto.random_nonce] returns to the I/O thread. *)
Definition next_nonce : Io (list Z) := λ w,
  Done (w_nonces w (w_nonce_pos w), set_w_nonce_pos (S (w_nonce_pos w)) w).
(** The answer to a call that offers [asked] packets. *)
Definition next_send (asked : Z) : Io SendRes := λ w,
  Done (w_sends w (w_send_pos w) asked, set_w_send_pos (S (w_send_pos w)) w).
(** The descriptor of a new connected UDP socket, if the kernel grants it. *)
Definition next_sock : Io (option Z) := λ w,
  Done (w_socks w (w_sock_pos w), set_w_sock_pos (S (w_sock_pos w)) w).
(** Whether the registration of a descriptor with the poller succeeds. *)
Definition next_reg : Io bool := λ w,
  Done (w_regs w (w_reg_pos w), set_w_reg_pos (S (w_reg_pos w)) w).
(** The answer to one call about the network configuration. *)
Definition next_net : Io NetIo := λ w,
  Done (h_net (w_host w) (h_net_pos (w_host w)),
        set_w_host (set_h_net_pos (S (h_net_pos (w_host w))) (w_host w)) w).
(** The worker threads that run before the I/O thread's next operation on its channels, in
    order, one step each. *)
Definition next_sched : Io (list nat) := λ w,
  Done (h_sched (w_host w) (h_sched_pos (w_host w)),
        set_w_host (set_h_sched_pos (S (h_sched_pos (w_host w))) (w_host w)) w).
(** The nonces a worker thread draws, at most [n] of them. *)
Definition next_nonces (n : nat) : Io (nat → list Z) := λ w,
  Done (λ k, w_nonces w (w_nonce_pos w + k)%nat, set_w_nonce_pos (w_nonce_pos w + n)%nat w).
Definition single_syscalls : Io bool := λ w, Done (w_single w, w).
Definition emit (e : Event) : Io unit := λ w, Done (tt, set_w_trace (w_trace w ++ [e]) w).
Fixpoint emit_all (es : list Event) : Io unit :=
  match es with [] => mret tt | e :: es => emit e;; emit_all es end.

(** * [send_batch] *)
Definition SEND_CHUNK : Z := 64.

(** An interrupted call is repeated with the same arguments; [fuel] interruptions in a row are
    reported as a run that does not return. *)
Fixpoint send_retry (fuel : nat) (asked : Z) : Io SendRes :=
  match fuel with
  | O => panic
  | S fuel => r ← next_send asked; match r with Eintr => send_retry fuel asked | _ => mret r end
  end.
Definition EINTR_FUEL : nat := 64.

(** [while done < n]; running out of [fuel] is a run that does not return. *)
Fixpoint sendmmsg_loop (fuel : nat) (chunk : list TxPacket) (done accepted : Z) : Io Z :=
  if done <? zlen chunk then
    match fuel with
    | O => panic
    | S fuel =>
        r ← send_retry EINTR_FUEL (zlen chunk - done);
        match r with
        | Sent r =>
            sent ← lift (slice chunk done (done + r));
            emit_all (EvTx <$> sent);;
            sendmmsg_loop fuel chunk (done + r) (accepted + r)
        | WouldBlock => mret accepted
        | _ => sendmmsg_loop fuel chunk (done + 1) accepted
        end
    end
  else mret accepted.

(** [pkts.chunks(SEND_CHUNK)] *)
Fixpoint chunks (fuel : nat) (l : list TxPacket) : list (list TxPacket) :=
  match fuel, l with
  | S fuel, _ :: _ => take (Z.to_nat SEND_CHUNK) l :: chunks fuel (drop (Z.to_nat SEND_CHUNK) l)
  | _, _ => []
  end.
Fixpoint send_chunks (cs : list (list TxPacket)) (accepted : Z) : Io Z :=
  match cs with
  | [] => mret accepted
  | c :: cs => a ← sendmmsg_loop (length c) c 0 accepted; send_chunks cs a
  end.

Fixpoint send_single (pkts : list TxPacket) (accepted : Z) : Io Z :=
  match pkts with
  | [] => mret accepted
  | p :: pkts =>
      r ← send_retry EINTR_FUEL 1;
      match r with
      | Sent _ => emit (EvTx p);; send_single pkts (accepted + 1)
      | WouldBlock => mret accepted
      | _ => send_single pkts accepted
      end
  end.

Definition send_batch (pkts : list TxPacket) : Io Z :=
  single ← single_syscalls;
  if (single : bool) then send_single pkts 0 else send_chunks (chunks (length pkts) pkts) 0.

(** * Runs and the environment's contract *)

(** [runs m w Q]: from [w] the computation returns, in a state satisfying [Q]. *)
Definition runs {A} (m : Io A) (w : World) (Q : A → World → Prop) : Prop :=
  ∃ a w', m w = Done (a, w') ∧ Q a w'.

Lemma runs_ret {A} (a : A) w (Q : A → World → Prop) : Q a w → runs (mret a) w Q.
Proof. intros. by exists a, w. Qed.
Lemma runs_bind {A B} (m : Io A) (f : A → Io B) w Q :
  runs m w (λ a w', runs (f a) w' Q) → runs (m ≫= f) w Q.
Proof.
  intros (a & w' & E & b & w'' & E' & HQ). exists b, w''. split; [|done].
  unfold mbind, io_bind. by rewrite E.
Qed.
Lemma runs_mono {A} (m : Io A) w (P Q : A → World → Prop) :
  runs m w P → (∀ a w', P a w' → Q a w') → runs m w Q.
Proof. intros (a & w' & E & HP) H. exists a, w'. auto. Qed.
Lemma runs_and {A} (m : Io A) w (P Q : A → World → Prop) :
  runs m w P → runs m w Q → runs m w (λ a w', P a w' ∧ Q a w').
Proof. intros (a & w' & E & HP) (b & w'' & E' & HQ). rewrite E in E'. injection E' as <- <-. by exists a, w'. Qed.
Lemma io_bind_inv {A B} (m : Io A) (f : A → Io B) w b w' :
  (m ≫= f) w = Done (b, w') → ∃ a w1, m w = Done (a, w1) ∧ f a w1 = Done (b, w').
Proof. unfold mbind, io_bind. destruct (m w) as [[a w1]|]; [eauto|discriminate]. Qed.
Lemma runs_lift {A} (o : outcome A) a w Q : o = Done a → Q a w → runs (lift o) w Q.
Proof. intros -> HQ. by exists a, w. Qed.

Definition word_at (w : World) (i : nat) : Z :=
  from_le ((λ k, w_urandom w (i + k)%nat) <$> seq 0 4).

(** Draws in which a number is found that is not among at most 10000 used ones. *)
Definition FRESH_FUEL : nat := Z.to_nat 16384.

(** Datagrams are bytes, and the failures of the socket itself are not a request's [ENOENT]
    and [ESRCH]. *)
Definition nl_ok (n : NlIo) : Prop :=
  Forall bytes (nl_recv n) ∧
  ∀ e, nl_open n = Some e ∨ nl_send n = Some e ∨ nl_last n = e → e ≠ 2 ∧ e ≠ 3.

(** What the code relies on: a monotone clock, random bytes that are not zero
    forever, a kernel that never reports more packets sent than it was offered, nor
    none, and does not interrupt a call for ever; 24-byte nonces; a wall clock that is more
    than a day from the end of its range, answers of the resolver and the kernel of the types'
    ranges (a local address of the family asked for), and random words that do not repeat a
    few thousand values for ever. *)
Record env_ok (w : World) : Prop := {
  eo_clock i : 0 ≤ w_clock w i ≤ w_clock w (S i);
  eo_clock_64 i : is_u 64 (w_clock w i);
  eo_urandom i : is_byte (w_urandom w i);
  eo_nz i : ∃ j, (j < NZ_FUEL)%nat ∧ word_at w (i + 4 * j) ≠ 0;
  eo_sends i asked n : w_sends w i asked = Sent n → 1 ≤ n ≤ asked;
  eo_nonces i : length (w_nonces w i) = 24%nat ∧ bytes (w_nonces w i);
  eo_fast : Xoshiro_ok (w_fast w);
  eo_unix i : 0 ≤ h_unix (w_host w) i < 2 ^ 64 - 86400;
  eo_dns i a : h_dns (w_host w) i = Some a → Forall v4_ok (dns_addrs a) ∧ is_u 32 (dns_ttl a);
  eo_nl i : nl_ok (nio_nl (h_net (w_host w) i));
  eo_src i v6 ip : nio_src (h_net (w_host w) i) v6 = Some ip → ip_ok ip ∧ is_ipv6 ip = v6;
  eo_fresh i (used : gset Z) : Z.of_nat (size used) ≤ 10000 →
    ∃ j, (j < FRESH_FUEL)%nat ∧ word_at w (i + 4 * j) ≠ 0 ∧ word_at w (i + 4 * j) ∉ used;
  eo_eintr i asked : ∃ j, (j < EINTR_FUEL)%nat ∧ w_sends w (i + j) asked ≠ Eintr }.

(** A later state of the same environment. *)
Record later (w w' : World) : Prop := {
  la_ok : env_ok w → env_ok w';
  la_clock : w_clock w' = w_clock w;
  la_pos : (w_clock_pos w ≤ w_clock_pos w')%nat;
  la_unix : h_unix (w_host w') = h_unix (w_host w);
  la_unix_pos : (h_unix_pos (w_host w) ≤ h_unix_pos (w_host w'))%nat }.
#[export] Instance later_preorder : PreOrder later.
Proof.
  split; [intros w; by split|]. intros w1 w2 w3 [H1 E1 L1 U1 V1] [H2 E2 L2 U2 V2].
  split; [auto|congruence|lia|congruence|lia].
Qed.

Lemma clock_mono w i j : env_ok w → (i ≤ j)%nat → w_clock w i ≤ w_clock w j.
Proof.
  intros Hw. induction 1 as [|j _ IH]; [lia|]. pose proof (eo_clock w Hw j). lia.
Qed.

(** The time of the next reading. *)
Definition time (w : World) : Z := w_clock w (w_clock_pos w).
Lemma later_time w w' : env_ok w → later w w' → time w ≤ time w'.
Proof. intros Hw [_ E L _ _]. unfold time. rewrite E. by apply clock_mono. Qed.

Lemma runs_now_ms w (Q : Z → World → Prop) :
  env_ok w → (∀ t w', t = time w → time w ≤ time w' → later w w' → w_trace w' = w_trace w → env_ok w' → Q t w') →
  runs now_ms w Q.
Proof.
  intros Hw HQ. eexists _, _. split; [reflexivity|].
  assert (env_ok (set_w_clock_pos (S (w_clock_pos w)) w)) as Hw' by (by destruct Hw).
  apply HQ; try done; [apply (eo_clock w Hw)|]. split; [done|done|simpl; lia|done|done].
Qed.

Lemma runs_secure_u32 w (Q : Z → World → Prop) :
  env_ok w → (∀ v w', v = word_at w (w_urandom_pos w) → is_u 32 v → later w w' → w_trace w' = w_trace w →
     w_urandom w' = w_urandom w → w_urandom_pos w' = (w_urandom_pos w + 4)%nat → env_ok w' → Q v w') →
  runs secure_random_u32 w Q.
Proof.
  intros Hw HQ. unfold secure_random_u32. apply runs_bind. eexists _, _. split; [reflexivity|].
  apply runs_ret. apply HQ; try done.
  - assert (bytes ((λ i, w_urandom w (w_urandom_pos w + i)%nat) <$> seq 0 4)) as Hb
      by (apply Forall_fmap, Forall_true; intros; apply Hw).
    pose proof (from_le_range _ Hb) as Hr. by rewrite length_fmap, length_seq in Hr.
  - split; [by destruct 1|done|simpl; lia|done|done].
  - by destruct Hw.
Qed.

Lemma runs_secure_u64 w (Q : Z → World → Prop) :
  env_ok w → (∀ v w', is_u 64 v → later w w' → w_trace w' = w_trace w → env_ok w' → Q v w') →
  runs secure_random_u64 w Q.
Proof.
  intros Hw HQ. unfold secure_random_u64. apply runs_bind. eexists _, _. split; [reflexivity|].
  apply runs_ret. apply HQ; try done.
  - assert (bytes ((λ i, w_urandom w (w_urandom_pos w + i)%nat) <$> seq 0 8)) as Hb
      by (apply Forall_fmap, Forall_true; intros; apply Hw).
    pose proof (from_le_range _ Hb) as Hr. by rewrite length_fmap, length_seq in Hr.
  - split; [by destruct 1|done|simpl; lia|done|done].
  - by destruct Hw.
Qed.

Lemma runs_random_nz fuel w (Q : Z → World → Prop) :
  env_ok w → (∃ j, (j < fuel)%nat ∧ word_at w (w_urandom_pos w + 4 * j) ≠ 0) →
  (∀ v w', v ≠ 0 → is_u 32 v → later w w' → w_trace w' = w_trace w → env_ok w' → Q v w') →
  runs (random_nz_loop fuel) w Q.
Proof.
  revert w Q. induction fuel as [|fuel IH]; intros w Q Hw (j & Hj & Hnz) HQ; [lia|].
  cbn [random_nz_loop]. apply runs_bind. apply runs_secure_u32; [done|].
  intros v w' Hv Hr Hl Ht Hu Hp Hw'. destruct (Z.eqb_spec v 0) as [->|Hne].
  - apply IH; [done| |].
    + destruct j as [|j]; [rewrite Nat.mul_0_r, Nat.add_0_r in Hnz; congruence|].
      exists j. split; [lia|]. rewrite Hp.
      replace (w_urandom_pos w + 4 + 4 * j)%nat with (w_urandom_pos w + 4 * S j)%nat by lia.
      unfold word_at in *. by rewrite Hu.
    + intros v' w'' ? ? ? ? ?. apply HQ; try done; [by transitivity w'|congruence].
  - apply runs_ret. by apply HQ.
Qed.
Lemma runs_secure_nz w (Q : Z → World → Prop) :
  env_ok w → (∀ v w', v ≠ 0 → is_u 32 v → later w w' → w_trace w' = w_trace w → env_ok w' → Q v w') →
  runs secure_random_u32_nz w Q.
Proof. intros Hw. apply runs_random_nz; [done|]. apply (eo_nz w Hw). Qed.

Lemma runs_fast w (Q : Z → World → Prop) :
  env_ok w → (∀ v w', is_u 32 v → later w w' → w_trace w' = w_trace w → env_ok w' → Q v w') →
  runs fast_random_u32 w Q.
Proof.
  intros Hw HQ. unfold fast_random_u32, runs. destruct (Xoshiro_next_u32 (w_fast w)) as [v g] eqn:E.
  unfold Xoshiro_next_u32 in E. destruct (Xoshiro_next_u64 (w_fast w)) as [r g'] eqn:E'. simplify_eq.
  destruct (Xoshiro_next_u64_ok _ _ _ (eo_fast w Hw) E') as [Hg Hr].
  assert (env_ok (set_w_fast g w)) as Hw' by (destruct Hw; by constructor).
  eexists _, _. split; [reflexivity|]. apply HQ; try done.
  - unfold is_u in *. rewrite shiftr_div by lia. split; [apply Z.div_pos; lia|]. apply Z.div_lt_upper_bound; lia.
Qed.

Lemma runs_emit_all es w (Q : unit → World → Prop) :
  env_ok w → (∀ w', later w w' → w_trace w' = w_trace w ++ es → env_ok w' → Q tt w') → runs (emit_all es) w Q.
Proof.
  revert w Q. induction es as [|e es IH]; intros w Q Hw HQ; cbn [emit_all].
  { apply runs_ret, HQ; [done|by rewrite app_nil_r|done]. }
  apply runs_bind. eexists _, _. split; [reflexivity|].
  assert (env_ok (set_w_trace (w_trace w ++ [e]) w)) as Hw' by (by destruct Hw).
  apply IH; [done|]. intros w' Hl Ht ?. apply HQ; [|by rewrite Ht; simpl; rewrite <-app_assoc|done].
  etransitivity; [|done]. by split; [destruct 1|..].
Qed.
Lemma runs_emit e w (Q : unit → World → Prop) :
  env_ok w → (∀ w', later w w' → w_trace w' = w_trace w ++ [e] → env_ok w' → Q tt w') → runs (emit e) w Q.
Proof.
  intros Hw HQ. eexists _, _. split; [reflexivity|]. apply HQ; [by split; [destruct 1|..]|done|by destruct Hw].
Qed.

Lemma runs_next_nonce w (Q : list Z → World → Prop) :
  env_ok w → (∀ n w', length n = 24%nat → bytes n → later w w' → w_trace w' = w_trace w → env_ok w' → Q n w') →
  runs next_nonce w Q.
Proof.
  intros Hw HQ. eexists _, _. split; [reflexivity|].
  apply HQ; [apply Hw|apply Hw|by split; [destruct 1|..]|done|by destruct Hw].
Qed.
Lemma runs_next_nonces k w (Q : (nat → list Z) → World → Prop) :
  env_ok w → (∀ f w', (∀ i, length (f i) = 24%nat ∧ bytes (f i)) → later w w' → w_trace w' = w_trace w → env_ok w' → Q f w') →
  runs (next_nonces k) w Q.
Proof.
  intros Hw HQ. eexists _, _. split; [reflexivity|].
  apply HQ; [intros i; apply Hw|by split; [destruct 1|..]|done|by destruct Hw].
Qed.
Lemma runs_next_sched w (Q : list nat → World → Prop) :
  env_ok w → (∀ l w', later w w' → w_trace w' = w_trace w → env_ok w' → Q l w') → runs next_sched w Q.
Proof.
  intros Hw HQ. eexists _, _. split; [reflexivity|]. apply HQ; [by split; [destruct 1|..]|done|by destruct Hw].
Qed.
Lemma runs_next_sock w (Q : option Z → World → Prop) :
  env_ok w → (∀ o w', later w w' → w_trace w' = w_trace w → env_ok w' → Q o w') → runs next_sock w Q.
Proof.
  intros Hw HQ. eexists _, _. split; [reflexivity|]. apply HQ; [by split; [destruct 1|..]|done|by destruct Hw].
Qed.

Lemma runs_next_net w (Q : NetIo → World → Prop) : env_ok w →
  (∀ r w', nl_ok (nio_nl r) → (∀ v6 ip, nio_src r v6 = Some ip → ip_ok ip ∧ is_ipv6 ip = v6) →
     later w w' → w_trace w' = w_trace w → env_ok w' → Q r w') → runs next_net w Q.
Proof.
  intros Hw HQ. eexists _, _. split; [reflexivity|].
  apply HQ; [apply Hw|apply Hw|by split; [destruct 1|..]|done|by destruct Hw].
Qed.

Lemma runs_next_reg w (Q : bool → World → Prop) :
  env_ok w → (∀ o w', later w w' → w_trace w' = w_trace w → env_ok w' → Q o w') → runs next_reg w Q.
Proof.
  intros Hw HQ. eexists _, _. split; [reflexivity|]. apply HQ; [by split; [destruct 1|..]|done|by destruct Hw].
Qed.

(** * What the kernel was offered and answered *)
(** The answers to a sequence of offers, from the next one on. *)
Definition offers (w : World) (asks : list Z) : list (Z * SendRes) := imap (λ i a, (a, w_sends w (w_send_pos w + i) a)) asks.
Lemma offers_app w w' a b : w_sends w' = w_sends w → w_send_pos w' = (w_send_pos w + length a)%nat →
  offers w (a ++ b) = offers w a ++ offers w' b.
Proof.
  intros Es Ep. unfold offers. rewrite imap_app. f_equal. rewrite Es, Ep. apply imap_ext. intros i x _. cbn. do 2 f_equal. lia.
Qed.
(** A chunk, the offers made for it with their answers, and what was sent of it: an
    interrupted offer is repeated, a refused one drops its first packet, a full buffer drops
    the rest of the chunk. *)
Inductive handed : list TxPacket → list (Z * SendRes) → list TxPacket → Prop :=
| handed_done : handed [] [] []
| handed_again l os s : handed l os s → l ≠ [] → handed l ((zlen l, Eintr) :: os) s
| handed_sent n l os s : 1 ≤ n ≤ zlen l → handed (drop (Z.to_nat n) l) os s → handed l ((zlen l, Sent n) :: os) (take (Z.to_nat n) l ++ s)
| handed_refused p l os s : handed l os s → handed (p :: l) ((zlen (p :: l), Refused) :: os) s
| handed_full l : l ≠ [] → handed l [(zlen l, WouldBlock)] [].
Definition blocked (os : list (Z * SendRes)) : bool := match last os with Some (_, WouldBlock) => true | _ => false end.
(** Chunk by chunk; [stop]: a full buffer also ends the chunks. *)
Inductive handed_all (stop : bool) : list (list TxPacket) → list (Z * SendRes) → list TxPacket → Prop :=
| handed_nil : handed_all stop [] [] []
| handed_next c cs os os' s s' : handed c os s → stop && blocked os = false → handed_all stop cs os' s' → handed_all stop (c :: cs) (os ++ os') (s ++ s')
| handed_stop c cs os s : handed c os s → stop && blocked os = true → handed_all stop (c :: cs) os s.

Lemma handed_sublist l os s : handed l os s → sublist s l.
Proof.
  induction 1 as [|l os s _ IH _|n l os s _ _ IH|p l os s _ IH|l _]; [done|done| |by constructor|apply sublist_nil_l].
  rewrite <-(take_drop (Z.to_nat n) l) at 2. by apply sublist_app.
Qed.
Lemma handed_all_sublist stop cs os s : handed_all stop cs os s → sublist s (mjoin cs).
Proof.
  induction 1 as [|c cs os os' s s' Hc _ _ IH|c cs os s Hc _]; [done| |]; unfold mjoin; cbn [list_join].
  - apply sublist_app; [by eapply handed_sublist|done].
  - apply sublist_inserts_r. by eapply handed_sublist.
Qed.
Lemma handed_agains k l os s : l ≠ [] → handed l os s → handed l (replicate k (zlen l, Eintr) ++ os) s.
Proof. intros Hl H. induction k as [|k IH]; [done|]. cbn. by apply handed_again. Qed.

(** The state after some offers: nothing else changed but the trace. *)
Record offered (w : World) (asks : list Z) (w' : World) : Prop := {
  of_later : later w w';
  of_env : env_ok w';
  of_sends : w_sends w' = w_sends w;
  of_pos : w_send_pos w' = (w_send_pos w + length asks)%nat }.
Lemma offered_trans w a w1 b w2 : offered w a w1 → offered w1 b w2 → offered w (a ++ b) w2.
Proof. intros [L1 E1 S1 P1] [L2 E2 S2 P2]. constructor; [by transitivity w1|done|congruence|rewrite length_app; lia]. Qed.
Lemma offered_offers w a w1 b w2 : offered w a w1 → offered w1 b w2 → offers w (a ++ b) = offers w a ++ offers w1 b.
Proof. intros [_ _ S1 P1] _. by apply offers_app. Qed.

Lemma runs_retry fuel asked w (Q : SendRes → World → Prop) : env_ok w →
  (∃ j, (j < fuel)%nat ∧ w_sends w (w_send_pos w + j) asked ≠ Eintr) →
  (∀ r k w', r ≠ Eintr → (∀ n, r = Sent n → 1 ≤ n ≤ asked) → offered w (replicate (S k) asked) w' →
     offers w (replicate (S k) asked) = replicate k (asked, Eintr) ++ [(asked, r)] → w_trace w' = w_trace w → Q r w') →
  runs (send_retry fuel asked) w Q.
Proof.
  revert w. induction fuel as [|fuel IH]; intros w Hw (j & Hj & Hne) HQ; [lia|]. cbn [send_retry]. apply runs_bind.
  set (w1 := set_w_send_pos (S (w_send_pos w)) w). assert (env_ok w1) as Hw1 by by destruct Hw.
  assert (offered w [asked] w1) as Ho by (constructor; [by split; [destruct 1|..]|done|done|cbn; lia]).
  assert (∀ n, w_sends w (w_send_pos w) asked = Sent n → 1 ≤ n ≤ asked) as Hr by apply Hw.
  assert (offers w [asked] = [(asked, w_sends w (w_send_pos w) asked)]) as Eo by (unfold offers; cbn; by rewrite Nat.add_0_r).
  eexists _, w1. split; [reflexivity|].
  destruct (w_sends w (w_send_pos w) asked) as [n| | |] eqn:Es.
  4:{ apply IH; [done| |].
      - destruct j as [|j]; [rewrite Nat.add_0_r in Hne; congruence|]. exists j. split; [lia|]. cbn. by replace (S (w_send_pos w + j)) with (w_send_pos w + S j)%nat by lia.
      - intros r k w' Hn Hr' Ho' Eo' Ht'. apply (HQ r (S k)); [done|done| | |done].
        + by apply (offered_trans w [asked] w1 (replicate (S k) asked)).
        + change (replicate (S (S k)) asked) with ([asked] ++ replicate (S k) asked).
          rewrite (offered_offers w [asked] w1 _ w'), Eo', Eo by done. done. }
  all: by apply runs_ret, (HQ _ 0%nat).
Qed.

Lemma runs_emit_all_sends es w (Q : unit → World → Prop) : env_ok w →
  (∀ w', offered w [] w' → w_trace w' = w_trace w ++ es → Q tt w') → runs (emit_all es) w Q.
Proof.
  revert w Q. induction es as [|e es IH]; intros w Q Hw HQ; cbn [emit_all].
  { apply runs_ret, HQ; [constructor; [done|done|done|cbn; lia]|by rewrite app_nil_r]. }
  apply runs_bind. eexists _, _. split; [reflexivity|].
  assert (env_ok (set_w_trace (w_trace w ++ [e]) w)) as Hw' by (by destruct Hw).
  apply IH; [done|]. intros w' Ho Ht. apply HQ; [|by rewrite Ht; simpl; rewrite <-app_assoc].
  apply (offered_trans w [] (set_w_trace (w_trace w ++ [e]) w) []); [|done].
  constructor; [by split; [destruct 1|..]|done|done|cbn; lia].
Qed.

Lemma runs_sendmmsg fuel chunk d acc w (Q : Z → World → Prop) :
  env_ok w → 0 ≤ d ≤ zlen chunk → zlen chunk - d ≤ Z.of_nat fuel →
  (∀ asks sent w', handed (drop (Z.to_nat d) chunk) (offers w asks) sent → offered w asks w' →
     w_trace w' = w_trace w ++ (EvTx <$> sent) → Q (acc + zlen sent) w') →
  runs (sendmmsg_loop fuel chunk d acc) w Q.
Proof.
  revert d acc w Q. induction fuel as [|fuel IH]; intros d acc w Q Hw Hd Hf HQ; cbn [sendmmsg_loop];
    (destruct (Z.ltb_spec d (zlen chunk)) as [Hlt|Hge]; [|apply runs_ret; rewrite <-(Z.add_0_r acc); apply (HQ [] []);
       [rewrite drop_ge by lia; constructor|by constructor|by rewrite app_nil_r]]); [lia|].
  assert (zlen (drop (Z.to_nat d) chunk) = zlen chunk - d) as El by len_lia.
  assert (drop (Z.to_nat d) chunk ≠ []) as Hne by (intros E; rewrite E in El; cbn in El; lia).
  apply runs_bind, runs_retry; [done|apply (eo_eintr w Hw)|]. intros r k w1 Hr Hn Ho1 Eo1 Ht1.
  assert (∀ b w2, offered w1 b w2 → offers w (replicate (S k) (zlen chunk - d) ++ b) =
    replicate k (zlen (drop (Z.to_nat d) chunk), Eintr) ++ (zlen (drop (Z.to_nat d) chunk), r) :: offers w1 b) as Happ.
  { intros b w2 Ho2. by rewrite (offered_offers _ _ w1 b w2), Eo1, El, <-app_assoc. }
  destruct r as [n| | |]; [| | |done].
  - specialize (Hn n eq_refl). apply runs_bind. eapply runs_lift; [apply slice_Done; lia|].
    apply runs_bind, runs_emit_all_sends; [apply (of_env _ _ _ Ho1)|]. intros w2 Ho2 Ht2.
    apply IH; [apply (of_env _ _ _ Ho2)|lia|lia|]. intros asks sent w3 Hh Ho3 Ht3.
    set (now := take (Z.to_nat (d + n - d)) (drop (Z.to_nat d) chunk)) in *.
    replace (acc + n + zlen sent) with (acc + zlen (now ++ sent)) by (unfold now; len_lia).
    assert (offered w1 asks w3) as Ho13 by (by apply (offered_trans w1 [] w2)).
    apply (HQ (replicate (S k) (zlen chunk - d) ++ asks)); [|by eapply offered_trans|rewrite Ht3, Ht2, Ht1, fmap_app, app_assoc; done].
    rewrite (Happ _ _ Ho13). apply handed_agains; [done|]. unfold now. replace (d + n - d) with n by lia. apply handed_sent; [lia|].
    rewrite drop_drop. replace (Z.to_nat d + Z.to_nat n)%nat with (Z.to_nat (d + n)) by lia.
    change asks with ([] ++ asks). by rewrite (offered_offers w1 [] w2 asks w3).
  - apply runs_ret. rewrite <-(Z.add_0_r acc). apply (HQ (replicate (S k) (zlen chunk - d) ++ []) []);
      [|by rewrite app_nil_r|by rewrite Ht1, app_nil_r].
    rewrite (Happ [] w1); [|constructor; [done|apply (of_env _ _ _ Ho1)|done|cbn; lia]]. apply handed_agains; [done|by apply handed_full].
  - apply IH; [apply (of_env _ _ _ Ho1)|lia|lia|]. intros asks sent w2 Hh Ho2 Ht2.
    apply (HQ (replicate (S k) (zlen chunk - d) ++ asks)); [|by eapply offered_trans|congruence].
    rewrite (Happ _ _ Ho2). apply handed_agains; [done|].
    destruct (drop (Z.to_nat d) chunk) as [|p l] eqn:Ed; [done|]. apply handed_refused.
    replace l with (drop (Z.to_nat (d + 1)) chunk); [done|].
    replace (Z.to_nat (d + 1)) with (Z.to_nat d + 1)%nat by lia. by rewrite <-drop_drop, Ed.
Qed.

Lemma chunks_join fuel l : (length l ≤ fuel)%nat → mjoin (chunks fuel l) = l.
Proof.
  revert l. induction fuel as [|fuel IH]; intros [|p l] Hl; simpl in Hl; try done; [lia|].
  cbn [chunks]. set (n := Z.to_nat SEND_CHUNK). assert (n = 64)%nat as Hn by reflexivity.
  unfold mjoin. cbn [list_join]. fold (mjoin (M := list) (A := TxPacket)). rewrite IH.
  - apply take_drop.
  - rewrite length_drop, Hn. simpl. lia.
Qed.

Lemma runs_send_chunks cs acc w (Q : Z → World → Prop) : env_ok w →
  (∀ asks sent w', handed_all false cs (offers w asks) sent → offered w asks w' →
     w_trace w' = w_trace w ++ (EvTx <$> sent) → Q (acc + zlen sent) w') →
  runs (send_chunks cs acc) w Q.
Proof.
  revert acc w Q. induction cs as [|c cs IH]; intros acc w Q Hw HQ; cbn [send_chunks].
  { apply runs_ret. rewrite <-(Z.add_0_r acc). apply (HQ [] []); [constructor|by constructor|by rewrite app_nil_r]. }
  apply runs_bind. apply runs_sendmmsg; [done|lia|lia|]. intros a1 s1 w1 Hs1 Ho1 Ht1. rewrite drop_0 in Hs1.
  apply IH; [apply (of_env _ _ _ Ho1)|]. intros a2 s2 w2 Hs2 Ho2 Ht2.
  replace (acc + zlen s1 + zlen s2) with (acc + zlen (s1 ++ s2)) by len_lia.
  apply (HQ (a1 ++ a2)); [|by eapply offered_trans|by rewrite Ht2, Ht1, fmap_app, app_assoc].
  rewrite (offered_offers w a1 w1 a2 w2) by done. by apply handed_next.
Qed.

Lemma blocked_last os a r : blocked (os ++ [(a, r)]) = match r with WouldBlock => true | _ => false end.
Proof. unfold blocked. by rewrite last_snoc. Qed.
Lemma runs_send_single pkts acc w (Q : Z → World → Prop) : env_ok w →
  (∀ asks sent w', handed_all true ((λ p, [p]) <$> pkts) (offers w asks) sent → offered w asks w' →
     w_trace w' = w_trace w ++ (EvTx <$> sent) → Q (acc + zlen sent) w') →
  runs (send_single pkts acc) w Q.
Proof.
  revert acc w Q. induction pkts as [|p pkts IH]; intros acc w Q Hw HQ; cbn [send_single].
  { apply runs_ret. rewrite <-(Z.add_0_r acc). apply (HQ [] []); [constructor|by constructor|by rewrite app_nil_r]. }
  apply runs_bind, runs_retry; [done|apply (eo_eintr w Hw)|]. intros r k w1 Hr Hn Ho1 Eo1 Ht1.
  pose proof (of_env _ _ _ Ho1) as Hw1.
  assert (∀ s os, handed [p] ((1, r) :: os) s → handed [p] (replicate k (1, Eintr) ++ (1, r) :: os) s) as Hag.
  { intros s os H. change 1 with (zlen [p]). by apply handed_agains. }
  destruct r as [n| | |]; [| | |done].
  - specialize (Hn n eq_refl). assert (n = 1) as -> by lia. apply runs_bind, (runs_emit_all_sends [EvTx p]); [done|]. intros w2 Ho2 Ht2.
    apply IH; [apply (of_env _ _ _ Ho2)|]. intros a3 s3 w3 Hs3 Ho3 Ht3.
    replace (acc + 1 + zlen s3) with (acc + zlen ([p] ++ s3)) by len_lia.
    pose proof (offered_trans w1 [] w2 a3 w3 Ho2 Ho3) as Ho13.
    apply (HQ (replicate (S k) 1 ++ a3)); [|by eapply offered_trans|by rewrite Ht3, Ht2, Ht1, fmap_app, app_assoc].
    rewrite (offered_offers w _ w1 a3 w3), Eo1 by done.
    change a3 with ([] ++ a3) at 1. rewrite (offered_offers w1 [] w2 a3 w3) by done. cbn [app fmap list_fmap].
    apply (handed_next true [p] _ _ _ [p] s3); [|by rewrite blocked_last|done].
    apply Hag. change 1 with (zlen [p]). apply (handed_sent 1 [p] [] []); [cbn; lia|constructor].
  - apply runs_ret. rewrite <-(Z.add_0_r acc). apply (HQ (replicate (S k) 1) []); [|done|by rewrite Ht1, app_nil_r].
    rewrite Eo1. apply handed_stop; [|by rewrite blocked_last]. apply Hag. by apply (handed_full [p]).
  - apply IH; [done|]. intros a2 s2 w2 Hs2 Ho2 Ht2.
    apply (HQ (replicate (S k) 1 ++ a2)); [|by eapply offered_trans|congruence].
    rewrite (offered_offers w _ w1 a2 w2), Eo1 by done.
    apply (handed_next true [p] _ _ _ [] s2); [|by rewrite blocked_last|done].
    apply Hag. apply (handed_refused p []). constructor.
Qed.

(** How the queue is offered: in chunks, or packet by packet, where a full buffer ends it. *)
Definition batches (single : bool) (pkts : list TxPacket) : list (list TxPacket) :=
  if single then (λ p, [p]) <$> pkts else chunks (length pkts) pkts.
Lemma batches_join single pkts : mjoin (batches single pkts) = pkts.
Proof.
  destruct single; cbn [batches]; [|by apply chunks_join]. induction pkts as [|p pkts IH]; [done|]. by rewrite <-IH at 2.
Qed.
Lemma runs_send_exact pkts w (Q : Z → World → Prop) : env_ok w →
  (∀ asks sent w', handed_all (w_single w) (batches (w_single w) pkts) (offers w asks) sent → offered w asks w' →
     w_trace w' = w_trace w ++ (EvTx <$> sent) → Q (zlen sent) w') →
  runs (send_batch pkts) w Q.
Proof.
  intros Hw HQ. unfold send_batch. apply runs_bind. eexists _, _. split; [reflexivity|].
  destruct (w_single w); [by apply runs_send_single|by apply runs_send_chunks].
Qed.
Lemma runs_send_batch pkts w (Q : Z → World → Prop) :
  env_ok w →
  (∀ sent w', sublist sent pkts → later w w' → env_ok w' →
     w_trace w' = w_trace w ++ (EvTx <$> sent) → Q (zlen sent) w') →
  runs (send_batch pkts) w Q.
Proof.
  intros Hw HQ. apply runs_send_exact; [done|]. intros asks sent w' Hs Ho Ht. apply HQ; [|apply Ho|apply (of_env _ _ _ Ho)|done].
  rewrite <-(batches_join (w_single w) pkts). by eapply handed_all_sublist.
Qed.

(** C39. Handing a queue to the kernel, by [sendmmsg] in chunks or by [sendto], returns
    although calls are interrupted and repeated, and does exactly what the kernel's answers
    say: each call offers what is left of the chunk, the packets the kernel reports are
    sent, a refused offer drops its first packet only, a full buffer drops the rest of the
    chunk (or, packet by packet, of the queue), and nothing else is lost; what is sent is a
    subsequence of the queue, in order, and the reported count is its length. *)
Theorem send_batch_ordered (pkts : list TxPacket) (w : World) (Hw : env_ok w) :
  ∃ asks sent w', send_batch pkts w = Done (zlen sent, w') ∧
    handed_all (w_single w) (batches (w_single w) pkts) (offers w asks) sent ∧
    w_send_pos w' = (w_send_pos w + length asks)%nat ∧
    sublist sent pkts ∧ w_trace w' = w_trace w ++ (EvTx <$> sent) ∧ env_ok w'.
Proof.
  destruct (runs_send_exact pkts w (λ n w', ∃ asks sent, n = zlen sent ∧
      handed_all (w_single w) (batches (w_single w) pkts) (offers w asks) sent ∧ offered w asks w' ∧
      w_trace w' = w_trace w ++ (EvTx <$> sent)) Hw)
    as (n & w' & E & asks & sent & -> & Hs & Ho & Ht); [intros asks sent w' ? ? ?; by exists asks, sent|].
  exists asks, sent, w'. split_and!; [done|done|apply Ho| |done|apply (of_env _ _ _ Ho)].
  rewrite <-(batches_join (w_single w) pkts). by eapply handed_all_sublist.
Qed.

(** * A concrete environment *)
(** Random bytes: 64 ones, then every 16-bit number in turn, twice in each group of four. *)
Definition demo_byte (i : nat) : Z :=
  let k := Z.of_nat i in
  if k <? 64 then 1 else let c := (k / 4) mod 65536 in if k mod 2 =? 0 then c mod 256 else c / 256.
(** A netlink acknowledgement (an [NLMSG_ERROR] of code 0) for the request of process 7. *)
Definition demo_ack : list Z := [20; 0; 0; 0; 2; 0; 0; 0; 2; 7; 0; 0; 0; 0; 0; 0; 0; 0; 0; 0].
Definition demo_net : NetIo :=
  mkNetIo (true, []) (mkNlIo 7 None None [demo_ack] 11) (Some 2) None (Some false)
    (λ v6 : bool, Some (if v6 then V6 (replicate 16 1) else V4 [10; 0; 0; 1])) (Some 3) true.
Definition demo_world : World :=
  mkWorld (λ i, Z.min (Z.of_nat i) 1000000) 0 demo_byte 0 (mkXoshiro 1 2 3 4) (λ _, replicate 24 7) 0
    (λ i asked, if asked <? 1 then WouldBlock else Sent (Z.min asked 3)) 0
    (λ i, Some (Z.of_nat i)) 0 (λ _, true) 0 false
    (mkHost (λ i, Z.min (Z.of_nat i) 1000000) 0 (λ _, Some (mkDnsAnswer [[9; 9; 9; 9]; [8; 8; 8; 8]] 60)) 0
       (λ _, mkFileIo true None) 0
       (λ _, demo_net) 0 (λ i, [i `mod` 3; 0; i `mod` 2]%nat) 0) [].

Lemma demo_byte_ok i : is_byte (demo_byte i).
Proof.
  unfold demo_byte, is_u. destruct (_ <? 64); [lia|]. pose proof (Z.mod_pos_bound (Z.of_nat i / 4) 65536).
  destruct (_ =? 0); Z.div_mod_to_equations; lia.
Qed.
Lemma from_le_inj a l b k : is_byte a → is_byte b → from_le (a :: l) = from_le (b :: k) → a = b ∧ from_le l = from_le k.
Proof. unfold is_u. cbn [from_le]. lia. Qed.
(** The two halves of a number are next to each other at every alignment. *)
Definition demo_num (k : Z) : Z := (if k mod 4 =? 3 then k / 4 + 1 else k / 4) mod 65536.
Lemma demo_num_bytes i : (64 ≤ i)%nat → demo_num (Z.of_nat i) =
  if Z.of_nat i mod 4 =? 1 then demo_byte (i + 1) + 256 * demo_byte i
  else if Z.of_nat i mod 4 =? 3 then demo_byte (i + 1) + 256 * demo_byte (i + 2)
  else demo_byte i + 256 * demo_byte (i + 1).
Proof.
  intros Hi. unfold demo_num, demo_byte.
  assert (∀ d : nat, (Z.of_nat (i + d) <? 64) = false) as H by (intros d; apply Z.ltb_ge; lia). specialize (H 0%nat) as H0. rewrite Nat.add_0_r in H0.
  rewrite !H, H0. cbv zeta. rewrite !Nat2Z.inj_add. change (Z.of_nat 1) with 1. change (Z.of_nat 2) with 2.
  set (k := Z.of_nat i) in *. clearbody k. clear.
  destruct (Z.eqb_spec (k mod 4) 1), (Z.eqb_spec (k mod 4) 3); try lia;
    repeat match goal with |- context [?a mod 2 =? 0] => destruct (Z.eqb_spec (a mod 2) 0); [try (exfalso; Z.div_mod_to_equations; lia)|try (exfalso; Z.div_mod_to_equations; lia)] end.
  - replace ((k + 1) / 4) with (k / 4) by (Z.div_mod_to_equations; lia). Z.div_mod_to_equations; lia.
  - replace ((k + 1) / 4) with (k / 4 + 1) by (Z.div_mod_to_equations; lia).
    replace ((k + 2) / 4) with (k / 4 + 1) by (Z.div_mod_to_equations; lia). Z.div_mod_to_equations; lia.
  - replace ((k + 1) / 4) with (k / 4) by (Z.div_mod_to_equations; lia). Z.div_mod_to_equations; lia.
Qed.
Lemma demo_word_inj i j j' : (64 ≤ i)%nat → (j < j')%nat → Z.of_nat j' - Z.of_nat j < 16384 →
  word_at demo_world (i + 4 * j) ≠ word_at demo_world (i + 4 * j').
Proof.
  intros Hi Hj Hlt E. unfold word_at in E. cbn [w_urandom demo_world fmap list_fmap seq] in E.
  apply from_le_inj in E as [E0 E]; [|apply demo_byte_ok..]. apply from_le_inj in E as [E1 E]; [|apply demo_byte_ok..].
  apply from_le_inj in E as [E2 _]; [|apply demo_byte_ok..]. rewrite !Nat.add_0_r in E0.
  pose proof (demo_num_bytes (i + 4 * j) ltac:(lia)) as H. pose proof (demo_num_bytes (i + 4 * j') ltac:(lia)) as H'.
  rewrite <-E0, <-E1, <-E2 in H'. unfold demo_num in *.
  assert (Z.of_nat (i + 4 * j') = Z.of_nat (i + 4 * j) + 4 * (Z.of_nat j' - Z.of_nat j)) as Ek by lia. rewrite Ek in H'.
  set (k := Z.of_nat (i + 4 * j)) in *. set (d := Z.of_nat j' - Z.of_nat j) in *. assert (0 < d < 16384) as Hd by lia.
  assert ((k + 4 * d) mod 4 = k mod 4) as Em by (rewrite Z.mul_comm; by apply Z_mod_plus_full).
  assert ((k + 4 * d) / 4 = k / 4 + d) as Ed by (Z.div_mod_to_equations; lia).
  rewrite Em, Ed in H'. rewrite <-H in H'. clear -H' Hd.
  destruct (k mod 4 =? 3); Z.div_mod_to_equations; lia.
Qed.
(** Beyond the first bytes, so many different words that some word is not among the used. *)
Lemma demo_fresh i (used : gset Z) : Z.of_nat (size used) ≤ 10001 →
  ∃ j, (j < FRESH_FUEL)%nat ∧ word_at demo_world (i + 4 * j) ∉ used.
Proof.
  intros Hs. set (ws := (λ j, word_at demo_world (i + 64 + 4 * j)) <$> seq 0 (Z.to_nat 16000)).
  assert (NoDup ws) as Hn.
  { apply NoDup_fmap_2_strong; [|apply NoDup_seq]. intros j j' Hj Hj' E. apply elem_of_seq in Hj, Hj'.
    destruct (decide (j = j')); [done|]. exfalso.
    destruct (decide (j < j')%nat); [apply (demo_word_inj (i + 64) j j'); [lia|done|lia|done]|].
    apply (demo_word_inj (i + 64) j' j); [lia|lia|lia|done]. }
  destruct (decide (Forall (λ x, x ∈ used) ws)) as [Hall|Hex].
  - exfalso. assert (list_to_set ws ⊆ used) as Hsub.
    { intros x. rewrite elem_of_list_to_set. intros Hx. by apply (proj1 (Forall_forall _ _) Hall). }
    apply subseteq_size in Hsub. rewrite size_list_to_set in Hsub by done. unfold ws in Hsub. rewrite length_fmap, length_seq in Hsub. lia.
  - apply not_Forall_Exists, Exists_exists in Hex as (x & (j & -> & Hj)%list_elem_of_fmap & Hx); [|solve_decision].
    apply elem_of_seq in Hj. exists (16 + j)%nat. split; [unfold FRESH_FUEL; lia|].
    by replace (i + 4 * (16 + j))%nat with (i + 64 + 4 * j)%nat by lia.
Qed.

Lemma demo_world_ok : env_ok demo_world.
Proof.
  constructor; cbn [demo_world w_clock w_urandom w_sends w_nonces w_fast].
  - intros i. lia.
  - intros i. unfold is_u. lia.
  - apply demo_byte_ok.
  - intros i. pose proof (demo_word_inj (i + 64) 0 1 ltac:(lia) ltac:(lia) ltac:(lia)) as H.
    destruct (decide (word_at demo_world (i + 64) = 0)) as [E|Hn].
    + exists 17%nat. split; [unfold NZ_FUEL; lia|]. replace (i + 4 * 17)%nat with (i + 64 + 4 * 1)%nat by lia.
      replace (i + 64 + 4 * 0)%nat with (i + 64)%nat in H by lia. congruence.
    + exists 16%nat. split; [unfold NZ_FUEL; lia|]. by replace (i + 4 * 16)%nat with (i + 64)%nat by lia.
  - intros i asked n. destruct (asked <? 1) eqn:E; intros [= <-]. lia.
  - intros i. split; [done|]. auto with bytes.
  - done.
  - intros i. cbn. lia.
  - intros i a [= <-]. split; [repeat constructor; unfold is_u; lia|unfold is_u; cbn; lia].
  - intros i. split; [repeat constructor; unfold is_u; lia|]. intros e. cbn. intros [|[|<-]]; done.
  - intros i v6 ip. cbn. intros [= <-]. split; [|by destruct v6]. destruct v6; repeat constructor; unfold is_u; cbn; lia.
  - intros i used Hs. destruct (demo_fresh i ({[0]} ∪ used)) as (j & Hj & Hn).
    { pose proof (size_union_alt {[0]} used). pose proof (subseteq_size (used ∖ {[0]}) used ltac:(set_solver)).
      rewrite size_singleton in *. lia. }
    exists j. split; [done|]. set_solver.
  - intros i asked. exists 0%nat. split; [unfold EINTR_FUEL; lia|]. by destruct (asked <? 1).
Qed.

(** Five packets to a kernel that is interrupted at every other call and takes at most three. *)
Definition demo_sender : World :=
  set_w_sends (λ i asked, if asked <? 1 then WouldBlock else if Nat.even i then Eintr else Sent (Z.min asked 3)) demo_world.
Lemma demo_sender_ok : env_ok demo_sender.
Proof.
  destruct demo_world_ok as [H1 H2 H3 H4 H5 H6 H7 H8 H9 H10 H11 H12 H13]. constructor; try done.
  - intros i asked n. cbn. destruct (asked <? 1) eqn:E; [done|]. destruct (Nat.even i); [done|]. intros [= <-]. lia.
  - intros i asked. cbn. destruct (asked <? 1) eqn:E; [exists 0%nat; split; [unfold EINTR_FUEL; lia|done]|].
    destruct (Nat.even i) eqn:Ei.
    + exists 1%nat. split; [unfold EINTR_FUEL; lia|]. rewrite Nat.add_1_r, Nat.even_succ, <-Nat.negb_even, Ei. done.
    + exists 0%nat. split; [unfold EINTR_FUEL; lia|]. by rewrite Nat.add_0_r, Ei.
Qed.
Lemma send_batch_ordered_witness :
  ∃ (asks : list Z) sent w', send_batch (replicate 5 (mkTxPacket [1] 0 (TxIp (V4 [1; 2; 3; 4])))) demo_sender = Done (zlen sent, w') ∧
    zlen sent = 5 ∧ length asks = 4%nat ∧ w_trace w' = w_trace demo_sender ++ (EvTx <$> sent).
Proof.
  destruct (send_batch_ordered (replicate 5 (mkTxPacket [1] 0 (TxIp (V4 [1; 2; 3; 4])))) demo_sender demo_sender_ok)
    as (asks & sent & w' & E & _ & Hp & _ & Ht & _).
  exists asks, sent, w'. split; [exact E|].
  assert (match send_batch (replicate 5 (mkTxPacket [1] 0 (TxIp (V4 [1; 2; 3; 4])))) demo_sender with
          | Done (n, w') => n = 5 ∧ w_send_pos w' = 4%nat | Panic => False end) as Hc by (vm_compute; split; reflexivity).
  rewrite E in Hc. destruct Hc as [Hn Hq]. split; [exact Hn|]. split; [|exact Ht].
  rewrite Hq in Hp. symmetry. exact Hp.
Defined.
