(* ===== verification/SecureFile.v ===== *)
(** Owner-only files: [src/src/secure_file.rs].

    The file system is an arbitrary sequence of answers to the system calls, so that other
    processes may change anything between two calls, and any call may fail.  Every call is
    recorded with its answer.  A path is the list of its components. *)
From stdpp Require Import strings.
From S2P Require Import Prelude Util Text.

Definition OWNER_ONLY_MODE : Z := 384. (* 0o600 *)
Definition TEMP_CREATE_ATTEMPTS : nat := 128.

(** * Paths *)
Record Path := mkPath { p_absolute : bool; p_parts : list (list Z) }.
#[export] Instance Path_eq_dec : EqDecision Path.
Proof. solve_decision. Defined.
(** [Path::file_name], [Path::parent], [Path::join] *)
Definition file_name (p : Path) : option (list Z) :=
  n ← last (p_parts p); if bool_decide (n = str "..") then None else Some n.
Definition parent (p : Path) : option Path :=
  match p_parts p with [] => None | parts => Some (mkPath (p_absolute p) (take (length parts - 1) parts)) end.
Definition join_path (p q : Path) : Path := if p_absolute q then q else mkPath (p_absolute p) (p_parts p ++ p_parts q).
Definition join_name (p : Path) (name : list Z) : Path := mkPath (p_absolute p) (p_parts p ++ [name]).
Definition parent_dir (path : Path) : Path :=
  match parent path with
  | Some p => if p_absolute p || negb (bool_decide (p_parts p = [])) then p else mkPath false [str "."]
  | None => mkPath false [str "."]
  end.

(** * System calls *)
Inductive IoKind := NotFound | AlreadyExists | InvalidData | InvalidInput | WouldBlock | Interrupted | OtherIo.
#[export] Instance IoKind_eq_dec : EqDecision IoKind.
Proof. solve_decision. Defined.
Inductive FileKind := Regular | Directory | Fifo | OtherKind.
#[export] Instance FileKind_eq_dec : EqDecision FileKind.
Proof. solve_decision. Defined.
Record Meta := mkMeta { md_kind : FileKind; md_uid : Z; md_nlink : Z; md_mode : Z; md_len : Z; md_dev : Z; md_ino : Z }.
Inductive Op :=
| Lstat (p : Path) | Fstat (fd : Z) | CurrentDir | Canonicalize (p : Path) | OpenDir (p : Path) | OpenRead (p : Path) | OpenReadWrite (p : Path)
| OpenFifoAt (dir : Z) (name : list Z) | Read (fd limit : Z) | Flock (fd : Z)
| CreateDirs (p : Path) | CreateNew (p : Path) (mode : Z) | MkfifoAt (dir : Z) (name : list Z) (mode : Z) | Chmod (fd mode : Z)
| Write (fd : Z) (b : list Z) | SyncAll (fd : Z) | Rename (p q : Path) | Unlink (p : Path) | UnlinkAt (dir : Z) (name : list Z).
(** The answer to a call: an error, or what the call returns. *)
Record Reply := mkReply { re_err : option IoKind; re_meta : Meta; re_fd : Z; re_path : Path; re_bytes : list Z }.
Definition Event : Type := Op * Reply.
Record Sys := mkSys { sy_answers : nat → Reply; sy_pos : nat; sy_trace : list Event; sy_random : nat → list Z; sy_random_pos : nat; sy_euid : Z }.

Definition Sy (A : Type) := Sys → (IoKind + A) * Sys.
#[export] Instance Sy_ret : MRet Sy := λ A a s, (inr a, s).
#[export] Instance Sy_bind : MBind Sy := λ A B f m s, match m s with (inr a, s') => f a s' | (inl e, s') => (inl e, s') end.
Definition throw {A} (e : IoKind) : Sy A := λ s, (inl e, s).
Definition attempt {A} (m : Sy A) : Sy (IoKind + A) := λ s, let '(r, s') := m s in (inr r, s').
Definition call (op : Op) : Sy Reply := λ s,
  let r := sy_answers s (sy_pos s) in
  (match re_err r with Some e => inl e | None => inr r end,
   mkSys (sy_answers s) (S (sy_pos s)) (sy_trace s ++ [(op, r)]) (sy_random s) (sy_random_pos s) (sy_euid s)).
Definition geteuid : Sy Z := λ s, (inr (sy_euid s), s).
Definition random_16 : Sy (list Z) := λ s,
  (inr (sy_random s (sy_random_pos s)), mkSys (sy_answers s) (sy_pos s) (sy_trace s) (sy_random s) (S (sy_random_pos s)) (sy_euid s)).
Definition check (b : bool) (e : IoKind) : Sy unit := if b then mret tt else throw e.
Definition lstat (p : Path) : Sy Meta := r ← call (Lstat p); mret (re_meta r).
Definition fstat (fd : Z) : Sy Meta := r ← call (Fstat fd); mret (re_meta r).

(** * Metadata *)
Definition PERMISSIONS : Z := 4095. (* 0o7777 *)
Definition GROUP_WORLD_WRITE : Z := 18. (* 0o022 *)
Definition validate_kind (kind : FileKind) (m : Meta) (require_mode : bool) : Sy unit :=
  check (bool_decide (md_kind m = kind)) InvalidData;;
  euid ← geteuid;
  check (md_uid m =? euid) InvalidData;;
  check (md_nlink m =? 1) InvalidData;;
  check (negb (require_mode && negb (Z.land (md_mode m) PERMISSIONS =? OWNER_ONLY_MODE))) InvalidData.
Definition validate_metadata : Meta → bool → Sy unit := validate_kind Regular.
Definition validate_fifo_metadata : Meta → bool → Sy unit := validate_kind Fifo.
Definition validate_directory_metadata (m : Meta) : Sy unit :=
  check (bool_decide (md_kind m = Directory)) InvalidData;;
  euid ← geteuid;
  check (md_uid m =? euid) InvalidData;;
  check (Z.land (md_mode m) GROUP_WORLD_WRITE =? 0) InvalidData.
Definition same_inode (a b : Meta) : bool := (md_dev a =? md_dev b) && (md_ino a =? md_ino b).

(** * Directories *)
Record TrustedDirectory := mkDirectory { td_requested : Path; td_canonical : Path; td_file : Z }.
Definition revalidate_name (opened : Meta) (p : Path) : Sy unit :=
  current ← lstat p;
  validate_directory_metadata current;;
  check (same_inode opened current) InvalidData.
Definition revalidate (d : TrustedDirectory) : Sy unit :=
  opened ← fstat (td_file d);
  validate_directory_metadata opened;;
  revalidate_name opened (td_requested d);;
  revalidate_name opened (td_canonical d).
Definition sync (d : TrustedDirectory) : Sy unit := call (SyncAll (td_file d));; mret tt.
Definition for_path (path : Path) (create : bool) : Sy (TrustedDirectory * Path) :=
  name ← match file_name path with Some n => mret n | None => throw InvalidInput end;
  let parent := parent_dir path in
  requested ← (if p_absolute parent then mret parent else r ← call CurrentDir; mret (join_path (re_path r) parent));
  (if create then call (CreateDirs requested);; mret tt else mret tt);;
  initial ← lstat requested;
  validate_directory_metadata initial;;
  c ← call (Canonicalize requested);
  let canonical := re_path c in
  f ← call (OpenDir canonical);
  opened ← fstat (re_fd f);
  validate_directory_metadata opened;;
  let directory := mkDirectory requested canonical (re_fd f) in
  revalidate directory;;
  mret (directory, join_name canonical name).

(** * Reading *)
Definition read_owner_only (path : Path) (max_len : Z) : Sy (option (list Z)) :=
  check (max_len + 1 <? 2 ^ 64) InvalidInput;;
  '(directory, path) ← for_path path false;
  i ← attempt (lstat path);
  match i with
  | inl e => if bool_decide (e = NotFound) then revalidate directory;; mret None else throw e
  | inr initial =>
      validate_metadata initial true;;
      check (md_len initial <=? max_len) InvalidData;;
      f ← attempt (call (OpenRead path));
      match f with
      | inl e => if bool_decide (e = NotFound) then revalidate directory;; mret None else throw e
      | inr f =>
          opened ← fstat (re_fd f);
          validate_metadata opened true;;
          revalidate directory;;
          check (md_len opened <=? max_len) InvalidData;;
          r ← call (Read (re_fd f) (max_len + 1));
          let bytes := take (Z.to_nat (max_len + 1)) (re_bytes r) in
          check (zlen bytes <=? max_len) InvalidData;;
          revalidate directory;;
          mret (Some bytes)
      end
  end.

(** * Writing *)
Definition random_temp_path (destination : Path) : Sy Path :=
  name ← match file_name destination with Some n => mret n | None => throw InvalidInput end;
  random ← random_16;
  mret (join_name (parent_dir destination) (name ++ str ".tmp." ++ hex random)).
Definition validate_destination (path : Path) : Sy unit :=
  m ← attempt (lstat path);
  match m with
  | inr m => validate_metadata m true
  | inl e => if bool_decide (e = NotFound) then mret tt else throw e
  end.
Definition set_exact_mode (fd : Z) : Sy unit := call (Chmod fd OWNER_ONLY_MODE);; mret tt.
(** [PendingTemp] is dropped with an error: the temporary is removed. *)
Definition drop_temp {A} (path : Path) (e : IoKind) : Sy A := attempt (call (Unlink path));; throw e.
Definition or_drop {A} (path : Path) (m : Sy A) : Sy A :=
  r ← attempt m; match r with inr a => mret a | inl e => drop_temp path e end.
Fixpoint create_temp_with (attempts : nat) (next_path : Sy Path) : Sy (Path * Z) :=
  match attempts with
  | O => throw AlreadyExists
  | S attempts =>
      path ← next_path;
      f ← attempt (call (CreateNew path OWNER_ONLY_MODE));
      match f with
      | inl e => if bool_decide (e = AlreadyExists) then create_temp_with attempts next_path else throw e
      | inr f =>
          or_drop path (
            m ← fstat (re_fd f);
            validate_metadata m false;;
            set_exact_mode (re_fd f);;
            m ← fstat (re_fd f);
            validate_metadata m true;;
            mret (path, re_fd f))
      end
  end.
Definition publish (directory : TrustedDirectory) (temp : Path) (fd : Z) (path : Path) (contents : list Z) : Sy unit :=
  call (Write fd contents);;
  call (SyncAll fd);;
  m ← fstat fd;
  validate_metadata m true;;
  revalidate directory;;
  revalidate directory;;
  validate_destination path;;
  call (Rename temp path);;
  mret tt.
Definition atomic_write_owner_only_with (path : Path) (contents : list Z) (next_path : Sy Path) : Sy unit :=
  '(directory, path) ← for_path path true;
  validate_destination path;;
  '(temp, fd) ← create_temp_with TEMP_CREATE_ATTEMPTS next_path;
  or_drop temp (publish directory temp fd path contents);;
  revalidate directory;;
  sync directory.
Definition atomic_write_owner_only (path : Path) (contents : list Z) : Sy unit :=
  atomic_write_owner_only_with path contents (random_temp_path path).

(** * Command fifos *)
Definition fifo_opened (directory : TrustedDirectory) (child : Path) (name : list Z) (created : bool) : Sy Z :=
  initial ← lstat child;
  validate_fifo_metadata initial (negb created);;
  revalidate directory;;
  f ← call (OpenFifoAt (td_file directory) name);
  m ← fstat (re_fd f);
  validate_fifo_metadata m false;;
  (if created then set_exact_mode (re_fd f) else mret tt);;
  opened ← fstat (re_fd f);
  validate_fifo_metadata opened true;;
  revalidate directory;;
  current ← lstat child;
  validate_fifo_metadata current true;;
  check (same_inode opened current) InvalidData;;
  (if created then sync directory else mret tt);;
  mret (re_fd f).
Definition open_owner_only_fifo (path : Path) : Sy Z :=
  name ← match file_name path with Some n => mret n | None => throw InvalidInput end;
  check (negb (bool_decide (0 ∈ name))) InvalidInput;;
  '(directory, child) ← for_path path true;
  made ← attempt (call (MkfifoAt (td_file directory) name OWNER_ONLY_MODE));
  created ← match made with
            | inr _ => mret true
            | inl e => if bool_decide (e = AlreadyExists) then mret false else throw e
            end;
  result ← attempt (fifo_opened directory child name created);
  match result with
  | inr fd => mret fd
  | inl e =>
      (if created : bool then attempt (call (UnlinkAt (td_file directory) name));; attempt (sync directory);; mret tt else mret tt);;
      throw e
  end.
(** [fifo.rs]: the error's text aside, the fifo as it is opened *)
Definition create_fifo (path : Path) : Sy Z := open_owner_only_fifo path.

(** * Locks *)
Definition open_existing_lock (path : Path) : Sy Z := f ← call (OpenReadWrite path); mret (re_fd f).
Definition create_lock (path : Path) : Sy Z := f ← call (CreateNew path OWNER_ONLY_MODE); mret (re_fd f).
Fixpoint open_or_create_lock (attempts : nat) (path : Path) : Sy (Z * bool) :=
  match attempts with
  | O => throw WouldBlock
  | S attempts =>
      m ← attempt (lstat path);
      match m with
      | inr m =>
          validate_metadata m true;;
          f ← attempt (open_existing_lock path);
          match f with
          | inr fd => m ← fstat fd; validate_metadata m true;; mret (fd, false)
          | inl e => if bool_decide (e = NotFound) then open_or_create_lock attempts path else throw e
          end
      | inl e =>
          if bool_decide (e = NotFound) then
            f ← attempt (create_lock path);
            match f with
            | inr fd =>
                m ← fstat fd;
                validate_metadata m false;;
                set_exact_mode fd;;
                m ← fstat fd;
                validate_metadata m true;;
                mret (fd, true)
            | inl e => if bool_decide (e = AlreadyExists) then open_or_create_lock attempts path else throw e
            end
          else throw e
      end
  end.
(** The loop gives up on any error but an interrupted call, so [Interrupted] is here the answer
    of a loop that is still being interrupted after [fuel] calls. *)
Fixpoint lock_exclusive (fuel : nat) (fd : Z) : Sy unit :=
  match fuel with
  | O => throw Interrupted
  | S fuel =>
      r ← attempt (call (Flock fd));
      match r with
      | inr _ => mret tt
      | inl e => if bool_decide (e = Interrupted) then lock_exclusive fuel fd else throw e
      end
  end.
Definition validate_lock_path (path : Path) (fd : Z) : Sy unit :=
  opened ← fstat fd;
  validate_metadata opened true;;
  current ← lstat path;
  validate_metadata current true;;
  check (same_inode opened current) InvalidData.
(** The mutex between the threads of this process is not part of the model. *)
Definition with_owner_only_lock {T} (fuel : nat) (path : Path) (action : Sy T) : Sy T :=
  '(directory, path) ← for_path path true;
  '(fd, created) ← open_or_create_lock TEMP_CREATE_ATTEMPTS path;
  lock_exclusive fuel fd;;
  (if created : bool then call (SyncAll fd);; sync directory else mret tt);;
  revalidate directory;;
  validate_lock_path path fd;;
  action.
