(* ===== verification/SecureFileSpec.v ===== *)
(** What the owner-only file operations of [src/src/secure_file.rs] do to the file system,
    whatever the system calls answer: each operation's sequence of calls is accepted by a
    protocol (an automaton over calls and their answers), and the protocol's state says what
    a successful and a failed operation leave behind. *)
From Stdlib Require Import Ascii.
From stdpp Require Import strings list.
From S2P Require Import Prelude Util Text SecureFile.

(** A regular file or fifo that only its owner can use and that has one name. *)
Definition owner_only (kind : FileKind) (euid : Z) (m : Meta) : bool :=
  bool_decide (md_kind m = kind) && (md_uid m =? euid) && (md_nlink m =? 1) && (Z.land (md_mode m) PERMISSIONS =? OWNER_ONLY_MODE).
Definition succeeded (r : Reply) : bool := bool_decide (re_err r = None).
Definition not_found (r : Reply) : bool := bool_decide (re_err r = Some NotFound).
(** The calls that look at a directory, and those that find or make it. *)
Definition looks (op : Op) : bool := match op with Lstat _ | Fstat _ => true | _ => false end.
Definition looks_or_makes (create : bool) (op : Op) : bool :=
  looks op || match op with CurrentDir | Canonicalize _ => true | CreateDirs _ => create | _ => false end.

(** * Weakest preconditions over a protocol *)
Section Protocol.
Context {St : Type} (step : St → Event → option St) (init : St) (euid : Z).

Definition accepts (t : list Event) : option St := foldl (λ o e, w ← o; step w e) (Some init) t.
Lemma accepts_prefix t t' w : accepts t' = Some w → t `prefix_of` t' → ∃ w', accepts t = Some w'.
Proof.
  intros H [u ->]. unfold accepts in *. rewrite foldl_app in H.
  destruct (foldl _ (Some init) t) as [w'|]; [eauto|]. exfalso. induction u; [done|auto].
Qed.

Definition wp {A} (m : Sy A) (w : St) (Q : (IoKind + A) → St → Prop) : Prop :=
  ∀ s, sy_euid s = euid → accepts (sy_trace s) = Some w →
  ∃ w', sy_euid (m s).2 = euid ∧ accepts (sy_trace (m s).2) = Some w' ∧ Q (m s).1 w'.

Lemma wp_ret {A} (a : A) w (Q : _ → _ → Prop) : Q (inr a) w → wp (mret a) w Q.
Proof. intros H s E T. exists w. auto. Qed.
Lemma wp_throw {A} e w (Q : (IoKind + A) → _ → Prop) : Q (inl e) w → wp (throw e) w Q.
Proof. intros H s E T. exists w. auto. Qed.
Lemma wp_bind {A B} (m : Sy A) (f : A → Sy B) w Q :
  wp m w (λ r w', match r with inr a => wp (f a) w' Q | inl e => Q (inl e) w' end) → wp (m ≫= f) w Q.
Proof.
  intros H s E T. destruct (H s E T) as (w' & E' & T' & HQ). unfold mbind, Sy_bind.
  destruct (m s) as [[e|a] s']; simpl in *; [eauto|by apply HQ].
Qed.
Lemma wp_attempt {A} (m : Sy A) w (Q : (IoKind + (IoKind + A)) → St → Prop) : wp m w (λ r, Q (inr r)) → wp (attempt m) w Q.
Proof. intros H s E T. destruct (H s E T) as (w' & ?). exists w'. unfold attempt. by destruct (m s). Qed.
Lemma wp_mono {A} (m : Sy A) w (Q Q' : _ → _ → Prop) : wp m w Q → (∀ r w', Q r w' → Q' r w') → wp m w Q'.
Proof. intros H HQ s E T. destruct (H s E T) as (w' & ? & ? & ?). exists w'. auto. Qed.
Lemma wp_geteuid w (Q : _ → _ → Prop) : Q (inr euid) w → wp geteuid w Q.
Proof. intros H s E T. exists w. unfold geteuid. simpl. by rewrite E. Qed.
Lemma wp_random w (Q : _ → _ → Prop) : (∀ b, Q (inr b) w) → wp random_16 w Q.
Proof. intros H s E T. exists w. simpl. auto. Qed.
Lemma wp_check b e w (Q : _ → _ → Prop) : (b = true → Q (inr tt) w) → Q (inl e) w → wp (check b e) w Q.
Proof. intros H H'. destruct b; [by apply wp_ret, H|by apply wp_throw]. Qed.
Lemma wp_call op w (Q : _ → _ → Prop) :
  (∀ r, ∃ w', step w (op, r) = Some w' ∧ Q (match re_err r with Some e => inl e | None => inr r end) w') → wp (call op) w Q.
Proof.
  intros H s E T. destruct (H (sy_answers s (sy_pos s))) as (w' & Hs & HQ). exists w'.
  unfold call. simpl. split; [done|]. split; [|done]. unfold accepts in *. rewrite foldl_app, T. done.
Qed.
Lemma wp_lstat p w (Q : _ → _ → Prop) :
  (∀ r, ∃ w', step w (Lstat p, r) = Some w' ∧ Q (match re_err r with Some e => inl e | None => inr (re_meta r) end) w') → wp (lstat p) w Q.
Proof.
  intros H. unfold lstat. apply wp_bind, wp_call. intros r. destruct (H r) as (w' & Hs & HQ). exists w'. split; [done|].
  destruct (re_err r); [done|by apply wp_ret].
Qed.
Lemma wp_fstat fd w (Q : _ → _ → Prop) :
  (∀ r, ∃ w', step w (Fstat fd, r) = Some w' ∧ Q (match re_err r with Some e => inl e | None => inr (re_meta r) end) w') → wp (fstat fd) w Q.
Proof.
  intros H. unfold fstat. apply wp_bind, wp_call. intros r. destruct (H r) as (w' & Hs & HQ). exists w'. split; [done|].
  destruct (re_err r); [done|by apply wp_ret].
Qed.
Lemma wp_validate_kind kind m (strict : bool) w (Q : _ → _ → Prop) :
  ((strict = true → owner_only kind euid m = true) → md_kind m = kind → Q (inr tt) w) → Q (inl InvalidData) w → wp (validate_kind kind m strict) w Q.
Proof.
  intros H He. unfold validate_kind. apply wp_bind, wp_check; [|done]. intros K%bool_decide_eq_true.
  apply wp_bind, wp_geteuid, wp_bind, wp_check; [|done]. intros U. apply wp_bind, wp_check; [|done]. intros L.
  apply wp_check; [|done]. intros M. apply H; [|done]. intros ->. unfold owner_only.
  rewrite bool_decide_true by done. rewrite U, L. simpl in *. by destruct (_ =? OWNER_ONLY_MODE).
Qed.
Lemma wp_validate_directory m w (Q : _ → _ → Prop) : (md_kind m = Directory → Q (inr tt) w) → Q (inl InvalidData) w → wp (validate_directory_metadata m) w Q.
Proof.
  intros H He. unfold validate_directory_metadata. apply wp_bind, wp_check; [|done]. intros K%bool_decide_eq_true.
  apply wp_bind, wp_geteuid, wp_bind, wp_check; [|done]. intros U. apply wp_check; auto.
Qed.

(** Looking at a directory keeps [P] when it succeeds and there is a directory, else reaches [E]. *)
Definition keeps (P E : St → Prop) (ops : Op → bool) : Prop :=
  ∀ w op r, P w → ops op = true →
  ∃ w', step w (op, r) = Some w' ∧ E w' ∧ (succeeded r = true → (looks op = true → md_kind (re_meta r) = Directory) → P w').
Lemma keeps_run P E ops op w (Q : _ → _ → Prop) : keeps P E ops → ops op = true → looks op = false → P w →
  (∀ r w', P w' → Q (inr r) w') → (∀ e w', E w' → Q (inl e) w') → wp (call op) w Q.
Proof.
  intros K Ho Hl HP H1 H2. apply wp_call. intros r. destruct (K w op r HP Ho) as (w' & Hs & HE & HR). exists w'. split; [done|].
  unfold succeeded in HR. destruct (re_err r); [auto|]. apply H1, HR; [done|]. by rewrite Hl.
Qed.
Lemma keeps_meta P E ops op w (Q : _ → _ → Prop) : keeps P E ops → ops op = true → P w →
  (∀ m w', E w' → (md_kind m = Directory → P w') → Q (inr m) w') → (∀ e w', E w' → Q (inl e) w') → wp (r ← call op; mret (re_meta r)) w Q.
Proof.
  intros K Ho HP H1 H2. apply wp_bind, wp_call. intros r. destruct (K w op r HP Ho) as (w' & Hs & HE & HR). exists w'. split; [done|].
  unfold succeeded in HR. destruct (re_err r); [auto|]. apply wp_ret, H1; auto.
Qed.
Lemma keeps_weaken P E ops ops' : keeps P E ops → (∀ op, ops' op = true → ops op = true) → keeps P E ops'.
Proof. intros K H w op r HP Ho. auto. Qed.

Lemma wp_revalidate_name P E opened p w : keeps P E looks → (∀ w, P w → E w) → P w → wp (revalidate_name opened p) w (λ r w', match r with inr _ => P w' | inl _ => E w' end).
Proof.
  intros K PE HP. apply wp_bind. eapply keeps_meta; [done|done|done| |done]. intros m w' HE' HP'.
  apply wp_bind, wp_validate_directory; [|auto]. intros Hd. apply wp_check; auto.
Qed.
Lemma wp_revalidate P E d w (Q : _ → _ → Prop) : keeps P E looks → (∀ w, P w → E w) → P w → (∀ w', P w' → Q (inr tt) w') → (∀ e w', E w' → Q (inl e) w') → wp (revalidate d) w Q.
Proof.
  intros K PE HP HQ HE. apply wp_bind. eapply keeps_meta; [done|done|done| |done]. intros m w' HE' HP'.
  apply wp_bind, wp_validate_directory; [|auto]. intros Hd. apply wp_bind.
  eapply wp_mono; [apply (wp_revalidate_name P E); auto|]. intros [e|[]] w2 H2; [auto|].
  eapply wp_mono; [by apply (wp_revalidate_name P E)|]. intros [e|[]] w3 H3; auto.
Qed.

(** Opening the directory of a path leads from [P] to [D]. *)
Lemma wp_for_path (P E : St → Prop) (D : Path → Z → St → Prop) path create w (Q : _ → _ → Prop) :
  keeps P E (looks_or_makes create) → (∀ p fd, keeps (D p fd) E looks) →
  (∀ w p r, P w → ∃ w', step w (OpenDir p, r) = Some w' ∧ (if succeeded r then D p (re_fd r) w' else E w')) →
  (∀ w, P w → E w) → (∀ p fd w, D p fd w → E w) → P w →
  (∀ d name w', file_name path = Some name → D (td_canonical d) (td_file d) w' → Q (inr (d, join_name (td_canonical d) name)) w') →
  (∀ e w', E w' → Q (inl e) w') → wp (for_path path create) w Q.
Proof.
  intros K KD O PE DE HP HQ HE. unfold for_path. apply wp_bind. destruct (file_name path) as [name|] eqn:En; [|by apply wp_throw; auto].
  apply wp_ret, wp_bind.
  assert (∀ w R, P w → (∀ p w', P w' → R (inr p) w') → (∀ e w', E w' → R (inl e) w') →
    wp (if p_absolute (parent_dir path) then mret (parent_dir path) else r ← call CurrentDir; mret (join_path (re_path r) (parent_dir path))) w R) as Hr.
  { intros w0 R HP0 R1 R2. destruct (p_absolute _); [by apply wp_ret, R1|]. apply wp_bind.
    eapply keeps_run; [done|done|done|done| |done]. intros r w' ?. by apply wp_ret, R1. }
  apply Hr; [done| |done]. intros requested w1 H1. apply wp_bind.
  assert (∀ w R, P w → (∀ w', P w' → R (inr tt) w') → (∀ e w', E w' → R (inl e) w') →
    wp (if create then call (CreateDirs requested);; mret tt else mret tt) w R) as Hc.
  { intros w0 R HP0 R1 R2. destruct create; [|by apply wp_ret, R1]. apply wp_bind.
    eapply keeps_run; [done|done|done|done| |done]. intros r w' ?. by apply wp_ret, R1. }
  apply Hc; [done| |done]. intros w2 H2. apply wp_bind.
  eapply keeps_meta; [done|done|done| |done]. intros m w3 E3 P3. apply wp_bind, wp_validate_directory; [|auto]. intros H3%P3.
  apply wp_bind. eapply keeps_run; [done|done|done|done| |done]. intros c w4 H4. apply wp_bind, wp_call. intros f.
  destruct (O w4 (re_path c) f H4) as (w5 & Hs & H5). exists w5. split; [done|]. unfold succeeded in H5.
  destruct (re_err f); case_bool_decide; try done; [by apply HE|].
  apply wp_bind. eapply keeps_meta; [by apply KD|done|done| |done]. intros m' w6 E6 P6. apply wp_bind, wp_validate_directory; [|eauto]. intros H6%P6.
  apply wp_bind. eapply wp_revalidate; [by apply KD|by apply DE|done| |done]. intros w7 H7. apply wp_ret.
  apply (HQ (mkDirectory requested (re_path c) (re_fd f)) name); done.
Qed.
End Protocol.
(** A process that has made no call yet. *)
Definition start (answers : nat → Reply) (random : nat → list Z) (euid : Z) : Sys := mkSys answers 0 [] random 0 euid.
Lemma wp_start {St A} step (init : St) (m : Sy A) euid Q answers random :
  wp step init euid m init Q → let '(r, s) := m (start answers random euid) in ∃ w, accepts step init (sy_trace s) = Some w ∧ Q r w.
Proof. intros H. destruct (H (start answers random euid) eq_refl eq_refl) as (w & _ & T & HQ). destruct (m _). eauto. Qed.
Lemma last_join p n : last (p_parts (join_name p n)) = Some n.
Proof. simpl. apply last_snoc. Qed.
Lemma parent_join p n : parent (join_name p n) = Some p.
Proof.
  transitivity (Some (mkPath (p_absolute p) (take (length (p_parts p ++ [n]) - 1) (p_parts p ++ [n])))).
  { unfold parent. simpl. by destruct (p_parts p). }
  rewrite length_app. simpl. rewrite Nat.add_sub, take_app_length. by destruct p.
Qed.

Ltac sure := unfold succeeded, not_found in *; repeat case_bool_decide; try done.
#[local] Hint Extern 0 (wp _ _ _ (mret _) _ _) => apply wp_ret : core.

(** * Reading: nothing is changed, and bytes are read only from a file that was checked *)
Module Reading.
Inductive State :=
| Closed
| Missing (p : Path)
| Opened (p : Path) (fd : Z)
| Checked (p : Path) (fd : Z) (m : Meta)
| Done (p : Path) (m : Meta) (bytes : list Z).

Definition step (euid max_len : Z) (w : State) (ev : Event) : option State :=
  let '(op, r) := ev in
  match op, w with
  | Fstat fd, Opened p fd' => Some (if (fd =? fd') && succeeded r && owner_only Regular euid (re_meta r) then Checked p fd (re_meta r) else w)
  | Lstat p, Closed => Some (if not_found r then Missing p else w)
  | (Lstat _ | Fstat _ | CurrentDir | Canonicalize _ | OpenDir _), _ => Some w
  | OpenRead p, Closed => Some (if succeeded r then Opened p (re_fd r) else if not_found r then Missing p else w)
  | Read fd limit, Checked p fd' m =>
      if (fd =? fd') && (limit =? max_len + 1) && (md_len m <=? max_len) then
        Some (if succeeded r then Done p m (take (Z.to_nat limit) (re_bytes r)) else w)
      else None
  | _, _ => None
  end.

(** What the whole operation leaves: the bytes of a checked file of the asked name, or no such file. *)
Definition leaves (path : Path) (max_len : Z) (r : IoKind + option (list Z)) (w : State) : Prop :=
  match r with
  | inr (Some b) => ∃ p m, w = Done p m b ∧ last (p_parts p) = file_name path ∧ md_len m ≤ max_len ∧ zlen b ≤ max_len
  | inr None => ∃ p, w = Missing p ∧ last (p_parts p) = file_name path
  | inl _ => True
  end.

Lemma keeps_closed euid max_len : keeps (step euid max_len) (λ w, w = Closed) (λ _, True) (looks_or_makes false).
Proof. intros w op r -> Ho. destruct op; try done; eexists; (split; [reflexivity|]); (split; [done|]); intros Hs; sure. congruence. Qed.
Lemma keeps_after euid max_len w : (∀ p fd, w ≠ Opened p fd) → w ≠ Closed → keeps (step euid max_len) (λ w', w' = w) (λ _, True) looks.
Proof. intros H1 H2 ? op r -> Ho. exists w. destruct op; try done; destruct w; naive_solver. Qed.
Lemma wp_looked euid max_len w d (Q : _ → _ → Prop) : (∀ p fd, w ≠ Opened p fd) → w ≠ Closed → Q (inr tt) w → (∀ e w', Q (inl e) w') →
  wp (step euid max_len) Closed euid (revalidate d) w Q.
Proof.
  intros H1 H2 HQ HE. eapply (wp_revalidate _ _ _ (λ w', w' = w) (λ _, True)); [by apply keeps_after|done|done| |auto].
  intros ? ->. done.
Qed.

Lemma wp_read_opened euid max_len d p fd path :
  last (p_parts p) = file_name path →
  wp (step euid max_len) Closed euid (
    opened ← fstat fd;
    validate_metadata opened true;;
    revalidate d;;
    check (md_len opened <=? max_len) InvalidData;;
    r ← call (Read fd (max_len + 1));
    let bytes := take (Z.to_nat (max_len + 1)) (re_bytes r) in
    check (zlen bytes <=? max_len) InvalidData;;
    revalidate d;;
    mret (Some bytes)) (Opened p fd) (leaves path max_len).
Proof.
  intros Hp. apply wp_bind, wp_fstat. intros r. eexists. split; [reflexivity|]. destruct (re_err r) eqn:Er; [done|].
  apply wp_bind, wp_validate_kind; [|done]. intros Ho _. specialize (Ho eq_refl). rewrite Z.eqb_refl, Ho. unfold succeeded. rewrite Er. simpl.
  apply wp_bind, wp_looked; [done|done| |done]. apply wp_bind, wp_check; [|done]. intros L.
  apply wp_bind, wp_call. intros r'. eexists. simpl. rewrite !Z.eqb_refl, L. split; [reflexivity|].
  destruct (re_err r') eqn:Er'; [done|]. apply wp_bind, wp_check; [|done]. intros L'. unfold succeeded. rewrite Er'. simpl.
  apply wp_bind, wp_looked; [done|done| |done]. apply wp_ret. do 2 eexists. repeat split; [done|lia|lia].
Qed.

Lemma wp_read euid max_len path : wp (step euid max_len) Closed euid (read_owner_only path max_len) Closed (leaves path max_len).
Proof.
  unfold read_owner_only. apply wp_bind, wp_check; [|done]. intros _. apply wp_bind.
  eapply (wp_for_path _ _ _ (λ w, w = Closed) (λ _, True) (λ _ _ w, w = Closed)); try done.
  { apply keeps_closed. }
  { intros. eapply keeps_weaken; [apply keeps_closed|]. by intros []. }
  { intros w p r ->. exists Closed. split; [done|]. by destruct (succeeded r). }
  intros d name w' Hn ->. apply wp_bind, wp_attempt, wp_lstat. intros r. eexists. split; [reflexivity|].
  pose proof (last_join (td_canonical d) name) as Hl. rewrite <- Hn in Hl. generalize dependent (join_name (td_canonical d) name). intros p Hp.
  destruct (re_err r) as [e|] eqn:Er.
  - case_bool_decide as E; [|by apply wp_throw]. subst. unfold not_found. rewrite Er. simpl.
    apply wp_bind, wp_looked; [done|done| |done]. apply wp_ret. by exists p.
  - unfold not_found. rewrite Er. simpl. apply wp_bind, wp_validate_kind; [|done]. intros _ _. apply wp_bind, wp_check; [|done]. intros _.
    apply wp_bind, wp_attempt, wp_call. intros f. eexists. split; [reflexivity|]. unfold succeeded. destruct (re_err f) as [e|] eqn:Ef; simpl.
    + case_bool_decide as E; [|by apply wp_throw]. subst. unfold not_found. rewrite Ef. simpl.
      apply wp_bind, wp_looked; [done|done| |done]. apply wp_ret. by exists p.
    + by apply wp_read_opened.
Qed.

(** C17. Whatever the system calls answer, [read_owner_only] changes nothing in the file system, reads
    only from a descriptor whose file is a regular file of the effective user with one link and
    mode 0600, and returns within the bound what it read there; it reports no file only when the
    call that looked for the asked name found none. *)
Theorem read_owner_only_sound path max_len answers random euid :
  let '(r, s) := read_owner_only path max_len (start answers random euid) in
  ∃ w, accepts (step euid max_len) Closed (sy_trace s) = Some w ∧ leaves path max_len r w.
Proof. apply wp_start, wp_read. Qed.
End Reading.

(** * Writing: the destination is replaced by one rename of a complete, synced, checked file *)
Module Writing.
Inductive Phase :=
| Untouched
| Fresh (temp : Path) (fd : Z)
| Written (temp : Path) (fd : Z)
| Synced (temp : Path) (fd : Z)
| Sealed (temp : Path)
| Ready (temp destination : Path)
| Published (destination : Path)
| Durable (destination : Path)
| Discarded (temp : Path).
Record State := mkState { w_dir : option (Path * Z); w_phase : Phase }.
Definition closed : State := mkState None Untouched.

(** The temporary that still has to be renamed or removed. *)
Definition temporary (ph : Phase) : option Path :=
  match ph with Fresh t _ | Written t _ | Synced t _ | Sealed t | Ready t _ => Some t | _ => None end.
Definition destination_ok (euid : Z) (r : Reply) : bool := not_found r || (succeeded r && owner_only Regular euid (re_meta r)).

Definition step (contents : list Z) (euid : Z) (w : State) (ev : Event) : option State :=
  let '(op, r) := ev in
  let after (ph : Phase) := Some (mkState (w_dir w) (if succeeded r then ph else w_phase w)) in
  match op, w_phase w with
  | Lstat q, (Sealed t | Ready t _) => Some (mkState (w_dir w) (if destination_ok euid r then Ready t q else Sealed t))
  | Fstat fd, Synced t fd' =>
      Some (mkState (w_dir w) (if (fd =? fd') && succeeded r && owner_only Regular euid (re_meta r) then Sealed t else w_phase w))
  | (Lstat _ | Fstat _), _ => Some w
  | (CurrentDir | Canonicalize _ | CreateDirs _), Untouched => Some w
  | OpenDir p, Untouched => Some (mkState (if succeeded r then Some (p, re_fd r) else w_dir w) Untouched)
  | CreateNew t mode, Untouched => if mode =? OWNER_ONLY_MODE then after (Fresh t (re_fd r)) else None
  | Chmod fd mode, Fresh t fd' => if (fd =? fd') && (mode =? OWNER_ONLY_MODE) then Some w else None
  | Write fd b, Fresh t fd' => if (fd =? fd') && bool_decide (b = contents) then after (Written t fd) else None
  | SyncAll fd, Written t fd' => if fd =? fd' then after (Synced t fd) else None
  | Rename a b, Ready t q =>
      if bool_decide (a = t) && bool_decide (b = q) && bool_decide (parent q = fst <$> w_dir w) then after (Published q) else None
  | SyncAll fd, Published q => if bool_decide (w_dir w = Some (default (mkPath false []) (parent q), fd)) then after (Durable q) else None
  | Unlink a, _ => if bool_decide (temporary (w_phase w) = Some a) then Some (mkState (w_dir w) (Discarded a)) else None
  | _, _ => None
  end.

(** A write that succeeds has made the new contents durable under the asked name; a write that
    fails has no temporary left to remove, and has at most published the complete contents. *)
Definition leaves (path : Path) (r : IoKind + unit) (w : State) : Prop :=
  match r, w_phase w with
  | inr _, Durable q => last (p_parts q) = file_name path
  | inl _, (Untouched | Discarded _) => True
  | inl _, Published q => last (p_parts q) = file_name path
  | _, _ => False
  end.

Section Proofs.
Context (contents : list Z) (euid : Z).

Lemma keeps_untouched o : keeps (step contents euid) (λ w, w = mkState o Untouched) (λ w, w_phase w = Untouched) (looks_or_makes true).
Proof. intros w op r -> Ho. exists (mkState o Untouched). by destruct op. Qed.
(** A phase in which looking at files changes nothing. *)
Definition steady (w : State) : bool := match w_phase w with Untouched | Synced _ _ | Sealed _ | Ready _ _ => false | _ => true end.
Lemma keeps_steady w : steady w = true → keeps (step contents euid) (λ w', w' = w) (λ w', w' = w) looks.
Proof. intros H ? op r -> Ho. exists w. destruct op; try done; by destruct w as [? []]. Qed.
Lemma keeps_sealed d t : keeps (step contents euid) (λ w, w = mkState d (Sealed t)) (λ w, temporary (w_phase w) = Some t) looks.
Proof.
  intros w op r -> Ho. destruct op; try done; simpl; eexists; (split; [reflexivity|]); (split; [by destruct (destination_ok euid r)|]); [|done].
  intros Hs Hd. unfold destination_ok, owner_only, not_found, succeeded in *. specialize (Hd eq_refl). rewrite Hd.
  sure; try congruence.
Qed.
Lemma wp_or_drop {A} t (m : Sy A) w (Q : _ → _ → Prop) :
  wp (step contents euid) closed euid m w (λ r w', match r with inr a => Q (inr a) w' | inl e => temporary (w_phase w') = Some t ∧ Q (inl e) (mkState (w_dir w') (Discarded t)) end) →
  wp (step contents euid) closed euid (or_drop t m) w Q.
Proof.
  intros H. apply wp_bind, wp_attempt. eapply wp_mono; [exact H|]. intros [e|a] w' HQ; [|by apply wp_ret].
  destruct HQ as [Ht HQ]. apply wp_bind, wp_attempt, wp_call. intros r. eexists. split.
  { simpl. destruct (w_phase w'); (rewrite bool_decide_true; [reflexivity|done]). }
  by apply wp_throw.
Qed.

Definition made (d : option (Path * Z)) (r : IoKind + Path * Z) (w : State) : Prop :=
  match r with
  | inr (t, fd) => w = mkState d (Fresh t fd)
  | inl _ => w_phase w = Untouched ∨ ∃ t, w_phase w = Discarded t
  end.
Lemma wp_fresh d t fd (Q : _ → _ → Prop) : Q (inr (t, fd)) (mkState d (Fresh t fd)) → (∀ e, Q (inl e) (mkState d (Discarded t))) →
  wp (step contents euid) closed euid (or_drop t (
    m ← fstat fd; validate_metadata m false;; set_exact_mode fd;; m ← fstat fd; validate_metadata m true;; mret (t, fd))) (mkState d (Fresh t fd)) Q.
Proof.
  intros H1 H2. apply wp_or_drop, wp_bind, wp_fstat. intros r. eexists. split; [reflexivity|]. destruct (re_err r); [by split|].
  apply wp_bind, wp_validate_kind; [|by split]. intros _ _. apply wp_bind, wp_bind, wp_call. intros r'. eexists.
  split; [simpl; by rewrite Z.eqb_refl|]. destruct (re_err r'); [by split|]. apply wp_ret, wp_bind, wp_fstat. intros r2.
  eexists. split; [reflexivity|]. destruct (re_err r2); [by split|]. apply wp_bind, wp_validate_kind; [|by split]. intros _ _. by apply wp_ret.
Qed.
Lemma wp_create_temp d n next_path : (∀ w, wp (step contents euid) closed euid next_path w (λ _ w', w' = w)) →
  wp (step contents euid) closed euid (create_temp_with n next_path) (mkState d Untouched) (made d).
Proof.
  intros Hn. induction n as [|n IH]; [by apply wp_throw; left|]. simpl. apply wp_bind. eapply wp_mono; [apply Hn|].
  intros [e|t] ? ->; [by left|]. apply wp_bind, wp_attempt, wp_call. intros r. eexists. split; [reflexivity|]. unfold succeeded.
  destruct (re_err r) as [e|] eqn:Er; simpl.
  - case_bool_decide; [done|]. apply wp_throw. by left.
  - apply wp_fresh; [done|]. intros e. right. by exists t.
Qed.
Lemma wp_random_path path w : wp (step contents euid) closed euid (random_temp_path path) w (λ _ w', w' = w).
Proof.
  apply wp_bind. destruct (file_name path); [|by apply wp_throw]. apply wp_ret, wp_bind, wp_random. intros b. by apply wp_ret.
Qed.
Lemma wp_validate_destination q w (Q : _ → _ → Prop) :
  (∀ r, ∃ w', step contents euid w (Lstat q, r) = Some w' ∧ (destination_ok euid r = true → Q (inr tt) w') ∧ ∀ e, Q (inl e) w') →
  wp (step contents euid) closed euid (validate_destination q) w Q.
Proof.
  intros H. apply wp_bind, wp_attempt, wp_lstat. intros r. destruct (H r) as (w' & Hs & H1 & H2). exists w'. split; [done|].
  unfold destination_ok, not_found, succeeded in H1. destruct (re_err r) as [e|].
  - destruct (decide (e = NotFound)) as [->|E]; [by apply wp_ret, H1|]. rewrite (bool_decide_false (e = _)) by done. by apply wp_throw.
  - apply wp_validate_kind; [|done]. intros Ho _. apply H1. by rewrite Ho.
Qed.
(** Everything between the creation of the temporary and the rename. *)
Lemma wp_publish d t fd name :
  wp (step contents euid) closed euid (publish d t fd (join_name (td_canonical d) name) contents) (mkState (Some (td_canonical d, td_file d)) (Fresh t fd))
    (λ r w, match r with
            | inr _ => w = mkState (Some (td_canonical d, td_file d)) (Published (join_name (td_canonical d) name))
            | inl _ => temporary (w_phase w) = Some t
            end).
Proof.
  set (dir := Some (td_canonical d, td_file d)). set (q := join_name (td_canonical d) name).
  unfold publish. apply wp_bind, wp_call. intros r. eexists. split; [simpl; by rewrite Z.eqb_refl, bool_decide_true|].
  destruct (re_err r) eqn:Er; unfold succeeded; rewrite Er; [done|].
  apply wp_bind, wp_call. intros r1. eexists. split; [simpl; by rewrite Z.eqb_refl|].
  destruct (re_err r1) eqn:Er1; unfold succeeded; rewrite Er1; [done|].
  apply wp_bind, wp_fstat. intros r2. eexists. split; [reflexivity|]. destruct (re_err r2) eqn:Er2; simpl.
  { unfold succeeded. rewrite Er2, andb_false_r. done. }
  apply wp_bind, wp_validate_kind; [|by destruct (_ && _)]. intros Ho _. rewrite Ho, Z.eqb_refl by done. unfold succeeded. rewrite Er2. simpl.
  apply wp_bind. eapply wp_revalidate; [apply keeps_sealed|by intros ? ->|reflexivity| |auto]. intros ? ->.
  apply wp_bind. eapply wp_revalidate; [apply keeps_sealed|by intros ? ->|reflexivity| |auto]. intros ? ->.
  apply wp_bind, wp_validate_destination. intros r3.
  exists (mkState dir (if destination_ok euid r3 then Ready t q else Sealed t)). split; [done|].
  split; [|by destruct (destination_ok euid r3)]. intros ->. apply wp_bind, wp_call. intros r4. eexists. split.
  { simpl. rewrite !bool_decide_true; [reflexivity|apply parent_join|done|done]. }
  destruct (re_err r4) eqn:Er4; unfold succeeded; rewrite Er4; [done|]. by apply wp_ret.
Qed.
Lemma wp_write path next_path : (∀ w, wp (step contents euid) closed euid next_path w (λ _ w', w' = w)) →
  wp (step contents euid) closed euid (atomic_write_owner_only_with path contents next_path) closed (leaves path).
Proof.
  intros Hn. apply wp_bind.
  eapply (wp_for_path _ _ _ (λ w, w = closed) (λ w, w_phase w = Untouched) (λ p fd w, w = mkState (Some (p, fd)) Untouched)).
  { apply keeps_untouched. }
  { intros. eapply keeps_weaken; [apply keeps_untouched|]. by intros []. }
  { intros w p r ->. eexists. split; [reflexivity|]. by destruct (succeeded r). }
  { by intros ? ->. }
  { by intros ??? ->. }
  { done. }
  2: { intros e w' H. unfold leaves. by rewrite H. }
  intros d name ? Hf ->. apply wp_bind, wp_validate_destination. intros r. eexists. split; [reflexivity|]. split; [intros _|done].
  apply wp_bind. eapply wp_mono; [by apply wp_create_temp|]. intros [e|[t fd]] w H; unfold made in H.
  { unfold leaves. destruct H as [H|[t H]]; by rewrite H. }
  subst. apply wp_bind, wp_or_drop. eapply wp_mono; [apply wp_publish|]. intros [e|[]] w H; [done|]. subst.
  pose proof (last_join (td_canonical d) name) as Hl. pose proof (parent_join (td_canonical d) name) as Hp.
  rewrite <- Hf in Hl. generalize dependent (join_name (td_canonical d) name). intros q Hl Hp.
  apply wp_bind. eapply wp_revalidate; [by apply (keeps_steady (mkState (Some (td_canonical d, td_file d)) (Published q)))|done|reflexivity| |by intros ?? ->]. intros ? ->.
  apply wp_bind, wp_call. intros r1. eexists. split; [simpl; by rewrite Hp, bool_decide_true|].
  destruct (re_err r1) eqn:Er; unfold succeeded; rewrite Er; [done|]. by apply wp_ret.
Qed.
End Proofs.

(** C14. Whatever the system calls answer, every call of [atomic_write_owner_only] follows the protocol:
    an exclusive temporary of mode 0600 gets the complete contents, is synced, is checked to be
    the user's own file, the destination is checked, and only then one rename replaces it in the
    opened directory, which is synced last.  So the destination has at every moment its old
    contents or the complete new ones.  Success means the rename is durable; a failure removes
    the temporary, or comes after the complete contents were published. *)
Theorem atomic_write_protocol path contents answers random euid :
  let '(r, s) := atomic_write_owner_only path contents (start answers random euid) in
  ∃ w, accepts (step contents euid) closed (sy_trace s) = Some w ∧ leaves path r w.
Proof. apply wp_start, wp_write, wp_random_path. Qed.
End Writing.

(** * Fifos: the opened fifo is the user's own and is the one its name names *)
Module FifoOpening.
Inductive Phase :=
| NotOpen
| Opened (fd : Z) (name : list Z)
| Seen (fd : Z) (name : list Z) (m : Meta)
| Named (fd : Z) (name : list Z) (m : Meta).
Record State := mkState { w_dir : option (Path * Z); w_made : option (list Z); w_removed : bool; w_phase : Phase }.
Definition closed : State := mkState None None false NotOpen.

Definition step (euid : Z) (w : State) (ev : Event) : option State :=
  let '(op, r) := ev in
  let to (ph : Phase) := Some (mkState (w_dir w) (w_made w) (w_removed w) ph) in
  match op, w_phase w with
  | Fstat fd, (Opened fd' n | Seen fd' n _) => to (if (fd =? fd') && succeeded r && owner_only Fifo euid (re_meta r) then Seen fd n (re_meta r) else w_phase w)
  | Lstat p, (Seen fd n m | Named fd n m) =>
      to (if bool_decide (Some p = (λ d, join_name (fst d) n) <$> w_dir w) && succeeded r && owner_only Fifo euid (re_meta r) && same_inode m (re_meta r)
          then Named fd n m else Seen fd n m)
  | (Lstat _ | Fstat _), _ => Some w
  | (CurrentDir | Canonicalize _ | CreateDirs _), NotOpen => Some w
  | OpenDir p, NotOpen => if bool_decide (is_Some (w_made w)) then None else Some (mkState (if succeeded r then Some (p, re_fd r) else w_dir w) None (w_removed w) NotOpen)
  | MkfifoAt d n mode, NotOpen =>
      if bool_decide (snd <$> w_dir w = Some d) && (mode =? OWNER_ONLY_MODE) then
        Some (mkState (w_dir w) (if succeeded r then Some n else w_made w) (w_removed w) NotOpen)
      else None
  | OpenFifoAt d n, NotOpen =>
      if bool_decide (snd <$> w_dir w = Some d) then to (if succeeded r then Opened (re_fd r) n else NotOpen) else None
  | Chmod fd mode, (Opened fd' n | Seen fd' n _) =>
      if (fd =? fd') && (mode =? OWNER_ONLY_MODE) && bool_decide (w_made w = Some n) then to (Opened fd n) else None
  | SyncAll d, _ => if bool_decide (snd <$> w_dir w = Some d) && bool_decide (is_Some (w_made w)) then Some w else None
  | UnlinkAt d n, _ =>
      if bool_decide (snd <$> w_dir w = Some d) && bool_decide (w_made w = Some n) then Some (mkState (w_dir w) (w_made w) true (w_phase w)) else None
  | _, _ => None
  end.
(** A failed opening has removed the fifo it made. *)
Definition leaves (path : Path) (r : IoKind + Z) (w : State) : Prop :=
  match r with
  | inr fd => ∃ name m, w_phase w = Named fd name m ∧ file_name path = Some name ∧ w_removed w = false
  | inl _ => w_made w = None ∨ w_removed w = true
  end.

Section Proofs.
Context (euid : Z).

Lemma keeps_not_open d made : keeps (step euid) (λ w, w = mkState d made false NotOpen) (λ w, w = mkState d made false NotOpen) (looks_or_makes true).
Proof. intros w op r -> Ho. exists (mkState d made false NotOpen). by destruct op. Qed.
(** Everything but the phase. *)
Definition within (d : option (Path * Z)) (made : option (list Z)) (w : State) : Prop := ∃ ph, w = mkState d made false ph.
Lemma keeps_seen d made fd n m : keeps (step euid) (λ w, w = mkState d made false (Seen fd n m)) (within d made) looks.
Proof.
  intros w op r -> Ho. destruct op; try done; simpl; eexists; (split; [reflexivity|]); (split; [by eexists|]); intros Hs Hd;
    specialize (Hd eq_refl); unfold owner_only; rewrite Hd, (bool_decide_false (Directory = Fifo)) by done; simpl; by rewrite andb_false_r.
Qed.

Lemma wp_fifo_opened d name (created : bool) :
  let dir := Some (td_canonical d, td_file d) in
  let made := if created then Some name else None in
  wp (step euid) closed euid (fifo_opened d (join_name (td_canonical d) name) name created) (mkState dir made false NotOpen)
    (λ r w, match r with inr fd => ∃ m, w = mkState dir made false (Named fd name m) | inl _ => within dir made w end).
Proof.
  intros dir made. assert (∀ ph, within dir made (mkState dir made false ph)) as Hw by (by eexists).
  unfold fifo_opened. apply wp_bind, wp_lstat. intros r. eexists. split; [reflexivity|]. destruct (re_err r); [done|].
  apply wp_bind, wp_validate_kind; [|done]. intros _ _. apply wp_bind.
  eapply wp_revalidate; [eapply keeps_weaken; [apply keeps_not_open|by intros []]|done|reflexivity| |by intros ?? ->]. intros ? ->.
  apply wp_bind, wp_call. intros f. eexists. split; [simpl; by rewrite bool_decide_true|].
  destruct (re_err f) eqn:Ef; unfold succeeded; rewrite Ef; [done|]. simpl. set (fd := re_fd f).
  apply wp_bind, wp_fstat. intros r1. eexists. split; [reflexivity|]. destruct (re_err r1); [by eexists|].
  apply wp_bind, wp_validate_kind; [|by eexists]. intros _ _. simpl.
  set (ph := if _ && _ then Seen fd name (re_meta r1) else Opened fd name).
  assert (ph = Opened fd name ∨ ph = Seen fd name (re_meta r1)) as Hph by (unfold ph; destruct (_ && _); auto). clearbody ph.
  apply wp_bind. apply wp_mono with (Q := λ r w, match r with inr _ => ∃ ph, w = mkState dir made false ph ∧ (ph = Opened fd name ∨ ph = Seen fd name (re_meta r1)) | inl _ => within dir made w end).
  { destruct created; [|apply wp_ret; eauto]. apply wp_bind, wp_call. intros r2. exists (mkState dir made false (Opened fd name)).
    split; [destruct Hph as [->| ->]; simpl; by rewrite Z.eqb_refl, bool_decide_true|]. destruct (re_err r2); [done|]. apply wp_ret. eauto. }
  clear Hph ph. intros [e|[]] w H; [done|]. destruct H as (ph & -> & Hph).
  apply wp_bind, wp_fstat. intros r3. eexists. split; [destruct Hph as [->| ->]; reflexivity|]. destruct (re_err r3) eqn:Er3; [by eexists|].
  apply wp_bind, wp_validate_kind; [|by eexists]. intros Ho _. rewrite Ho, Z.eqb_refl by done. unfold succeeded. rewrite Er3. simpl.
  apply wp_bind. eapply wp_revalidate; [apply keeps_seen|by intros ? ->|reflexivity| |done]. intros ? ->.
  apply wp_bind, wp_lstat. intros r4. eexists. split; [reflexivity|]. destruct (re_err r4) eqn:Er4; [by eexists|].
  apply wp_bind, wp_validate_kind; [|by eexists]. intros Ho' _. apply wp_bind, wp_check; [|by eexists]. intros Hi.
  rewrite Ho', Hi by done. unfold succeeded. rewrite Er4. simpl. rewrite bool_decide_true by done. simpl. apply wp_bind.
  destruct created; [|apply wp_ret, wp_ret; by eexists]. apply wp_bind, wp_call. intros r5. eexists.
  split; [simpl; by rewrite !bool_decide_true|]. destruct (re_err r5); [by eexists|]. apply wp_ret, wp_ret. by eexists.
Qed.

(** The fifo that was made goes with the error. *)
Lemma wp_unmake d name (created : bool) e w path :
  within (Some (td_canonical d, td_file d)) (if created then Some name else None) w →
  wp (step euid) closed euid
    ((if created then attempt (call (UnlinkAt (td_file d) name));; attempt (sync d);; mret tt else mret tt);; throw (A := Z) e) w (leaves path).
Proof.
  intros [ph ->]. destruct created; [|apply wp_bind, wp_ret, wp_throw; by left].
  apply wp_bind, wp_bind, wp_attempt, wp_call. intros r. eexists. split; [simpl; by rewrite !bool_decide_true|].
  apply wp_bind, wp_attempt, wp_bind, wp_call. intros r'. eexists. split; [simpl; by rewrite !bool_decide_true|].
  destruct (re_err r'); [|apply wp_ret]; apply wp_ret, wp_throw; by right.
Qed.
Lemma wp_fifo path : wp (step euid) closed euid (open_owner_only_fifo path) closed (leaves path).
Proof.
  unfold open_owner_only_fifo. destruct (file_name path) as [name|] eqn:En; [|by apply wp_bind, wp_throw; left].
  apply wp_bind, wp_ret, wp_bind, wp_check; [|by left]. intros _. apply wp_bind.
  eapply (wp_for_path _ _ _ (λ w, w = closed) (λ w, w_made w = None) (λ p fd w, w = mkState (Some (p, fd)) None false NotOpen)).
  { intros w op r Hw Ho. destruct (keeps_not_open None None w op r Hw Ho) as (w' & ? & -> & ?). eauto. }
  { intros p fd w op r Hw Ho. destruct (keeps_not_open (Some (p, fd)) None w op r Hw) as (w' & ? & -> & ?); [by destruct op|eauto]. }
  { intros w p r ->. eexists. split; [reflexivity|]. by destruct (succeeded r). }
  { by intros ? ->. }
  { by intros ??? ->. }
  { done. }
  2: { intros e w' H. by left. }
  intros d name' ? Hn ->. replace name' with name by congruence. apply wp_bind, wp_attempt, wp_call. intros r. eexists.
  split; [simpl; by rewrite bool_decide_true|]. apply wp_bind.
  apply wp_mono with (Q := λ c w, match c with
    | inr created => w = mkState (Some (td_canonical d, td_file d)) (if created : bool then Some name else None) false NotOpen
    | inl _ => w_made w = None end).
  { unfold succeeded. destruct (re_err r) as [e|]; [|by apply wp_ret].
    destruct (decide (e = AlreadyExists)) as [->|He]; [by apply wp_ret|]. rewrite (bool_decide_false (e = _)) by done. by apply wp_throw. }
  intros [e|created] w H; [by left|]. subst. apply wp_bind, wp_attempt. eapply wp_mono; [apply wp_fifo_opened|].
  intros [e|fd] w H; [by apply wp_unmake|]. destruct H as [m ->]. apply wp_ret. by exists name, m.
Qed.
End Proofs.

(** C18. Whatever the system calls answer, a fifo that [create_fifo] returns is a fifo of the effective
    user with one link and mode 0600, and the asked name in the opened directory names that same
    inode; its mode is changed and its entry removed only when this call made it, and a call
    that fails has removed the entry it made. *)
Theorem create_fifo_sound path answers random euid :
  let '(r, s) := create_fifo path (start answers random euid) in
  ∃ w, accepts (step euid) closed (sy_trace s) = Some w ∧ leaves path r w.
Proof. apply wp_start, wp_fifo. Qed.
End FifoOpening.

(** * Locks: the action runs only while the named lock file is locked *)
Module Locking.
Inductive Phase :=
| NotOpen
| Opened (p : Path) (fd : Z) (created : bool)
| Locked (p : Path) (fd : Z)
| FileSynced (p : Path) (fd : Z)
| Settled (p : Path) (fd : Z)
| Seen (p : Path) (fd : Z) (m : Meta)
| Named (p : Path) (fd : Z) (m : Meta).
Record State := mkState { w_dir : option (Path * Z); w_phase : Phase }.
Definition closed : State := mkState None NotOpen.

Definition step (euid : Z) (w : State) (ev : Event) : option State :=
  let '(op, r) := ev in
  let to (ph : Phase) := Some (mkState (w_dir w) ph) in
  let after (ph : Phase) := to (if succeeded r then ph else w_phase w) in
  match op, w_phase w with
  | Fstat fd, (Settled p fd' | Seen p fd' _) => to (if (fd =? fd') && succeeded r && owner_only Regular euid (re_meta r) then Seen p fd (re_meta r) else w_phase w)
  | Lstat q, (Seen p fd m | Named p fd m) =>
      to (if bool_decide (q = p) && succeeded r && owner_only Regular euid (re_meta r) && same_inode m (re_meta r) then Named p fd m else Seen p fd m)
  | (Lstat _ | Fstat _), _ => Some w
  | (CurrentDir | Canonicalize _ | CreateDirs _), NotOpen => Some w
  | OpenDir p, NotOpen => Some (mkState (if succeeded r then Some (p, re_fd r) else w_dir w) NotOpen)
  | OpenReadWrite p, NotOpen => after (Opened p (re_fd r) false)
  | CreateNew p mode, NotOpen => if mode =? OWNER_ONLY_MODE then after (Opened p (re_fd r) true) else None
  | Chmod fd mode, Opened p fd' true => if (fd =? fd') && (mode =? OWNER_ONLY_MODE) then Some w else None
  | Flock fd, Opened p fd' created => if fd =? fd' then after (if created then Locked p fd else Settled p fd) else None
  | SyncAll fd, Locked p fd' => if fd =? fd' then after (FileSynced p fd) else None
  | SyncAll d, FileSynced p fd => if bool_decide (snd <$> w_dir w = Some d) then after (Settled p fd) else None
  | _, _ => None
  end.
(** The lock file of the asked name is locked, durable when this call created it, and still named. *)
Definition held (path : Path) (w : State) : Prop := ∃ p fd m, w_phase w = Named p fd m ∧ last (p_parts p) = file_name path.

Section Proofs.
Context (euid : Z).

Lemma keeps_unlocked d : keeps (step euid) (λ w, w = mkState d NotOpen) (λ _, True) (looks_or_makes true).
Proof. intros w op r -> Ho. exists (mkState d NotOpen). by destruct op. Qed.
Lemma keeps_settled d p fd : keeps (step euid) (λ w, w = mkState d (Settled p fd)) (λ _, True) looks.
Proof.
  intros w op r -> Ho. destruct op; try done; simpl; eexists; (split; [reflexivity|]); (split; [done|]); intros Hs Hd; [done|].
  specialize (Hd eq_refl). unfold owner_only. rewrite Hd, (bool_decide_false (Directory = Regular)) by done. simpl. by rewrite andb_false_r.
Qed.

Definition opened (d : option (Path * Z)) (p : Path) (r : IoKind + Z * bool) (w : State) : Prop :=
  match r with inr (fd, created) => w = mkState d (Opened p fd created) | inl _ => True end.
Lemma wp_created d p fd : wp (step euid) closed euid
  (m ← fstat fd; validate_metadata m false;; set_exact_mode fd;; m ← fstat fd; validate_metadata m true;; mret (fd, true)) (mkState d (Opened p fd true)) (opened d p).
Proof.
  apply wp_bind, wp_fstat. intros r. eexists. split; [reflexivity|]. destruct (re_err r); [done|].
  apply wp_bind, wp_validate_kind; [|done]. intros _ _. apply wp_bind, wp_bind, wp_call. intros r'. eexists.
  split; [simpl; by rewrite Z.eqb_refl|]. destruct (re_err r'); [done|]. apply wp_ret, wp_bind, wp_fstat. intros r2.
  eexists. split; [reflexivity|]. destruct (re_err r2); [done|]. apply wp_bind, wp_validate_kind; [|done]. intros _ _. by apply wp_ret.
Qed.
Lemma wp_open_or_create d p n : wp (step euid) closed euid (open_or_create_lock n p) (mkState d NotOpen) (opened d p).
Proof.
  induction n as [|n IH]; [by apply wp_throw|]. simpl. apply wp_bind, wp_attempt, wp_lstat. intros r. eexists. split; [reflexivity|].
  destruct (re_err r) as [e|] eqn:Er.
  - case_bool_decide; [|by apply wp_throw]. apply wp_bind, wp_attempt, wp_bind, wp_call. intros r'. eexists. split; [reflexivity|].
    unfold succeeded. destruct (re_err r') as [e'|] eqn:Er'; simpl; [case_bool_decide; [done|by apply wp_throw]|]. apply wp_ret, wp_created.
  - apply wp_bind, wp_validate_kind; [|done]. intros _ _. apply wp_bind, wp_attempt, wp_bind, wp_call. intros r'. eexists. split; [reflexivity|].
    unfold succeeded. destruct (re_err r') as [e'|] eqn:Er'; simpl; [case_bool_decide; [done|by apply wp_throw]|].
    apply wp_ret, wp_bind, wp_fstat. intros r2. eexists. split; [reflexivity|]. destruct (re_err r2); [done|].
    apply wp_bind, wp_validate_kind; [|done]. intros _ _. by apply wp_ret.
Qed.
Lemma wp_lock_exclusive d p fd (created : bool) n : wp (step euid) closed euid (lock_exclusive n fd) (mkState d (Opened p fd created))
  (λ r w, match r with inr _ => w = mkState d (if created then Locked p fd else Settled p fd) | inl _ => True end).
Proof.
  induction n as [|n IH]; [by apply wp_throw|]. simpl. apply wp_bind, wp_attempt, wp_call. intros r. eexists.
  split; [simpl; by rewrite Z.eqb_refl|]. unfold succeeded. destruct (re_err r); simpl; [case_bool_decide; [done|by apply wp_throw]|by apply wp_ret].
Qed.
Lemma wp_lock_path d p fd path : last (p_parts p) = file_name path → wp (step euid) closed euid (validate_lock_path p fd) (mkState d (Settled p fd))
  (λ r w, match r with inr _ => held path w | inl _ => True end).
Proof.
  intros Hp. apply wp_bind, wp_fstat. intros r. eexists. split; [reflexivity|]. destruct (re_err r) eqn:Er; [done|].
  apply wp_bind, wp_validate_kind; [|done]. intros Ho _. rewrite Ho, Z.eqb_refl by done. unfold succeeded. rewrite Er. simpl.
  apply wp_bind, wp_lstat. intros r'. eexists. split; [reflexivity|]. destruct (re_err r') eqn:Er'; [done|].
  apply wp_bind, wp_validate_kind; [|done]. intros Ho' _. apply wp_check; [|done]. intros Hi.
  rewrite Ho', Hi, bool_decide_true by done. unfold succeeded. rewrite Er'. simpl. by do 3 eexists.
Qed.
Lemma wp_lock fuel path : wp (step euid) closed euid (with_owner_only_lock fuel path (mret tt)) closed
  (λ r w, match r with inr _ => held path w | inl _ => True end).
Proof.
  apply wp_bind. eapply (wp_for_path _ _ _ (λ w, w = closed) (λ _, True) (λ p fd w, w = mkState (Some (p, fd)) NotOpen)); try done.
  { apply keeps_unlocked. }
  { intros. eapply keeps_weaken; [apply keeps_unlocked|]. by intros []. }
  { intros w p r ->. eexists. split; [reflexivity|]. by destruct (succeeded r). }
  intros d name ? Hf ->. pose proof (last_join (td_canonical d) name) as Hl. rewrite <- Hf in Hl.
  generalize dependent (join_name (td_canonical d) name). intros q Hl.
  apply wp_bind. eapply wp_mono; [apply wp_open_or_create|]. intros [e|[fd created]] w H; [done|]. unfold opened in H. subst.
  apply wp_bind. eapply wp_mono; [apply wp_lock_exclusive|]. intros [e|[]] w H; [done|]. subst. apply wp_bind.
  apply wp_mono with (Q := λ r w, match r with inr _ => w = mkState (Some (td_canonical d, td_file d)) (Settled q fd) | inl _ => True end).
  { destruct created; [|by apply wp_ret]. apply wp_bind, wp_call. intros r. eexists. split; [simpl; by rewrite Z.eqb_refl|].
    unfold succeeded. destruct (re_err r); [done|]. apply wp_bind, wp_call. intros r'. eexists. split; [simpl; by rewrite bool_decide_true|].
    unfold succeeded. destruct (re_err r'); [done|]. by apply wp_ret. }
  intros [e|[]] w H; [done|]. subst. apply wp_bind.
  eapply wp_revalidate; [apply keeps_settled|done|reflexivity| |done]. intros ? ->.
  apply wp_bind. eapply wp_mono; [by apply wp_lock_path|]. intros [e|[]] w H; [done|]. by apply wp_ret.
Qed.
End Proofs.

Lemma Sy_assoc {A B C} (m : Sy A) (f : A → Sy B) (g : B → Sy C) s : ((m ≫= f) ≫= g) s = (m ≫= λ a, f a ≫= g) s.
Proof. unfold mbind, Sy_bind. by destruct (m s) as [[]]. Qed.
Lemma Sy_ext {A B} (m : Sy A) (f g : A → Sy B) s : (∀ a s', f a s' = g a s') → (m ≫= f) s = (m ≫= g) s.
Proof. intros H. unfold mbind, Sy_bind. destruct (m s) as [[]]; auto. Qed.
(** The lock is taken first, and then the action runs. *)
Lemma with_lock_bind {T} fuel path (action : Sy T) s :
  with_owner_only_lock fuel path action s = (with_owner_only_lock fuel path (mret tt) ≫= λ _, action) s.
Proof.
  unfold with_owner_only_lock. rewrite Sy_assoc. apply Sy_ext. intros [d p] s1.
  rewrite Sy_assoc. apply Sy_ext. intros [fd created] s2. do 4 (rewrite Sy_assoc; apply Sy_ext; intros ? ?). done.
Qed.
(** The loop ends when the lock is granted or refused. *)
Lemma lock_exclusive_ends fuel fd s : (∃ n, (n < fuel)%nat ∧ re_err (sy_answers s (sy_pos s + n)) ≠ Some Interrupted) →
  (lock_exclusive fuel fd s).1 ≠ inl Interrupted.
Proof.
  revert s. induction fuel as [|fuel IH]; intros s [n [Hn Ha]]; [lia|]. simpl. unfold mbind, Sy_bind, attempt, call.
  destruct (re_err (sy_answers s (sy_pos s))) as [e|] eqn:E; [|done]. case_bool_decide; [|naive_solver]. subst.
  destruct n as [|n]; [rewrite Nat.add_0_r in Ha; congruence|]. apply IH. exists n. simpl. split; [lia|]. by rewrite <- Nat.add_succ_r.
Qed.

(** C16. Whatever the system calls answer, the action of [with_owner_only_lock] runs only after the lock
    file of the asked name, a regular file of the effective user with one link and mode 0600, was
    locked, made durable when this call created it, and found to be still the file that its name
    names; otherwise the call fails the same whatever the action is. *)
Theorem with_lock_sound {T} fuel path (action : Sy T) answers random euid :
  (∃ s w, with_owner_only_lock fuel path action (start answers random euid) = action s ∧
          accepts (step euid) closed (sy_trace s) = Some w ∧ held path w) ∨
  (∃ e s w, (∀ action' : Sy T, with_owner_only_lock fuel path action' (start answers random euid) = (inl e, s)) ∧
            accepts (step euid) closed (sy_trace s) = Some w).
Proof.
  pose proof (wp_start (step euid) closed _ euid _ answers random (wp_lock euid fuel path)) as H.
  destruct (with_owner_only_lock fuel path (mret tt) (start answers random euid)) as [[e|[]] s] eqn:E; destruct H as (w & Ha & Hw).
  - right. exists e, s, w. split; [|done]. intros action'. rewrite with_lock_bind. unfold mbind, Sy_bind. by rewrite E.
  - left. exists s, w. split; [|done]. rewrite with_lock_bind. unfold mbind, Sy_bind. by rewrite E.
Qed.
End Locking.

(** * Runs on a file system where every call finds what it should *)
Module Runs.
Definition dir : Path := mkPath true [str "run"].
Definition path : Path := mkPath true [str "run"; str "state"].
Definition meta (kind : FileKind) (mode ino : Z) : Meta := mkMeta kind 7 1 mode 3 1 ino.
(** [d]: about the directory, [f]: about the file, [n]: no such file, [x]: another error *)
Definition reply (kind : FileKind) (c : ascii) : Reply :=
  match c with
  | "d"%char => mkReply None (meta Directory 448 10) 3 dir []
  | "n"%char => mkReply (Some NotFound) (meta OtherKind 0 0) 0 dir []
  | "x"%char => mkReply (Some OtherIo) (meta OtherKind 0 0) 0 dir []
  | _ => mkReply None (meta kind 384 11) 4 dir [104; 105]
  end.
Definition answers (kind : FileKind) (script : string) (n : nat) : Reply :=
  reply kind (default "x"%char (String.get n script)).
Definition run {A} (kind : FileKind) (script : string) (m : Sy A) : (IoKind + A) * Sys := m (start (answers kind script) (λ _, repeat 0 16) 7).

Example read_runs :
  (run Regular "dddddddfffdddfddd" (read_owner_only path 100)).1 = inr (Some [104; 105]) ∧
  (run Regular "dddddddnddd" (read_owner_only path 100)).1 = inr None ∧
  (run Regular "dddddddf" (read_owner_only path 2)).1 = inl InvalidData.
Proof. split_and!; vm_compute; reflexivity. Qed.
Definition write_phase (script : string) : option Writing.Phase :=
  Writing.w_phase <$> accepts (Writing.step [1; 2] 7) Writing.closed (sy_trace (run Regular script (atomic_write_owner_only path [1; 2])).2).
Example write_runs :
  (run Regular "ddddddddnfffffffddddddnfdddd" (atomic_write_owner_only path [1; 2])).1 = inr tt ∧
  write_phase "ddddddddnfffffffddddddnfdddd" = Some (Writing.Durable path) ∧
  write_phase "ddddddddnfffffffddddddnfdddx" = Some (Writing.Published path) ∧
  write_phase "ddddddddnfffffx" = Some (Writing.Discarded (mkPath true [str "run"; str "state.tmp.00000000000000000000000000000000"])).
Proof. split_and!; vm_compute; reflexivity. Qed.
Example fifo_runs :
  (run Fifo "ddddddddffdddffffdddfd" (create_fifo path)).1 = inr 4 ∧
  (run Fifo "ddddddddffdddfx" (create_fifo path)).1 = inl OtherIo.
Proof. split_and!; vm_compute; reflexivity. Qed.
Example lock_runs :
  (run Regular "ddddddddffffdddff" (with_owner_only_lock 1 path (mret 5))).1 = inr 5.
Proof. vm_compute. reflexivity. Qed.
End Runs.
