(* ===== verification/Dns.v ===== *)
(** The resolver: [src/src/dns.rs].

    Messages are encoded and decoded by the hickory-proto crate, which is the class [DnsLib]: its
    names with their comparison, and its codec; a message is what its accessors return.  Sockets
    and the monotonic clock are the record [Net]: an arbitrary exchange for every socket opened
    and connected to a server, and arbitrary readings of the clock, in nanoseconds; what is sent
    to whom is logged. *)
From stdpp Require Import strings.
From S2P Require Import Prelude Text Ip World EndpointState EndpointCache.

Definition TTL_MIN_SECS : Z := 10.
Definition TTL_MAX_SECS : Z := 3600.
Definition MAX_CNAME_HOPS : nat := 8.
Definition MAX_TCP_MESSAGE : Z := 65535.
Definition U32_MAX : Z := 2 ^ 32 - 1.

(** * Messages *)
Inductive RData (N : Type) := RA (ip : Ipv4Addr) | RCname (target : N) | ROther.
Arguments RA {N} _.
Arguments RCname {N} _.
Arguments ROther {N}.
Record DnsRecord (N : Type) := mkDnsRecord { r_name : N; r_ttl : Z; r_data : RData N }.
Arguments mkDnsRecord {N} _ _ _.
Arguments r_name {N} _.
Arguments r_ttl {N} _.
Arguments r_data {N} _.
Inductive RecordType := TypeA | TypeOther.
Inductive DnsClass := ClassIN | ClassOther.
Record Query (N : Type) := mkQuery { q_name : N; q_type : RecordType; q_class : DnsClass }.
Arguments mkQuery {N} _ _ _.
Arguments q_name {N} _.
Arguments q_type {N} _.
Arguments q_class {N} _.
Inductive ResponseCode := NoError | NXDomain | OtherCode (rc : Z).
Record Message (N : Type) := mkMessage {
  m_id : Z; m_response : bool; m_op_query : bool; m_recursion_desired : bool; m_recursion_available : bool; m_truncated : bool;
  m_rcode : ResponseCode; m_queries : list (Query N); m_answers : list (DnsRecord N) }.
Arguments mkMessage {N} _ _ _ _ _ _ _ _ _.
Arguments m_id {N} _.
Arguments m_response {N} _.
Arguments m_op_query {N} _.
Arguments m_truncated {N} _.
Arguments m_rcode {N} _.
Arguments m_queries {N} _.
Arguments m_answers {N} _.

(** What the code uses of the crate. *)
Class DnsLib := {
  Name : Type;
  name_eqb : Name → Name → bool;
  from_ascii : list Z → option Name;
  set_fqdn : Name → Name;
  to_ascii : Name → list Z;
  to_vec : Message Name → option (list Z);
  from_vec : list Z → option (Message Name) }.
(** Its documented behaviour: names compare as an equivalence, and what is decoded is typed. *)
Class DnsLibOk (D : DnsLib) := {
  name_refl n : name_eqb n n = true;
  name_sym n m : name_eqb n m = true → name_eqb m n = true;
  name_trans n m k : name_eqb n m = true → name_eqb m k = true → name_eqb n k = true;
  decoded_typed b m : from_vec b = Some m → Forall (λ r, is_u 32 (r_ttl r) ∧ ∀ ip, r_data r = RA ip → v4_ok ip) (m_answers m) }.

(** * Errors *)
Inductive IoErr := ErrTimeout | ErrInterrupted | ErrOther.
#[export] Instance IoErr_eq_dec : EqDecision IoErr.
Proof. solve_decision. Defined.
Inductive DnsError :=
| NxDomain | NoData | Rcode (rc : ResponseCode) | Timeout | DeadlineExceeded | NoUsableAddresses | Malformed | DnsIo | InvalidName
| NoServers | AllFailed (failures : list (SocketAddr * DnsError)).
(** [From<io::Error>] *)
Definition from_io (e : IoErr) : DnsError := match e with ErrTimeout => Timeout | _ => DnsIo end.
Definition timeout_error (transport_deadline overall_deadline : Z) : DnsError :=
  if transport_deadline =? overall_deadline then DeadlineExceeded else Timeout.
Definition exchange_io_error (e : IoErr) (transport_deadline overall_deadline : Z) : DnsError :=
  if bool_decide (e = ErrTimeout) && (transport_deadline =? overall_deadline) then DeadlineExceeded else from_io e.

(** * The network *)
(** A UDP socket: the failure of opening and connecting it, of sending, and what it receives until
    it times out. *)
Inductive UdpRecv := Datagram (b : list Z) | RecvErr (e : IoErr).
Record UdpIo := mkUdpIo { ux_open : option IoErr; ux_send : option IoErr; ux_recv : list UdpRecv }.
(** A TCP connection: the failure of connecting, the outcomes of writes, and of reads until they
    time out. *)
Inductive TcpWrite := Wrote (n : Z) | WriteErr (e : IoErr).
Inductive TcpRead := ReadSome (b : list Z) | ReadErr (e : IoErr).
Record TcpIo := mkTcpIo { tx_connect : option IoErr; tx_writes : list TcpWrite; tx_reads : list TcpRead }.
(** What was sent: the number of the socket, the server it is connected to, the message. *)
Inductive NetEvent := SentUdp (sock : nat) (server : SocketAddr) (wire : list Z) | SentTcp (sock : nat) (server : SocketAddr) (wire : list Z).
Record Net := mkNet {
  n_clock : nat → Z; n_clock_pos : nat; n_random : nat → Z; n_random_pos : nat;
  n_udp : nat → SocketAddr → UdpIo; n_udp_pos : nat; n_tcp : nat → SocketAddr → TcpIo; n_tcp_pos : nat; n_log : list NetEvent }.

(** Code that uses it and may fail. *)
Definition Dio (A : Type) := Net → (DnsError + A) * Net.
#[export] Instance Dio_ret : MRet Dio := λ A a n, (inr a, n).
#[export] Instance Dio_bind : MBind Dio := λ A B f m n,
  match m n with (inr a, n') => f a n' | (inl e, n') => (inl e, n') end.
Definition fail {A} (e : DnsError) : Dio A := λ n, (inl e, n).
Definition catch {A} (m : Dio A) : Dio (DnsError + A) := λ n, let '(r, n') := m n in (inr r, n').
Definition from_option {A} (e : DnsError) (o : option A) : Dio A := match o with Some a => mret a | None => fail e end.
Definition now : Dio Z := λ n,
  (inr (n_clock n (n_clock_pos n)),
   mkNet (n_clock n) (S (n_clock_pos n)) (n_random n) (n_random_pos n) (n_udp n) (n_udp_pos n) (n_tcp n) (n_tcp_pos n) (n_log n)).
Definition next_random : Dio Z := λ n,
  (inr (n_random n (n_random_pos n)),
   mkNet (n_clock n) (n_clock_pos n) (n_random n) (S (n_random_pos n)) (n_udp n) (n_udp_pos n) (n_tcp n) (n_tcp_pos n) (n_log n)).
(** A new socket, bound and connected to the server. *)
Definition next_udp (server : SocketAddr) : Dio (nat * UdpIo) := λ n,
  (inr (n_udp_pos n, n_udp n (n_udp_pos n) server),
   mkNet (n_clock n) (n_clock_pos n) (n_random n) (n_random_pos n) (n_udp n) (S (n_udp_pos n)) (n_tcp n) (n_tcp_pos n) (n_log n)).
Definition next_tcp (server : SocketAddr) : Dio (nat * TcpIo) := λ n,
  (inr (n_tcp_pos n, n_tcp n (n_tcp_pos n) server),
   mkNet (n_clock n) (n_clock_pos n) (n_random n) (n_random_pos n) (n_udp n) (n_udp_pos n) (n_tcp n) (S (n_tcp_pos n)) (n_log n)).
Definition log (e : NetEvent) : Dio unit := λ n,
  (inr tt, mkNet (n_clock n) (n_clock_pos n) (n_random n) (n_random_pos n) (n_udp n) (n_udp_pos n) (n_tcp n) (n_tcp_pos n) (n_log n ++ [e])).

(** [Instant::checked_add]: an instant has 64-bit seconds. *)
Definition checked_add (instant duration : Z) : option Z :=
  if instant + duration <? 2 ^ 63 * 1000000000 then Some (instant + duration) else None.
Definition transport_deadline (overall_deadline timeout : Z) : Dio Z :=
  t ← now;
  if overall_deadline <=? t then fail DeadlineExceeded else
  mret (match checked_add t timeout with Some d => Z.min d overall_deadline | None => overall_deadline end).
Definition remaining (deadline overall_deadline : Z) : Dio Z :=
  t ← now;
  let left := saturating_sub deadline t in
  if left =? 0 then fail (timeout_error deadline overall_deadline) else mret left.
Definition io_ok (o : option IoErr) : Dio unit := match o with Some e => fail (from_io e) | None => mret tt end.

Record DnsConfig := mkDnsConfig {
  dc_servers : list SocketAddr; dc_timeout : Z; dc_overall_timeout : Z; dc_allow_private : bool }.
Record Answer := mkAnswer {
  an_addrs : list Ipv4Addr; an_ttl : Z; an_raw_ttl : Z; an_server : SocketAddr; an_cnames : list (list Z); an_via_tcp : bool }.

Section dns.
Context `{D : DnsLib}.

Definition parse_name (name : list Z) : option Name := set_fqdn <$> from_ascii name.
Definition build_query (id : Z) (qname : Name) : Message Name :=
  mkMessage id false true true false false NoError [mkQuery qname TypeA ClassIN] [].
Definition build_reply (query : Message Name) (rcode : ResponseCode) (answers : list (DnsRecord Name)) (truncated : bool) : Message Name :=
  mkMessage (m_id query) true true true true truncated rcode (m_queries query) answers.
Definition is_our_reply (m : Message Name) (id : Z) (qname : Name) : bool :=
  (m_id m =? id) && m_response m &&
  match m_queries m with
  | [q] => name_eqb (q_name q) qname && match q_type q with TypeA => true | _ => false end &&
           match q_class q with ClassIN => true | _ => false end
  | _ => false
  end.

(** * Exchanges *)
Fixpoint udp_recv (recvs : list UdpRecv) (id : Z) (qname : Name) (deadline overall_deadline : Z) : Dio (Message Name) :=
  t ← now;
  if saturating_sub deadline t =? 0 then fail (timeout_error deadline overall_deadline) else
  match recvs with
  | [] | RecvErr ErrTimeout :: _ => fail (timeout_error deadline overall_deadline)
  | RecvErr _ :: _ => fail DnsIo
  | Datagram b :: recvs =>
      match from_vec (take 4096 b) with
      | Some m => if is_our_reply m id qname then mret m else udp_recv recvs id qname deadline overall_deadline
      | None => udp_recv recvs id qname deadline overall_deadline
      end
  end.
Definition udp_exchange (cfg : DnsConfig) (server : SocketAddr) (wire : list Z) (id : Z) (qname : Name) (overall_deadline : Z) : Dio (Message Name) :=
  deadline ← transport_deadline overall_deadline (dc_timeout cfg);
  '(sock, x) ← next_udp server;
  io_ok (ux_open x);;
  remaining deadline overall_deadline;;
  io_ok (ux_send x);;
  log (SentUdp sock server wire);;
  udp_recv (ux_recv x) id qname deadline overall_deadline.

(** Writes and reads take the outcomes they use off the list. *)
Fixpoint write_all_until (writes : list TcpWrite) (data : list Z) (deadline overall_deadline : Z) : Dio (list TcpWrite) :=
  if bool_decide (data = []) then mret writes else
  remaining deadline overall_deadline;;
  match writes with
  | [] => fail (exchange_io_error ErrTimeout deadline overall_deadline)
  | Wrote n :: writes => if n =? 0 then fail DnsIo else write_all_until writes (drop (Z.to_nat n) data) deadline overall_deadline
  | WriteErr ErrInterrupted :: writes => write_all_until writes data deadline overall_deadline
  | WriteErr e :: _ => fail (exchange_io_error e deadline overall_deadline)
  end.
(** A read returns at most what is left of the buffer; the rest stays in the stream. *)
Fixpoint read_exact_until (reads : list TcpRead) (len : nat) (got : list Z) (deadline overall_deadline : Z) : Dio (list Z * list TcpRead) :=
  if (length got =? len)%nat then mret (got, reads) else
  remaining deadline overall_deadline;;
  match reads with
  | [] => fail (exchange_io_error ErrTimeout deadline overall_deadline)
  | ReadErr ErrInterrupted :: reads => read_exact_until reads len got deadline overall_deadline
  | ReadErr e :: _ => fail (exchange_io_error e deadline overall_deadline)
  | ReadSome b :: reads =>
      if bool_decide (b = []) then fail DnsIo else
      let n := (len - length got)%nat in
      if (length b <=? n)%nat then read_exact_until reads len (got ++ b) deadline overall_deadline
      else mret (got ++ take n b, ReadSome (drop n b) :: reads)
  end.
Definition tcp_exchange (cfg : DnsConfig) (server : SocketAddr) (wire : list Z) (id : Z) (qname : Name) (overall_deadline : Z) : Dio (Message Name) :=
  deadline ← transport_deadline overall_deadline (dc_timeout cfg);
  remaining deadline overall_deadline;;
  '(sock, x) ← next_tcp server;
  match tx_connect x with Some e => fail (exchange_io_error e deadline overall_deadline) | None => mret tt end;;
  (if zlen wire <? 2 ^ 16 then mret tt else fail Malformed);;
  writes ← write_all_until (tx_writes x) (to_be 2 (zlen wire)) deadline overall_deadline;
  write_all_until writes wire deadline overall_deadline;;
  log (SentTcp sock server wire);;
  '(lenbuf, reads) ← read_exact_until (tx_reads x) 2 [] deadline overall_deadline;
  let rlen := from_be lenbuf in
  if (rlen =? 0) || (MAX_TCP_MESSAGE <? rlen) then fail Malformed else
  '(body, _) ← read_exact_until reads (Z.to_nat rlen) [] deadline overall_deadline;
  m ← from_option Malformed (from_vec body);
  if negb (is_our_reply m id qname) then fail Malformed else mret m.

(** * Answers *)
Definition a_records (records : list (DnsRecord Name)) : list (Ipv4Addr * Z) :=
  omap (λ r, match r_data r with RA ip => Some (ip, r_ttl r) | _ => None end) records.
Definition cname_records (records : list (DnsRecord Name)) : list (Name * Z) :=
  omap (λ r, match r_data r with RCname c => Some (c, r_ttl r) | _ => None end) records.
Definition min_ttl (acc : Z) (ttls : list Z) : Z := foldl Z.min acc ttls.
Definition eq_ignore_ascii_case (a b : list Z) : bool := bool_decide (ascii_lower <$> a = ascii_lower <$> b).
Definition named_records (answers : list (DnsRecord Name)) (name : Name) : list (DnsRecord Name) :=
  filter (λ r, name_eqb (r_name r) name = true) answers.
(** The loop over aliases; every turn but the last adds one to [cnames]. *)
Fixpoint follow (fuel : nat) (answers : list (DnsRecord Name)) (name : Name) (cnames : list (list Z)) (chain_ttl : Z) (server : SocketAddr)
    (via_tcp : bool) : option (DnsError + Answer) :=
  match fuel with
  | O => None
  | S fuel =>
      let records := named_records answers name in
      let addrs := a_records records in
      let aliases := cname_records records in
      if negb (bool_decide (addrs = [])) then
        if negb (bool_decide (aliases = [])) then Some (inl Malformed) else
        let raw_ttl := Z.min chain_ttl (min_ttl U32_MAX addrs.*2) in
        Some (inr (mkAnswer addrs.*1 (Z.max TTL_MIN_SECS (Z.min raw_ttl TTL_MAX_SECS)) raw_ttl server cnames via_tcp))
      else
        match aliases with
        | [] => Some (inl NoData)
        | (target, ttl0) :: _ =>
            if existsb (λ a, negb (name_eqb a.1 target)) aliases then Some (inl Malformed) else
            let ttl := min_ttl ttl0 aliases.*2 in
            if (MAX_CNAME_HOPS <=? length cnames)%nat then Some (inl Malformed) else
            if name_eqb target name || existsb (λ c, eq_ignore_ascii_case c (to_ascii target)) cnames then Some (inl Malformed) else
            follow fuel answers target (cnames ++ [to_ascii target]) (Z.min chain_ttl ttl) server via_tcp
        end
  end.
Definition interpret (m : Message Name) (qname : Name) (server : SocketAddr) (via_tcp : bool) : DnsError + Answer :=
  if negb (m_op_query m) then inl Malformed else
  match m_rcode m with
  | NoError => default (inl Malformed) (follow (S MAX_CNAME_HOPS) (m_answers m) qname [] U32_MAX server via_tcp)
  | NXDomain => inl NxDomain
  | rc => inl (Rcode rc)
  end.
Definition canonicalize_answer (a : Answer) (allow_private : bool) : DnsError + Answer :=
  let addrs := canonical (filter (λ ip, check_endpoint_ip ip allow_private = true) (an_addrs a)) in
  if bool_decide (addrs = []) then inl NoUsableAddresses else
  inr (mkAnswer (take MAX_ENDPOINT_CANDIDATES addrs) (an_ttl a) (an_raw_ttl a) (an_server a) (an_cnames a) (an_via_tcp a)).

(** * Servers *)
Definition query_server (cfg : DnsConfig) (server : SocketAddr) (qname : Name) (deadline : Z) : Dio Answer :=
  r ← next_random;
  let id := Z.land r 0xffff in
  wire ← from_option Malformed (to_vec (build_query id qname));
  reply ← udp_exchange cfg server wire id qname deadline;
  a ← (if m_truncated reply then
         reply ← tcp_exchange cfg server wire id qname deadline;
         mret (interpret reply qname server true)
       else mret (interpret reply qname server false));
  match a with inl e => fail e | inr a => mret a end.
Definition before (deadline : Z) : Dio bool := t ← now; mret (t <? deadline).
Fixpoint ask (cfg : DnsConfig) (servers : list SocketAddr) (failures : list (SocketAddr * DnsError)) (qname : Name) (deadline : Z) : Dio Answer :=
  match servers with
  | [] => fail (AllFailed failures)
  | server :: servers =>
      b ← before deadline;
      if negb b then fail DeadlineExceeded else
      r ← catch (query_server cfg server qname deadline);
      r ← match r with
          | inr a =>
              match canonicalize_answer a (dc_allow_private cfg) with
              | inr a => b ← before deadline; if b : bool then mret (inr a) else fail DeadlineExceeded
              | inl e => mret (inl e)
              end
          | inl DeadlineExceeded => fail DeadlineExceeded
          | inl e => mret (inl e)
          end;
      match r with
      | inr a => mret a
      | inl e =>
          b ← before deadline;
          if negb b then fail DeadlineExceeded else ask cfg servers (failures ++ [(server, e)]) qname deadline
      end
  end.
Definition resolve_a (cfg : DnsConfig) (name : list Z) : Dio Answer :=
  if bool_decide (dc_servers cfg = []) then fail NoServers else
  qname ← from_option InvalidName (parse_name name);
  t ← now;
  deadline ← from_option DeadlineExceeded (checked_add t (dc_overall_timeout cfg));
  ask cfg (dc_servers cfg) [] qname deadline.
End dns.
