(* ===== verification/Config.v ===== *)
(** The run-time configuration, [src/src/config.rs]: the fields the modelled code reads; and
    the constants both roles use ([src/src/consts.rs]). *)
From S2P Require Import Prelude Ip Types World.

Definition HUGE_DATA_LEN : Z := 65535 + 100.
Definition MAX_CONV_NUM : Z := 10000.
Definition HEARTBEAT_INTERVAL_MS : Z := 600.
Definition CLIENT_HANDSHAKE_TIMEOUT_MS : Z := 5000.
Definition CLIENT_RETRY_INTERVAL_MS : Z := 1000.
Definition CLIENT_CONN_TIMEOUT_MS : Z := 10000.
Definition CLIENT_CONN_UPLINK_TIMEOUT_MS : Z := CLIENT_CONN_TIMEOUT_MS + 2000.
Definition TIMER_INTERVAL_MS : Z := 400.

Inductive ProgramMode := ModeClient | ModeServer.
#[export] Instance ProgramMode_eq_dec : EqDecision ProgramMode.
Proof. solve_decision. Defined.

Inductive LowerLevel := LlAuto | LlManual (if_name dest_mac : list Z).

Record Config := mkConfig {
  cfg_mode : ProgramMode;
  cfg_local_addr : SocketAddr;
  cfg_remote_addr : SocketAddr;
  cfg_raw_mode : RawMode;
  cfg_easy_faketcp : bool;
  cfg_disable_anti_replay : bool;
  cfg_fix_gro : bool;
  cfg_disable_bpf : bool;
  cfg_seq_mode : Z;
  cfg_lower_level : option LowerLevel;
  cfg_hb_mode : Z;
  cfg_hb_len : Z;
  cfg_max_rst_to_show : Z;
  cfg_max_rst_allowed : Z;
  cfg_ttl : Z;
  cfg_random_drop : Z;
  cfg_threads : Z;
  cfg_source_ip : option IpAddr;
  cfg_source_port : option Z;
  cfg_wait_lock : bool;
  cfg_underlay_dev : option (list Z);
  cfg_underlay_gateway : option (list Z);
  cfg_retry_on_error : bool }.

(** The fields of the configuration that only [main] reads. *)
Record Flags := mkFlags {
  fl_auto_rule : bool; fl_keep_rule : bool; fl_clear_rules : bool; fl_gen_rule : bool; fl_gen_add : bool }.
Definition cfg_is_client (c : Config) : bool := bool_decide (cfg_mode c = ModeClient).
Definition raw_is_v6 (c : Config) : bool :=
  match cfg_mode c with
  | ModeClient => is_ipv6 (cfg_remote_addr c).1
  | ModeServer => is_ipv6 (cfg_local_addr c).1
  end.
(** [IpAddr::is_unspecified] *)
Definition is_unspecified (a : IpAddr) : bool :=
  match a with V4 l | V6 l => forallb (Z.eqb 0) l end.
