(* ===== verification/Route.v ===== *)
(** Host routes over rtnetlink: [src/src/net/route.rs].

    A request is a byte message; the kernel's datagrams are arbitrary bytes. *)
From S2P Require Import Prelude Util Text Ip World.

Definition RTPROT_UDP2RAW : Z := 235.
Definition OWNED_METRIC_BIT : Z := Z.shiftl 1 31.
(** [!OWNED_METRIC_BIT] on 32 bits. *)
Definition METRIC_MASK : Z := 0x7fffffff.
Definition owned_metric (owner : Z) : Z := Z.lor OWNED_METRIC_BIT (Z.land owner METRIC_MASK).
Definition next_owned_metric (metric : Z) : Z := Z.lor OWNED_METRIC_BIT (Z.land (metric +⟨32⟩ 1) METRIC_MASK).

(** Linux's constants. *)
Definition AF_INET : Z := 2.
Definition RT_TABLE_MAIN : Z := 254.
Definition RTN_UNICAST : Z := 1.
Definition RT_SCOPE_UNIVERSE : Z := 0.
Definition RT_SCOPE_LINK : Z := 253.
Definition RT_SCOPE_NOWHERE : Z := 255.
Definition RTA_DST : Z := 1.
Definition RTA_OIF : Z := 4.
Definition RTA_GATEWAY : Z := 5.
Definition RTA_PRIORITY : Z := 6.
Definition RTA_PREFSRC : Z := 7.
Definition RTM_NEWROUTE : Z := 24.
Definition RTM_DELROUTE : Z := 25.
Definition RTM_GETROUTE : Z := 26.
Definition NLM_F_REQUEST : Z := 1.
Definition NLM_F_MULTI : Z := 2.
Definition NLM_F_ACK : Z := 4.
Definition NLM_F_DUMP_INTR : Z := 16.
Definition NLM_F_DUMP : Z := 0x300.
Definition NLM_F_EXCL : Z := 0x200.
Definition NLM_F_CREATE : Z := 0x400.
Definition NLMSG_NOOP : Z := 1.
Definition NLMSG_ERROR : Z := 2.
Definition NLMSG_DONE : Z := 3.
Definition NLMSG_OVERRUN : Z := 4.
Definition ENOENT : Z := 2.
Definition ESRCH : Z := 3.
Definition EIO : Z := 5.
Definition EEXIST : Z := 17.

Record RouteInfo := mkRouteInfo {
  rt_family : Z;
  rt_destination : option (list Z);
  rt_gateway : option (list Z);
  rt_oif : option Z;
  rt_prefsrc : option (list Z);
  rt_metric : option Z;
  rt_dst_len : Z;
  rt_table : Z;
  rt_protocol : Z;
  rt_type : Z }.
Definition set_rt_destination (v : option (list Z)) (r : RouteInfo) : RouteInfo :=
  mkRouteInfo (rt_family r) v (rt_gateway r) (rt_oif r) (rt_prefsrc r) (rt_metric r) (rt_dst_len r)
    (rt_table r) (rt_protocol r) (rt_type r).
Definition set_rt_gateway (v : option (list Z)) (r : RouteInfo) : RouteInfo :=
  mkRouteInfo (rt_family r) (rt_destination r) v (rt_oif r) (rt_prefsrc r) (rt_metric r) (rt_dst_len r)
    (rt_table r) (rt_protocol r) (rt_type r).
Definition set_rt_oif (v : option Z) (r : RouteInfo) : RouteInfo :=
  mkRouteInfo (rt_family r) (rt_destination r) (rt_gateway r) v (rt_prefsrc r) (rt_metric r) (rt_dst_len r)
    (rt_table r) (rt_protocol r) (rt_type r).
Definition set_rt_prefsrc (v : option (list Z)) (r : RouteInfo) : RouteInfo :=
  mkRouteInfo (rt_family r) (rt_destination r) (rt_gateway r) (rt_oif r) v (rt_metric r) (rt_dst_len r)
    (rt_table r) (rt_protocol r) (rt_type r).
Definition set_rt_metric (v : option Z) (r : RouteInfo) : RouteInfo :=
  mkRouteInfo (rt_family r) (rt_destination r) (rt_gateway r) (rt_oif r) (rt_prefsrc r) v (rt_dst_len r)
    (rt_table r) (rt_protocol r) (rt_type r).

Definition NLMSG_HDRLEN : Z := 16.
Definition RTMSG_LEN : Z := 12.
(** [(n + 3) & !3] *)
Definition align4 (n : Z) : Z := Z.ldiff (n + 3) 3.

(** * Requests *)
Definition push_attr (buf : list Z) (kind : Z) (data : list Z) : list Z :=
  let len := 4 + zlen data in
  buf ++ to_le 2 len ++ to_le 2 kind ++ data ++ replicate (Z.to_nat (align4 len - len)) 0.
Definition rtmsg (dst_len table protocol scope rtype : Z) : list Z :=
  [AF_INET; dst_len; 0; 0; table; protocol; scope; rtype; 0; 0; 0; 0].
Definition message (msg_type flags seq : Z) (body : list Z) : list Z :=
  let len := NLMSG_HDRLEN + zlen body in
  to_le 4 len ++ to_le 2 msg_type ++ to_le 2 flags ++ to_le 4 seq ++ to_le 4 0 ++ body.

(** * Replies *)
Definition read_i32 (payload : list Z) : outcome Z := b ← slice payload 0 4; Done (as_signed 32 (from_le b)).

(** What one message for us comes to: the end of the request, or more replies. *)
Definition nl_message (ty flags : Z) (payload : list Z) (replies : list (list Z)) : outcome (NlResult + list (list Z)) :=
  if ty =? NLMSG_ERROR then
    if zlen payload <? 4 then Done (inl (NlErr None)) else
    code ← read_i32 payload;
    if negb (code =? 0) then Done (inl (NlErr (Some (as_signed 32 (wrap 32 (- code)))))) else Done (inl (NlOk replies))
  else if ty =? NLMSG_DONE then
    if negb (Z.land flags NLM_F_DUMP_INTR =? 0) then Done (inl (NlErr None)) else
    if 4 <=? zlen payload then
      code ← read_i32 payload;
      if negb (code =? 0) then
        Done (inl (NlErr (Some (if (0 <? - code) && negb (code =? - 2 ^ 31) then - code else EIO))))
      else Done (inl (NlOk replies))
    else Done (inl (NlOk replies))
  else if ty =? NLMSG_OVERRUN then Done (inl (NlErr None))
  else if ty =? NLMSG_NOOP then Done (inr replies)
  else
    let replies := replies ++ [payload] in
    if Z.land flags NLM_F_MULTI =? 0 then Done (inl (NlOk replies)) else Done (inr replies).

(** The messages of one datagram; every pass consumes a header, so the length is fuel enough. *)
Fixpoint nl_datagram (fuel : nat) (seq : Z) (buf : list Z) (off : Z) (replies : list (list Z))
    : outcome (NlResult + list (list Z)) :=
  match fuel with
  | O => Done (inr replies)
  | S fuel =>
      if off + NLMSG_HDRLEN <=? zlen buf then
        b ← slice buf off (off + 4);
        let len := from_le b in
        b ← slice buf (off + 4) (off + 6);
        let ty := from_le b in
        b ← slice buf (off + 6) (off + 8);
        let flags := from_le b in
        b ← slice buf (off + 8) (off + 12);
        let rseq := from_le b in
        if (len <? NLMSG_HDRLEN) || (zlen buf <? off + len) then Done (inl (NlErr None)) else
        r ← (if rseq =? seq then
               payload ← slice buf (off + NLMSG_HDRLEN) (off + len); nl_message ty flags payload replies
             else Done (inr replies));
        match r with
        | inl r => Done (inl r)
        | inr replies => nl_datagram fuel seq buf (off + align4 len) replies
        end
      else Done (inr replies)
  end.
Fixpoint nl_recv_loop (seq : Z) (bufs : list (list Z)) (last : Z) (replies : list (list Z)) : outcome NlResult :=
  match bufs with
  | [] => Done (NlErr (Some last))
  | buf :: bufs =>
      r ← nl_datagram (length buf) seq buf 0 replies;
      match r with
      | inl r => Done r
      | inr replies => nl_recv_loop seq bufs last replies
      end
  end.

(** [Netlink::open], then [request]: a socket of its own for every request, whose sequence
    number follows from the process id. *)
Definition request (msg_type flags : Z) (body : list Z) : Io NlResult :=
  n ← next_net;
  let io := nio_nl n in
  match nl_open io with
  | Some e => mret (NlErr (Some e))
  | None =>
      let seq := Z.lor (wrap 32 (Z.shiftl (nl_pid io) 8)) 1 +⟨32⟩ 1 in
      match nl_send io with
      | Some e => mret (NlErr (Some e))
      | None =>
          r ← lift (nl_recv_loop seq (nl_recv io) (nl_last io) []);
          emit (EvNl (message msg_type (Z.lor flags NLM_F_REQUEST) seq body) r);;
          mret r
      end
  end.

(** * Routes *)
Definition parse_attr (kind : Z) (data : list Z) (info : RouteInfo) : RouteInfo :=
  if negb (zlen data =? 4) then info
  else if kind =? RTA_DST then set_rt_destination (Some data) info
  else if kind =? RTA_GATEWAY then set_rt_gateway (Some data) info
  else if kind =? RTA_PREFSRC then set_rt_prefsrc (Some data) info
  else if kind =? RTA_OIF then set_rt_oif (Some (from_le data)) info
  else if kind =? RTA_PRIORITY then set_rt_metric (Some (from_le data)) info
  else info.
(** Every pass consumes an attribute header. *)
Fixpoint parse_attrs (fuel : nat) (payload : list Z) (off : Z) (info : RouteInfo) : outcome (option RouteInfo) :=
  match fuel with
  | O => Done (Some info)
  | S fuel =>
      if off + 4 <=? zlen payload then
        b ← slice payload off (off + 2);
        let len := from_le b in
        b ← slice payload (off + 2) (off + 4);
        let kind := from_le b in
        if (len <? 4) || (zlen payload <? off + len) then Done None else
        data ← slice payload (off + 4) (off + len);
        parse_attrs fuel payload (off + align4 len) (parse_attr kind data info)
      else Done (Some info)
  end.
(** [None] is the error. *)
Definition parse_route (payload : list Z) : outcome (option RouteInfo) :=
  if zlen payload <? RTMSG_LEN then Done None else
  family ← idx payload 0;
  dst_len ← idx payload 1;
  table ← idx payload 4;
  protocol ← idx payload 5;
  rtype ← idx payload 7;
  parse_attrs (length payload) payload RTMSG_LEN (mkRouteInfo family None None None None None dst_len table protocol rtype).

Definition get_route (dst : list Z) (oif : option Z) : Io (option RouteInfo) :=
  let body := push_attr (rtmsg 32 0 0 0 0) RTA_DST dst in
  let body := match oif with Some i => push_attr body RTA_OIF (to_le 4 i) | None => body end in
  r ← request RTM_GETROUTE 0 body;
  match r with
  | NlErr _ => mret None
  | NlOk [] => mret None
  | NlOk (p :: _) => lift (parse_route p)
  end.

Definition owned_route_dump_body : list Z := rtmsg 0 RT_TABLE_MAIN 0 0 0.
Definition owned_host_route_matches (info : RouteInfo) (dst : list Z) (gateway : option (list Z)) (oif : Z)
    (prefsrc : option (list Z)) (metric : Z) : bool :=
  (rt_family info =? AF_INET) && bool_decide (rt_destination info = Some dst) && (rt_dst_len info =? 32) &&
  (rt_table info =? RT_TABLE_MAIN) && (rt_protocol info =? RTPROT_UDP2RAW) && (rt_type info =? RTN_UNICAST) &&
  bool_decide (rt_gateway info = gateway) && bool_decide (rt_oif info = Some oif) &&
  bool_decide (rt_prefsrc info = prefsrc) && bool_decide (rt_metric info = Some metric).
Fixpoint owned_host_route_in_payloads (payloads : list (list Z)) (dst : list Z) (gateway : option (list Z)) (oif : Z)
    (prefsrc : option (list Z)) (metric : Z) : outcome (option bool) :=
  match payloads with
  | [] => Done (Some false)
  | payload :: payloads =>
      info ← parse_route payload;
      match info with
      | None => Done None
      | Some info =>
          if owned_host_route_matches info dst gateway oif prefsrc metric then Done (Some true)
          else owned_host_route_in_payloads payloads dst gateway oif prefsrc metric
      end
  end.
Definition owned_host_route_exists (dst : list Z) (gateway : option (list Z)) (oif : Z) (prefsrc : option (list Z))
    (metric : Z) : Io (option bool) :=
  r ← request RTM_GETROUTE NLM_F_DUMP owned_route_dump_body;
  match r with
  | NlErr _ => mret None
  | NlOk replies => lift (owned_host_route_in_payloads replies dst gateway oif prefsrc metric)
  end.

Definition push_opt (body : list Z) (kind : Z) (data : option (list Z)) : list Z :=
  match data with Some d => push_attr body kind d | None => body end.
Definition host_route_body (dst : list Z) (gateway : option (list Z)) (oif : Z) (prefsrc : option (list Z))
    (metric scope : Z) : list Z :=
  let body := rtmsg 32 RT_TABLE_MAIN RTPROT_UDP2RAW scope RTN_UNICAST in
  let body := push_attr body RTA_DST dst in
  let body := push_attr body RTA_OIF (to_le 4 oif) in
  let body := push_opt body RTA_GATEWAY gateway in
  let body := push_opt body RTA_PREFSRC prefsrc in
  push_attr body RTA_PRIORITY (to_le 4 metric).

(** [io::Result<()>]: [Some] is the error, with its number if it has one. *)
Definition route_scope (gateway : option (list Z)) : Z :=
  match gateway with Some _ => RT_SCOPE_UNIVERSE | None => RT_SCOPE_LINK end.
Definition create_host_route (dst : list Z) (gateway : option (list Z)) (oif : Z) (prefsrc : option (list Z))
    (metric : Z) : Io (option (option Z)) :=
  let body := host_route_body dst gateway oif prefsrc metric (route_scope gateway) in
  let flags := Z.lor (Z.lor NLM_F_ACK NLM_F_CREATE) NLM_F_EXCL in
  r ← request RTM_NEWROUTE flags body;
  mret (match r with NlOk _ => None | NlErr e => Some e end).
Definition gone (e : option Z) : bool := bool_decide (e = Some ESRCH ∨ e = Some ENOENT).
Definition delete_host_route (dst : list Z) (gateway : option (list Z)) (oif metric : Z) : Io (option (option Z)) :=
  let body := host_route_body dst gateway oif None metric RT_SCOPE_NOWHERE in
  r ← request RTM_DELROUTE NLM_F_ACK body;
  mret (match r with NlOk _ => None | NlErr e => if gone e then None else Some e end).

(** * Every reply is handled *)
Lemma align4_spec n : 0 ≤ n → n ≤ align4 n ≤ n + 3 ∧ (align4 n) mod 4 = 0.
Proof.
  intros Hn. assert (align4 n = (n + 3) / 4 * 4) as ->.
  { unfold align4. change 3 with (Z.ones 2) at 2. rewrite Z.ldiff_ones_r by lia.
    by rewrite Z.shiftr_div_pow2, Z.shiftl_mul_pow2 by lia. }
  split; Z.div_mod_to_equations; lia.
Qed.
Lemma align4_id n : 0 ≤ n → n mod 4 = 0 → align4 n = n.
Proof. intros Hn Hm. destruct (align4_spec n Hn) as [H1 H2]. Z.div_mod_to_equations; lia. Qed.

Lemma read_i32_total payload : 4 ≤ zlen payload → ∃ v, read_i32 payload = Done v.
Proof. intros. unfold read_i32. rewrite slice_Done by lia. by eexists. Qed.

Definition replies_ok (r : NlResult) : Prop := match r with NlOk l => Forall bytes l | NlErr _ => True end.

Lemma nl_message_total ty flags payload replies : bytes payload → Forall bytes replies →
  ∃ r, nl_message ty flags payload replies = Done r ∧
    match r with inl r => replies_ok r | inr l => Forall bytes l end.
Proof.
  intros Hp Hr. unfold nl_message. destruct (ty =? NLMSG_ERROR).
  { destruct (Z.ltb_spec (zlen payload) 4); [by eexists|]. destruct (read_i32_total payload) as [v ->]; [lia|].
    rewrite bind_Done. destruct (negb _); by eexists. }
  destruct (ty =? NLMSG_DONE).
  { destruct (negb _); [by eexists|]. destruct (Z.leb_spec 4 (zlen payload)); [|by eexists].
    destruct (read_i32_total payload) as [v ->]; [lia|]. rewrite bind_Done. destruct (negb _); by eexists. }
  destruct (ty =? NLMSG_OVERRUN); [by eexists|]. destruct (ty =? NLMSG_NOOP); [by eexists|].
  destruct (_ =? 0); eexists; (split; [reflexivity|]); cbn; apply Forall_app_2; auto with bytes.
Qed.

Lemma bytes_slice (l : list Z) a b : bytes l → bytes (take a (drop b l)).
Proof. auto with bytes. Qed.

Lemma nl_datagram_total fuel seq buf off replies : bytes buf → Forall bytes replies → 0 ≤ off →
  ∃ r, nl_datagram fuel seq buf off replies = Done r ∧
    match r with inl r => replies_ok r | inr l => Forall bytes l end.
Proof.
  intros Hb. revert off replies. induction fuel as [|fuel IH]; intros off replies Hr Ho; cbn [nl_datagram]; [by eexists|].
  unfold NLMSG_HDRLEN in *. destruct (Z.leb_spec (off + 16) (zlen buf)); [|by eexists].
  do 4 (cbv zeta; exec_slice).
  set (len := from_le _). destruct (Z.ltb_spec len 16); [by eexists|]. destruct (Z.ltb_spec (zlen buf) (off + len)); [by eexists|].
  cbn [orb]. set (m := if _ =? seq then _ else _).
  assert (∃ r, m = Done r ∧ match r with inl r => replies_ok r | inr l => Forall bytes l end) as (r & -> & Hres).
  { unfold m. destruct (_ =? seq); [|by eexists]. rewrite slice_Done by lia. rewrite bind_Done. apply nl_message_total; auto with bytes. }
  rewrite bind_Done. destruct r as [r|l]; [by eexists|]. apply IH; [done|]. pose proof (align4_spec len). lia.
Qed.
Lemma nl_recv_total seq bufs e replies : Forall bytes bufs → Forall bytes replies →
  ∃ r, nl_recv_loop seq bufs e replies = Done r ∧ replies_ok r.
Proof.
  intros Hb. revert replies. induction Hb as [|buf bufs Hbuf Hbufs IH]; intros replies Hr; cbn [nl_recv_loop]; [by eexists|].
  destruct (nl_datagram_total (length buf) seq buf 0 replies) as ([r|l] & -> & H); [done|done|lia| |]; rewrite bind_Done; [by eexists|auto].
Qed.

(** A request leaves its message in the trace with what it came to, unless it never went out. *)
Lemma runs_request ty flags body w (Q : NlResult → World → Prop) : env_ok w →
  (∀ r tr w', later w w' → w_trace w' = w_trace w ++ tr → env_ok w' → replies_ok r →
     (tr = [] ∧ ∃ e, r = NlErr e ∧ gone e = false) ∨ (∃ seq, tr = [EvNl (message ty (Z.lor flags NLM_F_REQUEST) seq body) r]) → Q r w') →
  runs (request ty flags body) w Q.
Proof.
  intros Hw HQ. unfold request. apply runs_bind, runs_next_net; [done|]. intros n w1 Hn _ Hl1 Ht1 Hw1.
  destruct Hn as [Hn Herr].
  assert (∀ e, e ≠ 2 ∧ e ≠ 3 → Q (NlErr (Some e)) w1) as Hno.
  { intros e [He2 He3]. apply (HQ _ []); [done|by rewrite app_nil_r|done|done|]. left. split; [done|]. eexists. split; [done|].
    unfold gone. apply bool_decide_eq_false. unfold ESRCH, ENOENT. naive_solver. }
  destruct (nl_open _) as [e|] eqn:Eo; [apply runs_ret, Hno, Herr; by left|].
  destruct (nl_send _) as [e|] eqn:Es; [apply runs_ret, Hno, Herr; by right; left|].
  set (seq := _ +⟨32⟩ 1). destruct (nl_recv_total seq _ (nl_last (nio_nl n)) [] Hn) as (r & Er & Hr); [constructor|].
  apply runs_bind. eapply runs_lift; [exact Er|]. apply runs_bind, runs_emit; [done|]. intros w2 Hl2 Ht2 Hw2. apply runs_ret.
  eapply HQ; [by transitivity w1|by rewrite Ht2, Ht1|done|done|]. right. by exists seq.
Qed.

Lemma parse_attrs_total fuel payload off info : bytes payload → 0 ≤ off → ∃ r, parse_attrs fuel payload off info = Done r.
Proof.
  intros Hb. revert off info. induction fuel as [|fuel IH]; intros off info Ho; cbn [parse_attrs]; [by eexists|].
  destruct (Z.leb_spec (off + 4) (zlen payload)); [|by eexists]. do 2 (cbv zeta; exec_slice).
  set (len := from_le _). destruct (Z.ltb_spec len 4); [by eexists|]. destruct (Z.ltb_spec (zlen payload) (off + len)); [by eexists|].
  cbn [orb]. rewrite slice_Done by lia. rewrite bind_Done. apply IH. pose proof (align4_spec len). lia.
Qed.
Lemma parse_route_total payload : bytes payload → ∃ r, parse_route payload = Done r.
Proof.
  intros Hb. unfold parse_route, RTMSG_LEN. destruct (Z.ltb_spec (zlen payload) 12); [by eexists|].
  do 5 exec_idx. apply parse_attrs_total; [done|lia].
Qed.
Lemma in_payloads_total payloads d g o s m : Forall bytes payloads →
  ∃ r, owned_host_route_in_payloads payloads d g o s m = Done r.
Proof.
  induction 1 as [|p ps Hp _ IH]; cbn; [by eexists|]. destruct (parse_route_total p Hp) as [[info|] ->]; cbn; [|by eexists].
  destruct (owned_host_route_matches _ _ _ _ _ _); [by eexists|done].
Qed.

(** * Messages read back *)
Definition attr (kind : Z) (data : list Z) : list Z := push_attr [] kind data.
Definition attrs (l : list (Z * list Z)) : list Z := mjoin ((λ a, attr a.1 a.2) <$> l).
Definition attr_ok (a : Z * list Z) : Prop := is_u 16 a.1 ∧ 4 + zlen a.2 < 2 ^ 16.

Lemma push_attr_app buf kind data : push_attr buf kind data = buf ++ attr kind data.
Proof. reflexivity. Qed.
Lemma attrs_cons a l : attrs (a :: l) = attr a.1 a.2 ++ attrs l.
Proof. reflexivity. Qed.
Lemma zlen_attr kind data : zlen (attr kind data) = align4 (4 + zlen data).
Proof. unfold attr, push_attr. pose proof (align4_spec (4 + zlen data)). len_lia. Qed.

(** Attributes are read in order, a later one replacing an earlier one of its kind. *)
Lemma parse_attrs_app fuel pre l info : Forall attr_ok l → (length (attrs l) ≤ fuel)%nat →
  parse_attrs fuel (pre ++ attrs l) (zlen pre) info = Done (Some (foldl (λ i a, parse_attr a.1 a.2 i) info l)).
Proof.
  intros Hl. revert fuel pre info. induction Hl as [|[k d] l [Hk Hd] Hl IH]; intros fuel pre info Hf.
  { destruct fuel as [|fuel]; [done|]. cbn [parse_attrs]. exec. done. }
  cbn in Hk, Hd. pose proof (align4_spec (4 + zlen d) ltac:(lia)) as [Ha1 Ha2].
  rewrite attrs_cons in *. cbn [fst snd] in *. pose proof (zlen_attr k d) as Hz.
  destruct fuel as [|fuel]; [exfalso; rewrite length_app in Hf; lia|]. cbn [parse_attrs].
  assert (∃ pad, attr k d = to_le 2 (4 + zlen d) ++ to_le 2 k ++ d ++ pad ∧ 4 + zlen d + zlen pad = align4 (4 + zlen d)) as (pad & Epad & Lpad).
  { unfold attr, push_attr. eexists. split; [reflexivity|]. rewrite length_replicate. lia. }
  rewrite Epad in *. rewrite <-!app_assoc.
  exec_if. rewrite (slice_app_mid pre (to_le 2 (4 + zlen d)) _ (zlen pre) (zlen pre + 2)) by len_lia. rewrite bind_Done, from_to_le.
  rewrite (wrap_small _ (4 + zlen d)) by (unfold is_u; cbn; lia).
  rewrite app_assoc, (slice_app_mid (pre ++ to_le 2 (4 + zlen d)) (to_le 2 k) _ (zlen pre + 2) (zlen pre + 4)) by len_lia. rewrite bind_Done, from_to_le, wrap_small by done.
  rewrite (proj2 (Z.ltb_ge (4 + zlen d) 4)), (proj2 (Z.ltb_ge _ _)) by len_lia. cbn [orb].
  rewrite app_assoc, (slice_app_mid _ d _ (zlen pre + 4)) by len_lia. rewrite bind_Done.
  rewrite <-Lpad. replace (zlen pre + (4 + zlen d + zlen pad)) with (zlen ((((pre ++ to_le 2 (4 + zlen d)) ++ to_le 2 k) ++ d) ++ pad)) by len_lia.
  rewrite (app_assoc _ d), (app_assoc _ pad). rewrite IH; [done|]. rewrite !length_app, !length_to_le in Hf. lia.
Qed.

(** An entry of a dump: what the parser is to read, the rest of the header, and attributes in
    whatever order, among others that it ignores: of other kinds, or not of four bytes (the
    addresses of IPv6 routes). *)
Record DumpEntry := mkDumpEntry {
  de_info : RouteInfo; de_src_len : Z; de_tos : Z; de_scope : Z; de_flags : Z; de_extra : list (Z * list Z); de_attrs : list (Z * list Z) }.
Definition opt_attr (kind : Z) (data : option (list Z)) : list (Z * list Z) :=
  match data with Some d => [(kind, d)] | None => [] end.
Definition info_attrs (i : RouteInfo) : list (Z * list Z) :=
  opt_attr RTA_DST (rt_destination i) ++ opt_attr RTA_OIF (to_le 4 <$> rt_oif i) ++ opt_attr RTA_GATEWAY (rt_gateway i) ++
  opt_attr RTA_PREFSRC (rt_prefsrc i) ++ opt_attr RTA_PRIORITY (to_le 4 <$> rt_metric i).
Definition entry_header (e : DumpEntry) : list Z :=
  [rt_family (de_info e); rt_dst_len (de_info e); de_src_len e; de_tos e; rt_table (de_info e); rt_protocol (de_info e); de_scope e; rt_type (de_info e)] ++
  to_le 4 (de_flags e).
Definition entry_payload (e : DumpEntry) : list Z := entry_header e ++ attrs (de_attrs e).
Definition known_kind (k : Z) : Prop := k ∈ [RTA_DST; RTA_OIF; RTA_GATEWAY; RTA_PREFSRC; RTA_PRIORITY].
#[export] Instance known_kind_dec k : Decision (known_kind k).
Proof. unfold known_kind. apply _. Defined.
Definition relevant (a : Z * list Z) : Prop := known_kind a.1 ∧ zlen a.2 = 4.
#[export] Instance relevant_dec a : Decision (relevant a).
Proof. unfold relevant. apply _. Defined.
Record entry_ok (e : DumpEntry) : Prop := {
  en_addrs x : rt_destination (de_info e) = Some x ∨ rt_gateway (de_info e) = Some x ∨ rt_prefsrc (de_info e) = Some x → length x = 4%nat;
  en_numbers z : rt_oif (de_info e) = Some z ∨ rt_metric (de_info e) = Some z → is_u 32 z;
  en_extra : Forall (λ a, attr_ok a ∧ ¬ relevant a) (de_extra e);
  en_attrs : de_attrs e ≡ₚ info_attrs (de_info e) ++ de_extra e }.

Definition header_info (i : RouteInfo) : RouteInfo :=
  mkRouteInfo (rt_family i) None None None None None (rt_dst_len i) (rt_table i) (rt_protocol i) (rt_type i).
Lemma parse_header e : Forall attr_ok (de_attrs e) →
  parse_route (entry_payload e) = Done (Some (foldl (λ i a, parse_attr a.1 a.2 i) (header_info (de_info e)) (de_attrs e))).
Proof.
  intros Hl. unfold parse_route. assert (zlen (entry_header e) = 12) as Hh by (unfold entry_header; len_lia).
  unfold entry_payload. rewrite (proj2 (Z.ltb_ge _ _)) by (unfold RTMSG_LEN; len_lia).
  assert (∀ i, 0 ≤ i < 12 → idx (entry_header e ++ attrs (de_attrs e)) i = Done (nth (Z.to_nat i) (entry_header e) 0)) as Hi.
  { intros i Hi. rewrite idx_Done by len_lia. rewrite app_nth1; [done|]. lia. }
  rewrite !Hi by lia. rewrite !bind_Done. change RTMSG_LEN with 12. rewrite <-Hh at 1. rewrite parse_attrs_app; [done|done|]. rewrite length_app. lia.
Qed.

(** The attributes of a route: required ones, then the optional ones. *)
Definition route_attrs (dst : list Z) (gateway : option (list Z)) (oif : Z) (prefsrc : option (list Z)) (metric : Z)
    : list (Z * list Z) :=
  [(RTA_DST, dst); (RTA_OIF, to_le 4 oif)] ++ opt_attr RTA_GATEWAY gateway ++ opt_attr RTA_PREFSRC prefsrc ++
  [(RTA_PRIORITY, to_le 4 metric)].
Lemma attrs_app l k : attrs (l ++ k) = attrs l ++ attrs k.
Proof. unfold attrs. by rewrite fmap_app, join_app. Qed.
Lemma push_opt_app body kind data : push_opt body kind data = body ++ attrs (opt_attr kind data).
Proof. destruct data; cbn; [by rewrite app_nil_r|by rewrite app_nil_r]. Qed.
Lemma host_route_attrs d g o s m sc : host_route_body d g o s m sc =
  rtmsg 32 RT_TABLE_MAIN RTPROT_UDP2RAW sc RTN_UNICAST ++ attrs (route_attrs d g o s m).
Proof.
  unfold host_route_body, route_attrs. rewrite !push_attr_app, !push_opt_app, !attrs_app. unfold attrs at 3 4. cbn [fmap list_fmap mjoin list_join fst snd].
  by rewrite !app_nil_r, <-!app_assoc.
Qed.

(** What the kernel may be asked for. *)
Record route_ok (dst : list Z) (gateway : option (list Z)) (oif : Z) (prefsrc : option (list Z)) (metric : Z) : Prop := {
  ro_dst : v4_ok dst;
  ro_gateway g : gateway = Some g → v4_ok g;
  ro_oif : is_u 32 oif;
  ro_prefsrc s : prefsrc = Some s → v4_ok s;
  ro_metric : is_u 32 metric }.

Definition route_info (dst : list Z) (gateway : option (list Z)) (oif : Z) (prefsrc : option (list Z)) (metric : Z) : RouteInfo :=
  mkRouteInfo AF_INET (Some dst) gateway (Some oif) prefsrc (Some metric) 32 RT_TABLE_MAIN RTPROT_UDP2RAW RTN_UNICAST.
(** The entry of a route the client asks for. *)
Definition own_entry (dst : list Z) (gateway : option (list Z)) (oif : Z) (prefsrc : option (list Z)) (metric scope : Z) : DumpEntry :=
  mkDumpEntry (route_info dst gateway oif prefsrc metric) 0 0 scope 0 [] (route_attrs dst gateway oif prefsrc metric).
Lemma own_entry_payload d g o s m sc : host_route_body d g o s m sc = entry_payload (own_entry d g o s m sc).
Proof. apply host_route_attrs. Qed.
Lemma own_entry_ok d g o s m sc : route_ok d g o s m → entry_ok (own_entry d g o s m sc).
Proof.
  intros [[_ Hd] Hg Ho Hs Hm]. constructor; cbn.
  - intros x [[= <-]|[E|E]]; [done|by apply Hg in E as []|by apply Hs in E as []].
  - by intros z [[= <-]|[= <-]].
  - constructor.
  - by rewrite app_nil_r.
Qed.

Lemma parse_dst d i : length d = 4%nat → parse_attr RTA_DST d i = set_rt_destination (Some d) i.
Proof. intros E. unfold parse_attr. by rewrite E. Qed.
Lemma parse_gateway g i : length g = 4%nat → parse_attr RTA_GATEWAY g i = set_rt_gateway (Some g) i.
Proof. intros E. unfold parse_attr. by rewrite E. Qed.
Lemma parse_prefsrc s i : length s = 4%nat → parse_attr RTA_PREFSRC s i = set_rt_prefsrc (Some s) i.
Proof. intros E. unfold parse_attr. by rewrite E. Qed.
Lemma parse_oif o i : is_u 32 o → parse_attr RTA_OIF (to_le 4 o) i = set_rt_oif (Some o) i.
Proof. intros Ho. unfold parse_attr. rewrite length_to_le, from_to_le, wrap_small by done. done. Qed.
Lemma parse_metric m i : is_u 32 m → parse_attr RTA_PRIORITY (to_le 4 m) i = set_rt_metric (Some m) i.
Proof. intros Hm. unfold parse_attr. rewrite length_to_le, from_to_le, wrap_small by done. done. Qed.
Lemma parse_attr_other a i : ¬ relevant a → parse_attr a.1 a.2 i = i.
Proof.
  unfold relevant, parse_attr. destruct (Z.eqb_spec (zlen a.2) 4) as [E|]; cbn [negb]; [|done]. intros Hn. assert (¬ known_kind a.1) as Hk by tauto. revert Hk.
  unfold known_kind. rewrite !not_elem_of_cons. intros (H1 & H2 & H3 & H4 & H5 & _).
  by rewrite (proj2 (Z.eqb_neq _ _) H1), (proj2 (Z.eqb_neq _ _) H2), (proj2 (Z.eqb_neq _ _) H3), (proj2 (Z.eqb_neq _ _) H4), (proj2 (Z.eqb_neq _ _) H5).
Qed.
Lemma parse_attr_comm a b i : a.1 ≠ b.1 ∨ ¬ relevant a ∨ ¬ relevant b →
  parse_attr a.1 a.2 (parse_attr b.1 b.2 i) = parse_attr b.1 b.2 (parse_attr a.1 a.2 i).
Proof.
  intros [Hk|[Hk|Hk]]; [|by rewrite !(parse_attr_other a)|by rewrite !(parse_attr_other b)]. destruct a as [k1 d1], b as [k2 d2]. cbn [fst snd] in *. unfold parse_attr.
  destruct (negb (zlen d1 =? 4)), (negb (zlen d2 =? 4)); try done.
  repeat match goal with |- context [k1 =? ?a] => destruct (Z.eqb_spec k1 a); [subst k1|] end;
  repeat match goal with |- context [k2 =? ?a] => destruct (Z.eqb_spec k2 a); [try congruence|] end; done.
Qed.
Definition kinds (l : list (Z * list Z)) : list Z := (filter relevant l).*1.
Lemma kinds_cons a l : kinds (a :: l) = if decide (relevant a) then a.1 :: kinds l else kinds l.
Proof. unfold kinds. rewrite filter_cons. by destruct (decide (relevant a)). Qed.
Lemma fold_attrs_perm l k i : l ≡ₚ k → NoDup (kinds l) →
  foldl (λ i a, parse_attr a.1 a.2 i) i l = foldl (λ i a, parse_attr a.1 a.2 i) i k.
Proof.
  intros Hp. revert i. induction Hp as [|x l k _ IH|x y l|l1 l2 l3 Hp1 IH1 _ IH2]; intros i Hn; [done|..]; cbn.
  - apply IH. rewrite kinds_cons in Hn. destruct (decide _); [by apply NoDup_cons in Hn as [_ ?]|done].
  - f_equal. apply parse_attr_comm. rewrite !kinds_cons in Hn.
    destruct (decide (relevant x)); [|auto]. destruct (decide (relevant y)); [|auto]. left. intros E.
    apply NoDup_cons in Hn as [Hn _]. apply Hn. rewrite E. left.
  - rewrite IH1 by done. apply IH2. unfold kinds. by rewrite <-Hp1.
Qed.
Lemma fold_attrs_other l i : Forall (λ a, ¬ relevant a) l → foldl (λ i a, parse_attr a.1 a.2 i) i l = i.
Proof. intros Hl. revert i. induction Hl as [|a l Ha _ IH]; intros i; cbn; [done|]. by rewrite parse_attr_other. Qed.
Lemma info_attrs_ok e : entry_ok e → Forall attr_ok (info_attrs (de_info e)).
Proof.
  intros He. assert (∀ k o, is_u 16 k → (∀ x, o = Some x → length x = 4%nat) → Forall attr_ok (opt_attr k o)) as Hopt.
  { intros k [x|] Hk Hx; [|constructor]. constructor; [|constructor]. split; cbn; [done|]. rewrite (Hx x eq_refl). lia. }
  assert (∀ (o : option Z) x, to_le 4 <$> o = Some x → length x = 4%nat) as Hle by (intros o x (z & _ & ->)%fmap_Some; by rewrite length_to_le).
  unfold info_attrs. repeat apply Forall_app_2; apply Hopt; try done; try apply Hle; intros x E; apply (en_addrs e He); auto.
Qed.
Lemma kinds_NoDup l : NoDup l.*1 → NoDup (kinds l).
Proof.
  induction l as [|a l IH]; [done|]. cbn [fmap list_fmap]. intros [Hn Hl]%NoDup_cons. rewrite kinds_cons. destruct (decide (relevant a)); [|by apply IH].
  apply NoDup_cons. split; [|by apply IH]. intros (b & E & [_ Hb]%list_elem_of_filter)%list_elem_of_fmap. apply Hn. rewrite E. by apply list_elem_of_fmap_2.
Qed.
Lemma info_kinds i : NoDup (kinds (info_attrs i)).
Proof.
  apply kinds_NoDup. unfold info_attrs. destruct (rt_destination i), (rt_oif i), (rt_gateway i), (rt_prefsrc i), (rt_metric i); refine (bool_decide_unpack _ _); vm_compute; exact I.
Qed.

(** In whatever order the kernel lists the attributes, and with whatever else it lists. *)
Lemma parse_entry e : entry_ok e → parse_route (entry_payload e) = Done (Some (de_info e)).
Proof.
  intros He. pose proof He as [Ha Hn Hx Hp]. rewrite parse_header.
  - do 2 f_equal. rewrite (fold_attrs_perm _ _ _ Hp).
    + rewrite foldl_app, fold_attrs_other by (eapply Forall_impl; [exact Hx|]; by intros ? []). destruct (de_info e) as [f d g o s m dl t pr ty]. unfold header_info, info_attrs.
      cbn [rt_family rt_destination rt_gateway rt_oif rt_prefsrc rt_metric rt_dst_len rt_table rt_protocol rt_type] in *.
      destruct d as [d|], o as [o|], g as [g|], s as [s|], m as [m|]; cbn [opt_attr fmap option_fmap option_map app foldl fst snd];
        rewrite ?parse_dst, ?parse_oif, ?parse_gateway, ?parse_prefsrc, ?parse_metric by first [apply Ha; tauto|apply Hn; tauto]; done.
    + unfold kinds. rewrite Hp, filter_app, (list_filter_none _ (de_extra e)) by (eapply Forall_impl; [exact Hx|]; by intros ? []). rewrite app_nil_r. apply info_kinds.
  - rewrite Hp. apply Forall_app_2; [by apply info_attrs_ok|]. eapply Forall_impl; [exact Hx|]. by intros ? [].
Qed.
#[export] Instance RouteInfo_eq_dec : EqDecision RouteInfo.
Proof. solve_decision. Defined.
Lemma owned_matches i d g o s m : owned_host_route_matches i d g o s m = bool_decide (i = route_info d g o s m).
Proof.
  destruct i as [f d' g' o' s' m' dl t pr ty]. unfold owned_host_route_matches, route_info.
  cbn [rt_family rt_destination rt_dst_len rt_table rt_protocol rt_type rt_gateway rt_oif rt_prefsrc rt_metric].
  apply eq_bool_prop_intro. rewrite !andb_True, !bool_decide_spec, !Is_true_true, !Z.eqb_eq. split; [intros H; destruct_and? H; by subst|]. intros [= -> -> -> -> -> -> -> -> -> ->]. by split_and!.
Qed.

(** C31. A route that the client created is the one it later finds in the kernel's dump.  For a
    dump of any entries (any family, prefix length, table, protocol, type, any of the
    attributes present or missing, in any order, and any others that the parser ignores),
    the client answers that its route is there exactly when some entry is an IPv4 unicast
    route of the main table with the program's protocol number and a 32-bit prefix, and its
    destination, gateway, interface, preferred source and metric are all the ones asked
    for.  The route it asks the kernel to create is such an entry. *)
Theorem owned_route_recognised (es : list DumpEntry) (d : list Z) (g : option (list Z)) (o : Z) (s : option (list Z)) (m sc : Z)
    (Hes : Forall entry_ok es) :
  owned_host_route_in_payloads (entry_payload <$> es) d g o s m =
    Done (Some (bool_decide (mkRouteInfo AF_INET (Some d) g (Some o) s (Some m) 32 RT_TABLE_MAIN RTPROT_UDP2RAW RTN_UNICAST ∈ de_info <$> es))) ∧
  (route_ok d g o s m → owned_host_route_in_payloads [host_route_body d g o s m sc] d g o s m = Done (Some true)).
Proof.
  split.
  - change (mkRouteInfo _ _ _ _ _ _ _ _ _ _) with (route_info d g o s m). induction Hes as [|e es He _ IH]; [done|]. cbn [fmap list_fmap owned_host_route_in_payloads].
    rewrite (parse_entry e He), bind_Done, owned_matches. destruct (bool_decide_reflect (de_info e = route_info d g o s m)) as [E|E].
    + rewrite bool_decide_true; [done|]. rewrite E. left.
    + rewrite IH. do 2 f_equal. apply bool_decide_ext. rewrite elem_of_cons. naive_solver.
  - intros Hr. rewrite own_entry_payload. cbn [owned_host_route_in_payloads]. rewrite parse_entry by by apply own_entry_ok. rewrite bind_Done, owned_matches.
    by rewrite bool_decide_true.
Qed.

(** A dump with an IPv6 route, a route of another protocol and the client's. *)
Definition demo_route_dump : list DumpEntry :=
  [mkDumpEntry (mkRouteInfo 10 None None (Some 2) None (Some 1024) 128 RT_TABLE_MAIN RTPROT_UDP2RAW RTN_UNICAST) 0 0 0 0
     [(RTA_DST, replicate 16 7)] [(RTA_PRIORITY, to_le 4 1024); (RTA_DST, replicate 16 7); (RTA_OIF, to_le 4 2)];
   mkDumpEntry (mkRouteInfo AF_INET (Some [9; 9; 9; 9]) None (Some 2) None (Some 3000000001) 32 RT_TABLE_MAIN 4 RTN_UNICAST) 0 0 253 0
     [] [(RTA_DST, [9; 9; 9; 9]); (RTA_OIF, to_le 4 2); (RTA_PRIORITY, to_le 4 3000000001)];
   mkDumpEntry (mkRouteInfo AF_INET (Some [9; 9; 9; 9]) (Some [10; 0; 0; 1]) (Some 2) None (Some 3000000000) 32 RT_TABLE_MAIN RTPROT_UDP2RAW RTN_UNICAST) 0 0 0 16
     [(99, [1; 2; 3])] ((99, [1; 2; 3]) :: reverse (route_attrs [9; 9; 9; 9] (Some [10; 0; 0; 1]) 2 None 3000000000))].
Lemma owned_route_recognised_witness :
  owned_host_route_in_payloads (entry_payload <$> demo_route_dump) [9; 9; 9; 9] (Some [10; 0; 0; 1]) 2 None 3000000000 = Done (Some true) ∧
  owned_host_route_in_payloads (entry_payload <$> demo_route_dump) [9; 9; 9; 9] None 2 None 3000000001 = Done (Some false).
Proof.
  assert (Forall entry_ok demo_route_dump) as He.
  { assert (∀ e, bool_decide (Forall (λ x, length (default [0; 0; 0; 0] x) = 4%nat) [rt_destination (de_info e); rt_gateway (de_info e); rt_prefsrc (de_info e)]) = true →
      bool_decide (Forall (λ x, 0 ≤ default 0 x < 2 ^ 32) [rt_oif (de_info e); rt_metric (de_info e)]) = true →
      Forall (λ a, attr_ok a ∧ ¬ relevant a) (de_extra e) → bool_decide (de_attrs e ≡ₚ info_attrs (de_info e) ++ de_extra e) = true → entry_ok e) as H.
    { intros e H1%bool_decide_eq_true H2%bool_decide_eq_true H3 H4%bool_decide_eq_true. rewrite !Forall_cons in H1. rewrite !Forall_cons in H2.
      constructor; [intros x [E|[E|E]]; rewrite E in H1; tauto|intros z [E|E]; rewrite E in H2; unfold is_u; tauto|done|done]. }
    repeat (apply Forall_cons_2; [apply H; [vm_compute; reflexivity|vm_compute; reflexivity|
      repeat (apply Forall_cons_2; [split; [done|]; refine (bool_decide_unpack _ _); vm_compute; exact I|]); apply Forall_nil_2|vm_compute; reflexivity]|]). apply Forall_nil_2. }
  destruct (owned_route_recognised demo_route_dump [9; 9; 9; 9] (Some [10; 0; 0; 1]) 2 None 3000000000 0 He) as [H1 _].
  destruct (owned_route_recognised demo_route_dump [9; 9; 9; 9] None 2 None 3000000001 0 He) as [H2 _].
  split; [rewrite H1; vm_compute; reflexivity|rewrite H2; vm_compute; reflexivity].
Defined.

(** * Metrics *)
Lemma lor_high z : is_u 31 z → Z.lor OWNED_METRIC_BIT z = 2 ^ 31 + z.
Proof.
  intros Hz. change OWNED_METRIC_BIT with (2 ^ 31). rewrite <-Z.add_nocarry_lor; [done|].
  apply Z.bits_inj'. intros i Hi. rewrite Z.land_spec, Z.bits_0, Z.pow2_bits_eqb by lia.
  destruct (Z.eqb_spec 31 i) as [<-|]; [|done]. apply is_u_bits in Hz as [_ Hz]; [|lia]. by rewrite Hz.
Qed.
Lemma land_mask z : Z.land z METRIC_MASK = wrap 31 z.
Proof. apply (Z.land_ones z 31). lia. Qed.
Lemma owned_metric_spec z : owned_metric z = 2 ^ 31 + wrap 31 z.
Proof. unfold owned_metric. rewrite land_mask, lor_high; [done|apply wrap_range; lia]. Qed.
Lemma next_metric_spec z : next_owned_metric z = 2 ^ 31 + wrap 31 (z + 1).
Proof.
  unfold next_owned_metric. rewrite land_mask, lor_high by (apply wrap_range; lia). f_equal. unfold wrap.
  change (2 ^ 32) with (2 * 2 ^ 31). rewrite (Z.mul_comm 2), Z.rem_mul_r by lia. rewrite Z.mul_comm, Z.mod_add, Z.mod_mod by lia. done.
Qed.
Definition metric_ok (m : Z) : Prop := 2 ^ 31 ≤ m < 2 ^ 32.
Lemma owned_metric_ok z : metric_ok (owned_metric z).
Proof. rewrite owned_metric_spec. pose proof (wrap_range 31 z). unfold metric_ok, is_u in *. lia. Qed.
Lemma next_metric_ok z : metric_ok (next_owned_metric z).
Proof. rewrite next_metric_spec. pose proof (wrap_range 31 (z + 1)). unfold metric_ok, is_u in *. lia. Qed.
Lemma metric_u32 m : metric_ok m → is_u 32 m.
Proof. unfold metric_ok, is_u. lia. Qed.
