(* ===== verification/Iptables.v ===== *)
(** The firewall rules of one process: [src/src/iptables.rs].

    Commands are text given to a shell; what they print is arbitrary text. *)
From stdpp Require Import strings.
From S2P Require Import Prelude Util Text NetText Ip Types World Config.

Definition IpAddr_string (a : IpAddr) : list Z :=
  match a with V4 o => ipv4_string o | V6 o => ipv6_string o end.

(** The text the shell is given. *)
Definition shell (cmd : list Z) (show_log : bool) : list Z := if show_log then cmd else cmd ++ str " 2>&1 ".
(** [sh -c]: the status and the output; a shell that does not start fails with none. *)
Definition run_command (cmd : list Z) (show_log : bool) : Io (bool * list Z) :=
  n ← next_net;
  emit (EvCmd (shell cmd show_log) (nio_cmd n).1 (nio_cmd n).2);;
  mret (nio_cmd n).

Definition base_command (cfg : Config) : list Z :=
  (if raw_is_v6 cfg then str "ip6tables " else str "iptables ") ++ (if cfg_wait_lock cfg then str "-w " else []).

Definition pattern_for (cfg : Config) (remote : SocketAddr) : list Z :=
  let v6 := raw_is_v6 cfg in
  if cfg_is_client cfg then
    let ip := IpAddr_string remote.1 in
    let port := dec_string remote.2 in
    match cfg_raw_mode cfg with
    | FakeTcp => str "-s " ++ ip ++ str " -p tcp -m tcp --sport " ++ port
    | RawUdp => str "-s " ++ ip ++ str " -p udp -m udp --sport " ++ port
    | RawIcmp =>
        if v6 then str "-s " ++ ip ++ str " -p icmpv6 --icmpv6-type 129"
        else str "-s " ++ ip ++ str " -p icmp --icmp-type 0"
    end
  else
    let p := if negb (is_unspecified (cfg_local_addr cfg).1)
             then str "-d " ++ IpAddr_string (cfg_local_addr cfg).1 ++ str " " else [] in
    let port := dec_string (cfg_local_addr cfg).2 in
    p ++ match cfg_raw_mode cfg with
         | FakeTcp => str "-p tcp -m tcp --dport " ++ port
         | RawUdp => str "-p udp -m udp --dport " ++ port
         | RawIcmp => if v6 then str "-p icmpv6 --icmpv6-type 128" else str "-p icmp --icmp-type 8"
         end.
Definition pattern (cfg : Config) : list Z := pattern_for cfg (cfg_remote_addr cfg).

(** * Listings *)
Definition normalized (token : list Z) : list Z :=
  match strip_suffix (str "/32") token with
  | Some t => t
  | None => match strip_suffix (str "/128") token with Some t => t | None => token end
  end.
(** [windows(2).position(..)] *)
Fixpoint jump_position (chain : list Z) (actual : list (list Z)) : option nat :=
  match actual with
  | a :: (b :: _) as rest =>
      if bool_decide (a = str "-j") && bool_decide (b = chain) then Some 0%nat
      else S <$> jump_position chain rest
  | _ => None
  end.
(** The loop over the tokens before the jump; [next] counts the expected tokens seen. *)
Fixpoint match_tokens (expected : list (list Z)) (next : nat) (tokens : list (list Z)) : nat :=
  match tokens with
  | [] => next
  | token :: tokens =>
      match_tokens expected
        (match expected !! next with
         | Some e => if bool_decide (normalized token = normalized e) then S next else next
         | None => next
         end) tokens
  end.
Definition line_has_jump (chain : list Z) (expected : list (list Z)) (line : list Z) : bool :=
  let actual := split_whitespace line in
  match jump_position chain actual with
  | None => false
  | Some jump => (match_tokens expected 0 (take jump actual) =? length expected)%nat
  end.
Definition listing_has_jump (output chain pattern : list Z) : bool :=
  existsb (line_has_jump chain (split_whitespace pattern)) (text_lines output).

(** * One-shot commands *)
Definition clear_all (cfg : Config) : Io unit :=
  let cmd := base_command cfg in
  run_command (cmd ++ str "-S|sed -n '/udp2rawDwrW/p'|sed -n 's/^-A/" ++ cmd ++ str "-D/p'|sh") true;;
  run_command (cmd ++ str "-S|sed -n '/udp2rawDwrW/p'|sed -n 's/^-N/" ++ cmd ++ str "-X/p'|sh") true;;
  mret tt.
Definition gen_add (cfg : Config) (pattern : list Z) : Io bool :=
  let cmd := base_command cfg in
  let chain := str "udp2rawDwrW_C" in
  let rule_keep := pattern ++ str " -j " ++ chain in
  let add := cmd ++ str "-I INPUT " ++ rule_keep in
  let del := cmd ++ str "-D INPUT " ++ rule_keep in
  run_command (cmd ++ str "-N " ++ chain) false;;
  run_command (cmd ++ str "-F " ++ chain) true;;
  run_command (cmd ++ str "-I " ++ chain ++ str " -j DROP") true;;
  run_command del false;;
  run_command del false;;
  r ← run_command add true;
  mret r.1.

(** * The rules of a process *)
Record Iptables := mkIptables {
  ipt_cmd : list Z;
  ipt_chain0 : list Z;
  ipt_chain1 : list Z;
  ipt_keep : bool;
  ipt_keep_index : Z;
  ipt_patterns : list (list Z) }.
Definition set_ipt_patterns (v : list (list Z)) (r : Iptables) : Iptables :=
  mkIptables (ipt_cmd r) (ipt_chain0 r) (ipt_chain1 r) (ipt_keep r) (ipt_keep_index r) v.
Definition set_ipt_keep_index (v : Z) (r : Iptables) : Iptables :=
  mkIptables (ipt_cmd r) (ipt_chain0 r) (ipt_chain1 r) (ipt_keep r) v (ipt_patterns r).
Definition chain (self : Iptables) (i : Z) : list Z := if i =? 0 then ipt_chain0 self else ipt_chain1 self.
(** [0..=(self.keep as usize)] *)
Definition managed (self : Iptables) : list Z := if ipt_keep self then [0; 1] else [0].

Definition jump_add (self : Iptables) (i : Z) (pattern : list Z) : list Z :=
  ipt_cmd self ++ str "-I INPUT " ++ pattern ++ str " -j " ++ chain self i.
Definition jump_del (self : Iptables) (i : Z) (pattern : list Z) : list Z :=
  ipt_cmd self ++ str "-D INPUT " ++ pattern ++ str " -j " ++ chain self i.
Definition list_input (self : Iptables) : list Z := ipt_cmd self ++ str "-S INPUT".
Definition active_chain (self : Iptables) : Z := if ipt_keep self then ipt_keep_index self mod 2 else 0.

Fixpoint clear_patterns (self : Iptables) (i : Z) (pats : list (list Z)) : Io unit :=
  match pats with
  | [] => mret tt
  | p :: pats => run_command (jump_del self i p) true;; clear_patterns self i pats
  end.
Fixpoint clear_chains (self : Iptables) (ids : list Z) : Io unit :=
  match ids with
  | [] => mret tt
  | i :: ids =>
      clear_patterns self i (ipt_patterns self);;
      run_command (ipt_cmd self ++ str "-F " ++ chain self i) true;;
      run_command (ipt_cmd self ++ str "-X " ++ chain self i) true;;
      clear_chains self ids
  end.
Definition clear (self : Iptables) : Io unit := clear_chains self (managed self).

(** The loop of [init]; a step that fails undoes what was done. *)
Fixpoint init_chains (it : Iptables) (pattern : list Z) (ids : list Z) : Io bool :=
  match ids with
  | [] => mret true
  | i :: ids =>
      run_command (ipt_cmd it ++ str "-N " ++ chain it i) false;;
      f ← run_command (ipt_cmd it ++ str "-F " ++ chain it i) true;
      if negb f.1 then clear it;; mret false else
      d ← run_command (ipt_cmd it ++ str "-I " ++ chain it i ++ str " -j DROP") true;
      if negb d.1 then clear it;; mret false else
      a ← run_command (jump_add it i pattern) true;
      if negb a.1 then clear it;; mret false else
      init_chains it pattern ids
  end.
Definition Iptables_init (cfg : Config) (pattern : list Z) (const_id : Z) (keep : bool) : Io (option Iptables) :=
  let name := str "udp2rawDwrW_" ++ hex_u32 const_id in
  let it := mkIptables (base_command cfg) (name ++ str "_C0") (name ++ str "_C1") keep 0 [pattern] in
  ok ← init_chains it pattern (managed it);
  mret (if (ok : bool) then Some it else None).

Definition add_pattern (self : Iptables) (pattern : list Z) : Io (bool * Iptables) :=
  if bool_decide (pattern ∈ ipt_patterns self) then mret (true, self) else
  r ← run_command (jump_add self (active_chain self) pattern) true;
  if negb r.1 then mret (false, self) else
  mret (true, set_ipt_patterns (ipt_patterns self ++ [pattern]) self).

Definition note_pattern (self : Iptables) (pattern : list Z) : Iptables :=
  if bool_decide (pattern ∈ ipt_patterns self) then self
  else set_ipt_patterns (ipt_patterns self ++ [pattern]) self.
(** [None] is the error: neither listed nor restored. *)
Definition reconcile_pattern (self : Iptables) (pattern : list Z) : Io (option bool * Iptables) :=
  l ← run_command (list_input self) false;
  if l.1 : bool then
    if listing_has_jump l.2 (chain self (active_chain self)) pattern
    then mret (Some true, note_pattern self pattern)
    else mret (Some false, set_ipt_patterns (filter (λ p, p ≠ pattern) (ipt_patterns self)) self)
  else
    a ← run_command (jump_add self (active_chain self) pattern) true;
    if negb a.1 then mret (None, self) else mret (Some true, note_pattern self pattern).

(** At most [n] deletions, until one fails. *)
Fixpoint delete_jumps (n : nat) (self : Iptables) (i : Z) (pattern : list Z) : Io unit :=
  match n with
  | O => mret tt
  | S n => r ← run_command (jump_del self i pattern) false; if negb r.1 then mret tt else delete_jumps n self i pattern
  end.
Fixpoint delete_managed (self : Iptables) (ids : list Z) (pattern : list Z) : Io unit :=
  match ids with
  | [] => mret tt
  | i :: ids => delete_jumps 4 self i pattern;; delete_managed self ids pattern
  end.
Definition del_pattern (self : Iptables) (pattern : list Z) : Io (bool * Iptables) :=
  match list_find (λ p, p = pattern) (ipt_patterns self) with
  | None => mret (true, self)
  | Some (pos, _) =>
      delete_managed self (managed self) pattern;;
      l ← run_command (list_input self) false;
      if negb l.1 then mret (false, self) else
      if existsb (λ i, listing_has_jump l.2 (chain self i) pattern) (managed self) then mret (false, self)
      else mret (true, set_ipt_patterns (delete pos (ipt_patterns self)) self)
  end.

(** [keep], run by the thread of [spawn_keep_thread] with the patterns locked. *)
Fixpoint keep_patterns (self : Iptables) (i : Z) (pats : list (list Z)) : Io unit :=
  match pats with
  | [] => mret tt
  | p :: pats =>
      run_command (jump_del self i p) false;;
      run_command (jump_del self i p) false;;
      run_command (jump_add self i p) true;;
      keep_patterns self i pats
  end.
Definition keep (self : Iptables) : Io Iptables :=
  let i := (ipt_keep_index self +⟨64⟩ 1) mod 2 in
  let self := set_ipt_keep_index (ipt_keep_index self +⟨64⟩ 1) self in
  run_command (ipt_cmd self ++ str "-N " ++ chain self i) false;;
  run_command (ipt_cmd self ++ str "-F " ++ chain self i) false;;
  run_command (ipt_cmd self ++ str "-I " ++ chain self i ++ str " -j DROP") false;;
  keep_patterns self i (ipt_patterns self);;
  mret self.

(** * What a listing shows *)
Definition jumps_at (chain : list Z) (actual : list (list Z)) (n : nat) : Prop :=
  ∃ pre post, actual = pre ++ str "-j" :: chain :: post ∧ length pre = n.
Lemma jumps_at_cons chain a rest n : jumps_at chain (a :: rest) (S n) ↔ jumps_at chain rest n.
Proof.
  split; intros (pre & post & E & El).
  - destruct pre as [|x pre]; [done|]. injection E as -> E. exists pre, post. split; [done|]. by injection El.
  - exists (a :: pre), post. cbn. by rewrite E, El.
Qed.
Lemma jumps_at_0 chain a rest : jumps_at chain (a :: rest) 0 ↔ a = str "-j" ∧ head rest = Some chain.
Proof.
  split.
  - intros (pre & post & E & El). destruct pre; [|done]. by injection E as -> ->.
  - intros [-> H]. destruct rest as [|b rest]; [done|]. injection H as ->. by exists [], rest.
Qed.
Lemma jumps_at_nil chain n : ¬ jumps_at chain [] n.
Proof. intros (pre & post & E & _). by destruct pre. Qed.
Lemma jump_position_spec chain actual n : jump_position chain actual = Some n ↔
  jumps_at chain actual n ∧ ∀ m, jumps_at chain actual m → (n ≤ m)%nat.
Proof.
  revert n. induction actual as [|a rest IH]; intros n.
  { split; [done|]. by intros [[]%jumps_at_nil _]. }
  destruct rest as [|b rest].
  { split; [done|]. intros [Hj _]. destruct n; [by apply jumps_at_0 in Hj as [_ ?]|by apply jumps_at_cons, jumps_at_nil in Hj]. }
  cbn [jump_position]. destruct (_ && _) eqn:E.
  - apply andb_true_iff in E as [->%bool_decide_eq_true ->%bool_decide_eq_true].
    assert (jumps_at chain (str "-j" :: chain :: rest) 0) as H0 by (by apply jumps_at_0).
    split; [intros [= <-]; split; [done|intros; lia]|]. intros [_ Hmin]. specialize (Hmin 0%nat H0). f_equal. lia.
  - assert (¬ jumps_at chain (a :: b :: rest) 0) as H0.
    { intros [-> [= ->]]%jumps_at_0. by rewrite !bool_decide_true in E. }
    rewrite fmap_Some. split.
    + intros (m & [Hm Hmin]%IH & ->). split; [by apply jumps_at_cons|]. intros [|k] Hk; [done|]. apply jumps_at_cons, Hmin in Hk. lia.
    + intros [Hn Hmin]. destruct n as [|n]; [done|]. exists n. split; [|done]. apply IH. split; [by apply jumps_at_cons in Hn|].
      intros m Hm. apply jumps_at_cons with (a := a), Hmin in Hm. lia.
Qed.

Lemma match_tokens_le expected n tokens : (n ≤ length expected)%nat → (match_tokens expected n tokens ≤ length expected)%nat.
Proof.
  revert n. induction tokens as [|t tokens IH]; intros n Hn; cbn; [done|]. apply IH.
  destruct (expected !! n) eqn:E; [|done]. apply lookup_lt_Some in E. case_bool_decide; lia.
Qed.
(** The greedy loop finds every subsequence. *)
Lemma match_tokens_spec expected n tokens : (n ≤ length expected)%nat →
  match_tokens expected n tokens = length expected ↔ sublist (normalized <$> drop n expected) (normalized <$> tokens).
Proof.
  revert n. induction tokens as [|t tokens IH]; intros n Hn; cbn [match_tokens].
  - split; [intros ->; by rewrite drop_all|]. intros H. apply sublist_nil_r, fmap_nil_inv in H.
    apply (f_equal length) in H. rewrite length_drop in H. cbn in H. lia.
  - destruct (expected !! n) as [e|] eqn:E.
    + rewrite (drop_S _ _ _ E). cbn [fmap list_fmap]. case_bool_decide as Et.
      * rewrite IH by (apply lookup_lt_Some in E; lia). rewrite Et. split; [by constructor|].
        intros [Hs|(k & [= <-] & Hs)]%sublist_cons_r; [|done]. etrans; [|exact Hs]. by constructor.
      * rewrite IH, (drop_S _ _ _ E) by done. split; [by constructor|].
        intros [Hs|(k & Hk & _)]%sublist_cons_r; [done|congruence].
    + apply lookup_ge_None in E. rewrite IH, drop_ge by lia. cbn. split; intros; apply sublist_nil_l.
Qed.

(** The listing check is exact: it answers yes exactly when some line jumps to the chain
    and carries, before its first such jump, every token of the pattern in order (host masks
    aside); other tokens between them, such as the module names iptables inserts, are
    tolerated, and a line for another chain, or one that lacks or reorders a token, is not
    accepted. *)
Theorem listing_has_jump_spec (output chain pattern : list Z) :
  listing_has_jump output chain pattern = true ↔
  ∃ line pre post, line ∈ text_lines output ∧ split_whitespace line = pre ++ str "-j" :: chain :: post ∧
    (∀ pre' post', split_whitespace line = pre' ++ str "-j" :: chain :: post' → (length pre ≤ length pre')%nat) ∧
    sublist (normalized <$> split_whitespace pattern) (normalized <$> pre).
Proof.
  unfold listing_has_jump. rewrite existsb_exists. split.
  - intros (line & Hl & Hj). exists line. unfold line_has_jump in Hj.
    destruct (jump_position _ _) as [n|] eqn:Ej; [|done]. apply jump_position_spec in Ej as [(pre & post & E & <-) Hmin].
    apply Nat.eqb_eq in Hj. rewrite E, take_app_length in Hj. apply match_tokens_spec in Hj; [|lia].
    exists pre, post. split_and!; [by apply list_elem_of_In|done| |by rewrite drop_0 in Hj].
    intros pre' post' E'. apply Hmin. by exists pre', post'.
  - intros (line & pre & post & Hl & E & Hmin & Hs). exists line. split; [by apply list_elem_of_In|].
    unfold line_has_jump. rewrite (proj2 (jump_position_spec chain _ (length pre))) by (split; [by exists pre, post|]; intros m (pre' & post' & E' & <-); by eapply Hmin).
    rewrite E, take_app_length. apply Nat.eqb_eq, match_tokens_spec; [lia|by rewrite drop_0].
Qed.

(** * The client's rules *)
(** What a rule drops: the packets of a source, of a protocol and source port or ICMP type. *)
Inductive RuleMatch := MTcp (port : Z) | MUdp (port : Z) | MIcmp | MIcmp6.
#[export] Instance RuleMatch_eq_dec : EqDecision RuleMatch.
Proof. solve_decision. Defined.
Record Rule := mkRule { ru_source : IpAddr; ru_match : RuleMatch }.
Definition client_rule (cfg : Config) (a : SocketAddr) : Rule :=
  mkRule a.1 (match cfg_raw_mode cfg with
              | FakeTcp => MTcp a.2
              | RawUdp => MUdp a.2
              | RawIcmp => if raw_is_v6 cfg then MIcmp6 else MIcmp
              end).
Definition match_ok (m : RuleMatch) : Prop := match m with MTcp p | MUdp p => is_u 16 p | _ => True end.
Definition rule_ok (r : Rule) : Prop := ip_ok (ru_source r) ∧ match_ok (ru_match r).
(** The tokens of a rule, as the command and as the listing spell them. *)
Definition match_tail (m : RuleMatch) (listed : bool) : list (list Z) :=
  match m with
  | MTcp port => [str "-p"; str "tcp"; str "-m"; str "tcp"; str "--sport"; dec_string port]
  | MUdp port => [str "-p"; str "udp"; str "-m"; str "udp"; str "--sport"; dec_string port]
  | MIcmp6 => [str "-p"; str "icmpv6"] ++ (if listed then [str "-m"; str "icmp6"] else []) ++ [str "--icmpv6-type"; str "129"]
  | MIcmp => [str "-p"; str "icmp"] ++ (if listed then [str "-m"; str "icmp"] else []) ++ [str "--icmp-type"; str "0"]
  end.
Definition rule_tokens (r : Rule) : list (list Z) := [str "-s"; IpAddr_string (ru_source r)] ++ match_tail (ru_match r) false.
Definition host_mask (a : IpAddr) : list Z := match a with V4 _ => str "/32" | V6 _ => str "/128" end.
Definition listed_tokens (r : Rule) : list (list Z) :=
  [str "-A"; str "INPUT"; str "-s"; IpAddr_string (ru_source r) ++ host_mask (ru_source r)] ++ match_tail (ru_match r) true.
Definition listed_rule (r : Rule) (chain : list Z) : list Z := join 32 (listed_tokens r ++ [str "-j"; chain]).

Lemma pattern_tokens cfg a : cfg_is_client cfg = true → pattern_for cfg a = join 32 (rule_tokens (client_rule cfg a)).
Proof.
  intros E. unfold pattern_for, rule_tokens, client_rule. rewrite E. cbn [ru_source ru_match].
  destruct (cfg_raw_mode cfg); [reflexivity|reflexivity|]. by destruct (raw_is_v6 cfg).
Qed.

Definition word (t : list Z) : Prop := t ≠ [] ∧ Forall graphic t.
Lemma word_const s : forallb (λ c, (33 <=? c) && (c <=? 126)) (str s) = true → str s ≠ [] → word (str s).
Proof.
  intros Hg Hn. split; [done|]. apply Forall_forall. intros c Hc. rewrite forallb_forall in Hg.
  specialize (Hg c (proj1 (list_elem_of_In _ _) Hc)). unfold graphic. lia.
Qed.
Lemma word_dec z : is_u 64 z → word (dec_string z).
Proof.
  intros Hz. split; [by apply dec_string_nonempty|]. eapply Forall_impl; [by apply dec_string_digits|]. apply graphic_digit.
Qed.
(** The texts of addresses. *)
Definition addr_char (c : Z) : Prop := to_digit 16 c ≠ None ∨ c = 46 ∨ c = 58.
Lemma addr_char_graphic c : addr_char c → graphic c ∧ c ≠ 47.
Proof. unfold addr_char, to_digit, in_range, graphic. intros [H|]; [|lia]. revert H. case_ifs; intros H; try done; lia. Qed.
Lemma digit_addr_char c : is_digit c = true → addr_char c.
Proof. intros H. left. intros E%digit_16. congruence. Qed.
Lemma ipv4_addr_chars o : v4_ok o → Forall addr_char (ipv4_string o).
Proof. intros Ho. apply Forall_forall. intros c Hc. destruct (ipv4_chars o c Ho Hc) as [H|H]; [by apply digit_addr_char|right; by left]. Qed.
Lemma groups_addr_chars gs : Forall (is_u 16) gs → Forall addr_char (join 58 (hex_digits 4 <$> gs)).
Proof.
  intros Hg. apply Forall_forall. intros c [->|(x & (g & -> & Hin)%list_elem_of_fmap & Hc)]%elem_of_join; [right; by right|].
  apply (proj1 (Forall_forall _ _) Hg) in Hin. destruct (group_text_props g Hin) as (H1 & _). apply radix_digits in H1. left. by apply (proj1 (Forall_forall _ _) H1).
Qed.
Lemma addr_chars a : ip_ok a → Forall addr_char (IpAddr_string a).
Proof.
  destruct a as [o|o]; [apply ipv4_addr_chars|]. intros [Hb Hl]. cbn [IpAddr_string]. unfold ipv6_string. pose proof (segments_u16 8 o Hl Hb) as Hu.
  case_bool_decide.
  - apply Forall_app_2; [|apply ipv4_addr_chars; split; [by apply Forall_drop|by rewrite length_drop, Hl]].
    repeat (apply Forall_cons_2; [by (left; vm_compute; discriminate) || by (right; right)|]). apply Forall_nil_2.
  - destruct (zero_run _ _ _ _) as [start len]. destruct (_ <? _)%nat; [|by apply groups_addr_chars].
    apply Forall_app_2; [by apply groups_addr_chars, Forall_take|]. apply Forall_app_2; [|by apply groups_addr_chars, Forall_drop].
    repeat (apply Forall_cons_2; [right; by right|]). apply Forall_nil_2.
Qed.
Lemma sep_in_join c x y ls : c ∈ join c (x :: y :: ls).
Proof. cbn [join]. apply elem_of_app. right. left. Qed.
(** What tells an address from the other tokens: a dot or a colon. *)
Lemma addr_mark a : ip_ok a → (46 ∈ IpAddr_string a) ∨ 58 ∈ IpAddr_string a.
Proof.
  destruct a as [o|o]; intros [Hb Hl]; cbn [IpAddr_string].
  - left. destruct o as [|x [|y o]]; [done|done|]. apply sep_in_join.
  - right. unfold ipv6_string. pose proof (segments_length 8 o Hl) as Hs. case_bool_decide; [left|].
    destruct (zero_run _ _ _ _) as [start len]. destruct (_ <? _)%nat; [rewrite !elem_of_app; right; left; left|].
    destruct (segments o) as [|g [|h gs]]; [done|done|]. apply sep_in_join.
Qed.
Lemma word_addr a : ip_ok a → word (IpAddr_string a).
Proof.
  intros Ha. split; [destruct (addr_mark a Ha) as [H|H]; intros E; rewrite E in H; by apply elem_of_nil in H|].
  eapply Forall_impl; [by apply addr_chars|]. by intros c []%addr_char_graphic.
Qed.
Lemma addr_no_slash a : ip_ok a → 47 ∉ IpAddr_string a.
Proof. intros Ha Hc. apply (proj1 (Forall_forall _ _) (addr_chars a Ha)) in Hc. by apply addr_char_graphic in Hc as [_ ?]. Qed.
Lemma ipv4_no_colon o : v4_ok o → 58 ∉ ipv4_string o.
Proof. intros Ho Hc. destruct (ipv4_chars o 58 Ho Hc) as [|]; done. Qed.
Lemma ipv6_colon o : ip_ok (V6 o) → 58 ∈ ipv6_string o.
Proof.
  intros Ho. destruct Ho as [Hb Hl]. unfold ipv6_string. pose proof (segments_length 8 o Hl) as Hs. case_bool_decide; [left|].
  destruct (zero_run _ _ _ _) as [start len]. destruct (_ <? _)%nat; [rewrite !elem_of_app; right; left; left|].
  destruct (segments o) as [|g [|h gs]]; [done|done|]. apply sep_in_join.
Qed.
Lemma addr_string_inj a b : ip_ok a → ip_ok b → IpAddr_string a = IpAddr_string b → a = b.
Proof.
  destruct a as [a|a], b as [b|b]; cbn [IpAddr_string]; intros Ha Hb E.
  - f_equal. apply (f_equal parse_ipv4) in E. rewrite !parse_ipv4_string in E by done. congruence.
  - pose proof (ipv6_colon b Hb) as H. rewrite <-E in H. by apply ipv4_no_colon in H.
  - pose proof (ipv6_colon a Ha) as H. rewrite E in H. by apply ipv4_no_colon in H.
  - f_equal. apply (f_equal (λ s, read_ipv6_addr (s ++ []))) in E. rewrite !read_ipv6_text in E by done. congruence.
Qed.
Lemma word_app s t : word s → Forall graphic t → word (s ++ t).
Proof. intros [Hn Hs] Ht. split; [by destruct s|by apply Forall_app_2]. Qed.
Lemma word_char c t : word t → graphic c ∨ c ∉ t.
Proof. intros [_ Ht]. destruct (decide (c ∈ t)) as [Hc|]; [left|by right]. by apply (proj1 (Forall_forall _ _) Ht). Qed.

Lemma word_port p : is_u 16 p → word (dec_string p).
Proof. intros Hp. apply word_dec. by eapply is_u_mono; [|exact Hp]. Qed.
Lemma match_tail_words m listed : match_ok m → Forall word (match_tail m listed).
Proof.
  intros Hm. destruct m, listed; cbn [match_tail app];
    repeat (apply Forall_cons_2; [first [by apply word_port|by apply word_const]|]); apply Forall_nil_2.
Qed.
Lemma rule_words r : rule_ok r → Forall word (rule_tokens r).
Proof. intros [Hi Hm]. repeat (apply Forall_cons_2; [first [by apply word_addr|by apply word_const]|]). by apply match_tail_words. Qed.

(** Different addresses have different rules. *)
Lemma client_rule_ok cfg a : ip_ok a.1 → is_u 16 a.2 → rule_ok (client_rule cfg a).
Proof. intros Ha Hp. split; [done|]. unfold client_rule. cbn. by destruct (cfg_raw_mode cfg), (raw_is_v6 cfg). Qed.
Lemma pattern_words cfg a : cfg_is_client cfg = true → ip_ok a.1 → is_u 16 a.2 →
  split_whitespace (pattern_for cfg a) = rule_tokens (client_rule cfg a).
Proof. intros Hc Hi Hp. rewrite pattern_tokens by done. by apply split_whitespace_join, rule_words, client_rule_ok. Qed.
Lemma pattern_inj cfg a b port : cfg_is_client cfg = true → v4_ok a → v4_ok b → is_u 16 port →
  pattern_for cfg (V4 a, port) = pattern_for cfg (V4 b, port) → a = b.
Proof.
  intros Hc Ha Hb Hp E. apply (f_equal split_whitespace) in E. rewrite !pattern_words in E by done.
  unfold rule_tokens in E. cbn [client_rule ru_source fst snd app] in E. injection E as E.
  assert (V4 a = V4 b) as [= ->]; [|done]. by apply addr_string_inj.
Qed.

Lemma strip_suffix_app p l : strip_suffix p (l ++ p) = Some l.
Proof.
  unfold strip_suffix. rewrite length_app, Nat.add_sub, drop_app_length, bool_decide_true, take_app_length by done. done.
Qed.
Lemma strip_suffix_char c p l : c ∈ p → c ∉ l → strip_suffix p l = None.
Proof.
  intros Hp Hl. unfold strip_suffix. case_bool_decide as E; [|done]. rewrite <-E in Hp.
  apply list_elem_of_lookup in Hp as (i & Hi). rewrite lookup_drop in Hi. by apply list_elem_of_lookup_2 in Hi.
Qed.
Lemma normalized_plain t : 47 ∉ t → normalized t = t.
Proof. intros H. unfold normalized. rewrite !(strip_suffix_char 47); [done|by left|done|by left|done]. Qed.
Lemma normalized_host t a : normalized (t ++ host_mask a) = t.
Proof.
  unfold normalized. destruct a; cbn [host_mask]; [by rewrite strip_suffix_app|].
  assert (strip_suffix (str "/32") (t ++ str "/128") = None) as ->; [|by rewrite strip_suffix_app].
  unfold strip_suffix. rewrite length_app. change (length (str "/128")) with 4%nat. change (length (str "/32")) with 3%nat.
  rewrite drop_app_ge by lia. replace (length t + 4 - 3 - length t)%nat with 1%nat by lia. done.
Qed.

Lemma jump_position_cons chain a b rest : jump_position chain (a :: b :: rest) =
  if bool_decide (a = str "-j") && bool_decide (b = chain) then Some 0%nat else S <$> jump_position chain (b :: rest).
Proof. reflexivity. Qed.
Lemma jump_position_app chain pre : Forall (λ t, t ≠ str "-j") pre →
  jump_position chain (pre ++ [str "-j"; chain]) = Some (length pre).
Proof.
  induction 1 as [|t pre Ht _ IH]; cbn [app].
  - cbn. by rewrite !bool_decide_true.
  - destruct (pre ++ [str "-j"; chain]) as [|b rest] eqn:E; [by destruct pre|].
    rewrite jump_position_cons, bool_decide_false by done. cbn [andb]. by rewrite IH.
Qed.

Section recognised.
Context (chain : list Z) (Hchain : word chain).

(** Tokens that are neither the jump flag nor an address. *)
Definition plain (t : list Z) : Prop := t ≠ str "-j" ∧ (46 ∉ t) ∧ (58 ∉ t) ∧ normalized t = t.
Lemma plain_const s : bool_decide (str s ≠ str "-j" ∧ (46 ∉ str s) ∧ (58 ∉ str s)) && bool_decide (normalized (str s) = str s) = true → plain (str s).
Proof. intros [(? & ? & ?)%bool_decide_eq_true ?%bool_decide_eq_true]%andb_true_iff. by split_and!. Qed.
Lemma port_no_char c p : is_digit c = false → is_u 16 p → c ∉ dec_string p.
Proof. intros Hc Hp. apply dec_no_char; [done|]. by eapply is_u_mono; [|exact Hp]. Qed.
Lemma plain_port p : is_u 16 p → plain (dec_string p).
Proof.
  intros Hp. split_and!; [|by apply port_no_char|by apply port_no_char|by apply normalized_plain, port_no_char].
  intros E. apply (port_no_char 45 p); [done|done|]. rewrite E. left.
Qed.
Lemma tail_plain m listed : match_ok m → Forall plain (match_tail m listed).
Proof.
  intros Hm. destruct m, listed; cbn [match_tail app];
    repeat (apply Forall_cons_2; [first [by apply plain_port|apply plain_const; vm_compute; reflexivity]|]); apply Forall_nil_2.
Qed.
Lemma tail_normal m listed : match_ok m → normalized <$> match_tail m listed = match_tail m listed.
Proof.
  intros Hm. rewrite <-list_fmap_id. apply Forall_fmap_ext_1. eapply Forall_impl; [by apply tail_plain|]. by intros ? (_ & _ & _ & ?).
Qed.

Lemma listed_rule_words r : rule_ok r → split_whitespace (listed_rule r chain) = listed_tokens r ++ [str "-j"; chain].
Proof using Hchain.
  intros [Hip Hm]. apply split_whitespace_join. unfold listed_tokens. cbn [app].
  do 3 (apply Forall_cons_2; [by apply word_const|]). apply Forall_cons_2.
  { apply word_app; [by apply word_addr|]. by destruct (ru_source r); [apply (word_const "/32")|apply (word_const "/128")]. }
  apply Forall_app_2; [by apply match_tail_words|]. apply Forall_cons_2; [by apply word_const|]. by apply Forall_cons_2.
Qed.
Lemma tail_sublist m : sublist (match_tail m false) (match_tail m true).
Proof. destruct m; [done|done|..]; cbn [match_tail app]; repeat constructor. Qed.
(** The tokens of a match tell it from the others. *)
Lemma port_eq p q : is_u 16 p → is_u 16 q → dec_string p = dec_string q → p = q.
Proof. intros Hp Hq E. apply (f_equal (parse_uint 16)) in E. rewrite !parse_dec in E by done. congruence. Qed.
Lemma const_not_port s p : existsb (λ c, negb (is_digit c)) (str s) = true → is_u 16 p → str s ≠ dec_string p.
Proof.
  intros (c & Hc%list_elem_of_In & Hn%negb_true_iff)%existsb_exists Hp E. rewrite E in Hc. by apply port_no_char in Hc.
Qed.
Lemma tail_inj m m' : match_ok m → match_ok m' → (∀ t, t ∈ match_tail m false → t ∈ match_tail m' true) → m = m'.
Proof.
  intros Hm Hm' Hin.
  assert (∀ s, str s ∈ match_tail m' true → existsb (λ c, negb (is_digit c)) (str s) = true →
    bool_decide (str s ∈ match_tail (match m' with MTcp _ => MTcp 0 | MUdp _ => MUdp 0 | m => m end) true) = true) as Hconst.
  { intros s Hs Hd. apply bool_decide_eq_true. destruct m' as [p|p| |]; try done; cbn [match_tail] in *; rewrite !elem_of_cons in Hs |- *;
      destruct Hs as [|[|[|[|[|[E|]]]]]]; try tauto; by apply const_not_port in E. }
  assert (∀ p, is_u 16 p → dec_string p ∈ match_tail m' true → (∃ q, (m' = MTcp q ∨ m' = MUdp q)) → m' = MTcp p ∨ m' = MUdp p) as Hport.
  { intros p Hp Hs (q & [->| ->]); cbn [match_tail] in Hs; rewrite !elem_of_cons in Hs;
      destruct Hs as [E|[E|[E|[E|[E|[E|[]%elem_of_nil]]]]]]; try (symmetry in E; by apply const_not_port in E); apply port_eq in E as ->; auto. }
  destruct m as [p|p| |]; cbn [match_tail app] in Hin.
  - specialize (Hconst "tcp" ltac:(apply Hin; right; left) eq_refl). destruct m' as [q|q| |]; try discriminate Hconst.
    destruct (Hport p Hm) as [?|?]; [apply Hin; do 5 right; left|by exists q; left|done|done].
  - specialize (Hconst "udp" ltac:(apply Hin; right; left) eq_refl). destruct m' as [q|q| |]; try discriminate Hconst.
    destruct (Hport p Hm) as [?|?]; [apply Hin; do 5 right; left|by exists q; right|done|done].
  - specialize (Hconst "icmp" ltac:(apply Hin; right; left) eq_refl). by destruct m'.
  - specialize (Hconst "icmpv6" ltac:(apply Hin; right; left) eq_refl). by destruct m'.
Qed.
(** The check of one line compares the rules. *)
Lemma listed_rule_jump r r' : rule_ok r → rule_ok r' → line_has_jump chain (rule_tokens r) (listed_rule r' chain) = true ↔ r = r'.
Proof using Hchain.
  intros Hr Hr'. unfold line_has_jump. rewrite listed_rule_words by done. destruct Hr as [Ha Hm], Hr' as [Ha' Hm'].
  assert (normalized <$> listed_tokens r' = [str "-A"; str "INPUT"; str "-s"; IpAddr_string (ru_source r')] ++ match_tail (ru_match r') true) as Epre.
  { unfold listed_tokens. rewrite fmap_app, tail_normal by done. f_equal. cbn [fmap list_fmap]. by rewrite normalized_host. }
  assert (normalized <$> rule_tokens r = rule_tokens r) as Eexp.
  { unfold rule_tokens. rewrite fmap_app, tail_normal by done. f_equal. cbn [fmap list_fmap]. by rewrite (normalized_plain (IpAddr_string _)) by by apply addr_no_slash. }
  rewrite jump_position_app, take_app_length.
  - rewrite Nat.eqb_eq, match_tokens_spec, drop_0, Epre, Eexp by lia. split.
    + intros Hs. assert (∀ t, t ∈ rule_tokens r → t ∈ [str "-A"; str "INPUT"; str "-s"; IpAddr_string (ru_source r')] ++ match_tail (ru_match r') true) as Hin.
      { intros t Ht. eapply elem_of_submseteq; [exact Ht|by apply sublist_submseteq]. }
      assert (ru_source r = ru_source r') as E1.
      { specialize (Hin (IpAddr_string (ru_source r)) ltac:(right; left)). pose proof (addr_mark _ Ha) as Hmark. apply elem_of_app in Hin as [Hin|Hin].
        - rewrite !elem_of_cons in Hin. destruct Hin as [E|[E|[E|[E|[]%elem_of_nil]]]]; [..|by apply addr_string_inj];
            rewrite E in Hmark; exfalso; revert Hmark; refine (bool_decide_unpack _ _); vm_compute; exact I.
        - destruct (proj1 (Forall_forall _ _) (tail_plain _ true Hm') _ Hin) as (_ & ? & ? & _). tauto. }
      assert (ru_match r = ru_match r') as E2; [|destruct r, r'; cbn in *; congruence].
      apply tail_inj; [done|done|]. intros t Ht. assert (plain t) as (_ & H46 & H58 & _) by (by apply (proj1 (Forall_forall _ _) (tail_plain _ false Hm))).
      assert (t ∉ [str "-A"; str "INPUT"; str "-s"; IpAddr_string (ru_source r')]) as Hnot.
      { rewrite !not_elem_of_cons. assert (bool_decide (t ∈ [str "-A"; str "INPUT"; str "-s"]) = false) as Hc.
        { clear -Ht Hm. apply bool_decide_eq_false. rewrite !elem_of_cons. intros Hc. destruct (ru_match r); cbn [match_tail app] in Ht; rewrite !elem_of_cons in Ht;
            destruct_or? Ht; try (by apply elem_of_nil in Ht); subst t; destruct_or? Hc; try (by apply elem_of_nil in Hc); try discriminate Hc;
            symmetry in Hc; by apply const_not_port in Hc. }
        apply bool_decide_eq_false in Hc. rewrite !not_elem_of_cons in Hc. destruct Hc as (? & ? & ? & _). split_and!; try done; [|apply not_elem_of_nil].
        intros ->. by destruct (addr_mark _ Ha'). }
      specialize (Hin t). apply elem_of_app in Hin as [?|?]; [done|done|]. apply elem_of_app. by right.
    + intros <-. unfold rule_tokens. cbn [app]. do 2 apply sublist_cons. do 2 apply sublist_skip. apply tail_sublist.
  - unfold listed_tokens. cbn [app]. do 3 (apply Forall_cons_2; [done|]). apply Forall_cons_2.
    + intros E. assert ((46 ∈ IpAddr_string (ru_source r')) ∨ 58 ∈ IpAddr_string (ru_source r')) as Hd by by apply addr_mark.
      assert ((46 ∈ str "-j") ∨ 58 ∈ str "-j") as Hj by (rewrite <-E, !elem_of_app; tauto).
      revert Hj. refine (bool_decide_unpack _ _). vm_compute. exact I.
    + eapply Forall_impl; [by apply tail_plain|]. by intros ? (? & _).
Qed.
End recognised.

(** C26. The rules of a client are told apart in a listing, by source address, protocol and port
    or ICMP type: when every line that jumps to the chain is the listed form of some rule
    of the kind the client adds, of any address of either family, any of the protocols and
    any port (the host mask added, module names inserted), with any other lines in
    between, the check finds the rule for a relay exactly when the listing has that very
    rule. *)
Theorem rule_recognised (cfg : Config) (a : SocketAddr) (chain output : list Z)
    (Hclient : cfg_is_client cfg = true) (Hip : ip_ok a.1) (Hport : is_u 16 a.2) (Hchain : word chain)
    (Hlines : Forall (λ l, jump_position chain (split_whitespace l) = None ∨ ∃ r, rule_ok r ∧ l = listed_rule r chain) (text_lines output)) :
  listing_has_jump output chain (pattern_for cfg a) = bool_decide (listed_rule (client_rule cfg a) chain ∈ text_lines output).
Proof.
  unfold listing_has_jump. apply eq_bool_prop_intro. rewrite Is_true_true, existsb_exists, bool_decide_spec, pattern_words by done.
  pose proof (client_rule_ok cfg a Hip Hport) as Hok. split.
  - intros (l & Hl & Hj). apply list_elem_of_In in Hl. destruct (proj1 (Forall_forall _ _) Hlines l Hl) as [E|(r & Hr & ->)].
    + unfold line_has_jump in Hj. by rewrite E in Hj.
    + by apply listed_rule_jump in Hj as ->.
  - intros Hl. exists (listed_rule (client_rule cfg a) chain). split; [by apply list_elem_of_In|]. by apply listed_rule_jump.
Qed.

(** A configuration of a client with FakeTCP over IPv4. *)
Definition rules_demo_cfg : Config :=
  mkConfig ModeClient (V4 [0; 0; 0; 0], 3333) (V4 [9; 9; 9; 9], 443) FakeTcp false false false false 3 None 1 1200 5 50 64 0 1
    None None false None None false.
Definition rules_demo_addr6 : list Z := [32; 1; 13; 184; 0; 0; 0; 0; 0; 0; 0; 0; 0; 0; 0; 1].
Definition rules_demo_listing : list Z :=
  str "-P INPUT ACCEPT" ++ [10] ++ listed_rule (mkRule (V4 [8; 8; 8; 8]) (MTcp 443)) (str "udp2rawC") ++ [10] ++
  listed_rule (mkRule (V4 [8; 8; 8; 9]) (MTcp 444)) (str "udp2rawC") ++ [10] ++ listed_rule (mkRule (V4 [8; 8; 8; 9]) (MUdp 443)) (str "udp2rawC") ++ [10] ++
  listed_rule (mkRule (V6 rules_demo_addr6) MIcmp6) (str "udp2rawC") ++ [10] ++ str "-A INPUT -j other".
Lemma rule_recognised_witness :
  listing_has_jump rules_demo_listing (str "udp2rawC") (pattern_for rules_demo_cfg (V4 [8; 8; 8; 8], 443)) = true ∧
  listing_has_jump rules_demo_listing (str "udp2rawC") (pattern_for rules_demo_cfg (V4 [8; 8; 8; 9], 443)) = false ∧
  listing_has_jump rules_demo_listing (str "udp2rawC") (pattern_for rules_demo_cfg (V6 rules_demo_addr6, 443)) = false.
Proof.
  assert (∀ o, bool_decide (Forall (λ b, 0 ≤ b < 256) o) = true → bytes o) as Hb by (intros o H; by apply bool_decide_eq_true in H).
  assert (Forall (λ l, jump_position (str "udp2rawC") (split_whitespace l) = None ∨
            ∃ r, rule_ok r ∧ l = listed_rule r (str "udp2rawC")) (text_lines rules_demo_listing)) as Hl.
  { assert (∀ r, bool_decide (Forall (λ b, 0 ≤ b < 256) (match ru_source r with V4 o | V6 o => o end)) = true → length (match ru_source r with V4 o | V6 o => o end) = (match ru_source r with V4 _ => 4 | V6 _ => 16 end)%nat → match_ok (ru_match r) →
      jump_position (str "udp2rawC") (split_whitespace (listed_rule r (str "udp2rawC"))) = None ∨ ∃ r', rule_ok r' ∧ listed_rule r (str "udp2rawC") = listed_rule r' (str "udp2rawC")) as Hr.
    { intros [[o|o] m] H1 H2 H3; right; eexists; (split; [|reflexivity]); (split; [split; [by apply Hb|done]|done]). }
    assert (text_lines rules_demo_listing = [str "-P INPUT ACCEPT"; listed_rule (mkRule (V4 [8; 8; 8; 8]) (MTcp 443)) (str "udp2rawC");
      listed_rule (mkRule (V4 [8; 8; 8; 9]) (MTcp 444)) (str "udp2rawC"); listed_rule (mkRule (V4 [8; 8; 8; 9]) (MUdp 443)) (str "udp2rawC");
      listed_rule (mkRule (V6 rules_demo_addr6) MIcmp6) (str "udp2rawC"); str "-A INPUT -j other"]) as -> by (vm_compute; reflexivity).
    repeat (apply Forall_cons_2; [first [left; reflexivity|by apply Hr]|]). apply Forall_nil_2. }
  assert (word (str "udp2rawC")) as Hw by (apply word_const; done).
  split_and!; (rewrite (rule_recognised rules_demo_cfg _ (str "udp2rawC") rules_demo_listing); [|done|by split; [apply Hb|]|done|done|exact Hl]);
    vm_compute; reflexivity.
Defined.
