(* ===== verification/Kernel.v ===== *)
(** The kernel's firewall and routes behind the client's commands: what the answers to
    [iptables] commands and netlink requests say of the rules and routes that exist, and what
    the operations of [src/src/iptables.rs] and [src/src/net/route.rs] do to them.

    The kernel is a relation: a creation or deletion of a route whose acknowledgement is lost
    may or may not have happened, and commands may fail at any time. *)
From stdpp Require Import strings.
From S2P Require Import Prelude Util Text Ip Types World Config Route Iptables.

(** The jumps of a process to its chain, by pattern, and its routes, by destination and metric;
    and which of the routes were once created by a request that was answered by an error. *)
Record Kernel := mkKernel { k_jumps : list Z → nat; k_routes : list Z → Z → bool; k_lost : list Z → Z → bool }.
Definition set_jumps (p : list Z) (n : nat) (K : Kernel) : Kernel :=
  mkKernel (λ q, if bool_decide (q = p) then n else k_jumps K q) (k_routes K) (k_lost K).
Definition set_at (d : list Z) (m : Z) (b : bool) (f : list Z → Z → bool) : list Z → Z → bool :=
  λ d' m', if bool_decide (d' = d ∧ m' = m) then b else f d' m'.
Definition set_route (d : list Z) (m : Z) (b : bool) (K : Kernel) : Kernel :=
  mkKernel (k_jumps K) (set_at d m b (k_routes K)) (k_lost K).
Definition lose_route (d : list Z) (m : Z) (K : Kernel) : Kernel :=
  mkKernel (k_jumps K) (set_at d m true (k_routes K)) (set_at d m true (k_lost K)).
Lemma set_at_eq d m b f : set_at d m b f d m = b.
Proof. unfold set_at. by rewrite bool_decide_true. Qed.
Lemma set_at_ne d m b f d' m' : (d', m') ≠ (d, m) → set_at d m b f d' m' = f d' m'.
Proof. intros H. unfold set_at. rewrite bool_decide_false; [done|]. intros [-> ->]. done. Qed.

Lemma delete_filter (l : list (list Z)) p i : NoDup l → l !! i = Some p → delete i l = filter (λ q, q ≠ p) l.
Proof.
  revert i. induction l as [|x l IH]; intros i Hn E; [done|]. apply NoDup_cons in Hn as [Hx Hn]. destruct i as [|i]; cbn in E; [change (delete 0%nat (x :: l)) with l|change (delete (S i) (x :: l)) with (x :: delete i l)].
  - injection E as ->. rewrite filter_cons, decide_False by tauto. symmetry. apply list_filter_all, Forall_forall. intros q Hq ->. done.
  - assert (x ≠ p) as Hne by (intros ->; apply Hx; by eapply list_elem_of_lookup_2). rewrite filter_cons, decide_True by done. by rewrite (IH i).
Qed.

Section kernel.
(** The command and the chain of the process, the patterns it uses, and the path of its routes. *)
Context (cmd chain0 : list Z) (ours : list Z → Prop).
Context (gw : option (list Z)) (oif : Z) (src : option (list Z)).

Inductive Command := CAdd (p : list Z) | CDel (p : list Z) | CList | COther.
Definition jump_of (r : list Z) : option (list Z) := strip_suffix (str " -j " ++ chain0) r.
Definition decode_cmd (text : list Z) : Command :=
  let body := default text (strip_suffix (str " 2>&1 ") text) in
  match strip_prefix (cmd ++ str "-I INPUT ") body ≫= jump_of, strip_prefix (cmd ++ str "-D INPUT ") body ≫= jump_of with
  | Some p, _ => CAdd p
  | _, Some p => CDel p
  | None, None => if bool_decide (body = cmd ++ str "-S INPUT") then CList else COther
  end.

Inductive Request := NNew (d : list Z) (m : Z) | NDel (d : list Z) (m : Z) | NDump | NOther.
Definition nl_type (msg : list Z) : Z := from_le (take 2 (drop 4 msg)).
Definition nl_body (msg : list Z) : list Z := drop 16 msg.
(** The destination and metric of a route of the process with this preferred source. *)
Definition own_route (source : option (list Z)) (body : list Z) : option (list Z * Z) :=
  match parse_route body with
  | Done (Some i) =>
      match rt_destination i, rt_metric i with
      | Some d, Some m => if owned_host_route_matches i d gw oif source m then Some (d, m) else None
      | _, _ => None
      end
  | _ => None
  end.
Definition decode_nl (msg : list Z) : Request :=
  if nl_type msg =? RTM_NEWROUTE then
    match own_route src (nl_body msg) with Some (d, m) => NNew d m | None => NOther end
  else if nl_type msg =? RTM_DELROUTE then
    match own_route None (nl_body msg) with Some (d, m) => NDel d m | None => NOther end
  else if (nl_type msg =? RTM_GETROUTE) && bool_decide (nl_body msg = owned_route_dump_body) then NDump
  else NOther.

(** One event: an insertion or deletion that succeeds has its effect and one that fails has
    none, but a route creation that fails may have had it, and so may a route deletion that
    fails for another reason than the route's absence; listings and dumps that succeed are
    complete. *)
Definition k_event (K : Kernel) (e : Event) (K' : Kernel) : Prop :=
  match e with
  | EvCmd text ok out =>
      match decode_cmd text with
      | CAdd p => K' = if ok then set_jumps p (S (k_jumps K p)) K else K
      | CDel p => K' = if ok then set_jumps p (pred (k_jumps K p)) K else K
      | CList => K' = K ∧
          (ok = true → ∀ p, ours p → listing_has_jump out chain0 p = bool_decide (0 < k_jumps K p)%nat)
      | COther => K' = K
      end
  | EvNl msg r =>
      match decode_nl msg with
      | NNew d m => match r with NlOk _ => K' = set_route d m true K | NlErr _ => K' = K ∨ K' = lose_route d m K end
      | NDel d m =>
          K' = set_route d m false K ∨ K' = K ∧ ∃ e, r = NlErr e ∧ gone e = false
      | NDump => K' = K ∧
          ∀ ps d m b, r = NlOk ps → owned_host_route_in_payloads ps d gw oif src m = Done (Some b) → k_routes K d m = b
      | NOther => K' = K
      end
  | _ => K' = K
  end.
Fixpoint krun (K : Kernel) (tr : list Event) (K' : Kernel) : Prop :=
  match tr with
  | [] => K' = K
  | e :: tr => ∃ K1, k_event K e K1 ∧ krun K1 tr K'
  end.

Lemma krun_app K tr1 tr2 K' : krun K (tr1 ++ tr2) K' ↔ ∃ K1, krun K tr1 K1 ∧ krun K1 tr2 K'.
Proof.
  revert K. induction tr1 as [|e tr1 IH]; intros K; cbn.
  - split; [intros H; by exists K|]. by intros (K1 & -> & H).
  - split.
    + intros (K1 & He & (K2 & H1 & H2)%IH). exists K2. eauto.
    + intros (K2 & (K1 & He & H1) & H2). exists K1. split; [done|]. apply IH. eauto.
Qed.

(** A computation's effect on the kernel, whatever the kernel was. *)
Definition acts (w w' : World) (P : Kernel → Kernel → Prop) : Prop :=
  ∃ tr, w_trace w' = w_trace w ++ tr ∧ ∀ K K', krun K tr K' → P K K'.
Lemma acts_refl w w' (P : Kernel → Kernel → Prop) : w_trace w' = w_trace w → (∀ K, P K K) → acts w w' P.
Proof. intros E HP. exists []. rewrite app_nil_r. split; [done|]. intros K K' ->. apply HP. Qed.
Lemma acts_trans w1 w2 w3 P1 P2 (P : Kernel → Kernel → Prop) : acts w1 w2 P1 → acts w2 w3 P2 →
  (∀ K1 K2 K3, P1 K1 K2 → P2 K2 K3 → P K1 K3) → acts w1 w3 P.
Proof.
  intros (t1 & E1 & H1) (t2 & E2 & H2) HP. exists (t1 ++ t2). split; [by rewrite E2, E1, app_assoc|].
  intros K K' (K1 & Ha & Hb)%krun_app. eauto.
Qed.
Lemma acts_one w w' e (P : Kernel → Kernel → Prop) : w_trace w' = w_trace w ++ [e] →
  (∀ K K', k_event K e K' → P K K') → acts w w' P.
Proof. intros E HP. exists [e]. split; [done|]. intros K K' (K1 & He & ->). by apply HP. Qed.
Lemma acts_mono w w' (P Q : Kernel → Kernel → Prop) : acts w w' P → (∀ K K', P K K' → Q K K') → acts w w' Q.
Proof. intros (tr & E & H) HQ. exists tr. eauto. Qed.

(** Events that say nothing about rules and routes. *)
Definition silent (e : Event) : Prop := match e with EvCmd _ _ _ | EvNl _ _ => False | _ => True end.
Lemma krun_silent K tr K' : Forall silent tr → krun K tr K' → K' = K.
Proof.
  intros H. revert K. induction H as [|e tr He _ IH]; intros K; cbn; [done|]. intros (K1 & Hk & Hr). apply IH in Hr as ->. by destruct e.
Qed.
Lemma acts_silent w w' tr : w_trace w' = w_trace w ++ tr → Forall silent tr → acts w w' (λ K K', K' = K).
Proof. intros E H. exists tr. split; [done|]. intros K K'. by apply krun_silent. Qed.

(** * Commands *)
Context (Hchain : word chain0).

Lemma last_graphic x l : word l → ∃ c, last (x ++ l) = Some c ∧ graphic c.
Proof.
  intros [Hn Hg]. destruct l as [|c l _] using rev_ind; [done|]. exists c. rewrite app_assoc, last_snoc. split; [done|].
  by apply Forall_app in Hg as [_ [Hg _]%Forall_cons].
Qed.
Lemma strip_suffix_last p l c : p ≠ [] → last l = Some c → last p ≠ Some c → strip_suffix p l = None.
Proof.
  intros Hp Hl Hc. unfold strip_suffix. case_bool_decide as E; [|done]. exfalso. apply Hc. rewrite <-E.
  destruct l as [|d l _] using rev_ind; [done|]. rewrite last_snoc in Hl. injection Hl as ->.
  rewrite length_app in *. cbn [length] in *.
  assert (1 ≤ length p)%nat by (destruct p; [done|cbn; lia]).
  rewrite drop_app_le, last_snoc by lia. done.
Qed.
Lemma strip_prefix_both a p l : strip_prefix (a ++ p) (a ++ l) = strip_prefix p l.
Proof.
  unfold strip_prefix. rewrite length_app, take_app_add, <-drop_drop, drop_app_length.
  destruct (bool_decide_reflect (take (length p) l = p)) as [E|E]; [by rewrite bool_decide_true by by rewrite E|].
  rewrite bool_decide_false; [done|]. by intros ?%app_inv_head.
Qed.

Context (ipt : Iptables) (Hcmd : ipt_cmd ipt = cmd) (Hch : ipt_chain0 ipt = chain0) (Hkeep : ipt_keep ipt = false).

Lemma shell_body (x : list Z) b : word x → ∀ pre, default (shell (pre ++ x) b) (strip_suffix (str " 2>&1 ") (shell (pre ++ x) b)) = pre ++ x.
Proof.
  intros Hx pre. destruct b; cbn [shell].
  - destruct (last_graphic pre x Hx) as (c & Hl & Hc). rewrite (strip_suffix_last _ _ c); [done|done|done|].
    vm_compute. intros [= <-]. unfold graphic in Hc. lia.
  - by rewrite strip_suffix_app.
Qed.
Lemma chain_0 : chain ipt 0 = chain0.
Proof using Hch. done. Qed.
Lemma active_0 : active_chain ipt = 0.
Proof using Hkeep. unfold active_chain. by rewrite Hkeep. Qed.
Lemma managed_0 : managed ipt = [0].
Proof using Hkeep. unfold managed. by rewrite Hkeep. Qed.

Lemma decode_add p b : decode_cmd (shell (jump_add ipt 0 p) b) = CAdd p.
Proof using Hchain Hcmd Hch.
  unfold decode_cmd, jump_add. rewrite chain_0, Hcmd. rewrite !app_assoc, shell_body by done. rewrite <-!app_assoc.
  rewrite strip_prefix_both, strip_prefix_app. cbn [mbind option_bind]. unfold jump_of. by rewrite strip_suffix_app.
Qed.
Lemma decode_del p b : decode_cmd (shell (jump_del ipt 0 p) b) = CDel p.
Proof using Hchain Hcmd Hch.
  unfold decode_cmd, jump_del. rewrite chain_0, Hcmd. rewrite !app_assoc, shell_body by done. rewrite <-!app_assoc.
  rewrite !strip_prefix_both, strip_prefix_app. change (strip_prefix (str "-I INPUT ") (str "-D INPUT " ++ _)) with (@None (list Z)).
  cbn [mbind option_bind]. unfold jump_of. by rewrite strip_suffix_app.
Qed.
Lemma decode_list b : decode_cmd (shell (list_input ipt) b) = CList.
Proof using Hcmd.
  unfold decode_cmd, list_input. rewrite Hcmd. change (str "-S INPUT") with (str "-S " ++ str "INPUT"). rewrite app_assoc.
  rewrite shell_body by by apply (word_const "INPUT"). rewrite <-app_assoc, !strip_prefix_both.
  change (strip_prefix (str "-I INPUT ") _) with (@None (list Z)). change (strip_prefix (str "-D INPUT ") _) with (@None (list Z)).
  cbn [mbind option_bind]. by rewrite bool_decide_true.
Qed.

(** What an operation on the rule of [p] leaves: the other rules and the routes as they were,
    and the rule there, gone, or either. *)
Definition rule_effect (p : list Z) (r : option bool) (K K' : Kernel) : Prop :=
  (∀ q, q ≠ p → k_jumps K' q = k_jumps K q) ∧ (k_routes K' = k_routes K ∧ k_lost K' = k_lost K) ∧
  match r with Some true => (0 < k_jumps K' p)%nat | Some false => k_jumps K' p = 0%nat | None => True end.
Lemma rule_effect_refl p K : rule_effect p None K K.
Proof. done. Qed.
Lemma rule_effect_trans p r r' K1 K2 K3 : rule_effect p r K1 K2 → rule_effect p r' K2 K3 → rule_effect p r' K1 K3.
Proof. intros (A1 & [B1 L1] & _) (A2 & [B2 L2] & C). split_and!; [|congruence|congruence|done]. intros q Hq. by rewrite A2, A1. Qed.
Lemma rule_effect_set p n K : rule_effect p None K (set_jumps p n K).
Proof. split_and!; try done. intros q Hq. cbn. by rewrite bool_decide_false. Qed.
Lemma rule_effect_add p K : rule_effect p (Some true) K (set_jumps p (S (k_jumps K p)) K).
Proof. split_and!; cbn; [intros q Hq; by rewrite bool_decide_false|done|done|]. rewrite bool_decide_true by done. lia. Qed.

Lemma runs_command c b w (Q : bool * list Z → World → Prop) : env_ok w →
  (∀ ok out w', later w w' → env_ok w' → w_trace w' = w_trace w ++ [EvCmd (shell c b) ok out] → Q (ok, out) w') →
  runs (run_command c b) w Q.
Proof.
  intros Hw HQ. apply runs_bind, runs_next_net; [done|]. intros n w1 _ _ Hl1 Ht1 Hw1.
  apply runs_bind, runs_emit; [done|]. intros w2 Hl2 Ht2 Hw2. apply runs_ret. destruct (nio_cmd n) as [ok out] eqn:E.
  apply HQ; [by transitivity w1|done|]. by rewrite Ht2, Ht1.
Qed.

Lemma runs_add_pattern p w : env_ok w → p ∉ ipt_patterns ipt →
  runs (add_pattern ipt p) w (λ r w', later w w' ∧ env_ok w' ∧
    if r.1 then r.2 = set_ipt_patterns (ipt_patterns ipt ++ [p]) ipt ∧ acts w w' (rule_effect p (Some true))
    else r.2 = ipt ∧ acts w w' (λ K K', K' = K)).
Proof using Hchain Hcmd Hch Hkeep.
  intros Hw Hp. unfold add_pattern. rewrite bool_decide_false, active_0 by done.
  apply runs_bind, runs_command; [done|]. intros ok out w1 Hl1 Hw1 Ht1. cbn [fst]. destruct ok; apply runs_ret; cbn [fst snd].
  - split_and!; try done. eapply acts_one; [exact Ht1|]. intros K K'. cbn [k_event]. rewrite decode_add. intros ->. apply rule_effect_add.
  - split_and!; try done. eapply acts_one; [exact Ht1|]. intros K K'. cbn [k_event]. by rewrite decode_add.
Qed.

Lemma note_known p : p ∈ ipt_patterns ipt → note_pattern ipt p = ipt.
Proof. intros. unfold note_pattern. by rewrite bool_decide_true. Qed.
Definition without (p : list Z) : Iptables := set_ipt_patterns (filter (λ q, q ≠ p) (ipt_patterns ipt)) ipt.
Lemma runs_reconcile_pattern p w : env_ok w → p ∈ ipt_patterns ipt → ours p →
  runs (reconcile_pattern ipt p) w (λ r w', later w w' ∧ env_ok w' ∧ acts w w' (rule_effect p r.1) ∧
    r.2 = if bool_decide (r.1 = Some false) then without p else ipt).
Proof using Hchain Hcmd Hch Hkeep.
  intros Hw Hp Hours. unfold reconcile_pattern. rewrite active_0.
  apply runs_bind, runs_command; [done|]. intros ok out w1 Hl1 Hw1 Ht1. cbn [fst snd]. destruct ok.
  - rewrite chain_0. destruct (listing_has_jump out chain0 p) eqn:Ej; apply runs_ret; cbn [fst snd]; split_and!; try done;
      try (by rewrite note_known); (eapply acts_one; [exact Ht1|]; intros K K'; cbn [k_event]; rewrite decode_list; intros [-> H];
      specialize (H eq_refl p Hours); rewrite Ej in H; symmetry in H; split_and!; try done).
    + by apply bool_decide_eq_true in H.
    + apply bool_decide_eq_false in H. cbn. lia.
  - apply runs_bind, runs_command; [done|]. intros ok out' w2 Hl2 Hw2 Ht2. cbn [fst snd].
    assert (acts w w1 (λ K K', K' = K)) as H1.
    { eapply acts_one; [exact Ht1|]. intros K K'. cbn [k_event]. rewrite decode_list. by intros [-> _]. }
    destruct ok; apply runs_ret; cbn [fst snd]; (split_and!; [by transitivity w1|done| |by rewrite ?note_known]).
    + eapply acts_trans; [exact H1|eapply acts_one; [exact Ht2|intros K K' HK; exact HK]|]. intros K1 K2 K3 ->. cbn [k_event].
      rewrite decode_add. intros ->. apply rule_effect_add.
    + eapply acts_trans; [exact H1|eapply acts_one; [exact Ht2|intros K K' HK; exact HK]|]. intros K1 K2 K3 ->. cbn [k_event].
      rewrite decode_add. by intros ->.
Qed.

Lemma runs_delete_jumps n p w : env_ok w →
  runs (delete_jumps n ipt 0 p) w (λ _ w', later w w' ∧ env_ok w' ∧ acts w w' (rule_effect p None)).
Proof using Hchain Hcmd Hch.
  revert w. induction n as [|n IH]; intros w Hw; cbn [delete_jumps].
  { apply runs_ret. split_and!; [done|done|by apply acts_refl]. }
  apply runs_bind, runs_command; [done|]. intros ok out w1 Hl1 Hw1 Ht1. cbn [fst].
  assert (acts w w1 (rule_effect p None)) as H1.
  { eapply acts_one; [exact Ht1|]. intros K K'. cbn [k_event]. rewrite decode_del. intros ->. destruct ok; [apply rule_effect_set|done]. }
  destruct ok; cbn [negb].
  - eapply runs_mono; [by apply IH|]. intros _ w2 (Hl2 & Hw2 & H2). split_and!; [by transitivity w1|done|].
    eapply acts_trans; [exact H1|exact H2|]. intros K1 K2 K3. apply rule_effect_trans.
  - by apply runs_ret.
Qed.

Lemma runs_del_pattern p w : env_ok w → p ∈ ipt_patterns ipt → NoDup (ipt_patterns ipt) → ours p →
  runs (del_pattern ipt p) w (λ r w', later w w' ∧ env_ok w' ∧ acts w w' (rule_effect p (if r.1 then Some false else None)) ∧
    r.2 = if r.1 then without p else ipt).
Proof using Hchain Hcmd Hch Hkeep.
  intros Hw Hp Hn Hours. unfold del_pattern.
  destruct (list_find _ _) as [[pos q]|] eqn:Ef; [|by apply list_find_None, Forall_forall with (x := p) in Ef].
  apply list_find_Some in Ef as (Eq & -> & _). rewrite managed_0. cbn [delete_managed existsb]. rewrite chain_0.
  apply runs_bind, runs_bind. eapply runs_mono; [by apply runs_delete_jumps|]. intros _ w1 (Hl1 & Hw1 & H1). apply runs_ret.
  apply runs_bind, runs_command; [done|]. intros ok out w2 Hl2 Hw2 Ht2. cbn [fst snd]. destruct ok; cbn [negb].
  - destruct (listing_has_jump out chain0 p) eqn:Ej; cbn [orb]; apply runs_ret; cbn [fst snd];
      (split_and!; [by transitivity w1|done| |try done; unfold without; by rewrite (delete_filter _ p)]);
      (eapply acts_trans; [exact H1|eapply acts_one; [exact Ht2|intros K K' HK; exact HK]|]); intros K1 K2 K3 HK; cbn [k_event];
      rewrite decode_list; intros [-> H]; (eapply rule_effect_trans; [exact HK|]); [done|].
    specialize (H eq_refl p Hours). rewrite Ej in H. symmetry in H. apply bool_decide_eq_false in H. split_and!; try done. cbn. lia.
  - apply runs_ret. cbn [fst snd]. split_and!; [by transitivity w1|done| |done].
    eapply acts_trans; [exact H1|eapply acts_one; [exact Ht2|intros K K' HK; exact HK]|]. intros K1 K2 K3 HK. cbn [k_event].
    rewrite decode_list. intros [-> _]. done.
Qed.

(** * Requests *)
Lemma nl_type_message ty flags seq body : is_u 16 ty → nl_type (message ty flags seq body) = ty.
Proof.
  intros Ht. unfold nl_type, message. rewrite drop_app_length' by by rewrite length_to_le.
  rewrite take_app_length' by by rewrite length_to_le. rewrite from_to_le. by apply wrap_small.
Qed.
Lemma nl_body_message ty flags seq body : nl_body (message ty flags seq body) = body.
Proof.
  unfold nl_body, message. rewrite !app_assoc. apply drop_app_length'. rewrite !length_app, !length_to_le. done.
Qed.
Lemma own_route_body d m s sc : route_ok d gw oif s m → own_route s (host_route_body d gw oif s m sc) = Some (d, m).
Proof.
  intros Hr. unfold own_route. rewrite own_entry_payload, parse_entry by by apply own_entry_ok. cbn [own_entry de_info route_info rt_destination rt_metric].
  change (mkRouteInfo _ _ _ _ _ _ _ _ _ _) with (route_info d gw oif s m). by rewrite owned_matches, bool_decide_true.
Qed.
Definition path_ok : Prop :=
  (∀ g, gw = Some g → v4_ok g) ∧ is_u 32 oif ∧ (∀ s, src = Some s → v4_ok s).
Lemma path_route d m : path_ok → v4_ok d → metric_ok m → route_ok d gw oif src m ∧ route_ok d gw oif None m.
Proof. intros (Hg & Ho & Hs) Hd Hm%metric_u32. by split; constructor. Qed.

Lemma decode_new d m flags seq : path_ok → v4_ok d → metric_ok m →
  decode_nl (message RTM_NEWROUTE flags seq (host_route_body d gw oif src m (route_scope gw))) = NNew d m.
Proof.
  intros Hp Hd Hm. unfold decode_nl. rewrite nl_type_message, nl_body_message, Z.eqb_refl by done.
  by rewrite own_route_body by by apply path_route.
Qed.
Lemma decode_del_route d m flags seq : path_ok → v4_ok d → metric_ok m →
  decode_nl (message RTM_DELROUTE flags seq (host_route_body d gw oif None m RT_SCOPE_NOWHERE)) = NDel d m.
Proof.
  intros Hp Hd Hm. unfold decode_nl. rewrite nl_type_message, nl_body_message by done.
  change (RTM_DELROUTE =? RTM_NEWROUTE) with false. rewrite Z.eqb_refl. cbn iota. by rewrite own_route_body by by apply path_route.
Qed.
Lemma decode_dump flags seq : decode_nl (message RTM_GETROUTE flags seq owned_route_dump_body) = NDump.
Proof.
  unfold decode_nl. rewrite nl_type_message, nl_body_message by done. change (RTM_GETROUTE =? RTM_NEWROUTE) with false.
  change (RTM_GETROUTE =? RTM_DELROUTE) with false. by rewrite Z.eqb_refl, bool_decide_true.
Qed.

(** What operations on the routes to [d] leave alone. *)
Definition towards (d : list Z) (K K' : Kernel) : Prop :=
  k_jumps K' = k_jumps K ∧ (∀ d' m, d' ≠ d → k_routes K' d' m = k_routes K d' m ∧ k_lost K' d' m = k_lost K d' m) ∧
  ∀ m, k_lost K d m = true → k_lost K' d m = true.
Lemma towards_trans d K1 K2 K3 : towards d K1 K2 → towards d K2 K3 → towards d K1 K3.
Proof.
  intros (J1 & R1 & L1) (J2 & R2 & L2). split_and!; [congruence| |auto]. intros d' m Hd. destruct (R1 d' m Hd), (R2 d' m Hd). split; congruence.
Qed.
(** A route of another metric: as it was, or created and not acknowledged. *)
Definition same_or_lost (d : list Z) (m : Z) (K K' : Kernel) : Prop :=
  k_routes K' d m = k_routes K d m ∨ k_routes K' d m = true ∧ k_lost K' d m = true.
(** Requests to create routes to [d] that were all answered by errors. *)
Definition losses (d : list Z) (K K' : Kernel) : Prop := towards d K K' ∧ ∀ m, same_or_lost d m K K'.
(** What an operation on the route to [d] of metric [m] leaves. *)
Definition route_effect (d : list Z) (m : Z) (r : option bool) (K K' : Kernel) : Prop :=
  towards d K K' ∧ (∀ m', m' ≠ m → same_or_lost d m' K K') ∧
  match r with Some b => k_routes K' d m = b | None => True end.
Lemma towards_refl d K : towards d K K.
Proof. done. Qed.
Lemma losses_refl d K : losses d K K.
Proof. split; [done|]. intros m. by left. Qed.
Lemma lose_losses d m K : losses d K (lose_route d m K).
Proof.
  split; [split_and!; [done| |]|].
  - intros d' m' Hd. cbn. by rewrite !set_at_ne by congruence.
  - intros m' Hm. cbn. unfold set_at. by case_bool_decide.
  - intros m'. unfold same_or_lost. cbn. unfold set_at. case_bool_decide; [by right|by left].
Qed.
Lemma losses_then d m r K1 K2 K3 : losses d K1 K2 → route_effect d m r K2 K3 → route_effect d m r K1 K3.
Proof.
  intros [T1 S1] (T2 & S2 & H). split_and!; [by eapply towards_trans| |done]. intros m' Hm. specialize (S1 m'). specialize (S2 m' Hm). unfold same_or_lost in *.
  destruct S2 as [S2|S2]; [|by right]. rewrite S2. destruct S1 as [S1|[S1 L1]]; [by left|]. right. split; [done|]. by apply T2.
Qed.
Lemma losses_trans d K1 K2 K3 : losses d K1 K2 → losses d K2 K3 → losses d K1 K3.
Proof.
  intros [T1 S1] [T2 S2]. split; [by eapply towards_trans|]. intros m'. specialize (S1 m'). specialize (S2 m'). unfold same_or_lost in *.
  destruct S2 as [S2|S2]; [|by right]. rewrite S2. destruct S1 as [S1|[S1 L1]]; [by left|]. right. split; [done|]. by apply T2.
Qed.
Lemma route_effect_set d m b K : route_effect d m (Some b) K (set_route d m b K).
Proof.
  split_and!; [split_and!; [done| |done]| |apply set_at_eq].
  - intros d' m' Hd. cbn. by rewrite set_at_ne by congruence.
  - intros m' Hm. left. cbn. by rewrite set_at_ne by congruence.
Qed.
Lemma route_effect_refl d m K : route_effect d m None K K.
Proof. split_and!; try done. intros m' _. by left. Qed.
Lemma route_effect_any d m b K K' : route_effect d m b K K' → route_effect d m None K K'.
Proof. by intros (T & S & _). Qed.
(** Every unacknowledged creation is in the trace. *)
Lemma krun_lost tr : ∀ K K', krun K tr K' → ∀ d m, k_lost K' d m = true →
  k_lost K d m = true ∨ ∃ msg e, EvNl msg (NlErr e) ∈ tr ∧ decode_nl msg = NNew d m.
Proof.
  induction tr as [|ev tr IH]; intros K K'; cbn [krun]; [intros ->; by left|]. intros (K1 & He & Hr) d m Hl.
  destruct (IH K1 K' Hr d m Hl) as [Hl1|(msg & e & Hin & Hd)]; [|right; exists msg, e; split; [by right|done]].
  destruct ev as [| | | | |text ok out|msg r]; cbn [k_event] in He; try (subst K1; by left).
  - destruct (decode_cmd text), ok; try (subst K1; by left); destruct He as [-> _]; by left.
  - destruct (decode_nl msg) as [d' m'|d' m'| |] eqn:Ed.
    + destruct r as [|e]; [subst K1; by left|]. destruct He as [->| ->]; [by left|]. cbn in Hl1. unfold set_at in Hl1. case_bool_decide as Hdm; [|by left].
      destruct Hdm as [-> ->]. right. exists msg, e. split; [by left|done].
    + destruct He as [->|[-> _]]; by left.
    + destruct He as [-> _]. by left.
    + subst K1. by left.
Qed.

Lemma acts_request ty flags body w w' r tr (P : Kernel → Kernel → Prop) : w_trace w' = w_trace w ++ tr →
  (tr = [] ∧ ∃ e, r = NlErr e ∧ gone e = false) ∨ (∃ seq, tr = [EvNl (message ty flags seq body) r]) →
  (∀ e, r = NlErr e → gone e = false → ∀ K, P K K) → (∀ seq K K', k_event K (EvNl (message ty flags seq body) r) K' → P K K') → acts w w' P.
Proof.
  intros Ht [(-> & e & He & Hg)|[seq ->]] H0 H1; [apply acts_refl; [by rewrite Ht, app_nil_r|by eapply H0]|]. by eapply acts_one; [exact Ht|apply H1].
Qed.

Lemma runs_create_route d m w : env_ok w → path_ok → v4_ok d → metric_ok m →
  runs (create_host_route d gw oif src m) w (λ r w', later w w' ∧ env_ok w' ∧
    acts w w' (match r with None => route_effect d m (Some true) | Some _ => losses d end)).
Proof.
  intros Hw Hp Hd Hm. apply runs_bind, runs_request; [done|]. intros r tr w1 Hl1 Ht1 Hw1 _ Htr. apply runs_ret.
  split_and!; [done|done|]. eapply acts_request; [exact Ht1|exact Htr| |].
  - intros e -> _ K. apply losses_refl.
  - intros seq K K'. cbn [k_event]. rewrite decode_new by done. destruct r; [intros ->; apply route_effect_set|].
    intros [->| ->]; [apply losses_refl|apply lose_losses].
Qed.
Lemma runs_delete_route d m w : env_ok w → path_ok → v4_ok d → metric_ok m →
  runs (delete_host_route d gw oif m) w (λ r w', later w w' ∧ env_ok w' ∧
    acts w w' (route_effect d m (match r with None => Some false | Some _ => None end))).
Proof.
  intros Hw Hp Hd Hm. apply runs_bind, runs_request; [done|]. intros r tr w1 Hl1 Ht1 Hw1 _ Htr. apply runs_ret.
  split_and!; [done|done|]. eapply acts_request; [exact Ht1|exact Htr| |].
  - intros e -> Hg K. rewrite Hg. apply route_effect_refl.
  - intros seq K K'. cbn [k_event]. rewrite decode_del_route by done. intros [->|(-> & e & -> & Hg)]; [|rewrite Hg; apply route_effect_refl].
    destruct r as [|e]; [apply route_effect_set|]. destruct (gone e); [apply route_effect_set|].
    eapply route_effect_any, route_effect_set.
Qed.
Lemma runs_route_exists d m w : env_ok w → path_ok → v4_ok d → metric_ok m →
  runs (owned_host_route_exists d gw oif src m) w (λ r w', later w w' ∧ env_ok w' ∧
    acts w w' (λ K K', K' = K ∧ ∀ b, r = Some b → k_routes K d m = b)).
Proof.
  intros Hw Hp Hd Hm. unfold owned_host_route_exists. apply runs_bind, runs_request; [done|].
  intros r tr w1 Hl1 Ht1 Hw1 Hr Htr.
  assert (acts w w1 (λ K K', K' = K ∧ ∀ ps b, r = NlOk ps → owned_host_route_in_payloads ps d gw oif src m = Done (Some b) → k_routes K d m = b)) as Ha.
  { eapply acts_request; [exact Ht1|exact Htr| |].
    - intros e -> _ K. done.
    - intros seq K K'. cbn [k_event]. rewrite decode_dump. intros [-> H]. split; [done|]. intros ps b. apply H. }
  destruct r as [ps|e].
  - destruct (in_payloads_total ps d gw oif src m Hr) as [b Eb]. eapply runs_lift; [exact Eb|]. split_and!; [done|done|].
    eapply acts_mono; [exact Ha|]. intros K K' [-> H]. split; [done|]. intros b' ->. by eapply H.
  - apply runs_ret. split_and!; [done|done|]. eapply acts_mono; [exact Ha|]. intros K K' [-> _]. done.
Qed.
End kernel.
