(* ===== verification/LowerLevel.v ===== *)
(** Link-layer discovery and the sockets the client binds: [src/src/net/lower_level.rs] and
    [src/src/net/addr.rs].  The texts of [/proc/net] are arbitrary. *)
From stdpp Require Import strings.
From S2P Require Import Prelude Util Text Ip Types World Config.

(** * [/proc/net/route] *)
Definition hex_digit_value (c : Z) : option Z :=
  if (48 <=? c) && (c <=? 57) then Some (c - 48)
  else if (97 <=? c) && (c <=? 102) then Some (c - 87)
  else if (65 <=? c) && (c <=? 70) then Some (c - 55)
  else None.
Fixpoint hex_value (acc : Z) (l : list Z) : option Z :=
  match l with
  | [] => Some acc
  | c :: l => match hex_digit_value c with Some d => hex_value (acc * 16 + d) l | None => None end
  end.
(** [u_w::from_str_radix(s, 16)]: an optional plus sign, then digits, within the width. *)
Definition from_str_radix_16 (w : Z) (s : list Z) : option Z :=
  match s with
  | [] => None
  | c :: r =>
      let s := if (c =? 43) && negb (bool_decide (r = [])) then r else s in
      v ← hex_value 0 s;
      if v <? 2 ^ w then Some v else None
  end.

Record ProcRoute := mkProcRoute { pr_if_name : list Z; pr_dest : Z; pr_mask : Z; pr_gw : Z; pr_flags : Z }.

(** [u32::from(Ipv4Addr::from(v.to_le_bytes()))] *)
Definition parse_hex_addr (s : list Z) : option Z :=
  v ← from_str_radix_16 32 s; Some (from_be (to_le 4 v)).

Fixpoint parse_route_lines (lines : list (list Z)) : option (list ProcRoute) :=
  match lines with
  | [] => Some []
  | line :: lines =>
      match split_whitespace line with
      | [] => parse_route_lines lines
      | [f0; f1; f2; f3; f4; f5; f6; f7; f8; f9; f10] =>
          dest ← parse_hex_addr f1;
          gw ← parse_hex_addr f2;
          flags ← from_str_radix_16 32 f3;
          mask ← parse_hex_addr f7;
          rest ← parse_route_lines lines;
          Some (mkProcRoute f0 dest mask gw flags :: rest)
      | _ => None
      end
  end.
Definition parse_routes (text : list Z) : option (list ProcRoute) := parse_route_lines (drop 1 (text_lines text)).

(** [if i == 32 { 0 } else { 0xffff_ffff << i }] *)
Definition net_mask (i : Z) : Z := if i =? 32 then 0 else wrap 32 (Z.shiftl 0xffffffff i).
Definition route_hits (routes : list ProcRoute) (ip mask : Z) : list ProcRoute :=
  filter (λ r, pr_mask r = mask ∧ Z.land (pr_dest r) mask = Z.land ip mask) routes.
(** The first mask, from the longest, that has a hit. *)
Fixpoint longest_hits (routes : list ProcRoute) (ip : Z) (masks : list Z) : list ProcRoute :=
  match masks with
  | [] => []
  | i :: masks =>
      match route_hits routes ip (net_mask i) with
      | [] => longest_hits routes ip masks
      | hits => hits
      end
  end.
Definition prefix_order : list Z := seqZ 0 33.
Fixpoint find_direct_dest (fuel : nat) (routes : list ProcRoute) (ip : Z) : option (Z * list Z) :=
  match fuel with
  | O => None
  | S fuel =>
      match longest_hits routes ip prefix_order with
      | [r] => if Z.land (pr_flags r) 2 =? 0 then Some (ip, pr_if_name r) else find_direct_dest fuel routes (pr_gw r)
      | _ => None
      end
  end.
Definition HOP_LIMIT : nat := 1000.

(** * [/proc/net/arp] *)
Definition parse_mac (s : list Z) : option (list Z) :=
  let parts := split_on 58 s in
  if zlen parts =? 6 then mapM (from_str_radix_16 8) parts else None.
Fixpoint arp_entries (lines : list (list Z)) (ip if_name : list Z) : option (list (list Z)) :=
  match lines with
  | [] => Some []
  | line :: lines =>
      match split_whitespace line with
      | [] => arp_entries lines ip if_name
      | [f0; f1; f2; f3; f4; f5] =>
          if negb (bool_decide (f5 = if_name)) || negb (bool_decide (parse_ipv4 f0 = Some ip)) then arp_entries lines ip if_name
          else
            mac ← parse_mac f3;
            rest ← arp_entries lines ip if_name;
            Some (mac :: rest)
      | _ => None
      end
  end.
Definition find_arp (text ip if_name : list Z) : option (list Z) :=
  found ← arp_entries (drop 1 (text_lines text)) ip if_name;
  match found with [mac] => Some mac | _ => None end.

(** * Interfaces and sockets *)
Definition IFNAMSIZ : Z := 16.
Definition interface_has_arp (name : list Z) : Io (option bool) :=
  n ← next_net; mret (if IFNAMSIZ <=? zlen name then None else nio_arp n).
(** [CString::new] refuses a NUL. *)
Definition if_nametoindex (name : list Z) : Io (option Z) :=
  if contains 0 name then mret None else n ← next_net; mret (nio_index n).
Definition bind_to_device (dev : list Z) : Io bool :=
  if (zlen dev =? 0) || (IFNAMSIZ <=? zlen dev) then mret false else n ← next_net; mret (nio_ok n).

Definition find_lower_level_info (ip : list Z) : Io (option (list Z * list Z * list Z)) :=
  if bool_decide (ip = [127; 0; 0; 1]) then mret (Some (ip, str "lo", replicate 6 0)) else
  n1 ← next_net;
  match nio_proc n1 with
  | None => mret None
  | Some route_text =>
      n2 ← next_net;
      match nio_proc n2 with
      | None => mret None
      | Some arp_text =>
          match (routes ← parse_routes route_text; find_direct_dest HOP_LIMIT routes (from_be ip)) with
          | None => mret None
          | Some (dest, if_name) =>
              let dest := to_be 4 dest in
              has_arp ← interface_has_arp if_name;
              match has_arp with
              | None => mret None
              | Some false => mret (Some (dest, if_name, replicate 6 0))
              | Some true => mret (mac ← find_arp arp_text dest if_name; Some (dest, if_name, mac))
              end
          end
      end
  end.

(** The address the kernel gives a socket connected to [remote], on [dev] if there is one. *)
Definition get_src_addr_dev (remote : SocketAddr) (dev : option (list Z)) : Io (option IpAddr) :=
  ok ← match dev with Some d => bind_to_device d | None => mret true end;
  if negb ok then mret None else n ← next_net; mret (nio_src n (is_ipv6 remote.1)).

(** A reserved port; the old reservation is closed first. *)
Fixpoint reserve_loop (fuel : nat) : Io (option (Z * Z)) :=
  match fuel with
  | O => mret None
  | S fuel =>
      v ← fast_random_u32;
      let port := 10000 + wrap 16 (v mod (65535 - 10000)) in
      n ← next_net;
      match nio_fd n with
      | Some fd => mret (Some (fd, port))
      | None => reserve_loop fuel
      end
  end.
Definition BIND_TRIES : nat := 1000.
Definition bind_new_random_port (old_fd : option Z) : Io (option (Z * Z)) :=
  match old_fd with Some fd => emit (EvClose fd) | None => mret tt end;;
  reserve_loop BIND_TRIES.

(** * What the calls give *)
(** A call that reads the environment and leaves no event. *)
Definition asks (w w' : World) : Prop := later w w' ∧ env_ok w' ∧ w_trace w' = w_trace w.
Lemma asks_refl w : env_ok w → asks w w.
Proof. intros Hw. unfold asks. by split_and!. Qed.
Lemma asks_trans w1 w2 w3 : asks w1 w2 → asks w2 w3 → asks w1 w3.
Proof. intros (L1 & E1 & T1) (L2 & E2 & T2). split_and!; [by transitivity w2|done|congruence]. Qed.
Lemma runs_ask w (Q : NetIo → World → Prop) : env_ok w →
  (∀ r w', (∀ v6 ip, nio_src r v6 = Some ip → ip_ok ip ∧ is_ipv6 ip = v6) → asks w w' → Q r w') → runs next_net w Q.
Proof. intros Hw HQ. apply runs_next_net; [done|]. intros r w' _ Hs Hl Ht Hw'. by apply HQ. Qed.

Lemma runs_index name w : env_ok w → runs (if_nametoindex name) w (λ _ w', asks w w').
Proof.
  intros Hw. unfold if_nametoindex. destruct (contains 0 name); [by apply runs_ret, asks_refl|]. apply runs_bind, runs_ask; [done|]. intros r w' _ Ha. by apply runs_ret.
Qed.
Lemma runs_device dev w : env_ok w → runs (bind_to_device dev) w (λ _ w', asks w w').
Proof.
  intros Hw. unfold bind_to_device. destruct (_ || _); [by apply runs_ret, asks_refl|]. apply runs_bind, runs_ask; [done|]. intros r w' _ Ha. by apply runs_ret.
Qed.
Lemma runs_src remote dev w : env_ok w →
  runs (get_src_addr_dev remote dev) w (λ o w', asks w w' ∧ ∀ ip, o = Some ip → ip_ok ip ∧ is_ipv6 ip = is_ipv6 remote.1).
Proof.
  intros Hw. unfold get_src_addr_dev. apply runs_bind. apply (runs_mono _ _ (λ _ w', asks w w')).
  { destruct dev; [by apply runs_device|by apply runs_ret, asks_refl]. }
  intros ok w1 Ha1. destruct ok; cbn [negb]; [|by apply runs_ret]. pose proof Ha1 as (_ & Hw1 & _).
  apply runs_bind, runs_ask; [done|]. intros r w2 Hs Ha2. apply runs_ret. split; [by eapply asks_trans|]. apply Hs.
Qed.

Lemma parse_mac_length s m : parse_mac s = Some m → length m = 6%nat.
Proof.
  unfold parse_mac. destruct (Z.eqb_spec (zlen (split_on 58 s)) 6); [|done]. intros E%length_mapM. lia.
Qed.
Lemma arp_length lines ip name l : arp_entries lines ip name = Some l → Forall (λ m, length m = 6%nat) l.
Proof.
  revert l. induction lines as [|line lines IH]; intros l; cbn [arp_entries]; [by intros [= <-]|].
  destruct (split_whitespace line) as [|f0 [|f1 [|f2 [|f3 [|f4 [|f5 [|]]]]]]]; try done; [apply IH|].
  destruct (_ || _); [apply IH|]. intros (m & Hm%parse_mac_length & (rest & Hr & [= <-])%bind_Some)%bind_Some. constructor; auto.
Qed.
Lemma find_arp_length text ip name m : find_arp text ip name = Some m → length m = 6%nat.
Proof.
  unfold find_arp. intros (l & Hl%arp_length & E)%bind_Some. destruct l as [|x [|]]; try done. injection E as <-. by apply Forall_inv in Hl.
Qed.
(** The hardware address found has six bytes. *)
Lemma runs_lower_level ip w : env_ok w →
  runs (find_lower_level_info ip) w (λ o w', asks w w' ∧ ∀ d name m, o = Some (d, name, m) → length m = 6%nat).
Proof.
  intros Hw. unfold find_lower_level_info. case_bool_decide.
  { apply runs_ret. split; [by apply asks_refl|]. by intros d name m [= _ _ <-]. }
  apply runs_bind, runs_ask; [done|]. intros n1 w1 _ Ha1. destruct (nio_proc n1) as [rt|]; [|by apply runs_ret]. pose proof Ha1 as (_ & Hw1 & _).
  apply runs_bind, runs_ask; [done|]. intros n2 w2 _ Ha2. pose proof (asks_trans _ _ _ Ha1 Ha2) as Ha. destruct (nio_proc n2) as [at_|]; [|by apply runs_ret].
  destruct (_ ≫= _) as [[dest name]|]; [|by apply runs_ret]. pose proof Ha2 as (_ & Hw2 & _). cbv zeta.
  apply runs_bind. unfold interface_has_arp. apply runs_bind, runs_ask; [done|]. intros n3 w3 _ Ha3. apply runs_ret.
  pose proof (asks_trans _ _ _ Ha Ha3) as Ha'. destruct (if _ <=? _ then _ else _) as [[]|]; apply runs_ret; (split; [done|]); [|by intros d nm m [= _ _ <-]|done].
  intros d nm m E. destruct (find_arp _ _ _) as [x|] eqn:Ex; [|done]. injection E as _ _ <-. by eapply find_arp_length.
Qed.

(** The reserved port is between 10000 and 65534. *)
Lemma runs_reserve fuel w : env_ok w →
  runs (reserve_loop fuel) w (λ o w', asks w w' ∧ ∀ fd p, o = Some (fd, p) → 10000 ≤ p < 65535).
Proof.
  revert w. induction fuel as [|fuel IH]; intros w Hw; cbn [reserve_loop]; [by apply runs_ret; split; [apply asks_refl|]|].
  apply runs_bind, runs_fast; [done|]. intros v w1 Hv Hl1 Ht1 Hw1. cbv zeta. apply runs_bind, runs_ask; [done|]. intros r w2 _ Ha2.
  assert (asks w w2) as Ha by (eapply asks_trans; [|exact Ha2]; by split_and!). destruct (nio_fd r) as [fd|].
  - apply runs_ret. split; [done|]. intros fd' p [= _ <-]. pose proof (Z.mod_pos_bound v (65535 - 10000) ltac:(lia)).
    rewrite wrap_small by (unfold is_u; lia). lia.
  - pose proof Ha2 as (_ & Hw2 & _). eapply runs_mono; [by apply IH|]. intros o w3 [Ha3 Ho]. split; [by eapply asks_trans|done].
Qed.
