(* ===== verification/Resources.v ===== *)
(** The route and the firewall rule of one relay address: [EndpointResources] of
    [src/src/client.rs].

    The callbacks of the source capture mutable variables; here they thread a state [S]. *)
From S2P Require Import Prelude World.

Inductive ManagedState := NotNeeded | Missing | Present | Removing.
#[export] Instance ManagedState_eq_dec : EqDecision ManagedState.
Proof. solve_decision. Defined.
Inductive ReconcileResult := ResPresent | ResAbsent | ResUnknown.

Record EndpointResources := mkResources { rs_route : ManagedState; rs_rule : ManagedState; rs_releasing : bool }.
Definition set_rs_route (v : ManagedState) (r : EndpointResources) : EndpointResources :=
  mkResources v (rs_rule r) (rs_releasing r).
Definition set_rs_rule (v : ManagedState) (r : EndpointResources) : EndpointResources :=
  mkResources (rs_route r) v (rs_releasing r).
Definition set_rs_releasing (v : bool) (r : EndpointResources) : EndpointResources :=
  mkResources (rs_route r) (rs_rule r) v.

Definition Resources_new (route_needed rule_needed : bool) : EndpointResources :=
  mkResources (if route_needed then Missing else NotNeeded) (if rule_needed then Missing else NotNeeded) false.
Definition mark_initial_rule_present (self : EndpointResources) : EndpointResources :=
  if bool_decide (rs_rule self = NotNeeded) then self else set_rs_rule Present self.

Section callbacks.
Context {S : Type}.

Definition attempt_adds (add_route add_rule : S → Io (bool * S)) (self : EndpointResources) (s : S)
    : Io (EndpointResources * S) :=
  if rs_releasing self then mret (self, s) else
  r ← (if bool_decide (rs_route self = Missing) then
         a ← add_route s; mret (if a.1 : bool then set_rs_route Present self else self, a.2)
       else mret (self, s));
  let '(self, s) := r in
  if bool_decide (rs_rule self = Missing) then
    a ← add_rule s; mret (if a.1 : bool then set_rs_rule Present self else self, a.2)
  else mret (self, s).

Definition begin_release (self : EndpointResources) : EndpointResources :=
  let self := set_rs_releasing true self in
  let self := if bool_decide (rs_route self = Present) then set_rs_route Removing self else self in
  if bool_decide (rs_rule self = Present) then set_rs_rule Removing self else self.
Definition cancel_release (self : EndpointResources) : EndpointResources := set_rs_releasing false self.

Definition reconciled (r : ReconcileResult) : ManagedState :=
  match r with ResPresent => Present | ResAbsent => Missing | ResUnknown => Removing end.
Definition attempt_reconcile_for_retain (reconcile_route reconcile_rule : S → Io (ReconcileResult * S))
    (self : EndpointResources) (s : S) : Io (EndpointResources * S) :=
  if rs_releasing self then mret (self, s) else
  r ← (if bool_decide (rs_route self = Removing) then
         a ← reconcile_route s; mret (set_rs_route (reconciled a.1) self, a.2)
       else mret (self, s));
  let '(self, s) := r in
  if bool_decide (rs_rule self = Removing) then
    a ← reconcile_rule s; mret (set_rs_rule (reconciled a.1) self, a.2)
  else mret (self, s).

Definition attempt_cleanup (delete_route delete_rule : S → Io (bool * S)) (self : EndpointResources) (s : S)
    : Io (EndpointResources * S) :=
  if negb (rs_releasing self) then mret (self, s) else
  r ← (if bool_decide (rs_route self = Removing) then
         a ← delete_route s; mret (if a.1 : bool then set_rs_route Missing self else self, a.2)
       else mret (self, s));
  let '(self, s) := r in
  if bool_decide (rs_rule self = Removing) then
    a ← delete_rule s; mret (if a.1 : bool then set_rs_rule Missing self else self, a.2)
  else mret (self, s).
End callbacks.

Definition absent (m : ManagedState) : bool := match m with Missing | NotNeeded => true | _ => false end.
Definition usable (m : ManagedState) : bool := match m with Present | NotNeeded => true | _ => false end.
Definition cleanup_complete (self : EndpointResources) : bool :=
  rs_releasing self && absent (rs_route self) && absent (rs_rule self).
Definition ready (self : EndpointResources) : bool :=
  negb (rs_releasing self) && usable (rs_route self) && usable (rs_rule self).
