(* ===== verification/Endpoint.v ===== *)
(** The client's relay endpoint: the controller of [src/src/endpoint.rs].

    Which address is in use, which ones DNS offers, which one is committed as good, and when
    to query and to switch.  The resolver, the wall clock and the state files are those of
    the environment; whether a cache file is configured is a flag.  An [Err] is [None]. *)
From stdpp Require Import strings.
From S2P Require Import Prelude Util Text Ip EndpointState EndpointCache Types World Config.

Definition MIN_PROMOTION_DATA_PACKETS : Z := 3.

Inductive EndpointSpec :=
| Literal (a : SocketAddr)
| Hostname (name : list Z) (port : Z).
Definition spec_port (s : EndpointSpec) : Z := match s with Literal a => a.2 | Hostname _ port => port end.
Definition spec_is_dynamic (s : EndpointSpec) : bool := match s with Literal _ => false | Hostname _ _ => true end.
Definition spec_hostname (s : EndpointSpec) : option (list Z) :=
  match s with Literal _ => None | Hostname name _ => Some name end.

Record EndpointOptions := mkEndpointOptions {
  op_allow_private : bool;
  op_cache_file : bool;
  op_bootstrap : option Ipv4Addr;
  op_backoff_min_ms : Z;
  op_backoff_max_ms : Z;
  op_fallback : LastGoodFallbackPolicy }.

(** * Backoff *)
Record Backoff := mkBackoff { bk_failures : Z; bk_not_before : Z; bk_min : Z; bk_max : Z }.
Definition Backoff_new (min_ms max_ms : Z) : Backoff := mkBackoff 0 0 (Z.max min_ms 1) (Z.max max_ms (Z.max min_ms 1)).
Definition backoff_ready (b : Backoff) (now : Z) : bool := bk_not_before b <=? now.
Definition backoff_on_failure (b : Backoff) (now : Z) : Io (Z * Backoff) :=
  let base := Z.min (saturating_mul 64 (bk_min b) (Z.shiftl 1 (Z.min (bk_failures b) 20))) (bk_max b) in
  let jitter_span := base / 2 in
  jitter ← (if jitter_span =? 0 then mret 0 else r ← fast_random_u32; mret (r mod (jitter_span + 1)));
  let lo := Z.min (bk_min b) (bk_max b) in
  let hi := saturating_add 64 (bk_max b) (bk_max b / 4) in
  let delay := Z.min (Z.max ((base - base / 4) +⟨64⟩ jitter) lo) hi in
  mret (delay, mkBackoff (saturating_add 32 (bk_failures b) 1) (saturating_add 64 now delay) (bk_min b) (bk_max b)).
Definition backoff_on_success (b : Backoff) : Backoff := mkBackoff 0 0 (bk_min b) (bk_max b).
Definition backoff_on_pending_success (b : Backoff) (now : Z) : Backoff :=
  mkBackoff 0 (saturating_add 64 now (bk_min b)) (bk_min b) (bk_max b).

Inductive CycleReason := Startup | AttemptFailed | SessionLost | Forced | ProbationExpired | OperatorRollback.
#[export] Instance CycleReason_eq_dec : EqDecision CycleReason.
Proof. solve_decision. Defined.
(** The reason given in [why] only reaches the log. *)
Record Switch := mkSwitch { sw_from : SocketAddr; sw_to : SocketAddr }.

Record Probation := mkProbation {
  pb_candidate : Ipv4Addr;
  pb_rollback : Ipv4Addr;
  pb_authenticated_at : Z;
  pb_direct_return : bool;
  pb_rollback_at : option Z;
  pb_rollback_authorized : bool;
  pb_first_data : option Z;
  pb_last_data : option Z;
  pb_data_packets : Z }.
Definition set_pb_candidate (v : Ipv4Addr) (r : Probation) : Probation :=
  mkProbation v (pb_rollback r) (pb_authenticated_at r) (pb_direct_return r) (pb_rollback_at r)
    (pb_rollback_authorized r) (pb_first_data r) (pb_last_data r) (pb_data_packets r).
Definition set_pb_rollback (v : Ipv4Addr) (r : Probation) : Probation :=
  mkProbation (pb_candidate r) v (pb_authenticated_at r) (pb_direct_return r)
    (pb_rollback_at r) (pb_rollback_authorized r) (pb_first_data r) (pb_last_data r)
    (pb_data_packets r).
Definition set_pb_authenticated_at (v : Z) (r : Probation) : Probation :=
  mkProbation (pb_candidate r) (pb_rollback r) v (pb_direct_return r) (pb_rollback_at r)
    (pb_rollback_authorized r) (pb_first_data r) (pb_last_data r) (pb_data_packets r).
Definition set_pb_direct_return (v : bool) (r : Probation) : Probation :=
  mkProbation (pb_candidate r) (pb_rollback r) (pb_authenticated_at r) v (pb_rollback_at r)
    (pb_rollback_authorized r) (pb_first_data r) (pb_last_data r) (pb_data_packets r).
Definition set_pb_rollback_at (v : option Z) (r : Probation) : Probation :=
  mkProbation (pb_candidate r) (pb_rollback r) (pb_authenticated_at r) (pb_direct_return r) v
    (pb_rollback_authorized r) (pb_first_data r) (pb_last_data r) (pb_data_packets r).
Definition set_pb_rollback_authorized (v : bool) (r : Probation) : Probation :=
  mkProbation (pb_candidate r) (pb_rollback r) (pb_authenticated_at r) (pb_direct_return r)
    (pb_rollback_at r) v (pb_first_data r) (pb_last_data r) (pb_data_packets r).
Definition set_pb_first_data (v : option Z) (r : Probation) : Probation :=
  mkProbation (pb_candidate r) (pb_rollback r) (pb_authenticated_at r) (pb_direct_return r)
    (pb_rollback_at r) (pb_rollback_authorized r) v (pb_last_data r) (pb_data_packets r).
Definition set_pb_last_data (v : option Z) (r : Probation) : Probation :=
  mkProbation (pb_candidate r) (pb_rollback r) (pb_authenticated_at r) (pb_direct_return r)
    (pb_rollback_at r) (pb_rollback_authorized r) (pb_first_data r) v (pb_data_packets r).
Definition set_pb_data_packets (v : Z) (r : Probation) : Probation :=
  mkProbation (pb_candidate r) (pb_rollback r) (pb_authenticated_at r) (pb_direct_return r)
    (pb_rollback_at r) (pb_rollback_authorized r) (pb_first_data r) (pb_last_data r) v.

Record EndpointController := mkEndpointController {
  ec_spec : EndpointSpec;
  ec_opts : EndpointOptions;
  ec_current : SocketAddr;
  ec_current_authenticated : bool;
  ec_committed_good : option Ipv4Addr;
  ec_cache_fresh_until : option Z;
  ec_committed_activity : option Z;
  ec_candidates : list Ipv4Addr;
  ec_expires_at : option Z;
  ec_backoff : Backoff;
  ec_force_refresh : bool;
  ec_refresh_pending : bool;
  ec_queries : Z;
  ec_preferred_failures : Z;
  ec_round_deadline : option Z;
  ec_preferred_attempts : Z;
  ec_attended_cutover : bool;
  ec_probation : option Probation;
  ec_fallback_state : FallbackState;
  ec_state_path : bool;
  ec_state_usable : bool }.
Definition set_ec_spec (v : EndpointSpec) (r : EndpointController) : EndpointController :=
  mkEndpointController v (ec_opts r) (ec_current r) (ec_current_authenticated r)
    (ec_committed_good r) (ec_cache_fresh_until r) (ec_committed_activity r) (ec_candidates r)
    (ec_expires_at r) (ec_backoff r) (ec_force_refresh r) (ec_refresh_pending r) (ec_queries r)
    (ec_preferred_failures r) (ec_round_deadline r) (ec_preferred_attempts r)
    (ec_attended_cutover r) (ec_probation r) (ec_fallback_state r) (ec_state_path r)
    (ec_state_usable r).
Definition set_ec_opts (v : EndpointOptions) (r : EndpointController) : EndpointController :=
  mkEndpointController (ec_spec r) v (ec_current r) (ec_current_authenticated r)
    (ec_committed_good r) (ec_cache_fresh_until r) (ec_committed_activity r) (ec_candidates r)
    (ec_expires_at r) (ec_backoff r) (ec_force_refresh r) (ec_refresh_pending r) (ec_queries r)
    (ec_preferred_failures r) (ec_round_deadline r) (ec_preferred_attempts r)
    (ec_attended_cutover r) (ec_probation r) (ec_fallback_state r) (ec_state_path r)
    (ec_state_usable r).
Definition set_ec_current (v : SocketAddr) (r : EndpointController) : EndpointController :=
  mkEndpointController (ec_spec r) (ec_opts r) v (ec_current_authenticated r)
    (ec_committed_good r) (ec_cache_fresh_until r) (ec_committed_activity r) (ec_candidates r)
    (ec_expires_at r) (ec_backoff r) (ec_force_refresh r) (ec_refresh_pending r) (ec_queries r)
    (ec_preferred_failures r) (ec_round_deadline r) (ec_preferred_attempts r)
    (ec_attended_cutover r) (ec_probation r) (ec_fallback_state r) (ec_state_path r)
    (ec_state_usable r).
Definition set_ec_current_authenticated (v : bool) (r : EndpointController) : EndpointController :=
  mkEndpointController (ec_spec r) (ec_opts r) (ec_current r) v (ec_committed_good r)
    (ec_cache_fresh_until r) (ec_committed_activity r) (ec_candidates r) (ec_expires_at r)
    (ec_backoff r) (ec_force_refresh r) (ec_refresh_pending r) (ec_queries r)
    (ec_preferred_failures r) (ec_round_deadline r) (ec_preferred_attempts r)
    (ec_attended_cutover r) (ec_probation r) (ec_fallback_state r) (ec_state_path r)
    (ec_state_usable r).
Definition set_ec_committed_good (v : option Ipv4Addr) (r : EndpointController) : EndpointController :=
  mkEndpointController (ec_spec r) (ec_opts r) (ec_current r) (ec_current_authenticated r) v
    (ec_cache_fresh_until r) (ec_committed_activity r) (ec_candidates r) (ec_expires_at r)
    (ec_backoff r) (ec_force_refresh r) (ec_refresh_pending r) (ec_queries r)
    (ec_preferred_failures r) (ec_round_deadline r) (ec_preferred_attempts r)
    (ec_attended_cutover r) (ec_probation r) (ec_fallback_state r) (ec_state_path r)
    (ec_state_usable r).
Definition set_ec_cache_fresh_until (v : option Z) (r : EndpointController) : EndpointController :=
  mkEndpointController (ec_spec r) (ec_opts r) (ec_current r) (ec_current_authenticated r)
    (ec_committed_good r) v (ec_committed_activity r) (ec_candidates r) (ec_expires_at r)
    (ec_backoff r) (ec_force_refresh r) (ec_refresh_pending r) (ec_queries r)
    (ec_preferred_failures r) (ec_round_deadline r) (ec_preferred_attempts r)
    (ec_attended_cutover r) (ec_probation r) (ec_fallback_state r) (ec_state_path r)
    (ec_state_usable r).
Definition set_ec_committed_activity (v : option Z) (r : EndpointController) : EndpointController :=
  mkEndpointController (ec_spec r) (ec_opts r) (ec_current r) (ec_current_authenticated r)
    (ec_committed_good r) (ec_cache_fresh_until r) v (ec_candidates r) (ec_expires_at r)
    (ec_backoff r) (ec_force_refresh r) (ec_refresh_pending r) (ec_queries r)
    (ec_preferred_failures r) (ec_round_deadline r) (ec_preferred_attempts r)
    (ec_attended_cutover r) (ec_probation r) (ec_fallback_state r) (ec_state_path r)
    (ec_state_usable r).
Definition set_ec_candidates (v : list Ipv4Addr) (r : EndpointController) : EndpointController :=
  mkEndpointController (ec_spec r) (ec_opts r) (ec_current r) (ec_current_authenticated r)
    (ec_committed_good r) (ec_cache_fresh_until r) (ec_committed_activity r) v
    (ec_expires_at r) (ec_backoff r) (ec_force_refresh r) (ec_refresh_pending r) (ec_queries r)
    (ec_preferred_failures r) (ec_round_deadline r) (ec_preferred_attempts r)
    (ec_attended_cutover r) (ec_probation r) (ec_fallback_state r) (ec_state_path r)
    (ec_state_usable r).
Definition set_ec_expires_at (v : option Z) (r : EndpointController) : EndpointController :=
  mkEndpointController (ec_spec r) (ec_opts r) (ec_current r) (ec_current_authenticated r)
    (ec_committed_good r) (ec_cache_fresh_until r) (ec_committed_activity r) (ec_candidates r)
    v (ec_backoff r) (ec_force_refresh r) (ec_refresh_pending r) (ec_queries r)
    (ec_preferred_failures r) (ec_round_deadline r) (ec_preferred_attempts r)
    (ec_attended_cutover r) (ec_probation r) (ec_fallback_state r) (ec_state_path r)
    (ec_state_usable r).
Definition set_ec_backoff (v : Backoff) (r : EndpointController) : EndpointController :=
  mkEndpointController (ec_spec r) (ec_opts r) (ec_current r) (ec_current_authenticated r)
    (ec_committed_good r) (ec_cache_fresh_until r) (ec_committed_activity r) (ec_candidates r)
    (ec_expires_at r) v (ec_force_refresh r) (ec_refresh_pending r) (ec_queries r)
    (ec_preferred_failures r) (ec_round_deadline r) (ec_preferred_attempts r)
    (ec_attended_cutover r) (ec_probation r) (ec_fallback_state r) (ec_state_path r)
    (ec_state_usable r).
Definition set_ec_force_refresh (v : bool) (r : EndpointController) : EndpointController :=
  mkEndpointController (ec_spec r) (ec_opts r) (ec_current r) (ec_current_authenticated r)
    (ec_committed_good r) (ec_cache_fresh_until r) (ec_committed_activity r) (ec_candidates r)
    (ec_expires_at r) (ec_backoff r) v (ec_refresh_pending r) (ec_queries r)
    (ec_preferred_failures r) (ec_round_deadline r) (ec_preferred_attempts r)
    (ec_attended_cutover r) (ec_probation r) (ec_fallback_state r) (ec_state_path r)
    (ec_state_usable r).
Definition set_ec_refresh_pending (v : bool) (r : EndpointController) : EndpointController :=
  mkEndpointController (ec_spec r) (ec_opts r) (ec_current r) (ec_current_authenticated r)
    (ec_committed_good r) (ec_cache_fresh_until r) (ec_committed_activity r) (ec_candidates r)
    (ec_expires_at r) (ec_backoff r) (ec_force_refresh r) v (ec_queries r)
    (ec_preferred_failures r) (ec_round_deadline r) (ec_preferred_attempts r)
    (ec_attended_cutover r) (ec_probation r) (ec_fallback_state r) (ec_state_path r)
    (ec_state_usable r).
Definition set_ec_queries (v : Z) (r : EndpointController) : EndpointController :=
  mkEndpointController (ec_spec r) (ec_opts r) (ec_current r) (ec_current_authenticated r)
    (ec_committed_good r) (ec_cache_fresh_until r) (ec_committed_activity r) (ec_candidates r)
    (ec_expires_at r) (ec_backoff r) (ec_force_refresh r) (ec_refresh_pending r) v
    (ec_preferred_failures r) (ec_round_deadline r) (ec_preferred_attempts r)
    (ec_attended_cutover r) (ec_probation r) (ec_fallback_state r) (ec_state_path r)
    (ec_state_usable r).
Definition set_ec_preferred_failures (v : Z) (r : EndpointController) : EndpointController :=
  mkEndpointController (ec_spec r) (ec_opts r) (ec_current r) (ec_current_authenticated r)
    (ec_committed_good r) (ec_cache_fresh_until r) (ec_committed_activity r) (ec_candidates r)
    (ec_expires_at r) (ec_backoff r) (ec_force_refresh r) (ec_refresh_pending r) (ec_queries r)
    v (ec_round_deadline r) (ec_preferred_attempts r) (ec_attended_cutover r) (ec_probation r)
    (ec_fallback_state r) (ec_state_path r) (ec_state_usable r).
Definition set_ec_round_deadline (v : option Z) (r : EndpointController) : EndpointController :=
  mkEndpointController (ec_spec r) (ec_opts r) (ec_current r) (ec_current_authenticated r)
    (ec_committed_good r) (ec_cache_fresh_until r) (ec_committed_activity r) (ec_candidates r)
    (ec_expires_at r) (ec_backoff r) (ec_force_refresh r) (ec_refresh_pending r) (ec_queries r)
    (ec_preferred_failures r) v (ec_preferred_attempts r) (ec_attended_cutover r)
    (ec_probation r) (ec_fallback_state r) (ec_state_path r) (ec_state_usable r).
Definition set_ec_preferred_attempts (v : Z) (r : EndpointController) : EndpointController :=
  mkEndpointController (ec_spec r) (ec_opts r) (ec_current r) (ec_current_authenticated r)
    (ec_committed_good r) (ec_cache_fresh_until r) (ec_committed_activity r) (ec_candidates r)
    (ec_expires_at r) (ec_backoff r) (ec_force_refresh r) (ec_refresh_pending r) (ec_queries r)
    (ec_preferred_failures r) (ec_round_deadline r) v (ec_attended_cutover r) (ec_probation r)
    (ec_fallback_state r) (ec_state_path r) (ec_state_usable r).
Definition set_ec_attended_cutover (v : bool) (r : EndpointController) : EndpointController :=
  mkEndpointController (ec_spec r) (ec_opts r) (ec_current r) (ec_current_authenticated r)
    (ec_committed_good r) (ec_cache_fresh_until r) (ec_committed_activity r) (ec_candidates r)
    (ec_expires_at r) (ec_backoff r) (ec_force_refresh r) (ec_refresh_pending r) (ec_queries r)
    (ec_preferred_failures r) (ec_round_deadline r) (ec_preferred_attempts r) v
    (ec_probation r) (ec_fallback_state r) (ec_state_path r) (ec_state_usable r).
Definition set_ec_probation (v : option Probation) (r : EndpointController) : EndpointController :=
  mkEndpointController (ec_spec r) (ec_opts r) (ec_current r) (ec_current_authenticated r)
    (ec_committed_good r) (ec_cache_fresh_until r) (ec_committed_activity r) (ec_candidates r)
    (ec_expires_at r) (ec_backoff r) (ec_force_refresh r) (ec_refresh_pending r) (ec_queries r)
    (ec_preferred_failures r) (ec_round_deadline r) (ec_preferred_attempts r)
    (ec_attended_cutover r) v (ec_fallback_state r) (ec_state_path r) (ec_state_usable r).
Definition set_ec_fallback_state (v : FallbackState) (r : EndpointController) : EndpointController :=
  mkEndpointController (ec_spec r) (ec_opts r) (ec_current r) (ec_current_authenticated r)
    (ec_committed_good r) (ec_cache_fresh_until r) (ec_committed_activity r) (ec_candidates r)
    (ec_expires_at r) (ec_backoff r) (ec_force_refresh r) (ec_refresh_pending r) (ec_queries r)
    (ec_preferred_failures r) (ec_round_deadline r) (ec_preferred_attempts r)
    (ec_attended_cutover r) (ec_probation r) v (ec_state_path r) (ec_state_usable r).
Definition set_ec_state_path (v : bool) (r : EndpointController) : EndpointController :=
  mkEndpointController (ec_spec r) (ec_opts r) (ec_current r) (ec_current_authenticated r)
    (ec_committed_good r) (ec_cache_fresh_until r) (ec_committed_activity r) (ec_candidates r)
    (ec_expires_at r) (ec_backoff r) (ec_force_refresh r) (ec_refresh_pending r) (ec_queries r)
    (ec_preferred_failures r) (ec_round_deadline r) (ec_preferred_attempts r)
    (ec_attended_cutover r) (ec_probation r) (ec_fallback_state r) v (ec_state_usable r).
Definition set_ec_state_usable (v : bool) (r : EndpointController) : EndpointController :=
  mkEndpointController (ec_spec r) (ec_opts r) (ec_current r) (ec_current_authenticated r)
    (ec_committed_good r) (ec_cache_fresh_until r) (ec_committed_activity r) (ec_candidates r)
    (ec_expires_at r) (ec_backoff r) (ec_force_refresh r) (ec_refresh_pending r) (ec_queries r)
    (ec_preferred_failures r) (ec_round_deadline r) (ec_preferred_attempts r)
    (ec_attended_cutover r) (ec_probation r) (ec_fallback_state r) (ec_state_path r) v.

(** * The environment *)
Definition upd_host (f : Host → Host) (w : World) : World := set_w_host (f (w_host w)) w.
Definition unix_now_secs : Io Z := λ w,
  Done (h_unix (w_host w) (h_unix_pos (w_host w)), upd_host (λ h, set_h_unix_pos (S (h_unix_pos h)) h) w).
(** [resolver.resolve_a(name)]; every [DnsError] is [None]. *)
Definition resolve_a : Io (option DnsAnswer) := λ w,
  Done (h_dns (w_host w) (h_dns_pos (w_host w)), upd_host (λ h, set_h_dns_pos (S (h_dns_pos h)) h) w).
Definition next_file : Io FileIo := λ w,
  Done (h_files (w_host w) (h_file_pos (w_host w)), upd_host (λ h, set_h_file_pos (S (h_file_pos h)) h) w).
(** [read_owner_only]: an error, no file, or its bytes within the bound. *)
Definition read_owner_only (max_len : Z) : Io (option (option (list Z))) :=
  r ← next_file;
  mret (if fio_ok r then
          match fio_contents r with
          | None => Some None
          | Some l => if max_len <? zlen l then None else Some (Some l)
          end
        else None).
(** [atomic_write_owner_only]: a failed write may have replaced the file (its last step, the
    sync of the directory, comes after the rename). *)
Definition atomic_write_owner_only (file : StateFile) (contents : list Z) : Io bool :=
  r ← next_file;
  (if fio_ok r || bool_decide (is_Some (fio_contents r)) then emit (EvWrite file contents) else mret tt);;
  mret (fio_ok r).
(** Taking the lock of [with_owner_only_lock]. *)
Definition owner_only_lock : Io bool := r ← next_file; mret (fio_ok r).

(** * State files *)
Definition load_cache_entry (host : list Z) (port : Z) (allow_private : bool) : Io (option (option CacheEntry)) :=
  r ← read_owner_only CACHE_MAX_BYTES;
  mret (match r with
        | None => None
        | Some None => Some None
        | Some (Some bytes) => parse_cache_entry bytes host port allow_private
        end).
(** The clock is read after the checks. *)
Definition save_cache_with_policy (host : list Z) (port : Z) (addr : Ipv4Addr) (allow_private : bool) : Io bool :=
  match cache_text host port addr 0 allow_private with
  | None => mret false
  | Some _ =>
      saved ← unix_now_secs;
      match cache_text host port addr saved allow_private with
      | None => mret false
      | Some text => atomic_write_owner_only CacheFile text
      end
  end.
Definition load_fallback_state (host : list Z) (port capacity : Z) (allow_private : bool) (wall_now : Z)
    : Io (option (option FallbackState)) :=
  r ← read_owner_only STATE_MAX_BYTES;
  mret (match r with
        | None => None
        | Some None => Some None
        | Some (Some bytes) => Some <$> parse_fallback_state bytes host port capacity allow_private wall_now
        end).

(** * Helpers of the controller *)
Abbreviation Ec := EndpointController.
Definition policy (c : Ec) : LastGoodFallbackPolicy := op_fallback (ec_opts c).
Definition enabled (c : Ec) : bool := fp_enabled (policy c).
Definition ec_is_dynamic (c : Ec) : bool := spec_is_dynamic (ec_spec c).
(** [self.current.ip()] when it is an IPv4 address. *)
Definition current_v4 (c : Ec) : option Ipv4Addr := match (ec_current c).1 with V4 o => Some o | V6 _ => None end.

Definition retained_addresses (c : Ec) : list Ipv4Addr :=
  let out := match current_v4 c with Some cur => [cur] | None => [] end in
  match ec_committed_good c with
  | Some good => if bool_decide (good ∈ out) then out else out ++ [good]
  | None => out
  end.

Definition cached_fresh_until (c : Ec) (entry : CacheEntry) (now wall_now : Z) : option Z :=
  match ce_saved entry with
  | None => None
  | Some saved =>
      let max_age := fp_max_age_ms (policy c) in
      if negb (enabled c) || (saturating_add 64 wall_now 300 <? saved) then None else
      let age_ms := saturating_mul 64 (saturating_sub wall_now saved) 1000 in
      if age_ms <? max_age then Some (saturating_add 64 now (max_age - age_ms)) else None
  end.

Definition option_max (a b : option Z) : option Z :=
  match a, b with
  | Some x, Some y => Some (Z.max x y)
  | Some x, None => Some x
  | None, _ => b
  end.
Definition keep_if (f : Z → bool) (o : option Z) : option Z :=
  match o with Some x => if f x then Some x else None | None => None end.
Definition committed_health_deadline (c : Ec) (now : Z) : option (Ipv4Addr * Z) :=
  if negb (enabled c) then None else
  match ec_committed_good c with
  | None => None
  | Some committed =>
      let runtime_deadline := keep_if (λ d, now <=? d)
        ((λ last, saturating_add 64 last (fp_rollback_window_ms (policy c))) <$> ec_committed_activity c) in
      let cache_deadline := keep_if (λ d, now <=? d) (ec_cache_fresh_until c) in
      (λ deadline, (committed, deadline)) <$> option_max runtime_deadline cache_deadline
  end.
Definition committed_fresh (c : Ec) (now : Z) (cur : Ipv4Addr) : option Ipv4Addr :=
  match committed_health_deadline c now with
  | Some (committed, _) => if bool_decide (committed = cur) then None else Some committed
  | None => None
  end.

Definition start_preferred_round (c : Ec) (now : Z) : Ec :=
  if enabled c && bool_decide (ec_round_deadline c = None) then
    set_ec_preferred_attempts 0
      (set_ec_round_deadline (Some (saturating_add 64 now (fp_preferred_round_timeout_ms (policy c)))) c)
  else c.
Definition round_expired (c : Ec) (now : Z) : bool :=
  match ec_round_deadline c with Some deadline => deadline <=? now | None => false end.

Definition canonical_candidates (c : Ec) : list Ipv4Addr := take MAX_ENDPOINT_CANDIDATES (canonical (ec_candidates c)).
Definition next_dns_candidate (c : Ec) (cur : Ipv4Addr) : option Ipv4Addr :=
  let set := canonical_candidates c in
  match set with
  | [] => None
  | _ => let next := match list_find (λ ip, ip = cur) set with
                     | Some (idx, _) => ((idx + 1) mod length set)%nat | None => 0%nat end in
         set !! next
  end.

Definition order_candidates (c : Ec) : Ec :=
  let cur := current_v4 c in
  let good := ec_committed_good c in
  let cands := ec_candidates c in
  let rest := canonical (filter (λ ip, Some ip ≠ cur ∧ Some ip ≠ good) cands) in
  let first := match cur with Some a => if bool_decide (a ∈ cands) then [a] else [] | None => [] end in
  let second := match good with
                | Some g => if bool_decide (g ∈ cands) && negb (bool_decide (Some g = cur)) then [g] else []
                | None => [] end in
  set_ec_candidates (take MAX_ENDPOINT_CANDIDATES (first ++ second ++ rest)) c.

(** [Ok(None)] and [Ok(Some(next))] of the locked action, or its error. *)
Definition charge_fallback (c : Ec) (wall_now : Z) (candidate : Ipv4Addr) : Io (bool * Ec) :=
  if negb (ec_state_usable c) then mret (false, c) else
  if negb (ec_state_path c) then mret (false, c) else
  match spec_hostname (ec_spec c) with
  | None => mret (false, c)
  | Some name =>
      let port := spec_port (ec_spec c) in
      let pol := policy c in
      let allow_private := op_allow_private (ec_opts c) in
      let dns_set := canonical_candidates c in
      locked ← owner_only_lock;
      if negb (locked : bool) then mret (false, set_ec_state_usable false c) else
      loaded ← load_fallback_state name port (fp_global_capacity pol) allow_private wall_now;
      match loaded with
      | None => mret (false, set_ec_state_usable false c)
      | Some st =>
          let st := default (FallbackState_new (fp_global_capacity pol) wall_now) st in
          match precharge_fallback_state st pol wall_now candidate dns_set with
          | None => mret (false, c)
          | Some next =>
              ok ← atomic_write_owner_only BudgetFile (serialize_fallback_state name port next);
              if (ok : bool) then mret (true, set_ec_fallback_state next c)
              else mret (false, set_ec_state_usable false c)
          end
      end
  end.

(** * Queries *)
(** The addresses the policy accepts, each once, in the answer's order. *)
Definition safe_addrs (allow_private : bool) (addrs : list Ipv4Addr) : list Ipv4Addr :=
  foldl (λ safe ip, if check_endpoint_ip ip allow_private && negb (bool_decide (ip ∈ safe)) then safe ++ [ip] else safe)
    [] addrs.
Definition query (c : Ec) (now : Z) : Io (bool * Ec) :=
  match spec_hostname (ec_spec c) with
  | None => mret (false, c)
  | Some _ =>
      let c := set_ec_queries (ec_queries c +⟨64⟩ 1) c in
      ans ← resolve_a;
      match ans with
      | None => b ← backoff_on_failure (ec_backoff c) now; mret (false, set_ec_backoff b.2 c)
      | Some ans =>
          let safe := safe_addrs (op_allow_private (ec_opts c)) (dns_addrs ans) in
          if bool_decide (safe = []) then b ← backoff_on_failure (ec_backoff c) now; mret (false, set_ec_backoff b.2 c) else
          let c := set_ec_backoff (if ec_refresh_pending c then backoff_on_pending_success (ec_backoff c) now
                                   else backoff_on_success (ec_backoff c)) c in
          let c := set_ec_expires_at (Some (saturating_add 64 now (saturating_mul 64 (dns_ttl ans) 1000))) c in
          let safe := take MAX_ENDPOINT_CANDIDATES (canonical safe) in
          let c := if bool_decide (safe = canonical_candidates c) then c
                   else set_ec_preferred_attempts 0 (set_ec_preferred_failures 0 c) in
          mret (true, order_candidates (set_ec_candidates safe c))
      end
  end.

(** * Selection *)
Definition switch_to (c : Ec) (target : Ipv4Addr) : option Switch * Ec :=
  match current_v4 c with
  | None => (None, c)
  | Some cur =>
      if bool_decide (target = cur) then (None, c) else
      let from := ec_current c in
      let to := (V4 target, spec_port (ec_spec c)) in
      (Some (mkSwitch from to), order_candidates (set_ec_current_authenticated false (set_ec_current to c)))
  end.

(** The probationary candidate failed: the committed address, when it may be tried. *)
Definition leave_probation (c : Ec) (now wall_now : Z) (cur : Ipv4Addr) : Io (option Ipv4Addr * Ec) :=
  match ec_probation c with
  | Some p =>
      if negb (bool_decide (pb_candidate p = cur)) then mret (None, c) else
      if negb (bool_decide (committed_fresh c now cur = Some (pb_rollback p))) then mret (None, c) else
      r ← (if pb_direct_return p then mret (true, c) else charge_fallback c wall_now (pb_rollback p));
      if (r.1 : bool) then mret (Some (pb_rollback p), set_ec_probation None r.2) else mret (None, r.2)
  | None => mret (None, c)
  end.

Definition select_rollback (c : Ec) : option Switch * Ec :=
  match ec_probation c with
  | None => (None, c)
  | Some p =>
      if negb (pb_rollback_authorized p) then (None, c) else
      switch_to (set_ec_attended_cutover false (set_ec_probation None c)) (pb_rollback p)
  end.

Definition select_forced (c : Ec) (cur : Ipv4Addr) (now : Z) (query_succeeded : option bool) : option Switch * Ec :=
  if round_expired c now then (None, set_ec_attended_cutover false (set_ec_round_deadline None c)) else
  if negb (bool_decide (query_succeeded = Some true)) then (None, set_ec_attended_cutover false c) else
  match ec_candidates c with
  | [] => (None, set_ec_attended_cutover false c)
  | target :: _ =>
      if bool_decide (target = cur) then (None, set_ec_attended_cutover false c) else
      let c := start_preferred_round c now in
      let required_through :=
        saturating_add 64 (saturating_add 64 (saturating_add 64 (default now (ec_round_deadline c)) CLIENT_HANDSHAKE_TIMEOUT_MS)
          (fp_probation_ms (policy c))) (2 * TIMER_INTERVAL_MS) in
      let refused := match committed_health_deadline c now with
                     | Some (_, fresh_through) => fresh_through <? required_through | None => true end in
      if enabled c && bool_decide (ec_committed_good c = Some cur) && refused
      then (None, set_ec_attended_cutover false c) else
      switch_to c target
  end.

Definition select_failed (c : Ec) (cur : Ipv4Addr) (now wall_now : Z) : Io (option Switch * Ec) :=
  p ← leave_probation c now wall_now cur;
  let c := p.2 in
  match p.1 with
  | Some rollback => mret (switch_to c rollback)
  | None =>
      let attended := if ec_attended_cutover c then
                        match ec_committed_good c with
                        | Some good => if bool_decide (good = cur) then None else Some good
                        | None => None end
                      else None in
      match attended with
      | Some rollback => mret (switch_to (set_ec_attended_cutover false c) rollback)
      | None =>
          let try_next c := match next_dns_candidate c cur with
                            | Some next => if bool_decide (next = cur) then (None, c) else switch_to c next
                            | None => (None, c) end in
          if bool_decide (ec_committed_good c = Some cur) then
            if round_expired c now then mret (None, set_ec_preferred_attempts 0 (set_ec_round_deadline None c))
            else mret (try_next (start_preferred_round c now))
          else
            let c := start_preferred_round c now in
            let c := set_ec_preferred_failures (saturating_add 32 (ec_preferred_failures c) 1) c in
            let c := set_ec_preferred_attempts (saturating_add 32 (ec_preferred_attempts c) 1) c in
            let candidate_count := Z.max (zlen (canonical_candidates c)) 1 in
            let fallback_due := round_expired c now ||
              ((fp_after_failures (policy c) <=? ec_preferred_failures c) && (candidate_count <=? ec_preferred_attempts c)) in
            r ← (if fallback_due then
                   match committed_fresh c now cur with
                   | Some good => r ← charge_fallback c wall_now good;
                                  mret (if (r.1 : bool) then Some good else None, r.2)
                   | None => mret (None, c)
                   end
                 else mret (None, c));
            let c := r.2 in
            match r.1 with
            | Some good => mret (switch_to (set_ec_round_deadline None c) good)
            | None => mret (if negb (round_expired c now) then try_next c
                            else (None, set_ec_preferred_attempts 0 (set_ec_round_deadline None c)))
            end
      end
  end.

Definition select_lost (c : Ec) (cur : Ipv4Addr) (now wall_now : Z) : Io (option Switch * Ec) :=
  p ← leave_probation c now wall_now cur;
  let c := p.2 in
  match p.1 with
  | Some rollback => mret (switch_to c rollback)
  | None =>
      if bool_decide (ec_committed_good c = Some cur) && negb (bool_decide (cur ∈ ec_candidates c)) then
        let c := start_preferred_round c now in
        mret (match canonical_candidates c with target :: _ => switch_to c target | [] => (None, c) end)
      else mret (None, c)
  end.

Definition select (c : Ec) (now wall_now : Z) (reason : CycleReason) (query_succeeded : option bool)
    : Io (option Switch * Ec) :=
  match current_v4 c with
  | None => mret (None, c)
  | Some cur =>
      match reason with
      | ProbationExpired | OperatorRollback => mret (select_rollback c)
      | Forced => mret (select_forced c cur now query_succeeded)
      | AttemptFailed => select_failed c cur now wall_now
      | SessionLost => select_lost c cur now wall_now
      | Startup => mret (None, c)
      end
  end.

(** * Operations of the client *)
Definition bootstrap (spec : EndpointSpec) (opts : EndpointOptions) (now : Z) : Io (option Ec) :=
  let port := spec_port spec in
  wall0 ← unix_now_secs;
  let c := mkEndpointController spec opts (V4 [0; 0; 0; 0], port) false None None None [] None
             (Backoff_new (op_backoff_min_ms opts) (op_backoff_max_ms opts)) false false 0 0 None 0 false None
             (FallbackState_new 0 wall0) false true in
  match spec with
  | Literal a =>
      mret (Some (set_ec_candidates (match a.1 with V4 v4 => [v4] | V6 _ => [] end) (set_ec_current a c)))
  | Hostname name _ =>
      let unsafe := match op_bootstrap opts with
                    | Some ip => negb (check_endpoint_ip ip (op_allow_private opts)) | None => false end in
      if (unsafe : bool) then mret None else
      loaded ← (if op_cache_file opts then load_cache_entry name port (op_allow_private opts) else mret None);
      let cached := match loaded with Some (Some entry) => Some entry | _ => None end in
      wall_now ← unix_now_secs;
      let c := set_ec_committed_good (ce_addr <$> cached) c in
      let c := set_ec_cache_fresh_until (match cached with Some entry => cached_fresh_until c entry now wall_now
                                         | None => None end) c in
      c ← (if fp_enabled (op_fallback opts) then
             let c := set_ec_state_path (op_cache_file opts) c in
             let c := set_ec_fallback_state (FallbackState_new (fp_global_capacity (op_fallback opts)) wall_now) c in
             if op_cache_file opts then
               locked ← owner_only_lock;
               r ← (if (locked : bool)
                    then load_fallback_state name port (fp_global_capacity (op_fallback opts)) (op_allow_private opts) wall_now
                    else mret None);
               mret (match r with
                     | Some (Some s) => set_ec_fallback_state s c
                     | Some None => c
                     | None => set_ec_state_usable false c
                     end)
             else mret c
           else mret c);
      q ← query (start_preferred_round c now) now;
      let c := q.2 in
      let chosen := match (if (q.1 : bool) then ec_candidates c else []) with
                    | first :: _ => Some (match ec_committed_good c with
                                          | Some ip => if bool_decide (ip ∈ ec_candidates c) then ip else first
                                          | None => first end)
                    | [] => match ec_committed_good c with Some ip => Some ip | None => op_bootstrap opts end
                    end in
      mret (match chosen with
            | None => None
            | Some ip => Some (order_candidates (set_ec_current (V4 ip, port) c))
            end)
  end.

Definition on_session_ended (c : Ec) : Ec := set_ec_current_authenticated false c.

Definition request_refresh (c : Ec) : Ec :=
  if ec_is_dynamic c then
    let attended := match current_v4 c with
                    | Some cur => ec_current_authenticated c && bool_decide (ec_committed_good c = Some cur)
                    | None => false end in
    set_ec_backoff (backoff_on_success (ec_backoff c)) (set_ec_force_refresh true (set_ec_attended_cutover attended c))
  else c.

Definition on_cycle (c : Ec) (now : Z) (reason : CycleReason) : Io (option Switch * Ec) :=
  wall_now ← unix_now_secs;
  if negb (ec_is_dynamic c) then mret (None, c) else
  let c := if bool_decide (reason = SessionLost) then set_ec_refresh_pending true c else c in
  let expired := match ec_expires_at c with Some t => t <=? now | None => true end in
  let due := ec_force_refresh c || ec_refresh_pending c || expired || bool_decide (ec_candidates c = []) in
  if negb due then select c now wall_now reason None else
  let c := match reason with Forced | SessionLost | AttemptFailed => start_preferred_round c now | _ => c end in
  q ← (if backoff_ready (ec_backoff c) now then
         r ← query (set_ec_force_refresh false c) now; mret (Some r.1, r.2)
       else mret (None, c));
  now' ← now_ms;
  wall_now' ← unix_now_secs;
  select q.2 now' wall_now' reason q.1.

Definition persist_committed (c : Ec) (cur : Ipv4Addr) : Io unit :=
  match op_cache_file (ec_opts c), spec_hostname (ec_spec c) with
  | true, Some name => save_cache_with_policy name (spec_port (ec_spec c)) cur (op_allow_private (ec_opts c));; mret tt
  | _, _ => mret tt
  end.

Definition on_authenticated (c : Ec) : Io (option Ipv4Addr * Ec) :=
  now ← now_ms;
  let c := set_ec_backoff (backoff_on_success (ec_backoff c)) (set_ec_refresh_pending false (set_ec_current_authenticated true c)) in
  match current_v4 c with
  | None => mret (None, c)
  | Some cur =>
      let c := set_ec_round_deadline None (set_ec_preferred_attempts 0 (set_ec_preferred_failures 0 c)) in
      let prev := ec_committed_good c in
      let commit :=
        let c := set_ec_attended_cutover false (set_ec_probation None (set_ec_cache_fresh_until None
                   (set_ec_committed_activity (Some now) (set_ec_committed_good (Some cur) c)))) in
        persist_committed c cur;;
        mret (match prev with Some old => if bool_decide (old = cur) then None else Some old | None => None end,
              order_candidates c) in
      match prev with
      | None => commit
      | Some rollback =>
          if negb (enabled c) || bool_decide (rollback = cur) then commit else
          let direct_return := ec_attended_cutover c in
          let freshness_deadline :=
            (λ p : Ipv4Addr * Z, Z.min p.2 (saturating_add 64 now (fp_rollback_window_ms (policy c)))) <$>
              committed_health_deadline c now in
          let rollback_grace_ms := 2 * TIMER_INTERVAL_MS in
          let required := saturating_add 64 (saturating_add 64 now (fp_probation_ms (policy c))) rollback_grace_ms in
          let rollback_at := (λ d, saturating_sub d rollback_grace_ms) <$> keep_if (λ d, required <=? d) freshness_deadline in
          let p := mkProbation cur rollback now direct_return rollback_at false None None 0 in
          mret (None, order_candidates (set_ec_attended_cutover false (set_ec_probation (Some p) c)))
      end
  end.

Definition max_gap (c : Ec) : Z := Z.min (Z.max (fp_probation_ms (policy c)) 1) 5000.

Definition on_authenticated_activity (c : Ec) (now : Z) (is_data : bool) : Ec :=
  match current_v4 c with
  | None => c
  | Some cur =>
      let c := if ec_current_authenticated c && bool_decide (ec_committed_good c = Some cur)
               then set_ec_committed_activity (Some now) c else c in
      if negb is_data then c else
      match ec_probation c with
      | None => c
      | Some p =>
          if negb (bool_decide (pb_candidate p = cur)) then c else
          let gap := match pb_last_data p with Some last => max_gap c <? saturating_sub now last | None => false end in
          let p := if gap then set_pb_data_packets 0 (set_pb_first_data None p) else p in
          let p := match pb_first_data p with None => set_pb_first_data (Some now) p | Some _ => p end in
          let p := set_pb_data_packets (saturating_add 32 (pb_data_packets p) 1) (set_pb_last_data (Some now) p) in
          set_ec_probation (Some p) c
      end
  end.

Inductive PromotionResult :=
| Promoted (previous : Ipv4Addr)
| NotProbationary
| WrongCandidate
| NotActive
| RollbackExpired
| StaleEvidence (idle_ms : Z)
| InsufficientEvidence (packets span_ms : Z)
| PersistenceFailed.

Definition evidence_span (p : Probation) : Z :=
  match pb_last_data p, pb_first_data p with Some last, Some first => saturating_sub last first | _, _ => 0 end.
Definition evidence_idle (p : Probation) (now : Z) : Z :=
  match pb_last_data p with Some last => saturating_sub now last | None => 2 ^ 64 - 1 end.

Definition promote_candidate (c : Ec) (expected : Ipv4Addr) (now : Z) : Io (PromotionResult * Ec) :=
  match ec_probation c with
  | None => mret (NotProbationary, c)
  | Some p =>
      if negb (bool_decide (pb_candidate p = expected)) then mret (WrongCandidate, c) else
      if negb (bool_decide ((ec_current c).1 = V4 expected)) || negb (ec_current_authenticated c) then mret (NotActive, c) else
      let expired := match pb_rollback_at p with
                     | Some deadline => (deadline <=? now) ||
                         negb (bool_decide (committed_fresh c now expected = Some (pb_rollback p)))
                     | None => false end in
      if (expired : bool) then mret (RollbackExpired, c) else
      if (pb_data_packets p <? MIN_PROMOTION_DATA_PACKETS) || (evidence_span p <? fp_probation_ms (policy c))
      then mret (InsufficientEvidence (pb_data_packets p) (evidence_span p), c) else
      if max_gap c <? evidence_idle p now then mret (StaleEvidence (evidence_idle p now), c) else
      saved ← match op_cache_file (ec_opts c), spec_hostname (ec_spec c) with
              | true, Some name => save_cache_with_policy name (spec_port (ec_spec c)) expected (op_allow_private (ec_opts c))
              | _, _ => mret true
              end;
      if negb (saved : bool) then mret (PersistenceFailed, c) else
      let c := set_ec_attended_cutover false (set_ec_probation None (set_ec_cache_fresh_until None
                 (set_ec_committed_activity (Some now) (set_ec_committed_good (Some expected) c)))) in
      mret (Promoted (pb_rollback p), order_candidates c)
  end.

(** The probation was charged, or may return directly: authorized. *)
Definition authorize (c : Ec) (p : Probation) (wall_now : Z) : Io (bool * Ec) :=
  r ← (if pb_rollback_authorized p || pb_direct_return p then mret (true, c) else charge_fallback c wall_now (pb_rollback p));
  if (r.1 : bool) then mret (true, set_ec_probation (Some (set_pb_rollback_authorized true p)) r.2) else mret (false, r.2).

Definition probation_rollback_due (c : Ec) (now : Z) : Io (bool * Ec) :=
  wall_now ← unix_now_secs;
  match current_v4 c, ec_probation c with
  | Some cur, Some p =>
      let due := match pb_rollback_at p with Some deadline => deadline <=? now | None => false end in
      if negb (bool_decide (pb_candidate p = cur)) || negb due then mret (false, c) else
      if negb (bool_decide (committed_fresh c now cur = Some (pb_rollback p))) then mret (false, c) else
      authorize c p wall_now
  | _, _ => mret (false, c)
  end.

Definition authorize_operator_rollback (c : Ec) (expected : Ipv4Addr) (now : Z) : Io (bool * Ec) :=
  wall_now ← unix_now_secs;
  match current_v4 c, ec_probation c with
  | Some cur, Some p =>
      if negb (bool_decide (cur = expected)) || negb (bool_decide (pb_candidate p = expected)) then mret (false, c) else
      if negb (bool_decide (committed_fresh c now cur = Some (pb_rollback p))) then mret (false, c) else
      authorize c p wall_now
  | _, _ => mret (false, c)
  end.
