(* ===== verification/CommandLine.v ===== *)
(** The command line and the configuration file: [src/src/config.rs] ([parse_conf_line],
    [expand_conf_file], [parse_args] and its helpers), [EndpointSpec::parse] and [Display] of
    [src/src/endpoint.rs], and [redact_argv] of [src/src/main.rs].

    The options are split into fields by the clap crate, which is an argument here
    ([try_parse_from]), and so are the files ([read_file]) and the number of processors. *)
From stdpp Require Import strings.
From S2P Require Import Prelude Text NetText Ip Types Auth Cipher World Config LowerLevel EndpointState EndpointCache Endpoint.

(** * Errors: one constructor per message, in the order of the checks *)
Inductive ArgError :=
| EmptyOption | InvalidOption | LineNotOption | DuplicatedConfFile | ConfFileParameter | ConfFileUnreadable | NestedConfFile
| ClapError | ModeConflict | ModeMissing | LocalMissing | RemoteMissing | InvalidLocal | InvalidRemote | Port22
| InvalidDnsServer | DnsServerMissing | DnsTimeoutRange | GatewayInvalid | GatewayWithoutDev | DevConflict
| BootstrapInvalid | BootstrapUnsafe | TuningWithoutFallback | FallbackWithoutHostname | FallbackWithoutCache | FallbackWithoutFifo
| OutOfBounds (option_name : string) | RollbackWindow | NoSuchRawMode | NoSuchCipherMode | NoSuchAuthMode | InvalidSourceIp
| SockBufRange | SeqModeRange | LowerLevelFormat | InvalidMac | HbMode | HbLen | MtuWarn | RandomDrop
| NoSuchAesBackend | NoSuchSyscalls | InvalidLogLevel | TwoKeys | KeyFileUnreadable | KeyFileEmpty | KeyFileNotUtf8.

Inductive Res (A : Type) := Ok (a : A) | Err (e : ArgError).
Arguments Ok {A} _.
Arguments Err {A} _.
#[export] Instance Res_ret : MRet Res := λ A a, Ok a.
#[export] Instance Res_bind : MBind Res := λ A B f r, match r with Ok a => f a | Err e => Err e end.
Definition ok_or {A} (e : ArgError) (o : option A) : Res A := match o with Some a => Ok a | None => Err e end.
Definition require (b : bool) (e : ArgError) : Res unit := if b then Ok tt else Err e.
(** An option that is absent is no error. *)
Definition optional {A B} (f : A → Res B) (o : option A) : Res (option B) :=
  match o with Some a => b ← f a; Ok (Some b) | None => Ok None end.
Fixpoint collect_ok {A B} (f : A → Res B) (l : list A) : Res (list B) :=
  match l with [] => Ok [] | a :: l => b ← f a; bs ← collect_ok f l; Ok (b :: bs) end.

(** * Text *)
Definition is_blank (c : Z) : bool := (c =? 32) || (c =? 9).
(** [trim_start_matches], [trim_matches] at blanks *)
Fixpoint trim_start (l : list Z) : list Z := match l with c :: r => if is_blank c then trim_start r else l | [] => [] end.
Fixpoint trim_end (l : list Z) : list Z :=
  match l with [] => [] | c :: l => let r := trim_end l in if is_blank c && bool_decide (r = []) then [] else c :: r end.
Definition trim_blanks (l : list Z) : list Z := trim_end (trim_start l).
(** [split_at] the first blank *)
Fixpoint split_blank (l : list Z) : option (list Z * list Z) :=
  match l with
  | [] => None
  | c :: r => if is_blank c then Some ([], l) else '(a, b) ← split_blank r; Some (c :: a, b)
  end.
(** [split_once], [rsplit_once] *)
Fixpoint split_once (sep : Z) (l : list Z) : option (list Z * list Z) :=
  match l with
  | [] => None
  | c :: r => if c =? sep then Some ([], r) else '(a, b) ← split_once sep r; Some (c :: a, b)
  end.
Fixpoint rsplit_once (sep : Z) (l : list Z) : option (list Z * list Z) :=
  match l with
  | [] => None
  | c :: r =>
      match rsplit_once sep r with
      | Some (a, b) => Some (c :: a, b)
      | None => if c =? sep then Some ([], r) else None
      end
  end.
Definition starts_with (p l : list Z) : bool := bool_decide (take (length p) l = p).
(** Option values as the names the enumerations know. *)
Definition to_string (l : list Z) : string := String.string_of_list_ascii ((λ c, Ascii.ascii_of_nat (Z.to_nat c)) <$> l).

(** * The configuration file *)
Definition parse_conf_line (line : list Z) : Res (list (list Z)) :=
  let s := trim_blanks line in
  if bool_decide (s = []) || starts_with [35] s then Ok [] else
  if negb (starts_with [45] s) then Err LineNotOption else
  match split_blank s with
  | None => Ok [s]
  | Some (a, b) => Ok [a; trim_start b]
  end.

Definition CONF_FILE : list Z := str "--conf-file".
(** The options around [--conf-file], and its parameter. *)
Fixpoint take_conf_file (args : list (list Z)) (conf : option (list Z)) : Res (list (list Z) * option (list Z)) :=
  match args with
  | [] => Ok ([], conf)
  | a :: args =>
      if bool_decide (a = CONF_FILE) then
        match conf with
        | Some _ => Err DuplicatedConfFile
        | None =>
            match args with
            | [] => Err ConfFileParameter
            | path :: args => if starts_with [45] path then Err ConfFileParameter else take_conf_file args (Some path)
            end
        end
      else
        r ← take_conf_file args conf;
        Ok (a :: r.1, r.2)
  end.
Fixpoint conf_tokens (toks : list (list Z)) : Res (list (list Z)) :=
  match toks with
  | [] => Ok []
  | tok :: toks => if bool_decide (tok = CONF_FILE) then Err NestedConfFile else r ← conf_tokens toks; Ok (tok :: r)
  end.
Fixpoint conf_lines (lines : list (list Z)) : Res (list (list Z)) :=
  match lines with
  | [] => Ok []
  | line :: lines =>
      toks ← parse_conf_line line;
      toks ← conf_tokens toks;
      r ← conf_lines lines;
      Ok (toks ++ r)
  end.

(** * Endpoints *)
Definition EndpointSpec_parse (s : list Z) : option EndpointSpec :=
  match parse_socket s with
  | Some a => Some (Literal a)
  | None =>
      '(host, port) ← rsplit_once COLON s;
      port ← parse_uint 16 port;
      if port =? 0 then None else
      if negb (validate_hostname host) then None else
      Some (Hostname (canonical_host host) port)
  end.
(** [Display] *)
Definition EndpointSpec_string (s : EndpointSpec) : list Z :=
  match s with
  | Literal a => socket_string a
  | Hostname name port => name ++ COLON :: dec_string port
  end.

(** * Option values *)
Definition parse_socket_addr (s : list Z) (what : ArgError) : Res SocketAddr :=
  a ← ok_or what (parse_socket s);
  if a.2 =? 22 then Err Port22 else Ok a.
Definition parse_dns_server (s : list Z) : Res SocketAddr :=
  match parse_socket s with
  | Some a => Ok a
  | None => match parse_ip_addr s with Some ip => Ok (ip, 53) | None => Err InvalidDnsServer end
  end.
(** [--lower-level]'s destination *)
Definition parse_dest_mac (s : list Z) : Res (list Z) := ok_or InvalidMac (parse_mac s).
Definition bounded_u32 (name : string) (value min max : Z) : Res Z :=
  if (min <=? value) && (value <=? max) then Ok value else Err (OutOfBounds name).
Definition bounded_u64 (name : string) (value min max : Z) : Res Z :=
  if (min <=? value) && (value <=? max) then Ok value else Err (OutOfBounds name).
(** The content of a key file without its last line end. *)
Definition strip_newline (bytes : list Z) : list Z :=
  if bool_decide (last bytes = Some 10) then strip_last 13 (take (length bytes - 1) bytes) else bytes.
Definition default_threads (available_parallelism : option Z) : Z :=
  Z.min (Z.max (as_signed 64 (default 1 available_parallelism) - 2) 0) 4.

(** * The fields clap fills *)
Record Cli := mkCli {
  cli_client : bool; cli_server : bool; cli_local : option (list Z); cli_remote : option (list Z);
  cli_key : option (list Z); cli_key_file : option (list Z);
  cli_auto_rule : bool; cli_gen_rule : bool; cli_gen_add : bool; cli_keep_rule : bool; cli_clear : bool; cli_wait_lock : bool;
  cli_raw_mode : option (list Z); cli_cipher_mode : option (list Z); cli_auth_mode : option (list Z);
  cli_disable_anti_replay : bool; cli_fix_gro : bool; cli_source_ip : option (list Z); cli_source_port : option Z;
  cli_conf_file : option (list Z); cli_fifo : option (list Z);
  cli_log_level : option Z; cli_log_position : bool; cli_disable_color : bool; cli_enable_color : bool;
  cli_disable_bpf : bool; cli_dev : option (list Z); cli_sock_buf : option Z; cli_force_sock_buf : bool; cli_seq_mode : option Z;
  cli_lower_level : option (list Z); cli_hb_mode : option Z; cli_hb_len : option Z; cli_mtu_warn : option Z;
  cli_max_rst_to_show : option Z; cli_max_rst_allowed : option Z; cli_set_ttl : option Z; cli_retry_on_error : bool;
  cli_random_drop : option Z; cli_easy_tcp : bool; cli_dns_resolve : bool; cli_dns_server : list (list Z); cli_dns_timeout : option Z;
  cli_underlay_dev : option (list Z); cli_underlay_gateway : option (list Z); cli_allow_private_endpoint : bool;
  cli_endpoint_cache : option (list Z); cli_bootstrap_addr : option (list Z);
  cli_last_good_fallback : bool; cli_fallback_after : option Z; cli_fallback_max_attempts : option Z; cli_fallback_cooldown : option Z;
  cli_fallback_max_age : option Z; cli_fallback_global_attempts : option Z; cli_fallback_global_refill : option Z;
  cli_fallback_round_timeout : option Z; cli_fallback_probation : option Z; cli_fallback_rollback_window : option Z;
  cli_simple_rule : bool; cli_debug : bool; cli_unit_test : bool; cli_threads : option Z;
  cli_aes_backend : option (list Z); cli_syscalls : option (list Z); cli_help : bool }.

(** * The configuration: [Config] with what only [main] and the start-up read *)
Record Settings := mkSettings {
  se_cfg : Config; se_flags : Flags; se_remote : EndpointSpec; se_dns_servers : list SocketAddr; se_dns_timeout_ms : Z;
  se_allow_private_endpoint : bool; se_endpoint_cache : option (list Z); se_bootstrap_addr : option Ipv4Addr;
  se_last_good_fallback : LastGoodFallbackPolicy; se_key : list Z; se_cipher_mode : CipherMode; se_cfb_legacy : bool;
  se_auth_mode : AuthMode; se_fifo : option (list Z); se_log_level : Z; se_log_position : bool; se_log_color : bool;
  se_dev : option (list Z); se_socket_buf_size : Z; se_force_socket_buf : bool; se_mtu_warn : Z; se_debug : bool;
  se_aes_backend : AesBackend; se_syscalls : Syscalls }.
Inductive ParseOutcome := Run (c : Settings) | Help | UnitTest.

Definition MAX_SEQ_MODE : Z := 4.
Definition DEFAULT_SEQ_MODE : Z := 3.
Definition DEFAULT_HB_LEN : Z := 1200.
Definition DEFAULT_MTU_WARN : Z := 1375.
Definition DEFAULT_SOCKET_BUF_SIZE : Z := 1024 * 1024.
Definition DEFAULT_TTL : Z := 64.
Definition DEFAULT_MAX_RST_TO_SHOW : Z := 15.
Definition DEFAULT_MAX_RST_ALLOWED : Z := -1.

(** * The checks, group by group *)
Definition check_argv (raw_args : list (list Z)) : Res unit :=
  collect_ok (λ a, require (negb (bool_decide (a = []))) EmptyOption;;
                   require (negb (bool_decide (a = str "-") || bool_decide (a = str "--"))) InvalidOption) raw_args;;
  Ok tt.
Definition choose_mode (cli : Cli) : Res ProgramMode :=
  if cli_client cli && cli_server cli then Err ModeConflict else
  if cli_client cli then Ok ModeClient else if cli_server cli then Ok ModeServer else Err ModeMissing.
Definition choose_remote (mode : ProgramMode) (remote_str : list Z) : Res EndpointSpec :=
  remote ← match mode with
           | ModeClient => ok_or InvalidRemote (EndpointSpec_parse remote_str)
           | ModeServer =>
               match parse_socket remote_str with
               | Some _ => a ← parse_socket_addr remote_str InvalidRemote; Ok (Literal a)
               | None => Err InvalidRemote
               end
           end;
  if spec_port remote =? 22 then Err Port22 else Ok remote.
Definition placeholder_addr (remote : EndpointSpec) : SocketAddr :=
  match remote with Literal a => a | Hostname _ port => (V4 [0; 0; 0; 0], port) end.
Definition choose_dns (cli : Cli) (remote : EndpointSpec) : Res (list SocketAddr * Z) :=
  dns_servers ← collect_ok parse_dns_server (cli_dns_server cli);
  require (negb (spec_is_dynamic remote && bool_decide (dns_servers = []))) DnsServerMissing;;
  let dns_timeout_ms := default 2000 (cli_dns_timeout cli) in
  require ((100 <=? dns_timeout_ms) && (dns_timeout_ms <=? 30000)) DnsTimeoutRange;;
  Ok (dns_servers, dns_timeout_ms).
Definition choose_gateway (cli : Cli) : Res (option (list Z)) :=
  gateway ← optional (λ g, ok_or GatewayInvalid (parse_ipv4 g)) (cli_underlay_gateway cli);
  require (negb (bool_decide (is_Some gateway) && bool_decide (cli_underlay_dev cli = None))) GatewayWithoutDev;;
  match cli_dev cli, cli_underlay_dev cli with
  | Some dev, Some underlay => require (bool_decide (dev = underlay)) DevConflict
  | _, _ => Ok tt
  end;;
  Ok gateway.
Definition choose_bootstrap (cli : Cli) : Res (option Ipv4Addr) :=
  optional (λ b, ip ← ok_or BootstrapInvalid (parse_ipv4 b);
                 require (check_endpoint_ip ip (cli_allow_private_endpoint cli)) BootstrapUnsafe;;
                 Ok ip) (cli_bootstrap_addr cli).
Definition choose_cache (cli : Cli) (remote : EndpointSpec) : option (list Z) :=
  match cli_endpoint_cache cli, remote with
  | Some p, _ => if bool_decide (p = str "none") || bool_decide (p = []) then None else Some p
  | None, Hostname name port => Some (str "/var/lib/udp2raw/endpoint_" ++ name ++ str "_" ++ dec_string port)
  | None, Literal _ => None
  end.
Definition fallback_tuning_present (cli : Cli) : bool :=
  existsb (λ o : option Z, bool_decide (is_Some o))
    [cli_fallback_after cli; cli_fallback_max_attempts cli; cli_fallback_cooldown cli; cli_fallback_max_age cli;
     cli_fallback_global_attempts cli; cli_fallback_global_refill cli; cli_fallback_round_timeout cli;
     cli_fallback_probation cli; cli_fallback_rollback_window cli].
Definition required_rollback_ms (preferred_round_timeout_ms probation_ms : Z) : Z :=
  saturating_add 64 (saturating_add 64 (saturating_add 64 (saturating_add 64 CLIENT_CONN_TIMEOUT_MS preferred_round_timeout_ms)
    CLIENT_HANDSHAKE_TIMEOUT_MS) probation_ms) (2 * TIMER_INTERVAL_MS).
Definition seconds (name : string) (value : option Z) (dflt min max : Z) : Res Z :=
  v ← bounded_u64 name (default dflt value) min max; Ok (saturating_mul 64 v 1000).
Definition choose_fallback (cli : Cli) (remote : EndpointSpec) (endpoint_cache : option (list Z)) : Res LastGoodFallbackPolicy :=
  let enabled := cli_last_good_fallback cli in
  require (negb (fallback_tuning_present cli && negb enabled)) TuningWithoutFallback;;
  (if enabled then
     require (spec_is_dynamic remote) FallbackWithoutHostname;;
     require (bool_decide (is_Some endpoint_cache)) FallbackWithoutCache;;
     require (bool_decide (is_Some (cli_fifo cli))) FallbackWithoutFifo
   else Ok tt);;
  probation_ms ← seconds "probation" (cli_fallback_probation cli) 30 1 86400;
  rollback_window_ms ← seconds "rollback-window" (cli_fallback_rollback_window cli) 300 2 (7 * 86400);
  preferred_round_timeout_ms ← seconds "round-timeout" (cli_fallback_round_timeout cli) 30 5 600;
  require (negb (enabled && (rollback_window_ms <=? required_rollback_ms preferred_round_timeout_ms probation_ms))) RollbackWindow;;
  after_failures ← bounded_u32 "after" (default 3 (cli_fallback_after cli)) 1 100;
  max_attempts ← bounded_u32 "max-attempts" (default 2 (cli_fallback_max_attempts cli)) 1 100;
  cooldown_ms ← seconds "cooldown" (cli_fallback_cooldown cli) 300 1 86400;
  max_age_ms ← seconds "max-age" (cli_fallback_max_age cli) 86400 1 (31 * 86400);
  global_capacity ← bounded_u32 "global-attempts" (default 4 (cli_fallback_global_attempts cli)) 1 100;
  global_refill_ms ← seconds "global-refill" (cli_fallback_global_refill cli) 900 1 (7 * 86400);
  Ok (mkPolicy enabled after_failures max_attempts cooldown_ms max_age_ms global_capacity global_refill_ms
        preferred_round_timeout_ms probation_ms rollback_window_ms).

Record Modes := mkModes {
  mo_raw_mode : RawMode; mo_easy : bool; mo_cipher_mode : CipherMode; mo_cfb_legacy : bool; mo_auth_mode : AuthMode;
  mo_disable_anti_replay : bool }.
(** A name that is absent stands for its default. *)
Definition named {A} (parse : string → option A) (dflt : A) (e : ArgError) (name : option (list Z)) : Res A :=
  match name with Some s => ok_or e (parse (to_string s)) | None => Ok dflt end.
Definition choose_modes (cli : Cli) : Res Modes :=
  r ← named RawMode_parse (FakeTcp, false) NoSuchRawMode (cli_raw_mode cli);
  let easy := if cli_easy_tcp cli then true else r.2 in
  c ← named CipherMode_parse (Aes128Cbc, false) NoSuchCipherMode (cli_cipher_mode cli);
  auth_mode ← named AuthMode_parse Md5 NoSuchAuthMode (cli_auth_mode cli);
  let '(auth_mode, disable_anti_replay) :=
    if is_aead c.1 then (AuthNone, cli_disable_anti_replay cli)
    else if bool_decide (auth_mode = AuthNone) then (auth_mode, true)
    else (auth_mode, cli_disable_anti_replay cli) in
  Ok (mkModes r.1 easy c.1 c.2 auth_mode disable_anti_replay).

Definition choose_sock_buf (cli : Cli) : Res Z :=
  match cli_sock_buf cli with
  | Some kb => if (10 <=? kb) && (kb <=? 10 * 1024) then Ok (kb * 1024) else Err SockBufRange
  | None => Ok DEFAULT_SOCKET_BUF_SIZE
  end.
Definition choose_lower_level (cli : Cli) : Res (option LowerLevel) :=
  optional (λ s, if bool_decide (s = str "auto") then Ok LlAuto else
                 '(if_name, mac) ← ok_or LowerLevelFormat (split_once 35 s);
                 dest_mac ← parse_dest_mac mac;
                 Ok (LlManual if_name dest_mac)) (cli_lower_level cli).
(** [-a], [-g], [--gen-add] and [--keep-rule] *)
Definition choose_flags (cli : Cli) : Flags :=
  let auto_rule := cli_auto_rule cli in
  let gen_rule := cli_gen_rule cli in
  let auto_rule := if auto_rule && gen_rule then false else auto_rule in
  let gen_rule := if cli_gen_add cli && gen_rule then false else gen_rule in
  let '(auto_rule, gen_rule) := if cli_keep_rule cli && negb auto_rule then (true, false) else (auto_rule, gen_rule) in
  mkFlags auto_rule (cli_keep_rule cli) (cli_clear cli) gen_rule (cli_gen_add cli).

Section parse.
Context (read_file : list Z → option (list Z)) (try_parse_from : list (list Z) → option Cli) (available_parallelism : option Z).

(** [read_to_string] refuses text that is not UTF-8. *)
Definition read_to_string (path : list Z) : option (list Z) :=
  text ← read_file path; if utf8_valid text then Some text else None.
Definition expand_conf_file (args : list (list Z)) : Res (list (list Z)) :=
  '(out, conf) ← take_conf_file args None;
  match conf with
  | None => Ok out
  | Some path =>
      text ← ok_or ConfFileUnreadable (read_to_string path);
      toks ← conf_lines (text_lines text);
      Ok (out ++ toks)
  end.
Definition read_key_file (path : list Z) : Res (list Z) :=
  bytes ← ok_or KeyFileUnreadable (read_file path);
  let bytes := strip_newline bytes in
  if bool_decide (bytes = []) then Err KeyFileEmpty else
  if utf8_valid bytes then Ok bytes else Err KeyFileNotUtf8.
Definition choose_key (cli : Cli) : Res (list Z) :=
  match cli_key cli, cli_key_file cli with
  | Some _, Some _ => Err TwoKeys
  | Some k, None => Ok k
  | None, Some path => read_key_file path
  | None, None => Ok (str "secret key")
  end.

Definition settings (cli : Cli) : Res Settings :=
  mode ← choose_mode cli;
  local ← ok_or LocalMissing (cli_local cli);
  local_addr ← parse_socket_addr local InvalidLocal;
  remote_str ← ok_or RemoteMissing (cli_remote cli);
  remote ← choose_remote mode remote_str;
  '(dns_servers, dns_timeout_ms) ← choose_dns cli remote;
  underlay_gateway ← choose_gateway cli;
  bootstrap_addr ← choose_bootstrap cli;
  let endpoint_cache := choose_cache cli remote in
  last_good_fallback ← choose_fallback cli remote endpoint_cache;
  modes ← choose_modes cli;
  source_ip ← optional (λ s, ok_or InvalidSourceIp (parse_ip_addr s)) (cli_source_ip cli);
  socket_buf_size ← choose_sock_buf cli;
  let seq_mode := default DEFAULT_SEQ_MODE (cli_seq_mode cli) in
  require ((0 <=? seq_mode) && (seq_mode <=? MAX_SEQ_MODE)) SeqModeRange;;
  lower_level ← choose_lower_level cli;
  let hb_mode := default 1 (cli_hb_mode cli) in
  require ((hb_mode =? 0) || (hb_mode =? 1)) HbMode;;
  let hb_len := default DEFAULT_HB_LEN (cli_hb_len cli) in
  require (hb_len <=? 1500) HbLen;;
  let mtu_warn := default DEFAULT_MTU_WARN (cli_mtu_warn cli) in
  require (negb (mtu_warn =? 0)) MtuWarn;;
  let random_drop := default 0 (cli_random_drop cli) in
  require (random_drop <=? 10000) RandomDrop;;
  aes_backend ← named AesBackend_parse Auto NoSuchAesBackend (cli_aes_backend cli);
  syscalls ← named Syscalls_parse SysAuto NoSuchSyscalls (cli_syscalls cli);
  let log_level := default 4 (cli_log_level cli) in
  require ((0 <=? log_level) && (log_level <=? 6)) InvalidLogLevel;;
  key ← choose_key cli;
  Ok (mkSettings
        (mkConfig mode local_addr (placeholder_addr remote) (mo_raw_mode modes) (mo_easy modes) (mo_disable_anti_replay modes)
           (cli_fix_gro cli) (cli_disable_bpf cli) seq_mode lower_level hb_mode hb_len
           (default DEFAULT_MAX_RST_TO_SHOW (cli_max_rst_to_show cli)) (default DEFAULT_MAX_RST_ALLOWED (cli_max_rst_allowed cli))
           (default DEFAULT_TTL (cli_set_ttl cli)) random_drop
           (default (default_threads available_parallelism) (cli_threads cli)) source_ip (cli_source_port cli)
           (cli_wait_lock cli) (cli_underlay_dev cli) underlay_gateway (cli_retry_on_error cli))
        (choose_flags cli) remote dns_servers dns_timeout_ms (cli_allow_private_endpoint cli) endpoint_cache bootstrap_addr
        last_good_fallback key (mo_cipher_mode modes) (mo_cfb_legacy modes) (mo_auth_mode modes) (cli_fifo cli) log_level
        (cli_log_position cli) (negb (cli_disable_color cli)) (cli_dev cli) socket_buf_size (cli_force_sock_buf cli) mtu_warn
        (cli_debug cli) aes_backend syscalls).

Definition parse_args (raw_args : list (list Z)) : Res ParseOutcome :=
  if existsb (λ a, bool_decide (a = str "--unit-test")) raw_args then Ok UnitTest else
  if bool_decide (raw_args = []) || existsb (λ a, bool_decide (a = str "-h") || bool_decide (a = str "--help")) raw_args then Ok Help else
  check_argv raw_args;;
  args ← expand_conf_file raw_args;
  cli ← ok_or ClapError (try_parse_from args);
  s ← settings cli;
  Ok (Run s).
End parse.

(** * The arguments in the log *)
Definition REDACTED : list Z := str "<redacted>".
Fixpoint redact_args (skip_next : bool) (args : list (list Z)) : list (list Z) * bool :=
  match args with
  | [] => ([], false)
  | a :: args =>
      let '(o, skip_next, redacted) :=
        if skip_next then (REDACTED, false, true)
        else if bool_decide (a = str "-k") || bool_decide (a = str "--key") then (a, true, false)
        else if starts_with (str "--key=") a then (str "--key=" ++ REDACTED, false, true)
        else if (2 <? zlen a) && starts_with (str "-k") a && negb (starts_with (str "--") a) then (str "-k" ++ REDACTED, false, true)
        else (a, false, false) in
      let '(out, r) := redact_args skip_next args in
      (o :: out, redacted || r)
  end.
Definition redact_argv (args : list (list Z)) : list Z * bool :=
  let '(out, redacted) := redact_args false args in (join 32 out, redacted).
