(* ===== verification/EndpointInv.v ===== *)
(** The endpoint controller's invariant ([src/src/endpoint.rs]): every operation keeps it and
    returns, for every answer of the resolver, the clocks and the file system; and every
    state file it writes is readable. *)
From stdpp Require Import strings.
From S2P Require Import Prelude Util Text Ip EndpointState EndpointCache Types World Config Endpoint.

(** * What a parsed state file guarantees *)
Lemma dec_value_nonneg acc l v : 0 ≤ acc → dec_value acc l = Some v → 0 ≤ v.
Proof.
  revert acc. induction l as [|c l IH]; intros acc Ha E; cbn in E; [by injection E as <-|].
  destruct (is_digit c) eqn:Ed; [|done]. eapply IH; [|exact E]. unfold is_digit in Ed. lia.
Qed.
Lemma parse_uint_range w s v : parse_uint w s = Some v → is_u w v.
Proof.
  unfold parse_uint. destruct s as [|c r]; [done|]. destruct (dec_value _ _) as [v'|] eqn:E; [|done].
  destruct (Z.ltb_spec v' (2 ^ w)); [|done]. intros [= <-]. split; [by eapply dec_value_nonneg in E|done].
Qed.
Lemma parse_octet_range s v : parse_octet s = Some v → is_byte v.
Proof.
  unfold parse_octet. destruct (_ || _); [done|]. destruct (_ && _); [done|].
  destruct (dec_value _ _) as [v'|] eqn:E; [|done]. destruct (Z.ltb_spec v' 256); [|done]. intros [= <-].
  apply dec_value_nonneg in E; [|done]. unfold is_u. lia.
Qed.
Lemma parse_ipv4_ok s o : parse_ipv4 s = Some o → v4_ok o.
Proof.
  unfold parse_ipv4. destruct (Z.eqb_spec (zlen (split_on 46 s)) 4) as [El|]; [|done].
  intros E%mapM_Some. split.
  - clear El. induction E as [|x y l k Hxy _ IH]; constructor; [by eapply parse_octet_range|done].
  - apply Forall2_length in E. lia.
Qed.

Definition addr_ok (allow_private : bool) (ip : Ipv4Addr) : Prop := v4_ok ip ∧ check_endpoint_ip ip allow_private = true.

Lemma parse_state_ip_ok s ap ip : parse_state_ip s ap = Some ip → addr_ok ap ip.
Proof.
  unfold parse_state_ip. destruct (parse_ipv4 s) as [o|] eqn:E; [|done]. destruct (negb _); [done|].
  destruct (check_endpoint_ip o ap) eqn:Ec; [|done]. intros [= <-]. split; [by eapply parse_ipv4_ok|done].
Qed.
Lemma parse_state_uint_ok w s v : parse_state_uint w s = Some v → is_u w v.
Proof. unfold parse_state_uint. destruct (parse_uint w s) eqn:E; [|done]. case_bool_decide; [|done]. intros [= <-]. by eapply parse_uint_range. Qed.

Lemma parse_entry_ok ap now es l e : 0 ≤ now → parse_entry ap now es l = Some e →
  entry_ok ap now e ∧ entry_key e ∉ entry_key <$> es.
Proof.
  intros Hnow E. unfold parse_entry in E. apply bind_Some in E as (raw & _ & E).
  destruct (split_on 124 raw) as [|f0 [|f1 [|f2 [|f3 [|f4 [|]]]]]]; try done.
  apply bind_Some in E as (cand & Hc%parse_state_ip_ok & E). apply bind_Some in E as (ch & Hch%parse_state_uint_ok & E).
  apply bind_Some in E as (nb & Hnb%parse_state_uint_ok & E). apply bind_Some in E as (lu & Hlu%parse_state_uint_ok & E).
  destruct (Z.eqb_spec ch 0); [done|]. destruct (Z.ltb_spec (saturating_add 64 now 300) lu); [done|].
  destruct (_ || _) eqn:Eo; [done|]. apply orb_false_iff in Eo as [Eo1 Eo2]. unfold saturating_sub in Eo2.
  apply bind_Some in E as (set & Hset%mapM_Some & E). destruct (_ || _) eqn:Es; [done|].
  apply orb_false_iff in Es as [[Es1 Es2]%orb_false_iff Es3].
  apply negb_false_iff, bool_decide_eq_true in Es1. apply bool_decide_eq_false in Es2. apply Nat.ltb_ge in Es3.
  destruct (existsb _ _) eqn:Ex; [done|]. injection E as <-.
  assert (Forall (addr_ok ap) set) as Hs.
  { clear -Hset. induction Hset as [|x y l k Hxy _ IH]; constructor; [by eapply parse_state_ip_ok|done]. }
  split.
  - destruct Hc. unfold is_u in *. constructor; cbn; try done.
    + split; [lia|]. unfold is_u. lia.
    + rewrite (proj2 (Z.ltb_ge nb lu)) in Eo2 by lia. lia.
    + split; [|done]. rewrite Es1. apply canonical_props. eapply Forall_impl; [exact Hs|]. by intros ? [? _].
  - intros (e & Hk & He)%list_elem_of_fmap. assert (existsb (λ e, bool_decide (is_entry cand set e)) es = true) as Hy; [|congruence].
    apply existsb_exists. exists e. split; [by apply list_elem_of_In|]. apply bool_decide_eq_true.
    by apply (is_entry_key (cand, set)).
Qed.
Lemma parse_entries_ok ap now es ls es' : 0 ≤ now → parse_entries ap now es ls = Some es' →
  ledger_ok es → Forall (entry_ok ap now) es →
  ledger_ok es' ∧ Forall (entry_ok ap now) es' ∧ length es' = (length es + length ls)%nat.
Proof.
  intros Hnow. revert es. induction ls as [|l ls IH]; intros es E Hl He; cbn in E.
  { injection E as <-. split_and!; [done|done|cbn; lia]. }
  apply bind_Some in E as (e & [Hok Hk]%parse_entry_ok & E); [|done].
  destruct (IH _ E) as (H1 & H2 & H3).
  - unfold ledger_ok. rewrite fmap_app. apply NoDup_app. split_and!; [done| |apply NoDup_singleton].
    intros k Hk' ->%list_elem_of_singleton. done.
  - apply Forall_app_2; [done|by constructor].
  - split_and!; [done|done|]. rewrite H3, length_app. cbn. lia.
Qed.
Lemma parse_state_ok bytes host port cap ap now st : 0 ≤ now →
  parse_fallback_state bytes host port cap ap now = Some st → state_ok ap cap now st.
Proof.
  intros Hnow E. unfold parse_fallback_state in E. destruct (negb _); [done|]. destruct (_ || _); [done|].
  destruct (split_on _ _) as [|l0 [|l1 [|l2 [|l3 [|l4 [|l5 ls]]]]]]; try done.
  destruct (Nat.ltb_spec MAX_BUDGET_ENTRIES (length ls)); [done|]. destruct (negb _); [done|].
  apply bind_Some in E as (? & _ & E). destruct (negb _); [done|].
  apply bind_Some in E as (? & _ & E). destruct (negb _); [done|].
  apply bind_Some in E as (? & _ & E). destruct (negb _); [done|].
  apply bind_Some in E as (? & _ & E). apply bind_Some in E as (tok & Ht%parse_state_uint_ok & E).
  destruct (Z.ltb_spec cap tok); [done|].
  apply bind_Some in E as (? & _ & E). apply bind_Some in E as (upd & Hu%parse_state_uint_ok & E).
  destruct (Z.ltb_spec (saturating_add 64 now 300) upd); [done|].
  apply bind_Some in E as (es & Hes & E). injection E as <-. unfold is_u in *.
  destruct (parse_entries_ok ap now [] ls es Hnow Hes) as (Hl1 & Hl2 & Hl3); [apply NoDup_nil_2|constructor|].
  constructor; cbn; try done; unfold is_u; try lia. cbn in Hl3. lia.
Qed.
Lemma state_ok_new ap policy now : policy_ok policy → 0 ≤ now < 2 ^ 64 - 300 → state_ok ap (fp_global_capacity policy) now (FallbackState_new (fp_global_capacity policy) now).
Proof.
  intros [_ _ _ Hc] Hn. constructor; cbn; [unfold is_u; lia|unfold saturating_add; lia|apply NoDup_nil_2|constructor|].
  unfold MAX_BUDGET_ENTRIES. lia.
Qed.

Lemma parse_cache_ok bytes host port ap entry : parse_cache_entry bytes host port ap = Some (Some entry) → addr_ok ap (ce_addr entry).
Proof.
  intros E. unfold parse_cache_entry in E. destruct (negb _); [done|]. destruct (_ || _); [done|].
  destruct (if bool_decide _ then _ else _) as [|l0 [|l1 [|l2 rest]]]; try done. destruct (_ <? _)%nat; [done|].
  apply bind_Some in E as (? & _ & E). apply bind_Some in E as (? & _ & E). apply bind_Some in E as (? & _ & E).
  destruct (_ || _); [done|]. apply bind_Some in E as (? & _ & E). destruct (_ || _); [done|].
  apply bind_Some in E as (addr & Ha%parse_ipv4_ok & E). destruct (negb _); [done|].
  destruct (check_endpoint_ip addr ap) eqn:Ec; [|done]. cbn [negb] in E.
  assert (ce_addr entry = addr) as ->; [|done].
  destruct rest as [|l3 rest]; [by injection E as <-|].
  apply bind_Some in E as (? & _ & E). apply bind_Some in E as (? & _ & E). destruct (negb _); [done|]. by injection E as <-.
Qed.

(** * Candidates *)
Record cands_ok (ap : bool) (l : list Ipv4Addr) : Prop := {
  ca_nodup : NoDup l;
  ca_addrs : Forall (addr_ok ap) l;
  ca_length : (length l ≤ MAX_ENDPOINT_CANDIDATES)%nat }.

Lemma cands_perm ap l k : l ≡ₚ k → cands_ok ap k → cands_ok ap l.
Proof. intros Hp [H1 H2 H3]. constructor; by rewrite Hp. Qed.
Lemma addrs_v4 ap l : Forall (addr_ok ap) l → Forall v4_ok l.
Proof. intros H. eapply Forall_impl; [exact H|]. by intros ? [? _]. Qed.

Lemma order_perm ap c : cands_ok ap (ec_candidates c) → ec_candidates (order_candidates c) ≡ₚ ec_candidates c.
Proof.
  intros [Hn Ha Hl]. unfold order_candidates. cbn [ec_candidates set_ec_candidates].
  set (cands := ec_candidates c) in *. set (cur := current_v4 c). set (good := ec_committed_good c).
  set (rest := canonical _). set (first := match cur with Some _ => _ | None => _ end).
  set (second := match good with Some _ => _ | None => _ end).
  assert (∀ x, x ∈ first ↔ Some x = cur ∧ x ∈ cands) as Hf.
  { intros x. unfold first. destruct cur as [a|]; [|split; [by intros ?%elem_of_nil|by intros []]].
    case_bool_decide as Hb; split.
    - by intros ->%list_elem_of_singleton.
    - intros [[= ->] _]. by apply list_elem_of_singleton.
    - by intros ?%elem_of_nil.
    - by intros [[= ->] ?]. }
  assert (∀ x, x ∈ second ↔ Some x = good ∧ x ∈ cands ∧ Some x ≠ cur) as Hs.
  { intros x. unfold second. destruct good as [g|]; [|split; [by intros ?%elem_of_nil|by intros []]].
    destruct (bool_decide_reflect (g ∈ cands)) as [Hg|Hg], (bool_decide_reflect (Some g = cur)) as [Hc|Hc]; cbn [andb negb]; split.
    - by intros ?%elem_of_nil.
    - by intros ([= ->] & _ & ?).
    - by intros ->%list_elem_of_singleton.
    - intros ([= ->] & _). by apply list_elem_of_singleton.
    - by intros ?%elem_of_nil.
    - by intros ([= ->] & ? & _).
    - by intros ?%elem_of_nil.
    - by intros ([= ->] & ? & _). }
  assert (Forall v4_ok (filter (λ ip, Some ip ≠ cur ∧ Some ip ≠ good) cands)) as Hv.
  { apply Forall_forall. intros x [_ Hx]%list_elem_of_filter. by apply (proj1 (Forall_forall _ _) (addrs_v4 _ _ Ha)). }
  assert (∀ x, x ∈ rest ↔ (Some x ≠ cur ∧ Some x ≠ good) ∧ x ∈ cands) as Hr.
  { intros x. unfold rest. rewrite (proj1 (proj2 (canonical_props _ Hv))).
    by rewrite list_elem_of_filter. }
  assert (NoDup (first ++ second ++ rest)) as HN.
  { apply NoDup_app. split_and!.
    - unfold first. destruct cur; [case_bool_decide|]; [apply NoDup_singleton|apply NoDup_nil_2|apply NoDup_nil_2].
    - intros x [Hx _]%Hf [[_ [_ Hx']]%Hs|[[Hx' _] _]%Hr]%elem_of_app; done.
    - apply NoDup_app. split_and!.
      + unfold second. destruct good; [destruct (_ && _)|]; [apply NoDup_singleton|apply NoDup_nil_2|apply NoDup_nil_2].
      + intros x [Hx _]%Hs [[_ Hx'] _]%Hr. done.
      + by apply ascending_NoDup, canonical_props. }
  assert (first ++ second ++ rest ≡ₚ cands) as Hp.
  { apply NoDup_Permutation; [done|done|]. intros x. rewrite !elem_of_app, Hf, Hs, Hr.
    split; [by intros [[_ ?]|[(_ & ? & _)|[_ ?]]]|]. intros Hx.
    destruct (decide (Some x = cur)); [by left|]. right. destruct (decide (Some x = good)); [by left|by right]. }
  rewrite take_ge; [done|]. by rewrite Hp.
Qed.

Lemma canonical_cands ap c : cands_ok ap (ec_candidates c) → ec_candidates c ≠ [] →
  set_ok ap (canonical_candidates c) ∧ ∀ x, x ∈ canonical_candidates c ↔ x ∈ ec_candidates c.
Proof.
  intros [Hn Ha Hl] Hne. destruct (canonical_props _ (addrs_v4 _ _ Ha)) as (Has & Hm & _).
  assert (canonical (ec_candidates c) ≡ₚ ec_candidates c) as Hp by (apply NoDup_Permutation; [by apply ascending_NoDup|done|done]).
  unfold canonical_candidates. rewrite take_ge by by rewrite Hp. split; [|done].
  constructor; [|done| |by rewrite Hp].
  - rewrite Hp. eapply Forall_impl; [exact Ha|]. done.
  - intros E. rewrite E in Hp. by apply Permutation_nil_l in Hp.
Qed.
Lemma next_candidate ap c cur x : cands_ok ap (ec_candidates c) → next_dns_candidate c cur = Some x → x ∈ ec_candidates c.
Proof.
  intros Hc E. unfold next_dns_candidate in E. destruct (canonical_candidates c) as [|y l] eqn:Es; [done|].
  apply list_elem_of_lookup_2 in E. rewrite <-Es in E. unfold canonical_candidates in E.
  apply elem_of_take in E as (i & Hi%list_elem_of_lookup_2 & _).
  by apply (proj1 (proj2 (canonical_props _ (addrs_v4 _ _ (ca_addrs _ _ Hc))))).
Qed.

(** * The invariant *)
Record ep_inv (c : Ec) : Prop := {
  ei_spec : ∃ name port, ec_spec c = Hostname name port ∧ validate_hostname name = true ∧
    name = canonical_host name ∧ is_u 16 port ∧ port ≠ 0;
  ei_current : ∃ cur, ec_current c = (V4 cur, spec_port (ec_spec c)) ∧ addr_ok (op_allow_private (ec_opts c)) cur;
  ei_committed g : ec_committed_good c = Some g → addr_ok (op_allow_private (ec_opts c)) g;
  ei_cands : cands_ok (op_allow_private (ec_opts c)) (ec_candidates c);
  ei_probation p : ec_probation c = Some p →
    enabled c = true ∧ ec_committed_good c = Some (pb_rollback p) ∧ pb_candidate p ≠ pb_rollback p;
  ei_empty : ec_candidates c = [] → ec_committed_good c = None ∨ ec_committed_good c = current_v4 c;
  ei_policy : policy_ok (policy c) }.

(** The invariant only reads these. *)
Definition core (c : Ec) :=
  (ec_spec c, ec_opts c, ec_current c, ec_committed_good c, ec_candidates c, ec_probation c).
Lemma inv_core c c' : core c' = core c → ep_inv c → ep_inv c'.
Proof.
  unfold core. intros [= E1 E2 E3 E4 E5 E6] [H1 H2 H3 H4 H5 H6 H7].
  assert (policy c' = policy c) as Ep by (unfold policy; by rewrite E2).
  assert (current_v4 c' = current_v4 c) as Ev by (unfold current_v4; by rewrite E3).
  constructor; unfold enabled in *; rewrite ?Ep, ?Ev, ?E1, ?E2, ?E3, ?E4, ?E5, ?E6; done.
Qed.
Lemma core_start_round c now : core (start_preferred_round c now) = core c.
Proof. unfold start_preferred_round. by destruct (_ && _). Qed.

Lemma current_is c : ep_inv c → ∃ cur, current_v4 c = Some cur ∧ ec_current c = (V4 cur, spec_port (ec_spec c)) ∧
  addr_ok (op_allow_private (ec_opts c)) cur.
Proof. intros [_ (cur & E & Ha) _ _ _ _ _]. exists cur. split; [|done]. unfold current_v4. by rewrite E. Qed.

(** Reordering after a change of the other fields. *)
Lemma inv_order c : ep_inv c → ep_inv (order_candidates c).
Proof.
  intros [H1 H2 H3 H4 H5 H6 H7]. pose proof (order_perm _ _ H4) as Hp.
  constructor; try done; [by eapply cands_perm|]. intros E. apply H6.
  rewrite E in Hp. by apply Permutation_nil_l in Hp.
Qed.
Lemma order_core c : (ec_spec (order_candidates c), ec_opts (order_candidates c), ec_committed_good (order_candidates c)) =
  (ec_spec c, ec_opts c, ec_committed_good c).
Proof. done. Qed.

(** What a switch leads to: a candidate or the committed address. *)
Lemma inv_switch c t : ep_inv c → t ∈ ec_candidates c ∨ ec_committed_good c = Some t → ep_inv (switch_to c t).2.
Proof.
  intros Hi Ht. destruct (current_is c Hi) as (cur & Ecur & Ec & Hca). unfold switch_to. rewrite Ecur.
  case_bool_decide as E; [done|]. cbn [snd]. apply inv_order. destruct Hi as [H1 H2 H3 H4 H5 H6 H7].
  constructor; cbn; try done.
  - exists t. split; [done|]. destruct Ht as [Ht|Ht]; [|by apply H3].
    by apply (proj1 (Forall_forall _ _) (ca_addrs _ _ H4)).
  - intros En. right. destruct Ht as [Ht|Ht]; [rewrite En in Ht; by apply elem_of_nil in Ht|].
    unfold current_v4. cbn. by rewrite Ht.
Qed.
Lemma switch_frame c t : ec_spec (switch_to c t).2 = ec_spec c ∧ ec_opts (switch_to c t).2 = ec_opts c ∧
  ec_committed_good (switch_to c t).2 = ec_committed_good c.
Proof. unfold switch_to. destruct (current_v4 c); [|done]. by case_bool_decide. Qed.

Lemma switch_probation c t : ec_probation (switch_to c t).2 = ec_probation c.
Proof. unfold switch_to. destruct (current_v4 c); [|done]. by case_bool_decide. Qed.

(** * The environment *)
(** A time the wall clock showed when it was read. *)
Definition wall_read (w : World) (t : Z) : Prop := ∃ i, (i < h_unix_pos (w_host w))%nat ∧ t = h_unix (w_host w) i.
Lemma wall_range w t : env_ok w → wall_read w t → 0 ≤ t < 2 ^ 64 - MAX_PERSISTED_COOLDOWN_SECS.
Proof. intros Hw (i & _ & ->). apply (eo_unix w Hw). Qed.
Lemma wall_later w w' t : later w w' → wall_read w t → wall_read w' t.
Proof. intros Hl (i & Hi & ->). exists i. rewrite (la_unix _ _ Hl). split; [pose proof (la_unix_pos _ _ Hl); lia|done]. Qed.
#[export] Hint Resolve wall_later : core.

Lemma runs_unix w (Q : Z → World → Prop) : env_ok w →
  (∀ t w', wall_read w' t → later w w' → w_trace w' = w_trace w → env_ok w' → Q t w') →
  runs unix_now_secs w Q.
Proof.
  intros Hw HQ. eexists _, _. split; [reflexivity|]. apply HQ; [|split; [by destruct 1|done|done|done|cbn; lia]|done|by destruct Hw].
  exists (h_unix_pos (w_host w)). split; [cbn; lia|done].
Qed.
Lemma runs_resolve w (Q : option DnsAnswer → World → Prop) : env_ok w →
  (∀ o w', (∀ a, o = Some a → Forall v4_ok (dns_addrs a) ∧ is_u 32 (dns_ttl a)) → later w w' → w_trace w' = w_trace w →
     env_ok w' → Q o w') → runs resolve_a w Q.
Proof.
  intros Hw HQ. eexists _, _. split; [reflexivity|]. apply HQ; [apply (eo_dns w Hw)|by split; [destruct 1|..]|done|by destruct Hw].
Qed.
Lemma runs_next_file w (Q : FileIo → World → Prop) : env_ok w →
  (∀ r w', later w w' → w_trace w' = w_trace w → env_ok w' → Q r w') → runs next_file w Q.
Proof.
  intros Hw HQ. eexists _, _. split; [reflexivity|]. apply HQ; [by split; [destruct 1|..]|done|by destruct Hw].
Qed.
Lemma runs_read max_len w (Q : option (option (list Z)) → World → Prop) : env_ok w →
  (∀ r w', later w w' → w_trace w' = w_trace w → env_ok w' → Q r w') → runs (read_owner_only max_len) w Q.
Proof. intros Hw HQ. apply runs_bind, runs_next_file; [done|]. intros r w' Hl Ht Hw'. apply runs_ret. by apply HQ. Qed.
Lemma runs_write f t w (Q : bool → World → Prop) : env_ok w →
  (∀ ok tr w', later w w' → w_trace w' = w_trace w ++ tr → tr = [] ∧ ok = false ∨ tr = [EvWrite f t] → env_ok w' → Q ok w') →
  runs (atomic_write_owner_only f t) w Q.
Proof.
  intros Hw HQ. apply runs_bind, runs_next_file; [done|]. intros r w1 Hl1 Ht1 Hw1.
  destruct (fio_ok r || _) eqn:E; apply runs_bind.
  - apply runs_emit; [done|]. intros w2 Hl2 Ht2 Hw2. apply runs_ret.
    apply (HQ _ [EvWrite f t]); [by transitivity w1|by rewrite Ht2, Ht1|by right|done].
  - apply runs_ret, runs_ret. apply orb_false_iff in E as [-> _]. apply (HQ _ []); [done|by rewrite app_nil_r|by left|done].
Qed.

(** * Readable files and moves *)
(** What the reader makes of a file written up to [w]: the cache has an entry; the budget is
    read back from the time of a reading of the wall clock made before the write on. *)
Definition readable (spec : EndpointSpec) (opts : EndpointOptions) (w : World) (f : StateFile) (t : list Z) : Prop :=
  ∃ name port, spec = Hostname name port ∧
  match f with
  | CacheFile => zlen t ≤ CACHE_MAX_BYTES ∧ ∃ e, parse_cache_entry t name port (op_allow_private opts) = Some (Some e)
  | BudgetFile => zlen t ≤ STATE_MAX_BYTES ∧ ∃ st wall, wall_read w wall ∧
      ∀ wall', wall ≤ wall' < 2 ^ 64 - MAX_PERSISTED_COOLDOWN_SECS →
      parse_fallback_state t name port (fp_global_capacity (op_fallback opts)) (op_allow_private opts) wall' = Some st
  end.
Definition event_ok (c : Ec) (w : World) (e : Event) : Prop :=
  match e with EvWrite f t => readable (ec_spec c) (ec_opts c) w f t | _ => False end.
Lemma event_later c w c' w' e : later w w' → ec_spec c' = ec_spec c → ec_opts c' = ec_opts c → event_ok c w e → event_ok c' w' e.
Proof.
  intros Hl Es Eo. destruct e as [| | | |f t| |]; cbn; try done. rewrite Es, Eo. intros (name & port & En & H). exists name, port. split; [done|].
  destruct f; [done|]. destruct H as (Hz & st & wall & Hw & H). split; [done|]. exists st, wall. split; [by eapply wall_later|done].
Qed.

Record moves (c : Ec) (w : World) (c' : Ec) (w' : World) : Prop := {
  mv_inv : ep_inv c';
  mv_spec : ec_spec c' = ec_spec c;
  mv_opts : ec_opts c' = ec_opts c;
  mv_env : env_ok w';
  mv_later : later w w';
  mv_trace : ∃ tr, w_trace w' = w_trace w ++ tr ∧ Forall (event_ok c w') tr }.

Lemma moves_refl c w : ep_inv c → env_ok w → moves c w c w.
Proof. intros. constructor; try done. exists []. split; [by rewrite app_nil_r|constructor]. Qed.
Lemma moves_trans c1 w1 c2 w2 c3 w3 : moves c1 w1 c2 w2 → moves c2 w2 c3 w3 → moves c1 w1 c3 w3.
Proof.
  intros [I1 S1 O1 E1 L1 (t1 & T1 & F1)] [I2 S2 O2 E2 L2 (t2 & T2 & F2)].
  constructor; [done|congruence|congruence|done|by transitivity w2|].
  exists (t1 ++ t2). split; [by rewrite T2, T1, app_assoc|]. apply Forall_app_2.
  - eapply Forall_impl; [exact F1|]. intros e. by apply event_later.
  - eapply Forall_impl; [exact F2|]. intros e. by apply event_later.
Qed.
(** A step of the environment that leaves no event, or a change of the controller alone. *)
Lemma moves_env c w w' : ep_inv c → env_ok w' → later w w' → w_trace w' = w_trace w → moves c w c w'.
Proof. intros. constructor; try done. exists []. split; [by rewrite app_nil_r|constructor]. Qed.
Lemma moves_ctl c w c' : ep_inv c' → ec_spec c' = ec_spec c → ec_opts c' = ec_opts c → env_ok w → moves c w c' w.
Proof. intros. constructor; try done. exists []. split; [by rewrite app_nil_r|constructor]. Qed.
Lemma moves_core c w c' : ep_inv c → core c' = core c → env_ok w → moves c w c' w.
Proof. intros Hi E Hw. apply moves_ctl; [by eapply inv_core|unfold core in E; congruence|unfold core in E; congruence|done]. Qed.

(** * Charging *)
Definition paid (w w' : World) : Prop := ∃ tr t, w_trace w' = w_trace w ++ tr ∧ EvWrite BudgetFile t ∈ tr.

Lemma committed_fresh_some c now cur g : committed_fresh c now cur = Some g →
  ec_committed_good c = Some g ∧ g ≠ cur ∧ enabled c = true.
Proof.
  unfold committed_fresh, committed_health_deadline. destruct (enabled c); [|done]. cbn [negb].
  destruct (ec_committed_good c) as [h|]; [|done].
  destruct (option_max _ _); cbn; [|done]. case_bool_decide; [done|]. by intros [= ->].
Qed.
Lemma fresh_cands c now cur g : ep_inv c → current_v4 c = Some cur → committed_fresh c now cur = Some g →
  ec_candidates c ≠ [] ∧ addr_ok (op_allow_private (ec_opts c)) g.
Proof.
  intros Hi Ec (Hg & Hne & _)%committed_fresh_some. split; [|by apply (ei_committed _ Hi)].
  intros En. destruct (ei_empty _ Hi En) as [E|E]; congruence.
Qed.

Lemma runs_load_state name port cap ap wall w (Q : option (option FallbackState) → World → Prop) : env_ok w → 0 ≤ wall →
  (∀ r w', later w w' → w_trace w' = w_trace w → env_ok w' → (∀ st, r = Some (Some st) → state_ok ap cap wall st) → Q r w') →
  runs (load_fallback_state name port cap ap wall) w Q.
Proof.
  intros Hw Hn HQ. apply runs_bind, runs_read; [done|]. intros r w' Hl Ht Hw'. apply runs_ret. apply HQ; try done.
  intros st. destruct r as [[bytes|]|]; [|done|done]. destruct (parse_fallback_state _ _ _ _ _ _) eqn:E; [|done].
  intros [= <-]. by eapply parse_state_ok.
Qed.

Lemma runs_charge c wall cand w : ep_inv c → env_ok w → wall_read w wall →
  addr_ok (op_allow_private (ec_opts c)) cand → ec_candidates c ≠ [] →
  runs (charge_fallback c wall cand) w (λ r w', moves c w r.2 w' ∧ core r.2 = core c ∧
    ec_attended_cutover r.2 = ec_attended_cutover c ∧ (r.1 = true → paid w w')).
Proof.
  intros Hi Hw Hrd0 [Hcv Hca] Hne. pose proof (wall_range _ _ Hw Hrd0) as Hn.
  assert (∀ w', env_ok w' → later w w' → w_trace w' = w_trace w →
    ∀ c', core c' = core c → ec_attended_cutover c' = ec_attended_cutover c →
    runs (mret (false, c')) w' (λ r w', moves c w r.2 w' ∧ core r.2 = core c ∧ ec_attended_cutover r.2 = ec_attended_cutover c ∧ (r.1 = true → paid w w'))) as Hno.
  { intros w' Hw' Hl Ht c' Ec Ea. apply runs_ret. cbn. split_and!; [|done|done|done].
    eapply moves_trans; [by apply moves_env|by apply moves_core]. }
  unfold charge_fallback. destruct (ec_state_usable c); [|by apply Hno]. destruct (ec_state_path c); [|by apply Hno]. cbn [negb].
  destruct (ei_spec _ Hi) as (name & port & Es & Hv & Hcan & Hport & _). rewrite Es. cbn [spec_hostname spec_port].
  apply runs_bind. unfold owner_only_lock. apply runs_bind, runs_next_file; [done|]. intros r w1 Hl1 Ht1 Hw1. apply runs_ret.
  destruct (fio_ok r); [|by apply Hno]. cbn [negb]. apply runs_bind, runs_load_state; [done|lia|].
  intros st w2 Hl2 Ht2 Hw2 Hst. assert (later w w2) by by transitivity w1. assert (w_trace w2 = w_trace w) by congruence.
  destruct st as [st|]; [|by apply Hno].
  assert (state_ok (op_allow_private (ec_opts c)) (fp_global_capacity (policy c)) wall
    (default (FallbackState_new (fp_global_capacity (policy c)) wall) st)) as Hso.
  { destruct st as [st|]; [by apply Hst|]. apply state_ok_new; [apply Hi|]. unfold MAX_PERSISTED_COOLDOWN_SECS in Hn. lia. }
  destruct (precharge_fallback_state _ _ _ _ _) as [next|] eqn:Ep; [|by apply Hno].
  destruct (canonical_cands _ c (ei_cands _ Hi) Hne) as [Hset _].
  assert (∀ w', later w w' → readable (ec_spec c) (ec_opts c) w' BudgetFile (serialize_fallback_state name port next)) as Hrd.
  { pose proof (precharge_state_ok _ _ _ _ _ _ _ (ei_policy _ Hi) Hn Hso Hcv Hca Hset Ep) as Hok.
    destruct (validate_chars name Hcan Hv) as [Hh _]. unfold MAX_PERSISTED_COOLDOWN_SECS in *.
    intros w3 Hl3. exists name, port. split; [done|]. split; [apply (serialize_length name port _ _ _ _ Hh Hport Hok); lia|].
    exists next, wall. split; [by eapply wall_later|]. intros wall' Hw'. unfold MAX_PERSISTED_COOLDOWN_SECS in Hw'. apply parse_serialize; [done|done|lia|]. by apply (state_ok_mono _ _ wall); [lia|]. }
  apply runs_bind, runs_write; [done|]. intros ok tr w3 Hl3 Ht3 Htr Hw3.
  assert (∀ c', core c' = core c → moves c w c' w3) as Hmv.
  { intros c' Ec. eapply moves_trans; [by apply (moves_env c w w2)|].
    eapply moves_trans; [|by apply (moves_core c)]. constructor; try done. exists tr. split; [done|].
    destruct Htr as [[-> _]| ->]; [constructor|]. constructor; [|constructor]. apply Hrd. by transitivity w2. }
  destruct ok; apply runs_ret; cbn; (split_and!; [by apply Hmv|done|done|]); [|done]. intros _.
  exists tr, (serialize_fallback_state name port next). split; [congruence|].
  destruct Htr as [[_ ?]| ->]; [done|by left].
Qed.

(** * Queries *)
Lemma runs_backoff_failure b now w (Q : Z * Backoff → World → Prop) : env_ok w →
  (∀ r w', later w w' → w_trace w' = w_trace w → env_ok w' →
     (1 ≤ bk_min b ≤ bk_max b → bk_max b < 2 ^ 64 → bk_min b ≤ r.1 ≤ saturating_add 64 (bk_max b) (bk_max b / 4)) →
     r.2 = mkBackoff (saturating_add 32 (bk_failures b) 1) (saturating_add 64 now r.1) (bk_min b) (bk_max b) → Q r w') →
  runs (backoff_on_failure b now) w Q.
Proof.
  intros Hw HQ. unfold backoff_on_failure. set (base := Z.min _ (bk_max b)).
  assert (∀ j w', later w w' → w_trace w' = w_trace w → env_ok w' →
    runs (mret (M := Io) (Z.min (Z.max ((base - base / 4) +⟨64⟩ j) (Z.min (bk_min b) (bk_max b))) (saturating_add 64 (bk_max b) (bk_max b / 4)),
      mkBackoff (saturating_add 32 (bk_failures b) 1) (saturating_add 64 now
        (Z.min (Z.max ((base - base / 4) +⟨64⟩ j) (Z.min (bk_min b) (bk_max b))) (saturating_add 64 (bk_max b) (bk_max b / 4))))
        (bk_min b) (bk_max b))) w' Q) as Hret.
  { intros j w' Hl Ht Hw'. apply runs_ret, HQ; try done. cbn [fst]. intros Hb Hb64.
    assert (bk_min b ≤ saturating_add 64 (bk_max b) (bk_max b / 4)); [|lia].
    unfold saturating_add. pose proof (Z.div_pos (bk_max b) 4). lia. }
  apply runs_bind. destruct (_ =? 0); [by apply runs_ret, Hret|].
  apply runs_bind, runs_fast; [done|]. intros v w' _ Hl Ht Hw'. by apply runs_ret, Hret.
Qed.

Lemma safe_addrs_ok ap addrs : Forall v4_ok addrs → Forall (addr_ok ap) (safe_addrs ap addrs).
Proof.
  unfold safe_addrs. assert (∀ acc, Forall (addr_ok ap) acc → Forall v4_ok addrs → Forall (addr_ok ap)
    (foldl (λ safe ip, if check_endpoint_ip ip ap && negb (bool_decide (ip ∈ safe)) then safe ++ [ip] else safe) acc addrs)) as H.
  { induction addrs as [|a l IH]; intros acc Ha Hl; [done|]. cbn [foldl]. apply Forall_cons in Hl as [Hv Hl]. apply IH; [|done].
    destruct (check_endpoint_ip a ap) eqn:E; cbn [andb]; [|done]. destruct (negb _); [|done].
    apply Forall_app_2; [done|]. constructor; [by split|constructor]. }
  intros Hv. by apply H.
Qed.
Lemma safe_cands ap l : Forall (addr_ok ap) l → l ≠ [] →
  cands_ok ap (take MAX_ENDPOINT_CANDIDATES (canonical l)) ∧ take MAX_ENDPOINT_CANDIDATES (canonical l) ≠ [].
Proof.
  intros Ha Hl. destruct (canonical_props l (addrs_v4 _ _ Ha)) as (Has & Hm & _). split.
  - constructor; [by apply ascending_NoDup, ascending_take| |rewrite length_take; lia].
    apply Forall_take, Forall_forall. intros x Hx%Hm. by apply (proj1 (Forall_forall _ _) Ha).
  - destruct l as [|x l]; [done|]. assert (x ∈ canonical (x :: l)) as Hx by (apply Hm; by left).
    destruct (canonical (x :: l)); [by apply elem_of_nil in Hx|done].
Qed.

(** What a query and a selection leave alone. *)
Definition frame (c : Ec) := (ec_spec c, ec_opts c, ec_current c, ec_committed_good c, ec_probation c, ec_attended_cutover c).

Lemma inv_cands c l c' : ep_inv c → cands_ok (op_allow_private (ec_opts c)) l → l ≠ [] →
  frame c' = frame c → ec_candidates c' = l → ep_inv c'.
Proof.
  unfold frame. intros [H1 H2 H3 H4 H5 H6 H7] Hl Hn [= E1 E2 E3 E4 E5 E6] El.
  assert (policy c' = policy c) as Ep by (unfold policy; by rewrite E2).
  constructor; unfold enabled in *; rewrite ?Ep, ?E1, ?E2, ?E3, ?E4, ?E5, ?El; done.
Qed.

Lemma runs_query_any c now name w : spec_hostname (ec_spec c) = Some name → env_ok w →
  runs (query c now) w (λ r w', env_ok w' ∧ later w w' ∧ w_trace w' = w_trace w ∧ frame r.2 = frame c ∧
    (r.1 = false ∧ ec_candidates r.2 = ec_candidates c ∨
     r.1 = true ∧ cands_ok (op_allow_private (ec_opts c)) (ec_candidates r.2) ∧ ec_candidates r.2 ≠ [])).
Proof.
  intros Hs Hw. unfold query. rewrite Hs. set (c1 := set_ec_queries _ c).
  apply runs_bind, runs_resolve; [done|]. intros o w1 Ho Hl1 Ht1 Hw1.
  assert (runs (b ← backoff_on_failure (ec_backoff c1) now; mret (false, set_ec_backoff b.2 c1)) w1
    (λ r w', env_ok w' ∧ later w w' ∧ w_trace w' = w_trace w ∧ frame r.2 = frame c ∧
    (r.1 = false ∧ ec_candidates r.2 = ec_candidates c ∨
     r.1 = true ∧ cands_ok (op_allow_private (ec_opts c)) (ec_candidates r.2) ∧ ec_candidates r.2 ≠ []))) as Hfail.
  { apply runs_bind, runs_backoff_failure; [done|]. intros b w3 Hl3 Ht3 Hw3 _ _. apply runs_ret. cbn [fst snd].
    split_and!; [done|by transitivity w1|congruence|done|by left]. }
  destruct o as [ans|]; [|done]. destruct (Ho ans eq_refl) as [Hv _].
  pose proof (safe_addrs_ok (op_allow_private (ec_opts c1)) _ Hv) as Hsafe.
  case_bool_decide as Hne; [done|]. destruct (safe_cands _ _ Hsafe Hne) as [Hok Hnn].
  apply runs_ret. cbn [fst snd]. set (c2 := set_ec_candidates _ _).
  assert (frame c2 = frame c ∧ cands_ok (op_allow_private (ec_opts c)) (ec_candidates c2) ∧ ec_candidates c2 ≠ []) as (Ef & Hc2 & Hn2)
    by (unfold c2; by case_bool_decide).
  pose proof (order_perm _ _ Hc2) as Hp. split_and!; [done|done|done|done|]. right.
  split_and!; [done|by eapply cands_perm|]. intros E. rewrite E in Hp. apply Permutation_nil_l in Hp. congruence.
Qed.

Lemma runs_query c now w : ep_inv c → env_ok w →
  runs (query c now) w (λ r w', moves c w r.2 w' ∧ w_trace w' = w_trace w ∧ frame r.2 = frame c ∧
    (r.1 = true → ec_candidates r.2 ≠ [])).
Proof.
  intros Hi Hw. destruct (ei_spec _ Hi) as (name & port & Es & _).
  eapply runs_mono; [by eapply (runs_query_any c now name); [rewrite Es|]|].
  intros [ok c'] w' (Hw' & Hl & Ht & Ef & Hc). cbn [fst snd] in *.
  assert (ep_inv c') as Hi'.
  { destruct Hc as [[_ Ec]|(_ & Hc & Hn)]; [|by eapply inv_cands].
    eapply inv_core; [|exact Hi]. unfold core, frame in *. congruence. }
  split_and!; [|done|done|by destruct Hc as [[-> _]|(_ & _ & ?)]].
  eapply moves_trans; [by apply (moves_env c w w')|]. unfold frame in Ef. apply moves_ctl; [done|congruence|congruence|done].
Qed.

(** * Selection *)
(** The returns the operator has asked for that are still to be made: a cutover he attends,
    and a probation that came from one. *)
Definition credit (c : Ec) : Z :=
  (if ec_attended_cutover c then 1 else 0) +
  match ec_probation c with Some p => if pb_direct_return p then 1 else 0 | None => 0 end.
(** A return to the committed address that costs no probe now: it uses up one the operator
    asked for, or ends a probation that was charged before. *)
Definition permitted (c c' : Ec) : Prop :=
  credit c' < credit c ∨
  ∃ p, ec_probation c = Some p ∧ pb_rollback_authorized p = true ∧ pb_direct_return p = false ∧ ec_probation c' = None.
(** No return is asked for by [c'] that [c] did not ask for. *)
Definition unasking (c c' : Ec) : Prop := ec_attended_cutover c' = true → ec_attended_cutover c = true.
Lemma credit_le c c' : unasking c c' → ec_probation c' = ec_probation c ∨ ec_probation c' = None → credit c' ≤ credit c.
Proof.
  unfold credit, unasking. intros Ha Hp. assert ((if ec_attended_cutover c' then 1 else 0) ≤ (if ec_attended_cutover c then 1 else 0)).
  { destruct (ec_attended_cutover c'), (ec_attended_cutover c); try lia; by specialize (Ha eq_refl). }
  destruct Hp as [->| ->]; [lia|]. destruct (ec_probation c) as [p|]; [|lia]. destruct (pb_direct_return p); lia.
Qed.
Lemma unasking_start c now : unasking c (start_preferred_round c now).
Proof. unfold unasking, start_preferred_round. by destruct (_ && _). Qed.
Lemma unasking_same c c' : ec_attended_cutover c' = ec_attended_cutover c → unasking c c'.
Proof. unfold unasking. by intros ->. Qed.
Lemma unasking_off c c' : ec_attended_cutover c' = false → unasking c c'.
Proof. unfold unasking. by intros ->. Qed.
#[export] Hint Resolve unasking_same unasking_off : core.
Lemma unasking_trans c1 c2 c3 : unasking c1 c2 → unasking c2 c3 → unasking c1 c3.
Proof. unfold unasking. auto. Qed.

(** The probation goes on unchanged, or ends. *)
Definition quits (c c' : Ec) : Prop := ec_probation c' = ec_probation c ∨ ec_probation c' = None.
Lemma quits_trans c1 c2 c3 : quits c1 c2 → quits c2 c3 → quits c1 c3.
Proof. unfold quits. intros [?|?] [?|?]; [left|right|right|right]; congruence. Qed.

(** Where a selection ends: in place, or at a DNS candidate, or at the committed address,
    which was permitted or paid for. *)
Definition lands (c : Ec) (w : World) (r : option Switch * Ec) (w' : World) : Prop :=
  moves c w r.2 w' ∧ ec_committed_good r.2 = ec_committed_good c ∧ quits c r.2 ∧ credit r.2 ≤ credit c ∧
  match r.1 with
  | None => ec_current r.2 = ec_current c
  | Some sw =>
      sw_from sw = ec_current c ∧ sw_to sw = ec_current r.2 ∧ sw_to sw ≠ sw_from sw ∧
      ec_current_authenticated r.2 = false ∧
      ∃ t, sw_to sw = (V4 t, spec_port (ec_spec c)) ∧
        (t ∈ ec_candidates r.2 ∨ ec_committed_good c = Some t ∧ (permitted c r.2 ∨ paid w w'))
  end.

(** The same addresses. *)
Definition stays (c c' : Ec) : Prop :=
  ec_current c' = ec_current c ∧ ec_committed_good c' = ec_committed_good c ∧ ec_candidates c' = ec_candidates c ∧ quits c c' ∧
  unasking c c'.
Lemma stays_core c c' : core c' = core c → unasking c c' → stays c c'.
Proof. unfold core, stays. intros [= ? ? ? ? ? ?] ?. split_and!; try done. by left. Qed.
Lemma stays_self c : stays c c.
Proof. apply stays_core; [done|by intros ?]. Qed.
#[export] Hint Resolve stays_self : core.
Lemma stays_quit c c' : core c' = core (set_ec_probation None c) → unasking c c' → stays c c'.
Proof. unfold core, stays. cbn. intros [= ? ? ? ? ? ?] ?. split_and!; try done. by right. Qed.
Lemma addrs_stay_trans c1 c2 c3 : stays c1 c2 → stays c2 c3 → stays c1 c3.
Proof. unfold stays. intros (?&?&?&?&?) (?&?&?&?&?). split_and!; [congruence..|by eapply quits_trans|by eapply unasking_trans]. Qed.
Lemma stays_credit c c' : stays c c' → credit c' ≤ credit c.
Proof. intros (_ & _ & _ & Hq & Ha). by apply credit_le. Qed.

Lemma lands_none c w c' w' : moves c w c' w' → stays c c' → lands c w (None, c') w'.
Proof. intros Hm Hs. pose proof (stays_credit _ _ Hs). destruct Hs as (? & ? & _ & ? & _). by split_and!. Qed.
Lemma switch_credit c t : credit (switch_to c t).2 = credit c.
Proof. unfold credit, switch_to. destruct (current_v4 c); [|done]. by case_bool_decide. Qed.
Lemma lands_switch c w c' w' t : moves c w c' w' → stays c c' →
  t ∈ ec_candidates c ∨ ec_committed_good c = Some t ∧ (permitted c c' ∨ paid w w') → lands c w (switch_to c' t) w'.
Proof.
  intros Hm Hs Ht. pose proof (stays_credit _ _ Hs) as Hcr. destruct Hs as (Ecur & Ecom & Ecan & Equ & _). pose proof (mv_inv _ _ _ _ Hm) as Hi.
  destruct (current_is c' Hi) as (cur & Ev & Ec & _). destruct (switch_frame c' t) as (Fs & Fo & Fc).
  assert (ep_inv (switch_to c' t).2) as Hi'.
  { apply inv_switch; [done|]. rewrite Ecan, Ecom. by destruct Ht as [?|[? _]]; [left|right]. }
  assert (moves c w (switch_to c' t).2 w') as Hm'.
  { eapply moves_trans; [exact Hm|]. apply moves_ctl; [done|done|done|apply Hm]. }
  split; [done|]. split; [congruence|]. split; [unfold quits; by rewrite switch_probation|]. split; [by rewrite switch_credit|].
  assert (permitted c c' → permitted c (switch_to c' t).2) as Hpm by (unfold permitted; by rewrite switch_credit, switch_probation).
  unfold switch_to in *. rewrite Ev in *. case_bool_decide as E; cbn; [done|].
  assert (spec_port (ec_spec c') = spec_port (ec_spec c)) as Ep by by rewrite (mv_spec _ _ _ _ Hm).
  split_and!; [done|done|rewrite Ec; congruence|done|]. exists t. split; [by rewrite Ep|].
  destruct Ht as [Ht|[Hg [Ha|Hp]]]; [left|right..].
  2: by split; [|left; apply Hpm].
  2: by split; [|right].
  set (c2 := set_ec_current_authenticated false (set_ec_current (V4 t, spec_port (ec_spec c')) c')).
  change (t ∈ ec_candidates (order_candidates c2)).
  rewrite (order_perm (op_allow_private (ec_opts c')) c2); [change (t ∈ ec_candidates c'); by rewrite Ecan|apply (ei_cands _ Hi)].
Qed.

Lemma inv_no_probation c : ep_inv c → ep_inv (set_ec_probation None c).
Proof. intros [H1 H2 H3 H4 H5 H6 H7]. by constructor. Qed.

Lemma runs_leave_probation c now wall cur w : ep_inv c → env_ok w → wall_read w wall →
  current_v4 c = Some cur →
  runs (leave_probation c now wall cur) w (λ r w', moves c w r.2 w' ∧ stays c r.2 ∧
    (ec_attended_cutover r.2 = ec_attended_cutover c) ∧
    ∀ t, r.1 = Some t → ec_committed_good c = Some t ∧ (permitted c r.2 ∨ paid w w')).
Proof.
  intros Hi Hw Hn Hcur. unfold leave_probation.
  assert (runs (mret (None, c)) w (λ r w', moves c w r.2 w' ∧ stays c r.2 ∧ (ec_attended_cutover r.2 = ec_attended_cutover c) ∧
    ∀ t, r.1 = Some t → ec_committed_good c = Some t ∧ (permitted c r.2 ∨ paid w w'))) as Hno.
  { apply runs_ret. by split_and!; [apply moves_refl|..]. }
  destruct (ec_probation c) as [p|] eqn:Ep; [|done].
  case_bool_decide as Ecand; [|done]. cbn [negb]. case_bool_decide as Ef; [|done]. cbn [negb].
  destruct (fresh_cands _ _ _ _ Hi Hcur Ef) as [Hne Ha]. destruct (committed_fresh_some _ _ _ _ Ef) as (Hg & _ & _).
  apply runs_bind. apply (runs_mono _ _ (λ r w', moves c w r.2 w' ∧ core r.2 = core c ∧
    ec_attended_cutover r.2 = ec_attended_cutover c ∧ (r.1 = true → pb_direct_return p = true ∨ paid w w'))).
  - destruct (pb_direct_return p) eqn:Ed.
    + apply runs_ret. split_and!; [by apply moves_refl|done|done|]. intros _. by left.
    + eapply runs_mono; [by apply runs_charge|]. intros r w' (Hm & Hc & Hat & Hp). split_and!; [done|done|done|]. intros ?. right. auto.
  - intros [[] c'] w' (Hm & Hc & Hat & Hp); cbn [fst snd] in *; apply runs_ret; cbn.
    + assert (stays c c') as Hs by (apply stays_core; [done|unfold unasking; by rewrite Hat]).
      split_and!; [|by eapply addrs_stay_trans; [exact Hs|apply stays_quit; auto]|done|].
      * eapply moves_trans; [exact Hm|]. apply moves_ctl; [apply inv_no_probation, Hm|done|done|apply Hm].
      * intros t [= <-]. split; [done|]. destruct (Hp eq_refl) as [Hd|?]; [|by right]. left. left.
        unfold credit. cbn. rewrite Ep, Hd, Hat. lia.
    + split_and!; [done|apply stays_core; [done|unfold unasking; by rewrite Hat]|done|done].
Qed.

Lemma select_rollback_lands c w : ep_inv c → env_ok w → lands c w (select_rollback c) w.
Proof.
  intros Hi Hw. unfold select_rollback. destruct (ec_probation c) as [p|] eqn:Ep; [|by apply lands_none; [apply moves_refl|]].
  destruct (pb_rollback_authorized p) eqn:Ea; cbn [negb]; [|by apply lands_none; [apply moves_refl|]].
  apply lands_switch.
  - apply moves_ctl; [|done|done|done]. by eapply (inv_core (set_ec_probation None c)); [|apply inv_no_probation].
  - apply stays_quit; auto.
  - right. split; [apply (ei_probation _ Hi p Ep)|]. left. destruct (pb_direct_return p) eqn:Ed; [left|right; by exists p].
    unfold credit. cbn. rewrite Ep, Ed. destruct (ec_attended_cutover c); lia.
Qed.

Lemma select_forced_lands c cur now q w : ep_inv c → env_ok w → lands c w (select_forced c cur now q) w.
Proof.
  intros Hi Hw. unfold select_forced.
  assert (∀ c', core c' = core c → unasking c c' → lands c w (None, c') w) as Hno.
  { intros c' Ec Ha. apply lands_none; [by apply moves_core|apply stays_core; auto]. }
  destruct (round_expired c now); [apply Hno; auto|]. destruct (negb _); [apply Hno; auto|].
  destruct (ec_candidates c) as [|t l] eqn:Ec; [apply Hno; auto|]. case_bool_decide; [apply Hno; auto|].
  pose proof (core_start_round c now) as Er. pose proof (unasking_start c now). destruct (_ && _ && _); [apply Hno; auto; by rewrite <-?Er|].
  apply lands_switch; [by apply moves_core|apply stays_core; auto|]. left. rewrite Ec. by left.
Qed.

Lemma paid_after c w c1 w1 w2 : moves c w c1 w1 → paid w1 w2 → paid w w2.
Proof.
  intros Hm (tr2 & t & E2 & Ht). destruct (mv_trace _ _ _ _ Hm) as (tr1 & E1 & _).
  exists (tr1 ++ tr2), t. split; [by rewrite E2, E1, app_assoc|]. apply elem_of_app. by right.
Qed.
Lemma stays_v4 c c' : stays c c' → current_v4 c' = current_v4 c.
Proof. intros (E & _). unfold current_v4. by rewrite E. Qed.

Definition try_next (c : Ec) (cur : Ipv4Addr) : option Switch * Ec :=
  match next_dns_candidate c cur with
  | Some next => if bool_decide (next = cur) then (None, c) else switch_to c next
  | None => (None, c)
  end.
Lemma try_next_lands c w c' cur w' : moves c w c' w' → stays c c' → lands c w (try_next c' cur) w'.
Proof.
  intros Hm Hs. unfold try_next. destruct (next_dns_candidate c' cur) as [x|] eqn:E; [|by apply lands_none].
  case_bool_decide; [by apply lands_none|]. apply lands_switch; [done|done|]. left.
  rewrite <-(proj1 (proj2 (proj2 Hs))). by eapply next_candidate; [apply (ei_cands _ (mv_inv _ _ _ _ Hm))|].
Qed.

Lemma moves_then c w c1 w1 c2 : moves c w c1 w1 → core c2 = core c1 → moves c w c2 w1.
Proof. intros Hm E. eapply moves_trans; [exact Hm|]. apply moves_core; [apply Hm|done|apply Hm]. Qed.
Lemma stays_then c c1 c2 : stays c c1 → core c2 = core c1 → unasking c1 c2 → stays c c2.
Proof. intros Hs E Ha. eapply addrs_stay_trans; [exact Hs|apply stays_core; auto]. Qed.

Lemma runs_select_failed c cur now wall w : ep_inv c → env_ok w → wall_read w wall →
  current_v4 c = Some cur → runs (select_failed c cur now wall) w (lands c w).
Proof.
  intros Hi Hw Hn Hcur. unfold select_failed. apply runs_bind. eapply runs_mono; [by apply runs_leave_probation|].
  intros [o c1] w1 (Hm1 & Hs1 & Hat & Ho). cbn [fst snd] in *. destruct o as [t|].
  { apply runs_ret, lands_switch; [done|done|right]. by apply Ho. }
  assert (∀ c2, core c2 = core c1 → unasking c1 c2 → moves c w c2 w1 ∧ stays c c2) as Hc
    by (intros c2 E Ha; split; [by eapply moves_then|eapply stays_then; eauto]).
  destruct (if ec_attended_cutover c1 then _ else _) as [t|] eqn:Ea.
  { destruct (ec_attended_cutover c1) eqn:Ea1; [|done]. destruct (ec_committed_good c1) as [g|] eqn:Eg; [|done].
    case_bool_decide; [done|]. injection Ea as <-. apply runs_ret, lands_switch; [apply Hc; auto|apply Hc; auto|]. right.
    split; [rewrite <-(proj1 (proj2 Hs1)); exact Eg|]. left. left. pose proof (stays_credit _ _ Hs1) as Hcr.
    enough (credit (set_ec_attended_cutover false c1) < credit c1) by lia. unfold credit. cbn. rewrite Ea1. lia. }
  fold (try_next (start_preferred_round c1 now) cur).
  pose proof (core_start_round c1 now) as Er. pose proof (unasking_start c1 now) as Eu. case_bool_decide.
  { destruct (round_expired c1 now); apply runs_ret; [apply lands_none; apply Hc; auto|apply try_next_lands; apply Hc; auto]. }
  set (c2 := set_ec_preferred_attempts _ _). assert (core c2 = core c1) as Ec2 by done.
  destruct (Hc c2 Ec2 Eu) as [Hm2 Hs2]. apply runs_bind.
  apply (runs_mono _ _ (λ r w', moves c w r.2 w' ∧ stays c r.2 ∧ ∀ t, r.1 = Some t → ec_committed_good c = Some t ∧ paid w w')).
  - assert (runs (mret (None, c2)) w1 (λ r w', moves c w r.2 w' ∧ stays c r.2 ∧ ∀ t, r.1 = Some t → ec_committed_good c = Some t ∧ paid w w')) as Hno
      by (apply runs_ret; by split_and!).
    destruct (round_expired c2 now || _); [|done]. destruct (committed_fresh c2 now cur) as [g|] eqn:Ef; [|done].
    pose proof (mv_inv _ _ _ _ Hm2) as Hi2. assert (current_v4 c2 = Some cur) as Hcur2 by (rewrite (stays_v4 c c2 Hs2); done).
    destruct (fresh_cands _ _ _ _ Hi2 Hcur2 Ef) as [Hne Ha]. destruct (committed_fresh_some _ _ _ _ Ef) as (Hg & _ & _).
    apply runs_bind. eapply runs_mono; [apply runs_charge; [done|apply (mv_env _ _ _ _ Hm2)|eapply wall_later; [apply Hm2|done]|done|done]|].
    intros [ok c3] w3 (Hm3 & Hc3 & Hat3 & Hp). cbn [fst snd] in *. apply runs_ret. cbn [fst snd].
    split_and!; [by eapply moves_trans|eapply stays_then; [exact Hs2|done|unfold unasking; by rewrite Hat3]|]. intros t Et. destruct ok; [|done]. injection Et as <-.
    split; [rewrite <-(proj1 (proj2 Hs2)); exact Hg|]. eapply paid_after; [exact Hm2|by apply Hp].
  - intros [o c3] w3 (Hm3 & Hs3 & Ho3). cbn [fst snd] in *. destruct o as [t|].
    + destruct (Ho3 t eq_refl) as [Hg Hp]. apply runs_ret, lands_switch; [by eapply moves_then|eapply stays_then; eauto|]. right. auto.
    + fold (try_next c3 cur). apply runs_ret. destruct (round_expired c3 now); cbn [negb];
        [apply lands_none; [by eapply moves_then|eapply stays_then; eauto]|by apply try_next_lands].
Qed.

Lemma runs_select_lost c cur now wall w : ep_inv c → env_ok w → wall_read w wall →
  current_v4 c = Some cur → runs (select_lost c cur now wall) w (lands c w).
Proof.
  intros Hi Hw Hn Hcur. unfold select_lost. apply runs_bind. eapply runs_mono; [by apply runs_leave_probation|].
  intros [o c1] w1 (Hm1 & Hs1 & _ & Ho). cbn [fst snd] in *. destruct o as [t|].
  { apply runs_ret, lands_switch; [done|done|right]. by apply Ho. }
  destruct (_ && _); apply runs_ret; [|by apply lands_none].
  pose proof (core_start_round c1 now) as Er. pose proof (unasking_start c1 now) as Eu. set (c2 := start_preferred_round c1 now) in *.
  assert (moves c w c2 w1 ∧ stays c c2) as [Hm2 Hs2] by (split; [by eapply moves_then|eapply stays_then; eauto]).
  destruct (canonical_candidates c2) as [|t l] eqn:Et; [by apply lands_none|]. apply lands_switch; [done|done|]. left.
  rewrite <-(proj1 (proj2 (proj2 Hs2))). pose proof (ei_cands _ (mv_inv _ _ _ _ Hm2)) as Hok.
  apply (proj1 (proj2 (canonical_props _ (addrs_v4 _ _ (ca_addrs _ _ Hok))))).
  assert (t ∈ canonical_candidates c2) as Hin by (rewrite Et; by left). unfold canonical_candidates in Hin.
  apply elem_of_take in Hin as (i & Hi2%list_elem_of_lookup_2 & _). done.
Qed.

Lemma runs_select c now wall reason q w : ep_inv c → env_ok w → wall_read w wall →
  runs (select c now wall reason q) w (lands c w).
Proof.
  intros Hi Hw Hn. unfold select. destruct (current_is c Hi) as (cur & Ev & _ & _). rewrite Ev.
  destruct reason.
  - apply runs_ret, lands_none; [by apply moves_refl|done].
  - by apply runs_select_failed.
  - by apply runs_select_lost.
  - by apply runs_ret, select_forced_lands.
  - by apply runs_ret, select_rollback_lands.
  - by apply runs_ret, select_rollback_lands.
Qed.

(** Before the selection: the same addresses and permissions, perhaps other candidates. *)
Lemma lands_from c w c1 w1 r w' : moves c w c1 w1 → frame c1 = frame c → lands c1 w1 r w' → lands c w r w'.
Proof.
  intros Hm1 Ef (Hm & Hg & Hq & Hcr & Hr). unfold frame in Ef. injection Ef as E1 E2 E3 E4 E5 E6.
  assert (credit c1 = credit c) as Ecr by (unfold credit; by rewrite E5, E6).
  split; [by eapply moves_trans|]. split; [congruence|]. split; [by unfold quits in *; rewrite <-E5|]. split; [lia|]. destruct (r.1) as [sw|]; [|congruence].
  destruct Hr as (Hf & Ht & Hn & Ha & t & Et & Hd). split_and!; [congruence|done|done|done|].
  exists t. split; [congruence|]. destruct Hd as [?|[Hc Hp]]; [by left|right]. split; [congruence|].
  destruct Hp as [[Hp|(p & Hp & Hd)]|Hp]; [left; left; lia|left; right; exists p; split; [congruence|done]|right; by eapply paid_after].
Qed.

Lemma runs_on_cycle c now reason w : ep_inv c → env_ok w → runs (on_cycle c now reason) w (lands c w).
Proof.
  intros Hi Hw. unfold on_cycle. apply runs_bind, runs_unix; [done|]. intros wall w1 Hn Hl1 Ht1 Hw1.
  destruct (ei_spec _ Hi) as (name & port & Es & _).
  assert (ec_is_dynamic c = true) as -> by (unfold ec_is_dynamic; by rewrite Es). cbn [negb].
  set (c1 := if bool_decide _ then _ else _).
  assert (core c1 = core c ∧ frame c1 = frame c) as [Ec1 Ef1] by (unfold c1; by case_bool_decide).
  assert (moves c w c1 w1) as Hm1 by (eapply moves_then; [by apply (moves_env c w w1)|done]).
  destruct (_ || _ || _ || _); cbn [negb].
  2:{ eapply runs_mono; [by apply (runs_select c1); [apply Hm1|..]|]. intros r w'. by apply lands_from. }
  set (c2 := match reason with Forced | SessionLost | AttemptFailed => _ | _ => _ end).
  assert (core c2 = core c1 ∧ frame c2 = frame c1) as [Ec2 Ef2].
  { unfold c2, start_preferred_round. destruct reason; try done; by destruct (_ && _). }
  assert (moves c w c2 w1) as Hm2 by by eapply moves_then.
  apply runs_bind. apply (runs_mono _ _ (λ q w', moves c w q.2 w' ∧ frame q.2 = frame c)).
  - destruct (backoff_ready _ _).
    + apply runs_bind. eapply runs_mono; [apply (runs_query (set_ec_force_refresh false c2)); [|done]|].
      { by eapply inv_core; [|apply Hm2]. }
      intros [ok c3] w3 (Hm3 & _ & Ef3 & _). apply runs_ret. cbn [fst snd] in *. split.
      * eapply moves_trans; [|exact Hm3]. by eapply moves_then.
      * rewrite Ef3. change (frame c2 = frame c). congruence.
    + apply runs_ret. split; [done|]. cbn. congruence.
  - intros [q c3] w3 [Hm3 Ef3]. cbn [fst snd] in *. pose proof (mv_env _ _ _ _ Hm3) as Hw3.
    apply runs_bind, runs_now_ms; [done|]. intros now' w4 _ _ Hl4 Ht4 Hw4.
    apply runs_bind, runs_unix; [done|]. intros wall' w5 Hn' Hl5 Ht5 Hw5.
    assert (moves c w c3 w5) as Hm5.
    { eapply moves_trans; [exact Hm3|]. apply moves_env; [apply Hm3|done|by transitivity w4|congruence]. }
    eapply runs_mono; [apply runs_select; [apply Hm5|done|done]|]. intros r w'. by apply lands_from.
Qed.
