(* ===== verification/DnsSpec.v ===== *)
(** Theorems about the resolver ([src/src/dns.rs]): what an accepted answer is, and that the
    exchange over TCP does not depend on how the stream is cut. *)
From stdpp Require Import strings.
From S2P Require Import Prelude Text Ip World EndpointState EndpointCache Dns EndpointInv.

(** * Code that may fail *)
Lemma Dio_bind_inr {A B} (m : Dio A) (f : A → Dio B) n b n' : (m ≫= f) n = (inr b, n') → ∃ a n1, m n = (inr a, n1) ∧ f a n1 = (inr b, n').
Proof. unfold mbind, Dio_bind. destruct (m n) as [[e|a] n1]; [done|]. intros H. by exists a, n1. Qed.
Lemma fail_inr {A} e n (a : A) n' : fail e n = (inr a, n') → False.
Proof. done. Qed.
Lemma from_option_inr {A} e (o : option A) n a n' : from_option e o n = (inr a, n') → o = Some a ∧ n' = n.
Proof. destruct o; [|done]. by intros [= -> ->]. Qed.

(** Time passes: the network is the same, further on. *)
Record passes (n n' : Net) : Prop := {
  ps_clock : n_clock n' = n_clock n;
  ps_pos : (n_clock_pos n ≤ n_clock_pos n')%nat;
  ps_random : n_random n' = n_random n;
  ps_udp : n_udp n' = n_udp n;
  ps_tcp : n_tcp n' = n_tcp n;
  ps_log : n_log n `prefix_of` n_log n' }.
#[export] Instance passes_preorder : PreOrder passes.
Proof.
  split; [by intros n|]. intros n1 n2 n3 [E1 L1 R1 U1 T1 G1] [E2 L2 R2 U2 T2 G2].
  split; [congruence|lia|congruence..|by etrans].
Qed.
(** A computation in which time passes, whatever its result. *)
Definition timely {A} (m : Dio A) : Prop := ∀ n, passes n (m n).2.
Lemma timely_ret {A} (a : A) : timely (mret a).
Proof. by intros n. Qed.
Lemma timely_fail {A} e : timely (fail (A := A) e).
Proof. by intros n. Qed.
Lemma timely_bind {A B} (m : Dio A) (f : A → Dio B) : timely m → (∀ a, timely (f a)) → timely (m ≫= f).
Proof.
  intros Hm Hf n. unfold mbind, Dio_bind. specialize (Hm n). destruct (m n) as [[e|a] n1]; [done|]. cbn in Hm. etrans; [exact Hm|apply Hf].
Qed.
Lemma timely_now : timely now.
Proof. intros n. split; try done. cbn. lia. Qed.
Lemma timely_log e : timely (log e).
Proof. intros n. split; try done. cbn. by apply prefix_app_r. Qed.
Lemma timely_random : timely next_random.
Proof. by intros n. Qed.
Lemma timely_udp server : timely (next_udp server).
Proof. by intros n. Qed.
Lemma timely_tcp server : timely (next_tcp server).
Proof. by intros n. Qed.
Lemma timely_option {A} e (o : option A) : timely (from_option e o).
Proof. destruct o; [apply timely_ret|apply timely_fail]. Qed.
Lemma timely_catch {A} (m : Dio A) : timely m → timely (catch m).
Proof. intros Hm n. unfold catch. specialize (Hm n). by destruct (m n). Qed.
Lemma timely_io o : timely (io_ok o).
Proof. destruct o; [apply timely_fail|apply timely_ret]. Qed.
Lemma timely_remaining d o : timely (remaining d o).
Proof. apply timely_bind; [apply timely_now|]. intros t. cbv zeta. case_match; [apply timely_fail|apply timely_ret]. Qed.
Lemma timely_transport o t : timely (transport_deadline o t).
Proof. apply timely_bind; [apply timely_now|]. intros u. case_match; [apply timely_fail|apply timely_ret]. Qed.
Lemma timely_before d : timely (before d).
Proof. apply timely_bind; [apply timely_now|]. intros t. apply timely_ret. Qed.
Create HintDb dns discriminated.
#[export] Hint Resolve timely_ret timely_fail timely_now timely_log timely_random timely_udp timely_tcp timely_option timely_catch timely_io timely_remaining
  timely_transport timely_before : dns.
Ltac timely := repeat first
  [ solve [eauto with dns] | apply timely_bind; [|intros ?] | match goal with |- timely (let '(_, _) := ?p in _) => destruct p end
  | progress cbv zeta | case_match ].

Section timely.
Context `{D : DnsLib}.
Lemma timely_udp_recv recvs id qname d o : timely (udp_recv recvs id qname d o).
Proof. induction recvs as [|r recvs IH]; cbn [udp_recv]; timely. Qed.
Lemma timely_write data d o : ∀ writes, timely (write_all_until writes data d o).
Proof. intros writes. revert data. induction writes as [|r writes IH]; intros data; cbn [write_all_until]; timely. Qed.
Lemma timely_read len d o : ∀ reads got, timely (read_exact_until reads len got d o).
Proof. induction reads as [|r reads IH]; intros got; cbn [read_exact_until]; timely. Qed.
#[local] Hint Resolve timely_udp_recv timely_write timely_read : dns.
Lemma timely_udp_exchange cfg server wire id qname o : timely (udp_exchange cfg server wire id qname o).
Proof. unfold udp_exchange. timely. Qed.
Lemma timely_tcp_exchange cfg server wire id qname o : timely (tcp_exchange cfg server wire id qname o).
Proof. unfold tcp_exchange. timely. Qed.
#[local] Hint Resolve timely_udp_exchange timely_tcp_exchange : dns.
Lemma timely_query cfg server qname d : timely (query_server cfg server qname d).
Proof. unfold query_server. timely. Qed.
End timely.
#[export] Hint Resolve timely_query : dns.

(** * Replies *)
(** The bytes that the reads of a connection bring. *)
Definition stream (reads : list TcpRead) : list Z := reads ≫= λ r, match r with ReadSome b => b | ReadErr _ => [] end.
(** Sent between two moments. *)
Definition sent (n n' : Net) (e : NetEvent) : Prop := ∃ tr, n_log n' = n_log n ++ tr ∧ e ∈ tr.
Lemma sent_within n0 n n' n1 e : passes n0 n → passes n' n1 → sent n n' e → sent n0 n1 e.
Proof.
  intros Hp Hp' (tr & E & He). destruct (ps_log _ _ Hp) as [a Ea]. destruct (ps_log _ _ Hp') as [b Eb].
  exists (a ++ tr ++ b). split; [by rewrite Eb, E, Ea, <-!app_assoc|]. rewrite !elem_of_app. auto.
Qed.

Section answers.
Context `{D : DnsLib} {DOk : DnsLibOk D}.

Lemma read_prefix d o len : ∀ reads got n x reads' n', (length got ≤ len)%nat → read_exact_until reads len got d o n = (inr (x, reads'), n') →
  length x = len ∧ ∃ y, x = got ++ y ∧ stream reads = y ++ stream reads'.
Proof.
  induction reads as [|r reads IH]; intros got n x reads' n' Hg; cbn [read_exact_until]; destruct (Nat.eqb_spec (length got) len) as [E|E].
  1, 3: intros [= <- <- _]; split; [done|]; exists []; by rewrite app_nil_r.
  1: by intros (l & n1 & _ & H)%Dio_bind_inr.
  intros (l & n1 & _ & H)%Dio_bind_inr. destruct r as [b|[| |]]; try done.
  - destruct (bool_decide _) in H; [done|]. cbv zeta in H. destruct (Nat.leb_spec (length b) (len - length got)) as [Hb|Hb].
    + apply IH in H as (Hl & y & -> & Ey); [|rewrite length_app; lia]. split; [done|]. exists (b ++ y). split; [by rewrite app_assoc|].
      change (stream (ReadSome b :: reads)) with (b ++ stream reads). by rewrite Ey, app_assoc.
    + injection H as <- <- _. split; [rewrite length_app, length_take; lia|]. eexists. split; [done|].
      change (stream (ReadSome ?b :: reads)) with (b ++ stream reads). by rewrite app_assoc, take_drop.
  - by apply IH in H.
Qed.

(** A reply to the question with this id: the same id, and that one question. *)
Record answers_question (m : Message Name) (id : Z) (qname : Name) : Prop := {
  aq_id : m_id m = id;
  aq_response : m_response m = true;
  aq_question : ∃ q, m_queries m = [q] ∧ name_eqb (q_name q) qname = true ∧ q_type q = TypeA ∧ q_class q = ClassIN }.
Lemma is_our_reply_spec m id qname : is_our_reply m id qname = true → answers_question m id qname.
Proof.
  unfold is_our_reply. intros [[Hi%Z.eqb_eq Hr]%andb_true_iff H]%andb_true_iff. destruct (m_queries m) as [|q [|]] eqn:E; try done.
  apply andb_true_iff in H as [[Hn Ht]%andb_true_iff Hc]. constructor; try done. exists q. by destruct (q_type q), (q_class q).
Qed.
(** A reply the server gave: a question with an id drawn at random was sent to it, and the
    message is decoded from bytes that the very socket it was sent on received, a datagram or
    what the length field of the stream announces; it answers that question. *)
Definition our_reply (n n' : Net) (server : SocketAddr) (qname : Name) (m : Message Name) : Prop :=
  ∃ k id wire b, id = Z.land (n_random n k) 0xffff ∧ to_vec (build_query id qname) = Some wire ∧
    from_vec b = Some m ∧ answers_question m id qname ∧
    ((∃ sock dg, sent n n' (SentUdp sock server wire) ∧ Datagram dg ∈ ux_recv (n_udp n sock server) ∧ b = take 4096 dg) ∨
     (∃ sock len rest, sent n n' (SentTcp sock server wire) ∧ length len = 2%nat ∧ Z.to_nat (from_be len) = length b ∧
        stream (tx_reads (n_tcp n sock server)) = len ++ b ++ rest)).
Lemma our_reply_within n0 n n' n1 server qname m : passes n0 n → passes n' n1 → our_reply n n' server qname m → our_reply n0 n1 server qname m.
Proof.
  intros Hp Hp' (k & id & wire & b & Hid & Hw & Hb & Ha & Hr). exists k, id, wire, b.
  rewrite <-(ps_random _ _ Hp), <-(ps_udp _ _ Hp), <-(ps_tcp _ _ Hp). split_and!; try done.
  destruct Hr as [(sock & dg & Hs & ?)|(sock & len & rest & Hs & ?)]; [left; exists sock, dg|right; exists sock, len, rest]; (split; [by eapply sent_within|done]).
Qed.

Lemma udp_recv_reply recvs id qname d o n m n' : udp_recv recvs id qname d o n = (inr m, n') →
  ∃ dg, Datagram dg ∈ recvs ∧ from_vec (take 4096 dg) = Some m ∧ answers_question m id qname.
Proof.
  revert n. induction recvs as [|r recvs IH]; intros n; cbn [udp_recv]; intros (t & n1 & _ & H)%Dio_bind_inr; (case_match; [done|]); [done|].
  destruct r as [b|[| |]]; try done.
  assert (udp_recv recvs id qname d o n1 = (inr m, n') → ∃ dg, Datagram dg ∈ Datagram b :: recvs ∧ from_vec (take 4096 dg) = Some m ∧ answers_question m id qname) as Hrec.
  { intros (dg & ? & ?)%IH. exists dg. split; [by right|done]. }
  destruct (from_vec (take 4096 b)) as [m'|] eqn:E; [|by apply Hrec]. destruct (is_our_reply m' id qname) eqn:Er; [|by apply Hrec].
  injection H as -> _. exists b. split; [by left|]. split; [done|by apply is_our_reply_spec].
Qed.
Lemma udp_reply cfg server wire id qname o n m n' : udp_exchange cfg server wire id qname o n = (inr m, n') →
  ∃ sock dg, sent n n' (SentUdp sock server wire) ∧ Datagram dg ∈ ux_recv (n_udp n sock server) ∧ from_vec (take 4096 dg) = Some m ∧ answers_question m id qname.
Proof.
  unfold udp_exchange. intros (d & n1 & H1 & H)%Dio_bind_inr. apply Dio_bind_inr in H as ([sock x] & n2 & H2 & H).
  apply Dio_bind_inr in H as (u & n3 & H3 & (u' & n4 & H4 & (u2 & n5 & H5 & (u3 & n6 & [= _ <-] & H)%Dio_bind_inr)%Dio_bind_inr)%Dio_bind_inr).
  pose proof (timely_transport o (dc_timeout cfg) n) as P1. rewrite H1 in P1. cbn in P1.
  assert (passes n n5) as P5.
  { pose proof (timely_udp server n1) as P2. rewrite H2 in P2. pose proof (timely_io (ux_open x) n2) as P3. rewrite H3 in P3.
    pose proof (timely_remaining d o n3) as P4. rewrite H4 in P4. pose proof (timely_io (ux_send x) n4) as P5. rewrite H5 in P5. cbn in *.
    by etrans; [|etrans; [|etrans; [|etrans]]]. }
  pose proof (timely_udp_recv (ux_recv x) id qname d o (log (SentUdp sock server wire) n5).2) as P7. cbn in P7. rewrite H in P7. cbn in P7.
  destruct (udp_recv_reply _ _ _ _ _ _ _ _ H) as (dg & Hin & Hv & Ha). exists sock, dg. split; [|by injection H2 as <- <- _; rewrite <-(ps_udp _ _ P1)].
  apply (sent_within n n5 (log (SentUdp sock server wire) n5).2 n'); [done|done|]. exists [SentUdp sock server wire]. split; [done|by left].
Qed.
Lemma tcp_reply cfg server wire id qname o n m n' : tcp_exchange cfg server wire id qname o n = (inr m, n') →
  ∃ sock len b rest, sent n n' (SentTcp sock server wire) ∧ length len = 2%nat ∧ Z.to_nat (from_be len) = length b ∧
    stream (tx_reads (n_tcp n sock server)) = len ++ b ++ rest ∧ from_vec b = Some m ∧ answers_question m id qname.
Proof.
  unfold tcp_exchange. intros (d & n1 & H1 & (u & n2 & H2 & H)%Dio_bind_inr)%Dio_bind_inr. apply Dio_bind_inr in H as ([sock x] & n3 & H3 & H).
  apply Dio_bind_inr in H as (u2 & n4 & H4 & (u3 & n5 & H5 & (ws & n6 & H6 & (u4 & n7 & H7 & (u5 & n8 & [= _ <-] & H)%Dio_bind_inr)%Dio_bind_inr)%Dio_bind_inr)%Dio_bind_inr).
  pose proof (timely_transport o (dc_timeout cfg) n) as P1. rewrite H1 in P1. pose proof (timely_remaining d o n1) as P2. rewrite H2 in P2. cbn in P1, P2.
  assert (passes n n7) as P7.
  { pose proof (timely_tcp server n2) as P3. rewrite H3 in P3. cbn in P3.
    assert (n4 = n3) as -> by (destruct (tx_connect x); [done|by injection H4]). assert (n5 = n3) as -> by (destruct (_ <? _) in H5; [by injection H5|done]).
    pose proof (timely_write (to_be 2 (zlen wire)) d o (tx_writes x) n3) as P6. rewrite H6 in P6. pose proof (timely_write wire d o ws n6) as P7. rewrite H7 in P7. cbn in *.
    by etrans; [|etrans; [|etrans; [|etrans]]]. }
  apply Dio_bind_inr in H as ([lb rs] & n8 & H8 & H). cbv zeta in H. case_match eqn:Elen; [done|]. apply orb_false_iff in Elen as [E0%Z.eqb_neq Em%Z.ltb_ge].
  apply Dio_bind_inr in H as ([body rs2] & n9 & H9 & (m' & n10 & [Hm ->]%from_option_inr & H)%Dio_bind_inr). destruct (is_our_reply m' id qname) eqn:Er; [|done].
  injection H as -> <-. apply is_our_reply_spec in Er.
  pose proof (timely_read 2 d o (tx_reads x) [] (log (SentTcp sock server wire) n7).2) as P8. cbn in P8. rewrite H8 in P8.
  pose proof (timely_read (Z.to_nat (from_be lb)) d o rs [] n8) as P9. rewrite H9 in P9. cbn in P8, P9.
  apply read_prefix in H8 as (Hl & y & -> & Ey); [|cbn; lia]. apply read_prefix in H9 as (Hl' & y' & -> & Ey'); [|cbn; lia]. cbn [app] in *.
  exists sock, y, y', (stream rs2). split; [|split_and!; try done].
  - apply (sent_within n n7 (log (SentTcp sock server wire) n7).2 n9); [done|by etrans|]. exists [SentTcp sock server wire]. split; [done|by left].
  - injection H3 as <- <- _. rewrite <-(ps_tcp _ _ P1), <-(ps_tcp _ _ P2), Ey, Ey'. done.
Qed.
Lemma query_reply cfg server qname d n a n' : query_server cfg server qname d n = (inr a, n') →
  ∃ m via, our_reply n n' server qname m ∧ interpret m qname server via = inr a.
Proof.
  unfold query_server. intros (r & n1 & H1 & (w & n2 & [Hw ->]%from_option_inr & (m & n3 & Hm & (x & n4 & Hx & H)%Dio_bind_inr)%Dio_bind_inr)%Dio_bind_inr)%Dio_bind_inr.
  injection H1 as <- <-. set (n1 := mkNet _ _ _ _ _ _ _ _ _) in *. assert (passes n n1) as P1 by done.
  destruct x as [e|a']; [done|]. injection H as -> <-.
  pose proof (timely_udp_exchange cfg server w (Z.land (n_random n (n_random_pos n)) 0xffff) qname d n1) as P3. rewrite Hm in P3. cbn in P3.
  destruct (m_truncated m).
  - apply Dio_bind_inr in Hx as (m' & n5 & Hm' & [= Ha <-]). exists m', true. split; [|done].
    apply (our_reply_within n n3 n5 n5); [by etrans|done|]. apply tcp_reply in Hm' as (sock & len & b & rest & Hs & Hl & Hz & Hst & Hb & Haq).
    exists (n_random_pos n), (Z.land (n_random n (n_random_pos n)) 0xffff), w, b. split_and!; try done; [by rewrite (ps_random _ _ P3)|].
    right. by exists sock, len, rest.
  - injection Hx as Ha <-. exists m, false. split; [|done]. apply (our_reply_within n n1 n3 n3); [done|done|].
    apply udp_reply in Hm as (sock & dg & Hs & Hin & Hb & Haq). exists (n_random_pos n), (Z.land (n_random n (n_random_pos n)) 0xffff), w, (take 4096 dg).
    split_and!; try done. left. by exists sock, dg.
Qed.

(** * Aliases *)
(** The CNAME records that lead from a name to another. *)
Inductive alias_chain (answers : list (DnsRecord Name)) : Name → list (DnsRecord Name) → Name → Prop :=
| chain_nil n : alias_chain answers n [] n
| chain_cons n r t rs m : r ∈ answers → name_eqb (r_name r) n = true → r_data r = RCname t → alias_chain answers t rs m →
    alias_chain answers n (r :: rs) m.
(** An answer of these records: all addresses of the name at the end of a chain of at most eight
    aliases, a name with addresses and no alias; no lifetime is longer than that of a record
    used, nor outside the limits. *)
Record answered (answers : list (DnsRecord Name)) (qname : Name) (a : Answer) (chain : list (DnsRecord Name)) (name : Name) : Prop := {
  ad_follows : alias_chain answers qname chain name;
  ad_addrs : an_addrs a = (a_records (named_records answers name)).*1;
  ad_some : an_addrs a ≠ [];
  ad_plain : cname_records (named_records answers name) = [];
  ad_chain_ttl r : r ∈ chain → an_raw_ttl a ≤ r_ttl r;
  ad_addr_ttl ip ttl : (ip, ttl) ∈ a_records (named_records answers name) → an_raw_ttl a ≤ ttl;
  ad_ttl : an_ttl a = Z.max TTL_MIN_SECS (Z.min (an_raw_ttl a) TTL_MAX_SECS) }.

Lemma min_ttl_le acc l : min_ttl acc l ≤ acc ∧ ∀ t, t ∈ l → min_ttl acc l ≤ t.
Proof.
  revert acc. induction l as [|x l IH]; intros acc; cbn; [split; [lia|]; by intros ? ?%elem_of_nil|]. destruct (IH (Z.min acc x)) as [H1 H2].
  unfold min_ttl in *. split; [lia|]. intros t [->|Ht]%elem_of_cons; [lia|by apply H2].
Qed.
Lemma cname_records_elem records t ttl : (t, ttl) ∈ cname_records records → ∃ r, r ∈ records ∧ r_data r = RCname t ∧ r_ttl r = ttl.
Proof. intros (r & Hr & H)%list_elem_of_omap. exists r. destruct (r_data r) eqn:E; try done. by injection H as -> ->. Qed.
Lemma named_elem answers name r : r ∈ named_records answers name → r ∈ answers ∧ name_eqb (r_name r) name = true.
Proof. intros [H1 H2]%list_elem_of_filter. done. Qed.
Lemma follow_sound fuel answers server via : ∀ name cnames chain_ttl a,
  follow fuel answers name cnames chain_ttl server via = Some (inr a) →
  ∃ chain final, answered answers name a chain final ∧ (length chain + length cnames ≤ Nat.max MAX_CNAME_HOPS (length cnames))%nat ∧
    an_raw_ttl a ≤ chain_ttl ∧ an_server a = server.
Proof.
  induction fuel as [|fuel IH]; intros name cnames chain_ttl a; cbn [follow]; [done|].
  destruct (bool_decide_reflect (a_records (named_records answers name) = [])) as [Ea|Ea]; cbn [negb].
  - destruct (cname_records (named_records answers name)) as [|[target ttl0] aliases] eqn:Ec; [done|]. destruct (existsb _ _) eqn:Ex; [done|].
    destruct (Nat.leb_spec MAX_CNAME_HOPS (length cnames)) as [|Hh]; [done|]. destruct (_ || _); [done|].
    intros (chain & final & [F1 F2 F3 F4 F5 F6 F7] & Hl & Ht & Hs)%IH. rewrite length_app in Hl. cbn [length] in Hl.
    assert ((target, ttl0) ∈ cname_records (named_records answers name)) as (r & [Hr Hn]%named_elem & Hd & Httl)%cname_records_elem by (rewrite Ec; left).
    exists (r :: chain), final. split_and!; [|cbn [length]; lia|lia|done]. constructor; try done; [by econstructor|]. intros r' [->|Hr']%elem_of_cons; [|by apply F5].
    destruct (min_ttl_le ttl0 (ttl0 :: aliases.*2)) as [Hm _]. cbn [fmap list_fmap snd] in *. lia.
  - destruct (bool_decide_reflect (cname_records (named_records answers name) = [])) as [Ec|]; [|done]. cbn [negb]. intros [= <-].
    exists [], name. cbn [an_raw_ttl an_server an_addrs an_ttl]. split_and!; [|cbn; lia|lia|done]. constructor; cbn [an_raw_ttl an_addrs an_ttl]; try done.
    + constructor.
    + by intros ?%fmap_nil_inv.
    + by intros r ?%elem_of_nil.
    + intros ip ttl Hin. destruct (min_ttl_le U32_MAX (a_records (named_records answers name)).*2) as [_ H]. specialize (H ttl).
      enough (min_ttl U32_MAX (a_records (named_records answers name)).*2 ≤ ttl) by lia. apply H. apply list_elem_of_fmap. by exists (ip, ttl).
Qed.
(** The aliases end. *)
Lemma follow_ends fuel answers server via : ∀ name cnames chain_ttl, (MAX_CNAME_HOPS < fuel + length cnames)%nat → (1 ≤ fuel)%nat →
  is_Some (follow fuel answers name cnames chain_ttl server via).
Proof.
  induction fuel as [|fuel IH]; intros name cnames chain_ttl Hf H1; [lia|]. cbn [follow]. repeat case_match; try by eexists.
  apply IH; [rewrite length_app; cbn; lia|]. match goal with H : (_ <=? _)%nat = false |- _ => apply Nat.leb_gt in H end. lia.
Qed.
Lemma interpret_sound m qname server via a : interpret m qname server via = inr a →
  m_rcode m = NoError ∧ an_server a = server ∧ ∃ chain final, answered (m_answers m) qname a chain final ∧ (length chain ≤ MAX_CNAME_HOPS)%nat.
Proof.
  unfold interpret. destruct (m_op_query m); [|done]. cbn [negb]. destruct (m_rcode m); try done.
  destruct (follow_ends (S MAX_CNAME_HOPS) (m_answers m) server via qname [] U32_MAX) as [x Ex]; [cbn [length]; lia|lia|]. rewrite Ex. cbn. intros ->.
  apply follow_sound in Ex as (chain & final & Ha & Hl & _ & Hs). cbn [length] in Hl. split; [done|]. split; [done|]. exists chain, final. split; [done|]. lia.
Qed.

(** * Usable addresses *)
(** An answer that the controller is given. *)
Record usable_answer (allow_private : bool) (a : Answer) : Prop := {
  ua_some : an_addrs a ≠ [];
  ua_few : (length (an_addrs a) ≤ MAX_ENDPOINT_CANDIDATES)%nat;
  ua_order : ascending (an_addrs a);
  ua_addrs : Forall (addr_ok allow_private) (an_addrs a);
  ua_ttl : TTL_MIN_SECS ≤ an_ttl a ≤ TTL_MAX_SECS }.
Lemma canonicalize_ok a allow_private b : Forall v4_ok (an_addrs a) → TTL_MIN_SECS ≤ an_ttl a ≤ TTL_MAX_SECS →
  canonicalize_answer a allow_private = inr b →
  usable_answer allow_private b ∧ an_server b = an_server a ∧ (∀ ip, ip ∈ an_addrs b → ip ∈ an_addrs a) ∧
  (∀ ip, ip ∈ an_addrs a → check_endpoint_ip ip allow_private = true → ip ∈ an_addrs b ∨ length (an_addrs b) = MAX_ENDPOINT_CANDIDATES).
Proof.
  intros Hv Ht. unfold canonicalize_answer. set (l := filter _ _). assert (Forall (addr_ok allow_private) l) as Hl.
  { apply Forall_forall. intros ip [Hc Hin]%list_elem_of_filter. split; [by apply (proj1 (Forall_forall _ _) Hv)|done]. }
  destruct (canonical_props l) as (Ho & Hin & _); [eapply Forall_impl; [exact Hl|]; by intros ? []|].
  destruct (bool_decide_reflect (canonical l = [])) as [|Hn]; [done|]. intros [= <-]. cbn [an_addrs an_server]. split_and!; [constructor; cbn [an_addrs an_ttl]|..].
  - destruct (canonical l); [done|]. by unfold MAX_ENDPOINT_CANDIDATES.
  - rewrite length_take. lia.
  - by apply ascending_take.
  - apply Forall_take, Forall_forall. intros ip Hip. apply (proj1 (Forall_forall _ _) Hl). by apply Hin.
  - done.
  - done.
  - intros ip Hip. apply subseteq_take in Hip. apply Hin in Hip. by apply list_elem_of_filter in Hip as [_ ?].
  - intros ip Hip Hc. assert (ip ∈ canonical l) as Hip' by by apply Hin, list_elem_of_filter. rewrite length_take.
    destruct (decide (length (canonical l) ≤ MAX_ENDPOINT_CANDIDATES)%nat); [left; by rewrite take_ge|right; lia].
Qed.
Lemma a_records_typed answers name : Forall (λ r, is_u 32 (r_ttl r) ∧ ∀ ip, r_data r = RA ip → v4_ok ip) answers → Forall v4_ok (a_records (named_records answers name)).*1.
Proof.
  intros Ht. apply Forall_forall. intros ip ([ip' ttl] & -> & (r & [Hr _]%named_elem & H)%list_elem_of_omap)%list_elem_of_fmap. cbn.
  apply (proj1 (Forall_forall _ _) Ht) in Hr as [_ Hr]. destruct (r_data r) as [x| |]; try done. injection H as <- <-. by apply Hr.
Qed.

(** Where a usable answer comes from. *)
Record sourced (n n' : Net) (cfg : DnsConfig) (qname : Name) (a : Answer) (m : Message Name) (chain : list (DnsRecord Name)) (final : Name) : Prop := {
  sr_reply : our_reply n n' (an_server a) qname m;
  sr_code : m_rcode m = NoError;
  sr_chain : alias_chain (m_answers m) qname chain final;
  sr_hops : (length chain ≤ MAX_CNAME_HOPS)%nat;
  sr_addrs ip : ip ∈ an_addrs a → ip ∈ (a_records (named_records (m_answers m) final)).*1;
  sr_all ip : ip ∈ (a_records (named_records (m_answers m) final)).*1 → check_endpoint_ip ip (dc_allow_private cfg) = true →
    ip ∈ an_addrs a ∨ length (an_addrs a) = MAX_ENDPOINT_CANDIDATES }.
(** A server was asked, and gave no usable answer. *)
Definition useless (cfg : DnsConfig) (qname : Name) (d : Z) (server : SocketAddr) (e : DnsError) (n n' : Net) : Prop :=
  (query_server cfg server qname d n = (inl e, n') ∧ e ≠ DeadlineExceeded) ∨
  ∃ r, query_server cfg server qname d n = (inr r, n') ∧ canonicalize_answer r (dc_allow_private cfg) = inl e.
(** Servers asked one after the other, all in vain. *)
Inductive tried (cfg : DnsConfig) (qname : Name) (d : Z) : Net → list (SocketAddr * DnsError) → Net → Prop :=
| tried_nil n n' : passes n n' → tried cfg qname d n [] n'
| tried_cons n n1 n2 n3 server e fs : passes n n1 → useless cfg qname d server e n1 n2 → tried cfg qname d n2 fs n3 →
    tried cfg qname d n ((server, e) :: fs) n3.
Lemma tried_before cfg qname d n0 n fs n' : passes n0 n → tried cfg qname d n fs n' → tried cfg qname d n0 fs n'.
Proof.
  intros Hp Ht. revert Hp. destruct Ht as [n1 n2 H|n1 n2 n3 n4 server e fs' H Hu Ht]; intros Hp; [constructor; by etrans|]. econstructor; [by etrans|done..].
Qed.
Lemma useless_passes cfg qname d server e n n' : useless cfg qname d server e n n' → passes n n'.
Proof. pose proof (timely_query cfg server qname d n) as H. by intros [[E _]|(r & E & _)]; rewrite E in H. Qed.
Lemma tried_passes cfg qname d n fs n' : tried cfg qname d n fs n' → passes n n'.
Proof. induction 1 as [|n n1 n2 n3 server e fs Hp Hu%useless_passes _ IH]; [done|]. by etrans; [|etrans]. Qed.

Lemma before_inr d n b n' : before d n = (inr b, n') → b = (n_clock n (n_clock_pos n) <? d) ∧ n_clock_pos n' = S (n_clock_pos n) ∧ passes n n'.
Proof. pose proof (timely_before d n) as H. intros E. rewrite E in H. unfold before, mbind, Dio_bind, now, mret, Dio_ret in E. by injection E as <- <-. Qed.
(** One server's answer, if it is usable. *)
Lemma server_answer cfg server qname d n r n1 a : query_server cfg server qname d n = (inr r, n1) → canonicalize_answer r (dc_allow_private cfg) = inr a →
  an_server a = server ∧ usable_answer (dc_allow_private cfg) a ∧ ∃ m chain final, sourced n n1 cfg qname a m chain final.
Proof using DOk.
  intros (m & via & Hm & (Hc & Hs & chain & final & [F1 F2 F3 F4 F5 F6 F7] & Hl)%interpret_sound)%query_reply Ha.
  pose proof Hm as (k & id & w & b & _ & _ & Hd%decoded_typed & _). apply (a_records_typed _ final) in Hd. rewrite <-F2 in Hd.
  destruct (canonicalize_ok r (dc_allow_private cfg) a Hd) as (H1 & H2 & H3 & H4); [rewrite F7; unfold TTL_MIN_SECS, TTL_MAX_SECS; lia|done|].
  assert (an_server a = server) as E by congruence. split; [done|]. split; [done|]. exists m, chain, final. rewrite F2 in H3, H4. constructor; try done. by rewrite E.
Qed.
(** A round of questions ends with an answer, after the servers before it were asked in vain;
    or with all of them. *)
Definition round_result (cfg : DnsConfig) (qname : Name) (d : Z) (servers : list SocketAddr) (n : Net) (r : DnsError + Answer) (fs0 : list (SocketAddr * DnsError)) (n' : Net) : Prop :=
  match r with
  | inr a => ∃ fs after n1 n2 q, servers = fs.*1 ++ an_server a :: after ∧ tried cfg qname d n fs n1 ∧
      query_server cfg (an_server a) qname d n1 = (inr q, n2) ∧ canonicalize_answer q (dc_allow_private cfg) = inr a ∧
      passes n2 n' ∧ ∃ k, n_clock_pos n' = S k ∧ n_clock n' k < d
  | inl (AllFailed fs') => ∃ fs, fs' = fs0 ++ fs ∧ fs.*1 = servers ∧ tried cfg qname d n fs n'
  | inl _ => True
  end.
Lemma round_result_cons cfg qname d server servers n n1 n2 n3 e r fs0 n' : passes n n1 → useless cfg qname d server e n1 n2 → passes n2 n3 →
  round_result cfg qname d servers n3 r (fs0 ++ [(server, e)]) n' → round_result cfg qname d (server :: servers) n r fs0 n'.
Proof.
  intros H1 Hu H2. destruct r as [[]|a]; try done; cbn [round_result].
  - intros (fs & -> & <- & Ht). exists ((server, e) :: fs). split; [by rewrite <-app_assoc|]. split; [done|]. econstructor; try done. by eapply tried_before.
  - intros (fs & after & m1 & m2 & q & -> & Ht & Hq). exists ((server, e) :: fs), after, m1, m2, q. split; [done|]. split; [|done].
    econstructor; try done. by eapply tried_before.
Qed.
(** After a useless server the next one is asked. *)
Lemma ask_next cfg servers qname d server e failures n r n' :
  (∀ fs n0, ask cfg servers fs qname d n0 = (r, n') → round_result cfg qname d servers n0 r fs n') → (∀ n0, useless cfg qname d server e n0 n → ∀ n1, passes n1 n0 →
  (b ← before d; if negb b then fail DeadlineExceeded else ask cfg servers (failures ++ [(server, e)]) qname d) n = (r, n') → round_result cfg qname d (server :: servers) n1 r failures n').
Proof.
  intros IH n0 Hu n1 Hp. unfold mbind, Dio_bind. destruct (before d n) as [[?|b] n2] eqn:Eb; [done|]. apply before_inr in Eb as (_ & _ & Hp2).
  destruct b; cbn [negb]; [|intros [= <- <-]; done]. intros H%IH. by eapply round_result_cons.
Qed.
Lemma ask_result cfg qname d : ∀ servers failures n r n', ask cfg servers failures qname d n = (r, n') → round_result cfg qname d servers n r failures n'.
Proof.
  induction servers as [|server servers IH]; intros failures n r n'; cbn [ask].
  { intros [= <- <-]. exists []. rewrite app_nil_r. split; [done|]. split; [done|]. by constructor. }
  unfold mbind at 1. unfold Dio_bind at 1. destruct (before d n) as [[?|b] n1] eqn:Eb; [by unfold before in Eb|]. apply before_inr in Eb as (_ & _ & Hp1).
  destruct b; cbn [negb]; [|intros [= <- <-]; done]. unfold mbind at 1. unfold Dio_bind at 1. unfold catch.
  destruct (query_server cfg server qname d n1) as [q n2] eqn:Eq. destruct q as [e|q].
  - assert (∀ e', e = e' → e' ≠ DeadlineExceeded → useless cfg qname d server e' n1 n2) as Hu by (intros e' <- ?; by left).
    destruct e; try (intros [= <- <-]; done); intros H; (eapply (ask_next cfg servers qname d server _ failures n2 r n'); [by intros ? ? ?; apply IH|by apply Hu|done|exact H]).
  - destruct (canonicalize_answer q (dc_allow_private cfg)) as [e|a] eqn:Ec.
    { intros H. eapply (ask_next cfg servers qname d server _ failures n2 r n'); [by intros ? ? ?; apply IH|by right; exists q|done|exact H]. }
    unfold mbind at 1. unfold Dio_bind at 1. unfold mbind at 1. unfold Dio_bind at 1. destruct (before d n2) as [[?|b] n3] eqn:Eb; [by unfold before in Eb|].
    apply before_inr in Eb as (Hb & P3 & Hp3). destruct b; [|intros [= <- <-]; done]. intros [= <- <-]. cbn [round_result].
    destruct (query_reply _ _ _ _ _ _ _ Eq) as (m & via & _ & (_ & Hs & _)%interpret_sound).
    assert (an_server a = server) as E. { unfold canonicalize_answer in Ec. case_match; [done|]. by injection Ec as <-. }
    exists [], servers, n1, n2, q. rewrite E. split; [done|]. split; [by constructor|]. split; [done|]. split; [done|]. split; [done|].
    exists (n_clock_pos n2). split; [done|]. rewrite (ps_clock _ _ Hp3). by apply Z.ltb_lt.
Qed.
End answers.

(** C12. The servers are asked in the order of the configuration, each until one gives a usable
    answer, and when none does, each was asked once, in that order.  The answer is that of
    the server it names, given before the deadline of the round: at least one and at most
    eight distinct addresses in ascending order, all allowed by the policy, with a lifetime
    between ten seconds and an hour.  It comes from a reply without an error code, decoded
    from bytes received on the socket (a datagram, or what the length field of the stream
    announces) on which a question with an id drawn at random was sent to that server, and
    the reply carries that id and that one question.  The addresses are those of the name
    that at most eight aliases of the reply lead to, and all of the allowed ones unless
    there are more than eight. *)
Theorem resolver_answer_sound `{D : DnsLib} {DOk : DnsLibOk D} (cfg : DnsConfig) (name : list Z) (n n' : Net) (r : DnsError + Answer)
    (Hr : resolve_a cfg name n = (r, n')) :
  match r with
  | inr a =>
      usable_answer (dc_allow_private cfg) a ∧
      (∃ qname d fs after n1 n2 m chain final, parse_name name = Some qname ∧ d = n_clock n (n_clock_pos n) + dc_overall_timeout cfg ∧
         dc_servers cfg = fs.*1 ++ an_server a :: after ∧ tried cfg qname d n fs n1 ∧
         sourced n1 n2 cfg qname a m chain final ∧ passes n1 n2 ∧ passes n2 n') ∧
      ∃ k, n_clock_pos n' = S k ∧ n_clock n k < n_clock n (n_clock_pos n) + dc_overall_timeout cfg
  | inl (AllFailed fs) =>
      fs.*1 = dc_servers cfg ∧ ∃ qname, parse_name name = Some qname ∧ tried cfg qname (n_clock n (n_clock_pos n) + dc_overall_timeout cfg) n fs n'
  | inl _ => True
  end.
Proof.
  unfold resolve_a in Hr. destruct (bool_decide _) in Hr; [by injection Hr as <- _|].
  destruct (parse_name name) as [qname|] eqn:Eq; [|by injection Hr as <- _]. unfold mbind, Dio_bind in Hr. cbn in Hr.
  destruct (checked_add _ _) as [d|] eqn:Ed; [|by injection Hr as <- _]. cbn in Hr. unfold checked_add in Ed. case_match; [|done]. injection Ed as <-.
  apply ask_result in Hr. set (n0 := mkNet _ _ _ _ _ _ _ _ _) in Hr. assert (passes n n0) as P0 by apply (timely_now n).
  destruct r as [[]|a]; try done; cbn [round_result] in Hr.
  - destruct Hr as (fs & -> & Hs & Ht). split; [done|]. exists qname. split; [done|]. by eapply tried_before.
  - destruct Hr as (fs & after & n1 & n2 & q & Hs & Ht & Hq & Hc & Hp & k & Hk & Hd). destruct (server_answer _ _ _ _ _ _ _ _ Hq Hc) as (_ & Hu & m & chain & final & Hsrc).
    pose proof (timely_query cfg (an_server a) qname (n_clock n (n_clock_pos n) + dc_overall_timeout cfg) n1) as P1. rewrite Hq in P1. cbn in P1.
    split; [done|]. split.
    + exists qname, (n_clock n (n_clock_pos n) + dc_overall_timeout cfg), fs, after, n1, n2, m, chain, final. split_and!; try done. by eapply tried_before.
    + exists k. split; [done|]. assert (passes n n') as P. { etrans; [exact P0|]. etrans; [by eapply tried_passes|]. by etrans. }
      by rewrite (ps_clock _ _ P) in Hd.
Qed.

(** A codec that knows one reply: an alias and four addresses, one of them private. *)
Definition demo_record (name : string) (d : RData (list Z)) : DnsRecord (list Z) := mkDnsRecord (str name) 60 d.
Definition demo_reply (truncated : bool) : Message (list Z) :=
  mkMessage 7 true true true true truncated NoError [mkQuery (str "relay.example") TypeA ClassIN]
    [demo_record "Relay.example" (RCname (str "edge")); demo_record "edge" (RA [8; 8; 8; 8]); demo_record "edge" (RA [10; 0; 0; 1]);
     demo_record "edge" (RA [1; 1; 1; 1]); demo_record "other" (RA [9; 9; 9; 9]); demo_record "edge" (RA [8; 8; 8; 8])].
#[export] Instance demo_dns : DnsLib := {|
  Name := list Z;
  name_eqb a b := eq_ignore_ascii_case a b;
  from_ascii := Some;
  set_fqdn n := n;
  to_ascii n := n;
  to_vec m := Some [m_id m];
  from_vec b := if bool_decide (b = [1]) then Some (demo_reply false) else if bool_decide (b = [2]) then Some (demo_reply true) else None |}.
#[export] Instance demo_dns_ok : DnsLibOk demo_dns.
Proof.
  constructor; cbn; unfold eq_ignore_ascii_case.
  - intros n. by apply bool_decide_eq_true.
  - intros n m. rewrite !bool_decide_eq_true. done.
  - intros n m k. rewrite !bool_decide_eq_true. congruence.
  - intros b m. repeat case_bool_decide; try done; intros [= <-]; cbn [m_answers demo_reply];
      repeat (apply Forall_cons_2; [split; [done|]; intros ip Hip; first [discriminate Hip|injection Hip as <-; split; [repeat constructor; done|done]]|]); apply Forall_nil_2.
Qed.
(** The first server does not answer; the second has the reply cut short, and sends it over TCP. *)
Definition demo_dns_cfg : DnsConfig := mkDnsConfig [(V4 [9; 9; 9; 9], 53); (V4 [9; 9; 9; 10], 53)] 1000 5000 false.
Definition demo_net : Net :=
  mkNet (λ i, 10 * Z.of_nat i) 0 (λ _, 65543) 0 (λ _ server, if bool_decide (server = (V4 [9; 9; 9; 9], 53)) then mkUdpIo None None [Datagram [3]] else mkUdpIo None None [Datagram [5]; Datagram [2]]) 0
    (λ _ _, mkTcpIo None [Wrote 1; Wrote 1; WriteErr ErrInterrupted; Wrote 1] [ReadSome [0]; ReadErr ErrInterrupted; ReadSome [1; 1]]) 0 [].
Lemma resolver_answer_sound_witness : ∃ a n', resolve_a demo_dns_cfg (str "relay.example") demo_net = (inr a, n') ∧
  an_addrs a = [[1; 1; 1; 1]; [8; 8; 8; 8]] ∧ an_via_tcp a = true ∧ usable_answer false a ∧ an_server a = (V4 [9; 9; 9; 10], 53).
Proof.
  destruct (resolve_a demo_dns_cfg (str "relay.example") demo_net) as [r n'] eqn:E.
  pose proof (resolver_answer_sound demo_dns_cfg (str "relay.example") demo_net n' r E) as H.
  assert (match resolve_a demo_dns_cfg (str "relay.example") demo_net with (inr a, _) => bool_decide (an_addrs a = [[1; 1; 1; 1]; [8; 8; 8; 8]]) && an_via_tcp a && bool_decide (an_server a = (V4 [9; 9; 9; 10], 53)) | _ => false end = true) as Hc by (vm_compute; reflexivity).
  rewrite E in Hc. destruct r as [e|a]; [discriminate Hc|]. apply andb_true_iff in Hc as [[Ha Hv]%andb_true_iff Hs]. apply bool_decide_eq_true in Ha, Hs. destruct H as (H2 & _).
  exists a, n'. by split_and!.
Defined.

(** * The stream *)
Section stream.
Context `{D : DnsLib}.
Definition steady_reads (reads : list TcpRead) : Prop :=
  Forall (λ r, match r with ReadSome b => b ≠ [] | ReadErr e => e = ErrInterrupted end) reads.
Fixpoint wrotes (writes : list TcpWrite) : nat :=
  match writes with [] => 0 | Wrote _ :: writes => S (wrotes writes) | WriteErr _ :: writes => wrotes writes end.
Definition steady_writes (writes : list TcpWrite) : Prop := Forall (λ r, match r with Wrote n => 1 ≤ n | WriteErr e => e = ErrInterrupted end) writes.

Lemma remaining_tcp d o n : (∀ i, n_clock n i < d) → ∃ l n', remaining d o n = (inr l, n') ∧ n_clock n' = n_clock n ∧ n_tcp n' (n_tcp_pos n') = n_tcp n (n_tcp_pos n).
Proof.
  intros Hd. unfold remaining, mbind, Dio_bind, now. cbv zeta. unfold saturating_sub. specialize (Hd (n_clock_pos n)).
  rewrite (proj2 (Z.ltb_ge _ _)), (proj2 (Z.eqb_neq _ _)) by lia. by eexists _, _.
Qed.
Lemma Dio_bind_done {A B} (m : Dio A) (f : A → Dio B) n a n1 : m n = (inr a, n1) → (m ≫= f) n = f a n1.
Proof. unfold mbind, Dio_bind. by intros ->. Qed.
Lemma read_stream d o len : ∀ reads got n, steady_reads reads → (∀ i, n_clock n i < d) → (length got ≤ len)%nat → (len ≤ length got + length (stream reads))%nat →
  ∃ reads' n', read_exact_until reads len got d o n = (inr (got ++ take (len - length got) (stream reads), reads'), n') ∧ steady_reads reads' ∧
    stream reads' = drop (len - length got) (stream reads) ∧ n_clock n' = n_clock n.
Proof.
  induction reads as [|r reads IH]; intros got n Hs Hd Hg Hl; cbn [read_exact_until]; destruct (Nat.eqb_spec (length got) len) as [E|E].
  - rewrite E, Nat.sub_diag, take_0, drop_0, app_nil_r. by eexists _, _.
  - cbn in Hl. lia.
  - rewrite E, Nat.sub_diag, take_0, drop_0, app_nil_r. by eexists _, _.
  - apply Forall_cons in Hs as [Hr Hs]. destruct (remaining_tcp d o n Hd) as (l & n1 & E1 & C1 & _). unfold mbind, Dio_bind. rewrite E1.
    assert (∀ i, n_clock n1 i < d) as Hd1 by by rewrite C1. destruct r as [b|e].
    + change (stream (ReadSome b :: reads)) with (b ++ stream reads) in *. rewrite length_app in Hl. rewrite bool_decide_false by done. cbv zeta.
      destruct (Nat.leb_spec (length b) (len - length got)) as [Hb|Hb].
      * destruct (IH (got ++ b) n1 Hs Hd1) as (reads' & n2 & E2 & S2 & R2 & C2); [rewrite length_app; lia..|]. rewrite length_app in E2, R2. exists reads', n2.
        rewrite E2, R2, (take_app_ge b), (drop_app_ge b) by lia. rewrite Nat.sub_add_distr, app_assoc, C2. done.
      * eexists _, _. split; [by rewrite (take_app_le b) by lia|]. split; [constructor; [|done]; intros E0%(f_equal length); rewrite length_drop in E0; cbn in E0; lia|].
        split; [by rewrite (drop_app_le b) by lia|done].
    + subst e. change (stream (ReadErr ErrInterrupted :: reads)) with (stream reads) in *. destruct (IH got n1 Hs Hd1 Hg Hl) as (reads' & n2 & E2 & S2 & R2 & C2).
      exists reads', n2. by rewrite E2, C2.
Qed.
Lemma write_stream d o : ∀ writes data n, steady_writes writes → (∀ i, n_clock n i < d) → (length data ≤ wrotes writes)%nat →
  ∃ writes' n', write_all_until writes data d o n = (inr writes', n') ∧ steady_writes writes' ∧ (wrotes writes ≤ wrotes writes' + length data)%nat ∧ n_clock n' = n_clock n.
Proof.
  induction writes as [|r writes IH]; intros data n Hs Hd Hl; cbn [write_all_until]; destruct (bool_decide_reflect (data = [])) as [->|Hn].
  - eexists _, _. split; [done|]. cbn. split_and!; [done|lia|done].
  - cbn in Hl. destruct data; cbn in *; [done|lia].
  - eexists _, _. split; [done|]. cbn [length]. split_and!; [done|lia|done].
  - apply Forall_cons in Hs as [Hr Hs]. destruct (remaining_tcp d o n Hd) as (l & n1 & E1 & C1 & _). unfold mbind, Dio_bind. rewrite E1.
    assert (∀ i, n_clock n1 i < d) as Hd1 by by rewrite C1. destruct r as [k|e].
    + rewrite (proj2 (Z.eqb_neq _ _)) by lia. change (wrotes (Wrote k :: writes)) with (S (wrotes writes)) in *. destruct data as [|c data]; [done|]. cbn [length] in Hl.
      pose proof (length_drop (c :: data) (Z.to_nat k)) as Hk. cbn [length] in Hk.
      destruct (IH (drop (Z.to_nat k) (c :: data)) n1 Hs Hd1) as (writes' & n2 & E2 & S2 & W2 & C2); [lia|]. exists writes', n2. rewrite E2, C2. split_and!; [done|done| |done]. cbn [length]. lia.
    + subst e. destruct (IH data n1 Hs Hd1 Hl) as (writes' & n2 & E2 & S2 & W2 & C2). exists writes', n2. by rewrite E2, C2.
Qed.
End stream.

(** C28. The exchange over TCP does not depend on how the stream is cut: however the kernel
    splits the reads and the writes, and whatever is interrupted, the reply is decoded from
    exactly the bytes its length field announces, as long as the deadline has not passed. *)
Theorem tcp_any_chunks `{D : DnsLib} (cfg : DnsConfig) (server : SocketAddr) (wire body rest : list Z) (id : Z) (qname : Name) (overall : Z) (n : Net) (m : Message Name)
    (x : TcpIo) (Hx : n_tcp n (n_tcp_pos n) server = x) (Hopen : tx_connect x = None) (Hw : steady_writes (tx_writes x)) (Hr : steady_reads (tx_reads x))
    (Hwire : zlen wire < 2 ^ 16) (Henough : (2 + length wire ≤ wrotes (tx_writes x))%nat)
    (Hbody : 1 ≤ zlen body < 2 ^ 16) (Hstream : stream (tx_reads x) = to_be 2 (zlen body) ++ body ++ rest)
    (Hm : from_vec body = Some m) (Hours : is_our_reply m id qname = true)
    (Htime : ∀ i, n_clock n i < Z.min (n_clock n (n_clock_pos n) + dc_timeout cfg) overall) :
  ∃ n', tcp_exchange cfg server wire id qname overall n = (inr m, n').
Proof.
  pose proof (Htime (n_clock_pos n)) as H0.
  assert (∃ d n1, transport_deadline overall (dc_timeout cfg) n = (inr d, n1) ∧ n_clock n1 = n_clock n ∧ n_tcp n1 (n_tcp_pos n1) server = x ∧ ∀ i, n_clock n i < d) as (d & n1 & E1 & C1 & T1 & Hd).
  { unfold transport_deadline, mbind, Dio_bind, now. rewrite (proj2 (Z.leb_gt _ _)) by lia. eexists _, _. split_and!; [done|done|done|].
    intros i. specialize (Htime i). destruct (checked_add _ _) as [d|] eqn:Ed; [|lia]. unfold checked_add in Ed. case_match; [|done]. injection Ed as <-. lia. }
  unfold tcp_exchange. rewrite (Dio_bind_done _ _ _ _ _ E1). rewrite <-C1 in Hd.
  destruct (remaining_tcp d overall n1 Hd) as (l & n2 & E2 & C2 & T2). rewrite (Dio_bind_done _ _ _ _ _ E2). rewrite <-C2 in Hd.
  assert (∃ s n3, next_tcp server n2 = (inr (s, x), n3) ∧ n_clock n3 = n_clock n2) as (s & n3 & E3 & C3) by (eexists _, _; unfold next_tcp; by rewrite T2, T1).
  rewrite (Dio_bind_done _ _ _ _ _ E3). rewrite <-C3 in Hd. rewrite Hopen, (proj2 (Z.ltb_lt _ _)) by done. rewrite !(Dio_bind_done (mret tt) _ n3 tt n3) by done.
  destruct (write_stream d overall (tx_writes x) (to_be 2 (zlen wire)) n3 Hw Hd) as (w1 & n4 & E4 & S4 & W4 & C4); [rewrite length_to_be; lia|]. rewrite length_to_be in W4.
  rewrite (Dio_bind_done _ _ _ _ _ E4). rewrite <-C4 in Hd. destruct (write_stream d overall w1 wire n4 S4 Hd) as (w2 & n5 & E5 & _ & _ & C5); [lia|].
  rewrite (Dio_bind_done _ _ _ _ _ E5). rewrite <-C5 in Hd. set (n5' := (log (SentTcp s server wire) n5).2). rewrite (Dio_bind_done (log _) _ n5 tt n5') by done.
  change (n_clock n5) with (n_clock n5') in Hd. clearbody n5'. clear E5.
  destruct (read_stream d overall 2 (tx_reads x) [] n5' Hr Hd) as (r1 & n6 & E6 & S6 & R6 & C6); [cbn; lia|rewrite Hstream, length_app, length_to_be; cbn; lia|].
  rewrite (Dio_bind_done _ _ _ _ _ E6). rewrite <-C6 in Hd. cbn [app length]. change (2 - 0)%nat with 2%nat in *. rewrite Hstream in R6 |- *.
  rewrite take_app_length' in * by by rewrite length_to_be. rewrite drop_app_length' in R6 by by rewrite length_to_be. cbv zeta. rewrite from_to_be by (unfold is_u; cbn; lia).
  unfold MAX_TCP_MESSAGE. rewrite (proj2 (Z.eqb_neq _ _)), (proj2 (Z.ltb_ge _ _)) by lia. cbn [orb].
  destruct (read_stream d overall (Z.to_nat (zlen body)) r1 [] n6 S6 Hd) as (r2 & n7 & E7 & _ & _ & _); [cbn; lia|rewrite R6, length_app; cbn; lia|].
  rewrite (Dio_bind_done _ _ _ _ _ E7). cbn [app length]. rewrite Nat.sub_0_r, Nat2Z.id, R6, take_app_length. rewrite (Dio_bind_done _ _ n7 m n7), Hours by by rewrite Hm. by eexists.
Qed.
Definition quiet_net : Net :=
  mkNet (λ _, 5) 0 (λ _, 0) 0 (λ _ _, mkUdpIo None None []) 0
    (λ _ _, mkTcpIo None [Wrote 1; WriteErr ErrInterrupted; Wrote 5; Wrote 1] [ReadSome [0]; ReadErr ErrInterrupted; ReadSome [1; 1; 9]]) 0 [].
Lemma tcp_any_chunks_witness : ∃ n', tcp_exchange (D := demo_dns) demo_dns_cfg (V4 [9; 9; 9; 9], 53) [7] 7 (str "relay.example") 3000 quiet_net = (inr (demo_reply false), n').
Proof.
  apply (tcp_any_chunks (D := demo_dns) demo_dns_cfg (V4 [9; 9; 9; 9], 53) [7] [1] [9] 7 (str "relay.example") 3000 quiet_net (demo_reply false) (n_tcp quiet_net 0 (V4 [9; 9; 9; 9], 53))); try done; try reflexivity; try (repeat constructor; done); cbn; lia.
Defined.
