(* ===== verification/EndpointOps.v ===== *)
(** The endpoint controller driven by the client ([src/src/endpoint.rs]): its operations as
    one step function, the histories they make, and what each step keeps. *)
From stdpp Require Import strings.
From S2P Require Import Prelude Util Text Ip EndpointState EndpointCache Types World Config Endpoint EndpointInv.

(** The calls the client makes, with the time it passes, and what they return. *)
Inductive EndpointOp :=
| OpCycle (now : Z) (reason : CycleReason)
| OpAuthenticated
| OpActivity (now : Z) (is_data : bool)
| OpPromote (expected : Ipv4Addr) (now : Z)
| OpRollbackDue (now : Z)
| OpOperatorRollback (expected : Ipv4Addr) (now : Z)
| OpRefresh
| OpSessionEnded.
Inductive EndpointOut :=
| OutUnit
| OutSwitch (sw : option Switch)
| OutReplaced (old : option Ipv4Addr)
| OutPromotion (r : PromotionResult)
| OutAllowed (b : bool).

Definition do_op (op : EndpointOp) (c : Ec) : Io (EndpointOut * Ec) :=
  match op with
  | OpCycle now reason => r ← on_cycle c now reason; mret (OutSwitch r.1, r.2)
  | OpAuthenticated => r ← on_authenticated c; mret (OutReplaced r.1, r.2)
  | OpActivity now is_data => mret (OutUnit, on_authenticated_activity c now is_data)
  | OpPromote expected now => r ← promote_candidate c expected now; mret (OutPromotion r.1, r.2)
  | OpRollbackDue now => r ← probation_rollback_due c now; mret (OutAllowed r.1, r.2)
  | OpOperatorRollback expected now => r ← authorize_operator_rollback c expected now; mret (OutAllowed r.1, r.2)
  | OpRefresh => mret (OutUnit, request_refresh c)
  | OpSessionEnded => mret (OutUnit, on_session_ended c)
  end.

(** * The cache file *)
Lemma cache_text_length host port addr saved ap t : is_u 16 port → v4_ok addr → is_u 64 saved →
  cache_text host port addr saved ap = Some t → zlen t ≤ CACHE_MAX_BYTES.
Proof.
  intros Hp Ha Hs E. unfold cache_text in E. destruct (validate_hostname host) eqn:Ev; [|done].
  destruct (bool_decide_reflect (host = canonical_host host)) as [Ec|]; [|done]. cbn [negb] in E. destruct (port =? 0); [done|].
  destruct (negb _); [done|].
  assert (t = join NL (cache_lines host port addr saved) ++ [NL]) as -> by congruence. clear E.
  destruct (validate_chars host Ec Ev) as [(_ & Hl & _) _].
  assert (∀ s v, (length (str s) ≤ 14)%nat → (length v ≤ 253)%nat → (length (line s v) ≤ 268)%nat) as Hln.
  { intros s v H1 H2. unfold line. rewrite length_app. cbn [length]. lia. }
  assert (length (join NL (cache_lines host port addr saved)) ≤ 5 * (268 + 1))%nat as Hj.
  { change 5%nat with (length (cache_lines host port addr saved)). apply join_length. unfold cache_lines.
    pose proof (dec_string_length port (is_u_mono 16 64 _ ltac:(lia) Hp)). pose proof (dec_string_length saved Hs).
    pose proof (ipv4_string_length _ Ha).
    apply Forall_cons_2; [vm_compute; lia|]. repeat (apply Forall_cons_2; [apply Hln; [cbn; lia|lia]|]). apply Forall_nil_2. }
  rewrite length_app. cbn [length]. unfold CACHE_MAX_BYTES. lia.
Qed.

Lemma moves_write c w w' tr : ep_inv c → env_ok w' → later w w' → w_trace w' = w_trace w ++ tr → Forall (event_ok c w') tr → moves c w c w'.
Proof. intros. constructor; try done. by exists tr. Qed.

(** What a controller that holds the invariant saves, it reads back. *)
Lemma runs_save_cache c name addr w : ep_inv c → env_ok w → spec_hostname (ec_spec c) = Some name →
  addr_ok (op_allow_private (ec_opts c)) addr →
  runs (save_cache_with_policy name (spec_port (ec_spec c)) addr (op_allow_private (ec_opts c))) w (λ _ w', moves c w c w').
Proof.
  intros Hi Hw En [Hav Hac]. destruct (ei_spec _ Hi) as (name' & port & Es & Hv & Hcan & Hp & Hp0).
  rewrite Es in *. cbn in En. injection En as ->. cbn [spec_port] in *.
  unfold save_cache_with_policy. destruct (cache_text _ _ _ 0 _); [|by apply runs_ret, moves_refl].
  apply runs_bind, runs_unix; [done|]. intros t w1 Hrd Hl1 Ht1 Hw1. pose proof (wall_range _ _ Hw1 Hrd) as Ht. unfold MAX_PERSISTED_COOLDOWN_SECS in Ht.
  assert (is_u 64 t) as Ht64 by (unfold is_u; lia).
  destruct (cache_text name port addr t _) as [text|] eqn:Et; [|by apply runs_ret, moves_env].
  apply runs_write; [done|]. intros ok tr w2 Hl2 Ht2 Htr Hw2.
  apply (moves_write c w w2 tr); [done|done|by transitivity w1|congruence|].
  destruct Htr as [[-> _]| ->]; [constructor|]. constructor; [|constructor]. cbn. rewrite Es. exists name, port. split; [done|].
  split; [by eapply cache_text_length|]. eexists. by apply (cache_roundtrip _ _ addr t).
Qed.

(** * Single operations *)
Definition no_evidence (p : Probation) : Prop :=
  pb_first_data p = None ∧ pb_last_data p = None ∧ pb_data_packets p = 0 ∧ pb_rollback_authorized p = false.
(** Evidence enough for a promotion at [now]. *)
Definition proven (c : Ec) (p : Probation) (now : Z) : Prop :=
  MIN_PROMOTION_DATA_PACKETS ≤ pb_data_packets p ∧ fp_probation_ms (policy c) ≤ evidence_span p ∧
  evidence_idle p now ≤ max_gap c.

Lemma inv_commit c c' cur : ep_inv c → current_v4 c = Some cur →
  core c' = core (set_ec_probation None (set_ec_committed_good (Some cur) c)) → ep_inv c'.
Proof.
  intros Hi Hcur E. eapply inv_core; [exact E|]. destruct (current_is c Hi) as (cur' & Ev & _ & Ha).
  rewrite Hcur in Ev. injection Ev as <-. destruct Hi as [H1 H2 H3 H4 H5 H6 H7].
  constructor; cbn; try done; [by intros g [= <-]|]. intros _. right. by rewrite <-Hcur.
Qed.
Lemma inv_probation c p : ep_inv c → enabled c = true → ec_committed_good c = Some (pb_rollback p) →
  pb_candidate p ≠ pb_rollback p → ep_inv (set_ec_probation (Some p) c).
Proof. intros [H1 H2 H3 H4 H5 H6 H7] He Hc Hn. constructor; try done. cbn. by intros q [= <-]. Qed.

(** Reordering as a last step. *)
Lemma moves_order c w c' w' : moves c w c' w' → moves c w (order_candidates c') w'.
Proof.
  intros Hm. eapply moves_trans; [exact Hm|].
  apply moves_ctl; [apply inv_order, (mv_inv _ _ _ _ Hm)|done|done|apply (mv_env _ _ _ _ Hm)].
Qed.

Lemma runs_persist c cur w : ep_inv c → env_ok w → addr_ok (op_allow_private (ec_opts c)) cur →
  runs (persist_committed c cur) w (λ _ w', moves c w c w').
Proof.
  intros Hi Hw Ha. unfold persist_committed. destruct (op_cache_file (ec_opts c)); [|by apply runs_ret, moves_refl].
  destruct (spec_hostname (ec_spec c)) as [name|] eqn:En; [|by apply runs_ret, moves_refl].
  apply runs_bind. eapply runs_mono; [by apply runs_save_cache|]. intros ok w' Hm. by apply runs_ret.
Qed.

Lemma runs_on_authenticated c w : ep_inv c → env_ok w →
  runs (on_authenticated c) w (λ r w', moves c w r.2 w' ∧ credit r.2 ≤ credit c ∧
    (ec_committed_good r.2 = current_v4 c ∧ ec_probation r.2 = None ∧
       (ec_committed_good c = None ∨ enabled c = false ∨ ec_committed_good c = current_v4 c) ∨
     ec_committed_good r.2 = ec_committed_good c ∧ ∃ p, ec_probation r.2 = Some p ∧ no_evidence p)).
Proof.
  intros Hi Hw. unfold on_authenticated. apply runs_bind, runs_now_ms; [done|]. intros now w1 _ _ Hl1 Ht1 Hw1.
  destruct (current_is c Hi) as (cur & Ev & _ & Ha).
  change (current_v4 (set_ec_backoff _ _)) with (current_v4 c). rewrite Ev.
  set (c1 := set_ec_round_deadline None _). assert (core c1 = core c) as Ec1 by done.
  assert (moves c w c1 w1) as Hm1 by (eapply moves_then; [by apply (moves_env c w w1)|done]).
  change (ec_committed_good c1) with (ec_committed_good c).
  set (c2 := set_ec_attended_cutover false (set_ec_probation None _)).
  assert (ep_inv c2) as Hi2 by (by apply (inv_commit c c2 cur)).
  assert (ec_committed_good c = None ∨ enabled c = false ∨ ec_committed_good c = Some cur →
    runs (persist_committed c2 cur;;
      mret (match ec_committed_good c with Some old => if bool_decide (old = cur) then None else Some old | None => None end,
            order_candidates c2)) w1 (λ r w', moves c w r.2 w' ∧ credit r.2 ≤ credit c ∧
    (ec_committed_good r.2 = Some cur ∧ ec_probation r.2 = None ∧
       (ec_committed_good c = None ∨ enabled c = false ∨ ec_committed_good c = Some cur) ∨
     ec_committed_good r.2 = ec_committed_good c ∧ ∃ p, ec_probation r.2 = Some p ∧ no_evidence p))) as Hcommit.
  { intros Hwhy. apply runs_bind. eapply runs_mono; [by apply runs_persist|]. intros ? w2 Hm2. apply runs_ret. cbn [fst snd].
    split; [|split; [by apply credit_le; [apply unasking_off|right]|by left]]. eapply moves_trans; [by apply (moves_env c w w1)|].
    eapply moves_trans; [by apply (moves_ctl c w1 c2)|]. by apply moves_order. }
  destruct (ec_committed_good c) as [g|] eqn:Eg; [|apply Hcommit; by left].
  change (enabled c1) with (enabled c). destruct (enabled c) eqn:Ee; cbn [negb orb]; [|apply Hcommit; auto].
  case_bool_decide as Egc; [apply Hcommit; subst; auto|].
  apply runs_ret. cbn [fst snd]. set (p := mkProbation _ _ _ _ _ _ _ _ _).
  assert (ep_inv (set_ec_probation (Some p) c1)) as Hip.
  { apply inv_probation; [apply Hm1|done|done|]. cbn. congruence. }
  split_and!.
  - apply moves_order. eapply moves_trans; [exact Hm1|]. apply moves_ctl; [|done|done|done]. by eapply inv_core; [|exact Hip].
  - unfold credit. cbn. destruct (ec_attended_cutover c), (ec_probation c) as [q|]; try destruct (pb_direct_return q); lia.
  - right. split; [done|]. by exists p.
Qed.

Lemma runs_promote c expected now w : ep_inv c → env_ok w →
  runs (promote_candidate c expected now) w (λ r w', moves c w r.2 w' ∧
    match r.1 with
    | Promoted old => ∃ p, ec_probation c = Some p ∧ old = pb_rollback p ∧ pb_candidate p = expected ∧
        current_v4 c = Some expected ∧ ec_current_authenticated c = true ∧ proven c p now ∧
        ec_committed_good r.2 = Some expected ∧ ec_probation r.2 = None ∧ ec_attended_cutover r.2 = false
    | _ => r.2 = c
    end).
Proof.
  intros Hi Hw. unfold promote_candidate.
  assert (∀ r w', moves c w c w' → (∀ old, r ≠ Promoted old) → runs (mret (r, c)) w' (λ r w', moves c w r.2 w' ∧
    match r.1 with
    | Promoted old => ∃ p, ec_probation c = Some p ∧ old = pb_rollback p ∧ pb_candidate p = expected ∧
        current_v4 c = Some expected ∧ ec_current_authenticated c = true ∧ proven c p now ∧
        ec_committed_good r.2 = Some expected ∧ ec_probation r.2 = None ∧ ec_attended_cutover r.2 = false
    | _ => r.2 = c
    end)) as Hno.
  { intros r w' Hm Hr. apply runs_ret. split; [done|]. cbn. destruct r; try done. by destruct (Hr previous). }
  pose proof (moves_refl c w Hi Hw) as Hr.
  destruct (ec_probation c) as [p|] eqn:Ep; [|by apply Hno].
  case_bool_decide as Ecand; [|by apply Hno]. cbn [negb].
  case_bool_decide as Ecur; [|by apply Hno]. destruct (ec_current_authenticated c) eqn:Ea; [|by apply Hno]. cbn [negb orb].
  destruct (match pb_rollback_at p with Some _ => _ | None => _ end); [by apply Hno|].
  destruct (Z.ltb_spec (pb_data_packets p) MIN_PROMOTION_DATA_PACKETS); [by apply Hno|].
  destruct (Z.ltb_spec (evidence_span p) (fp_probation_ms (policy c))); [by apply Hno|]. cbn [orb].
  destruct (Z.ltb_spec (max_gap c) (evidence_idle p now)); [by apply Hno|].
  destruct (current_is c Hi) as (cur & Ev & Ec & Hca). rewrite Ec in Ecur. cbn in Ecur. injection Ecur as ->.
  apply runs_bind. apply (runs_mono _ _ (λ _ w', moves c w c w')).
  - destruct (op_cache_file _); [|by apply runs_ret]. destruct (spec_hostname _) eqn:En; [|by apply runs_ret]. by apply runs_save_cache.
  - intros saved w1 Hm1. destruct saved; cbn [negb]; [|by apply Hno]. apply runs_ret. cbn [fst snd].
    set (c2 := set_ec_attended_cutover false _). assert (ep_inv c2) as Hi2 by by apply (inv_commit c c2 expected).
    split; [|by exists p].
    apply moves_order. eapply moves_trans; [exact Hm1|]. apply moves_ctl; [done|done|done|apply Hm1].
Qed.

(** The same probation, perhaps authorized by a payment or by its own right to return. *)
Definition same_evidence (p p' : Probation) : Prop :=
  pb_candidate p' = pb_candidate p ∧ pb_rollback p' = pb_rollback p ∧ pb_direct_return p' = pb_direct_return p ∧
  pb_first_data p' = pb_first_data p ∧ pb_last_data p' = pb_last_data p ∧ pb_data_packets p' = pb_data_packets p.
Definition may_return (p : Probation) : Prop := pb_direct_return p = true ∨ pb_rollback_authorized p = true.

Lemma runs_authorize c p cur now wall w : ep_inv c → env_ok w → wall_read w wall →
  current_v4 c = Some cur → ec_probation c = Some p → committed_fresh c now cur = Some (pb_rollback p) →
  runs (authorize c p wall) w (λ r w', moves c w r.2 w' ∧ ec_committed_good r.2 = ec_committed_good c ∧
    ec_attended_cutover r.2 = ec_attended_cutover c ∧
    ∃ p', ec_probation r.2 = Some p' ∧ same_evidence p p' ∧
      (pb_rollback_authorized p' = true → may_return p ∨ paid w w')).
Proof.
  intros Hi Hw Hn Hcur Hp Hf. destruct (fresh_cands _ _ _ _ Hi Hcur Hf) as [Hne Ha]. unfold authorize.
  apply runs_bind. apply (runs_mono _ _ (λ r w', moves c w r.2 w' ∧ core r.2 = core c ∧ ec_attended_cutover r.2 = ec_attended_cutover c ∧ (r.1 = true → may_return p ∨ paid w w'))).
  - destruct (pb_rollback_authorized p || pb_direct_return p) eqn:E.
    + apply runs_ret. split_and!; [by apply moves_refl|done|done|]. intros _. left. apply orb_true_iff in E as [E|E]; [by right|by left].
    + eapply runs_mono; [by apply runs_charge|]. intros r w' (Hm & Hc & Hat & Hpd). split_and!; [done|done|done|]. auto.
  - intros [ok c'] w' (Hm & Hc & Hat & Hr). cbn [fst snd] in *. assert (ec_probation c' = Some p ∧ ec_committed_good c' = ec_committed_good c ∧ ec_opts c' = ec_opts c)
      as (Hp' & Hg' & Ho') by (unfold core in Hc; split_and!; congruence).
    destruct (ei_probation _ Hi p Hp) as (He & Hg & Hcr). destruct ok; apply runs_ret; cbn [fst snd].
    + split_and!; [|done|done|].
      * eapply moves_trans; [exact Hm|]. apply moves_ctl; [|done|done|apply Hm]. apply inv_probation; [apply Hm| | |done].
        -- unfold enabled, policy in *. by rewrite Ho'.
        -- by rewrite Hg'.
      * exists (set_pb_rollback_authorized true p). split; [done|]. split; [done|]. intros _. by apply Hr.
    + split_and!; [done|done|done|]. exists p. split_and!; [done|done|]. intros Ha'. left. by right.
Qed.

(** What the two authorizations have in common. *)
Definition authorizes (c : Ec) (w : World) (r : bool * Ec) (w' : World) : Prop :=
  moves c w r.2 w' ∧ ec_committed_good r.2 = ec_committed_good c ∧ ec_attended_cutover r.2 = ec_attended_cutover c ∧
  (ec_probation r.2 = ec_probation c ∨
   ∃ p p', ec_probation c = Some p ∧ ec_probation r.2 = Some p' ∧ same_evidence p p' ∧
     (pb_rollback_authorized p' = true → may_return p ∨ paid w w')).
Lemma authorizes_no c w w' : moves c w c w' → authorizes c w (false, c) w'.
Proof. intros. split_and!; [done|done|done|by left]. Qed.
Lemma runs_authorizes c p cur now wall w w0 : ep_inv c → moves c w0 c w → wall_read w wall →
  current_v4 c = Some cur → ec_probation c = Some p → committed_fresh c now cur = Some (pb_rollback p) →
  runs (authorize c p wall) w (authorizes c w0).
Proof.
  intros Hi Hm0 Hn Hcur Hp Hf. eapply runs_mono; [by eapply runs_authorize; [done|apply Hm0|..]|].
  intros r w' (Hm & Hg & Hat & p' & Hp' & Hs & Hr). split_and!; [by eapply moves_trans|done|done|]. right. exists p, p'. split_and!; try done.
  intros Ha. destruct (Hr Ha) as [?|?]; [by left|right]. by eapply paid_after.
Qed.

Lemma runs_rollback_due c now w : ep_inv c → env_ok w → runs (probation_rollback_due c now) w (authorizes c w).
Proof.
  intros Hi Hw. unfold probation_rollback_due. apply runs_bind, runs_unix; [done|]. intros wall w1 Hn Hl1 Ht1 Hw1.
  pose proof (moves_env c w w1 Hi Hw1 Hl1 Ht1) as Hm.
  destruct (current_v4 c) as [cur|] eqn:Ev; [|by apply runs_ret, authorizes_no].
  destruct (ec_probation c) as [p|] eqn:Ep; [|by apply runs_ret, authorizes_no].
  destruct (_ || _); [by apply runs_ret, authorizes_no|]. case_bool_decide; [|by apply runs_ret, authorizes_no].
  by eapply runs_authorizes.
Qed.
Lemma runs_operator_rollback c expected now w : ep_inv c → env_ok w → runs (authorize_operator_rollback c expected now) w (authorizes c w).
Proof.
  intros Hi Hw. unfold authorize_operator_rollback. apply runs_bind, runs_unix; [done|]. intros wall w1 Hn Hl1 Ht1 Hw1.
  pose proof (moves_env c w w1 Hi Hw1 Hl1 Ht1) as Hm.
  destruct (current_v4 c) as [cur|] eqn:Ev; [|by apply runs_ret, authorizes_no].
  destruct (ec_probation c) as [p|] eqn:Ep; [|by apply runs_ret, authorizes_no].
  destruct (_ || _); [by apply runs_ret, authorizes_no|]. case_bool_decide; [|by apply runs_ret, authorizes_no].
  by eapply runs_authorizes.
Qed.

(** A data packet of the candidate, after a gap too long or in time. *)
Definition counted (c : Ec) (now : Z) (p p' : Probation) : Prop :=
  pb_candidate p' = pb_candidate p ∧ pb_rollback p' = pb_rollback p ∧ pb_direct_return p' = pb_direct_return p ∧
  pb_rollback_authorized p' = pb_rollback_authorized p ∧ pb_last_data p' = Some now ∧
  (pb_first_data p' = Some now ∧ pb_data_packets p' = 1 ∨
   pb_data_packets p' = saturating_add 32 (pb_data_packets p) 1 ∧
   (pb_first_data p' = pb_first_data p ∧ pb_first_data p ≠ None ∨ pb_first_data p = None ∧ pb_first_data p' = Some now) ∧
   ∀ last, pb_last_data p = Some last → now - last ≤ max_gap c).

Lemma gap_bound c now last : (max_gap c <? saturating_sub now last) = false → now - last ≤ max_gap c.
Proof. intros E%Z.ltb_ge. unfold saturating_sub in E. unfold max_gap in *. destruct (Z.ltb_spec now last); lia. Qed.

Lemma activity_step c now is_data : ep_inv c → ∃ cur, current_v4 c = Some cur ∧
  let c' := on_authenticated_activity c now is_data in
  ep_inv c' ∧ ec_spec c' = ec_spec c ∧ ec_opts c' = ec_opts c ∧ ec_committed_good c' = ec_committed_good c ∧
  ec_attended_cutover c' = ec_attended_cutover c ∧
  (ec_probation c' = ec_probation c ∨
   is_data = true ∧ ∃ p p', ec_probation c = Some p ∧ pb_candidate p = cur ∧ ec_probation c' = Some p' ∧ counted c now p p').
Proof.
  intros Hi. destruct (current_is c Hi) as (cur & Ev & _ & _). exists cur. split; [done|]. cbn zeta.
  unfold on_authenticated_activity. rewrite Ev. set (c1 := if _ && _ then _ else c).
  assert (core c1 = core c) as Ec1 by (unfold c1; by destruct (_ && _)).
  assert (ec_attended_cutover c1 = ec_attended_cutover c) as Eat by (unfold c1; by destruct (_ && _)).
  assert (ep_inv c1) as Hi1 by by eapply inv_core.
  assert (ec_spec c1 = ec_spec c ∧ ec_opts c1 = ec_opts c ∧ ec_committed_good c1 = ec_committed_good c ∧ ec_probation c1 = ec_probation c)
    as (Es & Eo & Eg & Ep) by (unfold core in Ec1; split_and!; congruence).
  destruct is_data; cbn [negb]; [|split_and!; try done; by left].
  destruct (ec_probation c1) as [p|] eqn:Hp; [|split_and!; try done; rewrite Hp; by left].
  case_bool_decide as Hcand; cbn [negb]; [|split_and!; try done; rewrite Hp; by left].
  assert (max_gap c1 = max_gap c) as Emg by (unfold max_gap, policy; by rewrite Eo).
  set (gap := match pb_last_data p with Some _ => _ | None => _ end).
  set (p1 := if gap then _ else p). set (p2 := match pb_first_data p1 with None => _ | Some _ => _ end).
  destruct (ei_probation _ Hi1 p Hp) as (He & Hg & Hcr).
  assert (counted c now p (set_pb_data_packets (saturating_add 32 (pb_data_packets p2) 1) (set_pb_last_data (Some now) p2))) as Hcnt.
  { unfold counted, p2, p1. destruct gap eqn:Egap.
    - cbn. split_and!; try done. by left.
    - destruct (pb_first_data p) as [f|] eqn:Ef; cbn; rewrite ?Ef; (split_and!; [done..|]); right; (split_and!; [done| |]).
      + left. done.
      + intros last El. unfold gap in Egap. rewrite El, Emg in Egap. by apply gap_bound.
      + right. done.
      + intros last El. unfold gap in Egap. rewrite El, Emg in Egap. by apply gap_bound. }
  cbn [ec_spec ec_opts ec_committed_good ec_probation set_ec_probation]. split_and!; try done.
  - destruct Hcnt as (H1 & H2 & _). apply inv_probation; [done|done|by rewrite H2|by rewrite H1, H2].
  - right. split; [done|]. by eexists p, _.
Qed.

(** * Every operation *)
(** How the committed address changes: by the first authentication, by any when the policy is
    off, or by a promotion. *)
Definition earned (c : Ec) (op : EndpointOp) (r : EndpointOut * Ec) : Prop :=
  op = OpAuthenticated ∧ ec_committed_good r.2 = current_v4 c ∧ (ec_committed_good c = None ∨ enabled c = false) ∨
  ∃ ip now p, op = OpPromote ip now ∧ r.1 = OutPromotion (Promoted (pb_rollback p)) ∧ ec_probation c = Some p ∧
    pb_candidate p = ip ∧ current_v4 c = Some ip ∧ ec_current_authenticated c = true ∧ proven c p now ∧
    ec_committed_good r.2 = Some ip.

(** How a probation changes. *)
Definition evolves (c : Ec) (op : EndpointOp) (c' : Ec) : Prop := ∀ p', ec_probation c' = Some p' →
  no_evidence p' ∨ ∃ p, ec_probation c = Some p ∧
    (same_evidence p p' ∨ ∃ now, op = OpActivity now true ∧ current_v4 c = Some (pb_candidate p) ∧ counted c now p p').
Definition authorized (c : Ec) (w : World) (c' : Ec) (w' : World) : Prop := ∀ p',
  ec_probation c' = Some p' → pb_rollback_authorized p' = true →
  (∃ p, ec_probation c = Some p ∧ may_return p) ∨ paid w w'.

(** Where a switch may lead. *)
Definition switched (c : Ec) (w : World) (sw : Switch) (c' : Ec) (w' : World) : Prop :=
  sw_from sw = ec_current c ∧ sw_to sw = ec_current c' ∧ sw_to sw ≠ sw_from sw ∧ ec_current_authenticated c' = false ∧ quits c c' ∧
  ∃ t, sw_to sw = (V4 t, spec_port (ec_spec c)) ∧
    (t ∈ ec_candidates c' ∨ ec_committed_good c = Some t ∧ (permitted c c' ∨ paid w w')).

(** The operator asks for a new address while the committed one works, and so attends the
    change. *)
Definition asks_change (c : Ec) (op : EndpointOp) : bool :=
  match op, current_v4 c with
  | OpRefresh, Some cur => ec_current_authenticated c && bool_decide (ec_committed_good c = Some cur)
  | _, _ => false
  end.

Record step_ok (c : Ec) (w : World) (op : EndpointOp) (r : EndpointOut * Ec) (w' : World) : Prop := {
  sp_moves : moves c w r.2 w';
  sp_credit : credit r.2 ≤ credit c + (if asks_change c op then 1 else 0);
  sp_committed : ec_committed_good r.2 = ec_committed_good c ∨ earned c op r;
  sp_evidence : evolves c op r.2;
  sp_authorized : authorized c w r.2 w';
  sp_switch : match r.1 with OutSwitch (Some sw) => switched c w sw r.2 w' | OutSwitch None => ec_current r.2 = ec_current c | _ => True end }.

Lemma evolves_quits c op c' : quits c c' → evolves c op c'.
Proof. intros [E|E] p' Hp'; [|congruence]. right. exists p'. split; [congruence|]. by left. Qed.
Lemma authorized_quits c w c' w' : quits c c' → authorized c w c' w'.
Proof. intros [E|E] p' Hp' Ha; [|congruence]. left. exists p'. split; [congruence|by right]. Qed.

(** Steps that leave the committed address and the probation. *)
Lemma step_quiet c w op out c' w' : moves c w c' w' → ec_committed_good c' = ec_committed_good c → quits c c' →
  credit c' ≤ credit c + (if asks_change c op then 1 else 0) → (∀ sw, out ≠ OutSwitch sw) → step_ok c w op (out, c') w'.
Proof.
  intros Hm Hg Hq Hcr Hout. constructor; [done|done|by left|by apply evolves_quits|by apply authorized_quits|].
  cbn. destruct out as [|sw| | |]; try done. by destruct (Hout sw).
Qed.
Lemma step_lands c w now reason r w' : lands c w r w' → step_ok c w (OpCycle now reason) (OutSwitch r.1, r.2) w'.
Proof.
  intros (Hm & Hg & Hq & Hcr & Hr). constructor; [done|cbn; lia|by left|by apply evolves_quits|by apply authorized_quits|]. cbn. destruct (r.1); [|done].
  destruct Hr as (? & ? & ? & ? & ?). by split_and!.
Qed.
Lemma step_authorizes c w op r w' : authorizes c w r w' → step_ok c w op (OutAllowed r.1, r.2) w'.
Proof.
  intros (Hm & Hg & Hat & Hq). constructor; [done| |by left| | |done]; cbn [fst snd].
  - enough (credit r.2 ≤ credit c) by (destruct (asks_change c op); lia). destruct Hq as [Hq|(p & p' & Hp & Hp' & (_ & _ & Hd & _) & _)].
    + apply credit_le; [auto|by left].
    + unfold credit. rewrite Hat, Hp, Hp', Hd. lia.
  - destruct Hq as [Hq|(p & p' & Hp & Hp' & Hs & _)]; [by apply evolves_quits; left|].
    intros q Hq. right. exists p. split; [done|]. left. congruence.
  - destruct Hq as [Hq|(p & p' & Hp & Hp' & _ & Ha)]; [by apply authorized_quits; left|].
    intros q Hq Hau. assert (q = p') as -> by congruence. destruct (Ha Hau) as [?|?]; [left; by exists p|by right].
Qed.
Lemma step_activity c w now is_data : ep_inv c → env_ok w →
  step_ok c w (OpActivity now is_data) (OutUnit, on_authenticated_activity c now is_data) w.
Proof.
  intros Hi Hw. destruct (activity_step c now is_data Hi) as (cur & Ev & Hi' & Es & Eo & Eg & Hat & Hp).
  set (c' := on_authenticated_activity c now is_data) in *. constructor; cbn [fst snd].
  - by apply moves_ctl.
  - enough (credit c' ≤ credit c) by (cbn; lia). destruct Hp as [Hp|(-> & p & p' & Hp & _ & Hp' & (_ & _ & Hd & _))].
    + apply credit_le; [auto|by left].
    + unfold credit. rewrite Hat, Hp, Hp', Hd. lia.
  - by left.
  - destruct Hp as [Hp|(-> & p & p' & Hp & Hc & Hp' & Hcnt)]; [by apply evolves_quits; left|].
    intros q Hq. right. exists p. split; [done|]. right. exists now. split_and!; [done|congruence|congruence].
  - destruct Hp as [Hp|(-> & p & p' & Hp & Hc & Hp' & Hcnt)]; [by apply authorized_quits; left|].
    intros q Hq Ha. left. exists p. split; [done|]. right. destruct Hcnt as (_ & _ & _ & E & _). congruence.
  - done.
Qed.

Lemma step_authenticated c w r w' : moves c w r.2 w' → credit r.2 ≤ credit c →
  (ec_committed_good r.2 = current_v4 c ∧ ec_probation r.2 = None ∧
     (ec_committed_good c = None ∨ enabled c = false ∨ ec_committed_good c = current_v4 c) ∨
   ec_committed_good r.2 = ec_committed_good c ∧ ∃ p, ec_probation r.2 = Some p ∧ no_evidence p) →
  step_ok c w OpAuthenticated (OutReplaced r.1, r.2) w'.
Proof.
  intros Hm Hcr Hc. constructor; cbn [fst snd].
  - done.
  - cbn. lia.
  - destruct Hc as [(Hc & _ & Hwhy)|[Hc _]]; [|by left].
    destruct Hwhy as [?|[?|?]]; [right; left; auto|right; left; auto|left; congruence].
  - destruct Hc as [(_ & Hp & _)|(_ & p & Hp & Hn)]; [by apply evolves_quits; right|].
    intros q Hq. left. congruence.
  - destruct Hc as [(_ & Hp & _)|(_ & p & Hp & Hn)]; [by apply authorized_quits; right|].
    intros q Hq Ha. destruct Hn as (_ & _ & _ & Hn). congruence.
  - done.
Qed.

Lemma credit_refresh c : ep_inv c → credit (request_refresh c) ≤ credit c + (if asks_change c OpRefresh then 1 else 0).
Proof.
  intros Hi. destruct (current_is c Hi) as (cur & Ev & _ & _). unfold asks_change. rewrite Ev. unfold request_refresh. destruct (ec_is_dynamic c); [|destruct (_ && _); lia].
  rewrite Ev. unfold credit. cbn. destruct (ec_current_authenticated c && _), (ec_attended_cutover c); lia.
Qed.
Lemma runs_op op c w : ep_inv c → env_ok w → runs (do_op op c) w (step_ok c w op).
Proof.
  intros Hi Hw. destruct op; cbn [do_op].
  - apply runs_bind. eapply runs_mono; [by apply runs_on_cycle|]. intros r w' Hl. by apply runs_ret, step_lands.
  - apply runs_bind. eapply runs_mono; [by apply runs_on_authenticated|]. intros r w' (Hm & Hcr & Hc). by apply runs_ret, step_authenticated.
  - by apply runs_ret, step_activity.
  - apply runs_bind. eapply runs_mono; [by apply runs_promote|]. intros [r c'] w' [Hm Hr]. apply runs_ret. cbn [fst snd] in *.
    assert (c' = c → (∀ old, r ≠ Promoted old) → step_ok c w (OpPromote expected now) (OutPromotion r, c') w') as Hq
      by (intros -> _; apply step_quiet; [done|done|by left|cbn; lia|done]).
    destruct r; try by apply Hq.
    destruct Hr as (p & Hp & -> & Hc & Hcur & Ha & Hpr & Hg & Hn & Hat). constructor; cbn [fst snd].
    + done.
    + cbn. enough (credit c' ≤ credit c) by lia. by apply credit_le; [apply unasking_off|right].
    + right. right. by exists expected, now, p.
    + by apply evolves_quits; right.
    + by apply authorized_quits; right.
    + done.
  - apply runs_bind. eapply runs_mono; [by apply runs_rollback_due|]. intros r w' Hr. by apply runs_ret, step_authorizes.
  - apply runs_bind. eapply runs_mono; [by apply runs_operator_rollback|]. intros r w' Hr. by apply runs_ret, step_authorizes.
  - apply runs_ret. assert (core (request_refresh c) = core c) as E by (unfold request_refresh; by destruct (ec_is_dynamic c)).
    apply step_quiet; [by apply moves_core|unfold core in E; congruence|left; unfold core in E; congruence|by apply credit_refresh|done].
  - apply runs_ret. apply step_quiet; [by apply moves_core|done|by left|unfold credit; cbn; lia|done].
Qed.

(** * Start *)
(** The options of a host name endpoint, as the configuration accepts them. *)
Record boot_ok (spec : EndpointSpec) (opts : EndpointOptions) : Prop := {
  bt_spec : ∃ name port, spec = Hostname name port ∧ validate_hostname name = true ∧
    name = canonical_host name ∧ is_u 16 port ∧ port ≠ 0;
  bt_policy : policy_ok (op_fallback opts);
  bt_bootstrap ip : op_bootstrap opts = Some ip → v4_ok ip }.

(** Steps of the environment alone. *)
Record quiet (w w' : World) : Prop := {
  qt_env : env_ok w';
  qt_later : later w w';
  qt_trace : w_trace w' = w_trace w }.
Lemma quiet_trans w1 w2 w3 : quiet w1 w2 → quiet w2 w3 → quiet w1 w3.
Proof. intros [? ? E1] [? ? E2]. constructor; [done|by transitivity w2|congruence]. Qed.

Lemma runs_load_cache name port ap w : env_ok w →
  runs (load_cache_entry name port ap) w (λ r w', quiet w w' ∧ ∀ e, r = Some (Some e) → addr_ok ap (ce_addr e)).
Proof.
  intros Hw. apply runs_bind, runs_read; [done|]. intros r w' Hl Ht Hw'. apply runs_ret. split; [done|].
  intros e. destruct r as [[bytes|]|]; [|done|done]. apply parse_cache_ok.
Qed.

(** The controller before its first address is chosen. *)
Lemma inv_chosen spec opts c ip : boot_ok spec opts → ec_spec c = spec → ec_opts c = opts → ec_probation c = None →
  (∀ g, ec_committed_good c = Some g → addr_ok (op_allow_private opts) g) →
  cands_ok (op_allow_private opts) (ec_candidates c) → addr_ok (op_allow_private opts) ip →
  (ec_candidates c = [] → ec_committed_good c = None ∨ ec_committed_good c = Some ip) →
  ep_inv (order_candidates (set_ec_current (V4 ip, spec_port spec) c)).
Proof.
  intros [Hsp Hpo _] Es Eo Ep Hg Hc Hip He. apply inv_order. constructor; cbn; rewrite ?Es, ?Eo, ?Ep; try done.
  - by exists ip.
  - unfold policy. cbn. by rewrite Eo.
Qed.

Lemma cands_nil ap : cands_ok ap [].
Proof. constructor; [apply NoDup_nil_2|constructor|cbn; lia]. Qed.

Lemma runs_bootstrap spec opts now w : boot_ok spec opts → env_ok w →
  runs (bootstrap spec opts now) w (λ r w', quiet w w' ∧
    ∀ c, r = Some c → ep_inv c ∧ ec_spec c = spec ∧ ec_opts c = opts ∧ ec_probation c = None ∧ ec_attended_cutover c = false).
Proof.
  intros Hb Hw. destruct (bt_spec _ _ Hb) as (name & port & -> & _). unfold bootstrap.
  apply runs_bind, runs_unix; [done|]. intros wall0 w1 _ Hl1 Ht1 Hw1. assert (quiet w w1) as Hq1 by done. cbn [spec_port].
  set (c0 := mkEndpointController _ _ _ _ _ _ _ _ _ _ _ _ _ _ _ _ _ _ _ _ _).
  destruct (match op_bootstrap opts with Some _ => _ | None => _ end) eqn:Eun; [by apply runs_ret|].
  apply runs_bind. apply (runs_mono _ _ (λ r w', quiet w w' ∧ ∀ e, r = Some (Some e) → addr_ok (op_allow_private opts) (ce_addr e))).
  { destruct (op_cache_file opts); [|by apply runs_ret]. eapply runs_mono; [by apply runs_load_cache|].
    intros r w' [Hq Hr]. split; [by eapply quiet_trans|done]. }
  intros loaded w2 [Hq2 Hld]. set (cached := match loaded with Some (Some _) => _ | _ => _ end).
  assert (∀ g, ce_addr <$> cached = Some g → addr_ok (op_allow_private opts) g) as Hg.
  { intros g. unfold cached. destruct loaded as [[e|]|]; [|done|done]. intros [= <-]. by apply Hld. }
  apply runs_bind, runs_unix; [apply Hq2|]. intros wall w3 Hrd Hl3 Ht3 Hw3. pose proof (wall_range _ _ Hw3 Hrd) as Hn.
  assert (quiet w w3) as Hq3 by (eapply quiet_trans; [exact Hq2|done]).
  set (c1 := set_ec_cache_fresh_until _ _).
  assert (frame c1 = frame (set_ec_committed_good (ce_addr <$> cached) c0) ∧ ec_candidates c1 = []) as [Ef1 Ec1] by done.
  apply runs_bind. apply (runs_mono _ _ (λ c w', quiet w w' ∧ frame c = frame c1 ∧ ec_candidates c = [])).
  { destruct (fp_enabled _); [|by apply runs_ret]. destruct (op_cache_file opts); [|by apply runs_ret].
    apply runs_bind. unfold owner_only_lock. apply runs_bind, runs_next_file; [apply Hq3|]. intros lk w4 Hl4 Ht4 Hw4. apply runs_ret.
    assert (quiet w w4) as Hq4 by (eapply quiet_trans; [exact Hq3|done]).
    apply runs_bind. apply (runs_mono _ _ (λ _ w', quiet w w')).
    - destruct (fio_ok lk); [|by apply runs_ret]. apply runs_load_state; [done|lia|]. intros r w5 Hl5 Ht5 Hw5 _.
      eapply quiet_trans; [exact Hq4|done].
    - intros r w5 Hq5. apply runs_ret. split; [done|]. by destruct r as [[?|]|]. }
  intros c2 w4 (Hq4 & Ef2 & Ec2). set (c3 := start_preferred_round c2 now).
  assert (frame c3 = frame c1 ∧ ec_candidates c3 = []) as [Ef3 Ec3].
  { unfold c3, start_preferred_round. destruct (_ && _); [|done]. split; [by rewrite <-Ef2|done]. }
  clearbody c3. rewrite Ef1 in Ef3. unfold frame in Ef3. cbn [ec_spec ec_opts ec_current ec_committed_good ec_probation
    ec_attended_cutover set_ec_committed_good c0] in Ef3. injection Ef3 as E1 E2 _ E3 E4 E5.
  apply runs_bind. eapply runs_mono; [apply (runs_query_any c3 now name); [by rewrite E1|apply Hq4]|].
  intros [ok c4] w5 (Hw5 & Hl5 & Ht5 & Ef4 & Hc4). cbn [fst snd] in *. unfold frame in Ef4.
  assert (ec_spec c4 = Hostname name port ∧ ec_opts c4 = opts ∧ ec_committed_good c4 = ce_addr <$> cached ∧ ec_probation c4 = None ∧
    ec_attended_cutover c4 = false) as (G1 & G2 & G3 & G4 & G5) by (split_and!; congruence).
  assert (quiet w w5) as Hq5 by (eapply quiet_trans; [exact Hq4|done]).
  apply runs_ret. split; [done|]. set (chosen := match (if ok then _ else _) with [] => _ | _ :: _ => _ end).
  assert (cands_ok (op_allow_private opts) (ec_candidates c4)) as Hca.
  { destruct Hc4 as [[_ E]|(_ & Hc & _)]; [rewrite E, Ec3; apply cands_nil|by rewrite <-E2]. }
  assert (∀ ip, chosen = Some ip → addr_ok (op_allow_private opts) ip ∧
    (ec_candidates c4 = [] → ec_committed_good c4 = None ∨ ec_committed_good c4 = Some ip)) as Hch.
  { intros ip. unfold chosen. destruct (if ok then ec_candidates c4 else []) as [|f l] eqn:El.
    - rewrite G3. destruct (ce_addr <$> cached) as [g|] eqn:Eg; [intros [= <-]; split; [by apply Hg|by right]|].
      intros E. split; [|by left]. rewrite E in Eun. apply negb_false_iff in Eun. split; [by apply (bt_bootstrap _ _ Hb)|done].
    - destruct ok; [|done]. pose proof (proj1 (Forall_forall _ _) (ca_addrs _ _ Hca)) as Hall.
      intros E. split; [|congruence]. apply Hall. destruct (ec_committed_good c4) as [g|].
      + case_bool_decide; injection E as <-; [done|rewrite El; by left].
      + injection E as <-. rewrite El. by left. }
  intros c. destruct chosen as [ip|]; [|done]. intros [= <-]. destruct (Hch ip eq_refl) as [Hip He].
  split; [|done]. apply (inv_chosen (Hostname name port) opts); try done. by rewrite G3.
Qed.
