(* ===== verification/EndpointSpec.v ===== *)
(** What the endpoint controller promises over any history of calls ([src/src/endpoint.rs]):
    it always holds its invariant, commits only to an address that proved itself, returns to
    an abandoned address only with the operator or within the budget, and asks the resolver
    no faster than its backoff allows. *)
From stdpp Require Import strings.
From S2P Require Import Prelude Util Text Ip EndpointState EndpointCache Types World Config Endpoint EndpointInv EndpointOps.

(** * Histories *)
Fixpoint do_ops (ops : list EndpointOp) (c : Ec) : Io (list EndpointOut * Ec) :=
  match ops with
  | [] => mret ([], c)
  | op :: ops => r ← do_op op c; rs ← do_ops ops r.2; mret (r.1 :: rs.1, rs.2)
  end.

Lemma runs_ops ops c w : ep_inv c → env_ok w →
  runs (do_ops ops c) w (λ r w', moves c w r.2 w' ∧ length r.1 = length ops).
Proof.
  revert c w. induction ops as [|op ops IH]; intros c w Hi Hw; cbn [do_ops].
  { apply runs_ret. split; [by apply moves_refl|done]. }
  apply runs_bind. eapply runs_mono; [by apply runs_op|]. intros [out c1] w1 Hs. pose proof (sp_moves _ _ _ _ _ Hs) as Hm.
  apply runs_bind. eapply runs_mono; [by apply IH; [apply Hm|apply Hm]|]. intros [outs c2] w2 [Hm2 Hl].
  apply runs_ret. cbn [fst snd] in *. split; [by eapply moves_trans|cbn; congruence].
Qed.

(** A step of a history: the call, its answer and the states around it. *)
Record Step := mkStep { hs_before : Ec; hs_op : EndpointOp; hs_out : EndpointOut; hs_after : Ec }.

(** What happened since a start, the latest step last. *)
Inductive history (spec : EndpointSpec) (opts : EndpointOptions) : World → list Step → Ec → World → Prop :=
| history_start now w c w' : env_ok w → bootstrap spec opts now w = Done (Some c, w') → history spec opts w [] c w'
| history_step w0 h c w op out c' w' : history spec opts w0 h c w → do_op op c w = Done ((out, c'), w') →
    history spec opts w0 (h ++ [mkStep c op out c']) c' w'.

Lemma runs_elim {A} (m : Io A) w (Q : A → World → Prop) a w' : runs m w Q → m w = Done (a, w') → Q a w'.
Proof. intros (b & w2 & E & HQ) E'. congruence. Qed.

Section histories.
Context (spec : EndpointSpec) (opts : EndpointOptions) (Hboot : boot_ok spec opts).

Lemma history_inv w0 h c w : history spec opts w0 h c w →
  ep_inv c ∧ env_ok w ∧ ec_spec c = spec ∧ ec_opts c = opts ∧
  ∃ tr, w_trace w = w_trace w0 ++ tr ∧ Forall (event_ok c w) tr.
Proof using Hboot.
  induction 1 as [now w c w' Hw E|w0 h c w op out c' w' _ (Hi & Hw & Es & Eo & tr & Ht & Htr) E].
  - pose proof (runs_elim _ _ _ _ _ (runs_bootstrap spec opts now w Hboot Hw) E) as [[Hw' Hl Ht] Hc].
    destruct (Hc c eq_refl) as (Hi & Es & Eo & _ & _). split_and!; try done. exists []. split; [by rewrite app_nil_r|constructor].
  - pose proof (sp_moves _ _ _ _ _ (runs_elim _ _ _ _ _ (runs_op op c w Hi Hw) E)) as [Hi' Es' Eo' Hw' Hl' (tr' & Ht' & Htr')].
    cbn [snd] in *. split_and!; [done|done|congruence|congruence|]. exists (tr ++ tr').
    split; [by rewrite Ht', Ht, app_assoc|].
    apply Forall_app_2; (eapply Forall_impl; [eassumption|]); intros e; by apply event_later.
Qed.

Lemma history_step_ok w0 h c w op out c' w' : history spec opts w0 h c w → do_op op c w = Done ((out, c'), w') →
  step_ok c w op (out, c') w'.
Proof using Hboot. intros H E. destruct (history_inv _ _ _ _ H) as (Hi & Hw & _). by apply (runs_elim _ _ _ _ _ (runs_op op c w Hi Hw) E). Qed.
End histories.

(** * Evidence *)
(** The times at which data arrived from [ip] while it was the address in use. *)
Definition data_times (ip : Ipv4Addr) (h : list Step) : list Z :=
  omap (λ s, match hs_op s with
             | OpActivity now true => if bool_decide (current_v4 (hs_before s) = Some ip) then Some now else None
             | _ => None end) h.
(** No two consecutive times more than [gap] apart. *)
Fixpoint spaced (gap : Z) (ts : list Z) : Prop :=
  match ts with
  | t :: (u :: _) as ts => u - t ≤ gap ∧ spaced gap ts
  | _ => True
  end.
Definition evidence (c : Ec) (h : list Step) (p : Probation) (ts : list Z) : Prop :=
  sublist ts (data_times (pb_candidate p) h) ∧ spaced (max_gap c) ts ∧
  head ts = pb_first_data p ∧ last ts = pb_last_data p ∧ pb_data_packets p ≤ zlen ts.

Lemma spaced_snoc gap ts t : spaced gap ts → (∀ u, last ts = Some u → t - u ≤ gap) → spaced gap (ts ++ [t]).
Proof.
  induction ts as [|x [|y ts] IH]; intros Hs Hl; [done|by split; [apply Hl|]|].
  destruct Hs as [Hxy Hs]. split; [done|]. by apply IH.
Qed.
Lemma data_times_app ip h s : data_times ip (h ++ [s]) = data_times ip h ++ data_times ip [s].
Proof. unfold data_times. apply omap_app. Qed.
Lemma evidence_weaken c c' h s p p' ts : evidence c h p ts → ec_opts c' = ec_opts c → same_evidence p p' → evidence c' (h ++ [s]) p' ts.
Proof.
  intros (Hs & Hg & Hh & Hl & Hn) Eo (E1 & _ & _ & E2 & E3 & E4). unfold evidence. rewrite E1, E2, E3, E4.
  split_and!; try done; [|unfold max_gap, policy in *; by rewrite Eo]. rewrite data_times_app. by apply sublist_inserts_r.
Qed.
Lemma evidence_counted c c' h out c2 p p' now ts : evidence c h p ts → ec_opts c' = ec_opts c →
  current_v4 c = Some (pb_candidate p) → counted c now p p' →
  ∃ ts', evidence c' (h ++ [mkStep c (OpActivity now true) out c2]) p' ts'.
Proof.
  intros (Hs & Hg & Hh & Hl & Hn) Eo Hcur (E1 & _ & _ & _ & E2 & Hcase).
  assert (data_times (pb_candidate p) [mkStep c (OpActivity now true) out c2] = [now]) as Hd
    by (unfold data_times; cbn; by rewrite bool_decide_true).
  assert (max_gap c' = max_gap c) as Eg by (unfold max_gap, policy; by rewrite Eo).
  unfold evidence. rewrite E1, E2, Eg, data_times_app, Hd. destruct Hcase as [[Hf Hp]|(Hp & Hf & Hgap)]; rewrite Hp.
  - exists [now]. rewrite Hf. split_and!; try done. by apply sublist_inserts_l.
  - exists (ts ++ [now]). split_and!.
    + by apply sublist_app.
    + apply spaced_snoc; [done|]. intros u Hu. apply Hgap. congruence.
    + destruct ts as [|t ts]; cbn in *; destruct Hf as [[Hf Hne]|[Hf1 Hf2]]; congruence.
    + by rewrite last_snoc.
    + unfold saturating_add. rewrite length_app. cbn. lia.
Qed.

Lemma history_evidence spec opts w0 h c w : boot_ok spec opts → history spec opts w0 h c w →
  ∀ p, ec_probation c = Some p → ∃ ts, evidence c h p ts.
Proof.
  intros Hb. induction 1 as [now w c w' Hw E|w0 h c w op out c' w' H IH E]; intros p' Hp'.
  - pose proof (runs_elim _ _ _ _ _ (runs_bootstrap spec opts now w Hb Hw) E) as [_ Hc].
    destruct (Hc c eq_refl) as (_ & _ & _ & Hn & _). congruence.
  - destruct (history_step_ok _ _ Hb _ _ _ _ _ _ _ _ H E) as [Hm _ _ Hev _ _]. cbn [snd] in *.
    pose proof (mv_opts _ _ _ _ Hm) as Eo.
    destruct (Hev p' Hp') as [(E1 & E2 & E3 & _)|(p & Hp & Hc)].
    + exists []. unfold evidence. rewrite E1, E2, E3. split_and!; try done. apply sublist_nil_l.
    + destruct (IH p Hp) as (ts & Hts). destruct Hc as [Hc|(now & -> & Hcur & Hc)].
      * exists ts. by eapply evidence_weaken.
      * by eapply evidence_counted.
Qed.

(** * Returns *)
(** A switch to an address that DNS does not offer. *)
Definition is_return (s : Step) : bool :=
  match hs_out s with
  | OutSwitch (Some sw) => match (sw_to sw).1 with V4 t => negb (bool_decide (t ∈ ec_candidates (hs_after s))) | V6 _ => false end
  | _ => false
  end.
(** The operator's call for a new address, while the committed one works. *)
Definition is_request (s : Step) : bool := asks_change (hs_before s) (hs_op s).
Definition is_charge (e : Event) : bool := match e with EvWrite BudgetFile _ => true | _ => false end.
Fixpoint count {A} (f : A → bool) (l : list A) : Z := match l with [] => 0 | x :: l => (if f x then 1 else 0) + count f l end.
(** A charge made in advance: for a probation that was authorized. *)
Definition pending (c : Ec) : Z :=
  match ec_probation c with
  | Some p => if pb_rollback_authorized p && negb (pb_direct_return p) then 1 else 0
  | None => 0
  end.

Lemma count_app {A} (f : A → bool) l k : count f (l ++ k) = count f l + count f k.
Proof. induction l as [|x l IH]; cbn; lia. Qed.
Lemma count_nonneg {A} (f : A → bool) l : 0 ≤ count f l.
Proof. induction l as [|y l IH]; cbn; [lia|destruct (f y); lia]. Qed.
Lemma count_pos {A} (f : A → bool) l x : x ∈ l → f x = true → 1 ≤ count f l.
Proof.
  induction 1 as [x l|x y l _ IH]; cbn; intros Hf; [rewrite Hf; pose proof (count_nonneg f l); lia|].
  specialize (IH Hf). destruct (f y); lia.
Qed.
Lemma paid_count w w' tr : paid w w' → w_trace w' = w_trace w ++ tr → 1 ≤ count is_charge tr.
Proof.
  intros (tr' & t & E & Ht) E'. rewrite E' in E. apply app_inv_head in E as ->. by eapply count_pos.
Qed.
Lemma pending_bounds c : 0 ≤ pending c ≤ 1.
Proof. unfold pending. destruct (ec_probation c); [|lia]. destruct (_ && _); lia. Qed.

Lemma credit_nonneg c : 0 ≤ credit c.
Proof. unfold credit. destruct (ec_attended_cutover c), (ec_probation c) as [p|]; try destruct (pb_direct_return p); lia. Qed.

(** A step spends no more than it charges. *)
Lemma pending_step c w op out c' w' tr : step_ok c w op (out, c') w' → w_trace w' = w_trace w ++ tr →
  pending c' ≤ pending c + count is_charge tr.
Proof.
  intros [_ _ _ Hev Hau _] Ht. cbn [snd] in *. pose proof (pending_bounds c). pose proof (count_nonneg is_charge tr).
  unfold pending at 1. destruct (ec_probation c') as [p'|] eqn:Hp'; [|lia].
  destruct (pb_rollback_authorized p') eqn:Ha; cbn [andb]; [|lia]. destruct (pb_direct_return p') eqn:Hd; cbn [negb]; [lia|].
  destruct (Hau p' Hp' Ha) as [(p & Hp & Hmr)|Hpd]; [|pose proof (paid_count _ _ _ Hpd Ht); lia].
  assert (pb_direct_return p = false) as Hdp.
  { destruct (Hev p' Hp') as [(_ & _ & _ & ?)|(q & Hq & Hc)]; [congruence|]. assert (q = p) as -> by congruence.
    destruct Hc as [(_ & _ & ? & _)|(now & _ & _ & (_ & _ & ? & _))]; congruence. }
  destruct Hmr as [?|Hap]; [congruence|]. unfold pending. rewrite Hp, Hap, Hdp. cbn. lia.
Qed.
Lemma pending_quits c c' : quits c c' → pending c' ≤ pending c.
Proof. pose proof (pending_bounds c). intros [E|E]; unfold pending in *; rewrite E; [done|apply H]. Qed.
Lemma return_step c w op out c' w' tr : step_ok c w op (out, c') w' → w_trace w' = w_trace w ++ tr →
  is_return (mkStep c op out c') = true → 1 + pending c' + credit c' ≤ pending c + credit c + (if asks_change c op then 1 else 0) + count is_charge tr.
Proof.
  intros [_ Hcr _ _ _ Hsw] Ht Hr. cbn [fst snd] in *. pose proof (count_nonneg is_charge tr).
  unfold is_return in Hr. cbn [hs_out hs_after hs_before] in Hr. destruct out as [|[sw|]| | |]; try done.
  destruct Hsw as (_ & _ & _ & _ & Hq & t & Et & Hd). rewrite Et in Hr. cbn [fst] in Hr.
  apply negb_true_iff, bool_decide_eq_false in Hr. pose proof (pending_quits _ _ Hq).
  destruct Hd as [?|[Hg [[Hat|(p & Hp' & Ha & Hd & Hn)]|Hpd]]]; [done|destruct (asks_change c op); lia| |pose proof (paid_count _ _ _ Hpd Ht); lia].
  unfold pending in *. rewrite Hn, Hp', Ha, Hd. cbn. lia.
Qed.

Lemma history_budget spec opts w0 h c w : boot_ok spec opts → history spec opts w0 h c w →
  ∃ tr, w_trace w = w_trace w0 ++ tr ∧ count is_return h + pending c + credit c ≤ count is_charge tr + count is_request h.
Proof.
  intros Hb. induction 1 as [now w c w' Hw E|w0 h c w op out c' w' H (tr & Ht & Hc) E].
  - pose proof (runs_elim _ _ _ _ _ (runs_bootstrap spec opts now w Hb Hw) E) as [[_ _ Ht] Hc].
    destruct (Hc c eq_refl) as (_ & _ & _ & Hn & Hat). exists []. rewrite app_nil_r. split; [done|].
    unfold pending, credit. by rewrite Hn, Hat.
  - pose proof (history_step_ok _ _ Hb _ _ _ _ _ _ _ _ H E) as Hs.
    destruct (mv_trace _ _ _ _ (sp_moves _ _ _ _ _ Hs)) as (tr' & Ht' & _).
    exists (tr ++ tr'). split; [by rewrite Ht', Ht, app_assoc|]. rewrite !count_app. cbn [count].
    unfold is_request at 2. cbn [hs_before hs_op].
    pose proof (pending_step _ _ _ _ _ _ _ Hs Ht'). pose proof (sp_credit _ _ _ _ _ Hs) as Hcr. cbn [snd] in Hcr.
    destruct (is_return _) eqn:Er; [|lia]. pose proof (return_step _ _ _ _ _ _ _ Hs Ht' Er). lia.
Qed.











(** * The properties *)
(** C7. Whatever the resolver, the clocks and the file system answer, a controller that starts
    from a valid host name returns from every call of every sequence, and keeps its
    invariant: the address in use and the committed one pass the address policy and go to
    the configured port, the candidates are at most eight distinct accepted addresses, a
    probation is for another address than the committed one.  Every state file it writes is
    within the reader's size and accepted by the reader: a cache file always, a budget file
    at every time from a reading of the wall clock on that was made before the write. *)
Theorem endpoint_invariant (spec : EndpointSpec) (opts : EndpointOptions) (now : Z) (ops : list EndpointOp) (w : World)
    (Hboot : boot_ok spec opts) (Hw : env_ok w) :
  ∃ o w1, bootstrap spec opts now w = Done (o, w1) ∧ ∀ c, o = Some c →
  ∃ outs c' w', do_ops ops c w1 = Done ((outs, c'), w') ∧ length outs = length ops ∧ ep_inv c' ∧
    ec_spec c' = spec ∧ ec_opts c' = opts ∧
    ∃ tr, w_trace w' = w_trace w ++ tr ∧ Forall (event_ok c' w') tr.
Proof.
  destruct (runs_bootstrap spec opts now w Hboot Hw) as (o & w1 & E & [Hw1 _ Ht1] & Hc). exists o, w1. split; [done|].
  intros c ->. destruct (Hc c eq_refl) as (Hi & Es & Eo & _).
  destruct (runs_ops ops c w1 Hi Hw1) as ([outs c'] & w' & E' & [Hi' Es' Eo' _ _ (tr & Ht & Htr)] & Hl). cbn [fst snd] in *.
  exists outs, c', w'. split_and!; [done|done|done|congruence|congruence|]. exists tr. split; [congruence|].
  eapply Forall_impl; [exact Htr|]. intros e. by apply event_later.
Qed.

(** C8. A committed address is only replaced, while the policy is on, by one that proved
    itself: the call is an operator's promotion of the address in use, which is
    authenticated, and the history holds at least three data packets received from that
    address while it was in use, no two consecutive ones further apart than the allowed gap,
    spanning the probation time and the last one recent. *)
Theorem commitment_earned (spec : EndpointSpec) (opts : EndpointOptions) (w0 : World) (h : list Step) (c : Ec) (w : World)
    (op : EndpointOp) (out : EndpointOut) (c' : Ec) (w' : World) (old : Ipv4Addr)
    (Hboot : boot_ok spec opts) (Hh : history spec opts w0 h c w) (E : do_op op c w = Done ((out, c'), w'))
    (Hen : fp_enabled (op_fallback opts) = true)
    (Hold : ec_committed_good c = Some old) (Hnew : ec_committed_good c' ≠ Some old) :
  ∃ ip now ts t0 t1, op = OpPromote ip now ∧ out = OutPromotion (Promoted old) ∧ ec_committed_good c' = Some ip ∧
    current_v4 c = Some ip ∧ ec_current_authenticated c = true ∧
    sublist ts (data_times ip h) ∧ MIN_PROMOTION_DATA_PACKETS ≤ zlen ts ∧ spaced (max_gap c) ts ∧
    head ts = Some t0 ∧ last ts = Some t1 ∧
    fp_probation_ms (op_fallback opts) ≤ saturating_sub t1 t0 ∧ saturating_sub now t1 ≤ max_gap c.
Proof.
  destruct (history_inv _ _ Hboot _ _ _ _ Hh) as (Hi & _ & _ & Eo & _).
  destruct (sp_committed _ _ _ _ _ (history_step_ok _ _ Hboot _ _ _ _ _ _ _ _ Hh E)) as [Ec|[(_ & _ & Hwhy)|(ip & now & p & -> & Eout & Hp & Hc & Hcur & Ha & Hpr & Hg)]];
    cbn [fst snd] in *; [congruence| |].
  { unfold enabled, policy in Hwhy. rewrite Eo in Hwhy. destruct Hwhy; congruence. }
  destruct (history_evidence _ _ _ _ _ _ Hboot Hh p Hp) as (ts & Hs & Hsp & Hhd & Hl & Hn). destruct Hpr as (P1 & P2 & P3).
  unfold MIN_PROMOTION_DATA_PACKETS in *.
  destruct ts as [|t0 ts]; [cbn in Hn; lia|]. destruct (last (t0 :: ts)) as [t1|] eqn:El; [|by apply last_None in El].
  unfold evidence_span, evidence_idle, policy in P2, P3. rewrite <-Hhd, <-Hl, Eo in P2. rewrite <-Hl in P3. cbn in P2.
  destruct (ei_probation _ Hi p Hp) as (_ & Hr & _).
  exists ip, now, (t0 :: ts), t0, t1. rewrite Hc in Hs. split_and!; try done; [rewrite Eout; congruence|lia].
Qed.

(** C9. Over any history, a switch to an address that DNS does not offer goes to the
    committed address, and such switches are at most as many as the charges written to the
    budget file and the operator's calls for a new address (made while the committed one was
    in use and authenticated) together: without the operator no old address is used again
    for free. *)
Theorem returns_within_budget (spec : EndpointSpec) (opts : EndpointOptions) (w0 : World) (h : list Step) (c : Ec) (w : World)
    (Hboot : boot_ok spec opts) (Hh : history spec opts w0 h c w) :
  (∃ tr, w_trace w = w_trace w0 ++ tr ∧ count is_return h ≤ count is_charge tr + count is_request h) ∧
  ∀ now reason sw c' w' t, do_op (OpCycle now reason) c w = Done ((OutSwitch (Some sw), c'), w') →
    (sw_to sw).1 = V4 t → t ∉ ec_candidates c' → ec_committed_good c = Some t.
Proof.
  split.
  - destruct (history_budget _ _ _ _ _ _ Hboot Hh) as (tr & Ht & Hc). exists tr. split; [done|]. pose proof (pending_bounds c). pose proof (credit_nonneg c). lia.
  - intros now reason sw c' w' t E Et Hn.
    destruct (sp_switch _ _ _ _ _ (history_step_ok _ _ Hboot _ _ _ _ _ _ _ _ Hh E)) as (_ & _ & _ & _ & _ & t' & Et' & Hd).
    rewrite Et' in Et. cbn in Et. injection Et as ->. by destruct Hd as [?|[? _]].
Qed.


(** * A concrete history *)
Fixpoint steps_of (ops : list EndpointOp) (c : Ec) : Io (list Step * Ec) :=
  match ops with
  | [] => mret ([], c)
  | op :: ops => r ← do_op op c; rs ← steps_of ops r.2; mret (mkStep c op r.1 r.2 :: rs.1, rs.2)
  end.
Lemma history_steps spec opts w0 ops h c w ss c' w' : history spec opts w0 h c w → steps_of ops c w = Done ((ss, c'), w') →
  history spec opts w0 (h ++ ss) c' w'.
Proof.
  revert h c w ss. induction ops as [|op ops IH]; intros h c w ss H E; cbn [steps_of] in E.
  { injection E as <- <- <-. by rewrite app_nil_r. }
  apply io_bind_inv in E as ([out c1] & w1 & E1 & E). apply io_bind_inv in E as ([ss' c2] & w2 & E2 & E).
  injection E as <- <- <-. cbn [fst snd] in *. rewrite cons_middle, app_assoc. by eapply IH; [eapply history_step|].
Qed.

Definition demo_spec : EndpointSpec := Hostname (str "relay.example.org") 443.
Definition demo_opts : EndpointOptions := mkEndpointOptions false true None 1000 60000 demo_policy.
Lemma demo_boot_ok : boot_ok demo_spec demo_opts.
Proof. constructor; [|apply demo_policy_ok|done]. exists (str "relay.example.org"), 443. by split_and!. Qed.

(** The first address authenticates and fails; the next one is used, authenticates, and
    carries data for the probation time. *)
Definition demo_ops : list EndpointOp :=
  [OpAuthenticated; OpCycle 10 AttemptFailed; OpAuthenticated] ++
  ((λ i : nat, OpActivity (1000 + 4000 * Z.of_nat i) true) <$> seq 0 9).

(** DNS moves from one address to another after the start. *)
Definition moving_world : World :=
  set_w_host (set_h_dns (λ i, Some (mkDnsAnswer (if bool_decide (i = O) then [[8; 8; 8; 8]] else [[9; 9; 9; 9]]) 60)) (w_host demo_world)) demo_world.
Lemma moving_world_ok : env_ok moving_world.
Proof.
  destruct demo_world_ok as [H1 H2 H3 H4 H5 H6 H7 H8 H9]. constructor; try done. intros i a. cbn. intros [= <-]. cbn.
  split; [|unfold is_u; lia]. case_bool_decide; repeat constructor; unfold is_u; lia.
Qed.
(** The new address authenticates and fails: the old one is tried again, for a charge. *)
Definition return_ops : list EndpointOp :=
  [OpAuthenticated; OpCycle 70000 SessionLost; OpAuthenticated; OpCycle 80000 AttemptFailed].

Definition demo_run (w : World) (ops : list EndpointOp) : option (list Step * Ec * World) :=
  match bootstrap demo_spec demo_opts 0 w with
  | Done (Some c, w1) => match steps_of ops c w1 with Done ((ss, c'), w') => Some (ss, c', w') | Panic => None end
  | _ => None
  end.
Lemma demo_run_history w ops ss c w' : env_ok w → demo_run w ops = Some (ss, c, w') → history demo_spec demo_opts w ss c w'.
Proof.
  intros Hw E. unfold demo_run in E. destruct (bootstrap _ _ _ w) as [[[c1|] w1]|] eqn:Eb; [|done|done].
  destruct (steps_of ops c1 w1) as [[[ss' c2] w2]|] eqn:Es; [|done]. injection E as <- <- <-.
  by apply (history_steps _ _ _ ops [] c1 w1); [eapply history_start|].
Qed.

(** What these runs compute. *)
Definition boots (w : World) : bool :=
  match bootstrap demo_spec demo_opts 0 w with Done (Some _, _) => true | _ => false end.
Definition promotes : bool :=
  match demo_run demo_world demo_ops with
  | Some (_, c, w) => bool_decide (ec_committed_good c = Some [8; 8; 8; 8]) &&
      match do_op (OpPromote [9; 9; 9; 9] 34000) c w with
      | Done ((OutPromotion (Promoted old), c'), _) => bool_decide (old = [8; 8; 8; 8]) && bool_decide (ec_committed_good c' = Some [9; 9; 9; 9])
      | _ => false end
  | None => false end.
Definition returns : bool :=
  match demo_run moving_world return_ops with Some (h, _, _) => (count is_return h =? 1) && (count is_request h =? 0) | None => false end.
Lemma demo_boots : boots demo_world = true.
Proof. vm_compute. reflexivity. Qed.
Lemma demo_promotes : promotes = true.
Proof. vm_compute. reflexivity. Qed.
Lemma demo_returns : returns = true.
Proof. vm_compute. reflexivity. Qed.

Lemma endpoint_invariant_witness :
  ∃ c w1 outs c' w', bootstrap demo_spec demo_opts 0 demo_world = Done (Some c, w1) ∧ do_ops demo_ops c w1 = Done ((outs, c'), w') ∧
    length outs = length demo_ops ∧ ep_inv c' ∧ ∃ tr, w_trace w' = w_trace demo_world ++ tr ∧ Forall (event_ok c' w') tr.
Proof.
  destruct (endpoint_invariant demo_spec demo_opts 0 demo_ops demo_world demo_boot_ok demo_world_ok) as (o & w1 & E & H).
  pose proof demo_boots as Hb. unfold boots in Hb. rewrite E in Hb. destruct o as [c|]; [|discriminate Hb].
  destruct (H c eq_refl) as (outs & c' & w' & E' & Hl & Hi & _ & _ & tr & Ht & Htr).
  exists c, w1, outs, c', w'. split_and!; [exact E|exact E'|exact Hl|exact Hi|].
  exists tr. split; [exact Ht|exact Htr].
Defined.

Lemma commitment_earned_witness :
  ∃ h c w c' w', demo_run demo_world demo_ops = Some (h, c, w) ∧
    do_op (OpPromote [9; 9; 9; 9] 34000) c w = Done ((OutPromotion (Promoted [8; 8; 8; 8]), c'), w') ∧
    ∃ ts, sublist ts (data_times [9; 9; 9; 9] h) ∧ 3 ≤ zlen ts ∧ spaced (max_gap c) ts.
Proof.
  pose proof demo_promotes as Hp. unfold promotes in Hp.
  destruct (demo_run demo_world demo_ops) as [[[h c] w]|] eqn:Er; [|discriminate Hp].
  apply andb_true_iff in Hp as [Hold Hp]. apply bool_decide_eq_true in Hold.
  destruct (do_op (OpPromote [9; 9; 9; 9] 34000) c w) as [[[out c'] w']|] eqn:E; [|discriminate Hp].
  destruct out as [| | |[old| | | | | | |]|]; try discriminate Hp.
  apply andb_true_iff in Hp as [->%bool_decide_eq_true Hnew%bool_decide_eq_true].
  exists h, c, w, c', w'. split; [reflexivity|]. split; [exact E|].
  destruct (commitment_earned demo_spec demo_opts demo_world h c w (OpPromote [9; 9; 9; 9] 34000)
    (OutPromotion (Promoted [8; 8; 8; 8])) c' w' [8; 8; 8; 8] demo_boot_ok (demo_run_history _ _ _ _ _ demo_world_ok Er) E eq_refl Hold)
    as (ip & now & ts & t0 & t1 & Eop & _ & _ & _ & _ & Hs & Hn & Hsp & _); [rewrite Hnew; discriminate|].
  injection Eop as <- _. exists ts. split; [exact Hs|]. split; [exact Hn|exact Hsp].
Defined.

Lemma returns_within_budget_witness :
  ∃ h c w tr, demo_run moving_world return_ops = Some (h, c, w) ∧ count is_return h = 1 ∧
    count is_request h = 0 ∧ w_trace w = w_trace moving_world ++ tr ∧ 1 ≤ count is_charge tr.
Proof.
  pose proof demo_returns as Hp. unfold returns in Hp.
  destruct (demo_run moving_world return_ops) as [[[h c] w]|] eqn:Er; [|discriminate Hp].
  destruct (proj1 (returns_within_budget demo_spec demo_opts moving_world h c w demo_boot_ok (demo_run_history _ _ _ _ _ moving_world_ok Er)))
    as (tr & Ht & Hc).
  apply andb_true_iff in Hp as [H1%Z.eqb_eq H2%Z.eqb_eq].
  exists h, c, w, tr. split_and!; [reflexivity|exact H1|exact H2|exact Ht|lia].
Defined.

