(* ===== verification/CommandLineSpec.v ===== *)
(** Theorems about the command line, the configuration file and the log of the arguments
    ([src/src/config.rs], [src/src/main.rs]). *)
From stdpp Require Import strings.
From S2P Require Import Prelude Text NetText Ip Types Auth Cipher World Config LowerLevel EndpointState EndpointCache Endpoint EndpointInv CommandLine.

(** * Results *)
Lemma Res_bind_Ok {A B} (x : Res A) (f : A → Res B) b : (x ≫= f) = Ok b → ∃ a, x = Ok a ∧ f a = Ok b.
Proof. destruct x as [a|]; [|done]. intros H. by exists a. Qed.
Lemma require_Ok b e u : require b e = Ok u → b = true.
Proof. by destruct b. Qed.
Lemma ok_or_Ok {A} e (o : option A) a : ok_or e o = Ok a → o = Some a.
Proof. destruct o; [|done]. by intros [= ->]. Qed.
Lemma optional_Ok {A B} (f : A → Res B) o r : optional f o = Ok r →
  (o = None ∧ r = None) ∨ ∃ a b, o = Some a ∧ r = Some b ∧ f a = Ok b.
Proof. destruct o as [a|]; cbn; [|intros [= <-]; auto]. intros (b & E & [= <-])%Res_bind_Ok. right. by exists a, b. Qed.
Lemma collect_Ok {A B} (f : A → Res B) l bs : collect_ok f l = Ok bs → Forall2 (λ a b, f a = Ok b) l bs.
Proof.
  revert bs. induction l as [|a l IH]; intros bs; cbn; [by intros [= <-]|].
  intros (b & Hb & (bs' & Hbs & [= <-])%Res_bind_Ok)%Res_bind_Ok. constructor; [done|by apply IH].
Qed.
(** Takes an accepted sequence of checks apart. *)
Ltac res_inv :=
  repeat match goal with
  | H : Ok _ = Ok _ |- _ => injection H as H; try subst
  | H : Err _ = Ok _ |- _ => discriminate H
  | H : require _ _ = Ok _ |- _ => apply require_Ok in H
  | H : ok_or _ _ = Ok _ |- _ => apply ok_or_Ok in H
  | H : mbind (M := Res) _ _ = Ok _ |- _ => apply Res_bind_Ok in H as (? & ? & H)
  | H : (let '(_, _) := ?p in _) = Ok _ |- _ => destruct p
  | H : (if ?b then _ else _) = Ok _ |- _ => let E := fresh "E" in destruct b eqn:E
  end.

(** * The configuration file *)
Definition blanks (l : list Z) : Prop := Forall (λ c, is_blank c = true) l.
Definition no_blank (l : list Z) : Prop := Forall (λ c, is_blank c = false) l.
(** A text with no blank at its ends. *)
Definition tight (l : list Z) : Prop := (∃ c, head l = Some c ∧ is_blank c = false) ∧ ∃ c, last l = Some c ∧ is_blank c = false.

Lemma trim_start_blanks p l : blanks p → trim_start (p ++ l) = trim_start l.
Proof. induction 1 as [|c p Hc _ IH]; [done|]. cbn. by rewrite Hc. Qed.
Lemma trim_start_tight l : (∃ c, head l = Some c ∧ is_blank c = false) → trim_start l = l.
Proof. intros (c & E & Hc). destruct l as [|d l]; [done|]. injection E as ->. cbn. by rewrite Hc. Qed.
Lemma trim_end_blanks p : blanks p → trim_end p = [].
Proof. induction 1 as [|c p Hc _ IH]; [done|]. cbn. by rewrite IH, Hc. Qed.
Lemma trim_end_tight l : ∀ p, (∃ c, last l = Some c ∧ is_blank c = false) → blanks p → trim_end (l ++ p) = l.
Proof.
  induction l as [|a l IH]; intros p (c & E & Hc) Hp; [done|]. cbn [app trim_end]. destruct l as [|b l].
  - injection E as ->. cbn [app]. by rewrite trim_end_blanks, Hc.
  - rewrite last_cons_cons in E. rewrite IH by eauto. by rewrite andb_false_r.
Qed.
Lemma trim_tight p l q : blanks p → tight l → blanks q → trim_blanks (p ++ l ++ q) = l.
Proof.
  intros Hp [Hh Hl] Hq. unfold trim_blanks. rewrite trim_start_blanks by done. rewrite trim_start_tight; [by apply trim_end_tight|].
  destruct Hh as (c & E & Hc). destruct l; [done|]. by exists c.
Qed.
Lemma trim_all p : blanks p → trim_blanks p = [].
Proof. intros Hp. unfold trim_blanks. rewrite <-(app_nil_r p), trim_start_blanks by done. done. Qed.
Lemma split_blank_none l : no_blank l → split_blank l = None.
Proof. induction 1 as [|c l Hc _ IH]; [done|]. cbn. by rewrite Hc, IH. Qed.
Lemma split_blank_at l c r : no_blank l → is_blank c = true → split_blank (l ++ c :: r) = Some (l, c :: r).
Proof. intros Hl Hc. induction Hl as [|d l Hd _ IH]; cbn; [by rewrite Hc|]. by rewrite Hd, IH. Qed.

(** Lines of a configuration file: blanks, a comment, an option, an option and its value. *)
Definition option_word (o : list Z) : Prop := head o = Some 45 ∧ no_blank o ∧ o ≠ CONF_FILE.
Inductive conf_line : list Z → list (list Z) → Prop :=
| line_blank p : blanks p → conf_line p []
| line_comment p t : blanks p → conf_line (p ++ 35 :: t) []
| line_flag p o q : blanks p → option_word o → blanks q → conf_line (p ++ o ++ q) [o]
| line_value p o g v q : blanks p → option_word o → blanks g → g ≠ [] → tight v → v ≠ CONF_FILE → blanks q →
    conf_line (p ++ o ++ g ++ v ++ q) [o; v].

Lemma option_word_tight o : option_word o → tight o.
Proof.
  intros (Hh & Hn & _). split; [by exists 45|]. destruct (last o) as [c|] eqn:E; [|by apply last_None in E; subst o].
  exists c. split; [done|]. apply last_Some_elem_of in E. by apply (proj1 (Forall_forall _ _) Hn) in E.
Qed.
Lemma tight_app o m v : tight o → tight v → tight (o ++ m ++ v).
Proof.
  intros [(c & Hc & Bc) _] [_ (d & Hd & Bd)]. split.
  - exists c. split; [|done]. by destruct o.
  - exists d. split; [|done]. rewrite !last_app. by rewrite Hd.
Qed.
Lemma starts_dash o l : head o = Some 45 → starts_with [45] (o ++ l) = true ∧ starts_with [35] (o ++ l) = false ∧ o ++ l ≠ [].
Proof. destruct o as [|c o]; [done|]. by intros [= ->]. Qed.
Lemma parse_conf_line_ok line toks : conf_line line toks → parse_conf_line line = Ok toks ∧ conf_tokens toks = Ok toks.
Proof.
  intros H. unfold parse_conf_line. destruct H as [p Hp|p t Hp|p o q Hp Ho Hq|p o g v q Hp Ho Hg Hn Hv Hc Hq].
  - by rewrite trim_all.
  - split; [|done]. unfold trim_blanks. rewrite trim_start_blanks, trim_start_tight by (done || by exists 35). cbn [trim_end].
    change (is_blank 35) with false. cbn [andb]. by rewrite orb_true_r.
  - rewrite trim_tight by (done || by apply option_word_tight). destruct Ho as (Hh & Hb & Hc). destruct (starts_dash o [] Hh) as (E1 & E2 & E3).
    rewrite app_nil_r in *. rewrite bool_decide_false, E2, E1, split_blank_none by done. split; [done|]. cbn. by rewrite bool_decide_false.
  - replace (o ++ g ++ v ++ q) with ((o ++ g ++ v) ++ q) by by rewrite <-!app_assoc.
    rewrite trim_tight by (done || by apply tight_app; [apply option_word_tight|]). destruct Ho as (Hh & Hb & Hco). destruct (starts_dash o (g ++ v) Hh) as (E1 & E2 & E3).
    rewrite bool_decide_false, E2, E1 by done. cbn [orb negb]. destruct g as [|c g]; [done|]. apply Forall_cons in Hg as [Hc0 Hg].
    cbn [app]. rewrite split_blank_at by done. split; [|by cbn; rewrite !bool_decide_false]. do 2 f_equal.
    cbn [trim_start]. rewrite Hc0, trim_start_blanks by done. f_equal. by apply trim_start_tight, Hv.
Qed.

(** A text: lines that end, and what follows the last of them, nothing or a line with no end. *)
Definition unlines (ls : list (list Z)) : list Z := ls ≫= λ l, l ++ [10].
Definition unended (tail : list Z) : list (list Z) := if bool_decide (tail = []) then [] else [tail].
Lemma lines_unlines ls tail : Forall (λ l, 10 ∉ l) ls → 10 ∉ tail → text_lines (unlines ls ++ tail) = (strip_last 13 <$> ls) ++ unended tail.
Proof.
  intros H Ht. unfold text_lines. assert (split_on 10 (unlines ls ++ tail) = ls ++ [tail]) as ->.
  { induction H as [|l ls Hl _ IH]; [by apply split_on_none|]. change (unlines (l :: ls)) with ((l ++ [10]) ++ unlines ls). rewrite <-!app_assoc. cbn [app]. by rewrite split_on_app, IH. }
  clear H. induction ls as [|l ls IH]; [by unfold unended; cbn; case_bool_decide|]. cbn [app fmap list_fmap]. rewrite <-IH. by destruct ls.
Qed.
Lemma conf_lines_ok ls tss : Forall2 conf_line ls tss → conf_lines ls = Ok (mjoin tss).
Proof.
  induction 1 as [|l ts ls tss Hl _ IH]; [done|]. cbn [conf_lines]. destruct (parse_conf_line_ok l ts Hl) as [E1 E2].
  rewrite E1. cbn. rewrite E2. cbn. by rewrite IH.
Qed.
Lemma conf_tokens_clean toks r : conf_tokens toks = Ok r → r = toks ∧ CONF_FILE ∉ r.
Proof.
  revert r. induction toks as [|t toks IH]; intros r; cbn [conf_tokens]; [intros [= <-]; by split; [|apply not_elem_of_nil]|].
  destruct (bool_decide_reflect (t = CONF_FILE)); [done|]. intros (r' & [-> Hr]%IH & [= <-])%Res_bind_Ok. split; [done|]. by apply not_elem_of_cons.
Qed.
Lemma conf_lines_clean ls r : conf_lines ls = Ok r → CONF_FILE ∉ r.
Proof.
  revert r. induction ls as [|l ls IH]; intros r; cbn [conf_lines]; [intros [= <-]; apply not_elem_of_nil|].
  intros (ts & _ & (ts' & [-> Ht]%conf_tokens_clean & (r' & Hr%IH & [= <-])%Res_bind_Ok)%Res_bind_Ok)%Res_bind_Ok. by apply not_elem_of_app.
Qed.
Lemma take_conf_none args conf : CONF_FILE ∉ args → take_conf_file args conf = Ok (args, conf).
Proof.
  induction args as [|a args IH]; cbn [take_conf_file]; [done|]. intros [Ha Hs]%not_elem_of_cons. rewrite bool_decide_false by done. by rewrite IH.
Qed.
Lemma take_conf_at pre path post : CONF_FILE ∉ pre → CONF_FILE ∉ post → starts_with [45] path = false →
  take_conf_file (pre ++ CONF_FILE :: path :: post) None = Ok (pre ++ post, Some path).
Proof.
  intros Hpre Hpost Hp. induction pre as [|a pre IH]; cbn [app take_conf_file].
  - rewrite bool_decide_true, Hp by done. by apply take_conf_none.
  - apply not_elem_of_cons in Hpre as [Ha Hpre]. rewrite bool_decide_false by done. by rewrite IH.
Qed.
Lemma take_conf_clean n : ∀ args conf r, (length args ≤ n)%nat → take_conf_file args conf = Ok r → CONF_FILE ∉ r.1.
Proof.
  induction n as [|n IH]; intros [|a args] conf r Hn; cbn [length] in Hn; try lia; cbn [take_conf_file]; [intros [= <-]; apply not_elem_of_nil..|].
  destruct (bool_decide_reflect (a = CONF_FILE)).
  - destruct conf; [done|]. destruct args as [|path args]; [done|]. destruct (starts_with _ _); [done|]. apply IH. cbn in Hn. lia.
  - intros (r' & Hr%IH & [= <-])%Res_bind_Ok; [|lia]. by apply not_elem_of_cons.
Qed.

(** Only a file that the command line names after the token is read. *)
Lemma take_conf_reads n : ∀ args conf r path, (length args ≤ n)%nat → take_conf_file args conf = Ok (r, Some path) →
  conf = Some path ∨ ∃ pre post, args = pre ++ CONF_FILE :: path :: post.
Proof.
  induction n as [|n IH]; intros [|a args] conf r path Hn; cbn [length] in Hn; try lia; cbn [take_conf_file]; [by intros [= _ ->]; left..|].
  destruct (bool_decide_reflect (a = CONF_FILE)) as [->|Ha].
  - destruct conf; [done|]. destruct args as [|p args]; [done|]. destruct (starts_with _ _); [done|]. intros [[= ->]|(pre & post & ->)]%IH; [..|cbn in Hn; lia].
    + right. by exists [], args.
    + right. by exists (CONF_FILE :: p :: pre), post.
  - intros ([r' c'] & Hr & [= <- ->])%Res_bind_Ok. apply IH in Hr as [?|(pre & post & ->)]; [by left| |lia]. right. by exists (a :: pre), post.
Qed.
Lemma expand_reads read1 read2 args : (∀ pre path post, args = pre ++ CONF_FILE :: path :: post → read1 path = read2 path) →
  expand_conf_file read1 args = expand_conf_file read2 args.
Proof.
  intros H. unfold expand_conf_file. destruct (take_conf_file args None) as [[out [path|]]|e] eqn:E; [|done..]. cbn [mbind Res_bind].
  apply (take_conf_reads (length args)) in E as [?|(pre & post & ->)]; [done| |done]. unfold read_to_string. by rewrite (H pre path post).
Qed.

(** C27. A configuration file is the same as its options on the command line: whatever the
    spacing, the comments, the empty lines and the line ends, a missing one at the end of the
    file included, its options follow the others in their order.  Files do not nest: the
    token [--conf-file] is in no result of the expansion, and the result depends on no file but
    the one that follows that token on the command line.  A token [--conf-file=path] is not the
    option for the expansion: like any other token it is left where it is, and no file is read
    for it. *)
Theorem conf_file_is_options (read_file : list Z → option (list Z)) (pre post : list (list Z)) (path : list Z) (lines : list (list Z)) (tail : list Z)
    (tokss : list (list (list Z))) (Hfile : read_file path = Some (unlines lines ++ tail)) (Hutf : utf8_valid (unlines lines ++ tail) = true)
    (Hpath : starts_with [45] path = false) (Hpre : CONF_FILE ∉ pre) (Hpost : CONF_FILE ∉ post) (Hnl : Forall (λ l, 10 ∉ l) lines) (Htail : 10 ∉ tail)
    (Hlines : Forall2 conf_line ((strip_last 13 <$> lines) ++ unended tail) tokss) :
  expand_conf_file read_file (pre ++ CONF_FILE :: path :: post) = Ok (pre ++ post ++ mjoin tokss) ∧
  (∀ args out, expand_conf_file read_file args = Ok out → CONF_FILE ∉ out) ∧
  (∀ read' args, (∀ pre' path' post', args = pre' ++ CONF_FILE :: path' :: post' → read_file path' = read' path') →
     expand_conf_file read_file args = expand_conf_file read' args) ∧
  (∀ args, CONF_FILE ∉ args → expand_conf_file read_file args = Ok args).
Proof.
  split_and!.
  - unfold expand_conf_file. rewrite take_conf_at by done. cbn [mbind Res_bind]. unfold read_to_string. rewrite Hfile. cbn [mbind option_bind]. rewrite Hutf.
    cbn [ok_or mbind Res_bind]. rewrite lines_unlines, (conf_lines_ok _ tokss) by done. cbn [mbind Res_bind]. by rewrite app_assoc.
  - intros args out ([o conf] & Ho & H)%Res_bind_Ok. apply (take_conf_clean (length args)) in Ho; [|done]. cbn in Ho.
    destruct conf; [|by injection H as <-]. apply Res_bind_Ok in H as (t & _ & (ts & Ht%conf_lines_clean & [= <-])%Res_bind_Ok). by apply not_elem_of_app.
  - intros read' args. apply expand_reads.
  - intros args Ha. unfold expand_conf_file. by rewrite take_conf_none.
Qed.
Lemma conf_file_is_options_witness :
  expand_conf_file (λ _, Some (unlines [str "# relay"; str "  --key  two words "; []] ++ str "-a")) [str "-c"; CONF_FILE; str "f"; str "--conf-file=g"] =
    Ok [str "-c"; str "--conf-file=g"; str "--key"; str "two words"; str "-a"].
Proof.
  destruct (conf_file_is_options (λ _, Some (unlines [str "# relay"; str "  --key  two words "; []] ++ str "-a")) [str "-c"] [str "--conf-file=g"] (str "f")
    [str "# relay"; str "  --key  two words "; []] (str "-a") [[]; [str "--key"; str "two words"]; []; [str "-a"]]) as [H _]; [done|reflexivity|reflexivity|..|exact H].
  - refine (bool_decide_unpack _ _). vm_compute. exact I.
  - refine (bool_decide_unpack _ _). vm_compute. exact I.
  - refine (bool_decide_unpack _ _). vm_compute. exact I.
  - refine (bool_decide_unpack _ _). vm_compute. exact I.
  - apply Forall2_cons; split; [apply (line_comment [] (str " relay")); constructor|]. apply Forall2_cons; split.
    + apply (line_value [32; 32] (str "--key") [32; 32] (str "two words") [32]); try done; try (repeat constructor; done).
      split; eexists; split; reflexivity.
    + apply Forall2_cons; split; [by apply line_blank; constructor|]. apply Forall2_cons; split; [|by constructor].
      apply (line_flag [] (str "-a") []); [constructor| |constructor]. unfold option_word, no_blank. refine (bool_decide_unpack _ _). vm_compute. exact I.
Defined.

(** * Host names *)
Lemma lower_dot c : ascii_lower c = DOT ↔ c = DOT.
Proof. unfold ascii_lower, DOT, in_range. case_ifs; lia. Qed.
Lemma lower_class c : (is_alpha (ascii_lower c) || is_digit (ascii_lower c) || (ascii_lower c =? 45) = is_alpha c || is_digit c || (c =? 45)) ∧
  is_digit (ascii_lower c) = is_digit c ∧ (ascii_lower c = 45 ↔ c = 45) ∧ ascii_lower (ascii_lower c) = ascii_lower c.
Proof.
  unfold ascii_lower, is_alpha, is_digit, in_range. split_and!.
  - apply eq_true_iff_eq. case_ifs; rewrite !orb_true_iff, !andb_true_iff; lia.
  - apply eq_true_iff_eq. case_ifs; rewrite !andb_true_iff; lia.
  - case_ifs; lia.
  - case_ifs; lia.
Qed.
Lemma lower_split (l : list Z) : split_on DOT (ascii_lower <$> l) = fmap (M := list) ascii_lower <$> split_on DOT l.
Proof.
  induction l as [|c l IH]; [done|]. cbn [fmap list_fmap split_on]. change (list_fmap Z Z ascii_lower l) with (ascii_lower <$> l). rewrite IH.
  destruct (Z.eqb_spec c DOT) as [->|Hc]; [done|]. rewrite (proj2 (Z.eqb_neq _ _)) by by rewrite lower_dot. by destruct (split_on DOT l).
Qed.
Lemma lower_forallb (f : Z → bool) (l : list Z) : (∀ c, f (ascii_lower c) = f c) → forallb f (ascii_lower <$> l) = forallb f l.
Proof. intros Hf. induction l as [|c l IH]; [done|]. cbn. rewrite Hf. f_equal. exact IH. Qed.
Lemma lower_label (l : list Z) : valid_label (ascii_lower <$> l) = valid_label l.
Proof.
  unfold valid_label. rewrite lower_forallb by apply lower_class. rewrite length_fmap.
  assert (∀ x : option Z, bool_decide (ascii_lower <$> x = Some 45) = bool_decide (x = Some 45)) as Hx.
  { intros [c|]; [|done]. cbn. apply bool_decide_ext. destruct (lower_class c) as (_ & _ & Hc & _). split; intros [= E]; f_equal; by apply Hc. }
  assert (head (ascii_lower <$> l) = ascii_lower <$> head l) as -> by by destruct l. rewrite fmap_last, !Hx. do 3 f_equal. f_equal. apply bool_decide_ext. by destruct l.
Qed.
Lemma last_split_snoc sep x : last (split_on sep (x ++ [sep])) = Some [].
Proof.
  induction x as [|c x IH]; cbn [app split_on]; [by rewrite Z.eqb_refl|].
  destruct (split_on sep (x ++ [sep])) as [|h t] eqn:E; [by destruct (split_on_nonempty sep (x ++ [sep]))|].
  destruct (c =? sep); [done|]. destruct t as [|h' t]; [|done]. cbn in IH. injection IH as ->.
  assert (length (split_on sep (x ++ [sep])) ≥ 2)%nat as Hl.
  { clear. induction x as [|d x IH]; cbn [app split_on]; [rewrite Z.eqb_refl; cbn; lia|].
    destruct (d =? sep); [cbn; lia|]. destruct (split_on sep (x ++ [sep])); cbn in *; lia. }
  rewrite E in Hl. cbn in Hl. lia.
Qed.

(** What is left of an accepted name without its last dot. *)
Record host_text (n : list Z) : Prop := {
  ht_some : n ≠ [];
  ht_len : zlen n ≤ 253;
  ht_labels : Forall (λ l, valid_label l = true) (split_on DOT n);
  ht_last : match last (split_on DOT n) with Some l => forallb is_digit l | None => false end = false }.
Lemma validate_text host : validate_hostname host = true ↔ host_text (strip_last DOT host).
Proof.
  unfold validate_hostname. split.
  - destruct (_ || _) eqn:E1; [done|]. destruct (forallb _ _) eqn:E2; [|done]. cbn [negb]. intros E3%negb_true_iff. apply orb_false_iff in E1 as [E0 E1].
    apply bool_decide_eq_false in E0. constructor; [done|lia| |done]. apply Forall_forall. intros l Hl. rewrite forallb_forall in E2. apply E2. by apply list_elem_of_In.
  - intros [H1 H2 H3 H4]. rewrite bool_decide_false, (proj2 (Z.ltb_ge _ _)) by done. cbn [orb].
    assert (forallb valid_label (split_on DOT (strip_last DOT host)) = true) as -> by (apply forallb_forall; intros l Hl; apply (proj1 (Forall_forall _ _) H3); by apply list_elem_of_In).
    cbn [negb]. by rewrite H4.
Qed.

Lemma host_text_end n : host_text n → last n ≠ Some DOT.
Proof.
  intros [_ _ Hl _] E. destruct n as [|c n _] using rev_ind; [done|]. rewrite last_snoc in E. injection E as ->.
  pose proof (last_split_snoc DOT n) as Hs. apply last_Some_elem_of in Hs. by apply (proj1 (Forall_forall _ _) Hl) in Hs.
Qed.
Lemma strip_last_id c (l : list Z) : last l ≠ Some c → strip_last c l = l.
Proof. intros H. unfold strip_last. by rewrite bool_decide_false. Qed.
Lemma trim_dots_id l : last l ≠ Some DOT → trim_dots l = l.
Proof.
  induction l as [|c l IH]; [done|]. cbn [trim_dots]. destruct l as [|d l]; intros Hl.
  - cbn. destruct (Z.eqb_spec c DOT) as [->|]; done.
  - rewrite last_cons_cons in Hl. rewrite IH by done. by rewrite andb_false_r.
Qed.
Lemma trim_dots_snoc l : trim_dots (l ++ [DOT]) = trim_dots l.
Proof. induction l as [|c l IH]; [done|]. cbn. by rewrite IH. Qed.
Lemma canonical_text host : host_text (strip_last DOT host) → canonical_host host = ascii_lower <$> strip_last DOT host.
Proof.
  intros Ht. pose proof (host_text_end _ Ht) as He. unfold canonical_host. f_equal. unfold strip_last in *. case_bool_decide as E; [|by apply trim_dots_id].
  destruct host as [|c host _] using rev_ind; [done|]. rewrite last_snoc in E. injection E as ->. rewrite length_app in *. cbn [length] in *.
  rewrite Nat.add_sub, take_app_length in *. rewrite trim_dots_snoc. by apply trim_dots_id.
Qed.
Lemma lower_text n : host_text n → host_text (ascii_lower <$> n).
Proof.
  intros [H1 H2 H3 H4]. constructor.
  - by destruct n.
  - by rewrite length_fmap.
  - rewrite lower_split. apply Forall_fmap. eapply Forall_impl; [exact H3|]. intros l Hl. cbn. by rewrite lower_label.
  - rewrite lower_split, fmap_last. destruct (last _) as [l|]; [|done]. cbn. by rewrite lower_forallb by apply lower_class.
Qed.
(** An accepted name in its canonical form is accepted, and canonical. *)
Lemma canonical_valid host : validate_hostname host = true →
  validate_hostname (canonical_host host) = true ∧ canonical_host host = canonical_host (canonical_host host).
Proof.
  intros Hv%validate_text. rewrite (canonical_text host) by done. pose proof (lower_text _ Hv) as Hl. pose proof (host_text_end _ Hl) as He.
  assert (strip_last DOT (ascii_lower <$> strip_last DOT host) = ascii_lower <$> strip_last DOT host) as Es by by apply strip_last_id.
  split; [by apply validate_text; rewrite Es|]. rewrite (canonical_text (ascii_lower <$> _)) by by rewrite Es. rewrite Es, <-list_fmap_compose.
  apply list_fmap_ext. intros _ c _. symmetry. apply lower_class.
Qed.

(** * Endpoints *)
Definition spec_ok (s : EndpointSpec) : Prop :=
  match s with
  | Literal a => ip_ok a.1 ∧ is_u 16 a.2
  | Hostname name port => validate_hostname name = true ∧ name = canonical_host name ∧ is_u 16 port ∧ port ≠ 0
  end.
Lemma parse_uint_u w s v : parse_uint w s = Some v → is_u w v.
Proof.
  assert (∀ l acc v, 0 ≤ acc → dec_value acc l = Some v → 0 ≤ v) as Hd.
  { induction l as [|c l IH]; intros acc v' Ha; cbn; [by intros [= <-]|]. destruct (is_digit c) eqn:E; [|done]. apply IH. unfold is_digit in E. lia. }
  unfold parse_uint. destruct s as [|c r]; [done|]. destruct (dec_value 0 _) as [u|] eqn:E; [|done]. apply Hd in E; [|lia].
  destruct (Z.ltb_spec u (2 ^ w)); [|done]. intros [= <-]. by split.
Qed.
Lemma EndpointSpec_parse_ok s e : EndpointSpec_parse s = Some e → spec_ok e.
Proof.
  unfold EndpointSpec_parse. destruct (parse_socket s) as [a|] eqn:E; [intros [= <-]; by apply parse_socket_ok in E|].
  intros ([host port] & _ & (p & Hp%parse_uint_u & H)%bind_Some)%bind_Some. destruct (Z.eqb_spec p 0); [done|].
  destruct (validate_hostname host) eqn:Ev; [|done]. injection H as <-. destruct (canonical_valid host Ev) as [H1 H2]. by split_and!.
Qed.
Lemma elem_of_split sep l c : c ∈ l → c = sep ∨ ∃ x, x ∈ split_on sep l ∧ c ∈ x.
Proof.
  induction l as [|d l IH]; intros Hin; [by apply elem_of_nil in Hin|]. cbn [split_on]. destruct (Z.eqb_spec d sep) as [->|Hd].
  - apply elem_of_cons in Hin as [->|Hin]; [by left|]. destruct (IH Hin) as [->|(x & Hx & Hc)]; [by left|]. right. exists x. split; [by right|done].
  - pose proof (split_on_nonempty sep l). destruct (split_on sep l) as [|h t]; [done|]. apply elem_of_cons in Hin as [->|Hin].
    + right. exists (d :: h). split; left.
    + destruct (IH Hin) as [->|(x & [->|Hx]%elem_of_cons & Hc)]; [by left|right; exists (d :: h); split; [left|by right]|right; exists x; split; [by right|done]].
Qed.
Lemma host_text_chars n c : host_text n → c ∈ n → c ≠ COLON ∧ c ≠ 91.
Proof.
  intros [_ _ Hl _] [->|(x & Hx & Hc)]%(elem_of_split DOT); [done|]. apply (proj1 (Forall_forall _ _) Hl) in Hx. unfold valid_label in Hx.
  apply andb_true_iff in Hx as [[_ Hx]%andb_true_iff _]. rewrite forallb_forall in Hx. apply list_elem_of_In in Hc. specialize (Hx c Hc). cbn beta in Hx.
  unfold is_alpha, is_digit, in_range, COLON in *. lia.
Qed.
Lemma app_at_inj (c : Z) a a' b b' : c ∉ a → c ∉ a' → a ++ c :: b = a' ++ c :: b' → a = a' ∧ b = b'.
Proof.
  revert a'. induction a as [|d a IH]; intros [|d' a']; cbn; [by intros _ _ [= ->]|..].
  - intros _ [Hd _]%not_elem_of_cons [= E _]. done.
  - intros [Hd _]%not_elem_of_cons _ [= E _]. done.
  - intros [_ Ha]%not_elem_of_cons [_ Ha']%not_elem_of_cons [= -> E]. by destruct (IH a' Ha Ha' E) as [-> ->].
Qed.
Lemma host_not_socket n r : host_text n → parse_socket (n ++ COLON :: r) = None.
Proof.
  intros Ht. assert (COLON ∉ n) as Hn by (intros Hc; by destruct (host_text_chars n COLON Ht Hc)).
  destruct (parse_socket _) as [a|] eqn:E; [|done]. exfalso. apply parse_with_inv in E. unfold read_socket_addr in E.
  destruct (read_socket_addr_v4 _) as [y|] eqn:E4.
  - clear E. unfold read_socket_addr_v4 in E4. apply bind_Some in E4 as ([o r1] & (ps & Hl & El & Hps)%read_octets_inv & ([p r2] & Hp & _)%bind_Some).
    apply bind_Some in Hp as (u & ->%read_given_inv & _). cbn [dotted] in El.
    assert (Forall (λ x, 46 ∉ x) ps ∧ COLON ∉ join 46 ps) as [H46 Hc].
    { split; [eapply Forall_impl; [exact Hps|]; intros x [_ Hx] Hin; by apply (proj1 (Forall_forall _ _) Hx) in Hin|].
      intros [E46|(x & Hx & Hc)]%elem_of_join; [done|]. apply (proj1 (Forall_forall _ _) Hps) in Hx as [_ Hx]. by apply (proj1 (Forall_forall _ _) Hx) in Hc. }
    apply app_at_inj in El as [-> _]; [|done|done]. pose proof (ht_last _ Ht) as Hlast. unfold DOT in Hlast. rewrite split_join in Hlast by (done || by destruct ps).
    destruct (last ps) as [q|] eqn:Eq; [|by apply last_None in Eq; subst ps]. apply last_Some_elem_of in Eq. apply (proj1 (Forall_forall _ _) Hps) in Eq as [_ Hq].
    assert (forallb is_digit q = true); [|congruence]. apply forallb_forall. intros c Hin. apply (proj1 (Forall_forall _ _) Hq). by apply list_elem_of_In.
  - unfold read_socket_addr_v6 in E. apply bind_Some in E as (u & E%read_given_inv & _). pose proof (ht_some _ Ht). destruct n as [|c n]; [done|].
    injection E as -> _. by destruct (host_text_chars _ 91 Ht ltac:(left)).
Qed.
Lemma rsplit_at sep a b : sep ∉ b → rsplit_once sep (a ++ sep :: b) = Some (a, b).
Proof.
  intros Hb. assert (rsplit_once sep b = None) as Hn.
  { induction b as [|c b IH]; [done|]. apply not_elem_of_cons in Hb as [Hc Hb]. cbn. rewrite IH by done. by rewrite (proj2 (Z.eqb_neq _ _)). }
  induction a as [|c a IH]; cbn; [by rewrite Hn, Z.eqb_refl|by rewrite IH].
Qed.

(** C29. What the client prints as its endpoint, a host name with its port or an address of
    either family, is read back as the same endpoint; and whatever text is accepted as an
    endpoint is one that can be printed: an address and a port in their ranges, or a host name
    that passes the syntax check in its canonical form, with a port that is not 0.  (Addresses
    are without a scope id, which the model reads and drops.) *)
Theorem endpoint_roundtrip (s : EndpointSpec) (Hs : spec_ok s) :
  EndpointSpec_parse (EndpointSpec_string s) = Some s ∧ ∀ text s', EndpointSpec_parse text = Some s' → spec_ok s'.
Proof.
  split; [|by apply EndpointSpec_parse_ok]. unfold EndpointSpec_parse, EndpointSpec_string. destruct s as [a|name port].
  - destruct Hs. by rewrite parse_socket_string.
  - destruct Hs as (Hv & Hc & Hp & H0). pose proof Hv as Ht%validate_text.
    assert (strip_last DOT name = name) as Es.
    { apply strip_last_id. rewrite Hc, canonical_text by done. apply host_text_end. by apply lower_text. }
    rewrite Es in Ht. rewrite host_not_socket by done. assert (is_u 64 port) by by eapply is_u_mono; [|exact Hp].
    rewrite rsplit_at by by apply dec_no_char. cbn [mbind option_bind]. rewrite parse_dec by done. cbn [mbind option_bind].
    by rewrite (proj2 (Z.eqb_neq _ _)), Hv, <-Hc by done.
Qed.
Lemma endpoint_roundtrip_witness :
  EndpointSpec_string (Hostname (str "relay.example") 4096) = str "relay.example:4096" ∧
  EndpointSpec_parse (str "relay.example:4096") = Some (Hostname (str "relay.example") 4096) ∧
  EndpointSpec_parse (EndpointSpec_string (Literal (V6 (32 :: 1 :: replicate 14 0), 443))) = Some (Literal (V6 (32 :: 1 :: replicate 14 0), 443)).
Proof.
  split; [reflexivity|]. split.
  - apply (endpoint_roundtrip (Hostname (str "relay.example") 4096)). split; [reflexivity|]. split; [reflexivity|done].
  - apply (endpoint_roundtrip (Literal (V6 (32 :: 1 :: replicate 14 0), 443))). split; [|done]. split; [repeat constructor; done|done].
Defined.

(** * Accepted command lines *)
(** The widths of the fields, as clap parses them at their types. *)
Record cli_typed (cli : Cli) : Prop := {
  ty_source_port p : cli_source_port cli = Some p → is_u 16 p;
  ty_sock_buf n : cli_sock_buf cli = Some n → is_u 64 n;
  ty_hb_len n : cli_hb_len cli = Some n → is_u 64 n;
  ty_mtu_warn n : cli_mtu_warn cli = Some n → is_u 64 n;
  ty_set_ttl n : cli_set_ttl cli = Some n → is_byte n;
  ty_random_drop n : cli_random_drop cli = Some n → is_u 32 n;
  ty_threads n : cli_threads cli = Some n → is_u 64 n }.

Record cfg_ok (c : Config) : Prop := {
  cf_local : ip_ok (cfg_local_addr c).1 ∧ is_u 16 (cfg_local_addr c).2 ∧ (cfg_local_addr c).2 ≠ 22;
  cf_seq_mode : 0 ≤ cfg_seq_mode c ≤ 4;
  cf_hb_mode : cfg_hb_mode c = 0 ∨ cfg_hb_mode c = 1;
  cf_hb_len : 0 ≤ cfg_hb_len c ≤ 1500;
  cf_ttl : is_byte (cfg_ttl c);
  cf_random_drop : 0 ≤ cfg_random_drop c ≤ 10000;
  cf_threads : 0 ≤ cfg_threads c;
  cf_source_ip ip : cfg_source_ip c = Some ip → ip_ok ip;
  cf_source_port p : cfg_source_port c = Some p → is_u 16 p;
  cf_mac name mac : cfg_lower_level c = Some (LlManual name mac) → length mac = 6%nat ∧ bytes mac;
  cf_gateway g : cfg_underlay_gateway c = Some g → v4_ok g ∧ cfg_underlay_dev c ≠ None }.
(** The limits of a fallback policy, in milliseconds. *)
Record fallback_ok (p : LastGoodFallbackPolicy) : Prop := {
  fk_after : 1 ≤ fp_after_failures p ≤ 100;
  fk_attempts : 1 ≤ fp_max_attempts p ≤ 100;
  fk_cooldown : 1000 ≤ fp_cooldown_ms p ≤ 86400000;
  fk_max_age : 1000 ≤ fp_max_age_ms p ≤ 31 * 86400000;
  fk_capacity : 1 ≤ fp_global_capacity p ≤ 100;
  fk_refill : 1000 ≤ fp_global_refill_ms p ≤ 7 * 86400000;
  fk_round : 5000 ≤ fp_preferred_round_timeout_ms p ≤ 600000;
  fk_probation : 1000 ≤ fp_probation_ms p ≤ 86400000;
  fk_rollback : 2000 ≤ fp_rollback_window_ms p ≤ 7 * 86400000;
  fk_window : fp_enabled p = true →
    CLIENT_CONN_TIMEOUT_MS + fp_preferred_round_timeout_ms p + CLIENT_HANDSHAKE_TIMEOUT_MS + fp_probation_ms p + 2 * TIMER_INTERVAL_MS <
    fp_rollback_window_ms p }.
(** At most one of installing a rule and printing one; a rule is kept only if it is installed,
    and one that is added permanently is not printed. *)
Definition flags_ok (f : Flags) : Prop :=
  ¬ (fl_auto_rule f = true ∧ fl_gen_rule f = true) ∧ (fl_keep_rule f = true → fl_auto_rule f = true) ∧
  ¬ (fl_gen_add f = true ∧ fl_gen_rule f = true).
Record settings_ok (s : Settings) : Prop := {
  st_cfg : cfg_ok (se_cfg s);
  st_remote : spec_ok (se_remote s) ∧ spec_port (se_remote s) ≠ 22 ∧ cfg_remote_addr (se_cfg s) = placeholder_addr (se_remote s);
  st_server : cfg_mode (se_cfg s) = ModeServer → spec_is_dynamic (se_remote s) = false;
  st_dns : Forall (λ a : SocketAddr, ip_ok a.1 ∧ is_u 16 a.2) (se_dns_servers s) ∧ 100 ≤ se_dns_timeout_ms s ≤ 30000;
  st_dynamic : spec_is_dynamic (se_remote s) = true → se_dns_servers s ≠ [];
  st_bootstrap ip : se_bootstrap_addr s = Some ip → v4_ok ip ∧ check_endpoint_ip ip (se_allow_private_endpoint s) = true;
  st_fallback : fallback_ok (se_last_good_fallback s);
  st_enabled : fp_enabled (se_last_good_fallback s) = true →
    spec_is_dynamic (se_remote s) = true ∧ se_endpoint_cache s ≠ None ∧ se_fifo s ≠ None;
  st_auth : is_aead (se_cipher_mode s) = true → se_auth_mode s = AuthNone;
  st_replay : is_aead (se_cipher_mode s) = false → se_auth_mode s = AuthNone → cfg_disable_anti_replay (se_cfg s) = true;
  st_flags : flags_ok (se_flags s);
  st_dev d u : se_dev s = Some d → cfg_underlay_dev (se_cfg s) = Some u → d = u;
  st_sock_buf : 10 * 1024 ≤ se_socket_buf_size s ≤ 10 * 1024 * 1024;
  st_mtu_warn : 0 < se_mtu_warn s;
  st_log_level : 0 ≤ se_log_level s ≤ 6 }.

Lemma dns_server_ok s a : parse_dns_server s = Ok a → ip_ok a.1 ∧ is_u 16 a.2.
Proof.
  unfold parse_dns_server. destruct (parse_socket s) eqn:E; [intros [= <-]; by apply parse_socket_ok in E|].
  destruct (parse_ip_addr s) eqn:E2; [|done]. intros [= <-]. by apply parse_ip_addr_ok in E2.
Qed.
Lemma socket_addr_ok s e a : parse_socket_addr s e = Ok a → ip_ok a.1 ∧ is_u 16 a.2 ∧ a.2 ≠ 22.
Proof.
  unfold parse_socket_addr. intros (b & Hb%ok_or_Ok%parse_socket_ok & H)%Res_bind_Ok. destruct (Z.eqb_spec b.2 22); [done|]. injection H as <-. naive_solver.
Qed.
Lemma remote_ok mode r s : choose_remote mode r = Ok s → spec_ok s ∧ spec_port s ≠ 22 ∧ (mode = ModeServer → spec_is_dynamic s = false).
Proof.
  unfold choose_remote. intros (x & Hx & H)%Res_bind_Ok. destruct (Z.eqb_spec (spec_port x) 22); [done|]. injection H as <-. destruct mode.
  - apply ok_or_Ok, EndpointSpec_parse_ok in Hx. done.
  - destruct (parse_socket r); [|done]. apply Res_bind_Ok in Hx as (a & (H1 & H2 & _)%socket_addr_ok & [= <-]). done.
Qed.
Lemma seconds_ok name v d lo hi r : 0 ≤ lo → hi * 1000 < 2 ^ 64 → seconds name v d lo hi = Ok r → lo * 1000 ≤ r ≤ hi * 1000 ∧ r = default d v * 1000.
Proof.
  intros Hlo Hhi (x & Hx & [= <-])%Res_bind_Ok. unfold bounded_u64 in Hx. destruct (_ && _) eqn:E; [|done]. injection Hx as <-.
  unfold saturating_mul. lia.
Qed.
Lemma bounded_ok name v lo hi r : bounded_u32 name v lo hi = Ok r → lo ≤ r ≤ hi ∧ r = v.
Proof. unfold bounded_u32. destruct (_ && _) eqn:E; [|done]. intros [= <-]. lia. Qed.
(** The values of the policy are the ones given, and none is given without the opt-in. *)
Definition fallback_as_given (cli : Cli) (p : LastGoodFallbackPolicy) : Prop :=
  p = mkPolicy (cli_last_good_fallback cli) (default 3 (cli_fallback_after cli)) (default 2 (cli_fallback_max_attempts cli))
        (default 300 (cli_fallback_cooldown cli) * 1000) (default 86400 (cli_fallback_max_age cli) * 1000)
        (default 4 (cli_fallback_global_attempts cli)) (default 900 (cli_fallback_global_refill cli) * 1000)
        (default 30 (cli_fallback_round_timeout cli) * 1000) (default 30 (cli_fallback_probation cli) * 1000)
        (default 300 (cli_fallback_rollback_window cli) * 1000) ∧
  (cli_last_good_fallback cli = false → fallback_tuning_present cli = false).
Lemma choose_fallback_ok cli remote cache p : choose_fallback cli remote cache = Ok p →
  fallback_ok p ∧ fallback_as_given cli p ∧
  (fp_enabled p = true → spec_is_dynamic remote = true ∧ cache ≠ None ∧ cli_fifo cli ≠ None).
Proof.
  unfold choose_fallback. intros (u0 & Htun%require_Ok%negb_true_iff & (u1 & Hen & (prob & Hprob%seconds_ok & (roll & Hroll%seconds_ok & (round & Hround%seconds_ok & (u2 & Hreq%require_Ok &
    (af & Haf%bounded_ok & (ma & Hma%bounded_ok & (cd & Hcd%seconds_ok & (age & Hage%seconds_ok & (cap & Hcap%bounded_ok & (ref & Href%seconds_ok & [= <-])%Res_bind_Ok)%Res_bind_Ok)%Res_bind_Ok)%Res_bind_Ok)%Res_bind_Ok)%Res_bind_Ok
    )%Res_bind_Ok)%Res_bind_Ok)%Res_bind_Ok)%Res_bind_Ok)%Res_bind_Ok)%Res_bind_Ok; try lia.
  split; [constructor; cbn; try lia|split; [split|]].
  - intros En. rewrite En in Hreq. apply negb_true_iff in Hreq. cbn [andb] in Hreq. apply Z.leb_gt in Hreq. revert Hreq.
    unfold required_rollback_ms, saturating_add, CLIENT_CONN_TIMEOUT_MS, CLIENT_HANDSHAKE_TIMEOUT_MS, TIMER_INTERVAL_MS. lia.
  - f_equal; lia.
  - intros En. rewrite En, andb_true_r in Htun. done.
  - cbn. intros En. rewrite En in Hen. res_inv. repeat match goal with H : bool_decide _ = true |- _ => apply bool_decide_eq_true in H end.
    split_and!; [done|..]; intros E; rewrite E in *; by match goal with H : is_Some None |- _ => destruct H end.
Qed.

Lemma choose_modes_ok cli m : choose_modes cli = Ok m →
  (is_aead (mo_cipher_mode m) = true → mo_auth_mode m = AuthNone) ∧
  (mo_disable_anti_replay m = true ↔ cli_disable_anti_replay cli = true ∨ (is_aead (mo_cipher_mode m) = false ∧ mo_auth_mode m = AuthNone)).
Proof.
  unfold choose_modes. intros (r & _ & (c & _ & (a & _ & H)%Res_bind_Ok)%Res_bind_Ok)%Res_bind_Ok. destruct (is_aead c.1) eqn:Ea.
  - injection H as <-. cbn. rewrite Ea. split; [done|]. naive_solver.
  - destruct (bool_decide_reflect (a = AuthNone)) as [->|Ha]; injection H as <-; cbn; rewrite Ea; (split; [done|]); naive_solver.
Qed.
Lemma choose_flags_ok cli : flags_ok (choose_flags cli).
Proof. unfold flags_ok, choose_flags. by destruct (cli_auto_rule cli), (cli_gen_rule cli), (cli_gen_add cli), (cli_keep_rule cli); split_and!; cbn; naive_solver. Qed.
Lemma choose_gateway_ok cli r : choose_gateway cli = Ok r →
  (∀ g, r = Some g → v4_ok g ∧ cli_underlay_dev cli ≠ None) ∧ (∀ d u, cli_dev cli = Some d → cli_underlay_dev cli = Some u → d = u).
Proof.
  unfold choose_gateway. intros (x & Hx%optional_Ok & (u & Hu%require_Ok%negb_true_iff & (u' & Hdev & [= ->])%Res_bind_Ok)%Res_bind_Ok)%Res_bind_Ok.
  split; [intros g ->|intros d e Ed Eu; rewrite Ed, Eu in Hdev; apply require_Ok in Hdev; by apply bool_decide_eq_true in Hdev].
  destruct Hx as [[_ ?]|(a & b & _ & [= <-] & Hb%ok_or_Ok%parse_ipv4_ok)]; [done|]. split; [done|]. intros E. rewrite E in Hu.
  rewrite !bool_decide_true in Hu by (done || by eexists). done.
Qed.
Lemma choose_bootstrap_ok cli r ip : choose_bootstrap cli = Ok r → r = Some ip → v4_ok ip ∧ check_endpoint_ip ip (cli_allow_private_endpoint cli) = true.
Proof.
  unfold choose_bootstrap. intros Hx%optional_Ok ->. destruct Hx as [[_ ?]|(a & b & _ & [= <-] & H)]; [done|].
  apply Res_bind_Ok in H as (i & Hi%ok_or_Ok%parse_ipv4_ok & (u & Hc%require_Ok & [= <-])%Res_bind_Ok). done.
Qed.
Lemma parse_mac_ok s mac : parse_mac s = Some mac → length mac = 6%nat ∧ bytes mac.
Proof.
  unfold parse_mac. destruct (Z.eqb_spec (zlen (split_on 58 s)) 6) as [El|]; [|done]. intros Hm%mapM_Some_1. split; [apply Forall2_length in Hm; lia|].
  eapply Forall2_Forall_r; [exact Hm|]. apply Forall_forall. intros x _ v Hv. clear -Hv. unfold from_str_radix_16 in Hv. destruct x as [|c r]; [done|].
  apply bind_Some in Hv as (u & Hu & Hv). destruct (Z.ltb_spec u (2 ^ 8)); [|done]. injection Hv as <-. split; [|done].
  assert (∀ l acc v, 0 ≤ acc → hex_value acc l = Some v → 0 ≤ v) as Hh.
  { clear. induction l as [|c l IH]; intros acc v Ha; cbn; [by intros [= <-]|]. destruct (hex_digit_value c) as [d|] eqn:E; [|done]. apply IH.
    unfold hex_digit_value in E. repeat case_match; simplify_eq; lia. }
  by eapply Hh; [|exact Hu].
Qed.
Lemma lower_level_ok cli r name mac : choose_lower_level cli = Ok r → r = Some (LlManual name mac) → length mac = 6%nat ∧ bytes mac.
Proof.
  unfold choose_lower_level. intros Hx%optional_Ok ->. destruct Hx as [[_ ?]|(a & b & _ & [= <-] & H)]; [done|].
  case_bool_decide; [done|]. apply Res_bind_Ok in H as ([n m] & _ & (x & Hm%ok_or_Ok%parse_mac_ok & [= <- <-])%Res_bind_Ok). done.
Qed.
Lemma sock_buf_ok cli r : choose_sock_buf cli = Ok r → 10 * 1024 ≤ r ≤ 10 * 1024 * 1024.
Proof. unfold choose_sock_buf. destruct (cli_sock_buf cli); [destruct (_ && _) eqn:E; [|done]|]; intros [= <-]; [lia|]. unfold DEFAULT_SOCKET_BUF_SIZE. lia. Qed.
Lemma choose_dns_ok cli remote servers ms : choose_dns cli remote = Ok (servers, ms) →
  Forall (λ a : SocketAddr, ip_ok a.1 ∧ is_u 16 a.2) servers ∧ 100 ≤ ms ≤ 30000 ∧ (spec_is_dynamic remote = true → servers ≠ []).
Proof.
  unfold choose_dns. intros (l & Hl%collect_Ok & (u & Hu%require_Ok%negb_true_iff & (u' & Hr%require_Ok & [= <- <-])%Res_bind_Ok)%Res_bind_Ok)%Res_bind_Ok. split_and!; [|lia|lia|].
  - eapply Forall2_Forall_r; [exact Hl|]. apply Forall_forall. intros s _ a. apply dns_server_ok.
  - intros Hd ->. rewrite Hd in Hu. by rewrite bool_decide_true in Hu.
Qed.

Lemma default_u {w : Z} (d : Z) (o : option Z) : is_u w d → (∀ n, o = Some n → is_u w n) → is_u w (default d o).
Proof. intros Hd Ho. destruct o; [by apply Ho|done]. Qed.
(** What the options say is what the configuration does: one of [-c] and [-s], one source of
    the password, the fallback policy as given, the replay window off exactly when that was
    asked for or when packets are not authenticated. *)
Record as_given (read_file : list Z → option (list Z)) (cli : Cli) (s : Settings) : Prop := {
  gv_mode : cli_server cli = negb (cli_client cli) ∧ cfg_mode (se_cfg s) = if cli_client cli then ModeClient else ModeServer;
  gv_key : match cli_key cli, cli_key_file cli with
           | Some _, Some _ => False
           | Some k, None => se_key s = k
           | None, Some path => ∃ content, read_file path = Some content ∧ se_key s = strip_newline content ∧ se_key s ≠ []
           | None, None => se_key s = str "secret key"
           end;
  gv_fallback : fallback_as_given cli (se_last_good_fallback s);
  gv_replay : cfg_disable_anti_replay (se_cfg s) = true ↔
    cli_disable_anti_replay cli = true ∨ (is_aead (se_cipher_mode s) = false ∧ se_auth_mode s = AuthNone) }.
Lemma choose_mode_ok cli m : choose_mode cli = Ok m → cli_server cli = negb (cli_client cli) ∧ m = if cli_client cli then ModeClient else ModeServer.
Proof. unfold choose_mode. destruct (cli_client cli), (cli_server cli); cbn; try done; by intros [= <-]. Qed.
Lemma choose_key_ok read_file cli k : choose_key read_file cli = Ok k →
  match cli_key cli, cli_key_file cli with
  | Some _, Some _ => False
  | Some k', None => k = k'
  | None, Some path => ∃ content, read_file path = Some content ∧ k = strip_newline content ∧ k ≠ []
  | None, None => k = str "secret key"
  end.
Proof.
  unfold choose_key. destruct (cli_key cli), (cli_key_file cli) as [path|]; try done; try (by intros [= <-]).
  intros (c & Hc%ok_or_Ok & H)%Res_bind_Ok. cbv zeta in H. destruct (bool_decide_reflect (strip_newline c = [])); [done|]. destruct (utf8_valid _); [|done]. injection H as <-. by exists c.
Qed.
Lemma settings_accepted read avail cli s : cli_typed cli → settings read avail cli = Ok s → settings_ok s ∧ as_given read cli s.
Proof.
  intros [T1 T2 T3 T4 T5 T6 T7]. unfold settings.
  intros (mode & Hmode%choose_mode_ok & (lo & _ & (la & Hla%socket_addr_ok & (rs & _ & (remote & (Hr & Hr22 & Hrs)%remote_ok & H)%Res_bind_Ok)%Res_bind_Ok)%Res_bind_Ok)%Res_bind_Ok)%Res_bind_Ok.
  apply Res_bind_Ok in H as ([servers ms] & (Hd1 & Hd2 & Hd3)%choose_dns_ok & (gw & (Hgw & Hdev)%choose_gateway_ok & (bs & Hbs & (pol & (Hp1 & Hp2 & Hp3)%choose_fallback_ok & H)%Res_bind_Ok)%Res_bind_Ok)%Res_bind_Ok).
  apply Res_bind_Ok in H as (mo & (Hm1 & Hm2)%choose_modes_ok & (sip & Hsip%optional_Ok & (buf & Hbuf%sock_buf_ok & (u1 & Hseq%require_Ok & (ll & Hll & H)%Res_bind_Ok)%Res_bind_Ok)%Res_bind_Ok)%Res_bind_Ok).
  apply Res_bind_Ok in H as (u2 & Hhb%require_Ok & (u3 & Hhl%require_Ok & (u4 & Hmtu%require_Ok%negb_true_iff & (u5 & Hrd%require_Ok & (ab & _ & (sc & _ & H)%Res_bind_Ok)%Res_bind_Ok)%Res_bind_Ok)%Res_bind_Ok)%Res_bind_Ok).
  apply Res_bind_Ok in H as (u6 & Hlog%require_Ok & (key & Hkey%choose_key_ok & [= <-])%Res_bind_Ok).
  assert (is_u 64 (default DEFAULT_HB_LEN (cli_hb_len cli))) as [? _] by by apply default_u.
  assert (is_u 64 (default DEFAULT_MTU_WARN (cli_mtu_warn cli))) as [? _] by by apply default_u.
  assert (is_u 32 (default 0 (cli_random_drop cli))) as [? _] by by apply default_u.
  unfold MAX_SEQ_MODE in Hseq.
  split; [|by constructor]. constructor; cbn [se_dev cfg_underlay_dev se_cfg se_flags se_remote se_dns_servers se_dns_timeout_ms se_allow_private_endpoint se_endpoint_cache se_bootstrap_addr se_last_good_fallback
    se_cipher_mode se_auth_mode se_fifo se_socket_buf_size se_mtu_warn se_log_level cfg_mode cfg_remote_addr cfg_disable_anti_replay]; try done; try lia.
  - constructor; cbn [cfg_local_addr cfg_seq_mode cfg_hb_mode cfg_hb_len cfg_ttl cfg_random_drop cfg_threads cfg_source_ip cfg_source_port cfg_lower_level cfg_underlay_gateway cfg_underlay_dev]; try done; try lia.
    + by apply default_u.
    + destruct (cli_threads cli) as [n|] eqn:En; cbn; [apply (T7 n eq_refl)|]. unfold default_threads. lia.
    + intros ip ->. destruct Hsip as [[_ ?]|(a & b & _ & [= <-] & Hb%ok_or_Ok%parse_ip_addr_ok)]; done.
    + intros name mac ->. by eapply lower_level_ok.
  - intros ip ->. by eapply choose_bootstrap_ok.
  - intros Ha Hb. apply Hm2. by right.
  - apply choose_flags_ok.
Qed.

Lemma parse_args_inv read_file try_parse_from parallelism raw_args s : parse_args read_file try_parse_from parallelism raw_args = Ok (Run s) →
  ∃ args cli, expand_conf_file read_file raw_args = Ok args ∧ try_parse_from args = Some cli ∧ settings read_file parallelism cli = Ok s.
Proof.
  unfold parse_args. destruct (existsb _ _); [done|]. destruct (_ || _); [done|].
  intros (u & _ & (args & Ha & (cli & Hc%ok_or_Ok & (s' & Hs & [= <-])%Res_bind_Ok)%Res_bind_Ok)%Res_bind_Ok)%Res_bind_Ok. by exists args, cli.
Qed.
Lemma parse_args_ok read_file try_parse_from parallelism raw_args s : (∀ args cli, try_parse_from args = Some cli → cli_typed cli) →
  parse_args read_file try_parse_from parallelism raw_args = Ok (Run s) → settings_ok s.
Proof. intros Hc (args & cli & _ & Hcli & Hs)%parse_args_inv. by eapply settings_accepted; [eapply Hc|]. Qed.

(** C13. A command line that is accepted gives a configuration in the limits of [settings_ok]:
    the ranges of the numeric options, every one of the fallback policy included; addresses and
    ports that are well-formed, the local and the relay's port not 22; a host name only for a
    client and only with a DNS server; a gateway only with an underlay device, and no other
    device than it; a fallback policy only with a host name, a cache file, a fifo and a rollback
    window that outlasts loss detection, a round, a handshake and the probation; rules never
    both installed and printed.  And it is what the options say ([as_given]): exactly one of -c
    and -s, one source of the password, and a file's is not empty, the fallback policy with the
    values given and none given without the opt-in, the replay window off exactly when that was
    asked for or when packets are not authenticated. *)
Theorem accepted_settings_ok (read_file : list Z → option (list Z)) (try_parse_from : list (list Z) → option Cli) (parallelism : option Z)
    (raw_args : list (list Z)) (s : Settings) (Hclap : ∀ args cli, try_parse_from args = Some cli → cli_typed cli)
    (Hok : parse_args read_file try_parse_from parallelism raw_args = Ok (Run s)) :
  settings_ok s ∧ ∃ args cli, expand_conf_file read_file raw_args = Ok args ∧ try_parse_from args = Some cli ∧ as_given read_file cli s.
Proof.
  apply parse_args_inv in Hok as (args & cli & Ha & Hc & Hs).
  destruct (settings_accepted read_file parallelism cli s (Hclap args cli Hc) Hs) as [H1 H2]. split; [done|]. by exists args, cli.
Qed.

(** A client with a host name, an AEAD and the fallback policy. *)
Definition demo_cli (keep_rule : bool) : Cli :=
  mkCli true false (Some (str "0.0.0.0:3333")) (Some (str "Relay.example.:4096")) None None
    true keep_rule false keep_rule false false None (Some (str "chacha20poly1305")) (Some (str "none")) false false None None None (Some (str "/run/f"))
    None false false false false None None false None (Some (str "eth0#00:11:22:33:44:ff")) None None None None None None false None false false
    [str "9.9.9.9"] None (Some (str "eth0")) (Some (str "192.168.1.1")) false None None true None None None None None None None None None
    false false false None None None false.
Definition demo_argv : list (list Z) := [str "-c"].
Definition demo_settings (keep_rule : bool) : option Settings :=
  match parse_args (λ _, None) (λ _, Some (demo_cli keep_rule)) (Some 8) demo_argv with Ok (Run s) => Some s | _ => None end.
Lemma accepted_settings_ok_witness : ∃ s, (demo_settings true) = Some s ∧ settings_ok s ∧ se_remote s = Hostname (str "relay.example") 4096 ∧
  cfg_disable_anti_replay (se_cfg s) = false ∧ fl_auto_rule (se_flags s) = true ∧ cfg_threads (se_cfg s) = 4.
Proof.
  destruct (demo_settings true) as [s|] eqn:E; [|vm_compute in E; discriminate E]. exists s. split; [done|]. split.
  - unfold demo_settings in E. destruct (parse_args (λ _, None) (λ _, Some (demo_cli true)) (Some 8) demo_argv) as [[s'| |]|e] eqn:Ep; try discriminate E.
    injection E as ->. apply (accepted_settings_ok (λ _, None) (λ _, Some (demo_cli true)) (Some 8) demo_argv s); [|exact Ep].
    intros args cli [= <-]. by constructor.
  - vm_compute in E. injection E as <-. split_and!; reflexivity.
Defined.

(** * The arguments in the log *)
(** An argument, and the ways the password can be given with [-k] and [--key]; the last is a
    cluster of short options that ends with [k], as in [-ck secret]. *)
Inductive Arg := Plain (a : list Z) | KeyNext (long : bool) (v : list Z) | KeyEquals (v : list Z) | KeyJoined (v : list Z)
| Clustered (flags v : list Z).
Definition key_flag (long : bool) : list Z := if long then str "--key" else str "-k".
Definition given (a : Arg) : list (list Z) :=
  match a with
  | Plain a => [a]
  | KeyNext long v => [key_flag long; v]
  | KeyEquals v => [str "--key=" ++ v]
  | KeyJoined v => [str "-k" ++ v]
  | Clustered flags v => [45 :: flags ++ [107]; v]
  end.
Definition shown (a : Arg) : list (list Z) :=
  match a with
  | Plain a => [a]
  | KeyNext long _ => [key_flag long; REDACTED]
  | KeyEquals _ => [str "--key=" ++ REDACTED]
  | KeyJoined _ => [str "-k" ++ REDACTED]
  | Clustered flags v => [45 :: flags ++ [107]; v]
  end.
Definition hidden (a : Arg) : bool := match a with Plain _ | Clustered _ _ => false | _ => true end.
Definition no_key (a : list Z) : Prop := a ≠ str "--key" ∧ starts_with (str "--key=") a = false ∧ starts_with (str "-k") a = false.
Definition arg_ok (a : Arg) : Prop :=
  match a with
  | Plain a => no_key a
  | KeyJoined v => v ≠ []
  | Clustered flags v => (∃ c, head flags = Some c ∧ c ≠ 45 ∧ c ≠ 107) ∧ no_key v
  | _ => True
  end.
Lemma starts_with_app p l : starts_with p (p ++ l) = true.
Proof. unfold starts_with. by rewrite take_app_length, bool_decide_true. Qed.
Lemma redact_plain a args : no_key a → redact_args false (a :: args) = let '(out, r) := redact_args false args in (a :: out, r).
Proof.
  intros (H1 & H2 & H3). cbn [redact_args]. rewrite H2, H3, andb_false_r, (bool_decide_false (a = str "--key")) by done.
  rewrite bool_decide_false by (intros ->; done). cbn [orb andb negb]. by destruct (redact_args false args).
Qed.
Lemma cluster_no_key flags c : head flags = Some c → c ≠ 45 → c ≠ 107 → no_key (45 :: flags ++ [107]).
Proof.
  destruct flags as [|d flags]; [done|]. intros [= ->] H1 H2. unfold no_key, starts_with. split_and!.
  - intros [= ->]. done.
  - apply bool_decide_false. intros [= ->]. done.
  - apply bool_decide_false. intros [= ->]. done.
Qed.
Lemma redact_arg a args : arg_ok a →
  redact_args false (given a ++ args) = let '(out, r) := redact_args false args in (shown a ++ out, hidden a || r).
Proof.
  intros Ha. destruct a as [a|long v|v|v|flags v]; cbn [given app].
  - by apply redact_plain.
  - cbn [redact_args]. assert (bool_decide (key_flag long = str "-k") || bool_decide (key_flag long = str "--key") = true) as -> by by destruct long.
    cbn [redact_args]. destruct (redact_args false args). by destruct long.
  - cbn [redact_args]. rewrite starts_with_app. rewrite !bool_decide_false by (intros E; vm_compute in E; discriminate E). cbn [orb andb negb]. by destruct (redact_args false args).
  - cbn [redact_args]. destruct v as [|c v]; [done|]. rewrite !bool_decide_false by (intros E; vm_compute in E; discriminate E). rewrite starts_with_app.
    change (starts_with (str "--key=") (str "-k" ++ c :: v)) with false. change (starts_with (str "--") (str "-k" ++ c :: v)) with false.
    rewrite (proj2 (Z.ltb_lt _ _)) by (cbn; lia). cbn [orb andb negb]. by destruct (redact_args false args).
  - destruct Ha as [(c & Hc & H1 & H2) Hv]. rewrite redact_plain, redact_plain by (done || by eapply cluster_no_key). by destruct (redact_args false args).
Qed.

(** C30. What the log shows of the arguments: a password given after [-k] or [--key], as
    [--key=...] or joined to [-k] is replaced, whatever it is, and so the line does not depend
    on it; every other argument is shown as it is, and that includes a password that follows a
    cluster of short options such as [-ck]; the flag for the warning says exactly whether
    something was replaced. *)
Theorem redact_argv_hides_key (args : list Arg) (Hargs : Forall arg_ok args) :
  redact_argv (args ≫= given) = (join 32 (args ≫= shown), existsb hidden args).
Proof.
  unfold redact_argv. assert (redact_args false (args ≫= given) = (args ≫= shown, existsb hidden args)) as ->; [|done].
  induction Hargs as [|a args Ha _ IH]; [done|]. change ((a :: args) ≫= given) with (given a ++ (args ≫= given)).
  rewrite redact_arg, IH by done. done.
Qed.
Lemma redact_argv_hides_key_witness :
  redact_argv [str "-c"; str "-k"; str "pa ss"; str "--key-file"; str "f"; str "--key=x"; str "-kyy"; str "-ak"; str "leak"] =
    (str "-c -k <redacted> --key-file f --key=<redacted> -k<redacted> -ak leak", true).
Proof.
  change [str "-c"; str "-k"; str "pa ss"; str "--key-file"; str "f"; str "--key=x"; str "-kyy"; str "-ak"; str "leak"]
    with ([Plain (str "-c"); KeyNext false (str "pa ss"); Plain (str "--key-file"); Plain (str "f"); KeyEquals (str "x"); KeyJoined (str "yy");
           Clustered (str "a") (str "leak")] ≫= given).
  rewrite redact_argv_hides_key; [reflexivity|].
  repeat (apply Forall_cons_2; [first [exact I|done|by split_and!|split; [by exists 97|by split_and!]]|]). apply Forall_nil_2.
Defined.

(** * Key files *)
(** The password of a key file is its content: with no line end or with one, of either
    kind, the same password is read; a file that holds no more than a line end, or that is
    not UTF-8, is refused, and so is a second source of the password. *)
Theorem key_file_content (read_file : list Z → option (list Z)) (path key eol : list Z)
    (Hfile : read_file path = Some (key ++ eol)) (Heol : eol = [] ∧ last key ≠ Some 10 ∨ eol = [10] ∧ last key ≠ Some 13 ∨ eol = [13; 10]) :
  read_key_file read_file path =
    (if bool_decide (key = []) then Err KeyFileEmpty else if utf8_valid key then Ok key else Err KeyFileNotUtf8) ∧
  (∀ cli, cli_key_file cli = Some path → choose_key read_file cli =
     match cli_key cli with Some _ => Err TwoKeys | None => read_key_file read_file path end).
Proof.
  split; [|intros cli E; unfold choose_key; rewrite E; by destruct (cli_key cli)].
  unfold read_key_file. rewrite Hfile. cbn [ok_or mbind Res_bind]. assert (strip_newline (key ++ eol) = key) as ->; [|done].
  unfold strip_newline. destruct Heol as [[-> Hl]|[[-> Hl]| ->]].
  - rewrite app_nil_r. by rewrite bool_decide_false.
  - rewrite last_snoc, bool_decide_true, length_app, Nat.add_sub, take_app_length by done. by apply strip_last_id.
  - change [13; 10] with ([13] ++ [10]). rewrite app_assoc, last_snoc, bool_decide_true by done. rewrite (length_app (key ++ [13])), Nat.add_sub, take_app_length. apply strip_last_app.
Qed.
Lemma key_file_content_witness :
  read_key_file (λ _, Some (str "secret" ++ [13; 10])) (str "k") = Ok (str "secret") ∧ read_key_file (λ _, Some [10]) (str "k") = Err KeyFileEmpty.
Proof.
  split.
  - apply (key_file_content (λ _, Some (str "secret" ++ [13; 10])) (str "k") (str "secret") [13; 10]); [done|]. right. by right.
  - apply (key_file_content (λ _, Some [10]) (str "k") [] [10]); [done|]. right. by left.
Defined.
