(* ===== verification/FakeTcp.v ===== *)
(** Raw packets and the FakeTCP sequence emulation: [src/src/faketcp.rs].

    The record fields keep the source's names with a prefix; [set_f v r] is the
    assignment [r.f = v].  Arithmetic is that of the release profile, which wraps.
    Logging is left out.  [send_raw] returns [Ok(())] on every path, so only the
    state it leaves is returned. *)
From S2P Require Import Prelude Util Checksum Ip Tcp Udp Icmp Types World Config Crypto.

Definition RECEIVE_WINDOW_LOWER_BOUND : Z := 40960.
Definition RECEIVE_WINDOW_RANDOM_RANGE : Z := 512.
Definition TX_QUEUE_FLUSH : Z := 64.

Record PacketInfo := mkPacketInfo {
  pi_src_ip : IpAddr;
  pi_dst_ip : IpAddr;
  pi_src_port : Z;
  pi_dst_port : Z;
  pi_syn : bool;
  pi_ack : bool;
  pi_psh : bool;
  pi_rst : bool;
  pi_seq : Z;
  pi_ack_seq : Z;
  pi_ack_seq_counter : Z;
  pi_ts : Z;
  pi_ts_ack : Z;
  pi_has_ts : bool;
  pi_icmp_seq : Z;
  pi_data_len : Z;
  pi_addr_ll : SockaddrLl }.
Definition set_pi_src_ip (v : IpAddr) (r : PacketInfo) : PacketInfo :=
  mkPacketInfo v (pi_dst_ip r) (pi_src_port r) (pi_dst_port r) (pi_syn r) (pi_ack r) (pi_psh r)
    (pi_rst r) (pi_seq r) (pi_ack_seq r) (pi_ack_seq_counter r) (pi_ts r) (pi_ts_ack r)
    (pi_has_ts r) (pi_icmp_seq r) (pi_data_len r) (pi_addr_ll r).
Definition set_pi_dst_ip (v : IpAddr) (r : PacketInfo) : PacketInfo :=
  mkPacketInfo (pi_src_ip r) v (pi_src_port r) (pi_dst_port r) (pi_syn r) (pi_ack r) (pi_psh r)
    (pi_rst r) (pi_seq r) (pi_ack_seq r) (pi_ack_seq_counter r) (pi_ts r) (pi_ts_ack r)
    (pi_has_ts r) (pi_icmp_seq r) (pi_data_len r) (pi_addr_ll r).
Definition set_pi_src_port (v : Z) (r : PacketInfo) : PacketInfo :=
  mkPacketInfo (pi_src_ip r) (pi_dst_ip r) v (pi_dst_port r) (pi_syn r) (pi_ack r) (pi_psh r)
    (pi_rst r) (pi_seq r) (pi_ack_seq r) (pi_ack_seq_counter r) (pi_ts r) (pi_ts_ack r)
    (pi_has_ts r) (pi_icmp_seq r) (pi_data_len r) (pi_addr_ll r).
Definition set_pi_dst_port (v : Z) (r : PacketInfo) : PacketInfo :=
  mkPacketInfo (pi_src_ip r) (pi_dst_ip r) (pi_src_port r) v (pi_syn r) (pi_ack r) (pi_psh r)
    (pi_rst r) (pi_seq r) (pi_ack_seq r) (pi_ack_seq_counter r) (pi_ts r) (pi_ts_ack r)
    (pi_has_ts r) (pi_icmp_seq r) (pi_data_len r) (pi_addr_ll r).
Definition set_pi_syn (v : bool) (r : PacketInfo) : PacketInfo :=
  mkPacketInfo (pi_src_ip r) (pi_dst_ip r) (pi_src_port r) (pi_dst_port r) v (pi_ack r)
    (pi_psh r) (pi_rst r) (pi_seq r) (pi_ack_seq r) (pi_ack_seq_counter r) (pi_ts r)
    (pi_ts_ack r) (pi_has_ts r) (pi_icmp_seq r) (pi_data_len r) (pi_addr_ll r).
Definition set_pi_ack (v : bool) (r : PacketInfo) : PacketInfo :=
  mkPacketInfo (pi_src_ip r) (pi_dst_ip r) (pi_src_port r) (pi_dst_port r) (pi_syn r) v
    (pi_psh r) (pi_rst r) (pi_seq r) (pi_ack_seq r) (pi_ack_seq_counter r) (pi_ts r)
    (pi_ts_ack r) (pi_has_ts r) (pi_icmp_seq r) (pi_data_len r) (pi_addr_ll r).
Definition set_pi_psh (v : bool) (r : PacketInfo) : PacketInfo :=
  mkPacketInfo (pi_src_ip r) (pi_dst_ip r) (pi_src_port r) (pi_dst_port r) (pi_syn r)
    (pi_ack r) v (pi_rst r) (pi_seq r) (pi_ack_seq r) (pi_ack_seq_counter r) (pi_ts r)
    (pi_ts_ack r) (pi_has_ts r) (pi_icmp_seq r) (pi_data_len r) (pi_addr_ll r).
Definition set_pi_rst (v : bool) (r : PacketInfo) : PacketInfo :=
  mkPacketInfo (pi_src_ip r) (pi_dst_ip r) (pi_src_port r) (pi_dst_port r) (pi_syn r)
    (pi_ack r) (pi_psh r) v (pi_seq r) (pi_ack_seq r) (pi_ack_seq_counter r) (pi_ts r)
    (pi_ts_ack r) (pi_has_ts r) (pi_icmp_seq r) (pi_data_len r) (pi_addr_ll r).
Definition set_pi_seq (v : Z) (r : PacketInfo) : PacketInfo :=
  mkPacketInfo (pi_src_ip r) (pi_dst_ip r) (pi_src_port r) (pi_dst_port r) (pi_syn r)
    (pi_ack r) (pi_psh r) (pi_rst r) v (pi_ack_seq r) (pi_ack_seq_counter r) (pi_ts r)
    (pi_ts_ack r) (pi_has_ts r) (pi_icmp_seq r) (pi_data_len r) (pi_addr_ll r).
Definition set_pi_ack_seq (v : Z) (r : PacketInfo) : PacketInfo :=
  mkPacketInfo (pi_src_ip r) (pi_dst_ip r) (pi_src_port r) (pi_dst_port r) (pi_syn r)
    (pi_ack r) (pi_psh r) (pi_rst r) (pi_seq r) v (pi_ack_seq_counter r) (pi_ts r)
    (pi_ts_ack r) (pi_has_ts r) (pi_icmp_seq r) (pi_data_len r) (pi_addr_ll r).
Definition set_pi_ack_seq_counter (v : Z) (r : PacketInfo) : PacketInfo :=
  mkPacketInfo (pi_src_ip r) (pi_dst_ip r) (pi_src_port r) (pi_dst_port r) (pi_syn r)
    (pi_ack r) (pi_psh r) (pi_rst r) (pi_seq r) (pi_ack_seq r) v (pi_ts r) (pi_ts_ack r)
    (pi_has_ts r) (pi_icmp_seq r) (pi_data_len r) (pi_addr_ll r).
Definition set_pi_ts (v : Z) (r : PacketInfo) : PacketInfo :=
  mkPacketInfo (pi_src_ip r) (pi_dst_ip r) (pi_src_port r) (pi_dst_port r) (pi_syn r)
    (pi_ack r) (pi_psh r) (pi_rst r) (pi_seq r) (pi_ack_seq r) (pi_ack_seq_counter r) v
    (pi_ts_ack r) (pi_has_ts r) (pi_icmp_seq r) (pi_data_len r) (pi_addr_ll r).
Definition set_pi_ts_ack (v : Z) (r : PacketInfo) : PacketInfo :=
  mkPacketInfo (pi_src_ip r) (pi_dst_ip r) (pi_src_port r) (pi_dst_port r) (pi_syn r)
    (pi_ack r) (pi_psh r) (pi_rst r) (pi_seq r) (pi_ack_seq r) (pi_ack_seq_counter r) (pi_ts r)
    v (pi_has_ts r) (pi_icmp_seq r) (pi_data_len r) (pi_addr_ll r).
Definition set_pi_has_ts (v : bool) (r : PacketInfo) : PacketInfo :=
  mkPacketInfo (pi_src_ip r) (pi_dst_ip r) (pi_src_port r) (pi_dst_port r) (pi_syn r)
    (pi_ack r) (pi_psh r) (pi_rst r) (pi_seq r) (pi_ack_seq r) (pi_ack_seq_counter r) (pi_ts r)
    (pi_ts_ack r) v (pi_icmp_seq r) (pi_data_len r) (pi_addr_ll r).
Definition set_pi_icmp_seq (v : Z) (r : PacketInfo) : PacketInfo :=
  mkPacketInfo (pi_src_ip r) (pi_dst_ip r) (pi_src_port r) (pi_dst_port r) (pi_syn r)
    (pi_ack r) (pi_psh r) (pi_rst r) (pi_seq r) (pi_ack_seq r) (pi_ack_seq_counter r) (pi_ts r)
    (pi_ts_ack r) (pi_has_ts r) v (pi_data_len r) (pi_addr_ll r).
Definition set_pi_data_len (v : Z) (r : PacketInfo) : PacketInfo :=
  mkPacketInfo (pi_src_ip r) (pi_dst_ip r) (pi_src_port r) (pi_dst_port r) (pi_syn r)
    (pi_ack r) (pi_psh r) (pi_rst r) (pi_seq r) (pi_ack_seq r) (pi_ack_seq_counter r) (pi_ts r)
    (pi_ts_ack r) (pi_has_ts r) (pi_icmp_seq r) v (pi_addr_ll r).
Definition set_pi_addr_ll (v : SockaddrLl) (r : PacketInfo) : PacketInfo :=
  mkPacketInfo (pi_src_ip r) (pi_dst_ip r) (pi_src_port r) (pi_dst_port r) (pi_syn r)
    (pi_ack r) (pi_psh r) (pi_rst r) (pi_seq r) (pi_ack_seq r) (pi_ack_seq_counter r) (pi_ts r)
    (pi_ts_ack r) (pi_has_ts r) (pi_icmp_seq r) (pi_data_len r) v.

Definition unspecified (is_v6 : bool) : IpAddr := if is_v6 then V6 (replicate 16 0) else V4 (replicate 4 0).

Definition PacketInfo_new (raw_mode : RawMode) (is_v6 : bool) : Io PacketInfo :=
  let p := mkPacketInfo (unspecified is_v6) (unspecified is_v6) 0 0 false false false false 0 0 0 0 0
             false 0 0 sockaddr_ll_zeroed in
  if bool_decide (raw_mode = FakeTcp) then
    a ← secure_random_u32;
    s ← secure_random_u32;
    mret (set_pi_ack true (set_pi_seq s (set_pi_ack_seq a p)))
  else mret p.

Record RawInfo := mkRawInfo {
  send_info : PacketInfo;
  recv_info : PacketInfo;
  reserved_send_seq : Z;
  rst_received : Z;
  ri_disabled : bool }.
Definition set_send_info (v : PacketInfo) (r : RawInfo) : RawInfo :=
  mkRawInfo v (recv_info r) (reserved_send_seq r) (rst_received r) (ri_disabled r).
Definition set_recv_info (v : PacketInfo) (r : RawInfo) : RawInfo :=
  mkRawInfo (send_info r) v (reserved_send_seq r) (rst_received r) (ri_disabled r).
Definition set_reserved_send_seq (v : Z) (r : RawInfo) : RawInfo :=
  mkRawInfo (send_info r) (recv_info r) v (rst_received r) (ri_disabled r).
Definition set_rst_received (v : Z) (r : RawInfo) : RawInfo :=
  mkRawInfo (send_info r) (recv_info r) (reserved_send_seq r) v (ri_disabled r).
Definition set_ri_disabled (v : bool) (r : RawInfo) : RawInfo :=
  mkRawInfo (send_info r) (recv_info r) (reserved_send_seq r) (rst_received r) v.
Definition upd_send (f : PacketInfo → PacketInfo) (r : RawInfo) : RawInfo := set_send_info (f (send_info r)) r.
Definition upd_recv (f : PacketInfo → PacketInfo) (r : RawInfo) : RawInfo := set_recv_info (f (recv_info r)) r.

Definition RawInfo_new (raw_mode : RawMode) (is_v6 : bool) : Io RawInfo :=
  s ← PacketInfo_new raw_mode is_v6;
  r ← PacketInfo_new raw_mode is_v6;
  mret (mkRawInfo s r 0 0 false).

(** The receive-side snapshot [after_recv] consumes. *)
Record RecvMeta := mkRecvMeta {
  rm_syn : bool; rm_ack : bool; rm_seq : Z; rm_data_len : Z; rm_has_ts : bool; rm_ts : Z; rm_icmp_seq : Z }.
Definition from_recv (r : PacketInfo) : RecvMeta :=
  mkRecvMeta (pi_syn r) (pi_ack r) (pi_seq r) (pi_data_len r) (pi_has_ts r) (pi_ts r) (pi_icmp_seq r).

Record PeekInfo := mkPeekInfo { pk_src_ip : IpAddr; pk_src_port : Z; pk_syn : bool }.

Record RawCtx := mkRawCtx {
  rc_raw_mode : RawMode;
  rc_is_v6 : bool;
  rc_is_client : bool;
  rc_seq_mode : Z;
  rc_ttl : Z;
  rc_random_drop : Z;
  rc_filter_port : Z;
  rc_bind_addr : option IpAddr;
  rc_lower_level : bool;
  rc_disable_bpf : bool;
  rc_max_rst_allowed : Z;
  rc_ip_id_counter : Z;
  rc_tx_queue : list TxPacket;
  rc_tx_pool : list (list Z);
  rc_tx_dropped : Z }.
Definition set_rc_raw_mode (v : RawMode) (r : RawCtx) : RawCtx :=
  mkRawCtx v (rc_is_v6 r) (rc_is_client r) (rc_seq_mode r) (rc_ttl r) (rc_random_drop r)
    (rc_filter_port r) (rc_bind_addr r) (rc_lower_level r) (rc_disable_bpf r)
    (rc_max_rst_allowed r) (rc_ip_id_counter r) (rc_tx_queue r) (rc_tx_pool r)
    (rc_tx_dropped r).
Definition set_rc_is_v6 (v : bool) (r : RawCtx) : RawCtx :=
  mkRawCtx (rc_raw_mode r) v (rc_is_client r) (rc_seq_mode r) (rc_ttl r) (rc_random_drop r)
    (rc_filter_port r) (rc_bind_addr r) (rc_lower_level r) (rc_disable_bpf r)
    (rc_max_rst_allowed r) (rc_ip_id_counter r) (rc_tx_queue r) (rc_tx_pool r)
    (rc_tx_dropped r).
Definition set_rc_is_client (v : bool) (r : RawCtx) : RawCtx :=
  mkRawCtx (rc_raw_mode r) (rc_is_v6 r) v (rc_seq_mode r) (rc_ttl r) (rc_random_drop r)
    (rc_filter_port r) (rc_bind_addr r) (rc_lower_level r) (rc_disable_bpf r)
    (rc_max_rst_allowed r) (rc_ip_id_counter r) (rc_tx_queue r) (rc_tx_pool r)
    (rc_tx_dropped r).
Definition set_rc_seq_mode (v : Z) (r : RawCtx) : RawCtx :=
  mkRawCtx (rc_raw_mode r) (rc_is_v6 r) (rc_is_client r) v (rc_ttl r) (rc_random_drop r)
    (rc_filter_port r) (rc_bind_addr r) (rc_lower_level r) (rc_disable_bpf r)
    (rc_max_rst_allowed r) (rc_ip_id_counter r) (rc_tx_queue r) (rc_tx_pool r)
    (rc_tx_dropped r).
Definition set_rc_ttl (v : Z) (r : RawCtx) : RawCtx :=
  mkRawCtx (rc_raw_mode r) (rc_is_v6 r) (rc_is_client r) (rc_seq_mode r) v (rc_random_drop r)
    (rc_filter_port r) (rc_bind_addr r) (rc_lower_level r) (rc_disable_bpf r)
    (rc_max_rst_allowed r) (rc_ip_id_counter r) (rc_tx_queue r) (rc_tx_pool r)
    (rc_tx_dropped r).
Definition set_rc_random_drop (v : Z) (r : RawCtx) : RawCtx :=
  mkRawCtx (rc_raw_mode r) (rc_is_v6 r) (rc_is_client r) (rc_seq_mode r) (rc_ttl r) v
    (rc_filter_port r) (rc_bind_addr r) (rc_lower_level r) (rc_disable_bpf r)
    (rc_max_rst_allowed r) (rc_ip_id_counter r) (rc_tx_queue r) (rc_tx_pool r)
    (rc_tx_dropped r).
Definition set_rc_filter_port (v : Z) (r : RawCtx) : RawCtx :=
  mkRawCtx (rc_raw_mode r) (rc_is_v6 r) (rc_is_client r) (rc_seq_mode r) (rc_ttl r)
    (rc_random_drop r) v (rc_bind_addr r) (rc_lower_level r) (rc_disable_bpf r)
    (rc_max_rst_allowed r) (rc_ip_id_counter r) (rc_tx_queue r) (rc_tx_pool r)
    (rc_tx_dropped r).
Definition set_rc_bind_addr (v : option IpAddr) (r : RawCtx) : RawCtx :=
  mkRawCtx (rc_raw_mode r) (rc_is_v6 r) (rc_is_client r) (rc_seq_mode r) (rc_ttl r)
    (rc_random_drop r) (rc_filter_port r) v (rc_lower_level r) (rc_disable_bpf r)
    (rc_max_rst_allowed r) (rc_ip_id_counter r) (rc_tx_queue r) (rc_tx_pool r)
    (rc_tx_dropped r).
Definition set_rc_lower_level (v : bool) (r : RawCtx) : RawCtx :=
  mkRawCtx (rc_raw_mode r) (rc_is_v6 r) (rc_is_client r) (rc_seq_mode r) (rc_ttl r)
    (rc_random_drop r) (rc_filter_port r) (rc_bind_addr r) v (rc_disable_bpf r)
    (rc_max_rst_allowed r) (rc_ip_id_counter r) (rc_tx_queue r) (rc_tx_pool r)
    (rc_tx_dropped r).
Definition set_rc_disable_bpf (v : bool) (r : RawCtx) : RawCtx :=
  mkRawCtx (rc_raw_mode r) (rc_is_v6 r) (rc_is_client r) (rc_seq_mode r) (rc_ttl r)
    (rc_random_drop r) (rc_filter_port r) (rc_bind_addr r) (rc_lower_level r) v
    (rc_max_rst_allowed r) (rc_ip_id_counter r) (rc_tx_queue r) (rc_tx_pool r)
    (rc_tx_dropped r).
Definition set_rc_max_rst_allowed (v : Z) (r : RawCtx) : RawCtx :=
  mkRawCtx (rc_raw_mode r) (rc_is_v6 r) (rc_is_client r) (rc_seq_mode r) (rc_ttl r)
    (rc_random_drop r) (rc_filter_port r) (rc_bind_addr r) (rc_lower_level r)
    (rc_disable_bpf r) v (rc_ip_id_counter r) (rc_tx_queue r) (rc_tx_pool r) (rc_tx_dropped r).
Definition set_rc_ip_id_counter (v : Z) (r : RawCtx) : RawCtx :=
  mkRawCtx (rc_raw_mode r) (rc_is_v6 r) (rc_is_client r) (rc_seq_mode r) (rc_ttl r)
    (rc_random_drop r) (rc_filter_port r) (rc_bind_addr r) (rc_lower_level r)
    (rc_disable_bpf r) (rc_max_rst_allowed r) v (rc_tx_queue r) (rc_tx_pool r)
    (rc_tx_dropped r).
Definition set_rc_tx_queue (v : list TxPacket) (r : RawCtx) : RawCtx :=
  mkRawCtx (rc_raw_mode r) (rc_is_v6 r) (rc_is_client r) (rc_seq_mode r) (rc_ttl r)
    (rc_random_drop r) (rc_filter_port r) (rc_bind_addr r) (rc_lower_level r)
    (rc_disable_bpf r) (rc_max_rst_allowed r) (rc_ip_id_counter r) v (rc_tx_pool r)
    (rc_tx_dropped r).
Definition set_rc_tx_pool (v : list (list Z)) (r : RawCtx) : RawCtx :=
  mkRawCtx (rc_raw_mode r) (rc_is_v6 r) (rc_is_client r) (rc_seq_mode r) (rc_ttl r)
    (rc_random_drop r) (rc_filter_port r) (rc_bind_addr r) (rc_lower_level r)
    (rc_disable_bpf r) (rc_max_rst_allowed r) (rc_ip_id_counter r) (rc_tx_queue r) v
    (rc_tx_dropped r).
Definition set_rc_tx_dropped (v : Z) (r : RawCtx) : RawCtx :=
  mkRawCtx (rc_raw_mode r) (rc_is_v6 r) (rc_is_client r) (rc_seq_mode r) (rc_ttl r)
    (rc_random_drop r) (rc_filter_port r) (rc_bind_addr r) (rc_lower_level r)
    (rc_disable_bpf r) (rc_max_rst_allowed r) (rc_ip_id_counter r) (rc_tx_queue r)
    (rc_tx_pool r) v.

Definition RawCtx_new (cfg : Config) : Io RawCtx :=
  id ← secure_random_u32;
  let bind_addr := if negb (cfg_is_client cfg) && negb (is_unspecified (cfg_local_addr cfg).1)
                   then Some (cfg_local_addr cfg).1 else None in
  mret (mkRawCtx (cfg_raw_mode cfg) (raw_is_v6 cfg) (cfg_is_client cfg) (cfg_seq_mode cfg) (cfg_ttl cfg)
          (cfg_random_drop cfg) 0 bind_addr (bool_decide (is_Some (cfg_lower_level cfg)))
          (cfg_disable_bpf cfg) (cfg_max_rst_allowed cfg) (wrap 16 (id mod 65535)) [] [] 0).

(** The free buffers are a stack, the last pushed first. *)
Definition recycle_tx (pool : list (list Z)) (p : TxPacket) : list (list Z) :=
  if zlen pool <? 256 then tx_buf p :: pool else pool.

Definition flush_tx (ctx : RawCtx) : Io RawCtx :=
  if zlen (rc_tx_queue ctx) =? 0 then mret ctx else
  accepted ← send_batch (rc_tx_queue ctx);
  let n := zlen (rc_tx_queue ctx) in
  let ctx := if accepted <? n then set_rc_tx_dropped (rc_tx_dropped ctx +⟨64⟩ (n - accepted)) ctx else ctx in
  mret (set_rc_tx_queue [] (set_rc_tx_pool (foldl recycle_tx (rc_tx_pool ctx) (rc_tx_queue ctx)) ctx)).

Definition pending_tx (ctx : RawCtx) : Z := zlen (rc_tx_queue ctx).

(** The state part of [set_filter]; the program it attaches is [Bpf.program]. *)
Definition set_filter (ctx : RawCtx) (port : Z) : RawCtx :=
  if bool_decide (rc_raw_mode ctx = RawIcmp) then ctx else set_rc_filter_port port ctx.

Definition tcp_send_params (s : PacketInfo) (window ts : Z) : TcpSendParams :=
  mkTcpSendParams (pi_src_port s) (pi_dst_port s) (pi_seq s) (pi_ack_seq s) (pi_syn s) (pi_ack s)
    (pi_psh s) window ts (pi_ts_ack s).

(** The transport segment and its protocol number; [None] when the UDP length does
    not fit. *)
Definition build_segment (ctx : RawCtx) (s : PacketInfo) (payload : list Z) : Io (option (list Z * Z)) :=
  match rc_raw_mode ctx with
  | FakeTcp =>
      r ← fast_random_u32;
      let window := wrap 16 (RECEIVE_WINDOW_LOWER_BOUND + r mod RECEIVE_WINDOW_RANDOM_RANGE) in
      t ← now_ms;
      b ← lift (build_tcp [] (pi_src_ip s) (pi_dst_ip s) (tcp_send_params s window (wrap 32 t)) payload);
      mret (Some (b.1, IPPROTO_TCP))
  | RawUdp =>
      b ← lift (build_udp [] (pi_src_ip s) (pi_dst_ip s) (pi_src_port s) (pi_dst_port s) payload);
      match b with
      | None => mret None
      | Some b => mret (Some (b.1, IPPROTO_UDP))
      end
  | RawIcmp =>
      b ← lift (build_icmp [] (pi_src_ip s) (pi_dst_ip s) (rc_is_client ctx) (pi_src_port s) (pi_icmp_seq s) payload);
      mret (Some (b.1, if rc_is_v6 ctx then IPPROTO_ICMPV6 else IPPROTO_ICMP))
  end.

Definition send_raw (ctx : RawCtx) (raw : RawInfo) (payload : list Z) : Io (RawCtx * RawInfo) :=
  drop ← (if rc_random_drop ctx =? 0 then mret false
          else r ← fast_random_u32; mret (r mod 10000 <? rc_random_drop ctx));
  if (drop : bool) then mret (ctx, raw) else
  if ri_disabled raw then mret (ctx, raw) else
  let s := send_info raw in
  seg ← build_segment ctx s payload;
  match seg with
  | None => mret (ctx, raw)
  | Some (seg, protocol) =>
      let ctx := set_rc_tx_pool (tail (rc_tx_pool ctx)) ctx in
      let id := rc_ip_id_counter ctx in
      let ctx := set_rc_ip_id_counter (id +⟨16⟩ 1) ctx in
      hdr ← lift (build_ip_header [] (pi_src_ip s) (pi_dst_ip s) protocol (rc_ttl ctx) id (zlen seg));
      let pkt := hdr ++ seg in
      let dst := if rc_lower_level ctx then TxL2 (pi_addr_ll s) else TxIp (pi_dst_ip s) in
      let ctx := set_rc_tx_queue (rc_tx_queue ctx ++ [mkTxPacket pkt 0 dst]) ctx in
      let raw := if bool_decide (rc_raw_mode ctx = FakeTcp)
                 then upd_send (set_pi_data_len (zlen payload)) raw else raw in
      ctx ← (if TX_QUEUE_FLUSH <=? zlen (rc_tx_queue ctx) then flush_tx ctx else mret ctx);
      mret (ctx, raw)
  end.

(** The [3 | 4] arm of [after_send]: follow the peer's window and acknowledgements. *)
Definition after_send_window (seq_mode : Z) (raw : RawInfo) (data_len : Z) : RawInfo :=
  let raw := upd_send (set_pi_seq (pi_seq (send_info raw) +⟨32⟩ data_len)) raw in
  let window_size := if seq_mode =? 3 then wrap 32 (Z.shiftl RECEIVE_WINDOW_LOWER_BOUND WSCALE)
                     else RECEIVE_WINDOW_LOWER_BOUND in
  let raw := if larger_than_u32 (pi_seq (send_info raw) +⟨32⟩ MAX_DATA_LEN)
                  (pi_ack_seq (recv_info raw) +⟨32⟩ window_size)
             then upd_send (set_pi_seq (pi_ack_seq (recv_info raw))) raw else raw in
  let raw := if 3 <=? pi_ack_seq_counter (recv_info raw)
             then upd_send (set_pi_seq (pi_ack_seq (recv_info raw))) (upd_recv (set_pi_ack_seq_counter 0) raw)
             else raw in
  if larger_than_u32 (pi_ack_seq (recv_info raw)) (pi_seq (send_info raw))
  then upd_send (set_pi_seq (pi_ack_seq (recv_info raw))) raw else raw.

Definition after_send (ctx : RawCtx) (raw : RawInfo) : Io RawInfo :=
  match rc_raw_mode ctx with
  | FakeTcp =>
      let data_len := wrap 32 (pi_data_len (send_info raw)) in
      if negb (pi_syn (send_info raw)) && pi_ack (send_info raw) && negb (data_len =? 0) then
        if rc_seq_mode ctx =? 0 then mret raw
        else if rc_seq_mode ctx =? 1 then
          mret (upd_send (set_pi_seq (pi_seq (send_info raw) +⟨32⟩ data_len)) raw)
        else if rc_seq_mode ctx =? 2 then
          r ← fast_random_u32;
          if r mod 5 =? 3 then mret (upd_send (set_pi_seq (pi_seq (send_info raw) +⟨32⟩ data_len)) raw)
          else mret raw
        else mret (after_send_window (rc_seq_mode ctx) raw data_len)
      else mret raw
  | RawIcmp =>
      if rc_is_client ctx
      then mret (upd_send (set_pi_icmp_seq (pi_icmp_seq (send_info raw) +⟨16⟩ 1)) raw) else mret raw
  | RawUdp => mret raw
  end.

Definition after_recv (ctx : RawCtx) (raw : RawInfo) (m : RecvMeta) : RawInfo :=
  match rc_raw_mode ctx with
  | FakeTcp =>
      let raw := if rm_has_ts m then upd_send (set_pi_ts_ack (rm_ts m)) raw else raw in
      if negb (rm_syn m) && rm_ack m && negb (rm_data_len m =? 0) then
        let end_ := rm_seq m +⟨32⟩ wrap 32 (rm_data_len m) in
        if rc_seq_mode ctx <=? 2 then
          if larger_than_u32 end_ (pi_ack_seq (send_info raw))
          then upd_send (set_pi_ack_seq end_) raw else raw
        else if rm_seq m =? pi_ack_seq (send_info raw) then upd_send (set_pi_ack_seq end_) raw else raw
      else raw
  | RawIcmp =>
      if negb (rc_is_client ctx) && larger_than_u16 (rm_icmp_seq m) (pi_icmp_seq (send_info raw))
      then upd_send (set_pi_icmp_seq (rm_icmp_seq m)) raw else raw
  | RawUdp => raw
  end.

Definition want_icmp (ctx : RawCtx) : Z := if rc_is_v6 ctx then IPPROTO_ICMPV6 else IPPROTO_ICMP.

Definition peek (ctx : RawCtx) (buf : list Z) : outcome (option PeekInfo) :=
  ip ← parse_ip buf (rc_is_v6 ctx) false;
  match ip with
  | None => Done None
  | Some ip =>
      payload ← ip_payload ip buf;
      match rc_raw_mode ctx with
      | FakeTcp =>
          if negb (ip_protocol ip =? IPPROTO_TCP) || (zlen payload <? TCP_MIN_HEADER) then Done None else
          a ← idx payload 0; b ← idx payload 1; f ← idx payload 13;
          Done (Some (mkPeekInfo (ip_src ip) (from_be [a; b]) (negb (Z.land f 2 =? 0))))
      | RawUdp =>
          if negb (ip_protocol ip =? IPPROTO_UDP) || (zlen payload <? UDP_HEADER_LEN) then Done None else
          a ← idx payload 0; b ← idx payload 1;
          Done (Some (mkPeekInfo (ip_src ip) (from_be [a; b]) false))
      | RawIcmp =>
          if negb (ip_protocol ip =? want_icmp ctx) || (zlen payload <? ICMP_HEADER_LEN) then Done None else
          a ← idx payload 4; b ← idx payload 5;
          Done (Some (mkPeekInfo (ip_src ip) (from_be [a; b]) false))
      end
  end.

(** The FakeTCP fields of [recv_info] after a segment was parsed. *)
Definition recv_tcp (r : PacketInfo) (t : ParsedTcp) : PacketInfo :=
  let r := set_pi_has_ts (t_has_ts t) r in
  let r := set_pi_ts (t_ts t) r in
  let r := set_pi_ts_ack (t_ts_ack t) r in
  let r := set_pi_ack (t_ack t) r in
  let r := set_pi_syn (t_syn t) r in
  let r := set_pi_rst (t_rst t) r in
  let r := set_pi_psh (t_psh t) r in
  let r := set_pi_src_port (t_src_port t) r in
  let r := set_pi_dst_port (t_dst_port t) r in
  let r := set_pi_seq (t_seq t) r in
  let last_ack_seq := pi_ack_seq r in
  let r := set_pi_ack_seq (t_ack_seq t) r in
  if pi_ack_seq r =? last_ack_seq
  then set_pi_ack_seq_counter (pi_ack_seq_counter r +⟨32⟩ 1) r
  else set_pi_ack_seq_counter 0 r.

(** [x + 1] on [i32]. *)
Definition incr_i32 (x : Z) : Z := as_signed 32 (wrap 32 (x + 1)).

(** The RST accounting of [parse_recv]. *)
Definition recv_rst (ctx : RawCtx) (raw : RawInfo) : RawInfo :=
  let raw := set_rst_received (incr_i32 (rst_received raw)) raw in
  let cnt := rst_received raw in
  if (0 <=? rc_max_rst_allowed ctx) && (cnt =? incr_i32 (rc_max_rst_allowed ctx))
  then set_ri_disabled true raw else raw.

(** Returns the payload, and [raw] as the call leaves it (also when it rejects). *)
Definition parse_recv (ctx : RawCtx) (raw : RawInfo) (buf : list Z) (ll : SockaddrLl)
    : outcome (option (list Z) * RawInfo) :=
  ip ← parse_ip buf (rc_is_v6 ctx) true;
  match ip with
  | None => Done (None, raw)
  | Some ip =>
      let raw := if rc_lower_level ctx then upd_recv (set_pi_addr_ll ll) raw else raw in
      if match rc_bind_addr ctx with Some b => negb (bool_decide (ip_dst ip = b)) | None => false end
      then Done (None, raw) else
      let raw := upd_recv (λ r, set_pi_dst_ip (ip_dst ip) (set_pi_src_ip (ip_src ip) r)) raw in
      payload ← ip_payload ip buf;
      match rc_raw_mode ctx with
      | FakeTcp =>
          if negb (ip_protocol ip =? IPPROTO_TCP) then Done (None, raw) else
          t ← parse_tcp payload (ip_src ip) (ip_dst ip);
          match t with
          | None => Done (None, raw)
          | Some (t, data) =>
              if negb (t_dst_port t =? rc_filter_port ctx) then Done (None, raw) else
              let raw := upd_recv (λ r, recv_tcp r t) raw in
              let raw := if t_rst t then recv_rst ctx raw else raw in
              Done (Some data, upd_recv (set_pi_data_len (zlen data)) raw)
          end
      | RawUdp =>
          if negb (ip_protocol ip =? IPPROTO_UDP) then Done (None, raw) else
          u ← parse_udp payload (ip_src ip) (ip_dst ip);
          match u with
          | None => Done (None, raw)
          | Some (sp, dp, data) =>
              if negb (dp =? rc_filter_port ctx) then Done (None, raw) else
              Done (Some data, upd_recv (λ r, set_pi_data_len (zlen data) (set_pi_dst_port dp (set_pi_src_port sp r))) raw)
          end
      | RawIcmp =>
          if negb (ip_protocol ip =? want_icmp ctx) then Done (None, raw) else
          h ← parse_icmp payload (ip_src ip) (ip_dst ip) (rc_is_client ctx);
          match h with
          | None => Done (None, raw)
          | Some (h, data) =>
              if negb (icmp_id h =? pi_src_port (send_info raw)) then Done (None, raw) else
              Done (Some data, upd_recv (λ r, set_pi_data_len (zlen data) (set_pi_icmp_seq (icmp_seq h)
                                  (set_pi_dst_port (icmp_id h) (set_pi_src_port (icmp_id h) r)))) raw)
          end
      end
  end.

(** * Well-formed packet descriptions *)
Record info_ok (s : PacketInfo) : Prop := {
  io_src : ip_ok (pi_src_ip s);
  io_dst : ip_ok (pi_dst_ip s);
  io_family : same_family (pi_src_ip s) (pi_dst_ip s);
  io_sport : is_u 16 (pi_src_port s);
  io_dport : is_u 16 (pi_dst_port s);
  io_seq : is_u 32 (pi_seq s);
  io_ack_seq : is_u 32 (pi_ack_seq s);
  io_ts : is_u 32 (pi_ts s);
  io_ts_ack : is_u 32 (pi_ts_ack s);
  io_icmp_seq : is_u 16 (pi_icmp_seq s) }.

(** The payloads of the tunnel: room for every header in a 16-bit length. *)
Definition payload_ok (payload : list Z) : Prop := bytes payload ∧ zlen payload ≤ 65000.

(** What the transport parser of the peer reads from a segment. *)
Definition segment_reads (mode : RawMode) (is_client : bool) (s : PacketInfo) (payload seg : list Z) : Prop :=
  match mode with
  | FakeTcp => ∃ window ts, parse_tcp seg (pi_src_ip s) (pi_dst_ip s)
      = Done (Some (parsed_of (tcp_send_params s window ts), payload))
  | RawUdp => parse_udp seg (pi_src_ip s) (pi_dst_ip s) = Done (Some (pi_src_port s, pi_dst_port s, payload))
  | RawIcmp => ∃ ty, parse_icmp seg (pi_src_ip s) (pi_dst_ip s) (negb is_client)
      = Done (Some (mkParsedIcmp ty (pi_src_port s) (pi_icmp_seq s), payload))
  end.
Definition mode_protocol (ctx : RawCtx) : Z :=
  match rc_raw_mode ctx with FakeTcp => IPPROTO_TCP | RawUdp => IPPROTO_UDP | RawIcmp => want_icmp ctx end.

Lemma mode_protocol_byte ctx : is_byte (mode_protocol ctx).
Proof. unfold mode_protocol, want_icmp. destruct (rc_raw_mode ctx), (rc_is_v6 ctx); done. Qed.

Lemma runs_build_segment ctx s payload w (Q : option (list Z * Z) → World → Prop) :
  env_ok w → info_ok s → payload_ok payload →
  (∀ seg w', segment_reads (rc_raw_mode ctx) (rc_is_client ctx) s payload seg → bytes seg →
     zlen seg ≤ 40 + zlen payload → later w w' → env_ok w' → w_trace w' = w_trace w →
     Q (Some (seg, mode_protocol ctx)) w') →
  runs (build_segment ctx s payload) w Q.
Proof.
  intros Hw Hs [Hb Hl] HQ. unfold build_segment, mode_protocol, segment_reads in *.
  destruct (rc_raw_mode ctx).
  - apply runs_bind, runs_fast; [done|]. intros r w1 Hr Hl1 Ht1 Hw1.
    apply runs_bind, runs_now_ms; [done|]. intros t w2 _ _ Hl2 Ht2 Hw2.
    set (p := tcp_send_params s _ _). assert (tcp_params_ok p) as Hp.
    { destruct Hs. unfold p, tcp_send_params, tcp_params_ok. simpl. split_and!; try done; apply wrap_range; lia. }
    destruct (tcp_build_parse (pi_src_ip s) (pi_dst_ip s) p payload) as (seg & E & Hsb & Hsl & Hsp);
      [apply Hs|apply Hs|apply Hs|done|done|lia|].
    apply runs_bind. eapply runs_lift; [exact E|]. apply runs_ret. cbn [fst].
    apply HQ; [|done| |by transitivity w1|done|congruence].
    + unfold p in Hsp. eauto.
    + rewrite Hsl. unfold tcp_hlen. destruct (tp_syn p); lia.
  - destruct (udp_build_parse (pi_src_ip s) (pi_dst_ip s) (pi_src_port s) (pi_dst_port s) payload)
      as (seg & E & Hsb & Hsl & Hsp); [apply Hs|apply Hs|apply Hs|apply Hs|apply Hs|done|lia|].
    apply runs_bind. eapply runs_lift; [exact E|]. cbn iota beta. apply runs_ret. cbn [fst].
    apply HQ; try done. lia.
  - destruct (icmp_build_parse (pi_src_ip s) (pi_dst_ip s) (rc_is_client ctx) (pi_src_port s) (pi_icmp_seq s) payload)
      as (seg & E & Hsb & Hsl & Hsp & _); [apply Hs|apply Hs|apply Hs|apply Hs|apply Hs|done|lia|].
    apply runs_bind. eapply runs_lift; [exact E|]. cbn [fst]. unfold want_icmp. apply runs_ret.
    apply HQ; try done; [eauto|lia].
Qed.

Lemma runs_flush_tx ctx w (Q : RawCtx → World → Prop) :
  env_ok w →
  (∀ pool dropped sent w', sublist sent (rc_tx_queue ctx) → later w w' → env_ok w' →
     w_trace w' = w_trace w ++ (EvTx <$> sent) →
     Q (set_rc_tx_queue [] (set_rc_tx_pool pool (set_rc_tx_dropped dropped ctx))) w') →
  runs (flush_tx ctx) w Q.
Proof.
  intros Hw HQ. unfold flush_tx. destruct (zlen (rc_tx_queue ctx) =? 0) eqn:E.
  - apply runs_ret. destruct (rc_tx_queue ctx) eqn:Eq; [|simpl in E; lia].
    pose proof (HQ (rc_tx_pool ctx) (rc_tx_dropped ctx) [] w) as H. destruct ctx; simpl in *; subst.
    apply H; [done|done|done|by rewrite app_nil_r].
  - apply runs_bind, runs_send_batch; [done|]. intros sent w' Hs Hl Hw' Ht. apply runs_ret.
    destruct (zlen sent <? zlen (rc_tx_queue ctx)).
    + by eapply HQ.
    + pose proof (HQ (foldl recycle_tx (rc_tx_pool ctx) (rc_tx_queue ctx)) (rc_tx_dropped ctx) sent w' Hs Hl Hw' Ht).
      by destruct ctx.
Qed.

(** The settings of a context: everything but the counters, the queue and the pool. *)
Definition ctx_conf (ctx : RawCtx) : RawCtx :=
  set_rc_ip_id_counter 0 (set_rc_tx_queue [] (set_rc_tx_pool [] (set_rc_tx_dropped 0 ctx))).

Definition ctx_ok (ctx : RawCtx) : Prop := is_byte (rc_ttl ctx).

(** A packet of [ctx]'s mode whose IP payload is [seg]. *)
Definition packet_reads (ctx : RawCtx) (s : PacketInfo) (pkt seg : list Z) : Prop :=
  ∀ vc, ∃ p, parse_ip pkt (is_ipv6 (pi_src_ip s)) vc = Done (Some p) ∧ ip_src p = pi_src_ip s ∧
    ip_dst p = pi_dst_ip s ∧ ip_protocol p = mode_protocol ctx ∧ ip_payload p pkt = Done seg.

Definition tx_of (ctx : RawCtx) (s : PacketInfo) (pkt : list Z) : TxPacket :=
  mkTxPacket pkt 0 (if rc_lower_level ctx then TxL2 (pi_addr_ll s) else TxIp (pi_dst_ip s)).

(** The sender's record of the payload length. *)
Definition sent_raw (ctx : RawCtx) (raw : RawInfo) (payload : list Z) : RawInfo :=
  if bool_decide (rc_raw_mode ctx = FakeTcp) then upd_send (set_pi_data_len (zlen payload)) raw else raw.

Lemma ip_header_reads ctx s seg :
  ctx_ok ctx → info_ok s → 40 + zlen seg < 65536 →
  ∃ hdr, build_ip_header [] (pi_src_ip s) (pi_dst_ip s) (mode_protocol ctx) (rc_ttl ctx)
           (rc_ip_id_counter ctx) (zlen seg) = Done hdr ∧ packet_reads ctx s (hdr ++ seg) seg.
Proof.
  intros Hc Hs Hl.
  destruct (ip_build_parse (pi_src_ip s) (pi_dst_ip s) (mode_protocol ctx) (rc_ttl ctx) (rc_ip_id_counter ctx) seg true)
    as (hdr & _ & E & _); [apply Hs|apply Hs|apply Hs|apply Hc|apply mode_protocol_byte|done|].
  exists hdr. split; [done|]. intros vc.
  destruct (ip_build_parse (pi_src_ip s) (pi_dst_ip s) (mode_protocol ctx) (rc_ttl ctx) (rc_ip_id_counter ctx) seg vc)
    as (hdr' & p & E' & ?); [apply Hs|apply Hs|apply Hs|apply Hc|apply mode_protocol_byte|done|].
  rewrite E in E'. injection E' as <-. by exists p.
Qed.

Lemma runs_random_drop ctx w (Q : bool → World → Prop) :
  env_ok w → (∀ b w', (b = true → rc_random_drop ctx ≠ 0) → later w w' → env_ok w' → w_trace w' = w_trace w → Q b w') →
  runs (if rc_random_drop ctx =? 0 then mret false
        else r ← fast_random_u32; mret (r mod 10000 <? rc_random_drop ctx)) w Q.
Proof.
  intros Hw HQ. destruct (Z.eqb_spec (rc_random_drop ctx) 0).
  - apply runs_ret. by apply HQ.
  - apply runs_bind, runs_fast; [done|]. intros r w1 _ Hl Ht Hw1. apply runs_ret. by apply HQ.
Qed.

(** [send_raw] either drops the packet (random drop, disabled connection) or queues
    one that the peer's parsers read back; a full queue is handed to the kernel. *)
Lemma runs_send_raw ctx raw payload w (Q : RawCtx * RawInfo → World → Prop) :
  env_ok w → ctx_ok ctx → info_ok (send_info raw) → payload_ok payload →
  (∀ w', rc_random_drop ctx ≠ 0 ∨ ri_disabled raw = true → later w w' → env_ok w' →
     w_trace w' = w_trace w → Q (ctx, raw) w') →
  (∀ ctx' pkt seg w', ctx_conf ctx' = ctx_conf ctx →
     segment_reads (rc_raw_mode ctx) (rc_is_client ctx) (send_info raw) payload seg →
     packet_reads ctx (send_info raw) pkt seg → later w w' → env_ok w' →
     (zlen (rc_tx_queue ctx) < TX_QUEUE_FLUSH - 1 → w_trace w' = w_trace w ∧
        rc_tx_queue ctx' = rc_tx_queue ctx ++ [tx_of ctx (send_info raw) pkt]) →
     Q (ctx', sent_raw ctx raw payload) w') →
  runs (send_raw ctx raw payload) w Q.
Proof.
  intros Hw Hc Hs Hp Hdrop HQ. unfold send_raw. apply runs_bind, runs_random_drop; [done|].
  intros b w1 Hb Hl1 Hw1 Ht1. destruct b; [by apply runs_ret, Hdrop; auto|].
  destruct (ri_disabled raw) eqn:Ed; [by apply runs_ret, Hdrop; auto|].
  apply runs_bind, runs_build_segment; [done|done|done|].
  intros seg w2 Hseg Hsb Hsl Hl2 Hw2 Ht2.
  destruct (ip_header_reads ctx (send_info raw) seg Hc Hs) as (hdr & E & Hr); [destruct Hp; lia|].
  cbv zeta. apply runs_bind. eapply runs_lift; [exact E|].
  set (ctx1 := set_rc_tx_queue _ _).
  apply runs_bind. destruct (TX_QUEUE_FLUSH <=? zlen (rc_tx_queue ctx1)) eqn:Ef.
  - apply runs_flush_tx; [done|]. intros pool dropped sent w3 _ Hl3 Hw3 Ht3. apply runs_ret.
    eapply HQ; [|exact Hseg|exact Hr|by transitivity w1; [|transitivity w2]|done|].
    + by destruct ctx.
    + intros Hlt. unfold ctx1 in Ef. cbn [rc_tx_queue set_rc_tx_queue] in Ef.
      revert Ef. unfold TX_QUEUE_FLUSH in *. autorewrite with zlen. simpl. intros. exfalso. lia.
  - do 2 apply runs_ret. eapply (HQ ctx1); [|exact Hseg|exact Hr|by transitivity w1|done|].
    + by destruct ctx.
    + intros _. split; [congruence|]. unfold ctx1, tx_of. by destruct ctx.
Qed.

(** * Receiving *)

(** What a receiver learns from a packet described by [s]. *)
Definition recv_reads (mode : RawMode) (s : PacketInfo) (payload : list Z) (r : PacketInfo) : Prop :=
  pi_src_ip r = pi_src_ip s ∧ pi_dst_ip r = pi_dst_ip s ∧ pi_src_port r = pi_src_port s ∧
  pi_data_len r = zlen payload ∧
  match mode with
  | FakeTcp => pi_dst_port r = pi_dst_port s ∧ pi_seq r = pi_seq s ∧ pi_ack_seq r = pi_ack_seq s ∧
      pi_syn r = pi_syn s ∧ pi_ack r = pi_ack s ∧ pi_psh r = pi_psh s ∧ pi_rst r = false ∧
      pi_has_ts r = true ∧ pi_ts_ack r = pi_ts_ack s
  | RawUdp => pi_dst_port r = pi_dst_port s
  | RawIcmp => pi_dst_port r = pi_src_port s ∧ pi_icmp_seq r = pi_icmp_seq s
  end.

(** The receiver's settings match the sender's. *)
Record peers (A B : RawCtx) (s : PacketInfo) (rb : RawInfo) : Prop := {
  pe_mode : rc_raw_mode B = rc_raw_mode A;
  pe_v6 : rc_is_v6 B = rc_is_v6 A;
  pe_family : is_ipv6 (pi_src_ip s) = rc_is_v6 A;
  pe_role : rc_is_client B = negb (rc_is_client A);
  pe_bind : rc_bind_addr B = None ∨ rc_bind_addr B = Some (pi_dst_ip s);
  pe_port : match rc_raw_mode A with
            | RawIcmp => pi_src_port (send_info rb) = pi_src_port s
            | _ => rc_filter_port B = pi_dst_port s
            end }.

Lemma parsed_of_fields p :
  t_src_port (parsed_of p) = tp_src_port p ∧ t_dst_port (parsed_of p) = tp_dst_port p ∧
  t_seq (parsed_of p) = tp_seq p ∧ t_ack_seq (parsed_of p) = tp_ack_seq p ∧ t_syn (parsed_of p) = tp_syn p ∧
  t_ack (parsed_of p) = tp_ack p ∧ t_psh (parsed_of p) = tp_psh p ∧ t_rst (parsed_of p) = false ∧
  t_has_ts (parsed_of p) = true ∧ t_ts_ack (parsed_of p) = tp_ts_ack p.
Proof. by split_and!. Qed.

Lemma recv_tcp_fields r t :
  let r' := recv_tcp r t in
  pi_src_ip r' = pi_src_ip r ∧ pi_dst_ip r' = pi_dst_ip r ∧ pi_src_port r' = t_src_port t ∧
  pi_dst_port r' = t_dst_port t ∧ pi_seq r' = t_seq t ∧ pi_ack_seq r' = t_ack_seq t ∧ pi_syn r' = t_syn t ∧
  pi_ack r' = t_ack t ∧ pi_psh r' = t_psh t ∧ pi_rst r' = t_rst t ∧ pi_has_ts r' = t_has_ts t ∧
  pi_ts r' = t_ts t ∧ pi_ts_ack r' = t_ts_ack t.
Proof. unfold recv_tcp. cbv zeta. case_ifs; by split_and!. Qed.

Lemma parse_recv_reads A B s rb ll payload pkt seg :
  info_ok s → peers A B s rb → packet_reads A s pkt seg →
  segment_reads (rc_raw_mode A) (rc_is_client A) s payload seg →
  ∃ rb', parse_recv B rb pkt ll = Done (Some payload, rb') ∧ send_info rb' = send_info rb ∧
    recv_reads (rc_raw_mode A) s payload (recv_info rb').
Proof.
  intros Hs Hpe Hpk Hseg. destruct (Hpk true) as (p & Ep & Es & Ed & Epr & Epl).
  pose proof (pe_port _ _ _ _ Hpe) as Hport. unfold parse_recv.
  rewrite (pe_v6 _ _ _ _ Hpe), <-(pe_family _ _ _ _ Hpe), Ep, bind_Done.
  replace (match rc_bind_addr B with Some b => negb (bool_decide (ip_dst p = b)) | None => false end) with false
    by (destruct (pe_bind _ _ _ _ Hpe) as [->| ->]; [done|by rewrite Ed, bool_decide_true]).
  cbv zeta iota. set (rb0 := if rc_lower_level B then _ else _).
  assert (send_info rb0 = send_info rb) as H0 by (unfold rb0; by destruct (rc_lower_level B)).
  clearbody rb0. rewrite Epl, bind_Done, Epr, Es, Ed, (pe_mode _ _ _ _ Hpe). unfold mode_protocol, recv_reads.
  destruct (rc_raw_mode A); cbn [segment_reads] in Hseg.
  - destruct Hseg as (window & ts & ->). rewrite Z.eqb_refl, bind_Done. cbn iota.
    pose proof (parsed_of_fields (tcp_send_params s window ts)) as Hf.
    set (t := parsed_of (tcp_send_params s window ts)) in *. destruct Hf as (?&?&?&?&?&?&?&?&?&?). clearbody t.
    rewrite Hport. replace (t_dst_port t) with (pi_dst_port s) by done.
    rewrite Z.eqb_refl. replace (t_rst t) with false by done. cbn [negb].
    eexists. split; [reflexivity|]. cbn.
    destruct (recv_tcp_fields (set_pi_dst_ip (pi_dst_ip s) (set_pi_src_ip (pi_src_ip s) (recv_info rb0))) t)
      as (?&?&?&?&?&?&?&?&?&?&?&?&?). split; [done|]. split_and!; try done; (etrans; [eassumption|done]).
  - rewrite Hseg, Z.eqb_refl, bind_Done. cbn iota. rewrite Hport, Z.eqb_refl. cbn [negb].
    eexists. split; [reflexivity|]. by cbn.
  - destruct Hseg as (ty & Hseg). unfold want_icmp. rewrite (pe_v6 _ _ _ _ Hpe), Z.eqb_refl.
    rewrite (pe_role _ _ _ _ Hpe), Hseg, bind_Done. cbn [icmp_id icmp_seq negb].
    rewrite <-H0 in Hport. cbn [send_info upd_recv set_recv_info]. rewrite Hport, Z.eqb_refl. cbn [negb].
    eexists. split; [reflexivity|]. by cbn.
Qed.

(** The malformed header [parse_tcp] does not survive. *)
Definition short_doff (seg : list Z) : Prop := 20 ≤ zlen seg ∧ 1 ≤ Z.shiftr (nth 12 seg 0) 4 ≤ 4.

(** The context takes the packet to be a TCP segment for it. *)
Definition tcp_candidate (ctx : RawCtx) (buf seg : list Z) : Prop :=
  rc_raw_mode ctx = FakeTcp ∧ ∃ p, parse_ip buf (rc_is_v6 ctx) true = Done (Some p) ∧
    ip_payload p buf = Done seg ∧ ip_protocol p = IPPROTO_TCP ∧
    (∀ b, rc_bind_addr ctx = Some b → ip_dst p = b).

Lemma ip_payload_bytes buf p seg : bytes buf → ip_payload p buf = Done seg → bytes seg.
Proof. unfold ip_payload. intros Hb (_ & _ & ->)%slice_inv. auto with bytes. Qed.

Lemma parse_recv_panic ctx raw buf ll : bytes buf →
  parse_recv ctx raw buf ll = Panic ↔ ∃ seg, tcp_candidate ctx buf seg ∧ short_doff seg.
Proof.
  intros Hb. destruct (parse_ip_total buf (rc_is_v6 ctx) true Hb) as (r & Er & Hr).
  assert (∀ seg, tcp_candidate ctx buf seg → ∃ p, r = Some p ∧ ip_payload p buf = Done seg ∧
    ip_protocol p = IPPROTO_TCP ∧ (∀ b, rc_bind_addr ctx = Some b → ip_dst p = b)) as Hcand.
  { intros seg (_ & p & Ep & ?). exists p. split; [congruence|done]. }
  unfold parse_recv. rewrite Er, bind_Done. destruct r as [p|].
  2:{ split; [done|]. intros (seg & (p & ? & _)%Hcand & _). done. }
  destruct (Hr p eq_refl) as [Hok _]. destruct (ip_payload_total buf p Hok) as (seg & Es & _).
  destruct Hok as (Hs & Hd & Hf & _). pose proof (ip_payload_bytes _ _ _ Hb Es) as Hsb.
  assert (∀ seg', tcp_candidate ctx buf seg' → seg' = seg ∧ ip_protocol p = IPPROTO_TCP ∧
    (∀ b, rc_bind_addr ctx = Some b → ip_dst p = b)) as Hseg.
  { intros seg' (p' & [= <-] & E' & ?)%Hcand. split; [congruence|done]. }
  set (b := match rc_bind_addr ctx with Some b => _ | None => _ end). destruct b eqn:Eb.
  { split; [done|]. intros (seg' & (_ & _ & Hbd)%Hseg & _). unfold b in Eb.
    destruct (rc_bind_addr ctx) as [a|]; [|done]. by rewrite bool_decide_true in Eb by auto. }
  assert (∀ a, rc_bind_addr ctx = Some a → ip_dst p = a) as Hbd.
  { intros a Ha. unfold b in Eb. rewrite Ha in Eb. by apply negb_false_iff, bool_decide_eq_true in Eb. }
  clearbody b. rewrite Es, bind_Done. cbv zeta.
  destruct (rc_raw_mode ctx) eqn:Em.
  - destruct (Z.eqb_spec (ip_protocol p) IPPROTO_TCP) as [Ep|Ep]; cbn [negb].
    2:{ split; [done|]. intros (? & (_ & ? & _)%Hseg & _). done. }
    pose proof (parse_tcp_panic seg (ip_src p) (ip_dst p) Hsb Hs Hd Hf) as Hp.
    destruct (parse_tcp seg (ip_src p) (ip_dst p)) as [t|] eqn:Et.
    + rewrite bind_Done. transitivity False.
      * split; [|done]. destruct t as [[t data]|]; [|done]. by destruct (negb _).
      * split; [done|]. intros (seg' & (-> & _)%Hseg & Hsh). destruct Hp as [_ Hp]. by specialize (Hp Hsh).
    + split; [|done]. intros _. exists seg. split; [split; [done|exists p; auto]|]. by apply Hp.
  - transitivity False; [|split; [done|]; intros (? & (? & _) & _); congruence]. split; [|done].
    destruct (negb _); [done|]. destruct (parse_udp_total seg (ip_src p) (ip_dst p) Hs Hd Hf) as (u & ->).
    rewrite bind_Done. destruct u as [[[sp dp] data]|]; [|done]. by destruct (negb _).
  - transitivity False; [|split; [done|]; intros (? & (? & _) & _); congruence]. split; [|done].
    destruct (negb _); [done|].
    destruct (parse_icmp_total seg (ip_src p) (ip_dst p) (rc_is_client ctx) Hs Hd Hf) as (u & ->).
    rewrite bind_Done. destruct u as [[h data]|]; [|done]. by destruct (negb _).
Qed.

Lemma from_be2_u16 (a b : Z) : is_byte a → is_byte b → is_u 16 (from_be [a; b]).
Proof. apply from_be2_range. Qed.

Definition raw_ok (raw : RawInfo) : Prop := info_ok (send_info raw) ∧ info_ok (recv_info raw).

Lemma info_ok_ips r src dst : info_ok r → ip_ok src → ip_ok dst → same_family src dst →
  info_ok (set_pi_dst_ip dst (set_pi_src_ip src r)).
Proof. intros [] ???. by constructor. Qed.
Lemma info_ok_data_len r n : info_ok r → info_ok (set_pi_data_len n r).
Proof. intros []. by constructor. Qed.
Lemma recv_tcp_ok r t : info_ok r → is_u 16 (t_src_port t) → is_u 16 (t_dst_port t) → is_u 32 (t_seq t) →
  is_u 32 (t_ack_seq t) → is_u 32 (t_ts t) → is_u 32 (t_ts_ack t) → info_ok (recv_tcp r t).
Proof. intros [] ??????. unfold recv_tcp. cbv zeta. case_ifs; by constructor. Qed.

(** The parser touches only the receive side and the RST accounting, and keeps the
    widths of the fields. *)
Lemma parse_recv_ok ctx raw buf ll o raw' : bytes buf → raw_ok raw →
  parse_recv ctx raw buf ll = Done (o, raw') →
  raw_ok raw' ∧ send_info raw' = send_info raw ∧ (∀ data, o = Some data → bytes data ∧ zlen data ≤ zlen buf).
Proof.
  intros Hb [Hs Hr] H. unfold parse_recv in H. destruct (parse_ip_total buf (rc_is_v6 ctx) true Hb) as (r & Er & Hip).
  rewrite Er, bind_Done in H. destruct r as [p|]; [|by simplify_eq].
  destruct (Hip p eq_refl) as [Hok _]. destruct (ip_payload_total buf p Hok) as (seg & Es & Hsl).
  destruct Hok as (Hsrc & Hdst & Hf & _ & ? & ?). pose proof (ip_payload_bytes _ _ _ Hb Es) as Hsb.
  revert H. cbv zeta. set (raw0 := if rc_lower_level ctx then _ else _).
  assert (raw_ok raw0 ∧ send_info raw0 = send_info raw) as [[Hs0 Hr0] <-].
  { unfold raw0. destruct (rc_lower_level ctx); [|done]. split; [split; [done|]|done]. by destruct Hr. }
  clearbody raw0. destruct (match rc_bind_addr ctx with Some _ => _ | None => _ end); [by intros [= <- <-]|].
  set (raw1 := upd_recv _ raw0).
  assert (raw_ok raw1) as [Hs1 Hr1] by (split; [done|by apply info_ok_ips]).
  assert (send_info raw1 = send_info raw0) as <- by done. clearbody raw1.
  rewrite Es, bind_Done. assert (∀ n, bytes (drop n seg) ∧ zlen (drop n seg) ≤ zlen buf) as Hdrop.
  { intros n. split; [auto with bytes|]. rewrite zlen_drop. lia. }
  assert (∀ i j, is_u 16 (from_be [nth i seg 0; nth j seg 0])) as Hnth.
  { intros i j. apply from_be2_u16; by apply nth_byte. }
  destruct (rc_raw_mode ctx).
  - destruct (negb _); [by intros [= <- <-]|]. destruct (parse_tcp seg (ip_src p) (ip_dst p)) as [t|] eqn:Et; [|done].
    rewrite bind_Done. destruct t as [[t data]|]; [|by intros [= <- <-]].
    destruct (parse_tcp_fields seg _ _ t data Hsb Et) as (_ & Esp & Edp & _ & ? & ? & ? & ? & n & ->).
    destruct (negb _); [by intros [= <- <-]|]. set (raw2 := upd_recv (λ r, recv_tcp r t) raw1).
    assert (info_ok (recv_info raw2)) as Hr2 by (apply recv_tcp_ok; rewrite ?Esp, ?Edp; done).
    assert (send_info raw2 = send_info raw1) as E2 by done. rewrite <-E2. rewrite <-E2 in Hs1. clearbody raw2.
    intros [= <- <-]. set (raw3 := if t_rst t then recv_rst ctx raw2 else raw2).
    assert (recv_info raw3 = recv_info raw2 ∧ send_info raw3 = send_info raw2) as [E3 E3'].
    { unfold raw3, recv_rst. cbv zeta. case_ifs; done. }
    clearbody raw3. unfold raw_ok. cbn. rewrite E3, E3'.
    split; [split; [done|by apply info_ok_data_len]|]. split; [done|]. intros d [= <-]. apply Hdrop.
  - destruct (negb _); [by intros [= <- <-]|]. destruct (parse_udp seg (ip_src p) (ip_dst p)) as [u|] eqn:Eu; [|done].
    rewrite bind_Done. destruct u as [[[sp dp] data]|]; [|by intros [= <- <-]].
    destruct (parse_udp_fields seg _ _ _ _ _ Eu) as (_ & -> & -> & ->).
    destruct (negb _); [by intros [= <- <-]|]. intros [= <- <-]. split; [split; [done|]|].
    + destruct Hr1. constructor; cbn; first [done | apply Hnth].
    + split; [done|]. intros d [= <-]. apply Hdrop.
  - destruct (negb _); [by intros [= <- <-]|].
    destruct (parse_icmp seg (ip_src p) (ip_dst p) (rc_is_client ctx)) as [u|] eqn:Eu; [|done].
    rewrite bind_Done. destruct u as [[h data]|]; [|by intros [= <- <-]].
    destruct (parse_icmp_fields seg _ _ _ _ _ Eu) as (_ & -> & -> & ->).
    destruct (negb _); [by intros [= <- <-]|]. intros [= <- <-]. split; [split; [done|]|].
    + destruct Hr1. constructor; cbn; first [done | apply Hnth].
    + split; [done|]. intros d [= <-]. apply Hdrop.
Qed.

Lemma peek_total ctx buf : bytes buf → ∃ r, peek ctx buf = Done r.
Proof.
  intros Hb. unfold peek. destruct (parse_ip_total buf (rc_is_v6 ctx) false Hb) as (r & -> & Hr).
  rewrite bind_Done. destruct r as [p|]; [|eauto]. destruct (Hr p eq_refl) as [Hok _].
  destruct (ip_payload_total buf p Hok) as (seg & -> & _). rewrite bind_Done.
  unfold TCP_MIN_HEADER, UDP_HEADER_LEN, ICMP_HEADER_LEN.
  destruct (rc_raw_mode ctx); destruct (_ || _) eqn:E; eauto; apply orb_false_iff in E as [_ E];
    done_idx; eauto.
Qed.

(** The outermost test of a hypothesis still in the goal. *)
Ltac head_if := match goal with |- (if ?b then _ else _) = _ → _ => destruct b end.

(** The cheap look and the full parser agree on the packets the latter accepts. *)
Lemma peek_agrees ctx raw buf ll data raw' : bytes buf →
  parse_recv ctx raw buf ll = Done (Some data, raw') →
  ∃ syn, peek ctx buf = Done (Some (mkPeekInfo (pi_src_ip (recv_info raw')) (pi_src_port (recv_info raw')) syn)) ∧
    (rc_raw_mode ctx = FakeTcp → syn = pi_syn (recv_info raw')).
Proof.
  intros Hb H. unfold parse_recv in H. unfold peek.
  destruct (parse_ip_total buf (rc_is_v6 ctx) true Hb) as (r & Er & Hip).
  rewrite Er, bind_Done in H. destruct r as [p|]; [|done].
  rewrite (parse_ip_unchecked _ _ _ Er), bind_Done.
  destruct (Hip p eq_refl) as [Hok _]. destruct (ip_payload_total buf p Hok) as (seg & Es & Hsl).
  pose proof (ip_payload_bytes _ _ _ Hb Es) as Hsb.
  revert H. cbv zeta. set (raw0 := if rc_lower_level ctx then _ else _). clearbody raw0.
  destruct (match rc_bind_addr ctx with Some _ => _ | None => _ end); [done|].
  rewrite Es, !bind_Done. unfold TCP_MIN_HEADER, UDP_HEADER_LEN, ICMP_HEADER_LEN, want_icmp.
  destruct (rc_raw_mode ctx); destruct (negb _); try done; cbn [orb].
  - destruct (parse_tcp seg (ip_src p) (ip_dst p)) as [t|] eqn:Et; [|done].
    rewrite bind_Done. destruct t as [[t d]|]; [|done].
    destruct (parse_tcp_fields seg _ _ t d Hsb Et) as (Hl & Esp & _ & Esyn & _).
    head_if; [done|]. intros [= _ <-]. exec_if. done_idx.
    set (raw1 := if t_rst t then _ else _).
    assert (recv_info raw1 = recv_tcp (set_pi_dst_ip (ip_dst p) (set_pi_src_ip (ip_src p) (recv_info raw0))) t) as E1.
    { unfold raw1, recv_rst. cbv zeta. case_ifs; done. }
    clearbody raw1. cbn. rewrite E1.
    destruct (recv_tcp_fields (set_pi_dst_ip (ip_dst p) (set_pi_src_ip (ip_src p) (recv_info raw0))) t)
      as (-> & _ & -> & _ & _ & _ & -> & _).
    rewrite Esp, Esyn. eexists. split; [reflexivity|]. done.
  - destruct (parse_udp seg (ip_src p) (ip_dst p)) as [u|] eqn:Eu; [|done].
    rewrite bind_Done. destruct u as [[[sp dp] d]|]; [|done].
    destruct (parse_udp_fields seg _ _ _ _ _ Eu) as (Hl & -> & -> & _).
    head_if; [done|]. intros [= _ <-]. exec_if. done_idx. by eexists.
  - destruct (parse_icmp seg (ip_src p) (ip_dst p) (rc_is_client ctx)) as [u|] eqn:Eu; [|done].
    rewrite bind_Done. destruct u as [[h d]|]; [|done].
    destruct (parse_icmp_fields seg _ _ _ _ _ Eu) as (Hl & -> & -> & _).
    head_if; [done|]. intros [= _ <-]. exec_if. done_idx. by eexists.
Qed.

(** * Sequence and acknowledgement numbers *)

(** The distance from [a] forward to [b] on the 32-bit circle. *)
Definition ahead (a b : Z) : Z := (b - a) mod 2 ^ 32.

Lemma ahead_refl a : ahead a a = 0.
Proof. unfold ahead. by rewrite Z.sub_diag. Qed.
Lemma ahead_add a n : 0 ≤ n < 2 ^ 32 → ahead a (a +⟨32⟩ n) = n.
Proof.
  intros Hn. unfold ahead, wrap. rewrite Zminus_mod_idemp_l. replace (a + n - a) with n by lia.
  by apply Z.mod_small.
Qed.

Definition window_of (seq_mode : Z) : Z := if seq_mode =? 3 then 1310720 else 40960.

(** Two facts about the comparisons of [after_send]: not behind the acknowledgement
    and not past the window means inside the window. *)
Lemma inside_window a s w :
  1800 < w < 2 ^ 31 → larger_than_u32 a s = false →
  larger_than_u32 (s +⟨32⟩ 1800) (a +⟨32⟩ w) = false → ahead a s ≤ w - 1800.
Proof.
  intros Hw H1 H2. unfold ahead.
  assert (¬ (0 < (a - s) mod 2 ^ 32 < 2 ^ 31)) as H1' by (rewrite <-larger_than_u32_spec; congruence).
  assert (¬ (0 < (s - a + 1800 - w) mod 2 ^ 32 < 2 ^ 31)) as H2'.
  { intros H. apply not_true_iff_false in H2. apply H2, larger_than_u32_spec. unfold wrap.
    rewrite <-Zminus_mod. by replace (s + 1800 - (a + w)) with (s - a + 1800 - w) by lia. }
  pose proof (Z.mod_pos_bound (s - a) (2 ^ 32) ltac:(lia)) as Hd.
  set (d := (s - a) mod 2 ^ 32) in *.
  assert ((a - s) mod 2 ^ 32 = (2 ^ 32 - d) mod 2 ^ 32) as E1.
  { unfold d. rewrite Zminus_mod_idemp_r. replace (2 ^ 32 - (s - a)) with (a - s + 1 * 2 ^ 32) by lia.
    by rewrite Z.mod_add by lia. }
  assert ((s - a + 1800 - w) mod 2 ^ 32 = (d + 1800 - w) mod 2 ^ 32) as E2.
  { unfold d. rewrite <-Zminus_mod_idemp_l, <-(Zplus_mod_idemp_l (s - a)), Zminus_mod_idemp_l. done. }
  rewrite E1 in H1'. rewrite E2 in H2'. clear E1 E2 H1 H2. clearbody d.
  destruct (decide (d ≤ w - 1800)); [done|]. exfalso.
  assert (0 ≤ 2 ^ 32 - d < 2 ^ 32 ∧ 0 ≤ d + 1800 - w < 2 ^ 32) as [? ?] by (clear H1' H2'; lia).
  rewrite Z.mod_small in H1' by done. rewrite Z.mod_small in H2' by done. lia.
Qed.

Lemma larger_irrefl a : larger_than_u32 a a = false.
Proof. apply not_true_iff_false. rewrite larger_than_u32_spec, Z.sub_diag, Z.mod_0_l; lia. Qed.

Lemma after_send_window_inside seq_mode raw len :
  let raw' := after_send_window seq_mode raw len in
  pi_ack_seq (recv_info raw') = pi_ack_seq (recv_info raw) ∧
  (pi_seq (send_info raw') = pi_seq (send_info raw) +⟨32⟩ len ∨
   pi_seq (send_info raw') = pi_ack_seq (recv_info raw)) ∧
  ahead (pi_ack_seq (recv_info raw)) (pi_seq (send_info raw')) ≤ window_of seq_mode - 1800.
Proof.
  unfold after_send_window. cbv zeta.
  assert (1800 < window_of seq_mode < 2 ^ 31) as Hw by (unfold window_of; destruct (seq_mode =? 3); lia).
  replace (if seq_mode =? 3 then wrap 32 (Z.shiftl RECEIVE_WINDOW_LOWER_BOUND WSCALE) else RECEIVE_WINDOW_LOWER_BOUND)
    with (window_of seq_mode) by (unfold window_of; by destruct (seq_mode =? 3)).
  change MAX_DATA_LEN with 1800.
  set (raw1 := upd_send _ raw).
  set (a := pi_ack_seq (recv_info raw)). set (s := pi_seq (send_info raw) +⟨32⟩ len).
  pose (Good r := pi_ack_seq (recv_info r) = a ∧ (pi_seq (send_info r) = a ∨ (pi_seq (send_info r) = s ∧
    larger_than_u32 (s +⟨32⟩ 1800) (a +⟨32⟩ window_of seq_mode) = false))).
  set (raw2 := if larger_than_u32 _ _ then _ else raw1).
  assert (Good raw2) as H2.
  { unfold raw2. change (pi_seq (send_info raw1)) with s. change (pi_ack_seq (recv_info raw1)) with a.
    destruct (larger_than_u32 _ _) eqn:E1; (split; [done|]); [by left|by right]. }
  clearbody raw2. set (raw3 := if 3 <=? _ then _ else raw2).
  assert (Good raw3) as [Ha H3].
  { unfold raw3. destruct (3 <=? _); [|done]. destruct H2 as [H2 _]. split; [exact H2|]. left. exact H2. }
  clearbody raw3. rewrite Ha.
  assert (ahead a a ≤ window_of seq_mode - 1800) as Haa by (rewrite ahead_refl; lia).
  destruct (larger_than_u32 a (pi_seq (send_info raw3))) eqn:E3; cbn.
  - split; [done|]. split; [by right|exact Haa].
  - split; [done|]. destruct H3 as [->|[Hs Hw2]]; [by auto|]. rewrite Hs in *. split; [by left|].
    by apply inside_window.
Qed.

Lemma after_recv_ack_spec ctx raw m :
  is_u 32 (pi_ack_seq (send_info raw)) → 0 ≤ rm_data_len m < 2 ^ 31 → rc_raw_mode ctx = FakeTcp →
  let a := pi_ack_seq (send_info raw) in
  let a' := pi_ack_seq (send_info (after_recv ctx raw m)) in
  let counts := negb (rm_syn m) && rm_ack m && negb (rm_data_len m =? 0) in
  ahead a a' < 2 ^ 31 ∧
  (a' = a ∨ (counts = true ∧ a' = rm_seq m +⟨32⟩ rm_data_len m)) ∧
  (2 < rc_seq_mode ctx → ahead a a' = if counts && (rm_seq m =? a) then rm_data_len m else 0).
Proof.
  intros Ha Hl Hm. cbv zeta. unfold after_recv. rewrite Hm.
  rewrite (wrap_small 32 (rm_data_len m)) by (unfold is_u; lia).
  destruct (rm_has_ts m); cbv zeta; destruct (negb (rm_syn m) && rm_ack m && negb (rm_data_len m =? 0));
    cbn; rewrite ?ahead_refl; try (split_and!; [lia|by left|done]).
  all: destruct (rc_seq_mode ctx <=? 2) eqn:E; cbn.
  all: try (destruct (larger_than_u32 _ _) eqn:El; cbn;
    [apply larger_than_u32_spec in El; split_and!; [unfold ahead; lia|by right|lia]
    |rewrite ahead_refl; split_and!; [lia|by left|lia]]).
  all: destruct (Z.eqb_spec (rm_seq m) (pi_ack_seq (send_info raw))) as [->|]; cbn;
    rewrite ?ahead_refl, ?ahead_add by lia; split_and!; try lia; auto.
Qed.

(** * Widths *)
Lemma runs_info_new mode v6 w (Q : PacketInfo → World → Prop) :
  env_ok w → (∀ p w', info_ok p → later w w' → env_ok w' → w_trace w' = w_trace w → Q p w') →
  runs (PacketInfo_new mode v6) w Q.
Proof.
  intros Hw HQ. unfold PacketInfo_new.
  assert (∀ a s b, is_u 32 a → is_u 32 s → info_ok (mkPacketInfo (unspecified v6) (unspecified v6) 0 0 false b
    false false s a 0 0 0 false 0 0 sockaddr_ll_zeroed)) as Hok.
  { intros a s b Ha Hs. assert (ip_ok (unspecified v6)) by (destruct v6; split; [auto with bytes|done|auto with bytes|done]).
    by constructor. }
  case_bool_decide.
  - apply runs_bind, runs_secure_u32; [done|]. intros a w1 _ Ha Hl1 Ht1 _ _ Hw1.
    apply runs_bind, runs_secure_u32; [done|]. intros s w2 _ Hs Hl2 Ht2 _ _ Hw2. apply runs_ret.
    apply HQ; [by apply Hok|by transitivity w1|done|congruence].
  - apply runs_ret. apply HQ; [by apply Hok|done|done|done].
Qed.
Lemma runs_raw_new mode v6 w (Q : RawInfo → World → Prop) :
  env_ok w → (∀ r w', raw_ok r → rst_received r = 0 → ri_disabled r = false → later w w' → env_ok w' →
     w_trace w' = w_trace w → Q r w') →
  runs (RawInfo_new mode v6) w Q.
Proof.
  intros Hw HQ. unfold RawInfo_new. apply runs_bind, runs_info_new; [done|]. intros s w1 Hs Hl1 Hw1 Ht1.
  apply runs_bind, runs_info_new; [done|]. intros r w2 Hr Hl2 Hw2 Ht2. apply runs_ret.
  apply HQ; [by split|done|done|by transitivity w1|done|congruence].
Qed.

Lemma raw_ok_seq raw s : raw_ok raw → is_u 32 s → raw_ok (upd_send (set_pi_seq s) raw).
Proof. intros [[] Hr] Hs. split; [by constructor|done]. Qed.
Lemma raw_ok_ack raw s : raw_ok raw → is_u 32 s → raw_ok (upd_send (set_pi_ack_seq s) raw).
Proof. intros [[] Hr] Hs. split; [by constructor|done]. Qed.
Lemma raw_ok_icmp raw s : raw_ok raw → is_u 16 s → raw_ok (upd_send (set_pi_icmp_seq s) raw).
Proof. intros [[] Hr] Hs. split; [by constructor|done]. Qed.
Lemma raw_ok_len raw n : raw_ok raw → raw_ok (upd_send (set_pi_data_len n) raw).
Proof. intros [[] Hr]. split; [by constructor|done]. Qed.
Lemma sent_raw_ok ctx raw payload : raw_ok raw → raw_ok (sent_raw ctx raw payload).
Proof. unfold sent_raw. intros. case_bool_decide; [by apply raw_ok_len|done]. Qed.

Lemma after_send_window_ok seq_mode raw len : raw_ok raw → raw_ok (after_send_window seq_mode raw len).
Proof.
  intros Hr. unfold after_send_window. cbv zeta. set (raw1 := upd_send _ raw).
  assert (raw_ok raw1) as H1 by (apply raw_ok_seq; [done|apply wrap_range; lia]).
  clearbody raw1. set (raw2 := if larger_than_u32 _ _ then _ else raw1).
  assert (raw_ok raw2) as H2 by (unfold raw2; case_ifs; [apply raw_ok_seq; [done|apply H1]|done]).
  clearbody raw2. set (raw3 := if 3 <=? _ then _ else raw2).
  assert (raw_ok raw3) as H3.
  { unfold raw3. case_ifs; [|done]. apply raw_ok_seq; [|apply H2]. destruct H2 as [? []]. split; [done|by constructor]. }
  clearbody raw3. case_ifs; [apply raw_ok_seq; [done|apply H3]|done].
Qed.

Lemma runs_after_send ctx raw w (Q : RawInfo → World → Prop) :
  env_ok w → raw_ok raw → (∀ raw' w', raw_ok raw' → later w w' → env_ok w' → w_trace w' = w_trace w → Q raw' w') →
  runs (after_send ctx raw) w Q.
Proof.
  intros Hw Hr HQ. unfold after_send.
  assert (∀ w', later w w' → env_ok w' → w_trace w' = w_trace w → runs (mret raw) w' Q) as Hsame
    by (intros; apply runs_ret; auto).
  assert (∀ s w', is_u 32 s → later w w' → env_ok w' → w_trace w' = w_trace w →
    runs (mret (upd_send (set_pi_seq s) raw)) w' Q) as Hseq
    by (intros; apply runs_ret; auto using raw_ok_seq).
  assert (∀ a b, is_u 32 (a +⟨32⟩ b)) as Hwr by (intros; apply wrap_range; lia).
  destruct (rc_raw_mode ctx); [|by apply Hsame|].
  - destruct (_ && _); [|by apply Hsame]. destruct (_ =? 0); [by apply Hsame|].
    destruct (_ =? 1); [by apply Hseq|].
    destruct (_ =? 2).
    + apply runs_bind, runs_fast; [done|]. intros r w1 _ Hl1 Ht1 Hw1. destruct (_ =? 3); auto.
    + apply runs_ret, HQ; [by apply after_send_window_ok|reflexivity|exact Hw|reflexivity].
  - destruct (rc_is_client ctx); [|by apply Hsame].
    apply runs_ret, HQ; [|reflexivity|exact Hw|reflexivity]. apply raw_ok_icmp; [done|apply wrap_range; lia].
Qed.

Lemma after_recv_ok ctx raw m : raw_ok raw → is_u 32 (rm_ts m) → is_u 16 (rm_icmp_seq m) →
  raw_ok (after_recv ctx raw m).
Proof.
  intros Hr Ht Hi. unfold after_recv. destruct (rc_raw_mode ctx); [|done|].
  - set (raw1 := if rm_has_ts m then _ else _).
    assert (raw_ok raw1) as H1.
    { unfold raw1. case_ifs; [|done]. destruct Hr as [[] ?]. split; [by constructor|done]. }
    clearbody raw1. cbv zeta. case_ifs; try done; (apply raw_ok_ack; [done|apply wrap_range; lia]).
  - case_ifs; [by apply raw_ok_icmp|done].
Qed.

(** * Theorems *)

(** C21. Link round trip: in each raw mode and address family, what [send_raw] queues for
    an enabled connection is accepted by the peer's [parse_recv], which returns
    exactly the payload and records the sender's addresses, ports and (FakeTCP)
    sequence numbers and flags, or (ICMP) sequence number; the sender's connection
    state changes only in the recorded payload length. *)
Theorem link_roundtrip (A B : RawCtx) (ra rb : RawInfo) (payload : list Z) (ll : SockaddrLl) (w : World)
    (Hw : env_ok w) (HA : ctx_ok A) (Hs : info_ok (send_info ra)) (Hp : payload_ok payload)
    (Hd : rc_random_drop A = 0) (He : ri_disabled ra = false)
    (Hq : zlen (rc_tx_queue A) < TX_QUEUE_FLUSH - 1) (Hpe : peers A B (send_info ra) rb) :
  ∃ A' w' pkt rb',
    send_raw A ra payload w = Done ((A', sent_raw A ra payload), w') ∧
    rc_tx_queue A' = rc_tx_queue A ++ [tx_of A (send_info ra) pkt] ∧
    parse_recv B rb pkt ll = Done (Some payload, rb') ∧
    send_info rb' = send_info rb ∧
    recv_reads (rc_raw_mode A) (send_info ra) payload (recv_info rb').
Proof.
  destruct (runs_send_raw A ra payload w (λ r _, ∃ pkt seg, r.2 = sent_raw A ra payload ∧
    rc_tx_queue r.1 = rc_tx_queue A ++ [tx_of A (send_info ra) pkt] ∧
    segment_reads (rc_raw_mode A) (rc_is_client A) (send_info ra) payload seg ∧
    packet_reads A (send_info ra) pkt seg) Hw HA Hs Hp) as ([A' ra'] & w' & E & pkt & seg & Hr & Hq' & Hseg & Hpk).
  - intros w' [?|?]; congruence.
  - intros A' pkt seg w' _ Hseg Hpk _ _ Hq'. destruct (Hq' Hq) as [_ ?]. by exists pkt, seg.
  - simpl in Hr, Hq'. subst ra'.
    destruct (parse_recv_reads A B _ rb ll payload pkt seg Hs Hpe Hpk Hseg) as (rb' & Ep & ? & ?).
    by exists A', w', pkt, rb'.
Qed.

(** C35. [parse_recv] aborts the process on exactly the packets that the context takes for
    a TCP segment of its own and whose data offset is 1 to 4; in the UDP and ICMP
    modes, and on every other packet, it returns. *)
Theorem recv_panics_iff (ctx : RawCtx) (raw : RawInfo) (buf : list Z) (ll : SockaddrLl) (Hb : bytes buf) :
  parse_recv ctx raw buf ll = Panic ↔ ∃ seg, tcp_candidate ctx buf seg ∧ short_doff seg.
Proof. by apply parse_recv_panic. Qed.

(** [peek], by which the server routes a packet, never panics, and on every packet the
    full parser accepts it reports the source address and port, and the SYN flag, that
    the parser records. *)
Theorem peek_routes (ctx : RawCtx) (buf : list Z) (Hb : bytes buf) :
  (∃ r, peek ctx buf = Done r) ∧
  ∀ raw ll data raw', parse_recv ctx raw buf ll = Done (Some data, raw') →
    ∃ syn, peek ctx buf
      = Done (Some (mkPeekInfo (pi_src_ip (recv_info raw')) (pi_src_port (recv_info raw')) syn)) ∧
      (rc_raw_mode ctx = FakeTcp → syn = pi_syn (recv_info raw')).
Proof. split; [by apply peek_total|]. intros. by eapply peek_agrees. Qed.

(** C38. Sequence emulation, modes 3 and 4: after a data packet the next sequence number is
    the old one advanced by the payload, or the peer's last acknowledgement, and in
    every case it lies at most [window - 1800] bytes ahead of that acknowledgement, so a
    full-size packet never leaves the advertised window (1310720 bytes scaled, 40960
    unscaled). *)
Theorem after_send_in_window (ctx : RawCtx) (raw : RawInfo) (w : World)
    (Hm : rc_raw_mode ctx = FakeTcp) (Hq : 2 < rc_seq_mode ctx)
    (Hsyn : pi_syn (send_info raw) = false) (Hack : pi_ack (send_info raw) = true)
    (Hl : 0 < pi_data_len (send_info raw) < 2 ^ 32) :
  ∃ raw', after_send ctx raw w = Done (raw', w) ∧
    (pi_seq (send_info raw') = pi_seq (send_info raw) +⟨32⟩ pi_data_len (send_info raw) ∨
     pi_seq (send_info raw') = pi_ack_seq (recv_info raw)) ∧
    ahead (pi_ack_seq (recv_info raw)) (pi_seq (send_info raw')) ≤ window_of (rc_seq_mode ctx) - 1800.
Proof.
  unfold after_send. rewrite Hm, Hsyn, Hack, wrap_small by (unfold is_u; lia).
  replace (pi_data_len (send_info raw) =? 0) with false by lia. cbn [negb andb].
  replace (rc_seq_mode ctx =? 0) with false by lia. replace (rc_seq_mode ctx =? 1) with false by lia.
  replace (rc_seq_mode ctx =? 2) with false by lia.
  eexists. split; [reflexivity|]. apply after_send_window_inside.
Qed.

(** Acknowledgement emulation: a received segment never moves the acknowledgement
    number backwards; it stays, or becomes the end of a data segment; and in modes 3 and
    4 it advances exactly by the length of a segment that starts where the last one
    ended, and by nothing otherwise. *)
Theorem after_recv_ack (ctx : RawCtx) (raw : RawInfo) (m : RecvMeta)
    (Ha : is_u 32 (pi_ack_seq (send_info raw))) (Hl : 0 ≤ rm_data_len m < 2 ^ 31)
    (Hm : rc_raw_mode ctx = FakeTcp) :
  let a := pi_ack_seq (send_info raw) in
  let a' := pi_ack_seq (send_info (after_recv ctx raw m)) in
  let counts := negb (rm_syn m) && rm_ack m && negb (rm_data_len m =? 0) in
  ahead a a' < 2 ^ 31 ∧
  (a' = a ∨ (counts = true ∧ a' = rm_seq m +⟨32⟩ rm_data_len m)) ∧
  (2 < rc_seq_mode ctx → ahead a a' = if counts && (rm_seq m =? a) then rm_data_len m else 0).
Proof. by apply after_recv_ack_spec. Qed.

(** * Concrete instances *)
Definition demo_info : PacketInfo :=
  mkPacketInfo addr_a addr_b 1234 443 false true true false 100 200 0 0 7 false 0 3 sockaddr_ll_zeroed.
Definition demo_raw : RawInfo := mkRawInfo demo_info demo_info 0 0 false.
Definition demo_ctx (client : bool) (port : Z) : RawCtx :=
  mkRawCtx FakeTcp false client 3 64 0 port None false false (-1) 5 [] [] 0.

Lemma demo_info_ok : info_ok demo_info.
Proof. constructor; try apply addr_ok; try (split; vm_compute; congruence). Qed.
Lemma demo_peers : peers (demo_ctx true 1234) (demo_ctx false 443) demo_info demo_raw.
Proof. constructor; try reflexivity. by left. Qed.

Lemma link_roundtrip_witness :
  ∃ A' w' pkt rb',
    send_raw (demo_ctx true 1234) demo_raw [104; 105] demo_world
      = Done ((A', sent_raw (demo_ctx true 1234) demo_raw [104; 105]), w') ∧
    rc_tx_queue A' = [] ++ [tx_of (demo_ctx true 1234) demo_info pkt] ∧
    parse_recv (demo_ctx false 443) demo_raw pkt sockaddr_ll_zeroed = Done (Some [104; 105], rb') ∧
    send_info rb' = send_info demo_raw ∧ recv_reads FakeTcp demo_info [104; 105] (recv_info rb').
Proof.
  apply (link_roundtrip (demo_ctx true 1234) (demo_ctx false 443) demo_raw demo_raw [104; 105]
           sockaddr_ll_zeroed demo_world demo_world_ok); try reflexivity.
  - split; vm_compute; congruence.
  - apply demo_info_ok.
  - split; [auto with bytes|vm_compute; congruence].
  - apply demo_peers.
Defined.

(** An IPv4 packet whose TCP segment has data offset 1. *)
Definition short_doff_packet : list Z :=
  match build_ip_header [] addr_a addr_b IPPROTO_TCP 64 1 20 with
  | Done h => h ++ short_doff_segment
  | Panic => []
  end.

Lemma recv_panics_iff_witness :
  parse_recv (demo_ctx false 443) demo_raw short_doff_packet sockaddr_ll_zeroed = Panic.
Proof.
  apply (recv_panics_iff (demo_ctx false 443) demo_raw short_doff_packet sockaddr_ll_zeroed);
    [auto with bytes|].
  exists short_doff_segment. split; [|split_and!; vm_compute; congruence].
  split; [reflexivity|]. eexists. split_and!; [vm_compute; reflexivity|reflexivity..|discriminate].
Defined.

Lemma peek_routes_witness :
  peek (demo_ctx false 443) short_doff_packet = Done (Some (mkPeekInfo addr_a 0 false)) ∧
  ∃ r, peek (demo_ctx false 443) short_doff_packet = Done r.
Proof.
  split; [vm_compute; reflexivity|].
  apply (peek_routes (demo_ctx false 443) short_doff_packet). auto with bytes.
Defined.

Lemma after_send_in_window_witness :
  ∃ raw', after_send (demo_ctx true 1234) demo_raw demo_world = Done (raw', demo_world) ∧
    (pi_seq (send_info raw') = 103 ∨ pi_seq (send_info raw') = 200) ∧
    ahead 200 (pi_seq (send_info raw')) ≤ 1308920.
Proof.
  apply (after_send_in_window (demo_ctx true 1234) demo_raw demo_world);
    try reflexivity; split; vm_compute; congruence.
Defined.

Lemma after_recv_ack_witness :
  let m := mkRecvMeta false true 200 5 false 0 0 in
  ahead 200 (pi_ack_seq (send_info (after_recv (demo_ctx true 1234) demo_raw m))) = 5.
Proof.
  apply (after_recv_ack (demo_ctx true 1234) demo_raw (mkRecvMeta false true 200 5 false 0 0));
    try reflexivity; split; vm_compute; congruence.
Defined.
