(* ===== verification/Bpf.v ===== *)
(** The kernel filters: [src/src/net/bpf.rs].

    The programs are the source's tables.  [bpf_run] is the classic BPF machine as
    documented (accumulator, index register, forward jumps, a load outside the packet
    rejects it), for the instructions the tables use. *)
From S2P Require Import Prelude Util Checksum Ip Tcp Udp Icmp Types World Config Crypto FakeTcp.

Record Insn := mkInsn { in_code : Z; in_jt : Z; in_jf : Z; in_k : Z }.

Definition TCP4 : list Insn :=
  [mkInsn 0x30 0 0 0x09; mkInsn 0x15 0 6 0x06; mkInsn 0x28 0 0 0x06; mkInsn 0x45 4 0 0x1fff;
   mkInsn 0xb1 0 0 0x00; mkInsn 0x48 0 0 0x02; mkInsn 0x15 0 1 0xfffe; mkInsn 0x06 0 0 0xffff;
   mkInsn 0x06 0 0 0x00].
Definition TCP4_PORT_INDEX : nat := 6.
Definition TCP6 : list Insn :=
  [mkInsn 0x30 0 0 0x06; mkInsn 0x15 0 3 0x06; mkInsn 0x28 0 0 0x2a; mkInsn 0x15 0 1 0xfffe;
   mkInsn 0x06 0 0 0x40000; mkInsn 0x06 0 0 0x00].
Definition TCP6_PORT_INDEX : nat := 3.
Definition UDP4 : list Insn :=
  [mkInsn 0x30 0 0 0x09; mkInsn 0x15 0 6 0x11; mkInsn 0x28 0 0 0x06; mkInsn 0x45 4 0 0x1fff;
   mkInsn 0xb1 0 0 0x00; mkInsn 0x48 0 0 0x02; mkInsn 0x15 0 1 0xfffe; mkInsn 0x06 0 0 0xffff;
   mkInsn 0x06 0 0 0x00].
Definition UDP4_PORT_INDEX : nat := 6.
Definition UDP6 : list Insn :=
  [mkInsn 0x30 0 0 0x06; mkInsn 0x15 0 3 0x11; mkInsn 0x28 0 0 0x2a; mkInsn 0x15 0 1 0xfffe;
   mkInsn 0x06 0 0 0x40000; mkInsn 0x06 0 0 0x00].
Definition UDP6_PORT_INDEX : nat := 3.
Definition ICMP4 : list Insn :=
  [mkInsn 0x30 0 0 0x09; mkInsn 0x15 0 1 0x01; mkInsn 0x06 0 0 0xffff; mkInsn 0x06 0 0 0x00].
Definition ICMP6 : list Insn :=
  [mkInsn 0x30 0 0 0x06; mkInsn 0x15 3 0 0x3a; mkInsn 0x15 0 3 0x2c; mkInsn 0x30 0 0 0x28;
   mkInsn 0x15 0 1 0x3a; mkInsn 0x06 0 0 0x40000; mkInsn 0x06 0 0 0x00].

Definition set_k (k : Z) (i : Insn) : Insn := mkInsn (in_code i) (in_jt i) (in_jf i) k.

Definition program (raw_mode : RawMode) (is_v6 : bool) (port : Z) : list Insn :=
  let '(base, port_index) :=
    match raw_mode, is_v6 with
    | FakeTcp, false => (TCP4, Some TCP4_PORT_INDEX)
    | FakeTcp, true => (TCP6, Some TCP6_PORT_INDEX)
    | RawUdp, false => (UDP4, Some UDP4_PORT_INDEX)
    | RawUdp, true => (UDP6, Some UDP6_PORT_INDEX)
    | RawIcmp, false => (ICMP4, None)
    | RawIcmp, true => (ICMP6, None)
    end in
  match port_index with
  | Some idx => alter (set_k port) idx base
  | None => base
  end.

(** * The machine *)
Definition ldb (buf : list Z) (i : Z) : option Z := if i <? zlen buf then Some (nth (Z.to_nat i) buf 0) else None.
Definition ldh (buf : list Z) (i : Z) : option Z :=
  if i + 1 <? zlen buf then Some (nth (Z.to_nat i) buf 0 * 256 + nth (Z.to_nat (i + 1)) buf 0) else None.

(** The number of bytes to keep; [0] rejects the packet.  Jumps go forward, so the
    program's length bounds the steps: the rest of the program is the argument of the
    recursion. *)
Fixpoint bpf_run (skip : nat) (prog : list Insn) (buf : list Z) (A X : Z) : Z :=
  match prog with
  | [] => 0
  | i :: prog =>
      match skip with
      | S skip => bpf_run skip prog buf A X
      | O =>
          let load v := match v with Some v => bpf_run 0 prog buf v X | None => 0 end in
          let jump (b : bool) := bpf_run (Z.to_nat (if b then in_jt i else in_jf i)) prog buf A X in
          if in_code i =? 0x30 then load (ldb buf (in_k i))
          else if in_code i =? 0x28 then load (ldh buf (in_k i))
          else if in_code i =? 0x48 then load (ldh buf (X + in_k i))
          else if in_code i =? 0xb1 then
            match ldb buf (in_k i) with
            | Some v => bpf_run 0 prog buf A (4 * Z.land v 15)
            | None => 0
            end
          else if in_code i =? 0x15 then jump (A =? in_k i)
          else if in_code i =? 0x45 then jump (negb (Z.land A (in_k i) =? 0))
          else if in_code i =? 0x06 then in_k i
          else 0
      end
  end.
Definition accepts (prog : list Insn) (buf : list Z) : bool := negb (bpf_run 0 prog buf 0 0 =? 0).

(** * What the programs accept *)
Definition opt_is (o : option Z) (v : Z) : bool := match o with Some x => x =? v | None => false end.

(** Protocol byte, unfragmented, destination port after the variable-length header. *)
Definition v4_match (proto port : Z) (buf : list Z) : bool :=
  opt_is (ldb buf 9) proto &&
  match ldh buf 6 with Some f => Z.land f 0x1fff =? 0 | None => false end &&
  match ldb buf 0 with Some b => opt_is (ldh buf (4 * Z.land b 15 + 2)) port | None => false end.
Definition v6_match (proto port : Z) (buf : list Z) : bool :=
  opt_is (ldb buf 6) proto && opt_is (ldh buf 42) port.
Definition filter_match (mode : RawMode) (is_v6 : bool) (port : Z) (buf : list Z) : bool :=
  match mode, is_v6 with
  | FakeTcp, false => v4_match 6 port buf
  | FakeTcp, true => v6_match 6 port buf
  | RawUdp, false => v4_match 17 port buf
  | RawUdp, true => v6_match 17 port buf
  | RawIcmp, false => opt_is (ldb buf 9) 1
  | RawIcmp, true => opt_is (ldb buf 6) 58 || (opt_is (ldb buf 6) 44 && opt_is (ldb buf 40) 58)
  end.


Lemma accepts_v4 proto port buf :
  accepts [mkInsn 0x30 0 0 0x09; mkInsn 0x15 0 6 proto; mkInsn 0x28 0 0 0x06; mkInsn 0x45 4 0 0x1fff;
   mkInsn 0xb1 0 0 0x00; mkInsn 0x48 0 0 0x02; mkInsn 0x15 0 1 port; mkInsn 0x06 0 0 0xffff;
   mkInsn 0x06 0 0 0x00] buf = v4_match proto port buf.
Proof.
  unfold accepts, v4_match, opt_is. cbn -[ldb ldh Z.land Z.add Z.mul].
  generalize (ldb buf 9) (ldh buf 6) (ldb buf 0). intros p f b.
  destruct p as [p|]; [|done]. destruct (p =? proto) eqn:Ep; [|done].
  destruct f as [f|]; [|done]. destruct (Z.land f 8191 =? 0) eqn:Ef; [|done].
  destruct b as [b|]; [|done]. destruct (ldh buf _) as [h|]; [|done].
  destruct (h =? port) eqn:Eh; done.
Qed.
Lemma accepts_v6 proto port buf :
  accepts [mkInsn 0x30 0 0 0x06; mkInsn 0x15 0 3 proto; mkInsn 0x28 0 0 0x2a; mkInsn 0x15 0 1 port;
   mkInsn 0x06 0 0 0x40000; mkInsn 0x06 0 0 0x00] buf = v6_match proto port buf.
Proof.
  unfold accepts, v6_match, opt_is. cbn -[ldb ldh Z.land Z.add Z.mul].
  generalize (ldb buf 6) (ldh buf 42). intros p h.
  destruct p as [p|]; [|done]. destruct (p =? proto) eqn:Ep; [|done].
  destruct h as [h|]; [|done]. destruct (h =? port) eqn:Eh; done.
Qed.

(** The programs compute [filter_match]. *)
Lemma accepts_match mode is_v6 port buf :
  accepts (program mode is_v6 port) buf = filter_match mode is_v6 port buf.
Proof.
  destruct mode, is_v6.
  - apply accepts_v6.
  - apply accepts_v4.
  - apply accepts_v6.
  - apply accepts_v4.
  - unfold accepts, filter_match, opt_is. cbn -[ldb ldh Z.land Z.add Z.mul].
    generalize (ldb buf 6) (ldb buf 40). intros p h. destruct p as [p|]; [|done].
    destruct (p =? 58) eqn:Ep; [done|]. destruct (p =? 44) eqn:Eq; [|done].
    destruct h as [h|]; [|done]. by destruct (h =? 58).
  - unfold accepts, filter_match, opt_is. cbn -[ldb ldh Z.land Z.add Z.mul].
    destruct (ldb buf 9) as [p|]; [|done]. by destruct (p =? 1).
Qed.

(** * The filter against the parser *)
Lemma parse_ip4_fields buf vc p : parse_ip buf false vc = Done (Some p) →
  20 ≤ zlen buf ∧ ip_protocol p = nth 9 buf 0 ∧ ip_header_len p = Z.land (nth 0 buf 0) 15 * 4.
Proof. unfold parse_ip, IPV4_HEADER_LEN. cbn [negb]. intros H. run_inv H. subst. cbn. split_and!; done || lia. Qed.
Lemma parse_ip6_fields buf vc p : parse_ip buf true vc = Done (Some p) →
  40 ≤ zlen buf ∧ ip_protocol p = nth 6 buf 0 ∧ ip_header_len p = 40.
Proof. unfold parse_ip, IPV6_HEADER_LEN. cbn [negb]. intros H. run_inv H. subst. cbn. split_and!; done || lia. Qed.

Lemma from_be2 a b : from_be [a; b] = a * 256 + b.
Proof. unfold from_be. cbn [rev app from_le]. lia. Qed.

(** The two bytes at [i] of a payload, as the filter reads them from the packet. *)
Lemma ldh_payload p buf seg i : ip_payload p buf = Done seg → 0 ≤ i → i + 2 ≤ zlen seg →
  ldh buf (ip_header_len p + i) = Some (from_be [nth (Z.to_nat i) seg 0; nth (Z.to_nat (i + 1)) seg 0]).
Proof.
  unfold ip_payload. intros (H1 & H2 & ->)%slice_inv Hi Hl. revert Hl. rewrite zlen_take, zlen_drop. intros Hl.
  unfold ldh. replace (_ <? _) with true by blia. f_equal. rewrite from_be2.
  assert (∀ j, (j < Z.to_nat (ip_total_len p - ip_header_len p))%nat →
    nth j (take (Z.to_nat (ip_total_len p - ip_header_len p)) (drop (Z.to_nat (ip_header_len p)) buf)) 0
    = nth (Z.to_nat (ip_header_len p) + j) buf 0) as Hn.
  { intros j Hj. rewrite !nth_lookup, lookup_take_lt, lookup_drop by done. done. }
  rewrite !Hn by lia. repeat f_equal; lia.
Qed.
Lemma ldb_Some buf i : 0 ≤ i < zlen buf → ldb buf i = Some (nth (Z.to_nat i) buf 0).
Proof. intros. unfold ldb. by replace (_ <? _) with true by blia. Qed.

(** The fragment-offset field of an IPv4 packet. *)
Definition unfragmented (buf : list Z) : Prop := Z.land (from_be [nth 6 buf 0; nth 7 buf 0]) 0x1fff = 0.

Lemma v4_match_payload p buf seg vc proto port :
  parse_ip buf false vc = Done (Some p) → ip_payload p buf = Done seg → ip_protocol p = proto →
  unfragmented buf → 4 ≤ zlen seg → from_be [nth 2 seg 0; nth 3 seg 0] = port →
  v4_match proto port buf = true.
Proof.
  intros Hp Hs Hpr Hf Hl Hport. destruct (parse_ip4_fields _ _ _ Hp) as (H20 & Epr & Eh).
  unfold v4_match. rewrite !ldb_Some by lia.
  change (nth (Z.to_nat 9) buf 0) with (nth 9 buf 0). change (nth (Z.to_nat 0) buf 0) with (nth 0 buf 0).
  rewrite (Z.mul_comm 4), <-Eh, (ldh_payload p buf seg 2) by (done || lia).
  unfold ldh. replace (6 + 1 <? zlen buf) with true by blia. cbn [opt_is].
  rewrite <-Epr, Hpr, <-Hport. unfold unfragmented in Hf. rewrite from_be2 in Hf.
  change (nth (Z.to_nat 6) buf 0 * 256 + nth (Z.to_nat (6 + 1)) buf 0) with (nth 6 buf 0 * 256 + nth 7 buf 0).
  rewrite Hf. change (Z.to_nat 2) with 2%nat. change (Z.to_nat (2 + 1)) with 3%nat. by rewrite !Z.eqb_refl.
Qed.
Lemma v6_match_payload p buf seg vc proto port :
  parse_ip buf true vc = Done (Some p) → ip_payload p buf = Done seg → ip_protocol p = proto →
  4 ≤ zlen seg → from_be [nth 2 seg 0; nth 3 seg 0] = port → v6_match proto port buf = true.
Proof.
  intros Hp Hs Hpr Hl Hport. destruct (parse_ip6_fields _ _ _ Hp) as (H40 & Epr & Eh).
  unfold v6_match. rewrite ldb_Some by lia. change (nth (Z.to_nat 6) buf 0) with (nth 6 buf 0).
  pose proof (ldh_payload p buf seg 2 Hs ltac:(lia) ltac:(lia)) as H2. rewrite Eh in H2.
  change (40 + 2) with 42 in H2. rewrite H2. cbn [opt_is]. rewrite <-Epr, Hpr, <-Hport.
  change (Z.to_nat 2) with 2%nat. change (Z.to_nat (2 + 1)) with 3%nat. by rewrite !Z.eqb_refl.
Qed.

Lemma recv_filter_match ctx raw buf ll data raw' : bytes buf →
  parse_recv ctx raw buf ll = Done (Some data, raw') → (rc_is_v6 ctx = false → unfragmented buf) →
  filter_match (rc_raw_mode ctx) (rc_is_v6 ctx) (rc_filter_port ctx) buf = true.
Proof.
  intros Hb H Hf. unfold parse_recv in H.
  destruct (parse_ip buf (rc_is_v6 ctx) true) as [[p|]|] eqn:Ep; [|done|done].
  rewrite bind_Done in H. revert H. cbv zeta.
  destruct (match rc_bind_addr ctx with Some _ => _ | None => _ end); [done|].
  destruct (ip_payload p buf) as [seg|] eqn:Es; [|done]. rewrite bind_Done.
  pose proof (ip_payload_bytes _ _ _ Hb Es) as Hsb.
  assert (∀ proto port, ip_protocol p = proto → 4 ≤ zlen seg → from_be [nth 2 seg 0; nth 3 seg 0] = port →
    (if rc_is_v6 ctx then v6_match proto port buf else v4_match proto port buf) = true) as Hm.
  { intros. destruct (rc_is_v6 ctx); [by eapply v6_match_payload|by eapply v4_match_payload; eauto]. }
  unfold filter_match, want_icmp. destruct (rc_raw_mode ctx).
  - destruct (Z.eqb_spec (ip_protocol p) IPPROTO_TCP) as [Epr|]; cbn [negb]; [|done].
    destruct (parse_tcp seg (ip_src p) (ip_dst p)) as [[[t d]|]|] eqn:Et; [|done|done]. rewrite bind_Done.
    destruct (parse_tcp_fields seg _ _ t d Hsb Et) as (? & _ & Ed & _).
    destruct (Z.eqb_spec (t_dst_port t) (rc_filter_port ctx)) as [Eport|]; cbn [negb]; [|done]. intros _.
    specialize (Hm 6 (rc_filter_port ctx) Epr ltac:(lia) ltac:(congruence)). by destruct (rc_is_v6 ctx).
  - destruct (Z.eqb_spec (ip_protocol p) IPPROTO_UDP) as [Epr|]; cbn [negb]; [|done].
    destruct (parse_udp seg (ip_src p) (ip_dst p)) as [[[[sp dp] d]|]|] eqn:Et; [|done|done]. rewrite bind_Done.
    destruct (parse_udp_fields seg _ _ _ _ _ Et) as (? & _ & Ed & _).
    destruct (Z.eqb_spec dp (rc_filter_port ctx)) as [Eport|]; cbn [negb]; [|done]. intros _.
    specialize (Hm 17 (rc_filter_port ctx) Epr ltac:(lia) ltac:(congruence)). by destruct (rc_is_v6 ctx).
  - destruct (rc_is_v6 ctx).
    + destruct (parse_ip6_fields _ _ _ Ep) as (? & Epr & _). rewrite ldb_Some by lia.
      change (nth (Z.to_nat 6) buf 0) with (nth 6 buf 0). rewrite <-Epr. cbn [opt_is].
      by destruct (Z.eqb_spec (ip_protocol p) IPPROTO_ICMPV6) as [->|].
    + destruct (parse_ip4_fields _ _ _ Ep) as (? & Epr & _). rewrite ldb_Some by lia.
      change (nth (Z.to_nat 9) buf 0) with (nth 9 buf 0). rewrite <-Epr. cbn [opt_is].
      by destruct (Z.eqb_spec (ip_protocol p) IPPROTO_ICMP) as [->|].
Qed.

(** C25. The kernel filter: for every mode, family, port and packet, the attached program
    accepts exactly the packets described by [filter_match] (protocol, first fragment,
    destination port behind the IPv4 header of any length; for IPv6 no extension
    headers), and it never hides from the process an unfragmented packet that
    [parse_recv] would accept. *)
Theorem filter_exact_and_sufficient (ctx : RawCtx) (buf : list Z) (Hb : bytes buf) :
  let prog := program (rc_raw_mode ctx) (rc_is_v6 ctx) (rc_filter_port ctx) in
  accepts prog buf = filter_match (rc_raw_mode ctx) (rc_is_v6 ctx) (rc_filter_port ctx) buf ∧
  ∀ raw ll data raw', parse_recv ctx raw buf ll = Done (Some data, raw') →
    (rc_is_v6 ctx = false → unfragmented buf) → accepts prog buf = true.
Proof.
  cbv zeta. rewrite accepts_match. split; [done|]. intros. by eapply recv_filter_match.
Qed.

Lemma filter_exact_and_sufficient_witness :
  accepts (program FakeTcp false 443) short_doff_packet = false ∧
  accepts (program FakeTcp false 443) short_doff_packet = filter_match FakeTcp false 443 short_doff_packet.
Proof.
  split; [vm_compute; reflexivity|].
  apply (filter_exact_and_sufficient (demo_ctx false 443) short_doff_packet). auto with bytes.
Defined.
