(* ===== verification/Conn.v ===== *)
(** Connections and the bare / safer packet helpers: [src/src/conn.rs].

    The pure halves (encryption, decryption, GRO splitting), which the worker threads
    run, are in [outcome]; the stateful halves, which run on the I/O thread, are in
    [Io] and return the connection as they leave it. *)
From S2P Require Import Prelude Util Fips197 Prims Kdf Auth Cipher Crypto Wire AntiReplay.
From S2P Require Import Ip Tcp Types World Config FakeTcp.

Record ConnInfo := mkConnInfo {
  ci_raw : RawInfo;
  last_state_time : Z;
  last_hb_sent_time : Z;
  last_hb_recv_time : Z;
  my_id : Z;
  oppsite_id : Z;
  oppsite_const_id : Z;
  my_roller : Z;
  oppsite_roller : Z;
  last_oppsite_roller_time : Z;
  anti_replay : AntiReplay }.
Definition set_ci_raw (v : RawInfo) (r : ConnInfo) : ConnInfo :=
  mkConnInfo v (last_state_time r) (last_hb_sent_time r) (last_hb_recv_time r) (my_id r)
    (oppsite_id r) (oppsite_const_id r) (my_roller r) (oppsite_roller r)
    (last_oppsite_roller_time r) (anti_replay r).
Definition set_last_state_time (v : Z) (r : ConnInfo) : ConnInfo :=
  mkConnInfo (ci_raw r) v (last_hb_sent_time r) (last_hb_recv_time r) (my_id r) (oppsite_id r)
    (oppsite_const_id r) (my_roller r) (oppsite_roller r) (last_oppsite_roller_time r)
    (anti_replay r).
Definition set_last_hb_sent_time (v : Z) (r : ConnInfo) : ConnInfo :=
  mkConnInfo (ci_raw r) (last_state_time r) v (last_hb_recv_time r) (my_id r) (oppsite_id r)
    (oppsite_const_id r) (my_roller r) (oppsite_roller r) (last_oppsite_roller_time r)
    (anti_replay r).
Definition set_last_hb_recv_time (v : Z) (r : ConnInfo) : ConnInfo :=
  mkConnInfo (ci_raw r) (last_state_time r) (last_hb_sent_time r) v (my_id r) (oppsite_id r)
    (oppsite_const_id r) (my_roller r) (oppsite_roller r) (last_oppsite_roller_time r)
    (anti_replay r).
Definition set_my_id (v : Z) (r : ConnInfo) : ConnInfo :=
  mkConnInfo (ci_raw r) (last_state_time r) (last_hb_sent_time r) (last_hb_recv_time r) v
    (oppsite_id r) (oppsite_const_id r) (my_roller r) (oppsite_roller r)
    (last_oppsite_roller_time r) (anti_replay r).
Definition set_oppsite_id (v : Z) (r : ConnInfo) : ConnInfo :=
  mkConnInfo (ci_raw r) (last_state_time r) (last_hb_sent_time r) (last_hb_recv_time r)
    (my_id r) v (oppsite_const_id r) (my_roller r) (oppsite_roller r)
    (last_oppsite_roller_time r) (anti_replay r).
Definition set_oppsite_const_id (v : Z) (r : ConnInfo) : ConnInfo :=
  mkConnInfo (ci_raw r) (last_state_time r) (last_hb_sent_time r) (last_hb_recv_time r)
    (my_id r) (oppsite_id r) v (my_roller r) (oppsite_roller r) (last_oppsite_roller_time r)
    (anti_replay r).
Definition set_my_roller (v : Z) (r : ConnInfo) : ConnInfo :=
  mkConnInfo (ci_raw r) (last_state_time r) (last_hb_sent_time r) (last_hb_recv_time r)
    (my_id r) (oppsite_id r) (oppsite_const_id r) v (oppsite_roller r)
    (last_oppsite_roller_time r) (anti_replay r).
Definition set_oppsite_roller (v : Z) (r : ConnInfo) : ConnInfo :=
  mkConnInfo (ci_raw r) (last_state_time r) (last_hb_sent_time r) (last_hb_recv_time r)
    (my_id r) (oppsite_id r) (oppsite_const_id r) (my_roller r) v (last_oppsite_roller_time r)
    (anti_replay r).
Definition set_last_oppsite_roller_time (v : Z) (r : ConnInfo) : ConnInfo :=
  mkConnInfo (ci_raw r) (last_state_time r) (last_hb_sent_time r) (last_hb_recv_time r)
    (my_id r) (oppsite_id r) (oppsite_const_id r) (my_roller r) (oppsite_roller r) v
    (anti_replay r).
Definition set_anti_replay (v : AntiReplay) (r : ConnInfo) : ConnInfo :=
  mkConnInfo (ci_raw r) (last_state_time r) (last_hb_sent_time r) (last_hb_recv_time r)
    (my_id r) (oppsite_id r) (oppsite_const_id r) (my_roller r) (oppsite_roller r)
    (last_oppsite_roller_time r) v.

Definition ConnInfo_new (raw_mode : RawMode) (is_v6 disable_anti_replay : bool) : Io ConnInfo :=
  raw ← RawInfo_new raw_mode is_v6;
  seed ← secure_random_u64;
  mret (mkConnInfo raw 0 0 0 0 0 0 0 0 0 (AntiReplay_new seed disable_anti_replay)).

Definition recover_from (self other : ConnInfo) : ConnInfo :=
  let raw := set_ri_disabled false (set_rst_received 0 (ci_raw other)) in
  mkConnInfo raw (last_state_time other) (last_hb_sent_time other) (last_hb_recv_time other)
    (my_id other) (oppsite_id other) (oppsite_const_id self) 0 0 0 (re_init (anti_replay self)).

(** [Vec<u8>] of the caller: the buffer is cleared before it is filled. *)
Definition prepare_safer (info : ConnInfo) (ptype : Z) (payload : list Z) : list Z * ConnInfo :=
  let '(seq, ar) := next_seq_for_send (anti_replay info) in
  (build_safer (mkSaferHeader (my_id info) (oppsite_id info) seq ptype (my_roller info)) payload,
   set_anti_replay ar info).

(** [prepare_safer_data_into]: header, then the conversation number, then the datagram. *)
Definition prepare_safer_data (info : ConnInfo) (conv : Z) (data : list Z) : list Z * ConnInfo :=
  let '(out, info) := prepare_safer info TYPE_DATA [] in
  (out ++ to_be 4 conv ++ data, info).

(** [Result<_, io::Error>] of the send helpers: whether it is [Ok]. *)
Section conn.
Context `{P : Prims}.

(** [Crypto::encrypt]; the AEAD draws a nonce. *)
Definition crypto_encrypt (crypto : Crypto) (plain : list Z) : Io (option (list Z)) :=
  nonce ← match cr_aead crypto with Some _ => next_nonce | None => mret [] end;
  lift (encrypt_vec crypto nonce plain).

Definition send_bare (ctx : RawCtx) (crypto : Crypto) (raw : RawInfo) (payload : list Z)
    : Io (bool * RawCtx * RawInfo) :=
  iv ← secure_random_u64;
  padding ← secure_random_u64;
  let plain := build_bare iv padding payload in
  e ← crypto_encrypt crypto plain;
  match e with
  | None => mret (false, ctx, raw)
  | Some wire_bytes => r ← send_raw ctx raw wire_bytes; mret (true, r.1, r.2)
  end.

Definition send_handshake (ctx : RawCtx) (crypto : Crypto) (raw : RawInfo) (id1 id2 id3 : Z)
    : Io (bool * RawCtx * RawInfo) :=
  send_bare ctx crypto raw (build_handshake id1 id2 id3).

Definition conn_parse_bare (crypto : Crypto) (data : list Z) : outcome (option (list Z)) :=
  if MAX_DATA_LEN <? zlen data then Done None else
  p ← decrypt_vec crypto data;
  match p with
  | None => Done None
  | Some plain => parse_bare plain
  end.

Definition encrypt_safer_vec (crypto : Crypto) (nonce plain : list Z) (fix_gro : bool)
    : outcome (option (list Z)) :=
  e ← encrypt_vec crypto nonce plain;
  match e with
  | None => Done None
  | Some enc => if fix_gro then w ← gro_wrap_in_place crypto enc; Done (Some w) else Done (Some enc)
  end.

Definition transmit_safer (ctx : RawCtx) (raw : RawInfo) (wire_bytes : list Z) : Io (RawCtx * RawInfo) :=
  r ← send_raw ctx raw wire_bytes;
  raw ← after_send r.1 r.2;
  mret (r.1, raw).

Definition send_safer (ctx : RawCtx) (crypto : Crypto) (info : ConnInfo) (ptype : Z) (payload : list Z)
    (fix_gro : bool) : Io (bool * RawCtx * ConnInfo) :=
  if negb (ptype =? TYPE_HEARTBEAT) && negb (ptype =? TYPE_DATA) then mret (false, ctx, info) else
  let '(plain, info) := prepare_safer info ptype payload in
  nonce ← match cr_aead crypto with Some _ => next_nonce | None => mret [] end;
  e ← lift (encrypt_safer_vec crypto nonce plain fix_gro);
  match e with
  | None => mret (false, ctx, info)
  | Some w => r ← transmit_safer ctx (ci_raw info) w; mret (true, r.1, set_ci_raw r.2 info)
  end.

(** The loop over the parts of a burst. *)
Fixpoint decrypt_parts (crypto : Crypto) (data : list Z) (parts : list (Z * Z)) : outcome (list (list Z)) :=
  match parts with
  | [] => Done []
  | (off, len) :: parts =>
      w ← slice data off (off + len);
      p ← decrypt_vec crypto w;
      out ← decrypt_parts crypto data parts;
      Done (match p with Some p => p :: out | None => out end)
  end.
Definition decrypt_safer_gro (crypto : Crypto) (data : list Z) : outcome (list (list Z)) :=
  r ← gro_unwrap crypto data;
  decrypt_parts crypto r.1 r.2.

(** [decrypt_safer] and [decrypt_safer_vec]. *)
Definition decrypt_safer_vec (crypto : Crypto) (wire : list Z) (fix_gro : bool) : outcome (list (list Z)) :=
  if negb fix_gro then
    p ← decrypt_vec crypto wire;
    Done (match p with Some p => [p] | None => [] end)
  else decrypt_safer_gro crypto wire.
End conn.

(** The accepted type and the offset of the payload, and the connection afterwards. *)
Definition accept_safer_offset (info : ConnInfo) (plain : list Z) (hb_mode : Z)
    : Io (option (Z * Z) * ConnInfo) :=
  ids ← lift (parse_safer_ids plain);
  match ids with
  | None => mret (None, info)
  | Some ids =>
      if negb (si_oppsite_id ids =? oppsite_id info) || negb (si_my_id ids =? my_id info)
      then mret (None, info) else
      let '(valid, ar) := is_valid (anti_replay info) (si_seq ids) in
      let info := set_anti_replay ar info in
      if negb valid then mret (None, info) else
      body ← lift (parse_safer_body plain);
      match body with
      | None => mret (None, info)
      | Some (ptype, roller, _) =>
          info ← (if negb (roller =? oppsite_roller info)
                  then t ← now_ms; mret (set_last_oppsite_roller_time t (set_oppsite_roller roller info))
                  else mret info);
          let info := if (hb_mode =? 0) || (ptype =? TYPE_HEARTBEAT)
                      then set_my_roller (my_roller info +⟨8⟩ 1) info else info in
          mret (Some (ptype, SAFER_HEADER_LEN), info)
      end
  end.

Definition accept_safer (info : ConnInfo) (plain : list Z) (hb_mode : Z)
    : Io (option (Z * list Z) * ConnInfo) :=
  r ← accept_safer_offset info plain hb_mode;
  match r.1 with
  | None => mret (None, r.2)
  | Some (ptype, off) => d ← lift (slice_from plain off); mret (Some (ptype, d), r.2)
  end.

Fixpoint accept_all (info : ConnInfo) (plains : list (list Z)) (hb_mode : Z)
    : Io (list (Z * list Z) * ConnInfo) :=
  match plains with
  | [] => mret ([], info)
  | p :: plains =>
      r ← accept_safer info p hb_mode;
      rest ← accept_all r.2 plains hb_mode;
      mret (match r.1 with Some x => x :: rest.1 | None => rest.1 end, rest.2)
  end.

Definition recv_safer_inline `{P : Prims} (ctx : RawCtx) (crypto : Crypto) (info : ConnInfo) (data : list Z)
    (fix_gro : bool) (hb_mode : Z) (meta : RecvMeta) : Io (list (Z * list Z) * ConnInfo) :=
  plains ← lift (decrypt_safer_vec crypto data fix_gro);
  r ← accept_all info plains hb_mode;
  let '(out, info) := r in
  let info := match out with [] => info | _ => set_ci_raw (after_recv ctx (ci_raw info) meta) info end in
  mret (out, info).

(** * Encryption and decryption of safer packets *)
Section pair.
Context `{P : Prims} {HP : PrimsOk P}.
Context (A B : Crypto) (cm : CipherMode) (am : AuthMode) (legacy : bool) (ka kb : Keys).
Context (HA : engine A cm am legacy ka) (HB : engine B cm am legacy kb) (Hm : mirrored ka kb).

(** Plaintexts the tunnel carries: not refused by the sender, the wire packet within
    the receiver's limit and long enough for the length prefix. *)
Definition carried (plain : list Z) : Prop :=
  bytes plain ∧ refused cm (eff_auth cm am) (zlen plain) = false ∧
  14 ≤ wire_len cm am (zlen plain) ≤ MAX_DATA_LEN.
Definition nonce_ok (nonce : list Z) : Prop := length nonce = 24%nat ∧ bytes nonce.

Lemma encrypt_carried nonce plain : nonce_ok nonce → carried plain →
  ∃ w, encrypt_vec A nonce plain = Done (Some w) ∧ wrappable w ∧ decrypt_vec B w = Done (Some plain).
Proof using HA HB Hm HP.
  intros [Hn Hnb] (Hb & Hr & Hl).
  pose proof (packet_pair A B cm am legacy ka kb HA HB Hm nonce plain Hn Hb) as H. rewrite Hr in H.
  destruct H as (w & Ew & Hwl & Hwb & Hd). exists w. split; [exact Ew|]. split.
  - split; [by apply Hwb|]. lia.
  - rewrite Hd. by replace (MAX_DATA_LEN <? zlen w) with false by blia.
Qed.

Lemma safer_plain_pair nonce plain : nonce_ok nonce → carried plain →
  ∃ w, encrypt_safer_vec A nonce plain false = Done (Some w) ∧ decrypt_safer_vec B w false = Done [plain].
Proof using HA HB Hm HP.
  intros Hn Hc. destruct (encrypt_carried nonce plain Hn Hc) as (w & Ew & _ & Hd).
  exists w. unfold encrypt_safer_vec, decrypt_safer_vec. rewrite Ew. split; [done|].
  cbn [negb]. rewrite Hd. done.
Qed.

(** The encrypted packets of a burst. *)
Lemma encrypt_burst nps : Forall (λ p, nonce_ok p.1 ∧ carried p.2) nps →
  ∃ ws ps, Forall wrappable ws ∧ mapM (gro_wrap_in_place A) ws = Done ps ∧
    Forall2 (λ np p, encrypt_safer_vec A np.1 np.2 true = Done (Some p)) nps ps ∧
    Forall2 (λ np w, decrypt_vec B w = Done (Some np.2)) nps ws.
Proof using HA HB Hm HP.
  induction 1 as [|[nonce plain] nps [Hn Hc] _ (ws & ps & Hw & Eps & He & Hd)].
  { exists [], []. by split_and!; constructor. }
  destruct (encrypt_carried nonce plain Hn Hc) as (w & Ew & Hww & Hdw).
  destruct (wrap_spec A B cm am legacy ka kb HA HB Hm w Hww) as (h & Eh & _).
  exists (w :: ws), ((h ++ drop 16 (framed w)) :: ps). split_and!.
  - by constructor.
  - cbn [mapM]. rewrite Eh, bind_Done, Eps. done.
  - constructor; [|done]. cbn [fst snd]. unfold encrypt_safer_vec. rewrite Ew, bind_Done, Eh. done.
  - by constructor.
Qed.

Lemma decrypt_parts_all buf out ws nps :
  Forall2 (λ '(off, len) w, slice buf off (off + len) = Done w) out ws →
  Forall2 (λ (np : list Z * list Z) w, decrypt_vec B w = Done (Some np.2)) nps ws →
  decrypt_parts B buf out = Done nps.*2.
Proof.
  intros Hs. revert nps. induction Hs as [|[off len] w out ws Hs _ IH]; intros nps Hd.
  { apply Forall2_nil_inv_r in Hd as ->. done. }
  apply Forall2_cons_inv_r in Hd as ([n p] & nps' & Hd & Hds & ->). cbn [decrypt_parts].
  rewrite Hs, bind_Done, Hd, bind_Done, (IH nps' Hds). done.
Qed.

Lemma safer_burst_pair nps : Forall (λ p, nonce_ok p.1 ∧ carried p.2) nps →
  ∃ ps, Forall2 (λ np p, encrypt_safer_vec A np.1 np.2 true = Done (Some p)) nps ps ∧
    decrypt_safer_vec B (mjoin ps) true = Done nps.*2.
Proof using HA HB Hm HP.
  intros Hnps. destruct (encrypt_burst nps Hnps) as (ws & ps & Hw & Eps & He & Hd).
  exists ps. split; [done|]. unfold decrypt_safer_vec, decrypt_safer_gro, gro_unwrap. cbn [negb].
  pose proof (unwrap_burst A B cm am legacy ka kb HA HB Hm ws (length (mjoin ps)) [] [] ps Hw Eps ltac:(lia)) as E.
  cbn [app length] in E. change (Z.of_nat 0) with 0 in E. rewrite E, bind_Done. cbn [fst snd].
  apply (decrypt_parts_all _ _ ws); [|done].
  pose proof (offsets_slices ws [] []) as H. cbn [app] in H. by rewrite app_nil_r in H.
Qed.
End pair.

(** * Encryption never aborts *)
Section total.
Context `{P : Prims} {HP : PrimsOk P}.
Context (cr : Crypto) (cm : CipherMode) (am : AuthMode) (legacy : bool) (keys : Keys).
Context (He : engine cr cm am legacy keys).

(** Every engine has a peer. *)
Lemma engine_peer : ∃ B kb, engine B cm am legacy kb ∧ mirrored keys kb.
Proof using He HP.
  destruct keys as [n a b c d g] eqn:Ek. pose proof (en_keys_ok _ _ _ _ _ He) as [].
  destruct (Crypto_with_backend_ok true cm am legacy (mkKeys n b a d c g) Auto) as (B & _ & HB);
    [by constructor|].
  exists B, (mkKeys n b a d c g). split; [exact HB|by constructor].
Qed.

Lemma wire_len_bound n : 0 ≤ n ≤ MAX_DATA_LEN → n ≤ wire_len cm am n < 4096.
Proof using cm am.
  clear He keys legacy cr.
  unfold wire_len, MAX_DATA_LEN, OVERHEAD, NONCE_LEN, TAG_LEN, cipher_len, padded_len. intros Hn.
  pose proof (Z.div_mod n 16). pose proof (Z.div_mod (n + tag_len am) 16).
  pose proof (Z.mod_pos_bound n 16). pose proof (Z.mod_pos_bound (n + tag_len am) 16).
  assert (0 ≤ tag_len am ≤ 20) by (destruct am; cbn; lia).
  destruct (is_aead cm); [lia|]. destruct (bool_decide _), cm; lia.
Qed.

(** A nonce is only read by the AEAD. *)
Definition nonce_for (c : Crypto) (nonce : list Z) : Prop :=
  match cr_aead c with Some _ => nonce_ok nonce | None => True end.
Lemma encrypt_vec_nonce nonce nonce' plain :
  cr_aead cr = None → encrypt_vec cr nonce plain = encrypt_vec cr nonce' plain.
Proof. unfold encrypt_vec. by intros ->. Qed.

Lemma encrypt_vec_total nonce plain : nonce_for cr nonce → bytes plain →
  ∃ r, encrypt_vec cr nonce plain = Done r ∧
       ∀ w, r = Some w → bytes w ∧ zlen plain ≤ zlen w < 4096.
Proof using He HP.
  intros Hn Hb.
  assert (∃ nonce', nonce_ok nonce' ∧ encrypt_vec cr nonce plain = encrypt_vec cr nonce' plain)
    as (nonce' & [Hl Hnb] & ->).
  { unfold nonce_for in Hn. destruct (cr_aead cr) eqn:E; [by exists nonce|].
    exists (replicate 24 0). split; [split; [done|apply bytes_check; reflexivity]|by apply encrypt_vec_nonce]. }
  destruct engine_peer as (B & kb & HB & Hm).
  pose proof (packet_pair cr B cm am legacy keys kb He HB Hm nonce' plain Hl Hb) as H.
  destruct (refused _ _ _) eqn:Hr; [exists None; split; [exact H|discriminate]|].
  destruct H as (w & Ew & Hwl & Hwb & _). exists (Some w). split; [exact Ew|].
  intros ? [= <-]. split; [by apply Hwb|]. rewrite Hwl. apply wire_len_bound.
  unfold refused in Hr. apply orb_false_iff in Hr as [Hr _]. lia.
Qed.

Lemma encrypt_safer_total nonce plain fix_gro : nonce_for cr nonce → bytes plain → 14 ≤ zlen plain →
  ∃ r, encrypt_safer_vec cr nonce plain fix_gro = Done r ∧
       ∀ w, r = Some w → bytes w ∧ zlen w < 5000.
Proof using He HP.
  intros Hn Hb Hl. unfold encrypt_safer_vec.
  destruct (encrypt_vec_total nonce plain Hn Hb) as (r & -> & Hr). rewrite bind_Done.
  destruct r as [w|]; [|exists None; split; [reflexivity|discriminate]].
  destruct (Hr w eq_refl) as [Hwb Hwl]. destruct fix_gro.
  2:{ exists (Some w). split; [reflexivity|]. intros ? [= <-]. split; [done|lia]. }
  destruct engine_peer as (B & kb & HB & Hm).
  destruct (wrap_spec_len cr B cm am legacy keys kb He HB Hm w Hwb ltac:(lia)) as (h & -> & Hhl & Hhb & _).
  rewrite bind_Done. eexists. split; [reflexivity|]. intros w' E. pose proof (zlen_framed w).
  assert (bytes (framed w)) by (apply Forall_app_2; [apply bytes_to_be|done]).
  assert (w' = h ++ drop 16 (framed w)) as -> by congruence. split.
  - apply Forall_app_2; [done|by apply Forall_drop].
  - rewrite zlen_app, zlen_drop. lia.
Qed.

(** ** Sending *)
Lemma runs_crypto_encrypt plain w (Q : option (list Z) → World → Prop) :
  env_ok w → bytes plain →
  (∀ r w', (∀ x, r = Some x → payload_ok x) → later w w' → env_ok w' → w_trace w' = w_trace w → Q r w') →
  runs (crypto_encrypt cr plain) w Q.
Proof using He HP.
  intros Hw Hb HQ. unfold crypto_encrypt. apply runs_bind.
  assert (∀ nonce w1, nonce_for cr nonce → later w w1 → env_ok w1 → w_trace w1 = w_trace w →
    runs (lift (encrypt_vec cr nonce plain)) w1 Q) as Hk.
  { intros nonce w1 Hn Hl1 Hw1 Ht1. destruct (encrypt_vec_total nonce plain Hn Hb) as (r & Er & Hr).
    eapply runs_lift; [exact Er|]. apply HQ; [|exact Hl1|exact Hw1|exact Ht1].
    intros x ->. destruct (Hr x eq_refl) as [Hxb Hxl]. split; [exact Hxb|lia]. }
  unfold nonce_for in Hk. destruct (cr_aead cr).
  - apply runs_next_nonce; [exact Hw|]. intros nonce w1 H1 H2 Hl Ht Hw1. apply Hk; [split; assumption|assumption..].
  - apply runs_ret, Hk; [exact I|reflexivity|exact Hw|reflexivity].
Qed.

Lemma runs_send_bare ctx raw payload w (Q : bool * RawCtx * RawInfo → World → Prop) :
  env_ok w → ctx_ok ctx → raw_ok raw → bytes payload →
  (∀ ok ctx' raw' w', ctx_conf ctx' = ctx_conf ctx → raw_ok raw' → later w w' → env_ok w' → Q (ok, ctx', raw') w') →
  runs (send_bare ctx cr raw payload) w Q.
Proof using He HP.
  intros Hw Hc Hr Hb HQ. unfold send_bare.
  apply runs_bind, runs_secure_u64; [exact Hw|]. intros iv w1 _ Hl1 _ Hw1.
  apply runs_bind, runs_secure_u64; [exact Hw1|]. intros pad w2 _ Hl2 _ Hw2. cbv zeta.
  apply runs_bind, runs_crypto_encrypt; [exact Hw2| |].
  { unfold build_bare. apply Forall_app_2; [apply bytes_to_le|]. apply Forall_app_2; [apply bytes_to_le|].
    constructor; [|exact Hb]. unfold is_u, BARE_MARKER. lia. }
  intros r w3 Hp Hl3 Hw3 _. assert (later w w3) as Hl by (by transitivity w1; [|transitivity w2]).
  destruct r as [x|]; [|apply runs_ret, HQ; [reflexivity|exact Hr|exact Hl|exact Hw3]].
  apply runs_bind, runs_send_raw; [exact Hw3|exact Hc|apply Hr|by apply Hp| |].
  - intros w4 _ Hl4 Hw4 _. apply runs_ret, HQ; [reflexivity|exact Hr|by transitivity w3|exact Hw4].
  - intros ctx' pkt seg w4 Ec _ _ Hl4 Hw4 _. apply runs_ret, HQ; [exact Ec|by apply sent_raw_ok|by transitivity w3|exact Hw4].
Qed.

Lemma runs_transmit_safer ctx raw x w (Q : RawCtx * RawInfo → World → Prop) :
  env_ok w → ctx_ok ctx → raw_ok raw → payload_ok x →
  (∀ ctx' raw' w', ctx_conf ctx' = ctx_conf ctx → raw_ok raw' → later w w' → env_ok w' → Q (ctx', raw') w') →
  runs (transmit_safer ctx raw x) w Q.
Proof.
  clear He HP keys legacy am cm cr P. intros Hw Hc Hr Hx HQ. unfold transmit_safer.
  assert (∀ ctx' raw' w1, ctx_conf ctx' = ctx_conf ctx → raw_ok raw' → later w w1 → env_ok w1 →
    runs (raw ← after_send ctx' raw'; mret (ctx', raw)) w1 Q) as Hk.
  { intros ctx' raw' w1 Ec Hr' Hl1 Hw1. apply runs_bind, runs_after_send; [exact Hw1|exact Hr'|].
    intros raw2 w2 Hr2 Hl2 Hw2 _. apply runs_ret, HQ; [exact Ec|exact Hr2|by transitivity w1|exact Hw2]. }
  apply runs_bind, runs_send_raw; [exact Hw|exact Hc|apply Hr|exact Hx| |].
  - intros w1 _ Hl1 Hw1 _. by apply Hk.
  - intros ctx' pkt seg w1 Ec _ _ Hl1 Hw1 _. apply Hk; [exact Ec|by apply sent_raw_ok|exact Hl1|exact Hw1].
Qed.
End total.

(** Building a safer plaintext: bytes, and only the sequence counter changes. *)
Lemma prepare_safer_ok info ptype payload plain info' :
  is_byte (my_roller info) → is_byte ptype → bytes payload → prepare_safer info ptype payload = (plain, info') →
  bytes plain ∧ 14 ≤ zlen plain ∧ ∃ ar, info' = set_anti_replay ar info.
Proof.
  intros Hm Hp Hb E. unfold prepare_safer in E. destruct (next_seq_for_send (anti_replay info)) as [seq ar].
  injection E as <- <-. unfold build_safer. cbn [sh_my_id sh_oppsite_id sh_seq sh_ptype sh_roller]. split; [|split].
  - auto 10 with bytes.
  - len_lia.
  - by exists ar.
Qed.
Lemma prepare_safer_data_ok info conv data plain info' :
  is_byte (my_roller info) → bytes data → prepare_safer_data info conv data = (plain, info') →
  bytes plain ∧ 14 ≤ zlen plain ∧ ∃ ar, info' = set_anti_replay ar info.
Proof.
  intros Hm Hb E. unfold prepare_safer_data in E. destruct (prepare_safer info TYPE_DATA []) as [out info1] eqn:Ep.
  assert (plain = out ++ to_be 4 conv ++ data ∧ info' = info1) as [-> ->] by (split; congruence).
  assert (is_byte TYPE_DATA) as Ht by done.
  destruct (prepare_safer_ok _ _ _ _ _ Hm Ht (Forall_nil_2 _) Ep) as (H1 & H2 & H3).
  split; [apply Forall_app_2; [exact H1|]; apply Forall_app_2; [apply bytes_to_be|exact Hb]|].
  split; [len_lia|exact H3].
Qed.

(** * Untrusted input *)
Section untrusted.
Context `{P : Prims} {HP : PrimsOk P}.
Context (cr : Crypto) (cm : CipherMode) (am : AuthMode) (legacy : bool) (keys : Keys).
Context (He : engine cr cm am legacy keys).

Lemma decrypt_parts_total buf parts : bytes buf → Forall (in_buf (zlen buf)) parts →
  ∃ out, decrypt_parts cr buf parts = Done out.
Proof using He HP.
  intros Hb. induction 1 as [|[off len] parts (Ho & Hl & Hs) _ [out IH]]; [by eexists|].
  cbn [fst snd] in *. cbn [decrypt_parts]. rewrite slice_Done by lia. rewrite bind_Done.
  destruct (decrypt_vec_total cr cm am legacy keys
    (take (Z.to_nat (off + len - off)) (drop (Z.to_nat off) buf)) He) as (r & ->); [auto with bytes|].
  rewrite bind_Done, IH. by eexists.
Qed.

Lemma decrypt_safer_total wire fix_gro : bytes wire → ∃ out, decrypt_safer_vec cr wire fix_gro = Done out.
Proof using He HP.
  intros Hb. unfold decrypt_safer_vec. destruct fix_gro; cbn [negb].
  - unfold decrypt_safer_gro, gro_unwrap.
    destruct (gro_unwrap_loop_safe cr cm am legacy keys (length wire) wire 0 (zlen wire) [])
      as (buf' & out & -> & Hl & Hb' & Ho & _); [done|done|lia|lia|lia|lia|constructor|].
    rewrite bind_Done. cbn [fst snd]. apply decrypt_parts_total; [done|]. by rewrite Hl.
  - destruct (decrypt_vec_total cr cm am legacy keys wire He Hb) as (r & ->). by eexists.
Qed.

Lemma parse_bare_total plain : ∃ r, parse_bare plain = Done r.
Proof.
  unfold parse_bare, BARE_HEADER_LEN. destruct (zlen plain <? 8 + 8 + 1) eqn:E; [by eexists|].
  done_idx. destruct (negb _); [by eexists|]. done_idx. by eexists.
Qed.
Lemma conn_parse_bare_total data : bytes data → ∃ r, conn_parse_bare cr data = Done r.
Proof using He HP.
  intros Hb. unfold conn_parse_bare. destruct (_ <? _); [by eexists|].
  destruct (decrypt_vec_total cr cm am legacy keys data He Hb) as (r & ->). rewrite bind_Done.
  destruct r; [apply parse_bare_total|by eexists].
Qed.
End untrusted.

Lemma parse_safer_ids_total plain : ∃ r, parse_safer_ids plain = Done r.
Proof.
  unfold parse_safer_ids, read_u32_be, read_u64_be. destruct (zlen plain <? 16) eqn:E; [by eexists|].
  rewrite slice_from_0, bind_Done. do 3 (rewrite ?slice_from_Done by lia; rewrite ?bind_Done;
    rewrite slice_Done by (rewrite ?length_drop; lia); rewrite ?bind_Done). by eexists.
Qed.
Lemma parse_safer_body_total plain :
  ∃ r, parse_safer_body plain = Done r ∧ ∀ x, r = Some x → SAFER_HEADER_LEN ≤ zlen plain.
Proof.
  unfold parse_safer_body, SAFER_HEADER_LEN. destruct (zlen plain <? 4 + 4 + 8 + 1 + 1) eqn:E; [by eexists|].
  done_idx. destruct (_ && _); [by eexists|]. done_idx. eexists. split; [done|]. intros. lia.
Qed.

(** * Accepting safer packets *)

(** What acceptance never changes: everything but the anti-replay window, the rollers
    and the time of the last roller. *)
Definition conn_core (info : ConnInfo) : RawInfo * Z * Z * Z * Z * Z * Z :=
  (ci_raw info, last_state_time info, last_hb_sent_time info, last_hb_recv_time info, my_id info,
   oppsite_id info, oppsite_const_id info).

(** What becomes of the rollers: without an accepted packet they stay, and the time of the
    last one is a reading of the clock meanwhile if it changes. *)
Definition rolled (got : bool) (w : World) (info info' : ConnInfo) (w' : World) : Prop :=
  time w ≤ time w' ∧
  (last_oppsite_roller_time info' = last_oppsite_roller_time info ∨ time w ≤ last_oppsite_roller_time info' ≤ time w') ∧
  (got = false → my_roller info' = my_roller info ∧ oppsite_roller info' = oppsite_roller info ∧
                 last_oppsite_roller_time info' = last_oppsite_roller_time info).
Lemma rolled_same got w info info' : my_roller info' = my_roller info → oppsite_roller info' = oppsite_roller info →
  last_oppsite_roller_time info' = last_oppsite_roller_time info → rolled got w info info' w.
Proof. intros H1 H2 H3. split_and!; [done|by left|done]. Qed.
Lemma rolled_trans g1 g2 w1 w2 w3 i1 i2 i3 : rolled g1 w1 i1 i2 w2 → rolled g2 w2 i2 i3 w3 → rolled (g1 || g2) w1 i1 i3 w3.
Proof.
  intros (T1 & R1 & N1) (T2 & R2 & N2). split_and!; [lia|destruct R1, R2; lia|]. intros [-> ->]%orb_false_iff.
  destruct (N1 eq_refl) as (? & ? & ?), (N2 eq_refl) as (? & ? & ?). split_and!; congruence.
Qed.

Lemma runs_accept_offset info plain hb_mode w (Q : option (Z * Z) * ConnInfo → World → Prop) :
  env_ok w →
  (∀ o info' w', conn_core info' = conn_core info → later w w' → env_ok w' → w_trace w' = w_trace w →
     rolled (bool_decide (is_Some o)) w info info' w' →
     (∀ ptype off, o = Some (ptype, off) → off = SAFER_HEADER_LEN ∧ SAFER_HEADER_LEN ≤ zlen plain) →
     (∀ ids, parse_safer_ids plain = Done (Some ids) →
        if (si_oppsite_id ids =? oppsite_id info) && (si_my_id ids =? my_id info) then
          anti_replay info' = (is_valid (anti_replay info) (si_seq ids)).2 ∧
          (if (is_valid (anti_replay info) (si_seq ids)).1
           then parse_safer_body plain = Done None ∧ o = None ∨
                ∃ ptype roller d, parse_safer_body plain = Done (Some (ptype, roller, d)) ∧
                  o = Some (ptype, SAFER_HEADER_LEN)
           else o = None)
        else anti_replay info' = anti_replay info ∧ o = None) →
     (parse_safer_ids plain = Done None → o = None ∧ info' = info) →
     Q (o, info') w') →
  runs (accept_safer_offset info plain hb_mode) w Q.
Proof.
  intros Hw HQ. unfold accept_safer_offset. destruct (parse_safer_ids_total plain) as (ids & Ei).
  apply runs_bind. eapply runs_lift; [exact Ei|]. rewrite Ei in HQ. destruct ids as [ids|].
  2:{ apply runs_ret. apply HQ; try done. by apply rolled_same. }
  destruct (Z.eqb_spec (si_oppsite_id ids) (oppsite_id info)) as [Eo|Eo];
    destruct (Z.eqb_spec (si_my_id ids) (my_id info)) as [Em|Em]; cbn [negb orb];
    try (apply runs_ret; apply HQ; try done; [by apply rolled_same|]; intros ids' [= <-];
         destruct (Z.eqb_spec (si_oppsite_id ids) (oppsite_id info)), (Z.eqb_spec (si_my_id ids) (my_id info)); done).
  destruct (is_valid (anti_replay info) (si_seq ids)) as [valid ar] eqn:Ev.
  destruct valid; cbn [negb].
  2:{ apply runs_ret. apply HQ; try done; [by apply rolled_same|]. intros ids' [= <-]. rewrite Eo, Em, !Z.eqb_refl, Ev. done. }
  destruct (parse_safer_body_total plain) as (body & Eb & Hbody).
  apply runs_bind. eapply runs_lift; [exact Eb|]. rewrite Eb in HQ.
  destruct body as [[[ptype roller] d]|].
  2:{ apply runs_ret. apply HQ; try done; [by apply rolled_same|]. intros ids' [= <-]. rewrite Eo, Em, !Z.eqb_refl, Ev.
      split; [done|]. left. done. }
  assert (∀ info2 w2, conn_core info2 = conn_core info → anti_replay info2 = ar → later w w2 → env_ok w2 →
    w_trace w2 = w_trace w → rolled true w info info2 w2 → Q (Some (ptype, SAFER_HEADER_LEN), info2) w2) as Hend.
  { intros info2 w2 Hc Ha Hl Hw2 Ht Hr. apply HQ; try done.
    - intros ptype' off [= <- <-]. split; [done|]. by eapply Hbody.
    - intros ids' [= <-]. rewrite Eo, Em, !Z.eqb_refl, Ev. cbn [andb snd fst]. split; [done|]. right. by eexists _, _, _. }
  cbn [oppsite_roller set_anti_replay].
  apply runs_bind. destruct (negb (roller =? oppsite_roller info)).
  - apply runs_bind, runs_now_ms; [done|]. intros t w1 -> Htm Hl1 Ht1 Hw1. do 2 apply runs_ret.
    destruct (_ || _); apply Hend; try done; (split_and!; [done|right; cbn; lia|done]).
  - do 2 apply runs_ret. destruct (_ || _); apply Hend; try done; (split_and!; [done|by left|done]).
Qed.

(** A packet of a session: its sequence number, type, roller and payload. *)
Record message := mkMessage { ms_seq : Z; ms_type : Z; ms_roller : Z; ms_payload : list Z }.
Definition message_ok (m : message) : Prop :=
  is_u 64 (ms_seq m) ∧ is_byte (ms_roller m) ∧ (ms_type m = TYPE_HEARTBEAT ∨ ms_type m = TYPE_DATA).
(** Its plaintext, as the peer whose ids are [a] (its own) and [b] (ours) writes it. *)
Definition plain_of (a b : Z) (m : message) : list Z :=
  build_safer (mkSaferHeader a b (ms_seq m) (ms_type m) (ms_roller m)) (ms_payload m).

Lemma runs_accept_message info m hb_mode w (Q : option (Z * list Z) * ConnInfo → World → Prop) :
  env_ok w → is_u 32 (my_id info) → is_u 32 (oppsite_id info) → message_ok m →
  (∀ info' w', conn_core info' = conn_core info → later w w' → env_ok w' →
     anti_replay info' = (is_valid (anti_replay info) (ms_seq m)).2 →
     Q ((if (is_valid (anti_replay info) (ms_seq m)).1 then Some (ms_type m, ms_payload m) else None), info') w') →
  runs (accept_safer info (plain_of (oppsite_id info) (my_id info) m) hb_mode) w Q.
Proof.
  intros Hw Hi Ho (Hs & Hr & Ht) HQ. unfold accept_safer.
  assert (safer_header_ok (mkSaferHeader (oppsite_id info) (my_id info) (ms_seq m) (ms_type m) (ms_roller m))) as Hh.
  { unfold safer_header_ok. cbn. split_and!; try done; destruct Ht as [-> | ->]; unfold is_u, TYPE_HEARTBEAT, TYPE_DATA; lia. }
  apply runs_bind, runs_accept_offset; [done|]. intros o info' w' Hc Hl Hw' _ _ Hoff Hids _.
  specialize (Hids _ (parse_build_safer_ids _ _ Hh)). cbn [si_oppsite_id si_my_id si_seq sh_my_id sh_oppsite_id sh_seq] in Hids.
  rewrite !Z.eqb_refl in Hids. cbn [andb] in Hids. destruct Hids as [Har Hres].
  specialize (HQ info' w' Hc Hl Hw' Har). cbn [fst snd].
  destruct (is_valid (anti_replay info) (ms_seq m)).1.
  2:{ subst o. by apply runs_ret. }
  unfold plain_of in Hres. rewrite parse_build_safer_body in Hres. cbn [sh_ptype sh_roller] in Hres.
  rewrite bool_decide_true in Hres by done. destruct Hres as [[? _]|(ptype & roller & d & [= <- <- <-] & ->)]; [done|].
  apply runs_bind. eapply runs_lift; [|apply runs_ret, HQ].
  unfold plain_of, build_safer, SAFER_HEADER_LEN. cbn [sh_my_id sh_oppsite_id sh_seq sh_ptype sh_roller].
  rewrite !app_assoc. apply slice_from_app. len_lia.
Qed.

(** The messages the receiver hands on: those the window accepts, in arrival order. *)
Definition delivered (ar : AntiReplay) (ms : list message) : list message :=
  fst <$> filter (λ p, p.2 = true) (zip ms (is_valid_all ar (ms_seq <$> ms))).

Lemma delivered_cons ar m ms :
  delivered ar (m :: ms)
  = (if (is_valid ar (ms_seq m)).1 then [m] else []) ++ delivered (is_valid ar (ms_seq m)).2 ms.
Proof.
  unfold delivered. rewrite fmap_cons. cbn [is_valid_all]. destruct (is_valid ar (ms_seq m)) as [v ar'].
  cbn [zip zip_with fst snd]. rewrite filter_cons. cbn [snd]. destruct v; case_decide; done.
Qed.
Lemma delivered_accepted ar ms : ms_seq <$> delivered ar ms = accepted ar (ms_seq <$> ms).
Proof.
  revert ar. induction ms as [|m ms IH]; intros ar; [done|].
  rewrite delivered_cons, fmap_cons, accepted_cons, fmap_app, IH. by destruct (is_valid ar (ms_seq m)).1.
Qed.

Definition deliver (m : message) : Z * list Z := (ms_type m, ms_payload m).

Lemma runs_accept_all info ms hb_mode w (Q : list (Z * list Z) * ConnInfo → World → Prop) :
  env_ok w → is_u 32 (my_id info) → is_u 32 (oppsite_id info) → Forall message_ok ms →
  (∀ info' w', conn_core info' = conn_core info → env_ok w' →
     Q (deliver <$> delivered (anti_replay info) ms, info') w') →
  runs (accept_all info (plain_of (oppsite_id info) (my_id info) <$> ms) hb_mode) w Q.
Proof.
  intros Hw Hi Ho Hms. revert info w Q Hw Hi Ho. induction Hms as [|m ms Hm _ IH]; intros info w Q Hw Hi Ho HQ.
  { rewrite fmap_nil. cbn [accept_all]. apply runs_ret. by apply HQ. }
  rewrite fmap_cons. cbn [accept_all]. apply runs_bind, runs_accept_message; try done.
  intros info1 w1 Hc1 Hl1 Hw1 Ha1. cbn [fst snd].
  assert (my_id info1 = my_id info ∧ oppsite_id info1 = oppsite_id info) as [E1 E2] by (unfold conn_core in Hc1; by simplify_eq).
  rewrite <-E1, <-E2. apply runs_bind, IH; [done|by rewrite E1|by rewrite E2|].
  intros info2 w2 Hc2 Hw2. apply runs_ret. cbn [fst snd]. specialize (HQ info2 w2 ltac:(congruence) Hw2).
  rewrite delivered_cons in HQ. rewrite Ha1.
  destruct (is_valid (anti_replay info) (ms_seq m)) as [[] ar']; done.
Qed.

Lemma delivered_sublist ar ms : sublist (delivered ar ms) ms.
Proof.
  revert ar. induction ms as [|m ms IH]; intros ar; [done|]. rewrite delivered_cons.
  destruct (is_valid ar (ms_seq m)).1; [apply sublist_skip, IH|apply sublist_cons, IH].
Qed.
Lemma delivered_all ar ms :
  is_valid_all ar (ms_seq <$> ms) = replicate (length ms) true → delivered ar ms = ms.
Proof.
  revert ar. induction ms as [|m ms IH]; intros ar; [done|].
  rewrite delivered_cons, fmap_cons. cbn [is_valid_all length replicate].
  destruct (is_valid ar (ms_seq m)) as [v ar']. intros [= -> E]. cbn [fst snd app]. by rewrite IH.
Qed.

Lemma runs_accept_any info plains hb_mode w (Q : list (Z * list Z) * ConnInfo → World → Prop) :
  env_ok w → (∀ r w', conn_core r.2 = conn_core info → env_ok w' → rolled (negb (bool_decide (r.1 = []))) w info r.2 w' → Q r w') →
  runs (accept_all info plains hb_mode) w Q.
Proof.
  revert info w Q. induction plains as [|p plains IH]; intros info w Q Hw HQ; cbn [accept_all].
  { apply runs_ret, HQ; try done. by apply rolled_same. }
  unfold accept_safer. apply runs_bind, runs_bind, runs_accept_offset; [done|].
  intros o info1 w1 Hc1 _ Hw1 _ Hr1 Hoff _ _. cbn [fst snd].
  assert (∀ o', bool_decide (is_Some o') = bool_decide (is_Some o) → runs (mret (o', info1)) w1 (λ (r : option (Z * list Z) * ConnInfo) w', runs
    (rest ← accept_all r.2 plains hb_mode;
     mret (match r.1 with Some x => x :: rest.1 | None => rest.1 end, rest.2)) w' Q)) as Hk.
  { intros o' Eo. apply runs_ret. cbn [fst snd]. apply runs_bind, IH; [done|].
    intros r w2 Hc2 Hw2 Hr2. apply runs_ret, HQ; [cbn [snd]; congruence|done|]. rewrite <-Eo in Hr1. pose proof (rolled_trans _ _ _ _ _ _ _ _ Hr1 Hr2) as H.
    by destruct o'. }
  destruct o as [[ptype off]|]; [|by apply Hk].
  destruct (Hoff ptype off eq_refl) as [-> Hl]. apply runs_bind.
  eapply runs_lift; [apply slice_from_Done; unfold SAFER_HEADER_LEN in *; lia|]. by apply Hk.
Qed.

(** * Theorems *)

(** Safer packets round trip through the workers: a carried plaintext encrypted by one
    end is decrypted by the other to exactly itself; and with [--fix-gro], a burst of
    packets merged by the network into one buffer is decrypted to exactly the
    plaintexts, in order, in every cipher and authentication mode. *)
Theorem safer_roundtrip `{P : Prims} {HP : PrimsOk P}
    (A B : Crypto) (cm : CipherMode) (am : AuthMode) (legacy : bool) (ka kb : Keys)
    (nonce plain : list Z) (nps : list (list Z * list Z))
    (HA : engine A cm am legacy ka) (HB : engine B cm am legacy kb) (Hm : mirrored ka kb)
    (Hn : nonce_ok nonce) (Hp : carried cm am plain)
    (Hnps : Forall (λ p, nonce_ok p.1 ∧ carried cm am p.2) nps) :
  (∃ w, encrypt_safer_vec A nonce plain false = Done (Some w) ∧ decrypt_safer_vec B w false = Done [plain]) ∧
  (∃ ws, Forall2 (λ np w, encrypt_safer_vec A np.1 np.2 true = Done (Some w)) nps ws ∧
     decrypt_safer_vec B (mjoin ws) true = Done nps.*2).
Proof.
  split; [by apply (safer_plain_pair A B cm am legacy ka kb)|by apply (safer_burst_pair A B cm am legacy ka kb)].
Qed.

(** C1. Session delivery: on a connection whose window was just reset, whatever sequence of
    genuine packets arrives (reordered, lost or replayed), the receiver hands on a
    subsequence of them in arrival order, never two with the same sequence number, with
    their types and payloads; and when every packet arrives once, less than 4000 numbers
    behind the newest before it, it hands on all of them.  The rest of the connection's
    state is not touched. *)
Theorem session_delivery (info : ConnInfo) (a : AntiReplay) (ms : list message) (hb_mode : Z) (w : World)
    (Hw : env_ok w) (Hi : is_u 32 (my_id info)) (Ho : is_u 32 (oppsite_id info))
    (Hms : Forall message_ok ms) (Hwf : Wf a) (Har : anti_replay info = re_init a) :
  ∃ out info' w',
    accept_all info (plain_of (oppsite_id info) (my_id info) <$> ms) hb_mode w
      = Done ((deliver <$> out, info'), w') ∧
    conn_core info' = conn_core info ∧ sublist out ms ∧ NoDup (ms_seq <$> out) ∧
    (NoDup (ms_seq <$> ms) → Forall (λ m, 1 ≤ ms_seq m) ms → windowed 0 (ms_seq <$> ms) = true → out = ms).
Proof.
  destruct (runs_accept_all info ms hb_mode w (λ r w', r.1 = deliver <$> delivered (anti_replay info) ms ∧
    conn_core r.2 = conn_core info) Hw Hi Ho Hms) as ([o info'] & w' & E & Eo & Hc).
  { by intros. }
  cbn [fst snd] in *. subst o. exists (delivered (anti_replay info) ms), info', w'. rewrite Har in *.
  split_and!; [done|done|apply delivered_sublist| |].
  - rewrite delivered_accepted. by apply (accepted_fresh _ empty_spec), sound_reset.
  - intros Hnd H1 Hwin. apply delivered_all.
    rewrite (refines_all _ _ empty_spec _ (refines_reset a Hwf)) by (by apply Forall_fmap).
    rewrite <-(length_fmap ms_seq). apply spec_all_windowed; cbn [empty_spec s_max s_acc]; try done.
    + right. rewrite list_elem_of_fmap. intros (m & E0 & Hin).
      eapply Forall_forall in H1; [|done]. cbn in H1. lia.
Qed.

(** C33. Receiving untrusted bytes on the I/O thread never aborts, in any cipher mode, with or
    without [--fix-gro]: decryption, splitting, acceptance and the acknowledgement update all
    return.  The connection keeps its ids and the times of its state and its heartbeats; its
    FakeTCP state takes in the packet exactly if something was accepted; and if nothing was,
    the rollers and the time of the peer's last one stay too, which otherwise changes only to
    a reading of the clock meanwhile. *)
Theorem recv_safer_never_panics `{P : Prims} {HP : PrimsOk P}
    (ctx : RawCtx) (cr : Crypto) (cm : CipherMode) (am : AuthMode) (legacy : bool) (keys : Keys)
    (info : ConnInfo) (data : list Z) (fix_gro : bool) (hb_mode : Z) (meta : RecvMeta) (w : World)
    (He : engine cr cm am legacy keys) (Hb : bytes data) (Hw : env_ok w) :
  ∃ out info' w', recv_safer_inline ctx cr info data fix_gro hb_mode meta w = Done ((out, info'), w') ∧
    (my_id info', oppsite_id info', oppsite_const_id info') = (my_id info, oppsite_id info, oppsite_const_id info) ∧
    (last_state_time info', last_hb_sent_time info', last_hb_recv_time info') =
      (last_state_time info, last_hb_sent_time info, last_hb_recv_time info) ∧
    ci_raw info' = (if bool_decide (out = []) then ci_raw info else after_recv ctx (ci_raw info) meta) ∧
    rolled (negb (bool_decide (out = []))) w info info' w'.
Proof.
  destruct (decrypt_safer_total cr cm am legacy keys He data fix_gro Hb) as (plains & Ep).
  destruct (runs_accept_any info plains hb_mode w (λ r w', conn_core r.2 = conn_core info ∧ rolled (negb (bool_decide (r.1 = []))) w info r.2 w') Hw)
    as ([out info1] & w1 & E & Hc & Hr).
  { by intros. }
  unfold recv_safer_inline, mbind, io_bind, lift. rewrite Ep. unfold mbind, io_bind in E. rewrite E.
  eexists _, _, _. split; [reflexivity|]. cbn [fst snd] in Hc, Hr. unfold conn_core in Hc. injection Hc as H1 H2 H3 H4 H5 H6 H7.
  by destruct out; cbn; rewrite ?H1, ?H2, ?H3, ?H4, ?H5, ?H6, ?H7.
Qed.

(** * Concrete instances *)
Definition demo_conn : ConnInfo := mkConnInfo demo_raw 0 0 0 7 9 0 0 0 0 (re_init (AntiReplay_new 0 false)).

Lemma session_delivery_witness :
  ∃ out info' w',
    accept_all demo_conn (plain_of 9 7 <$> [mkMessage 2 TYPE_DATA 0 [1]; mkMessage 1 TYPE_HEARTBEAT 0 []]) 1 demo_world
      = Done ((deliver <$> out, info'), w') ∧
    conn_core info' = conn_core demo_conn ∧ out = [mkMessage 2 TYPE_DATA 0 [1]; mkMessage 1 TYPE_HEARTBEAT 0 []].
Proof.
  destruct (session_delivery demo_conn (AntiReplay_new 0 false)
    [mkMessage 2 TYPE_DATA 0 [1]; mkMessage 1 TYPE_HEARTBEAT 0 []] 1 demo_world demo_world_ok)
    as (out & info' & w' & E & Hc & _ & _ & Hall).
  - split; vm_compute; congruence.
  - split; vm_compute; congruence.
  - constructor; [|constructor; [|constructor]]; (split_and!; [split; vm_compute; congruence..|cbn; auto]).
  - apply wf_new.
  - reflexivity.
  - exists out, info', w'. split; [exact E|]. split; [exact Hc|]. apply Hall.
    + cbn. repeat constructor; set_solver.
    + repeat constructor; cbn; lia.
    + reflexivity.
Defined.

Lemma safer_roundtrip_witness :
  ∃ A B w, Crypto_with_backend (P := demo_prims) false Xor Simple false demo_keys Auto = Done A ∧
    Crypto_with_backend (P := demo_prims) true Xor Simple false demo_keys' Auto = Done B ∧
    encrypt_safer_vec (P := demo_prims) A (replicate 24 0) (replicate 30 1) false = Done (Some w) ∧
    decrypt_safer_vec (P := demo_prims) B w false = Done [replicate 30 1].
Proof.
  destruct demo_keys_ok as (H1 & H2 & H3).
  destruct (Crypto_with_backend_ok (P := demo_prims) false Xor Simple false demo_keys Auto H1) as (A & EA & HA).
  destruct (Crypto_with_backend_ok (P := demo_prims) true Xor Simple false demo_keys' Auto H2) as (B & EB & HB).
  destruct (safer_roundtrip (P := demo_prims) A B Xor Simple false demo_keys demo_keys' (replicate 24 0)
    (replicate 30 1) [] HA HB H3) as [(w & Ew & Hd) _].
  - split; [reflexivity|apply bytes_check; reflexivity].
  - split; [apply bytes_check; reflexivity|]. split; [reflexivity|]. split; vm_compute; congruence.
  - constructor.
  - exists A, B, w. exact (conj EA (conj EB (conj Ew Hd))).
Defined.

Lemma recv_safer_never_panics_witness :
  ∃ cr out info' w', Crypto_with_backend (P := demo_prims) true Xor AuthNone false demo_keys Auto = Done cr ∧
    recv_safer_inline (P := demo_prims) (demo_ctx true 1234) cr demo_conn (replicate 40 255) true 1
      (from_recv demo_info) demo_world = Done ((out, info'), w').
Proof.
  destruct (Crypto_with_backend_ok (P := demo_prims) true Xor AuthNone false demo_keys Auto (proj1 demo_keys_ok))
    as (cr & E & He).
  destruct (recv_safer_never_panics (P := demo_prims) (demo_ctx true 1234) cr Xor AuthNone false demo_keys
    demo_conn (replicate 40 255) true 1 (from_recv demo_info) demo_world He
    ltac:(apply bytes_check; reflexivity) demo_world_ok) as (out & info' & w' & Er & _).
  exists cr, out, info', w'. exact (conj E Er).
Defined.
