(* ===== verification/Pipeline.v ===== *)
(** The ordered crypto pipeline ([src/src/pipeline.rs]).

    The I/O thread and the worker threads share bounded channels.  The executable
    operations are those of the source; [step] interleaves the I/O thread, one channel
    operation at a time, with the worker threads in every order.  The theorems: results are
    delivered in submission order whatever the schedule, and no wake-up is lost. *)
From S2P Require Import Prelude Util Fips197 Prims Kdf Auth Cipher Crypto Wire AntiReplay.
From S2P Require Import Ip Tcp Types World Config FakeTcp Conn.

Record JobKey := mkJobKey { jk_slot : nat; jk_generation : Z }.
#[export] Instance JobKey_eq_dec : EqDecision JobKey.
Proof. solve_decision. Defined.

Inductive Job :=
| Encrypt (key : JobKey) (plain : list Z)
| Decrypt (key : JobKey) (wire : list Z) (meta : RecvMeta).

Inductive Completion :=
| Encrypted (key : JobKey) (wire : option (list Z))
| Decrypted (key : JobKey) (plains : list (list Z)) (meta : RecvMeta).

(** [nonce] is what the thread's [random_nonce] returns, read by the AEAD only. *)
Definition process `{P : Prims} (job : Job) (crypto : Crypto) (fix_gro : bool) (nonce : list Z)
    : outcome Completion :=
  match job with
  | Encrypt key plain => w ← encrypt_safer_vec crypto nonce plain fix_gro; Done (Encrypted key w)
  | Decrypt key wire meta =>
      plains ← decrypt_safer_vec crypto wire fix_gro; Done (Decrypted key plains meta)
  end.

(** Where a worker thread is in its loop: blocked in [recv], holding a result vector it
    sends, about to write the eventfd, or gone (its two channel ends are dropped). *)
Inductive Thread :=
| Receiving
| Sending (dones : list Completion)
| Notifying
| Exited.

(** A worker: the jobs queued for it, its thread, the results queued for the I/O thread. *)
Record Worker := mkWorker {
  wk_jobs : list (list Job); wk_thread : Thread; wk_done : list (list Completion) }.

(** [wake] is the eventfd's counter. *)
Record Pipeline := mkPipeline {
  workers : list Worker;
  wake : Z;
  next_dispatch : nat;
  next_collect : nat;
  in_flight_batches : nat;
  batch : list Job;
  inline_done : list Completion;
  pl_crypto : Crypto;
  pl_fix_gro : bool;
  dropped : Z }.
Definition set_workers (v : list Worker) (r : Pipeline) : Pipeline :=
  mkPipeline v (wake r) (next_dispatch r) (next_collect r) (in_flight_batches r) (batch r)
    (inline_done r) (pl_crypto r) (pl_fix_gro r) (dropped r).
Definition set_wake (v : Z) (r : Pipeline) : Pipeline :=
  mkPipeline (workers r) v (next_dispatch r) (next_collect r) (in_flight_batches r) (batch r)
    (inline_done r) (pl_crypto r) (pl_fix_gro r) (dropped r).
Definition set_next_dispatch (v : nat) (r : Pipeline) : Pipeline :=
  mkPipeline (workers r) (wake r) v (next_collect r) (in_flight_batches r) (batch r)
    (inline_done r) (pl_crypto r) (pl_fix_gro r) (dropped r).
Definition set_next_collect (v : nat) (r : Pipeline) : Pipeline :=
  mkPipeline (workers r) (wake r) (next_dispatch r) v (in_flight_batches r) (batch r)
    (inline_done r) (pl_crypto r) (pl_fix_gro r) (dropped r).
Definition set_in_flight_batches (v : nat) (r : Pipeline) : Pipeline :=
  mkPipeline (workers r) (wake r) (next_dispatch r) (next_collect r) v (batch r)
    (inline_done r) (pl_crypto r) (pl_fix_gro r) (dropped r).
Definition set_batch (v : list Job) (r : Pipeline) : Pipeline :=
  mkPipeline (workers r) (wake r) (next_dispatch r) (next_collect r) (in_flight_batches r) v
    (inline_done r) (pl_crypto r) (pl_fix_gro r) (dropped r).
Definition set_inline_done (v : list Completion) (r : Pipeline) : Pipeline :=
  mkPipeline (workers r) (wake r) (next_dispatch r) (next_collect r) (in_flight_batches r)
    (batch r) v (pl_crypto r) (pl_fix_gro r) (dropped r).
Definition set_pl_crypto (v : Crypto) (r : Pipeline) : Pipeline :=
  mkPipeline (workers r) (wake r) (next_dispatch r) (next_collect r) (in_flight_batches r)
    (batch r) (inline_done r) v (pl_fix_gro r) (dropped r).
Definition set_pl_fix_gro (v : bool) (r : Pipeline) : Pipeline :=
  mkPipeline (workers r) (wake r) (next_dispatch r) (next_collect r) (in_flight_batches r)
    (batch r) (inline_done r) (pl_crypto r) v (dropped r).
Definition set_dropped (v : Z) (r : Pipeline) : Pipeline :=
  mkPipeline (workers r) (wake r) (next_dispatch r) (next_collect r) (in_flight_batches r)
    (batch r) (inline_done r) (pl_crypto r) (pl_fix_gro r) v.

Definition BATCH_JOBS : nat := 16.
Definition QUEUE_DEPTH : nat := 64.

Definition Worker_new : Worker := mkWorker [] Receiving [].
Definition Pipeline_new (threads : nat) (crypto : Crypto) (fix_gro : bool) : Pipeline :=
  mkPipeline (replicate threads Worker_new) 0 0 0 0 [] [] crypto fix_gro 0.

Definition threads (self : Pipeline) : nat := length (workers self).
Definition in_flight (self : Pipeline) : nat :=
  (in_flight_batches self + match batch self with [] => 0 | _ => 1 end)%nat.

(** * The channels *)
Inductive TrySend (A : Type) := SendOk (q : A) | SendFull | SendDisconnected.
Arguments SendOk {_} _.
Arguments SendFull {_}.
Arguments SendDisconnected {_}.

Definition try_send (w : Worker) (b : list Job) : TrySend Worker :=
  match wk_thread w with
  | Exited => SendDisconnected
  | _ =>
      if (length (wk_jobs w) <? QUEUE_DEPTH)%nat
      then SendOk (mkWorker (wk_jobs w ++ [b]) (wk_thread w) (wk_done w)) else SendFull
  end.
(** [Empty] and [Disconnected] are handled alike. *)
Definition try_recv (w : Worker) : option (list Completion * Worker) :=
  match wk_done w with
  | [] => None
  | d :: ds => Some (d, mkWorker (wk_jobs w) (wk_thread w) ds)
  end.

(** [self.workers[i]] *)
Definition worker (self : Pipeline) (i : nat) : outcome Worker :=
  match workers self !! i with Some w => Done w | None => Panic end.

(** * The operations of the I/O thread *)
Definition flush (self : Pipeline) : outcome (bool * Pipeline) :=
  match batch self, workers self with
  | [], _ | _, [] => Done (true, self)
  | b, _ =>
      let self := set_batch [] self in
      let n := zlen b in
      w ← worker self (next_dispatch self);
      match try_send w b with
      | SendOk w' =>
          let self := set_workers (<[next_dispatch self := w']> (workers self)) self in
          let self := set_next_dispatch ((next_dispatch self + 1) mod threads self)%nat self in
          Done (true, set_in_flight_batches (in_flight_batches self + 1)%nat self)
      | SendFull => Done (false, set_dropped (dropped self +⟨64⟩ n) self)
      | SendDisconnected => Done (false, self)
      end
  end.

Definition submit `{P : Prims} (self : Pipeline) (job : Job) : Io (bool * Pipeline) :=
  match workers self with
  | [] =>
      nonce ← match job, cr_aead (pl_crypto self) with Encrypt _ _, Some _ => next_nonce | _, _ => mret [] end;
      d ← lift (process job (pl_crypto self) (pl_fix_gro self) nonce);
      mret (true, set_inline_done (inline_done self ++ [d]) self)
  | _ =>
      let self := set_batch (batch self ++ [job]) self in
      if (BATCH_JOBS <=? length (batch self))%nat then lift (flush self) else mret (true, self)
  end.

(** One pass of the loop of [collect]: the delivered vector, or the end of the loop. *)
Definition collect_one (self : Pipeline) : outcome (option (list Completion) * Pipeline) :=
  if (0 <? in_flight_batches self)%nat then
    w ← worker self (next_collect self);
    match try_recv w with
    | Some (dones, w') =>
        let self := set_workers (<[next_collect self := w']> (workers self)) self in
        let self := set_next_collect ((next_collect self + 1) mod threads self)%nat self in
        Done (Some dones, set_in_flight_batches (in_flight_batches self - 1)%nat self)
    | None => Done (None, self)
    end
  else Done (None, self).
(** Every pass that goes on takes one batch, so [in_flight_batches] passes are enough. *)
Fixpoint collect_loop (fuel : nat) (self : Pipeline) : outcome (list Completion * Pipeline) :=
  match fuel with
  | O => Done ([], self)
  | S fuel =>
      r ← collect_one self;
      match r with
      | (None, self) => Done ([], self)
      | (Some ds, self) => r ← collect_loop fuel self; Done (ds ++ r.1, r.2)
      end
  end.
(** What [collect] passes to its callback, in order. *)
Definition collect (self : Pipeline) : outcome (list Completion * Pipeline) :=
  match workers self with
  | [] => Done (inline_done self, set_inline_done [] self)
  | _ =>
      r ← flush self;
      let self := set_wake 0 r.2 in
      collect_loop (in_flight_batches self) self
  end.

(** * The worker threads *)
Fixpoint process_batch `{P : Prims} (jobs : list Job) (crypto : Crypto) (fix_gro : bool)
    (nonces : nat → list Z) : outcome (list Completion) :=
  match jobs with
  | [] => Done []
  | j :: jobs =>
      d ← process j crypto fix_gro (nonces 0%nat);
      ds ← process_batch jobs crypto fix_gro (nonces ∘ S);
      Done (d :: ds)
  end.

(** The next action of a thread, if it is not blocked; a panic ends the thread (and the
    process in a build that aborts on a panic, [worker_turn]). *)
Definition worker_step `{P : Prims} (nonces : nat → list Z) (i : nat) (self : Pipeline) : option Pipeline :=
  w ← workers self !! i;
  let put w' := set_workers (<[i := w']> (workers self)) self in
  match wk_thread w with
  | Receiving =>
      match wk_jobs w with
      | [] => None
      | b :: bs =>
          match process_batch b (pl_crypto self) (pl_fix_gro self) nonces with
          | Done dones => Some (put (mkWorker bs (Sending dones) (wk_done w)))
          | Panic => Some (put (mkWorker [] Exited (wk_done w)))
          end
      end
  | Sending dones =>
      if (length (wk_done w) <? QUEUE_DEPTH)%nat
      then Some (put (mkWorker (wk_jobs w) Notifying (wk_done w ++ [dones]))) else None
  | Notifying =>
      let self := put (mkWorker (wk_jobs w) Receiving (wk_done w)) in
      (* a full eventfd counter refuses the write, which is ignored *)
      Some (if wake self <? 2 ^ 64 - 2 then set_wake (wake self + 1) self else self)
  | Exited => None
  end.

Definition alive (p : Pipeline) : Prop := Forall (λ w, wk_thread w ≠ Exited) (workers p).
#[export] Instance Thread_exited_dec w : Decision (wk_thread w ≠ Exited).
Proof. refine (match wk_thread w as t return Decision (t ≠ Exited) with Exited => right _ | _ => left _ end); [done..|by intros H; apply H]. Defined.
#[export] Instance alive_dec p : Decision (alive p).
Proof. unfold alive. apply _. Defined.
(** A step of a thread in the released program, whose profile has [panic = "abort"]: a panic of
    a worker ends the process. *)
Definition worker_turn `{P : Prims} (nonces : nat → list Z) (i : nat) (self : Pipeline) : outcome Pipeline :=
  match worker_step nonces i self with
  | Some p => if bool_decide (alive p) then Done p else Panic
  | None => Done self
  end.

(** * The I/O thread among the workers *)
(** Between two operations of the I/O thread on its channels the workers go on, in any order
    and as far as the scheduler lets them. *)
Fixpoint workers_run `{P : Prims} (ids : list nat) (self : Pipeline) : Io Pipeline :=
  match ids with
  | [] => mret self
  | i :: ids => nonces ← next_nonces BATCH_JOBS; self ← lift (worker_turn nonces i self); workers_run ids self
  end.
Definition meanwhile `{P : Prims} (self : Pipeline) : Io Pipeline := ids ← next_sched; workers_run ids self.
Definition submit_among `{P : Prims} (self : Pipeline) (job : Job) : Io (bool * Pipeline) :=
  self ← meanwhile self; submit self job.
Fixpoint collect_loop_among `{P : Prims} (fuel : nat) (self : Pipeline) : Io (list Completion * Pipeline) :=
  match fuel with
  | O => mret ([], self)
  | S fuel =>
      self ← meanwhile self;
      r ← lift (collect_one self);
      match r with
      | (None, self) => mret ([], self)
      | (Some ds, self) => r ← collect_loop_among fuel self; mret (ds ++ r.1, r.2)
      end
  end.
Definition collect_among `{P : Prims} (self : Pipeline) : Io (list Completion * Pipeline) :=
  self ← meanwhile self;
  match workers self with
  | [] => mret (inline_done self, set_inline_done [] self)
  | _ =>
      r ← lift (flush self);
      self ← meanwhile r.2;
      let self := set_wake 0 self in
      collect_loop_among (in_flight_batches self) self
  end.

(** * Every interleaving *)

(** Where the I/O thread is: outside [collect], after its [flush], or in its loop. *)
Inductive IoMode := Outside | Flushed | Collecting.
Definition System : Type := Pipeline * IoMode.

Section steps.
Context `{P : Prims}.

(** A step, with the jobs it submits and the completions it delivers. *)
Inductive step : System → list Job → list Completion → System → Prop :=
| step_submit p j ok p' w w' :
    env_ok w → submit p j w = Done ((ok, p'), w') → step (p, Outside) [j] [] (p', Outside)
| step_flush p ok p' : flush p = Done (ok, p') → step (p, Outside) [] [] (p', Outside)
| step_inline p : workers p = [] →
    step (p, Outside) [] (inline_done p) (set_inline_done [] p, Outside)
| step_collect p ok p' : workers p ≠ [] → flush p = Done (ok, p') →
    step (p, Outside) [] [] (p', Flushed)
| step_drain p : step (p, Flushed) [] [] (set_wake 0 p, Collecting)
| step_deliver p ds p' : collect_one p = Done (Some ds, p') →
    step (p, Collecting) [] ds (p', Collecting)
| step_leave p p' : collect_one p = Done (None, p') → step (p, Collecting) [] [] (p', Outside)
| step_worker p m nonces i p' : (∀ k, nonce_ok (nonces k)) → worker_step nonces i p = Some p' →
    step (p, m) [] [] (p', m).

Inductive reach (n : nat) (cr : Crypto) (gro : bool) : list Job → list Completion → System → Prop :=
| reach_new : reach n cr gro [] [] (Pipeline_new n cr gro, Outside)
| reach_step subs outs s js ds s' : reach n cr gro subs outs s → step s js ds s' →
    reach n cr gro (subs ++ js) (outs ++ ds) s'.

(** The result of a job, for some value of the random source. *)
Definition processed (cr : Crypto) (gro : bool) (j : Job) (d : Completion) : Prop :=
  ∃ nonce, nonce_for cr nonce ∧ process j cr gro nonce = Done d.
End steps.

(** * The invariant *)
Section invariant.
Context `{P : Prims} (n : nat) (cr : Crypto) (gro : bool).

Abbreviation done_of := (Forall2 (processed cr gro)).

(** The batches a worker is responsible for: those whose results are queued, the one it
    holds, those that wait. *)
Definition holds (w : Worker) (bs : list (list Job)) : Prop :=
  ∃ db mid, bs = db ++ mid ++ wk_jobs w ∧ Forall2 done_of db (wk_done w) ∧
    match wk_thread w with
    | Receiving | Notifying => mid = []
    | Sending ds => ∃ b, mid = [b] ∧ done_of b ds
    | Exited => wk_jobs w = []
    end.

(** [L]: the batches dispatched and not collected, oldest first, with their workers. *)
Abbreviation batches := (list (nat * list Job)).
Definition of_worker (L : batches) (i : nat) : list (list Job) := (filter (λ x, x.1 = i) L).*2.

Record threaded (p : Pipeline) (L : batches) : Prop := {
  th_len : length (workers p) = n;
  th_holds i w : workers p !! i = Some w → holds w (of_worker L i);
  th_robin j x : L !! j = Some x → x.1 = ((next_collect p + j) mod n)%nat;
  th_collect : (next_collect p < n)%nat;
  th_dispatch : next_dispatch p = ((next_collect p + length L) mod n)%nat;
  th_flight : in_flight_batches p = length L;
  th_nonempty : Forall (λ x, x.2 ≠ []) L }.

(** Jobs submitted and not delivered. *)
Definition pending (p : Pipeline) (L : batches) (J : list Job) : list Job :=
  if decide (n = 0%nat) then J else mjoin L.*2 ++ batch p.

Record inv (k : nat) (subs : list Job) (outs : list Completion) (s : System) (kept : list Job) (L : batches)
    (J : list Job) (lost : list Job) : Prop := {
  in_crypto : pl_crypto s.1 = cr ∧ pl_fix_gro s.1 = gro;
  in_mode : if decide (n = 0%nat)
            then workers s.1 = [] ∧ s.2 = Outside ∧ done_of J (inline_done s.1) ∧ in_flight_batches s.1 = 0%nat ∧ batch s.1 = []
            else threaded s.1 L ∧ inline_done s.1 = [];
  in_batch : (length (batch s.1) ≤ k)%nat;
  in_kept : done_of kept outs;
  in_sub : sublist (kept ++ pending s.1 L J) subs;
  in_perm : kept ++ pending s.1 L J ++ lost ≡ₚ subs;
  in_lost : Forall (λ w, wk_thread w ≠ Exited) (workers s.1) → dropped s.1 = wrap 64 (zlen lost);
  in_wake_pos : 0 ≤ wake s.1;
  in_wake i w : s.2 ≠ Collecting → i = next_collect s.1 → workers s.1 !! i = Some w → wk_done w ≠ [] →
    0 < wake s.1 ∨ ∃ i' w', workers s.1 !! i' = Some w' ∧ wk_thread w' = Notifying }.

(** ** Workers and the batches they hold *)
Lemma of_worker_app L L' i : of_worker (L ++ L') i = of_worker L i ++ of_worker L' i.
Proof. unfold of_worker. by rewrite filter_app, fmap_app. Qed.
Lemma of_worker_one i j b : of_worker [(i, b)] j = if decide (i = j) then [b] else [].
Proof. unfold of_worker. rewrite filter_cons. cbn [fst]. by destruct (decide (i = j)). Qed.

Lemma holds_insert (ws : list Worker) (f : nat → list (list Job)) i w' :
  (∀ j w, j ≠ i → ws !! j = Some w → holds w (f j)) → holds w' (f i) →
  ∀ j w, <[i := w']> ws !! j = Some w → holds w (f j).
Proof.
  intros Hall Hw' j w [(<- & <- & _)|[Hne Hj]]%list_lookup_insert_Some; [done|by apply Hall].
Qed.

Lemma threaded_worker p L i : threaded p L → (i < n)%nat → ∃ w, workers p !! i = Some w ∧ worker p i = Done w.
Proof.
  intros Ht Hi. destruct (lookup_lt_is_Some_2 (workers p) i) as [w E]; [by rewrite (th_len _ _ Ht)|].
  exists w. unfold worker. by rewrite E.
Qed.

(** The observable part of the workers that the I/O thread's sends do not touch. *)
Definition outputs (p : Pipeline) : list (Thread * list (list Completion)) :=
  (λ w, (wk_thread w, wk_done w)) <$> workers p.

(** What an operation that only hands jobs to the workers leaves alone. *)
Definition same_rest (p p' : Pipeline) : Prop :=
  wake p' = wake p ∧ next_collect p' = next_collect p ∧ pl_crypto p' = pl_crypto p ∧
  pl_fix_gro p' = pl_fix_gro p ∧ inline_done p' = inline_done p ∧ outputs p' = outputs p.

Lemma robin_snoc p (L : batches) b :
  (∀ j x, L !! j = Some x → x.1 = ((next_collect p + j) mod n)%nat) →
  ∀ j x, (L ++ [(((next_collect p + length L) mod n)%nat, b)]) !! j = Some x →
    x.1 = ((next_collect p + j) mod n)%nat.
Proof.
  intros H j x [[_ Hj]|[-> <-]]%lookup_snoc_Some; [by apply H|done].
Qed.

Lemma holds_send w bs b w' : holds w bs → try_send w b = SendOk w' →
  holds w' (bs ++ [b]) ∧ wk_thread w' = wk_thread w ∧ wk_done w' = wk_done w.
Proof.
  intros (db & mid & -> & Hd & Hm). unfold try_send.
  destruct (wk_thread w) eqn:Et; try done; (destruct (_ <? _)%nat; [|done]); intros [= <-];
    (split; [|done]); exists db, mid; cbn [wk_jobs wk_thread wk_done]; by rewrite <-!app_assoc.
Qed.

Lemma outputs_insert p i w w' : workers p !! i = Some w → wk_thread w' = wk_thread w → wk_done w' = wk_done w →
  (λ w, (wk_thread w, wk_done w)) <$> <[i := w']> (workers p) = outputs p.
Proof.
  intros Ei Et Ed. unfold outputs. rewrite list_fmap_insert, Et, Ed. apply list_insert_id.
  by rewrite list_lookup_fmap, Ei.
Qed.

Lemma flush_spec p L : threaded p L →
  ∃ ok p' L' lost, flush p = Done (ok, p') ∧ threaded p' L' ∧ same_rest p p' ∧ batch p' = [] ∧
    (L' = L ∧ lost = batch p ∨ mjoin L'.*2 = mjoin L.*2 ++ batch p ∧ lost = []) ∧
    (Forall (λ w, wk_thread w ≠ Exited) (workers p') →
       ∀ k, dropped p = wrap 64 k → dropped p' = wrap 64 (k + zlen lost)).
Proof.
  intros Ht. unfold flush. pose proof (th_collect _ _ Ht) as Hc.
  destruct (batch p) as [|j0 js] eqn:Eb.
  { exists true, p, L, []. split_and!; try done; [by left|]. intros _ k ->. f_equal. cbn. lia. }
  destruct (workers p) as [|w0 ws] eqn:Ew; [pose proof (th_len _ _ Ht) as Hl; rewrite Ew in Hl; cbn in Hl; lia|].
  cbn [next_dispatch set_batch]. unfold worker. cbn [workers set_batch].
  assert (next_dispatch p < n)%nat as Hd by (rewrite (th_dispatch _ _ Ht); apply Nat.mod_upper_bound; lia).
  destruct (threaded_worker p L _ Ht Hd) as (w & El & _). rewrite El, bind_Done.
  destruct (try_send w (j0 :: js)) as [w'| |] eqn:Es.
  - destruct (holds_send _ _ _ _ (th_holds _ _ Ht _ _ El) Es) as (Hw' & Et' & Ed').
    exists true. eexists. exists (L ++ [(next_dispatch p, j0 :: js)]), []. split; [reflexivity|].
    split; [|split_and!; try done].
    + destruct Ht as [Hlen Hh Hr _ Hdi Hfl Hne].
      constructor; cbn [workers next_collect next_dispatch in_flight_batches set_workers set_next_dispatch
        set_in_flight_batches set_batch]; try done.
      * by rewrite length_insert.
      * apply (holds_insert _ (of_worker (L ++ _))).
        -- intros i v Hne' Hv. rewrite of_worker_app, of_worker_one, decide_False, app_nil_r by done. by apply Hh.
        -- by rewrite of_worker_app, of_worker_one, decide_True.
      * rewrite Hdi. by apply robin_snoc.
      * unfold threads. cbn [workers set_workers]. rewrite length_insert, length_app, Hlen, Hdi. cbn [length].
        rewrite Nat.Div0.add_mod_idemp_l. f_equal. lia.
      * rewrite length_app. cbn [length]. lia.
      * apply Forall_app_2; [done|]. by constructor.
    + unfold same_rest. split_and!; try done. by apply outputs_insert with w.
    + right. rewrite fmap_app, join_app. cbn. by rewrite app_nil_r.
    + intros _ k. cbn. intros ->. f_equal. lia.
  - exists false. eexists. exists L, (j0 :: js). split; [reflexivity|].
    split; [by destruct Ht|]. split_and!; try done; [by left|].
    intros _ k. cbn [dropped set_dropped set_batch]. intros ->. unfold wrap. apply Z.add_mod_idemp_l. lia.
  - exists false. eexists. exists L, (j0 :: js). split; [reflexivity|].
    split; [by destruct Ht|]. split_and!; try done; [by left|].
    intros Hne. exfalso. cbn [workers set_batch] in Hne. eapply Forall_lookup_1 in Hne; [|exact El].
    unfold try_send in Es. destruct (wk_thread w); try done; by destruct (_ <? _)%nat.
Qed.

Lemma process_batch_done jobs nonces ds : (∀ k, nonce_ok (nonces k)) →
  process_batch jobs cr gro nonces = Done ds → done_of jobs ds.
Proof.
  revert nonces ds. induction jobs as [|j jobs IH]; intros nonces ds Hn E; cbn [process_batch] in E.
  { injection E as <-. constructor. }
  apply bind_inv in E as (d & Ed & E). apply bind_inv in E as (ds' & Eds & [= <-]). constructor.
  - exists (nonces 0%nat). split; [|done]. unfold nonce_for. by destruct (cr_aead cr).
  - eapply IH; [|done]. intros k. apply Hn.
Qed.

(** What a step of a worker leaves alone. *)
Definition same_io (p p' : Pipeline) : Prop :=
  next_collect p' = next_collect p ∧ next_dispatch p' = next_dispatch p ∧
  in_flight_batches p' = in_flight_batches p ∧ batch p' = batch p ∧ inline_done p' = inline_done p ∧
  pl_crypto p' = pl_crypto p ∧ pl_fix_gro p' = pl_fix_gro p ∧ dropped p' = dropped p.

(** A worker replaced by one that holds the same batches. *)
Lemma threaded_insert p p' L i w' : threaded p L → same_io p p' →
  workers p' = <[i := w']> (workers p) → holds w' (of_worker L i) → threaded p' L.
Proof.
  intros [Hlen Hh Hr Hc Hd Hf Hne] (E1 & E2 & E3 & _) Ew Hw. constructor; rewrite ?E1, ?E2, ?E3; try done.
  - by rewrite Ew, length_insert.
  - rewrite Ew. apply (holds_insert _ (of_worker L)); [|done]. intros j v _. apply Hh.
Qed.

Lemma worker_step_spec nonces i p p' L :
  threaded p L → pl_crypto p = cr → pl_fix_gro p = gro → (∀ k, nonce_ok (nonces k)) → 0 ≤ wake p →
  worker_step nonces i p = Some p' →
  threaded p' L ∧ same_io p p' ∧ 0 ≤ wake p' ∧
  ∃ w w', workers p !! i = Some w ∧ workers p' = <[i := w']> (workers p) ∧
    (wk_thread w = Exited → wk_thread w' = Exited) ∧
    ((wk_thread w' = Notifying ∧ wake p' = wake p) ∨ (wk_thread w = Notifying ∧ wk_thread w' = Receiving ∧ 0 < wake p') ∨
     (wk_thread w ≠ Notifying ∧ wk_done w' = wk_done w ∧ wake p' = wake p)).
Proof.
  intros Ht Hcr Hgro Hn Hk. unfold worker_step. rewrite Hcr, Hgro.
  destruct (workers p !! i) as [w|] eqn:Ei; [|done]. change (Some w ≫= ?f) with (f w). cbv beta.
  pose proof (th_holds _ _ Ht _ _ Ei) as (db & mid & Ebs & Hdb & Hmid).
  assert (∀ w' p'', same_io p p'' → workers p'' = <[i := w']> (workers p) → holds w' (of_worker L i) → threaded p'' L)
    as Hins by (intros; by eapply threaded_insert).
  destruct (wk_thread w) as [|ds| |] eqn:Et.
  - destruct (wk_jobs w) as [|b bs] eqn:Ej; [done|].
    destruct (process_batch b cr gro nonces) as [ds|] eqn:Ep; intros [= <-]; (split; [|split; [done|split; [done|]]]).
    + eapply Hins; [done|reflexivity|]. exists db, [b]. subst mid. split_and!; [done|done|].
      exists b. split; [done|by eapply process_batch_done].
    + eexists _, _. split_and!; [done|reflexivity|by rewrite Et|]. rewrite Et. by right; right.
    + eapply Hins; [done|reflexivity|]. exists db, (b :: bs). subst mid. split_and!; [|done|done].
      cbn [wk_jobs]. by rewrite app_nil_r.
    + eexists _, _. split_and!; [done|reflexivity|by rewrite Et|]. rewrite Et. by right; right.
  - destruct (_ <? _)%nat; [|done]. intros [= <-]. destruct Hmid as (b & -> & Hb).
    split; [|split; [done|split; [done|]]].
    + eapply Hins; [done|reflexivity|]. exists (db ++ [b]), []. cbn [wk_jobs wk_done wk_thread].
      split_and!; [by rewrite <-app_assoc|apply Forall2_app; [done|by constructor]|done].
    + eexists _, _. split_and!; [done|reflexivity|by rewrite Et|]. by left.
  - intros E. assert (∃ k, p' = set_wake k (set_workers (<[i:=mkWorker (wk_jobs w) Receiving (wk_done w)]> (workers p)) p) ∧ 0 < k)
      as (k & -> & Hkk).
    { cbn [wake set_workers] in E. destruct (Z.ltb_spec (wake p) (2 ^ 64 - 2)); injection E as <-;
        [exists (wake p + 1)|exists (wake p)]; (split; [done|lia]). }
    split; [|split; [done|split; [cbn; lia|]]].
    + eapply Hins; [done|reflexivity|]. by exists db, mid.
    + eexists _, _. split_and!; [done|reflexivity|by rewrite Et|]. right; left. by rewrite Et.
  - done.
Qed.

Lemma collect_one_spec p L : threaded p L →
  (∃ b L' ds p', L = (next_collect p, b) :: L' ∧ collect_one p = Done (Some ds, p') ∧ done_of b ds ∧
     threaded p' L' ∧ batch p' = batch p ∧ inline_done p' = inline_done p ∧ wake p' = wake p ∧
     pl_crypto p' = pl_crypto p ∧ pl_fix_gro p' = pl_fix_gro p ∧ dropped p' = dropped p ∧
     wk_thread <$> workers p' = wk_thread <$> workers p) ∨
  (collect_one p = Done (None, p) ∧ ∀ w, workers p !! next_collect p = Some w → wk_done w = []).
Proof.
  intros Ht. unfold collect_one. destruct (threaded_worker p L _ Ht (th_collect _ _ Ht)) as (w & El & Ew).
  pose proof (th_holds _ _ Ht _ _ El) as (db & mid & Ebs & Hdb & Hmid).
  pose proof (th_flight _ _ Ht) as Hf.
  destruct L as [|[i b] L'] eqn:EL; cbn [length] in Hf.
  { right. rewrite Hf. cbn. split; [done|]. rewrite El. intros ? [= <-].
    destruct db; [by apply Forall2_nil_inv_l in Hdb|done]. }
  assert (i = next_collect p) as ->.
  { pose proof (th_robin _ _ Ht 0%nat _ eq_refl) as E. cbn in E. rewrite Nat.add_0_r in E.
    rewrite Nat.mod_small in E; [done|apply Ht]. }
  replace (0 <? in_flight_batches p)%nat with true by (symmetry; apply Nat.ltb_lt; lia).
  rewrite Ew, bind_Done. unfold try_recv. destruct (wk_done w) as [|ds dss] eqn:Ed.
  { right. split; [done|]. rewrite El. by intros ? [= <-]. }
  left. apply Forall2_cons_inv_r in Hdb as (b' & db' & Hb & Hdb & ->).
  unfold of_worker in Ebs. rewrite filter_cons_True in Ebs by done. injection Ebs as <- Ebs.
  eexists b, L', ds, _. split; [done|]. split; [reflexivity|]. split; [done|]. split.
  - destruct Ht as [Hlen Hh Hr Hc Hdi _ Hne]. constructor; cbn [workers next_collect next_dispatch
      in_flight_batches set_workers set_next_collect set_in_flight_batches]; unfold threads; cbn [workers set_workers];
      rewrite ?length_insert, ?Hlen; try done.
    + apply (holds_insert _ (of_worker L')).
      * intros j v Hj Hv. specialize (Hh j v Hv). unfold of_worker in Hh. by rewrite filter_cons_False in Hh by done.
      * exists db', mid. by split_and!.
    + intros j x Hx. specialize (Hr (S j) x Hx). rewrite Hr, Nat.Div0.add_mod_idemp_l. f_equal. lia.
    + apply Nat.mod_upper_bound. lia.
    + rewrite Hdi, Nat.Div0.add_mod_idemp_l. f_equal. cbn [length]. lia.
    + lia.
    + by apply Forall_cons in Hne as [_ Hne].
  - split_and!; try done. cbn [workers set_workers set_next_collect set_in_flight_batches].
    rewrite list_fmap_insert. apply list_insert_id. by rewrite list_lookup_fmap, El.
Qed.

(** ** Preservation *)
Lemma wake_outputs p p' m : same_rest p p' →
  (∀ i w, m ≠ Collecting → i = next_collect p → workers p !! i = Some w → wk_done w ≠ [] →
     0 < wake p ∨ ∃ i' w', workers p !! i' = Some w' ∧ wk_thread w' = Notifying) →
  ∀ i w, m ≠ Collecting → i = next_collect p' → workers p' !! i = Some w → wk_done w ≠ [] →
     0 < wake p' ∨ ∃ i' w', workers p' !! i' = Some w' ∧ wk_thread w' = Notifying.
Proof.
  intros (Ek & Ec & _ & _ & _ & Eo) H i w Hm Hi Hw Hd. rewrite Ek, Ec in *.
  assert (∀ q q' i v, outputs q' = outputs q → workers q !! i = Some v →
    ∃ v', workers q' !! i = Some v' ∧ wk_thread v' = wk_thread v ∧ wk_done v' = wk_done v) as Htr.
  { intros q q' i0 v E Hv. apply (f_equal (.!! i0)) in E. unfold outputs in E.
    rewrite !list_lookup_fmap, Hv in E. destruct (workers q' !! i0) as [v'|]; [|done].
    injection E as E1 E2. by exists v'. }
  destruct (Htr p' p i w (eq_sym Eo) Hw) as (w0 & Hw0 & _ & Ed).
  destruct (H i w0 Hm Hi Hw0 ltac:(congruence)) as [?|(i' & w' & Hi' & Hn)]; [by left|right].
  destruct (Htr p p' i' w' Eo Hi') as (v' & ? & ? & _). exists i', v'. split; [done|congruence].
Qed.

Lemma inv_flush k subs outs p m m' kept L J lost ok p' :
  inv k subs outs (p, m) kept L J lost → flush p = Done (ok, p') → m ≠ Collecting →
  (m' = m ∨ workers p ≠ []) →
  ∃ L' lost', inv 0 subs outs (p', m') kept L' J lost' ∧ (m' = m → workers p = [] → p' = p).
Proof.
  intros [[Hc Hg] Hm Hb Hk Hs Hp Hl Hw0 Hw] Ef Hmc Hm'. cbn [fst snd] in *.
  unfold pending in *. destruct (decide (n = 0%nat)) as [Hn|Hn].
  - destruct Hm as (Ew & Eo & Hd & Hfl & Eb). unfold flush in Ef. rewrite Eb in Ef. injection Ef as <- <-.
    destruct Hm' as [->|]; [|done]. exists L, lost. split; [|done].
    constructor; unfold pending; rewrite ?decide_True by done; cbn [fst snd]; try done. by rewrite Eb.
  - destruct Hm as (Ht & Hid). destruct (flush_spec p L Ht) as (ok' & q & L' & lost' & Eq & Ht' & Hsr & Ebq & HL & Hdr).
    rewrite Eq in Ef. injection Ef as <- <-. exists L', (lost ++ lost'). split.
    2:{ intros _ E. pose proof (th_len _ _ Ht). rewrite E in *. cbn in *. lia. }
    pose proof Hsr as (Ek & Ecl & Ecr & Egr & Ein & Eo).
    constructor; unfold pending; rewrite ?decide_False by done; cbn [fst snd]; try congruence; try lia.
    + split; congruence.
    + split; [done|congruence].
    + by rewrite Ebq.
    + rewrite Ebq, app_nil_r. etrans; [|apply Hs]. apply sublist_app; [done|].
      destruct HL as [[-> _]|[-> _]]; [by apply sublist_inserts_r|done].
    + rewrite Ebq, app_nil_r, <-Hp. destruct HL as [[-> ->]|[-> ->]]; [|by rewrite app_nil_r].
      apply Permutation_app_head. rewrite <-app_assoc. apply Permutation_app_head, Permutation_app_comm.
    + intros Hex. rewrite zlen_app. apply Hdr; [done|]. apply Hl.
      assert (Forall (λ o : Thread * _, o.1 ≠ Exited) (outputs q)) as Hex' by by apply Forall_fmap.
      rewrite Eo in Hex'. unfold outputs in Hex'. by rewrite Forall_fmap in Hex'.
    + intros i w _. by apply (wake_outputs p q m Hsr Hw).
Qed.

Lemma inv_mono k k' subs outs s kept L J lost : (k ≤ k')%nat →
  inv k subs outs s kept L J lost → inv k' subs outs s kept L J lost.
Proof. intros Hk []. constructor; try done. lia. Qed.

Lemma sublist_snoc {A} (l l' : list A) x : sublist l l' → sublist (l ++ [x]) (l' ++ [x]).
Proof. intros. by apply sublist_app. Qed.

Lemma inv_submit subs outs p kept L J lost j ok p' w w' :
  inv 15 subs outs (p, Outside) kept L J lost → env_ok w → submit p j w = Done ((ok, p'), w') →
  ∃ L' J' lost', inv 15 (subs ++ [j]) outs (p', Outside) kept L' J' lost'.
Proof.
  intros [[Hc Hg] Hm Hb Hk Hs Hp Hl Hw0 Hw] Hwo. cbn [fst snd] in *. unfold submit.
  unfold pending in *. destruct (decide (n = 0%nat)) as [Hn|Hn].
  - destruct Hm as (Ew & _ & Hd & Hfl & Eb). rewrite Ew, Hc, Hg.
    assert (∃ nonce w1, (match j, cr_aead cr with Encrypt _ _, Some _ => next_nonce | _, _ => mret [] end) w
              = Done (nonce, w1) ∧ (nonce_for cr nonce ∨ ∃ key wire meta, j = Decrypt key wire meta)) as (nonce & w1 & En & Hnn).
    { unfold nonce_for. destruct j, (cr_aead cr); eexists _, _; (split; [reflexivity|]); eauto.
      left. apply (eo_nonces w Hwo). }
    unfold mbind, io_bind, lift. rewrite En. destruct (process j cr gro nonce) as [d|] eqn:Ep; [|done].
    intros [= <- <- <-]. exists L, (J ++ [j]), lost.
    constructor; unfold pending; rewrite ?decide_True by done; cbn [fst snd]; try done.
    + split_and!; try done. apply Forall2_app; [done|]. constructor; [|done].
      destruct Hnn as [?|(key & wire & meta & ->)]; [by exists nonce|].
      exists (replicate 24 0). split; [|done]. unfold nonce_for.
      destruct (cr_aead cr); [|done]. split; [done|apply bytes_check; reflexivity].
    + rewrite app_assoc. by apply sublist_snoc.
    + rewrite <-Hp, <-!app_assoc. do 2 apply Permutation_app_head. apply Permutation_app_comm.
  - destruct Hm as (Ht & Hid). destruct (workers p) as [|w0 ws] eqn:Ew.
    { pose proof (th_len _ _ Ht) as E. rewrite Ew in E. cbn in E. lia. }
    assert (inv 16 (subs ++ [j]) outs (set_batch (batch p ++ [j]) p, Outside) kept L J lost) as Hi.
    { constructor; unfold pending; rewrite ?decide_False by done; cbn [fst snd workers set_batch batch wake next_collect dropped]; try done.
      - split; [|done]. by destruct Ht.
      - rewrite length_app. cbn [length]. lia.
      - rewrite !app_assoc. rewrite app_assoc in Hs. by apply sublist_snoc.
      - rewrite <-Hp, <-!app_assoc. do 3 apply Permutation_app_head. apply Permutation_app_comm.
      - by rewrite Ew.
      - rewrite Ew. exact Hw. }
    destruct (_ <=? _)%nat eqn:E16; cbn [batch set_batch] in E16.
    + unfold lift. destruct (flush _) as [[ok' q]|] eqn:Ef; [|done]. intros [= <- <- <-].
      destruct (inv_flush _ _ _ _ Outside Outside _ _ _ _ _ _ Hi Ef) as (L' & lost' & Hi' & _); [done|by left|].
      exists L', J, lost'. eapply inv_mono; [|exact Hi']. lia.
    + intros [= <- <- <-]. exists L, J, lost. destruct Hi. constructor; try done.
      cbn [fst batch set_batch]. apply Nat.leb_gt in E16. unfold BATCH_JOBS in E16. lia.
Qed.

Ltac inv_open Hi :=
  destruct Hi as [[Hc Hg] Hm Hb Hk Hs Hp Hl Hw0 Hw]; cbn [fst snd] in *; unfold pending in *.
Ltac inv_close := constructor; unfold pending; rewrite ?decide_True, ?decide_False by done; cbn [fst snd].

Lemma inv_inline subs outs p kept L J lost : inv 15 subs outs (p, Outside) kept L J lost → workers p = [] →
  inv 15 subs (outs ++ inline_done p) (set_inline_done [] p, Outside) (kept ++ J) L [] lost.
Proof.
  intros Hi E. inv_open Hi. destruct (decide (n = 0%nat)) as [Hn|Hn].
  2:{ destruct Hm as [Ht _]. pose proof (th_len _ _ Ht) as El. rewrite E in El. cbn in El. lia. }
  destruct Hm as (_ & _ & Hd & Hfl & Eb). inv_close; try done.
  - by apply Forall2_app.
  - by rewrite app_nil_r.
  - by rewrite <-app_assoc.
Qed.

Lemma inv_drain subs outs p kept L J lost : inv 15 subs outs (p, Flushed) kept L J lost →
  inv 15 subs outs (set_wake 0 p, Collecting) kept L J lost.
Proof.
  intros Hi. inv_open Hi. destruct (decide (n = 0%nat)); [by destruct Hm as (? & ? & _)|].
  destruct Hm as [Ht ?]. inv_close; try done. split; [|done]. by destruct Ht.
Qed.

Lemma inv_deliver subs outs p kept L J lost o p' :
  inv 15 subs outs (p, Collecting) kept L J lost → collect_one p = Done (o, p') →
  match o with
  | Some ds => ∃ b L', inv 15 subs (outs ++ ds) (p', Collecting) (kept ++ b) L' J lost
  | None => inv 15 subs outs (p', Outside) kept L J lost
  end.
Proof.
  intros Hi E. inv_open Hi. destruct (decide (n = 0%nat)) as [Hn|Hn]; [by destruct Hm as (_ & ? & _)|].
  destruct Hm as [Ht Hid].
  destruct (collect_one_spec p L Ht)
    as [(b & L' & ds & q & -> & Eq & Hb' & Ht' & E1 & E2 & E3 & E4 & E5 & E6 & E7)|[Eq Hemp]];
    rewrite Eq in E; injection E as <- <-.
  - change (mjoin ((next_collect p, b) :: L').*2) with (b ++ mjoin L'.*2) in *. rewrite <-!app_assoc in Hs.
    exists b, L'. inv_close; try congruence; try lia.
    + split; congruence.
    + split; [done|congruence].
    + by apply Forall2_app.
    + rewrite E1, <-app_assoc. exact Hs.
    + rewrite E1, <-Hp. by rewrite <-!app_assoc.
    + rewrite E6. intros Hex. apply Hl.
      assert (Forall (λ t, t ≠ Exited) (wk_thread <$> workers q)) as Hx by by apply Forall_fmap.
      rewrite E7 in Hx. by rewrite Forall_fmap in Hx.
  - inv_close; try done. intros i w _ -> Hw' Hd. by rewrite (Hemp _ Hw') in Hd.
Qed.

Lemma inv_worker subs outs p m kept L J lost nonces i p' :
  inv 15 subs outs (p, m) kept L J lost → (∀ k, nonce_ok (nonces k)) → worker_step nonces i p = Some p' →
  inv 15 subs outs (p', m) kept L J lost.
Proof.
  intros Hi Hn E. inv_open Hi. destruct (decide (n = 0%nat)) as [H0|H0].
  { destruct Hm as (Ew & _). unfold worker_step in E. by rewrite Ew in E. }
  destruct Hm as [Ht Hid]. destruct (worker_step_spec _ _ _ _ _ Ht Hc Hg Hn Hw0 E)
    as (Ht' & (E1 & E2 & E3 & E4 & E5 & E6 & E7 & E8) & Hk' & w & w' & Ei & Ew & Hex & Hcase).
  assert (i < length (workers p))%nat as Hil by by eapply lookup_lt_Some.
  inv_close; rewrite ?E4, ?E5, ?E6, ?E7, ?E8; try done.
  - rewrite Ew. intros Hx. apply Hl, Forall_lookup_2. intros j v Hv. destruct (decide (j = i)) as [->|Hne].
    + assert (v = w) as -> by congruence. intros Hc'.
      eapply Forall_lookup_1 in Hx; [|by apply list_lookup_insert_eq]. by apply Hx, Hex.
    + eapply Forall_lookup_1 in Hx; [exact Hx|]. by rewrite list_lookup_insert_ne.
  - intros i0 v Hmc -> Hv Hd. rewrite E1 in Hv. rewrite Ew in Hv |- *.
    destruct Hcase as [[Hn' _]|[(_ & _ & ?)|(Hnn & Hdd & Ek)]].
    + right. exists i, w'. by rewrite list_lookup_insert_eq.
    + by left.
    + assert (∃ v0, workers p !! next_collect p = Some v0 ∧ wk_done v0 ≠ []) as (v0 & Hv0 & Hd0).
      { destruct (decide (i = next_collect p)) as [Eq|]; [|rewrite list_lookup_insert_ne in Hv by done; by exists v].
        rewrite <-Eq, list_lookup_insert_eq in Hv by done. rewrite <-Eq. injection Hv as <-. exists w. split; [done|congruence]. }
      destruct (Hw _ _ Hmc eq_refl Hv0 Hd0) as [?|(i' & v' & Hi' & Hn')]; [left; lia|right].
      exists i', v'. split; [|done]. rewrite list_lookup_insert_ne; [done|]. intros <-. by simplify_eq.
Qed.

Lemma inv_step subs outs s kept L J lost js ds s' :
  inv 15 subs outs s kept L J lost → step s js ds s' →
  ∃ kept' L' J' lost', inv 15 (subs ++ js) (outs ++ ds) s' kept' L' J' lost'.
Proof.
  intros Hi. destruct 1 as [p j ok p' w w' Hw E|p ok p' E|p E|p ok p' Hne E|p|p ds p' E|p p' E|p m nonces i p' Hn E];
    rewrite ?app_nil_r.
  - destruct (inv_submit _ _ _ _ _ _ _ _ _ _ _ _ Hi Hw E) as (L' & J' & lost' & H). by exists kept, L', J', lost'.
  - destruct (inv_flush _ _ _ _ Outside Outside _ _ _ _ _ _ Hi E) as (L' & lost' & Hi' & _); [done|by left|].
    exists kept, L', J, lost'. eapply inv_mono; [|exact Hi']. lia.
  - eexists _, _, _, _. by apply inv_inline.
  - destruct (inv_flush _ _ _ _ Outside Flushed _ _ _ _ _ _ Hi E) as (L' & lost' & Hi' & _); [done|by right|].
    exists kept, L', J, lost'. eapply inv_mono; [|exact Hi']. lia.
  - eexists _, _, _, _. by apply inv_drain.
  - destruct (inv_deliver _ _ _ _ _ _ _ _ _ Hi E) as (b & L' & H). by eexists _, _, _, _.
  - exists kept, L, J, lost. apply (inv_deliver _ _ _ _ _ _ _ _ _ Hi E).
  - exists kept, L, J, lost. by eapply inv_worker.
Qed.

Lemma inv_new : inv 15 [] [] (Pipeline_new n cr gro, Outside) [] [] [] [].
Proof.
  constructor; unfold pending; cbn [fst snd Pipeline_new workers]; try done; try (destruct (decide _); done); try (cbn; lia).
  - destruct (decide (n = 0%nat)) as [->|Hn]; [by split_and!|]. split; [|done].
    constructor; cbn; try done; try lia.
    + apply length_replicate.
    + intros i w [-> _]%lookup_replicate. by exists [], [].
    + by rewrite Nat.Div0.mod_0_l.
  - by intros i w _ -> [-> _]%lookup_replicate.
Qed.

Lemma reach_inv subs outs s : reach n cr gro subs outs s → ∃ kept L J lost, inv 15 subs outs s kept L J lost.
Proof.
  induction 1 as [|subs outs s js ds s' _ (kept & L & J & lost & IH) Hs]; [eexists _, _, _, _; apply inv_new|].
  by apply (inv_step _ _ _ _ _ _ _ _ _ _ IH).
Qed.

(** ** [collect] as a sequence of steps *)
Lemma reach_threaded subs outs s : reach n cr gro subs outs s → workers s.1 ≠ [] →
  n ≠ 0%nat ∧ ∃ kept L J lost, inv 15 subs outs s kept L J lost ∧ threaded s.1 L.
Proof.
  intros Hr Hne. destruct (reach_inv _ _ _ Hr) as (kept & L & J & lost & Hi). pose proof (in_mode _ _ _ _ _ _ _ _ Hi) as Hm.
  destruct (decide (n = 0%nat)); [by destruct Hm|]. split; [done|]. exists kept, L, J, lost. split; [done|apply Hm].
Qed.

(** The results at the head of the queue are delivered. *)
Definition head_ready (p : Pipeline) : Prop :=
  ∃ w, workers p !! next_collect p = Some w ∧ wk_done w ≠ [].

Lemma collect_loop_reach fuel subs outs p : reach n cr gro subs outs (p, Collecting) → workers p ≠ [] →
  in_flight_batches p = fuel →
  ∃ ds p', collect_loop fuel p = Done (ds, p') ∧ reach n cr gro subs (outs ++ ds) (p', Outside) ∧
    (head_ready p → ds ≠ []).
Proof.
  revert outs p. induction fuel as [|fuel IH]; intros outs p Hr Hne Hf;
    destruct (reach_threaded _ _ _ Hr Hne) as (_ & kept & L & J & lost & Hi & Ht); cbn [fst] in *;
    pose proof (th_flight _ _ Ht) as Hfl;
    destruct (collect_one_spec p L Ht) as [(b & L' & ds & q & -> & Eq & Hb & Ht' & _ & _ & _ & _ & _ & _ & E7)|[Eq Hemp]];
    cbn [length] in *; try lia; cbn [collect_loop].
  - exists [], p. split; [done|]. split.
    + rewrite <-(app_nil_r subs). eapply reach_step; [exact Hr|]. by apply step_leave.
    + intros (w & Hw & Hd). by rewrite (Hemp w Hw) in Hd.
  - rewrite Eq, bind_Done.
    destruct (IH (outs ++ ds) q) as (ds' & p' & Ec & Hr' & _).
    + rewrite <-(app_nil_r subs). eapply reach_step; [exact Hr|]. by apply step_deliver.
    + intros E. rewrite E in E7. cbn in E7. by destruct (workers p).
    + pose proof (th_flight _ _ Ht'). lia.
    + exists (ds ++ ds'), p'. rewrite Ec, bind_Done. split; [done|]. rewrite app_assoc. split; [done|].
      intros _. pose proof (th_nonempty _ _ Ht) as [Hbn _]%Forall_cons. destruct Hb; [done|done].
  - rewrite Eq, bind_Done. exists [], p. split; [done|]. split.
    + rewrite <-(app_nil_r subs). eapply reach_step; [exact Hr|]. by apply step_leave.
    + intros (w & Hw & Hd). by rewrite (Hemp w Hw) in Hd.
Qed.

Lemma collect_reach subs outs p : reach n cr gro subs outs (p, Outside) →
  ∃ ds p', collect p = Done (ds, p') ∧ reach n cr gro subs (outs ++ ds) (p', Outside) ∧
    (head_ready p → ds ≠ []).
Proof.
  intros Hr. unfold collect. destruct (workers p) as [|w0 ws] eqn:Ew.
  { eexists _, _. split; [reflexivity|]. split.
    - rewrite <-(app_nil_r subs). eapply reach_step; [exact Hr|]. by apply step_inline.
    - intros (w & Hw & _). by rewrite Ew in Hw. }
  destruct (reach_threaded _ _ _ Hr) as (_ & kept & L & J & lost & Hi & Ht); [cbn; congruence|]. cbn [fst] in Ht.
  destruct (flush_spec p L Ht) as (ok & q & L' & lost' & Eq & Ht' & (_ & Enc & _ & _ & _ & Eo) & _).
  rewrite Eq, bind_Done. cbn [snd].
  assert (reach n cr gro subs outs (set_wake 0 q, Collecting)) as Hr'.
  { rewrite <-(app_nil_r subs), <-(app_nil_r outs), <-(app_nil_r (subs ++ [])), <-(app_nil_r (outs ++ [])).
    eapply reach_step; [eapply reach_step; [exact Hr|]|apply step_drain]. apply (step_collect p ok q); [congruence|done]. }
  destruct (collect_loop_reach (in_flight_batches (set_wake 0 q)) _ _ _ Hr') as (ds & p' & Ec & Hr2 & Hh); [|reflexivity|].
  - cbn. intros E. pose proof (th_len _ _ Ht') as E1. pose proof (th_collect _ _ Ht') as E2. rewrite E in E1. cbn in E1. lia.
  - exists ds, p'. split; [done|]. split; [done|]. intros (w & Hw & Hd). apply Hh. unfold head_ready. cbn.
    rewrite Enc. apply (f_equal (.!! next_collect p)) in Eo. unfold outputs in Eo.
    rewrite !list_lookup_fmap, Hw in Eo. destruct (workers q !! next_collect p) as [w'|]; [|done].
    exists w'. split; [done|]. cbn in Eo. congruence.
Qed.
End invariant.

(** * Progress *)

(** Steps the workers can still take on the jobs they hold. *)
Definition load (w : Worker) : nat :=
  (3 * length (wk_jobs w) + match wk_thread w with Sending _ => 2 | Notifying => 1 | _ => 0 end)%nat.
Definition work (p : Pipeline) : nat := sum_list_with load (workers p).

Lemma sum_list_with_insert {A} (f : A → nat) l i x y : l !! i = Some x →
  (sum_list_with f (<[i := y]> l) + f x = sum_list_with f l + f y)%nat.
Proof.
  revert i. induction l as [|z l IH]; intros [|i] H; try done.
  - injection H as ->. change (f y + sum_list_with f l + f x = f x + sum_list_with f l + f y)%nat. lia.
  - specialize (IH i H).
    change (f z + sum_list_with f (<[i:=y]> l) + f x = f z + sum_list_with f l + f y)%nat. lia.
Qed.

Lemma work_decreases `{P : Prims} nonces i p p' : worker_step nonces i p = Some p' → (work p' < work p)%nat.
Proof.
  unfold worker_step, work. destruct (workers p !! i) as [w|] eqn:Ei; [|done].
  change (Some w ≫= ?f) with (f w). cbv beta.
  assert (∀ w', (load w' < load w)%nat → (sum_list_with load (<[i := w']> (workers p)) < sum_list_with load (workers p))%nat)
    as Hd by (intros w' Hl; pose proof (sum_list_with_insert load (workers p) i w w' Ei); lia).
  destruct (wk_thread w) eqn:Et; [| | |done].
  - destruct (wk_jobs w) eqn:Ej; [done|]. destruct (process_batch _ _ _ _); intros [= <-]; apply Hd;
      unfold load; rewrite Et, Ej; cbn [wk_jobs wk_thread length]; lia.
  - destruct (_ <? _)%nat; [|done]. intros [= <-]. apply Hd. unfold load. rewrite Et. cbn. lia.
  - assert (load (mkWorker (wk_jobs w) Receiving (wk_done w)) < load w)%nat as Hl
      by (unfold load; rewrite Et; cbn; lia).
    destruct (_ <? _); intros [= <-]; by apply Hd.
Qed.

(** Jobs the I/O thread submits: byte strings, a plaintext with its header, a snapshot of
    fields of their widths. *)
Definition meta_ok (m : RecvMeta) : Prop := is_u 32 (rm_ts m) ∧ is_u 16 (rm_icmp_seq m).
Definition job_ok (j : Job) : Prop :=
  match j with
  | Encrypt _ plain => bytes plain ∧ 14 ≤ zlen plain
  | Decrypt _ wire meta => bytes wire ∧ meta_ok meta
  end.
(** Results the I/O thread handles. *)
Definition done_ok (d : Completion) : Prop :=
  match d with
  | Encrypted _ (Some w) => bytes w ∧ zlen w < 5000
  | Encrypted _ None => True
  | Decrypted _ _ meta => meta_ok meta
  end.

Section progress.
Context `{P : Prims} {HP : PrimsOk P}.
Context (cr : Crypto) (cm : CipherMode) (am : AuthMode) (legacy : bool) (keys : Keys).
Context (He : engine cr cm am legacy keys).

Lemma process_total j gro nonce : job_ok j → nonce_for cr nonce → ∃ d, process j cr gro nonce = Done d.
Proof using He HP.
  destruct j as [key plain|key wire meta]; cbn [process job_ok].
  - intros [Hb Hl] Hn. destruct (encrypt_safer_total cr cm am legacy keys He nonce plain gro Hn Hb Hl) as (r & -> & _).
    by eexists.
  - intros [Hb _] _. destruct (decrypt_safer_total cr cm am legacy keys He wire gro Hb) as (r & ->). by eexists.
Qed.
Lemma process_batch_total b gro nonces : Forall job_ok b → (∀ k, nonce_ok (nonces k)) →
  ∃ ds, process_batch b cr gro nonces = Done ds.
Proof using He HP.
  intros Hb. revert nonces. induction Hb as [|j b Hj _ IH]; intros nonces Hn; [by eexists|].
  cbn [process_batch]. destruct (process_total j gro (nonces 0%nat) Hj) as (d & ->).
  { unfold nonce_for. by destruct (cr_aead cr). }
  destruct (IH (nonces ∘ S)) as (ds & E); [intros k; apply Hn|]. rewrite bind_Done, E. by eexists.
Qed.

Lemma alive_insert p i w w' : alive p → workers p !! i = Some w → wk_thread w' = wk_thread w →
  Forall (λ w, wk_thread w ≠ Exited) (<[i := w']> (workers p)).
Proof.
  intros Ha Hi E. apply Forall_insert; [exact Ha|]. rewrite E. exact (Forall_lookup_1 _ _ _ _ Ha Hi).
Qed.
Lemma worker_inv p i w : worker p i = Done w → workers p !! i = Some w.
Proof. unfold worker. destruct (workers p !! i); [congruence|discriminate]. Qed.
Lemma alive_flush p ok p' : flush p = Done (ok, p') → alive p → alive p'.
Proof.
  unfold flush. intros E Ha. destruct (batch p), (workers p) as [|w0 ws]; try (injection E as _ <-; exact Ha).
  apply bind_inv in E as (w & Hw & E). apply worker_inv in Hw. cbn in Hw. unfold try_send in E.
  destruct (wk_thread w) eqn:Et; try (destruct (_ <? _)%nat); injection E as _ <-; try exact Ha;
    (apply (alive_insert p _ w); [exact Ha|exact Hw|by rewrite Et]).
Qed.
Lemma alive_collect p o p' : collect_one p = Done (o, p') → alive p → alive p'.
Proof.
  unfold collect_one, try_recv. intros E Ha. destruct (_ <? _)%nat; [|injection E as _ <-; exact Ha].
  apply bind_inv in E as (w & Hw & E). apply worker_inv in Hw.
  destruct (wk_done w); injection E as _ <-; [exact Ha|]. by apply (alive_insert p _ w).
Qed.

(** The jobs a worker waits to process were submitted. *)
Lemma held_submitted n gro subs outs s i w b : reach n cr gro subs outs s → Forall job_ok subs →
  workers s.1 !! i = Some w → b ∈ wk_jobs w → Forall job_ok b.
Proof using cr P.
  clear cm am legacy keys He HP. intros Hr Hj Hi Hb. destruct (reach_threaded n cr gro _ _ _ Hr) as (Hn & kept & L & J & lost & Hinv & Ht).
  { intros E. by rewrite E in Hi. }
  pose proof (in_sub _ _ _ _ _ _ _ _ _ _ _ Hinv) as Hs. unfold pending in Hs. rewrite decide_False in Hs by done.
  destruct (th_holds _ _ _ _ _ Ht i w Hi) as (db & mid & E & _).
  assert (b ∈ of_worker L i) as Hbi by (rewrite E; set_solver).
  unfold of_worker in Hbi. apply list_elem_of_fmap in Hbi as ([i' b'] & -> & [_ Hin]%list_elem_of_filter).
  apply Forall_forall. intros j Hjb. eapply Forall_forall in Hj; [exact Hj|].
  eapply elem_of_sublist; [|exact Hs]. rewrite !elem_of_app. right; left.
  apply list_elem_of_join. exists b'. split; [done|]. by apply (list_elem_of_fmap_2 snd _ (i', b')).
Qed.

Lemma alive_worker n gro subs outs p m nonces i p' : reach n cr gro subs outs (p, m) → Forall job_ok subs →
  (∀ k, nonce_ok (nonces k)) → alive p → worker_step nonces i p = Some p' → alive p'.
Proof using He HP.
  intros Hr Hj Hn Ha E. destruct (reach_inv n cr gro _ _ _ Hr) as (? & ? & ? & ? & Hi).
  destruct (in_crypto _ _ _ _ _ _ _ _ _ _ _ Hi) as [Hc Hg]. cbn [fst] in *.
  unfold worker_step in E. rewrite Hc, Hg in E.
  destruct (workers p !! i) as [w|] eqn:Ei; [|discriminate]. change (Some w ≫= ?f) with (f w) in E. cbv beta in E.
  assert (∀ w', wk_thread w' ≠ Exited → Forall (λ w, wk_thread w ≠ Exited) (<[i := w']> (workers p))) as Hins
    by (intros; by apply Forall_insert).
  unfold alive. destruct (wk_thread w) eqn:Et; [| | |discriminate].
  - destruct (wk_jobs w) as [|b bs] eqn:Ejb; [discriminate|].
    destruct (process_batch_total b gro nonces) as (ds & Ed); [|done|].
    { eapply (held_submitted n gro _ _ _ i w b Hr Hj Ei). rewrite Ejb. set_solver. }
    rewrite Ed in E. injection E as <-. by apply Hins.
  - destruct (_ <? _)%nat; [|discriminate]. injection E as <-. by apply Hins.
  - destruct (_ <? _); injection E as <-; by apply Hins.
Qed.

Lemma reach_alive n gro subs outs s : reach n cr gro subs outs s → Forall job_ok subs → alive s.1.
Proof using He HP.
  induction 1 as [|subs outs s js ds s' Hr IH Hs]; intros Hj.
  { cbn. apply Forall_replicate. discriminate. }
  apply Forall_app in Hj as [Hj _]. specialize (IH Hj).
  destruct Hs as [p j ok p' w w' Hw E|p ok p' E|p E|p ok p' Hne E|p|p ds p' E|p p' E|p m nonces i p' Hn E];
    cbn [fst] in *; try exact IH; try (by eapply alive_flush); try (by eapply alive_collect).
  - unfold submit in E. destruct (workers p) as [|w0 ws] eqn:Ew.
    + apply io_bind_inv in E as (nonce & w1 & _ & E). apply io_bind_inv in E as (d & w2 & _ & E).
      injection E as _ <- _. exact IH.
    + destruct (_ <=? _)%nat; [|injection E as _ <- _; exact IH].
      unfold lift in E. destruct (flush _) as [[ok' q]|] eqn:Ef; [|discriminate]. injection E as _ <- _.
      by apply (alive_flush _ _ _ Ef).
  - by eapply alive_worker.
Qed.

(** ** The operations, for a caller that submits such jobs *)
Lemma runs_submit n gro subs outs p j w (Q : bool * Pipeline → World → Prop) :
  env_ok w → reach n cr gro subs outs (p, Outside) → job_ok j →
  (∀ ok p' w', reach n cr gro (subs ++ [j]) outs (p', Outside) → later w w' → env_ok w' →
     w_trace w' = w_trace w → Q (ok, p') w') →
  runs (submit p j) w Q.
Proof using He HP.
  intros Hw Hr Hj HQ.
  assert (∀ ok p' w', submit p j w = Done ((ok, p'), w') → later w w' → env_ok w' → w_trace w' = w_trace w →
    Q (ok, p') w') as Hend.
  { intros ok p' w' E Hl Hw' Ht. apply HQ; try done. rewrite <-(app_nil_r outs).
    eapply reach_step; [exact Hr|]. exact (step_submit p j ok p' w w' Hw E). }
  cut (runs (submit p j) w (λ r w', submit p j w = Done (r, w') ∧ later w w' ∧ env_ok w' ∧ w_trace w' = w_trace w)).
  { intros ([ok p'] & w' & E & _ & Hl & Hw' & Ht). exists (ok, p'), w'. split; [exact E|]. by apply Hend. }
  clear Hend HQ Q. destruct (reach_inv n cr gro _ _ _ Hr) as (kept & L & J & lost & Hi).
  destruct (in_crypto _ _ _ _ _ _ _ _ _ _ _ Hi) as [Hc Hg]. cbn [fst] in *.
  assert (∀ m : Io (bool * Pipeline), submit p j = m → runs m w (λ _ w', later w w' ∧ env_ok w' ∧ w_trace w' = w_trace w) →
    runs (submit p j) w (λ r w', submit p j w = Done (r, w') ∧ later w w' ∧ env_ok w' ∧ w_trace w' = w_trace w)) as Hm.
  { intros m <- (r & w' & E & ?). by exists r, w'. }
  eapply Hm; [reflexivity|]. unfold submit. destruct (workers p) as [|w0 ws] eqn:Ew.
  - rewrite Hc, Hg. apply runs_bind.
    assert (∀ nonce w1, nonce_for cr nonce ∨ (∃ key wire meta, j = Decrypt key wire meta) →
      later w w1 → env_ok w1 → w_trace w1 = w_trace w →
      runs (d ← lift (process j cr gro nonce); mret (true, set_inline_done (inline_done p ++ [d]) p)) w1
        (λ _ w', later w w' ∧ env_ok w' ∧ w_trace w' = w_trace w)) as Hk.
    { intros nonce w1 Hn ? ? ?. assert (∃ d, process j cr gro nonce = Done d) as [d Ed].
      { destruct Hn as [Hn|(key & wire & meta & ->)]; [by apply process_total|].
        destruct Hj as [Hb _]. cbn [process].
        destruct (decrypt_safer_total cr cm am legacy keys He wire gro Hb) as (r & ->). by eexists. }
      apply runs_bind. eapply runs_lift; [exact Ed|]. by apply runs_ret. }
    destruct j as [key plain|key wire meta]; [destruct (cr_aead cr) eqn:Ea|].
    + apply runs_next_nonce; [done|]. intros nonce w1 H1 H2 ? ? ?. apply Hk; try done. left.
      unfold nonce_for. by rewrite Ea.
    + apply runs_ret, Hk; [|reflexivity|done|done]. left. unfold nonce_for. by rewrite Ea.
    + apply runs_ret, Hk; [|reflexivity|done|done]. right. by eexists _, _, _.
  - destruct (_ <=? _)%nat; [|apply runs_ret; split; [reflexivity|done]].
    destruct (reach_threaded n cr gro _ _ _ Hr) as (_ & ? & L' & ? & ? & _ & Ht); [cbn; congruence|]. cbn [fst] in Ht.
    destruct (flush_spec n cr gro (set_batch (batch p ++ [j]) p) L') as (ok & q & ? & ? & Ef & _); [by destruct Ht|].
    eapply runs_lift; [exact Ef|]. split; [reflexivity|done].
Qed.

(** What a step of a worker leaves to the I/O thread. *)
Lemma worker_step_io nonces i p p' : worker_step nonces i p = Some p' →
  in_flight_batches p' = in_flight_batches p ∧ length (workers p') = length (workers p).
Proof.
  unfold worker_step. destruct (workers p !! i) as [w|]; [|done]. change (Some w ≫= ?f) with (f w). cbv beta zeta.
  destruct (wk_thread w); [destruct (wk_jobs w); [done|]; destruct (process_batch _ _ _ _)|destruct (_ <? _)%nat; [|done]|destruct (_ <? _)|done];
    intros [= <-]; cbn; by rewrite length_insert.
Qed.
Lemma worker_turn_io nonces i p p' : worker_turn nonces i p = Done p' →
  in_flight_batches p' = in_flight_batches p ∧ length (workers p') = length (workers p).
Proof.
  unfold worker_turn. destruct (worker_step nonces i p) as [q|] eqn:E; [|by intros [= <-]]. case_bool_decide; [|done]. intros [= <-]. by apply (worker_step_io nonces i).
Qed.
(** No worker panics. *)
Lemma turn_reach n gro subs outs p m nonces i : reach n cr gro subs outs (p, m) → Forall job_ok subs → (∀ k, nonce_ok (nonces k)) →
  ∃ p', worker_turn nonces i p = Done p' ∧ reach n cr gro subs outs (p', m).
Proof using He HP.
  intros Hr Hj Hn. unfold worker_turn. destruct (worker_step nonces i p) as [q|] eqn:Eq; [|by exists p].
  assert (reach n cr gro subs outs (q, m)) as Hq.
  { rewrite <-(app_nil_r subs), <-(app_nil_r outs). eapply reach_step; [exact Hr|]. by eapply step_worker. }
  exists q. by rewrite bool_decide_true by exact (reach_alive n gro _ _ _ Hq Hj).
Qed.
Definition goes_on n gro subs outs (m : IoMode) (p : Pipeline) (w : World) (p' : Pipeline) (w' : World) : Prop :=
  reach n cr gro subs outs (p', m) ∧ in_flight_batches p' = in_flight_batches p ∧ length (workers p') = length (workers p) ∧
  later w w' ∧ env_ok w' ∧ w_trace w' = w_trace w.
Lemma runs_workers n gro subs outs m : Forall job_ok subs → ∀ ids p w, env_ok w → reach n cr gro subs outs (p, m) →
  runs (workers_run ids p) w (goes_on n gro subs outs m p w).
Proof using He HP.
  intros Hj. induction ids as [|i ids IH]; intros p w Hw Hr; cbn [workers_run]; [by apply runs_ret|].
  apply runs_bind, runs_next_nonces; [done|]. intros nonces w1 Hn Hl1 Ht1 Hw1. apply runs_bind.
  destruct (turn_reach n gro subs outs p m nonces i Hr Hj Hn) as (p' & E & Hr'). destruct (worker_turn_io nonces i p p' E) as [E1 E2].
  eapply runs_lift; [exact E|]. eapply runs_mono; [by apply IH|]. intros p2 w2 (R & F & L & Hl2 & Hw2 & Ht2).
  split_and!; [done|congruence|congruence|by transitivity w1|done|congruence].
Qed.
Lemma runs_meanwhile n gro subs outs m p w : Forall job_ok subs → env_ok w → reach n cr gro subs outs (p, m) →
  runs (meanwhile p) w (goes_on n gro subs outs m p w).
Proof using He HP.
  intros Hj Hw Hr. apply runs_bind, runs_next_sched; [done|]. intros ids w1 Hl1 Ht1 Hw1.
  eapply runs_mono; [by apply (runs_workers n gro subs outs m)|]. intros p2 w2 (R & F & L & Hl2 & Hw2 & Ht2). split_and!; [done..|by transitivity w1|done|congruence].
Qed.
Lemma runs_submit_among n gro subs outs p j w (Q : bool * Pipeline → World → Prop) :
  env_ok w → reach n cr gro subs outs (p, Outside) → Forall job_ok subs → job_ok j →
  (∀ ok p' w', reach n cr gro (subs ++ [j]) outs (p', Outside) → later w w' → env_ok w' →
     w_trace w' = w_trace w → Q (ok, p') w') →
  runs (submit_among p j) w Q.
Proof using He HP.
  intros Hw Hr Hs Hj HQ. apply runs_bind. eapply runs_mono; [by apply (runs_meanwhile n gro subs outs Outside)|]. intros p1 w1 (R1 & _ & _ & Hl1 & Hw1 & Ht1).
  apply (runs_submit n gro subs outs); [done|done|done|]. intros ok p2 w2 R2 Hl2 Hw2 Ht2. apply HQ; [done|by transitivity w1|done|congruence].
Qed.
Definition collected n gro subs outs (w : World) (r : list Completion * Pipeline) (w' : World) : Prop :=
  reach n cr gro subs (outs ++ r.1) (r.2, Outside) ∧ later w w' ∧ env_ok w' ∧ w_trace w' = w_trace w.
Lemma runs_collect_loop n gro subs : Forall job_ok subs → ∀ fuel outs p w, env_ok w → reach n cr gro subs outs (p, Collecting) → workers p ≠ [] →
  in_flight_batches p = fuel → runs (collect_loop_among fuel p) w (collected n gro subs outs w).
Proof using He HP.
  intros Hj. induction fuel as [|fuel IH]; intros outs p w Hw Hr Hne Hf; cbn [collect_loop_among].
  { apply runs_ret. split; [|done]. rewrite app_nil_r. rewrite <-(app_nil_r subs), <-(app_nil_r outs). eapply reach_step; [exact Hr|]. apply step_leave.
    unfold collect_one. by rewrite Hf. }
  apply runs_bind. eapply runs_mono; [by apply (runs_meanwhile n gro subs outs Collecting)|]. intros p1 w1 (R1 & F1 & L1 & Hl1 & Hw1 & Ht1).
  assert (workers p1 ≠ []) as Hne1 by (intros E; rewrite E in L1; by destruct (workers p)).
  destruct (reach_threaded n cr gro _ _ _ R1 Hne1) as (_ & kept & L & J & lost & Hi & Ht). cbn [fst] in *. apply runs_bind.
  destruct (collect_one_spec n cr gro p1 L Ht) as [(b & L' & ds & q & -> & Eq & Hb & Ht' & _ & _ & _ & _ & _ & _ & E7)|[Eq _]]; (eapply runs_lift; [exact Eq|]); cbn iota.
  - apply runs_bind. eapply runs_mono; [apply (IH (outs ++ ds) q); [done| | |]|].
    + rewrite <-(app_nil_r subs). eapply reach_step; [exact R1|]. by apply step_deliver.
    + intros E. rewrite E in E7. cbn in E7. by destruct (workers p1).
    + pose proof (th_flight _ _ _ _ _ Ht) as E1. pose proof (th_flight _ _ _ _ _ Ht') as E2. cbn [length] in E1. lia.
    + intros [ds' p'] w2 (R2 & Hl2 & Hw2 & Ht2). apply runs_ret. unfold collected. cbn [fst snd] in *. split_and!; [by rewrite app_assoc|by transitivity w1|done|congruence].
  - apply runs_ret. split_and!; [|done|done|done]. cbn [fst snd]. rewrite app_nil_r. rewrite <-(app_nil_r subs), <-(app_nil_r outs).
    eapply reach_step; [exact R1|]. by apply step_leave.
Qed.
Lemma runs_collect_among n gro subs outs p w : Forall job_ok subs → env_ok w → reach n cr gro subs outs (p, Outside) →
  runs (collect_among p) w (collected n gro subs outs w).
Proof using He HP.
  intros Hj Hw Hr. apply runs_bind. eapply runs_mono; [by apply (runs_meanwhile n gro subs outs Outside)|]. intros p1 w1 (R1 & _ & _ & Hl1 & Hw1 & Ht1).
  destruct (workers p1) as [|w0 ws] eqn:Ew.
  { apply runs_ret. split_and!; try done. cbn [fst snd]. rewrite <-(app_nil_r subs). eapply reach_step; [exact R1|]. by apply step_inline. }
  destruct (reach_threaded n cr gro _ _ _ R1) as (_ & kept & L & J & lost & Hi & Ht); [cbn; congruence|]. cbn [fst] in Ht.
  destruct (flush_spec n cr gro p1 L Ht) as (ok & q & L' & lost' & Eq & Ht' & _). apply runs_bind. eapply runs_lift; [exact Eq|]. cbn [snd].
  assert (reach n cr gro subs outs (q, Flushed)) as R2.
  { rewrite <-(app_nil_r subs), <-(app_nil_r outs). eapply reach_step; [exact R1|]. apply (step_collect p1 ok q); [congruence|done]. }
  assert (workers q ≠ []) as Hnq.
  { intros E. pose proof (th_len _ _ _ _ _ Ht') as E1. pose proof (th_collect _ _ _ _ _ Ht') as E2. rewrite E in E1. cbn in E1. lia. }
  apply runs_bind. eapply runs_mono; [by apply (runs_meanwhile n gro subs outs Flushed)|]. intros p3 w3 (R3 & _ & L3 & Hl3 & Hw3 & Ht3). cbv zeta.
  eapply runs_mono; [apply (runs_collect_loop n gro subs Hj (in_flight_batches (set_wake 0 p3)) outs); [done| | |reflexivity]|].
  - rewrite <-(app_nil_r subs), <-(app_nil_r outs). eapply reach_step; [exact R3|]. apply step_drain.
  - cbn. intros E. rewrite E in L3. by destruct (workers q).
  - intros r w4 (R4 & Hl4 & Hw4 & Ht4). split_and!; [done|by transitivity w1; [|transitivity w3]|done|congruence].
Qed.

Lemma processed_ok gro j d : job_ok j → processed cr gro j d → done_ok d.
Proof using He HP.
  intros Hj (nonce & Hn & E). destruct j as [key plain|key wire meta]; cbn [process job_ok] in *.
  - destruct Hj as [Hb Hl]. apply bind_inv in E as (r & Er & [= <-]).
    destruct (encrypt_safer_total cr cm am legacy keys He nonce plain gro Hn Hb Hl) as (r' & Er' & Hr').
    rewrite Er in Er'. injection Er' as <-. destruct r as [w|]; [|exact I]. by apply Hr'.
  - apply bind_inv in E as (r & Er & [= <-]). apply Hj.
Qed.
Lemma delivered_ok n gro subs outs s : reach n cr gro subs outs s → Forall job_ok subs → Forall done_ok outs.
Proof using He HP.
  intros Hr Hj. destruct (reach_inv n cr gro _ _ _ Hr) as (kept & L & J & lost & Hi).
  pose proof (in_kept _ _ _ _ _ _ _ _ _ _ _ Hi) as Hk. pose proof (in_sub _ _ _ _ _ _ _ _ _ _ _ Hi) as Hs.
  assert (Forall job_ok kept) as Hjk.
  { apply Forall_forall. intros j Hin. eapply Forall_forall in Hj; [exact Hj|].
    eapply elem_of_sublist; [|exact Hs]. apply elem_of_app. by left. }
  clear Hi Hs Hr. induction Hk as [|j d kept' outs' Hp _ IH]; [constructor|].
  apply Forall_cons in Hjk as [Hj0 Hjk]. constructor; [by eapply processed_ok|]. by apply IH.
Qed.

(** No worker can take a step: each is blocked on one of its channels. *)
Definition quiescent (p : Pipeline) : Prop := ∀ nonces i, worker_step nonces i p = None.

Lemma quiescent_head n gro p L : threaded n cr gro p L → alive p → quiescent p → L ≠ [] → head_ready p.
Proof.
  intros Ht Ha Hq HL. destruct (threaded_worker n cr gro p L _ Ht (th_collect _ _ _ _ _ Ht)) as (w & Hw & _).
  exists w. split; [exact Hw|]. intros Ed. destruct L as [|[i b] L]; [done|].
  assert (i = next_collect p) as ->.
  { pose proof (th_robin _ _ _ _ _ Ht 0%nat _ eq_refl) as E. cbn in E. rewrite Nat.add_0_r in E.
    rewrite Nat.mod_small in E; [exact E|apply (th_collect _ _ _ _ _ Ht)]. }
  destruct (th_holds _ _ _ _ _ Ht _ _ Hw) as (db & mid & E & Hdb & Hm). rewrite Ed in Hdb.
  apply Forall2_nil_inv_r in Hdb as ->. unfold of_worker in E. rewrite filter_cons_True in E by reflexivity.
  specialize (Hq (λ _, []) (next_collect p)). unfold worker_step in Hq. rewrite Hw in Hq.
  change (Some w ≫= ?f) with (f w) in Hq. cbv beta in Hq. rewrite Ed in Hq.
  destruct (wk_thread w) eqn:Et; try discriminate.
  - subst mid. cbn in E. destruct (wk_jobs w); [discriminate|]. by destruct (process_batch _ _ _ _).
  - exact (Forall_lookup_1 _ _ _ _ Ha Hw Et).
Qed.
End progress.

(** * Theorems *)

(** C11. Ordered delivery, for every interleaving of the I/O thread and the worker threads: what
    [collect] has delivered is the result, job for job and in submission order, of a
    subsequence of the submitted jobs; the jobs neither delivered nor still pending are
    exactly the ones counted in [dropped]; nothing is pending when [in_flight] is 0; and
    [collect] never aborts and is itself a sequence of these steps. *)
Theorem pipeline_in_order `{P : Prims} (n : nat) (cr : Crypto) (gro : bool) (subs : list Job)
    (outs : list Completion) (p : Pipeline) (m : IoMode) (Hr : reach n cr gro subs outs (p, m)) :
  (∃ kept pend lost,
    Forall2 (processed cr gro) kept outs ∧ sublist (kept ++ pend) subs ∧ kept ++ pend ++ lost ≡ₚ subs ∧
    (in_flight p = 0%nat → inline_done p = [] → pend = []) ∧
    (alive p → dropped p = wrap 64 (zlen lost))) ∧
  (length (batch p) < BATCH_JOBS)%nat ∧
  (m = Outside → ∃ ds p', collect p = Done (ds, p') ∧ reach n cr gro subs (outs ++ ds) (p', Outside)).
Proof.
  destruct (reach_inv n cr gro _ _ _ Hr) as (kept & L & J & lost & [_ Hm Hb Hk Hs Hp Hl _ _]). cbn [fst snd] in *.
  split; [|split].
  - exists kept, (pending n p L J), lost. split_and!; try done. unfold in_flight, pending.
    destruct (decide (n = 0%nat)).
    + destruct Hm as (_ & _ & Hd & _). intros _ E. rewrite E in Hd. by apply Forall2_nil_inv_r in Hd.
    + destruct Hm as [Ht _]. rewrite (th_flight _ _ _ _ _ Ht). destruct (batch p); [|lia].
      destruct L; [done|cbn; lia].
  - unfold BATCH_JOBS. lia.
  - intros ->. destruct (collect_reach n cr gro _ _ _ Hr) as (ds & p' & E & Hr' & _). by exists ds, p'.
Qed.

(** C24. Progress, for every interleaving, when the jobs are the byte strings the I/O thread
    submits: the workers can only take a bounded number of steps on the jobs they hold;
    and once none can take a step while batches are in flight, the eventfd is readable (no
    wake-up was lost while the I/O thread was collecting) and the next [collect] delivers
    results. *)
Theorem pipeline_live `{P : Prims} {HP : PrimsOk P} (n : nat) (cr : Crypto) (cm : CipherMode)
    (am : AuthMode) (legacy : bool) (keys : Keys) (gro : bool) (subs : list Job)
    (outs : list Completion) (p : Pipeline)
    (He : engine cr cm am legacy keys) (Hr : reach n cr gro subs outs (p, Outside))
    (Hj : Forall job_ok subs) :
  (∀ nonces i p', worker_step nonces i p = Some p' → (work p' < work p)%nat) ∧
  (quiescent p → (0 < in_flight_batches p)%nat →
     0 < wake p ∧ ∃ ds p', collect p = Done (ds, p') ∧ ds ≠ []).
Proof.
  split; [intros; by eapply work_decreases|]. intros Hq Hf.
  pose proof (reach_alive cr cm am legacy keys He n gro _ _ _ Hr Hj) as Ha. cbn [fst] in Ha.
  destruct (reach_inv n cr gro _ _ _ Hr) as (kept & L & J & lost & Hi).
  pose proof (in_mode _ _ _ _ _ _ _ _ _ _ _ Hi) as Hm. cbn [fst snd] in Hm.
  destruct (decide (n = 0%nat)); [destruct Hm as (_ & _ & _ & E & _); lia|]. destruct Hm as [Ht _].
  assert (head_ready p) as Hh.
  { apply (quiescent_head cr n gro p L Ht Ha Hq). intros ->. rewrite (th_flight _ _ _ _ _ Ht) in Hf. cbn in Hf. lia. }
  split.
  - destruct Hh as (w & Hw & Hd).
    destruct (in_wake _ _ _ _ _ _ _ _ _ _ _ Hi _ w ltac:(discriminate) eq_refl Hw Hd) as [?|(i' & w' & Hi' & Hn)]; [done|].
    specialize (Hq (λ _, []) i'). unfold worker_step in Hq. cbn [fst] in Hi'. rewrite Hi' in Hq.
    change (Some w' ≫= ?f) with (f w') in Hq. cbv beta in Hq. by rewrite Hn in Hq.
  - destruct (collect_reach n cr gro _ _ _ Hr) as (ds & p' & E & _ & Hne). exists ds, p'. split; [exact E|by apply Hne].
Qed.

(** * Concrete instances *)
Definition demo_job : Job := Decrypt (mkJobKey 0 1) (replicate 40 255) (from_recv demo_info).
Lemma demo_job_ok : job_ok demo_job.
Proof. split; [apply bytes_check; reflexivity|]. split; split; vm_compute; congruence. Qed.

(** One worker; a job submitted, flushed, processed, its results sent and notified. *)
Lemma demo_reach :
  ∃ cr ds, engine (P := demo_prims) cr Xor AuthNone false demo_keys ∧
    reach (P := demo_prims) 1 cr true [demo_job] []
      (mkPipeline [mkWorker [] Receiving [ds]] 1 0 0 1 [] [] cr true 0, Outside).
Proof.
  destruct (Crypto_with_backend_ok (P := demo_prims) true Xor AuthNone false demo_keys Auto (proj1 demo_keys_ok))
    as (cr & _ & He).
  assert (∀ k : nat, nonce_ok ((λ _, replicate 24 0) k)) as Hn
    by (intros k; split; [reflexivity|apply bytes_check; reflexivity]).
  destruct (process_batch_total (P := demo_prims) cr Xor AuthNone false demo_keys He [demo_job] true
    (λ _, replicate 24 0)) as (ds & Ed); [|exact Hn|].
  { constructor; [exact demo_job_ok|constructor]. }
  exists cr, ds. split; [exact He|].
  assert (∀ s s', reach (P := demo_prims) 1 cr true [demo_job] [] s → step (P := demo_prims) s [] [] s' →
    reach (P := demo_prims) 1 cr true [demo_job] [] s') as Hnext
    by (intros s s' Hr Hs; exact (reach_step 1 cr true _ _ _ _ _ _ Hr Hs)).
  assert (∀ p p', reach (P := demo_prims) 1 cr true [demo_job] [] (p, Outside) →
    worker_step (P := demo_prims) (λ _, replicate 24 0) 0 p = Some p' →
    reach (P := demo_prims) 1 cr true [demo_job] [] (p', Outside)) as Hwork
    by (intros p p' Hr Hs; eapply Hnext; [exact Hr|]; by eapply (step_worker (P := demo_prims) p Outside)).
  assert (reach (P := demo_prims) 1 cr true [demo_job] []
    (mkPipeline [Worker_new] 0 0 0 0 [demo_job] [] cr true 0, Outside)) as H1.
  { apply (reach_step (P := demo_prims) 1 cr true [] [] (Pipeline_new 1 cr true, Outside) [demo_job] []); [apply reach_new|].
    by apply (step_submit (P := demo_prims) _ demo_job true _ demo_world demo_world demo_world_ok). }
  assert (reach (P := demo_prims) 1 cr true [demo_job] []
    (mkPipeline [mkWorker [[demo_job]] Receiving []] 0 0 0 1 [] [] cr true 0, Outside)) as H2.
  { apply (Hnext _ _ H1). by apply (step_flush (P := demo_prims) _ true). }
  assert (worker_step (P := demo_prims) (λ _, replicate 24 0) 0
    (mkPipeline [mkWorker [[demo_job]] Receiving []] 0 0 0 1 [] [] cr true 0)
    = Some (mkPipeline [mkWorker [] (Sending ds) []] 0 0 0 1 [] [] cr true 0)) as E3.
  { change (match process_batch (P := demo_prims) [demo_job] cr true (λ _, replicate 24 0) with
      | Done dones => Some (mkPipeline [mkWorker [] (Sending dones) []] 0 0 0 1 [] [] cr true 0)
      | Panic => Some (mkPipeline [mkWorker [] Exited []] 0 0 0 1 [] [] cr true 0)
      end = Some (mkPipeline [mkWorker [] (Sending ds) []] 0 0 0 1 [] [] cr true 0)).
    rewrite Ed. reflexivity. }
  pose proof (Hwork _ _ H2 E3) as H3. 
  assert (reach (P := demo_prims) 1 cr true [demo_job] []
    (mkPipeline [mkWorker [] Notifying [ds]] 0 0 0 1 [] [] cr true 0, Outside)) as H4 by by apply (Hwork _ _ H3).
  by apply (Hwork _ _ H4).
Qed.

Lemma pipeline_in_order_witness :
  ∃ cr ds p', reach (P := demo_prims) 1 cr true [demo_job] ds (p', Outside).
Proof.
  destruct demo_reach as (cr & ds & He & Hr).
  destruct (pipeline_in_order (P := demo_prims) 1 cr true _ _ _ _ Hr) as (_ & _ & Hc).
  destruct (Hc eq_refl) as (ds' & p' & _ & Hr'). exists cr, ds', p'. exact Hr'.
Defined.

Lemma pipeline_live_witness :
  ∃ cr ds p ds' p', reach (P := demo_prims) 1 cr true [demo_job] [] (p, Outside) ∧
    p = mkPipeline [mkWorker [] Receiving [ds]] 1 0 0 1 [] [] cr true 0 ∧
    0 < wake p ∧ collect p = Done (ds', p') ∧ ds' ≠ [].
Proof.
  destruct demo_reach as (cr & ds & He & Hr).
  destruct (pipeline_live (P := demo_prims) 1 cr Xor AuthNone false demo_keys true _ _ _ He Hr) as [_ Hlive].
  - constructor; [exact demo_job_ok|constructor].
  - destruct Hlive as (Hw & ds' & p' & Ec & Hne).
    + intros nonces [|i]; reflexivity.
    + cbn. lia.
    + eexists cr, ds, _, ds', p'. split; [exact Hr|]. split; [reflexivity|]. exact (conj Hw (conj Ec Hne)).
Defined.
