(* ===== verification/Session.v ===== *)
(** What the event loops of both roles have in common: received datagrams, clock readings, the
    reachable states of the pipeline, and parsers that return on every input. *)
From S2P Require Import Prelude Util Fips197 Prims Kdf Auth Cipher Crypto Wire AntiReplay.
From S2P Require Import Ip Tcp Conv Types World Config FakeTcp Conn Pipeline.

(** A datagram in a receive buffer. *)
Record RawRx := mkRawRx { rx_buf : list Z; rx_len : Z; rx_addr : SockaddrLl }.

(** * Times *)
(** Times are readings of the clock that are not in the future. *)
Definition past (w : World) (t : Z) : Prop := 0 ≤ t ≤ time w.
Lemma past_later w w' t : env_ok w → later w w' → past w t → past w' t.
Proof. intros Hw Hl [H0 H1]. pose proof (later_time _ _ Hw Hl). split; lia. Qed.
Lemma past_elapsed w now t : env_ok w → past w t → now = time w → now -⟨64⟩ t = now - t.
Proof.
  intros Hw [H0 H1] ->. apply wrap_small. pose proof (eo_clock_64 w Hw (w_clock_pos w)) as H.
  unfold is_u, time in *. lia.
Qed.

Lemma elapsed now t : is_u 64 now → 0 ≤ t ≤ now → now -⟨64⟩ t = now - t.
Proof. intros Hn Ht. apply wrap_small. unfold is_u in *. lia. Qed.


(** * Parsers *)
Lemma heartbeat_byte : is_byte TYPE_HEARTBEAT.
Proof. done. Qed.

Lemma ctx_conf_ok a b : ctx_conf a = ctx_conf b → ctx_ok b → ctx_ok a.
Proof. intros E%(f_equal rc_ttl) Hb. unfold ctx_ok. change (rc_ttl a = rc_ttl b) in E. by rewrite E. Qed.
Lemma parse_handshake_total d : ∃ r, parse_handshake d = Done r.
Proof.
  unfold parse_handshake, HANDSHAKE_LEN, read_u32_be. destruct (zlen d <? 12) eqn:E; [by eexists|].
  rewrite !slice_from_Done by lia. rewrite !bind_Done.
  do 3 (rewrite slice_Done by (rewrite ?length_drop; lia); rewrite ?bind_Done). by eexists.
Qed.

Lemma parse_data_total d : ∃ r, parse_data_payload d = Done r.
Proof.
  unfold parse_data_payload, read_u32_be. destruct (zlen d <? 4) eqn:E; [by eexists|].
  rewrite slice_Done, bind_Done, bind_Done, slice_from_Done by lia. by eexists.
Qed.

(** The transport parser survives the packet: it is not a TCP segment whose data offset is
    below the minimum. *)
Definition survives (ctx0 : RawCtx) (buf : list Z) : Prop := ¬ ∃ seg, tcp_candidate ctx0 buf seg ∧ short_doff seg.

Lemma parse_recv_conf a b raw buf ll : ctx_conf a = ctx_conf b → parse_recv a raw buf ll = parse_recv b raw buf ll.
Proof.
  intros E. unfold parse_recv, recv_rst, want_icmp.
  pose proof (f_equal rc_is_v6 E) as E1. pose proof (f_equal rc_lower_level E) as E2.
  pose proof (f_equal rc_bind_addr E) as E3. pose proof (f_equal rc_raw_mode E) as E4.
  pose proof (f_equal rc_filter_port E) as E5. pose proof (f_equal rc_is_client E) as E6.
  pose proof (f_equal rc_max_rst_allowed E) as E7. cbn in E1, E2, E3, E4, E5, E6, E7.
  by rewrite E1, E2, E3, E4, E5, E6, E7.
Qed.

Lemma parse_recv_returns ctx raw buf ll : bytes buf → survives ctx buf → raw_ok raw →
  ∃ o raw', parse_recv ctx raw buf ll = Done (o, raw') ∧ raw_ok raw' ∧ (∀ data, o = Some data → bytes data).
Proof.
  intros Hb Hsv Hr. destruct (parse_recv ctx raw buf ll) as [[o raw']|] eqn:E.
  - exists o, raw'. split; [done|]. destruct (parse_recv_ok _ _ _ _ _ _ Hb Hr E) as (? & _ & Hd).
    split; [done|]. intros data ->. by apply (Hd data).
  - exfalso. by apply Hsv, (parse_recv_panic ctx raw buf ll).
Qed.

(** What the kernel delivers: bytes within the receive buffer, that the parser survives. *)
Definition rx_ok (ctx0 : RawCtx) (p : RawRx) : Prop :=
  bytes (rx_buf p) ∧ 0 ≤ rx_len p ≤ zlen (rx_buf p) ∧ survives ctx0 (take (Z.to_nat (rx_len p)) (rx_buf p)) ∧
  (rx_len p = HUGE_DATA_LEN + 1 → survives ctx0 (take (Z.to_nat HUGE_DATA_LEN) (rx_buf p))).

(** * Accepted packets *)
Lemma accept_roller info plain hb_mode w (Q : option (Z * Z) * ConnInfo → World → Prop) :
  env_ok w → is_byte (my_roller info) →
  (∀ o info' w', conn_core info' = conn_core info → is_byte (my_roller info') → later w w' → env_ok w' →
     (∀ ptype off, o = Some (ptype, off) → off = SAFER_HEADER_LEN ∧ SAFER_HEADER_LEN ≤ zlen plain) → Q (o, info') w') →
  runs (accept_safer_offset info plain hb_mode) w Q.
Proof.
  intros Hw Hm HQ.
  assert (runs (accept_safer_offset info plain hb_mode) w (λ r w', (conn_core r.2 = conn_core info ∧ later w w' ∧ env_ok w' ∧
    ∀ ptype off, r.1 = Some (ptype, off) → off = SAFER_HEADER_LEN ∧ SAFER_HEADER_LEN ≤ zlen plain) ∧ is_byte (my_roller r.2)))
    as ([o info'] & w' & E & (H1 & H2 & H3 & H4) & H5).
  2:{ exists (o, info'), w'. split; [exact E|]. by apply HQ. }
  destruct (runs_accept_offset info plain hb_mode w (λ r w', conn_core r.2 = conn_core info ∧ later w w' ∧ env_ok w' ∧
    ∀ ptype off, r.1 = Some (ptype, off) → off = SAFER_HEADER_LEN ∧ SAFER_HEADER_LEN ≤ zlen plain) Hw)
    as ([o info'] & w' & E & Hp).
  { intros o info' w' Hc Hl Hw' _ _ Ho _ _. by split_and!. }
  exists (o, info'), w'. split; [exact E|]. split; [exact Hp|]. cbn [snd]. clear Hp HQ Q.
  unfold accept_safer_offset in E. apply io_bind_inv in E as (ids & w1 & _ & E). destruct ids as [ids|]; [|by injection E as _ <- _].
  destruct (_ || _); [by injection E as _ <- _|]. destruct (is_valid _ _) as [valid ar].
  destruct (negb valid); [by injection E as _ <- _|]. apply io_bind_inv in E as (body & w2 & _ & E).
  destruct body as [[[ptype roller] d]|]; [|by injection E as _ <- _].
  apply io_bind_inv in E as (info1 & w3 & E1 & E). injection E as _ <- _.
  assert (my_roller info1 = my_roller info) as Em.
  { destruct (negb _); [apply io_bind_inv in E1 as (t & w4 & _ & E1)|]; by injection E1 as <- _. }
  destruct (_ || _); cbn; [apply wrap_range; lia|by rewrite Em].
Qed.

(** * The pipeline *)
Section pipeline.
Context `{P : Prims} {HP : PrimsOk P}.
Context (cr : Crypto) (n : nat) (gro : bool).
Definition pipe_ok (p : Pipeline) : Prop :=
  ∃ subs outs, reach n cr gro subs outs (p, Outside) ∧ Forall job_ok subs.

End pipeline.
