(* ===== verification/Silence.v ===== *)
(** Computations that touch neither the firewall nor the routes: everything the event loop
    does besides the operations of [src/src/iptables.rs] and [src/src/net/route.rs]. *)
From S2P Require Import Prelude Util Fips197 Prims Kdf Auth Cipher Crypto Wire AntiReplay.
From S2P Require Import Text Ip Tcp Conv Types World Config Route Iptables Kernel FakeTcp Conn Pipeline LowerLevel Endpoint.

Definition hushed {A} (m : Io A) : Prop :=
  ∀ w a w', m w = Done (a, w') → ∃ tr, w_trace w' = w_trace w ++ tr ∧ Forall silent tr.

Lemma hushed_trace {A} (m : Io A) : (∀ w a w', m w = Done (a, w') → w_trace w' = w_trace w) → hushed m.
Proof. intros H w a w' E%H. exists []. by rewrite app_nil_r. Qed.
Lemma hushed_ret {A} (a : A) : hushed (mret a).
Proof. apply hushed_trace. by intros w b w' [= _ <-]. Qed.
Lemma hushed_lift {A} (o : outcome A) : hushed (lift o).
Proof. apply hushed_trace. intros w b w'. unfold lift. by destruct o; intros [= _ <-]. Qed.
Lemma hushed_panic {A} : hushed (panic (A := A)).
Proof. done. Qed.
Lemma hushed_bind {A B} (m : Io A) (f : A → Io B) : hushed m → (∀ a, hushed (f a)) → hushed (m ≫= f).
Proof.
  intros Hm Hf w b w' (a & w1 & E1 & E2)%io_bind_inv. apply Hm in E1 as (t1 & E1 & H1). apply Hf in E2 as (t2 & E2 & H2).
  exists (t1 ++ t2). split; [by rewrite E2, E1, app_assoc|by apply Forall_app_2].
Qed.
Lemma hushed_emit e : silent e → hushed (emit e).
Proof. intros He w a w' [= _ <-]. exists [e]. split; [done|by constructor]. Qed.
Create HintDb hush.
#[export] Hint Resolve hushed_ret hushed_lift hushed_panic : hush.
Ltac hush_step :=
  match goal with
  | |- hushed (_ ≫= _) => apply hushed_bind; [|intros ?]
  | |- hushed (if ?b then _ else _) => destruct b
  | |- hushed (match ?x with _ => _ end) => destruct x
  | |- hushed (let _ := _ in _) => cbv zeta
  | |- hushed _ => solve [auto with hush nocore]
  end.
Ltac hush := repeat hush_step.

Ltac hush_read := apply hushed_trace; intros w a w'; intros [= _ <-]; done.
Lemma hushed_now : hushed now_ms.
Proof. hush_read. Qed.
Lemma hushed_bytes n : hushed (secure_random_bytes n).
Proof. hush_read. Qed.
Lemma hushed_send n : hushed (next_send n).
Proof. hush_read. Qed.
Lemma hushed_net : hushed next_net.
Proof. hush_read. Qed.
Lemma hushed_single : hushed single_syscalls.
Proof. hush_read. Qed.
Lemma hushed_nonce : hushed next_nonce.
Proof. hush_read. Qed.
Lemma hushed_fast : hushed fast_random_u32.
Proof. apply hushed_trace. intros w a w'. unfold fast_random_u32. destruct (Xoshiro_next_u32 _). by intros [= _ <-]. Qed.
Lemma hushed_sched : hushed next_sched.
Proof. hush_read. Qed.
Lemma hushed_nonces n : hushed (next_nonces n).
Proof. hush_read. Qed.
#[export] Hint Resolve hushed_sched hushed_nonces hushed_now hushed_bytes hushed_send hushed_net hushed_single hushed_nonce hushed_fast : hush.
Lemma hushed_u32 : hushed secure_random_u32.
Proof. unfold secure_random_u32. hush. Qed.
Lemma hushed_u64 : hushed secure_random_u64.
Proof. unfold secure_random_u64. hush. Qed.
#[export] Hint Resolve hushed_u32 hushed_u64 : hush.
Lemma hushed_nz_loop n : hushed (random_nz_loop n).
Proof. induction n; cbn [random_nz_loop]; hush. Qed.
Lemma hushed_nz : hushed secure_random_u32_nz.
Proof. apply hushed_nz_loop. Qed.
#[export] Hint Resolve hushed_nz : hush.

(** * Sending *)
Lemma hushed_emit_tx pkts : hushed (emit_all (EvTx <$> pkts)).
Proof. induction pkts as [|p pkts IH]; cbn [emit_all fmap list_fmap]; hush. by apply hushed_emit. Qed.
#[export] Hint Resolve hushed_emit_tx : hush.
Lemma hushed_retry fuel asked : hushed (send_retry fuel asked).
Proof. induction fuel; cbn [send_retry]; hush. Qed.
#[export] Hint Resolve hushed_retry : hush.
Lemma hushed_loop fuel chunk done acc : hushed (sendmmsg_loop fuel chunk done acc).
Proof. revert done acc. induction fuel; intros; cbn [sendmmsg_loop]; hush. Qed.
#[export] Hint Resolve hushed_loop : hush.
Lemma hushed_chunks cs acc : hushed (send_chunks cs acc).
Proof. revert acc. induction cs; intros; cbn [send_chunks]; hush. Qed.
Lemma hushed_singles pkts acc : hushed (send_single pkts acc).
Proof. revert acc. induction pkts; intros; cbn [send_single]; hush. by apply hushed_emit. Qed.
#[export] Hint Resolve hushed_chunks hushed_singles : hush.
Lemma hushed_batch pkts : hushed (send_batch pkts).
Proof. unfold send_batch. hush. Qed.
#[export] Hint Resolve hushed_batch : hush.
Lemma hushed_flush ctx : hushed (flush_tx ctx).
Proof. unfold flush_tx. hush. Qed.
#[export] Hint Resolve hushed_flush : hush.
Lemma hushed_segment ctx s payload : hushed (build_segment ctx s payload).
Proof. unfold build_segment. hush. Qed.
#[export] Hint Resolve hushed_segment : hush.
Lemma hushed_send_raw ctx raw payload : hushed (send_raw ctx raw payload).
Proof. unfold send_raw. hush. Qed.
#[export] Hint Resolve hushed_send_raw : hush.
Lemma hushed_after_send ctx raw : hushed (after_send ctx raw).
Proof. unfold after_send. hush. Qed.
#[export] Hint Resolve hushed_after_send : hush.
Lemma hushed_transmit ctx raw wire : hushed (transmit_safer ctx raw wire).
Proof. unfold transmit_safer. hush. Qed.
Lemma hushed_accept info plain hb_mode : hushed (accept_safer_offset info plain hb_mode).
Proof. unfold accept_safer_offset. hush. Qed.
#[export] Hint Resolve hushed_transmit hushed_accept : hush.
Section prims.
Context `{P : Prims}.
Lemma hushed_encrypt cr plain : hushed (crypto_encrypt cr plain).
Proof. unfold crypto_encrypt. hush. Qed.
Hint Resolve hushed_encrypt : hush.
Lemma hushed_handshake ctx cr raw id1 id2 id3 : hushed (send_handshake ctx cr raw id1 id2 id3).
Proof. unfold send_handshake, send_bare. hush. Qed.
Lemma hushed_submit p j : hushed (submit p j).
Proof. unfold submit. hush. Qed.
Lemma hushed_workers ids p : hushed (workers_run ids p).
Proof. revert p. induction ids; intros p; cbn [workers_run]; hush. Qed.
Hint Resolve hushed_submit hushed_workers : hush.
Lemma hushed_meanwhile p : hushed (meanwhile p).
Proof. unfold meanwhile. hush. Qed.
Hint Resolve hushed_meanwhile : hush.
Lemma hushed_submit_among p j : hushed (submit_among p j).
Proof. unfold submit_among. hush. Qed.
Lemma hushed_collect_loop fuel p : hushed (collect_loop_among fuel p).
Proof. revert p. induction fuel; intros p; cbn [collect_loop_among]; hush. Qed.
Hint Resolve hushed_collect_loop : hush.
Lemma hushed_collect_among p : hushed (collect_among p).
Proof. unfold collect_among. hush. Qed.
End prims.
#[export] Hint Resolve hushed_encrypt hushed_handshake hushed_submit hushed_submit_among hushed_collect_among : hush.

(** * Interfaces and sockets *)
Lemma hushed_index name : hushed (if_nametoindex name).
Proof. unfold if_nametoindex. hush. Qed.
Lemma hushed_arp name : hushed (interface_has_arp name).
Proof. unfold interface_has_arp. hush. Qed.
Lemma hushed_device dev : hushed (bind_to_device dev).
Proof. unfold bind_to_device. hush. Qed.
#[export] Hint Resolve hushed_index hushed_arp hushed_device : hush.
Lemma hushed_lower_level ip : hushed (find_lower_level_info ip).
Proof. unfold find_lower_level_info. hush. Qed.
Lemma hushed_src remote dev : hushed (get_src_addr_dev remote dev).
Proof. unfold get_src_addr_dev. hush. Qed.
Lemma hushed_reserve n : hushed (reserve_loop n).
Proof. induction n; cbn [reserve_loop]; hush. Qed.
Lemma hushed_port old : hushed (bind_new_random_port old).
Proof. unfold bind_new_random_port. hush; [by apply hushed_emit|apply hushed_reserve]. Qed.
#[export] Hint Resolve hushed_lower_level hushed_src hushed_port : hush.
