(* ===== verification/Client.v ===== *)
(** The client: [src/src/client.rs].

    One record for the event loop's state and one definition per method, composed as the
    source composes them; the loop's body is [client_round].  What is read from the poller,
    the sockets and the FIFO is the round's input; [BufPool] and log lines have no effect and do
    not appear, nor do the calls whose result the source ignores ([set_nonblocking], [connect]). *)
From stdpp Require Import strings.
From S2P Require Import Prelude Util Fips197 Prims Kdf Auth Cipher Crypto Wire AntiReplay Text.
From S2P Require Import Ip Tcp Conv Types World Config Route Iptables LowerLevel Resources EndpointState Endpoint.
From S2P Require Import FakeTcp Conn Pipeline Session.

Definition TOK_RAW : nat := 0.
Definition TOK_UDP : nat := 1.
Definition TOK_PIPE : nat := 2.
Definition TOK_FIFO : nat := 3.
Definition DRAIN_BUDGET : Z := 64.
Definition RX_BATCH : Z := 32.
Definition ROUTE_METRIC_COLLISION_PROBES : nat := 16.
Definition FINAL_CLEANUP_RETRIES : nat := 3.
Definition KERNEL_RESOURCE_RETRY_MS : Z := 5000.

Inductive State := Idle | TcpHandshake | TcpHandshakeDummy | Handshake1 | Handshake2 | Ready.
#[export] Instance State_eq_dec : EqDecision State.
Proof. solve_decision. Defined.

Definition raw_disabled_cycle_reason (state : State) : CycleReason :=
  if bool_decide (state = Ready) then SessionLost else AttemptFailed.

Record Underlay := mkUnderlay {
  ud_dev : list Z; ud_ifindex : Z; ud_gateway : option (list Z); ud_prefsrc : option (list Z) }.
(** [None] is the error. *)
Definition Underlay_detect (dev : list Z) (gateway : option (list Z)) (remote : SocketAddr) : Io (option Underlay) :=
  i ← if_nametoindex dev;
  match i with
  | None => mret None
  | Some i =>
      let ifindex := wrap 32 i in
      match remote.1 with
      | V6 _ => mret (Some (mkUnderlay dev ifindex gateway None))
      | V4 v4 =>
          r ← get_route v4 (Some ifindex);
          learned ← match r with
                    | Some r => mret (Some r)
                    | None =>
                        r ← get_route v4 None;
                        mret (r ← r; if bool_decide (rt_oif r = Some ifindex) then Some r else None)
                    end;
          mret (Some (match learned with
                      | Some r => mkUnderlay dev ifindex (match gateway with Some g => Some g | None => rt_gateway r end) (rt_prefsrc r)
                      | None => mkUnderlay dev ifindex gateway None
                      end))
      end
  end.

Record Installed := mkInstalled {
  in_addr : SocketAddr;
  in_route_metric : Z;
  in_rule_pattern : option (list Z);
  in_resources : EndpointResources }.
Definition set_in_addr (v : SocketAddr) (r : Installed) : Installed :=
  mkInstalled v (in_route_metric r) (in_rule_pattern r) (in_resources r).
Definition set_in_route_metric (v : Z) (r : Installed) : Installed :=
  mkInstalled (in_addr r) v (in_rule_pattern r) (in_resources r).
Definition set_in_rule_pattern (v : option (list Z)) (r : Installed) : Installed :=
  mkInstalled (in_addr r) (in_route_metric r) v (in_resources r).
Definition set_in_resources (v : EndpointResources) (r : Installed) : Installed :=
  mkInstalled (in_addr r) (in_route_metric r) (in_rule_pattern r) v.

Record Client := mkClient {
  cl_cfg : Config;
  cl_crypto : Crypto;
  cl_ctx : RawCtx;
  cl_pipeline : Pipeline;
  cl_info : ConnInfo;
  cl_state : State;
  cl_convs : ConvManager SocketAddr;
  cl_bind_fd : option Z;
  cl_const_id : Z;
  cl_fail_time_counter : Z;
  cl_generation : Z;
  cl_udp_tx : list TxPacket;
  cl_hb_buf : list Z;
  cl_remote : SocketAddr;
  cl_endpoint : EndpointController;
  cl_ipt : option Iptables;
  cl_underlay : option Underlay;
  cl_installed : list Installed;
  cl_selected : bool;
  cl_ll_ready : bool;
  cl_setup_not_before : Z;
  cl_last_kernel_retry : Z;
  cl_cycle_reason : CycleReason;
  cl_exit : bool;
  cl_udp_pending : bool;
  cl_raw_pending : bool }.
Definition set_cl_cfg (v : Config) (r : Client) : Client :=
  mkClient v (cl_crypto r) (cl_ctx r) (cl_pipeline r) (cl_info r) (cl_state r) (cl_convs r)
    (cl_bind_fd r) (cl_const_id r) (cl_fail_time_counter r) (cl_generation r) (cl_udp_tx r)
    (cl_hb_buf r) (cl_remote r) (cl_endpoint r) (cl_ipt r) (cl_underlay r) (cl_installed r)
    (cl_selected r) (cl_ll_ready r) (cl_setup_not_before r) (cl_last_kernel_retry r)
    (cl_cycle_reason r) (cl_exit r) (cl_udp_pending r) (cl_raw_pending r).
Definition set_cl_crypto (v : Crypto) (r : Client) : Client :=
  mkClient (cl_cfg r) v (cl_ctx r) (cl_pipeline r) (cl_info r) (cl_state r) (cl_convs r)
    (cl_bind_fd r) (cl_const_id r) (cl_fail_time_counter r) (cl_generation r) (cl_udp_tx r)
    (cl_hb_buf r) (cl_remote r) (cl_endpoint r) (cl_ipt r) (cl_underlay r) (cl_installed r)
    (cl_selected r) (cl_ll_ready r) (cl_setup_not_before r) (cl_last_kernel_retry r)
    (cl_cycle_reason r) (cl_exit r) (cl_udp_pending r) (cl_raw_pending r).
Definition set_cl_ctx (v : RawCtx) (r : Client) : Client :=
  mkClient (cl_cfg r) (cl_crypto r) v (cl_pipeline r) (cl_info r) (cl_state r) (cl_convs r)
    (cl_bind_fd r) (cl_const_id r) (cl_fail_time_counter r) (cl_generation r) (cl_udp_tx r)
    (cl_hb_buf r) (cl_remote r) (cl_endpoint r) (cl_ipt r) (cl_underlay r) (cl_installed r)
    (cl_selected r) (cl_ll_ready r) (cl_setup_not_before r) (cl_last_kernel_retry r)
    (cl_cycle_reason r) (cl_exit r) (cl_udp_pending r) (cl_raw_pending r).
Definition set_cl_pipeline (v : Pipeline) (r : Client) : Client :=
  mkClient (cl_cfg r) (cl_crypto r) (cl_ctx r) v (cl_info r) (cl_state r) (cl_convs r)
    (cl_bind_fd r) (cl_const_id r) (cl_fail_time_counter r) (cl_generation r) (cl_udp_tx r)
    (cl_hb_buf r) (cl_remote r) (cl_endpoint r) (cl_ipt r) (cl_underlay r) (cl_installed r)
    (cl_selected r) (cl_ll_ready r) (cl_setup_not_before r) (cl_last_kernel_retry r)
    (cl_cycle_reason r) (cl_exit r) (cl_udp_pending r) (cl_raw_pending r).
Definition set_cl_info (v : ConnInfo) (r : Client) : Client :=
  mkClient (cl_cfg r) (cl_crypto r) (cl_ctx r) (cl_pipeline r) v (cl_state r) (cl_convs r)
    (cl_bind_fd r) (cl_const_id r) (cl_fail_time_counter r) (cl_generation r) (cl_udp_tx r)
    (cl_hb_buf r) (cl_remote r) (cl_endpoint r) (cl_ipt r) (cl_underlay r) (cl_installed r)
    (cl_selected r) (cl_ll_ready r) (cl_setup_not_before r) (cl_last_kernel_retry r)
    (cl_cycle_reason r) (cl_exit r) (cl_udp_pending r) (cl_raw_pending r).
Definition set_cl_state (v : State) (r : Client) : Client :=
  mkClient (cl_cfg r) (cl_crypto r) (cl_ctx r) (cl_pipeline r) (cl_info r) v (cl_convs r)
    (cl_bind_fd r) (cl_const_id r) (cl_fail_time_counter r) (cl_generation r) (cl_udp_tx r)
    (cl_hb_buf r) (cl_remote r) (cl_endpoint r) (cl_ipt r) (cl_underlay r) (cl_installed r)
    (cl_selected r) (cl_ll_ready r) (cl_setup_not_before r) (cl_last_kernel_retry r)
    (cl_cycle_reason r) (cl_exit r) (cl_udp_pending r) (cl_raw_pending r).
Definition set_cl_convs (v : ConvManager SocketAddr) (r : Client) : Client :=
  mkClient (cl_cfg r) (cl_crypto r) (cl_ctx r) (cl_pipeline r) (cl_info r) (cl_state r) v
    (cl_bind_fd r) (cl_const_id r) (cl_fail_time_counter r) (cl_generation r) (cl_udp_tx r)
    (cl_hb_buf r) (cl_remote r) (cl_endpoint r) (cl_ipt r) (cl_underlay r) (cl_installed r)
    (cl_selected r) (cl_ll_ready r) (cl_setup_not_before r) (cl_last_kernel_retry r)
    (cl_cycle_reason r) (cl_exit r) (cl_udp_pending r) (cl_raw_pending r).
Definition set_cl_bind_fd (v : option Z) (r : Client) : Client :=
  mkClient (cl_cfg r) (cl_crypto r) (cl_ctx r) (cl_pipeline r) (cl_info r) (cl_state r)
    (cl_convs r) v (cl_const_id r) (cl_fail_time_counter r) (cl_generation r) (cl_udp_tx r)
    (cl_hb_buf r) (cl_remote r) (cl_endpoint r) (cl_ipt r) (cl_underlay r) (cl_installed r)
    (cl_selected r) (cl_ll_ready r) (cl_setup_not_before r) (cl_last_kernel_retry r)
    (cl_cycle_reason r) (cl_exit r) (cl_udp_pending r) (cl_raw_pending r).
Definition set_cl_const_id (v : Z) (r : Client) : Client :=
  mkClient (cl_cfg r) (cl_crypto r) (cl_ctx r) (cl_pipeline r) (cl_info r) (cl_state r)
    (cl_convs r) (cl_bind_fd r) v (cl_fail_time_counter r) (cl_generation r) (cl_udp_tx r)
    (cl_hb_buf r) (cl_remote r) (cl_endpoint r) (cl_ipt r) (cl_underlay r) (cl_installed r)
    (cl_selected r) (cl_ll_ready r) (cl_setup_not_before r) (cl_last_kernel_retry r)
    (cl_cycle_reason r) (cl_exit r) (cl_udp_pending r) (cl_raw_pending r).
Definition set_cl_fail_time_counter (v : Z) (r : Client) : Client :=
  mkClient (cl_cfg r) (cl_crypto r) (cl_ctx r) (cl_pipeline r) (cl_info r) (cl_state r)
    (cl_convs r) (cl_bind_fd r) (cl_const_id r) v (cl_generation r) (cl_udp_tx r) (cl_hb_buf r)
    (cl_remote r) (cl_endpoint r) (cl_ipt r) (cl_underlay r) (cl_installed r) (cl_selected r)
    (cl_ll_ready r) (cl_setup_not_before r) (cl_last_kernel_retry r) (cl_cycle_reason r)
    (cl_exit r) (cl_udp_pending r) (cl_raw_pending r).
Definition set_cl_generation (v : Z) (r : Client) : Client :=
  mkClient (cl_cfg r) (cl_crypto r) (cl_ctx r) (cl_pipeline r) (cl_info r) (cl_state r)
    (cl_convs r) (cl_bind_fd r) (cl_const_id r) (cl_fail_time_counter r) v (cl_udp_tx r)
    (cl_hb_buf r) (cl_remote r) (cl_endpoint r) (cl_ipt r) (cl_underlay r) (cl_installed r)
    (cl_selected r) (cl_ll_ready r) (cl_setup_not_before r) (cl_last_kernel_retry r)
    (cl_cycle_reason r) (cl_exit r) (cl_udp_pending r) (cl_raw_pending r).
Definition set_cl_udp_tx (v : list TxPacket) (r : Client) : Client :=
  mkClient (cl_cfg r) (cl_crypto r) (cl_ctx r) (cl_pipeline r) (cl_info r) (cl_state r)
    (cl_convs r) (cl_bind_fd r) (cl_const_id r) (cl_fail_time_counter r) (cl_generation r) v
    (cl_hb_buf r) (cl_remote r) (cl_endpoint r) (cl_ipt r) (cl_underlay r) (cl_installed r)
    (cl_selected r) (cl_ll_ready r) (cl_setup_not_before r) (cl_last_kernel_retry r)
    (cl_cycle_reason r) (cl_exit r) (cl_udp_pending r) (cl_raw_pending r).
Definition set_cl_hb_buf (v : list Z) (r : Client) : Client :=
  mkClient (cl_cfg r) (cl_crypto r) (cl_ctx r) (cl_pipeline r) (cl_info r) (cl_state r)
    (cl_convs r) (cl_bind_fd r) (cl_const_id r) (cl_fail_time_counter r) (cl_generation r)
    (cl_udp_tx r) v (cl_remote r) (cl_endpoint r) (cl_ipt r) (cl_underlay r) (cl_installed r)
    (cl_selected r) (cl_ll_ready r) (cl_setup_not_before r) (cl_last_kernel_retry r)
    (cl_cycle_reason r) (cl_exit r) (cl_udp_pending r) (cl_raw_pending r).
Definition set_cl_remote (v : SocketAddr) (r : Client) : Client :=
  mkClient (cl_cfg r) (cl_crypto r) (cl_ctx r) (cl_pipeline r) (cl_info r) (cl_state r)
    (cl_convs r) (cl_bind_fd r) (cl_const_id r) (cl_fail_time_counter r) (cl_generation r)
    (cl_udp_tx r) (cl_hb_buf r) v (cl_endpoint r) (cl_ipt r) (cl_underlay r) (cl_installed r)
    (cl_selected r) (cl_ll_ready r) (cl_setup_not_before r) (cl_last_kernel_retry r)
    (cl_cycle_reason r) (cl_exit r) (cl_udp_pending r) (cl_raw_pending r).
Definition set_cl_endpoint (v : EndpointController) (r : Client) : Client :=
  mkClient (cl_cfg r) (cl_crypto r) (cl_ctx r) (cl_pipeline r) (cl_info r) (cl_state r)
    (cl_convs r) (cl_bind_fd r) (cl_const_id r) (cl_fail_time_counter r) (cl_generation r)
    (cl_udp_tx r) (cl_hb_buf r) (cl_remote r) v (cl_ipt r) (cl_underlay r) (cl_installed r)
    (cl_selected r) (cl_ll_ready r) (cl_setup_not_before r) (cl_last_kernel_retry r)
    (cl_cycle_reason r) (cl_exit r) (cl_udp_pending r) (cl_raw_pending r).
Definition set_cl_ipt (v : option Iptables) (r : Client) : Client :=
  mkClient (cl_cfg r) (cl_crypto r) (cl_ctx r) (cl_pipeline r) (cl_info r) (cl_state r)
    (cl_convs r) (cl_bind_fd r) (cl_const_id r) (cl_fail_time_counter r) (cl_generation r)
    (cl_udp_tx r) (cl_hb_buf r) (cl_remote r) (cl_endpoint r) v (cl_underlay r)
    (cl_installed r) (cl_selected r) (cl_ll_ready r) (cl_setup_not_before r)
    (cl_last_kernel_retry r) (cl_cycle_reason r) (cl_exit r) (cl_udp_pending r)
    (cl_raw_pending r).
Definition set_cl_underlay (v : option Underlay) (r : Client) : Client :=
  mkClient (cl_cfg r) (cl_crypto r) (cl_ctx r) (cl_pipeline r) (cl_info r) (cl_state r)
    (cl_convs r) (cl_bind_fd r) (cl_const_id r) (cl_fail_time_counter r) (cl_generation r)
    (cl_udp_tx r) (cl_hb_buf r) (cl_remote r) (cl_endpoint r) (cl_ipt r) v (cl_installed r)
    (cl_selected r) (cl_ll_ready r) (cl_setup_not_before r) (cl_last_kernel_retry r)
    (cl_cycle_reason r) (cl_exit r) (cl_udp_pending r) (cl_raw_pending r).
Definition set_cl_installed (v : list Installed) (r : Client) : Client :=
  mkClient (cl_cfg r) (cl_crypto r) (cl_ctx r) (cl_pipeline r) (cl_info r) (cl_state r)
    (cl_convs r) (cl_bind_fd r) (cl_const_id r) (cl_fail_time_counter r) (cl_generation r)
    (cl_udp_tx r) (cl_hb_buf r) (cl_remote r) (cl_endpoint r) (cl_ipt r) (cl_underlay r) v
    (cl_selected r) (cl_ll_ready r) (cl_setup_not_before r) (cl_last_kernel_retry r)
    (cl_cycle_reason r) (cl_exit r) (cl_udp_pending r) (cl_raw_pending r).
Definition set_cl_selected (v : bool) (r : Client) : Client :=
  mkClient (cl_cfg r) (cl_crypto r) (cl_ctx r) (cl_pipeline r) (cl_info r) (cl_state r)
    (cl_convs r) (cl_bind_fd r) (cl_const_id r) (cl_fail_time_counter r) (cl_generation r)
    (cl_udp_tx r) (cl_hb_buf r) (cl_remote r) (cl_endpoint r) (cl_ipt r) (cl_underlay r)
    (cl_installed r) v (cl_ll_ready r) (cl_setup_not_before r) (cl_last_kernel_retry r)
    (cl_cycle_reason r) (cl_exit r) (cl_udp_pending r) (cl_raw_pending r).
Definition set_cl_ll_ready (v : bool) (r : Client) : Client :=
  mkClient (cl_cfg r) (cl_crypto r) (cl_ctx r) (cl_pipeline r) (cl_info r) (cl_state r)
    (cl_convs r) (cl_bind_fd r) (cl_const_id r) (cl_fail_time_counter r) (cl_generation r)
    (cl_udp_tx r) (cl_hb_buf r) (cl_remote r) (cl_endpoint r) (cl_ipt r) (cl_underlay r)
    (cl_installed r) (cl_selected r) v (cl_setup_not_before r) (cl_last_kernel_retry r)
    (cl_cycle_reason r) (cl_exit r) (cl_udp_pending r) (cl_raw_pending r).
Definition set_cl_setup_not_before (v : Z) (r : Client) : Client :=
  mkClient (cl_cfg r) (cl_crypto r) (cl_ctx r) (cl_pipeline r) (cl_info r) (cl_state r)
    (cl_convs r) (cl_bind_fd r) (cl_const_id r) (cl_fail_time_counter r) (cl_generation r)
    (cl_udp_tx r) (cl_hb_buf r) (cl_remote r) (cl_endpoint r) (cl_ipt r) (cl_underlay r)
    (cl_installed r) (cl_selected r) (cl_ll_ready r) v (cl_last_kernel_retry r)
    (cl_cycle_reason r) (cl_exit r) (cl_udp_pending r) (cl_raw_pending r).
Definition set_cl_last_kernel_retry (v : Z) (r : Client) : Client :=
  mkClient (cl_cfg r) (cl_crypto r) (cl_ctx r) (cl_pipeline r) (cl_info r) (cl_state r)
    (cl_convs r) (cl_bind_fd r) (cl_const_id r) (cl_fail_time_counter r) (cl_generation r)
    (cl_udp_tx r) (cl_hb_buf r) (cl_remote r) (cl_endpoint r) (cl_ipt r) (cl_underlay r)
    (cl_installed r) (cl_selected r) (cl_ll_ready r) (cl_setup_not_before r) v
    (cl_cycle_reason r) (cl_exit r) (cl_udp_pending r) (cl_raw_pending r).
Definition set_cl_cycle_reason (v : CycleReason) (r : Client) : Client :=
  mkClient (cl_cfg r) (cl_crypto r) (cl_ctx r) (cl_pipeline r) (cl_info r) (cl_state r)
    (cl_convs r) (cl_bind_fd r) (cl_const_id r) (cl_fail_time_counter r) (cl_generation r)
    (cl_udp_tx r) (cl_hb_buf r) (cl_remote r) (cl_endpoint r) (cl_ipt r) (cl_underlay r)
    (cl_installed r) (cl_selected r) (cl_ll_ready r) (cl_setup_not_before r)
    (cl_last_kernel_retry r) v (cl_exit r) (cl_udp_pending r) (cl_raw_pending r).
Definition set_cl_exit (v : bool) (r : Client) : Client :=
  mkClient (cl_cfg r) (cl_crypto r) (cl_ctx r) (cl_pipeline r) (cl_info r) (cl_state r)
    (cl_convs r) (cl_bind_fd r) (cl_const_id r) (cl_fail_time_counter r) (cl_generation r)
    (cl_udp_tx r) (cl_hb_buf r) (cl_remote r) (cl_endpoint r) (cl_ipt r) (cl_underlay r)
    (cl_installed r) (cl_selected r) (cl_ll_ready r) (cl_setup_not_before r)
    (cl_last_kernel_retry r) (cl_cycle_reason r) v (cl_udp_pending r) (cl_raw_pending r).
Definition set_cl_udp_pending (v : bool) (r : Client) : Client :=
  mkClient (cl_cfg r) (cl_crypto r) (cl_ctx r) (cl_pipeline r) (cl_info r) (cl_state r)
    (cl_convs r) (cl_bind_fd r) (cl_const_id r) (cl_fail_time_counter r) (cl_generation r)
    (cl_udp_tx r) (cl_hb_buf r) (cl_remote r) (cl_endpoint r) (cl_ipt r) (cl_underlay r)
    (cl_installed r) (cl_selected r) (cl_ll_ready r) (cl_setup_not_before r)
    (cl_last_kernel_retry r) (cl_cycle_reason r) (cl_exit r) v (cl_raw_pending r).
Definition set_cl_raw_pending (v : bool) (r : Client) : Client :=
  mkClient (cl_cfg r) (cl_crypto r) (cl_ctx r) (cl_pipeline r) (cl_info r) (cl_state r)
    (cl_convs r) (cl_bind_fd r) (cl_const_id r) (cl_fail_time_counter r) (cl_generation r)
    (cl_udp_tx r) (cl_hb_buf r) (cl_remote r) (cl_endpoint r) (cl_ipt r) (cl_underlay r)
    (cl_installed r) (cl_selected r) (cl_ll_ready r) (cl_setup_not_before r)
    (cl_last_kernel_retry r) (cl_cycle_reason r) (cl_exit r) (cl_udp_pending r) v.

Definition upd_info (f : ConnInfo → ConnInfo) (self : Client) : Client := set_cl_info (f (cl_info self)) self.
Definition upd_raw (f : RawInfo → RawInfo) (self : Client) : Client :=
  upd_info (λ i, set_ci_raw (f (ci_raw i)) i) self.
Definition upd_sent (f : PacketInfo → PacketInfo) (self : Client) : Client := upd_raw (upd_send f) self.
Definition client_key (self : Client) : JobKey := mkJobKey 0 (cl_generation self).

(** * Kernel resources of relay addresses *)
(** What the callbacks change: the metric, and the firewall's bookkeeping. *)
Definition Kst : Type := Z * option Iptables.

Definition reconcile_route (u : option Underlay) (addr : SocketAddr) (s : Kst) : Io (ReconcileResult * Kst) :=
  match u, addr.1 with
  | Some u, V4 v4 =>
      r ← owned_host_route_exists v4 (ud_gateway u) (ud_ifindex u) (ud_prefsrc u) s.1;
      mret (match r with Some true => ResPresent | Some false => ResAbsent | None => ResUnknown end, s)
  | _, _ => mret (ResUnknown, s)
  end.
Definition reconcile_rule (pat : option (list Z)) (s : Kst) : Io (ReconcileResult * Kst) :=
  match s.2, pat with
  | Some ipt, Some p =>
      r ← reconcile_pattern ipt p;
      mret (match r.1 with Some true => ResPresent | Some false => ResAbsent | None => ResUnknown end, (s.1, Some r.2))
  | _, _ => mret (ResUnknown, s)
  end.

Fixpoint install_owned_route (probes : nat) (u : Underlay) (addr : SocketAddr) (metric : Z) : Io (bool * Z) :=
  match addr.1 with
  | V6 _ => mret (false, metric)
  | V4 v4 =>
      match probes with
      | O => mret (false, metric)
      | S probes =>
          r ← create_host_route v4 (ud_gateway u) (ud_ifindex u) (ud_prefsrc u) metric;
          match r with
          | None => mret (true, metric)
          | Some e =>
              if bool_decide (e = Some EEXIST) then install_owned_route probes u addr (next_owned_metric metric)
              else mret (false, metric)
          end
      end
  end.
Definition add_route (u : option Underlay) (addr : SocketAddr) (s : Kst) : Io (bool * Kst) :=
  match u with
  | Some u => r ← install_owned_route ROUTE_METRIC_COLLISION_PROBES u addr s.1; mret (r.1, (r.2, s.2))
  | None => mret (false, s)
  end.
Definition add_rule (pat : option (list Z)) (s : Kst) : Io (bool * Kst) :=
  match s.2, pat with
  | Some ipt, Some p => r ← add_pattern ipt p; mret (r.1, (s.1, Some r.2))
  | _, _ => mret (false, s)
  end.
Definition delete_route (u : option Underlay) (addr : SocketAddr) (s : Kst) : Io (bool * Kst) :=
  match u, addr.1 with
  | Some u, V4 v4 =>
      r ← delete_host_route v4 (ud_gateway u) (ud_ifindex u) s.1;
      mret (match r with None => true | Some _ => false end, s)
  | _, _ => mret (false, s)
  end.
Definition delete_rule (pat : option (list Z)) (s : Kst) : Io (bool * Kst) :=
  match s.2, pat with
  | Some ipt, Some p => r ← del_pattern ipt p; mret (r.1, (s.1, Some r.2))
  | _, _ => mret (false, s)
  end.

Definition is_v4 (a : SocketAddr) : bool := match a.1 with V4 _ => true | V6 _ => false end.
Definition is_some {A} (o : option A) : bool := match o with Some _ => true | None => false end.
Definition rule_pattern_for (self : Client) (addr : SocketAddr) : option (list Z) :=
  match cl_ipt self with Some _ => Some (pattern_for (cl_cfg self) addr) | None => None end.
Definition route_needed (self : Client) (addr : SocketAddr) : bool := is_some (cl_underlay self) && is_v4 addr.
Definition position (self : Client) (addr : SocketAddr) : option nat :=
  fst <$> list_find (λ i, in_addr i = addr) (cl_installed self).
Definition installed_at (self : Client) (pos : nat) : outcome Installed :=
  match cl_installed self !! pos with Some i => Done i | None => Panic end.
Definition put_installed (self : Client) (pos : nat) (i : Installed) : Client :=
  set_cl_installed (<[pos := i]> (cl_installed self)) self.

(** The body of [ensure_installed] for the entry at [pos]. *)
Definition ensure_at (self : Client) (pos : nat) (addr : SocketAddr) : Io (bool * Client) :=
  i ← lift (installed_at self pos);
  let u := cl_underlay self in
  let pat := in_rule_pattern i in
  r ← attempt_reconcile_for_retain (reconcile_route u addr) (reconcile_rule pat)
        (cancel_release (in_resources i)) (in_route_metric i, cl_ipt self);
  r ← attempt_adds (add_route u addr) (add_rule pat) r.1 r.2;
  let i := mkInstalled (in_addr i) (r.2).1 pat r.1 in
  mret (ready r.1, put_installed (set_cl_ipt (r.2).2 self) pos i).
Definition ensure_installed (self : Client) (addr : SocketAddr) : Io (bool * Client) :=
  match position self addr with
  | Some pos => ensure_at self pos addr
  | None =>
      let pat := rule_pattern_for self addr in
      let i := mkInstalled addr (owned_metric (cl_const_id self)) pat
                 (Resources_new (route_needed self addr) (is_some pat)) in
      let self := set_cl_installed (cl_installed self ++ [i]) self in
      ensure_at self (length (cl_installed self) - 1) addr
  end.

Definition record_initial_endpoint (self : Client) : Io Client :=
  let addr := cl_remote self in
  let pat := rule_pattern_for self addr in
  let resources := mark_initial_rule_present (Resources_new (route_needed self addr) (is_some pat)) in
  let i := mkInstalled addr (owned_metric (cl_const_id self)) pat resources in
  r ← ensure_installed (set_cl_installed (cl_installed self ++ [i]) self) addr;
  mret r.2.

Definition endpoint_resources_ready (self : Client) (addr : SocketAddr) : bool :=
  match list_find (λ i, in_addr i = addr) (cl_installed self) with
  | Some (_, i) => ready (in_resources i)
  | None => false
  end.

Definition retry_cleanup_addr (self : Client) (addr : SocketAddr) : Io Client :=
  match position self addr with
  | None => mret self
  | Some pos =>
      i ← lift (installed_at self pos);
      if negb (rs_releasing (in_resources i)) then mret self else
      let u := cl_underlay self in
      let pat := in_rule_pattern i in
      r ← attempt_cleanup (delete_route u addr) (delete_rule pat) (in_resources i) (in_route_metric i, cl_ipt self);
      let self := put_installed (set_cl_ipt (r.2).2 self) pos (set_in_resources r.1 i) in
      mret (if cleanup_complete r.1 then set_cl_installed (delete pos (cl_installed self)) self else self)
  end.
Definition release (self : Client) (addr : SocketAddr) : Io Client :=
  match position self addr with
  | None => mret self
  | Some pos =>
      i ← lift (installed_at self pos);
      retry_cleanup_addr (put_installed self pos (set_in_resources (begin_release (in_resources i)) i)) addr
  end.
Fixpoint each_addr (f : Client → SocketAddr → Io Client) (self : Client) (addrs : list SocketAddr) : Io Client :=
  match addrs with
  | [] => mret self
  | a :: addrs => self ← f self a; each_addr f self addrs
  end.
Definition retry_cleanup (self : Client) : Io Client :=
  each_addr retry_cleanup_addr self (in_addr <$> filter (λ i, rs_releasing (in_resources i) = true) (cl_installed self)).
Definition has_pending_cleanup (self : Client) : bool := existsb (λ i, rs_releasing (in_resources i)) (cl_installed self).

(** An address that is kept: its release is cancelled, and what is missing is restored. *)
Definition retain (self : Client) (addr : SocketAddr) : Io Client :=
  self ← match position self addr with
         | Some pos => i ← lift (installed_at self pos);
                       mret (put_installed self pos (set_in_resources (cancel_release (in_resources i)) i))
         | None => mret self
         end;
  r ← ensure_installed self addr;
  mret r.2.
Definition release_except (self : Client) (keep : list SocketAddr) : Io Client :=
  self ← each_addr retain self keep;
  let stale := filter (λ a, a ∉ keep) (in_addr <$> cl_installed self) in
  each_addr release self stale.
Definition release_all (self : Client) : Io Client := release_except self [].

Definition apply_switch (self : Client) (sw : Switch) : Io Client :=
  let port := (sw_to sw).2 in
  let keep := sw_to sw :: match ec_committed_good (cl_endpoint self) with Some g => [(V4 g, port)] | None => [] end in
  self ← release_except self keep;
  r ← ensure_installed self (sw_to sw);
  let self := set_cl_remote (sw_to sw) r.2 in
  let self := upd_sent (λ s, set_pi_dst_port (sw_to sw).2 (set_pi_dst_ip (sw_to sw).1 s)) self in
  mret (set_cl_ll_ready (match cfg_lower_level (cl_cfg self) with Some LlAuto => false | _ => true end) self).

Definition release_non_retained_endpoints (self : Client) : Io Client :=
  let port := (cl_remote self).2 in
  release_except self ((λ ip, (V4 ip, port)) <$> retained_addresses (cl_endpoint self)).

Definition on_endpoint_authenticated (self : Client) : Io Client :=
  if negb (ec_is_dynamic (cl_endpoint self)) then mret self else
  r ← on_authenticated (cl_endpoint self);
  release_non_retained_endpoints (set_cl_endpoint r.2 self).

(** * The session *)
Definition go_idle (self : Client) (reason : CycleReason) : Io Client :=
  let self := set_cl_endpoint (on_session_ended (cl_endpoint self)) self in
  let self := set_cl_cycle_reason reason self in
  let self := set_cl_setup_not_before 0 (set_cl_selected false self) in
  let self := set_cl_state Idle self in
  id ← secure_random_u32_nz;
  mret (set_cl_generation (cl_generation self +⟨64⟩ 1) (upd_info (set_my_id id) self)).

(** ** The timer *)
Definition retained_addrs (self : Client) : list SocketAddr :=
  let port := (cl_remote self).2 in
  foldl (λ l ip, if bool_decide ((V4 ip, port) ∈ l) then l else l ++ [(V4 ip, port)])
    [cl_remote self] (retained_addresses (cl_endpoint self)).
(** The periodic retry of installations and clean-ups. *)
Definition timer_kernel (self : Client) (now : Z) : Io Client :=
  if KERNEL_RESOURCE_RETRY_MS <=? saturating_sub now (cl_last_kernel_retry self) then
    let self := set_cl_last_kernel_retry now self in
    self ← each_addr (λ self a, r ← ensure_installed self a; mret r.2) self (retained_addrs self);
    retry_cleanup self
  else mret self.

(** A new attempt: fresh ids, and the address the endpoint controller selects. *)
Definition idle_select (self : Client) (now : Z) : Io Client :=
  if cl_selected self then mret self else
  let self := upd_raw (λ r, set_ri_disabled false (set_rst_received 0 r)) self in
  let self := set_cl_fail_time_counter (cl_fail_time_counter self +⟨32⟩ 1) self in
  let self := upd_info (λ i, set_anti_replay (re_init (anti_replay i)) i) self in
  id ← secure_random_u32_nz;
  let self := set_cl_generation (cl_generation self +⟨64⟩ 1) (upd_info (set_my_id id) self) in
  let reason := cl_cycle_reason self in
  let self := set_cl_cycle_reason AttemptFailed self in
  r ← on_cycle (cl_endpoint self) now reason;
  let self := set_cl_endpoint r.2 self in
  self ← match r.1 with Some sw => apply_switch self sw | None => mret self end;
  mret (set_cl_setup_not_before 0 (set_cl_selected true self)).

Definition refresh_lower_level_for_current (self : Client) : Io (bool * Client) :=
  if negb (match cfg_lower_level (cl_cfg self) with Some LlAuto => true | _ => false end) || cl_ll_ready self
  then mret (true, self) else
  match (cl_remote self).1 with
  | V6 _ => mret (false, self)
  | V4 v4 =>
      o ← find_lower_level_info v4;
      match o with
      | None => mret (false, self)
      | Some (_, if_name, mac) =>
          i ← if_nametoindex if_name;
          match i with
          | None => mret (false, self)
          | Some idx =>
              ll ← lift (make_sockaddr_ll idx mac);
              mret (true, set_cl_ll_ready true (upd_sent (set_pi_addr_ll ll) self))
          end
      end
  end.

Definition defer (self : Client) (now : Z) : Client :=
  set_cl_setup_not_before (saturating_add 64 now KERNEL_RESOURCE_RETRY_MS) self.
(** The local port: configured, or a fresh reservation in place of the old one. *)
Definition source_port (self : Client) : Io (option Z * Client) :=
  match cfg_source_port (cl_cfg self) with
  | Some p => mret (Some p, self)
  | None =>
      r ← bind_new_random_port (cl_bind_fd self);
      match r with
      | Some (fd, port) => mret (Some port, set_cl_bind_fd (Some fd) self)
      | None => mret (None, set_cl_bind_fd None self)
      end
  end.
Definition attach_filter (self : Client) (port : Z) : Io (bool * Client) :=
  let self := set_cl_ctx (set_filter (cl_ctx self) port) self in
  if cfg_disable_bpf (cl_cfg self) then mret (true, self) else n ← next_net; mret (nio_ok n, self).
(** The easy mode's socket stays on the underlay. *)
Definition easy_device (self : Client) : Io bool :=
  match cl_bind_fd self, cl_underlay self with
  | Some _, Some u => bind_to_device (ud_dev u)
  | _, _ => mret true
  end.
Definition start_state (self : Client) (state : State) (now : Z) : Client :=
  upd_info (λ i, set_last_hb_sent_time 0 (set_last_state_time now i)) (set_cl_selected false (set_cl_state state self)).

(** The attempt proper, once its address is selected; whether the timer goes on. *)
Definition idle_start (self : Client) (now : Z) : Io (bool * Client) :=
  if now <? cl_setup_not_before self then mret (false, self) else
  if negb (endpoint_resources_ready self (cl_remote self)) then mret (false, defer self now) else
  l ← refresh_lower_level_for_current self;
  let self := l.2 in
  if negb l.1 then mret (false, defer self now) else
  src ← match cfg_source_ip (cl_cfg self) with
        | Some ip => mret (Some ip)
        | None => get_src_addr_dev (cl_remote self) (ud_dev <$> cl_underlay self)
        end;
  match src with
  | None => mret (false, defer self now)
  | Some src_ip =>
      let self := upd_sent (set_pi_src_ip src_ip) self in
      p ← source_port self;
      let self := p.2 in
      match p.1 with
      | None => mret (false, set_cl_exit true self)
      | Some port =>
          let self := upd_sent (set_pi_src_port port) self in
          let self := if bool_decide (cfg_raw_mode (cl_cfg self) = RawIcmp)
                      then upd_sent (set_pi_dst_port port) self else self in
          f ← attach_filter self port;
          let self := f.2 in
          if negb f.1 then mret (false, set_cl_exit true self) else
          match cfg_raw_mode (cl_cfg self) with
          | RawIcmp | RawUdp => mret (true, start_state self Handshake1 now)
          | FakeTcp =>
              if cfg_easy_faketcp (cl_cfg self) then
                d ← easy_device self;
                if negb d then mret (false, defer self now)
                else mret (true, start_state self TcpHandshakeDummy now)
              else mret (true, start_state self TcpHandshake now)
          end
      end
  end.
Definition timer_idle (self : Client) (now : Z) : Io (bool * Client) :=
  self ← idle_select self now; idle_start self now.

Definition handshaking (s : State) : bool :=
  match s with TcpHandshake | TcpHandshakeDummy | Handshake1 | Handshake2 => true | _ => false end.
(** [ctx.send_raw] and [conn::send_handshake] on the client's own connection. *)
Definition client_send_raw (self : Client) : Io Client :=
  r ← send_raw (cl_ctx self) (ci_raw (cl_info self)) [];
  mret (upd_info (set_ci_raw r.2) (set_cl_ctx r.1 self)).

Section client.
Context `{P : Prims}.

Definition client_send_handshake (self : Client) (id2 : Z) : Io Client :=
  r ← send_handshake (cl_ctx self) (cl_crypto self) (ci_raw (cl_info self)) (my_id (cl_info self)) id2 (cl_const_id self);
  mret (upd_info (set_ci_raw r.2) (set_cl_ctx r.1.2 self)).
Definition submit_job (self : Client) (j : Job) : Io Client :=
  r ← submit_among (cl_pipeline self) j; mret (set_cl_pipeline r.2 self).

Definition timed_out (self : Client) (now : Z) : bool :=
  CLIENT_HANDSHAKE_TIMEOUT_MS <? now -⟨64⟩ last_state_time (cl_info self).
Definition resend_due (self : Client) (now : Z) : bool :=
  CLIENT_RETRY_INTERVAL_MS <? now -⟨64⟩ last_hb_sent_time (cl_info self).
Definition sent_info (self : Client) : PacketInfo := send_info (ci_raw (cl_info self)).
Definition hb_sent (self : Client) (now : Z) : Client := upd_info (set_last_hb_sent_time now) self.

Definition timer_syn (self : Client) (now : Z) : Io Client :=
  if timed_out self now then go_idle self AttemptFailed else
  if resend_due self now then
    self ← (if last_hb_sent_time (cl_info self) =? 0 then
              seq ← secure_random_u32;
              ack_seq ← secure_random_u32;
              mret (upd_sent (λ s, set_pi_ack_seq ack_seq (set_pi_seq seq (set_pi_ts_ack 0
                      (set_pi_ack false (set_pi_syn true (set_pi_psh false s)))))) self)
            else mret self);
    self ← client_send_raw self;
    mret (hb_sent self now)
  else mret self.
Definition timer_dummy (self : Client) (now : Z) : Io Client :=
  if timed_out self now then go_idle self AttemptFailed else mret self.

(** The handshake packet, and the sequence number that follows it. *)
Definition handshake_tcp (self : Client) (id2 : Z) : Io Client :=
  self ← client_send_handshake self id2;
  let dl := wrap 32 (pi_data_len (sent_info self)) in
  mret (upd_sent (λ s, set_pi_seq (pi_seq s +⟨32⟩ dl) s) self).
Definition handshake_other (self : Client) (id2 : Z) : Io Client :=
  self ← client_send_handshake self id2;
  mret (if bool_decide (cfg_raw_mode (cl_cfg self) = RawIcmp)
        then upd_sent (λ s, set_pi_icmp_seq (pi_icmp_seq s +⟨16⟩ 1) s) self else self).
Definition timer_handshake1 (self : Client) (now : Z) : Io Client :=
  if timed_out self now then go_idle self AttemptFailed else
  if resend_due self now then
    self ← (if bool_decide (cfg_raw_mode (cl_cfg self) = FakeTcp) then
              let self := if last_hb_sent_time (cl_info self) =? 0 then
                            let r := recv_info (ci_raw (cl_info self)) in
                            let self := upd_sent (λ s, set_pi_ts_ack (pi_ts r) (set_pi_ack_seq (pi_seq r +⟨32⟩ 1)
                                                         (set_pi_seq (pi_seq s +⟨32⟩ 1) s))) self in
                            upd_raw (set_reserved_send_seq (pi_seq (sent_info self))) self
                          else self in
              let self := upd_sent (λ s, set_pi_ack true (set_pi_syn false (set_pi_psh false
                            (set_pi_seq (reserved_send_seq (ci_raw (cl_info self))) s)))) self in
              self ← (if negb (cfg_easy_faketcp (cl_cfg self)) then client_send_raw self else mret self);
              handshake_tcp self 0
            else handshake_other self 0);
    mret (hb_sent self now)
  else mret self.
Definition timer_handshake2 (self : Client) (now : Z) : Io Client :=
  if timed_out self now then go_idle self AttemptFailed else
  if resend_due self now then
    let id2 := oppsite_id (cl_info self) in
    self ← (if bool_decide (cfg_raw_mode (cl_cfg self) = FakeTcp) then
              let self := if last_hb_sent_time (cl_info self) =? 0 then
                            let r := recv_info (ci_raw (cl_info self)) in
                            let self := upd_sent (λ s, set_pi_ts_ack (pi_ts r)
                                          (set_pi_ack_seq (pi_seq r +⟨32⟩ wrap 32 (pi_data_len r)) s)) self in
                            upd_raw (set_reserved_send_seq (pi_seq (sent_info self))) self
                          else self in
              let self := upd_sent (λ s, set_pi_seq (reserved_send_seq (ci_raw (cl_info self))) s) self in
              handshake_tcp self id2
            else handshake_other self id2);
    mret (hb_sent self now)
  else mret self.
Definition timer_ready (self : Client) (now : Z) : Io Client :=
  let self := set_cl_fail_time_counter 0 self in
  r ← probation_rollback_due (cl_endpoint self) now;
  let self := set_cl_endpoint r.2 self in
  if r.1 : bool then go_idle self ProbationExpired else
  if CLIENT_CONN_TIMEOUT_MS <? now -⟨64⟩ last_hb_recv_time (cl_info self) then go_idle self SessionLost else
  if CLIENT_CONN_UPLINK_TIMEOUT_MS <? now -⟨64⟩ last_oppsite_roller_time (cl_info self) then go_idle self SessionLost else
  if now -⟨64⟩ last_hb_sent_time (cl_info self) <? HEARTBEAT_INTERVAL_MS then mret self else
  let hb := if cfg_hb_mode (cl_cfg self) =? 0 then [] else cl_hb_buf self in
  let '(plain, info) := prepare_safer (cl_info self) TYPE_HEARTBEAT hb in
  let self := set_cl_info info self in
  self ← submit_job self (Encrypt (client_key self) plain);
  mret (hb_sent self now).
Definition timer_state (self : Client) (now : Z) : Io Client :=
  match cl_state self with
  | Idle => mret self
  | TcpHandshake => timer_syn self now
  | TcpHandshakeDummy => timer_dummy self now
  | Handshake1 => timer_handshake1 self now
  | Handshake2 => timer_handshake2 self now
  | Ready => timer_ready self now
  end.

Definition on_timer (self : Client) : Io Client :=
  now ← now_ms;
  self ← timer_kernel self now;
  let self := set_cl_convs (clear_inactive (cl_convs self) now).2 self in
  self ← (if ri_disabled (ci_raw (cl_info self)) then go_idle self (raw_disabled_cycle_reason (cl_state self)) else mret self);
  r ← (if bool_decide (cl_state self = Idle) then timer_idle self now else mret (true, self));
  let self := r.2 in
  if negb r.1 then mret self else
  if handshaking (cl_state self) && round_expired (cl_endpoint self) now then go_idle self AttemptFailed else
  timer_state self now.

(** ** Datagrams of local peers *)
Fixpoint new_conv_loop (fuel : nat) (m : ConvManager SocketAddr) : Io Z :=
  match fuel with
  | O => panic
  | S fuel => c ← secure_random_u32_nz; if is_conv_used m c then new_conv_loop fuel m else mret c
  end.
Definition on_udp_packet (self : Client) (data : list Z) (peer : SocketAddr) : Io Client :=
  if zlen data =? MAX_DATA_LEN + 1 then mret self else
  now ← now_ms;
  o ← match find_conv_by_data (cl_convs self) peer with
      | Some c => mret (Some (c, self))
      | None =>
          if MAX_CONV_NUM <=? conv_len (cl_convs self) then mret None else
          c ← new_conv_loop FRESH_FUEL (cl_convs self);
          mret (Some (c, set_cl_convs (conv_insert (cl_convs self) c peer now) self))
      end;
  match o with
  | None => mret self
  | Some (conv, self) =>
      let self := set_cl_convs (update_active_time (cl_convs self) conv now) self in
      if bool_decide (cl_state self = Ready) then
        let '(plain, info) := prepare_safer_data (cl_info self) conv data in
        submit_job (set_cl_info info self) (Encrypt (client_key self) plain)
      else mret self
  end.

(** ** Packets of the server *)
Definition enter_handshake (self : Client) (state : State) : Io Client :=
  now ← now_ms;
  on_timer (upd_info (λ i, set_last_hb_sent_time 0 (set_last_state_time now i)) (set_cl_state state self)).
Definition is_peer (r : PacketInfo) (dst : SocketAddr) : bool := bool_decide ((pi_src_ip r, pi_src_port r) = dst).
Definition on_syn_ack (self : Client) (data : list Z) (send_dst : SocketAddr) : Io Client :=
  let r := recv_info (ci_raw (cl_info self)) in
  if MAX_DATA_LEN <? zlen data then mret self else
  if negb (is_peer r send_dst) then mret self else
  if (zlen data =? 0) && pi_syn r && pi_ack r then
    if bool_decide (cl_state self = TcpHandshake) then
      if negb (pi_ack_seq r =? pi_seq (sent_info self) +⟨32⟩ 1) then mret self
      else enter_handshake self Handshake1
    else enter_handshake (upd_sent (set_pi_seq (pi_ack_seq r -⟨32⟩ 1)) self) Handshake1
  else mret self.
Definition on_handshake1 (self : Client) (data : list Z) (send_dst : SocketAddr) : Io Client :=
  let r := recv_info (ci_raw (cl_info self)) in
  let tcp := bool_decide (cfg_raw_mode (cl_cfg self) = FakeTcp) in
  if tcp && (pi_syn r || negb (pi_ack r)) then mret self else
  b ← lift (conn_parse_bare (cl_crypto self) data);
  match b with
  | None => mret self
  | Some payload =>
      if negb (is_peer r send_dst) then mret self else
      h ← lift (parse_handshake payload);
      match h with
      | None => mret self
      | Some (tmp_oppsite_id, tmp_my_id, _) =>
          if negb (tmp_my_id =? my_id (cl_info self)) then mret self else
          if tcp && (negb (pi_ack_seq r =? pi_seq (sent_info self)) || negb (pi_seq r =? pi_ack_seq (sent_info self)))
          then mret self else
          enter_handshake (upd_info (set_oppsite_id tmp_oppsite_id) self) Handshake2
      end
  end.
Definition on_session_data (self : Client) (data : list Z) (send_dst : SocketAddr) : Io Client :=
  let r := recv_info (ci_raw (cl_info self)) in
  if negb (is_peer r send_dst) then mret self else
  submit_job self (Decrypt (client_key self) data (from_recv r)).

Definition on_raw_packet (self : Client) (buf : list Z) (len : Z) (ll : SockaddrLl) : Io Client :=
  if (len =? HUGE_DATA_LEN + 1) && negb (cfg_fix_gro (cl_cfg self)) then mret self else
  let len := if len =? HUGE_DATA_LEN + 1 then HUGE_DATA_LEN else len in
  if (MAX_DATA_LEN <? len) && negb (cfg_fix_gro (cl_cfg self)) then mret self else
  let send_dst := (pi_dst_ip (sent_info self), pi_dst_port (sent_info self)) in
  if bool_decide (cl_state self = Idle) then mret self else
  buf ← lift (slice buf 0 len);
  p ← lift (parse_recv (cl_ctx self) (ci_raw (cl_info self)) buf ll);
  let self := upd_info (set_ci_raw p.2) self in
  match p.1 with
  | None => mret self
  | Some data =>
      match cl_state self with
      | Idle => mret self
      | TcpHandshake | TcpHandshakeDummy => on_syn_ack self data send_dst
      | Handshake1 => on_handshake1 self data send_dst
      | Handshake2 | Ready => on_session_data self data send_dst
      end
  end.

(** ** Pipeline completions *)
Definition flush_udp_tx (self : Client) : Io Client :=
  if bool_decide (cl_udp_tx self = []) then mret self else
  send_batch (cl_udp_tx self);; mret (set_cl_udp_tx [] self).

(** The handshake is over. *)
Definition become_ready (self : Client) (activity_now : Z) : Io Client :=
  let self := upd_info (set_last_hb_sent_time 0) (set_cl_state Ready self) in
  self ← on_endpoint_authenticated self;
  on_timer (upd_info (λ i, set_last_oppsite_roller_time activity_now (set_last_hb_recv_time activity_now i)) self).
Definition activity (self : Client) (now : Z) (is_data : bool) : Client :=
  set_cl_endpoint (on_authenticated_activity (cl_endpoint self) now is_data) self.
Definition on_data (self : Client) (activity_now : Z) (plain : list Z) (off : Z) : Io Client :=
  d ← lift (slice_from plain off);
  d ← lift (parse_data_payload d);
  match d with
  | None => mret self
  | Some (conv, _) =>
      self ← (if cfg_hb_mode (cl_cfg self) =? 0
              then t ← now_ms; mret (upd_info (set_last_hb_recv_time t) self) else mret self);
      if negb (is_conv_used (cl_convs self) conv) then mret self else
      let self := activity self activity_now true in
      t ← now_ms;
      let self := set_cl_convs (update_active_time (cl_convs self) conv t) self in
      match find_data_by_conv (cl_convs self) conv with
      | None => panic
      | Some peer =>
          let self := set_cl_udp_tx (cl_udp_tx self ++ [mkTxPacket plain (off + 4) (TxSock peer)]) self in
          if 64 <=? zlen (cl_udp_tx self) then flush_udp_tx self else mret self
      end
  end.
Definition on_safer_packet (self : Client) (ptype : Z) (plain : list Z) (off : Z) : Io Client :=
  activity_now ← now_ms;
  self ← (if bool_decide (cl_state self = Handshake2) then become_ready self activity_now else mret self);
  if ptype =? TYPE_HEARTBEAT then
    let self := activity self activity_now false in
    t ← now_ms;
    mret (upd_info (set_last_hb_recv_time t) self)
  else if ptype =? TYPE_DATA then on_data self activity_now plain off
  else mret self.

Fixpoint accept_plains (self : Client) (plains : list (list Z)) (any : bool) : Io (bool * Client) :=
  match plains with
  | [] => mret (any, self)
  | p :: plains =>
      r ← accept_safer_offset (cl_info self) p (cfg_hb_mode (cl_cfg self));
      let self := set_cl_info r.2 self in
      match r.1 with
      | Some (ptype, off) => self ← on_safer_packet self ptype p off; accept_plains self plains true
      | None => accept_plains self plains any
      end
  end.
Definition in_session (s : State) : bool := match s with Handshake2 | Ready => true | _ => false end.
Definition on_done (self : Client) (d : Completion) : Io Client :=
  match d with
  | Encrypted key None => mret self
  | Encrypted key (Some w) =>
      if (jk_generation key =? cl_generation self) && bool_decide (cl_state self = Ready) then
        r ← transmit_safer (cl_ctx self) (ci_raw (cl_info self)) w;
        mret (upd_info (set_ci_raw r.2) (set_cl_ctx r.1 self))
      else mret self
  | Decrypted key plains meta =>
      if negb (jk_generation key =? cl_generation self) || negb (in_session (cl_state self)) then mret self else
      r ← accept_plains self plains false;
      let '(any, self) := r in
      mret (if any : bool then upd_raw (λ raw, after_recv (cl_ctx self) raw meta) self else self)
  end.
Fixpoint on_dones (self : Client) (ds : list Completion) : Io Client :=
  match ds with
  | [] => mret self
  | d :: ds => self ← on_done self d; on_dones self ds
  end.
Definition client_collect (self : Client) : Io Client :=
  r ← collect_among (cl_pipeline self);
  on_dones (set_cl_pipeline r.2 self) r.1.

(** ** The command FIFO *)
(** [read_command]: the text without its trailing newlines; [None] when the read fails. *)
Fixpoint trim_newlines (rev_text : list Z) : list Z :=
  match rev_text with 10 :: l => trim_newlines l | _ => rev_text end.
Definition read_command (text : list Z) : list Z := rev (trim_newlines (rev text)).
Definition on_fifo (self : Client) (input : option (list Z)) : Io Client :=
  match input with
  | None => mret self
  | Some text =>
      match split_whitespace (read_command text) with
      | [w] =>
          if bool_decide (w = str "reconnect") then
            go_idle (set_cl_endpoint (request_refresh (cl_endpoint self)) self) Forced
          else mret self
      | [w; expected] =>
          if bool_decide (w = str "promote") then
            match parse_ipv4 expected with
            | None => mret self
            | Some ip =>
                now ← now_ms;
                r ← promote_candidate (cl_endpoint self) ip now;
                let self := set_cl_endpoint r.2 self in
                match r.1 with
                | Promoted _ => release_non_retained_endpoints self
                | _ => mret self
                end
            end
          else if bool_decide (w = str "rollback") then
            match parse_ipv4 expected with
            | None => mret self
            | Some ip =>
                now ← now_ms;
                r ← authorize_operator_rollback (cl_endpoint self) ip now;
                let self := set_cl_endpoint r.2 self in
                if r.1 : bool then go_idle self OperatorRollback else mret self
            end
          else mret self
      | _ => mret self
      end
  end.

(** * The event loop *)
(** What one round reads: the poller's tokens; one text per [TOK_FIFO]; what successive
    [recvmmsg] calls return on the raw and on the UDP socket (a peer address that is not an
    Internet address is [None]). *)
Record Inputs := mkInputs {
  in_tokens : list nat;
  in_fifo : list (option (list Z));
  in_raw : list (list RawRx);
  in_udp : list (list (option SocketAddr * list Z)) }.

Fixpoint raw_batch (self : Client) (pkts : list RawRx) : Io Client :=
  match pkts with
  | [] => mret self
  | p :: pkts => self ← on_raw_packet self (rx_buf p) (rx_len p) (rx_addr p); raw_batch self pkts
  end.
Fixpoint on_raw_readable (self : Client) (batches : list (list RawRx)) (rounds : Z) : Io (bool * Client) :=
  match batches with
  | [] => mret (false, self)
  | b :: batches =>
      self ← raw_batch self b;
      let rounds := rounds + 1 in
      if zlen b <? RX_BATCH then mret (false, self) else
      if DRAIN_BUDGET <=? rounds * RX_BATCH then mret (true, self) else
      on_raw_readable self batches rounds
  end.
Fixpoint udp_batch (self : Client) (pkts : list (option SocketAddr * list Z)) : Io Client :=
  match pkts with
  | [] => mret self
  | (peer, data) :: pkts =>
      self ← match peer with Some a => on_udp_packet self data a | None => mret self end;
      udp_batch self pkts
  end.
Fixpoint on_udp_readable (self : Client) (batches : list (list (option SocketAddr * list Z))) (rounds : Z)
    : Io (bool * Client) :=
  match batches with
  | [] => mret (false, self)
  | b :: batches =>
      self ← udp_batch self b;
      let rounds := rounds + 1 in
      if zlen b <? RX_BATCH then mret (false, self) else
      if DRAIN_BUDGET <=? rounds * RX_BATCH then mret (true, self) else
      on_udp_readable self batches rounds
  end.

Fixpoint on_tokens (self : Client) (tokens : list nat) (fifo : list (option (list Z))) : Io Client :=
  match tokens with
  | [] => mret self
  | t :: tokens =>
      if (t =? TOK_UDP)%nat then on_tokens (set_cl_udp_pending true self) tokens fifo
      else if (t =? TOK_RAW)%nat then on_tokens (set_cl_raw_pending true self) tokens fifo
      else if (t =? TOK_FIFO)%nat then
        self ← on_fifo self (mjoin (head fifo));
        on_tokens self tokens (tail fifo)
      else on_tokens self tokens fifo
  end.

(** The loop's body, after the poll; [last_timer] is the loop's variable. *)
Definition client_round (self : Client) (last_timer : Z) (inp : Inputs) : Io (Z * Client) :=
  self ← on_tokens self (in_tokens inp) (in_fifo inp);
  self ← (if cl_raw_pending self
          then r ← on_raw_readable self (in_raw inp) 0; mret (set_cl_raw_pending r.1 r.2) else mret self);
  self ← (if cl_udp_pending self
          then r ← on_udp_readable self (in_udp inp) 0; mret (set_cl_udp_pending r.1 r.2) else mret self);
  self ← client_collect self;
  now ← now_ms;
  r ← (if TIMER_INTERVAL_MS <=? saturating_sub now last_timer
       then self ← on_timer self; self ← client_collect self; mret (now, self) else mret (last_timer, self));
  ctx ← flush_tx (cl_ctx r.2);
  self ← flush_udp_tx (set_cl_ctx ctx r.2);
  mret (r.1, self).
End client.

(** * Start and exit *)
(** [--lower-level auto] at the start: attempts are repeated while [--retry-on-error] is set;
    [tries] bounds them. *)
Fixpoint detect_lower_level (tries : nat) (retry_on_error : bool) (ip : list Z) : Io (option (list Z * list Z)) :=
  match tries with
  | O => mret None
  | S tries =>
      o ← find_lower_level_info ip;
      match o with
      | Some (_, if_name, mac) => mret (Some (if_name, mac))
      | None => if retry_on_error then detect_lower_level tries retry_on_error ip else mret None
      end
  end.
Definition start_lower_level (tries : nat) (cfg : Config) (remote : SocketAddr) (info : ConnInfo) : Io (option ConnInfo) :=
  match cfg_lower_level cfg with
  | None => mret (Some info)
  | Some ll =>
      o ← match ll, remote.1 with
          | LlManual if_name dest_mac, _ => mret (Some (if_name, dest_mac))
          | LlAuto, V4 v4 => detect_lower_level tries (cfg_retry_on_error cfg) v4
          | LlAuto, V6 _ => mret None
          end;
      match o with
      | None => mret None
      | Some (if_name, mac) =>
          i ← if_nametoindex if_name;
          match i with
          | None => mret None
          | Some idx =>
              a ← lift (make_sockaddr_ll idx mac);
              mret (Some (set_ci_raw (upd_send (set_pi_addr_ll a) (ci_raw info)) info))
          end
      end
  end.
(** [run] up to the event loop, on sockets that could be opened. *)
Definition Client_new (tries : nat) (cfg : Config) (crypto : Crypto) (const_id : Z) (endpoint : EndpointController)
    (ipt : option Iptables) : Io (option Client) :=
  let remote := ec_current endpoint in
  u ← match cfg_underlay_dev cfg with
      | Some dev => u ← Underlay_detect dev (cfg_underlay_gateway cfg) remote; mret (Some <$> u)
      | None => mret (Some None)
      end;
  match u with
  | None => mret None
  | Some underlay =>
      ctx ← RawCtx_new cfg;
      info ← ConnInfo_new (cfg_raw_mode cfg) (raw_is_v6 cfg) (cfg_disable_anti_replay cfg);
      id ← secure_random_u32_nz;
      let info := set_my_id id info in
      o ← start_lower_level tries cfg remote info;
      match o with
      | None => mret None
      | Some info =>
          let info := set_ci_raw (upd_send (λ s, set_pi_dst_port remote.2 (set_pi_dst_ip remote.1 s)) (ci_raw info)) info in
          self ← record_initial_endpoint
                   (mkClient cfg crypto ctx (Pipeline_new (Z.to_nat (cfg_threads cfg)) crypto (cfg_fix_gro cfg)) info
                      Idle ConvManager_new None const_id 0 1 [] (replicate (Z.to_nat (cfg_hb_len cfg)) 0) remote endpoint
                      ipt underlay [] false true 0 0 Startup false false false);
          mret (Some self)
      end
  end.
(** The end of [run], after the event loop: what was installed is released, with retries. *)
Fixpoint final_cleanup (retries : nat) (self : Client) : Io Client :=
  match retries with
  | O => mret self
  | S retries => if negb (has_pending_cleanup self) then mret self else self ← retry_cleanup self; final_cleanup retries self
  end.
Definition client_exit (self : Client) : Io Client :=
  self ← release_all self; final_cleanup FINAL_CLEANUP_RETRIES self.
