(* ===== verification/ClientKernel.v ===== *)
(** The client's routes and firewall rules ([src/src/client.rs], [ensure_installed] to
    [release_except]) against the kernel of [Kernel]: the table of installed addresses agrees
    with what exists, after every operation and whatever commands and requests fail. *)
From stdpp Require Import strings.
From S2P Require Import Prelude Util Text Ip Types World Config Route Iptables Kernel Resources EndpointState Endpoint EndpointInv Client.

Definition live (m : ManagedState) : Prop := m = Present ∨ m = Removing.
(** The record of an address, or that there is none. *)
Definition nothing : EndpointResources * Z := (mkResources NotNeeded NotNeeded false, 0).
Definition entry (self : Client) (a : SocketAddr) : option Installed := snd <$> list_find (λ i, in_addr i = a) (cl_installed self).
Definition view_of (i : Installed) : EndpointResources * Z := (in_resources i, in_route_metric i).
Definition view (self : Client) (a : SocketAddr) : EndpointResources * Z := from_option view_of nothing (entry self a).

(** The addresses a client may use: a literal one, or those of a host name. *)
Definition relay (spec : EndpointSpec) (a : SocketAddr) : Prop :=
  match spec with
  | Literal b => a = b
  | Hostname _ port => ∃ ip, v4_ok ip ∧ a = (V4 ip, port)
  end.

Lemma runs_assoc {A B C} (m : Io A) (f : A → Io B) (g : B → Io C) w Q :
  runs ((m ≫= f) ≫= g) w Q → runs (m ≫= λ a, f a ≫= g) w Q.
Proof. unfold runs, mbind, io_bind. by destruct (m w) as [[a w']|]. Qed.

Section kernel_state.
Context (cfg : Config) (spec : EndpointSpec) (cmd chain0 : list Z) (u : option Underlay).

Definition u_gw : option (list Z) := u ≫= ud_gateway.
Definition u_oif : Z := from_option ud_ifindex 0 u.
Definition u_src : option (list Z) := u ≫= ud_prefsrc.
Definition ours (p : list Z) : Prop := ∃ a, relay spec a ∧ p = pattern_for cfg a.
#[local] Abbreviation acts := (acts cmd chain0 ours u_gw u_oif u_src).
#[local] Abbreviation relay := (relay spec).

(** What the kernel holds for an address of record [v]. *)
Definition holds (v : EndpointResources * Z) (a : SocketAddr) (K : Kernel) : Prop :=
  ((rs_rule v.1 = Present → (0 < k_jumps K (pattern_for cfg a))%nat) ∧
   ((0 < k_jumps K (pattern_for cfg a))%nat → live (rs_rule v.1))) ∧
  ∀ d, a.1 = V4 d → (rs_route v.1 = Present → k_routes K d v.2 = true) ∧
    ∀ m, k_routes K d m = true → m = v.2 ∧ live (rs_route v.1) ∨ k_lost K d m = true.
(** The table is right: nothing of the client's is missing and nothing is forgotten, save the
    routes whose creation was not acknowledged. *)
Definition tracked (self : Client) (K : Kernel) : Prop := ∀ a, relay a → holds (view self a) a K.

(** The static part, for one address. *)
Definition needs_route (a : SocketAddr) : bool := is_some u && is_v4 a.
Definition ipt_ok (o : option Iptables) : Prop :=
  ∀ it, o = Some it → ipt_cmd it = cmd ∧ ipt_chain0 it = chain0 ∧ ipt_keep it = false ∧ NoDup (ipt_patterns it).
Record entry_ok (a : SocketAddr) (r : EndpointResources) (s : Kst) : Prop := {
  en_rule : rs_rule r = NotNeeded ↔ s.2 = None;
  en_route : rs_route r = NotNeeded ↔ needs_route a = false;
  en_metric : metric_ok s.1;
  en_ipt : ipt_ok s.2;
  en_pattern it : s.2 = Some it → pattern_for cfg a ∈ ipt_patterns it ↔ live (rs_rule r) }.

(** Operations on an address leave the other ones alone. *)
Definition only (a : SocketAddr) (K K' : Kernel) : Prop :=
  (∀ q, q ≠ pattern_for cfg a → k_jumps K' q = k_jumps K q) ∧
  ∀ d m, a.1 ≠ V4 d → k_routes K' d m = k_routes K d m ∧ k_lost K' d m = k_lost K d m.
Definition others (a : SocketAddr) (o o' : option Iptables) : Prop :=
  match o, o' with
  | None, None => True
  | Some it, Some it' => ∀ q, q ≠ pattern_for cfg a → q ∈ ipt_patterns it' ↔ q ∈ ipt_patterns it
  | _, _ => False
  end.
Definition steps (a : SocketAddr) (r : EndpointResources) (s : Kst) (w : World) (x : EndpointResources * Kst) (w' : World) : Prop :=
  later w w' ∧ env_ok w' ∧ entry_ok a x.1 x.2 ∧ others a s.2 (x.2).2 ∧
  acts w w' (λ K K', only a K K' ∧ (holds (r, s.1) a K → holds (x.1, (x.2).1) a K')).

Lemma others_refl a o : others a o o.
Proof. by destruct o. Qed.
Lemma others_trans a o1 o2 o3 : others a o1 o2 → others a o2 o3 → others a o1 o3.
Proof. destruct o1, o2, o3; cbn; try done. intros H1 H2 q Hq. by rewrite H2, H1. Qed.
Lemma only_refl a K : only a K K.
Proof. done. Qed.
Lemma only_trans a K1 K2 K3 : only a K1 K2 → only a K2 K3 → only a K1 K3.
Proof. intros [A1 B1] [A2 B2]. split; [intros q Hq; by rewrite A2, A1|]. intros d m Hd. destruct (B1 d m Hd), (B2 d m Hd). split; congruence. Qed.
Lemma steps_refl a r s w : env_ok w → entry_ok a r s → steps a r s w (r, s) w.
Proof. intros. split_and!; [done|done|done|apply others_refl|]. by apply acts_refl. Qed.
Lemma steps_trans a r s w x w1 y w2 : steps a r s w x w1 → steps a x.1 x.2 w1 y w2 → steps a r s w y w2.
Proof.
  intros (L1 & _ & _ & O1 & A1) (L2 & E2 & N2 & O2 & A2). split_and!; [by transitivity w1|done|done|by eapply others_trans|].
  eapply acts_trans; [exact A1|exact A2|]. intros K1 K2 K3 [B1 C1] [B2 C2]. split; [by eapply only_trans|]. auto.
Qed.

Context (Hclient : cfg_is_client cfg = true) (Hchain : word chain0).
Context (Hpath : ∀ x, u = Some x → path_ok (ud_gateway x) (ud_ifindex x) (ud_prefsrc x)).
Context (Hv4 : ∀ a d, relay a → a.1 = V4 d → v4_ok d) (Hport : is_u 16 (spec_port spec)).

(** Two addresses share neither a rule nor a route. *)
Lemma relay_apart a b : relay a → relay b → a ≠ b →
  pattern_for cfg a ≠ pattern_for cfg b ∧ ∀ d, a.1 = V4 d → b.1 ≠ V4 d.
Proof using Hclient Hport.
  clear Hv4 Hpath. unfold ClientKernel.relay. destruct spec as [x|name port]; [congruence|]. intros (i & Hi & ->) (j & Hj & ->) Hne. cbn in Hport. split.
  - intros E%pattern_inj; [congruence|done..].
  - cbn. intros d [= ->] [= ->]. done.
Qed.

(** * Rules *)
Lemma holds_rule a r m v K K' : rule_effect (pattern_for cfg a) v K K' →
  holds (r, m) a K → ∀ r', rs_route r' = rs_route r →
  (rs_rule r' = Present → v = Some true) →
  (v ≠ Some false → live (rs_rule r')) → holds (r', m) a K'.
Proof.
  intros (Hq & [Hr Hlo] & Hv) [[H1 H2] H3] r' Er Hp Hl. split; cbn [fst snd] in *.
  - split.
    + intros ->%Hp. done.
    + intros Hj. apply Hl. intros ->. lia.
  - intros d Ed. rewrite Hr, Hlo, Er. by apply H3.
Qed.
Lemma rule_only a v K K' : rule_effect (pattern_for cfg a) v K K' → only a K K'.
Proof. intros (Hq & [Hr Hlo] & _). split; [done|]. intros d m _. by rewrite Hr, Hlo. Qed.

(** ** Callbacks on the rule *)
Lemma steps_rule a r m it w st it' v w' : later w w' → env_ok w' → entry_ok a r (m, Some it) → st ≠ NotNeeded →
  acts w w' (rule_effect (pattern_for cfg a) v) → (st = Present → v = Some true) → (v ≠ Some false → live st) →
  ipt_ok (Some it') → others a (Some it) (Some it') → (pattern_for cfg a ∈ ipt_patterns it' ↔ live st) →
  steps a r (m, Some it) w (set_rs_rule st r, (m, Some it')) w'.
Proof.
  intros Hl Hw [E1 E2 E3 E4 E5] Hst Ha Hp Hlv Hok Hot Hpat. split_and!; [done|done| |done|].
  - constructor; cbn [fst snd rs_rule rs_route set_rs_rule]; try done. by intros ? [= <-].
  - eapply acts_mono; [exact Ha|]. intros K K' HK. split; [by eapply rule_only|]. intros Hh.
    by eapply (holds_rule a r m _ _ _ HK Hh (set_rs_rule st r)).
Qed.
Lemma steps_same a r s w w' : later w w' → env_ok w' → entry_ok a r s → acts w w' (λ K K', K' = K) → steps a r s w (r, s) w'.
Proof. intros. split_and!; [done|done|done|apply others_refl|]. eapply acts_mono; [done|]. by intros K K' ->. Qed.

Lemma without_in it p q : q ∈ ipt_patterns (without it p) ↔ q ≠ p ∧ q ∈ ipt_patterns it.
Proof. unfold without. cbn [ipt_patterns set_ipt_patterns]. by rewrite list_elem_of_filter. Qed.
Lemma without_ok it p : ipt_ok (Some it) → ipt_ok (Some (without it p)).
Proof. intros H it' [= <-]. destruct (H it eq_refl) as (? & ? & ? & ?). split_and!; try done. by apply NoDup_filter. Qed.
Lemma others_without a it : others a (Some it) (Some (without it (pattern_for cfg a))).
Proof. intros q Hq. rewrite without_in. tauto. Qed.
Lemma absent_without a it : pattern_for cfg a ∈ ipt_patterns (without it (pattern_for cfg a)) ↔ live Missing.
Proof. rewrite without_in. split; [by intros []|by intros [|]]. Qed.
Lemma live_removing : live Removing.
Proof. by right. Qed.
Lemma set_rule_id r : set_rs_rule (rs_rule r) r = r.
Proof. by destruct r. Qed.
Lemma set_route_id r : set_rs_route (rs_route r) r = r.
Proof. by destruct r. Qed.

Definition pat_of (s : Kst) (a : SocketAddr) : option (list Z) := match s.2 with Some _ => Some (pattern_for cfg a) | None => None end.

Lemma runs_add_rule a r s w : env_ok w → entry_ok a r s → rs_rule r = Missing →
  runs (add_rule (pat_of s a) s) w (λ x w', steps a r s w (if x.1 then set_rs_rule Present r else r, x.2) w').
Proof using Hchain.
  intros Hw Hen Hm. pose proof Hen as [E1 E2 E3 E4 E5]. destruct s as [m [it|]]; [|by rewrite (proj2 E1) in Hm].
  unfold add_rule. cbn [fst snd pat_of] in *. destruct (E4 it eq_refl) as (Hc & Hch & Hk & Hn).
  assert (pattern_for cfg a ∉ ipt_patterns it) as Hp by (rewrite (E5 it eq_refl), Hm; by intros [|]).
  apply runs_bind. eapply runs_mono; [by apply (runs_add_pattern cmd chain0 ours u_gw u_oif u_src Hchain it)|].
  intros [[] it'] w1 (Hl1 & Hw1 & H); apply runs_ret; cbn [fst snd] in *; destruct H as [-> Ha]; [|by apply steps_same].
  eapply steps_rule; [done|done|done|done|exact Ha|done|by left| | |].
  - intros it' [= <-]. cbn. split_and!; try done. apply NoDup_app. split_and!; [done| |apply NoDup_singleton].
    by intros x Hx ->%list_elem_of_singleton.
  - cbn. intros q Hq. rewrite elem_of_app, list_elem_of_singleton. tauto.
  - cbn. rewrite elem_of_app, list_elem_of_singleton. split; [by left|by right].
Qed.
Lemma runs_delete_rule a r s w : env_ok w → relay a → entry_ok a r s → rs_rule r = Removing →
  runs (delete_rule (pat_of s a) s) w 
    (λ x w', steps a r s w (if x.1 then set_rs_rule Missing r else r, x.2) w' ∧ (x.2).1 = s.1).
Proof using Hchain.
  intros Hw Hr Hen Hm. pose proof Hen as [E1 E2 E3 E4 E5]. destruct s as [m [it|]]; [|by rewrite (proj2 E1) in Hm].
  unfold delete_rule. cbn [fst snd pat_of] in *. destruct (E4 it eq_refl) as (Hc & Hch & Hk & Hn). specialize (E5 it eq_refl).
  assert (pattern_for cfg a ∈ ipt_patterns it) as Hp by (rewrite E5, Hm; by right).
  assert (ours (pattern_for cfg a)) as Ho by by exists a.
  apply runs_bind. eapply runs_mono; [by apply (runs_del_pattern cmd chain0 ours u_gw u_oif u_src Hchain it)|].
  intros [[] it'] w1 (Hl1 & Hw1 & Ha & ->); apply runs_ret; cbn [fst snd] in *; (split; [|done]).
  - eapply steps_rule; [done|done|done|done|exact Ha|done|done|by apply without_ok|apply others_without|apply absent_without].
  - pose proof (set_rule_id r) as Er. rewrite Hm in Er. rewrite <-Er at 2.
    by eapply steps_rule; [done|done|done|done|exact Ha|done|right|done|apply others_refl|rewrite E5, Hm].
Qed.
Lemma runs_reconcile_rule a r s w : env_ok w → relay a → entry_ok a r s → rs_rule r = Removing →
  runs (reconcile_rule (pat_of s a) s) w (λ x w', steps a r s w (set_rs_rule (reconciled x.1) r, x.2) w').
Proof using Hchain.
  intros Hw Hr Hen Hm. pose proof Hen as [E1 E2 E3 E4 E5]. destruct s as [m [it|]]; [|by rewrite (proj2 E1) in Hm].
  unfold reconcile_rule. cbn [fst snd pat_of] in *. destruct (E4 it eq_refl) as (Hc & Hch & Hk & Hn). specialize (E5 it eq_refl).
  assert (pattern_for cfg a ∈ ipt_patterns it) as Hp by (rewrite E5, Hm; by right).
  assert (ours (pattern_for cfg a)) as Ho by by exists a.
  apply runs_bind. eapply runs_mono; [by apply (runs_reconcile_pattern cmd chain0 ours u_gw u_oif u_src Hchain it)|].
  intros [o it'] w1 (Hl1 & Hw1 & Ha & ->); apply runs_ret; cbn [fst snd] in *.
  destruct o as [[]|]; cbn [reconciled]; [rewrite bool_decide_false by done|rewrite bool_decide_true by done|rewrite bool_decide_false by done].
  - eapply steps_rule; [done|done|done|done|exact Ha|done|by left|done|apply others_refl|]. split; [by left|done].
  - eapply steps_rule; [done|done|done|done|exact Ha|done|done|by apply without_ok|apply others_without|apply absent_without].
  - eapply steps_rule; [done|done|done|done|exact Ha|done|by right|done|apply others_refl|]. split; [by right|done].
Qed.

(** * Routes *)
Lemma steps_route a d r m o w st m' v w' : later w w' → env_ok w' → a.1 = V4 d → entry_ok a r (m, o) → st ≠ NotNeeded → metric_ok m' →
  acts w w' (route_effect d m' v) → (st = Present → v = Some true) → (v ≠ Some false → live st) →
  (m' ≠ m → ¬ live (rs_route r)) → needs_route a = true →
  steps a r (m, o) w (set_rs_route st r, (m', o)) w'.
Proof.
  intros Hl Hw Ed [E1 E2 E3 E4 E5] Hst Hm' Ha Hp Hlv Hmm Hnr. split_and!; [done|done| |apply others_refl|].
  - constructor; cbn [fst snd rs_rule rs_route set_rs_route]; try done. rewrite Hnr. done.
  - eapply acts_mono; [exact Ha|]. intros K K' ((Hj & Hr & Hlo) & Hs & Hv). split.
    { split; [intros q _; by rewrite Hj|]. intros d' m1 Hd. apply Hr. congruence. }
    intros [H1 H2]. cbn [fst snd] in *. split; cbn [fst snd rs_rule set_rs_route rs_route]; [by rewrite Hj|].
    intros d' Ed'. rewrite Ed in Ed'. injection Ed' as <-. split.
    + intros ->%Hp. done.
    + intros m1 Hk. destruct (decide (m1 = m')) as [->|Hne].
      * left. split; [done|]. apply Hlv. intros ->. congruence.
      * destruct (Hs m1 Hne) as [E|[_ ?]]; [|by right]. rewrite E in Hk. apply (H2 d Ed) in Hk as [[-> Hk]|Hk]; [|right; by apply Hlo].
        exfalso. apply Hmm; [congruence|done].
Qed.

(** An address that has a route has the underlay's path. *)
Lemma route_path a r s : relay a → entry_ok a r s → rs_route r ≠ NotNeeded →
  ∃ x d, u = Some x ∧ a.1 = V4 d ∧ v4_ok d ∧ needs_route a = true ∧ path_ok u_gw u_oif u_src ∧
    ud_gateway x = u_gw ∧ ud_ifindex x = u_oif ∧ ud_prefsrc x = u_src.
Proof using Hpath Hv4.
  intros Hr [_ E2 _ _ _] Hn. destruct (needs_route a) eqn:En; [|by destruct Hn; apply E2].
  unfold u_gw, u_oif, u_src. destruct u as [x|] eqn:Eu; [|by unfold needs_route in En; rewrite Eu in En].
  unfold needs_route, is_v4 in En. rewrite Eu in En. destruct (a.1) as [d|] eqn:Ed; [|done].
  exists x, d. split_and!; try done; [by apply (Hv4 a)|by apply Hpath].
Qed.

Lemma runs_install a d m n w : env_ok w → path_ok u_gw u_oif u_src → v4_ok d → a.1 = V4 d → metric_ok m → ∀ x,
  ud_gateway x = u_gw → ud_ifindex x = u_oif → ud_prefsrc x = u_src →
  runs (install_owned_route n x a m) w (λ r w', later w w' ∧ env_ok w' ∧ metric_ok r.2 ∧
    acts w w' (if r.1 then route_effect d r.2 (Some true) else losses d)).
Proof.
  intros Hw Hp Hd Ed Hm x Eg Eo Es. revert m w Hw Hm. induction n as [|n IH]; intros m w Hw Hm; cbn [install_owned_route]; rewrite Ed.
  { apply runs_ret. split_and!; [done|done|done|]. apply acts_refl; [done|]. apply losses_refl. }
  rewrite Eg, Eo, Es. apply runs_bind. eapply runs_mono; [by apply (runs_create_route cmd chain0 ours u_gw u_oif u_src)|].
  intros [e|] w1 (Hl1 & Hw1 & Ha); [|by apply runs_ret]. case_bool_decide as He; [|by apply runs_ret].
  eapply runs_mono; [apply IH; [done|apply next_metric_ok]|]. intros r w2 (Hl2 & Hw2 & Hm2 & Ha2).
  split_and!; [by transitivity w1|done|done|]. eapply acts_trans; [exact Ha|exact Ha2|]. intros K1 K2 K3.
  destruct (r.1); [apply losses_then|apply losses_trans].
Qed.

Lemma runs_add_route a r s w : env_ok w → relay a → entry_ok a r s → rs_route r = Missing →
  runs (add_route u a s) w (λ x w', steps a r s w (if x.1 then set_rs_route Present r else r, x.2) w').
Proof using Hpath Hv4.
  intros Hw Hr Hen Hm. destruct (route_path a r s Hr Hen ltac:(congruence)) as (x & d & Eu & Ed & Hd & Hnr & Hp & Eg & Eo & Es).
  unfold add_route. rewrite Eu at 1. destruct s as [m o]. cbn [fst snd]. apply runs_bind.
  eapply runs_mono; [eapply (runs_install a d m); [done|done|done|done|apply (en_metric _ _ _ Hen)|done..]|].
  intros [[] m'] w1 (Hl1 & Hw1 & Hm1 & Ha); apply runs_ret; cbn [fst snd] in *.
  - eapply steps_route; [done|done|exact Ed|done|done|done|exact Ha|done|by left| |done]. intros _ [|]; congruence.
  - split_and!; [done|done| |apply others_refl|].
    + destruct Hen as [E1 E2 E3 E4 E5]. by constructor.
    + eapply acts_mono; [exact Ha|]. intros K K' [(Hj & Hro & Hlo) Hs]. split.
      { split; [intros q _; by rewrite Hj|]. intros d' m1 Hd'. apply Hro. congruence. }
      intros [H1 H2]. split; [by rewrite Hj|]. cbn [fst snd] in *.
      intros d' Ed'. rewrite Ed in Ed'. injection Ed' as <-. split; [congruence|]. intros m1 Hk. destruct (Hs m1) as [E|[_ ?]]; [|by right].
      rewrite E in Hk. apply (H2 d Ed) in Hk as [[_ [|]]|?]; [congruence|congruence|]. right. by apply Hlo.
Qed.
Lemma runs_delete_own_route a r s w : env_ok w → relay a → entry_ok a r s → rs_route r = Removing →
  runs (delete_route u a s) w 
    (λ x w', steps a r s w (if x.1 then set_rs_route Missing r else r, x.2) w' ∧ (x.2).1 = s.1).
Proof using Hpath Hv4.
  intros Hw Hr Hen Hm. destruct (route_path a r s Hr Hen ltac:(congruence)) as (x & d & Eu & Ed & Hd & Hnr & Hp & Eg & Eo & Es).
  unfold delete_route. rewrite Eu at 1. rewrite Ed, Eg, Eo. destruct s as [m o]. cbn [fst snd]. apply runs_bind.
  eapply runs_mono; [eapply (runs_delete_route cmd chain0 ours u_gw u_oif u_src d m); [done|done|done|apply (en_metric _ _ _ Hen)]|].
  intros res w1 (Hl1 & Hw1 & Ha). apply runs_ret. split; [|done]. cbn [fst snd]. destruct res as [e|].
  - pose proof (set_route_id r) as Er. rewrite Hm in Er. rewrite <-Er at 2.
    eapply steps_route; [done|done|exact Ed|done|done|apply (en_metric _ _ _ Hen)|exact Ha|done|by right|done|done].
  - eapply steps_route; [done|done|exact Ed|done|done|apply (en_metric _ _ _ Hen)|exact Ha|done|done|done|done].
Qed.
Lemma runs_reconcile_route a r s w : env_ok w → relay a → entry_ok a r s → rs_route r = Removing →
  runs (reconcile_route u a s) w (λ x w', steps a r s w (set_rs_route (reconciled x.1) r, x.2) w').
Proof using Hpath Hv4.
  intros Hw Hr Hen Hm. destruct (route_path a r s Hr Hen ltac:(congruence)) as (x & d & Eu & Ed & Hd & Hnr & Hp & Eg & Eo & Es).
  unfold reconcile_route. rewrite Eu at 1. rewrite Ed, Eg, Eo, Es. destruct s as [m o]. cbn [fst snd]. apply runs_bind.
  eapply runs_mono; [eapply (runs_route_exists cmd chain0 ours u_gw u_oif u_src d m); [done|done|done|apply (en_metric _ _ _ Hen)]|].
  intros res w1 (Hl1 & Hw1 & Ha). apply runs_ret. cbn [fst snd].
  assert (acts w w1 (route_effect d m res)) as Ha'.
  { eapply acts_mono; [exact Ha|]. intros K K' [-> H]. split_and!; try done; [intros m' _; by left|]. destruct res as [b|]; [by apply H|done]. }
  pose proof (en_metric _ _ _ Hen) as Hmo. cbn in Hmo.
  destruct res as [[]|]; cbn [reconciled]; (eapply steps_route; [done|done|exact Ed|done|done|done|exact Ha'|done| |done|done]); [by left|done|by right].
Qed.

(** * The resources of one address *)
Lemma pat_steps a r s w x w' : steps a r s w x w' → pat_of x.2 a = pat_of s a.
Proof. intros (_ & _ & _ & Ho & _). unfold pat_of. by destruct (s.2), ((x.2).2). Qed.

Lemma runs_reconcile a r s w : env_ok w → relay a → entry_ok a r s →
  runs (attempt_reconcile_for_retain (reconcile_route u a) (reconcile_rule (pat_of s a)) r s) w (steps a r s w).
Proof using Hchain Hpath Hv4.
  intros Hw Hr Hen. unfold attempt_reconcile_for_retain. destruct (rs_releasing r); [by apply runs_ret, steps_refl|].
  assert (∀ r1 s1 w1, steps a r s w (r1, s1) w1 →
    runs (if bool_decide (rs_rule r1 = Removing) then
            x ← reconcile_rule (pat_of s a) s1; mret (set_rs_rule (reconciled x.1) r1, x.2) else mret (r1, s1)) w1 (steps a r s w)) as Hk.
  { intros r1 s1 w1 Hs. case_bool_decide as Hm; [|by apply runs_ret]. rewrite <-(pat_steps _ _ _ _ _ _ Hs). pose proof Hs as (_ & Hw1 & Hen1 & _).
    apply runs_bind. eapply runs_mono; [by apply (runs_reconcile_rule a r1 s1)|]. intros x w2 Hs2. apply runs_ret. by eapply (steps_trans a r s w (r1, s1)). }
  apply runs_bind. case_bool_decide as Hm; [|by apply runs_ret, Hk, steps_refl].
  apply runs_bind. eapply runs_mono; [by apply runs_reconcile_route|]. intros x w1 Hs. apply runs_ret. by apply Hk.
Qed.
Lemma runs_adds a r s w : env_ok w → relay a → entry_ok a r s →
  runs (attempt_adds (add_route u a) (add_rule (pat_of s a)) r s) w (steps a r s w).
Proof using Hchain Hpath Hv4.
  intros Hw Hr Hen. unfold attempt_adds. destruct (rs_releasing r); [by apply runs_ret, steps_refl|].
  assert (∀ r1 s1 w1, steps a r s w (r1, s1) w1 →
    runs (if bool_decide (rs_rule r1 = Missing) then
            x ← add_rule (pat_of s a) s1; mret (if x.1 : bool then set_rs_rule Present r1 else r1, x.2) else mret (r1, s1)) w1 (steps a r s w)) as Hk.
  { intros r1 s1 w1 Hs. case_bool_decide as Hm; [|by apply runs_ret]. rewrite <-(pat_steps _ _ _ _ _ _ Hs). pose proof Hs as (_ & Hw1 & Hen1 & _).
    apply runs_bind. eapply runs_mono; [by apply (runs_add_rule a r1 s1)|]. intros x w2 Hs2. apply runs_ret. by eapply (steps_trans a r s w (r1, s1)). }
  apply runs_bind. case_bool_decide as Hm; [|by apply runs_ret, Hk, steps_refl].
  apply runs_bind. eapply runs_mono; [by apply runs_add_route|]. intros x w1 Hs. apply runs_ret. by apply Hk.
Qed.
Lemma runs_cleanup a r s w : env_ok w → relay a → entry_ok a r s →
  runs (attempt_cleanup (delete_route u a) (delete_rule (pat_of s a)) r s) w (λ x w', steps a r s w x w' ∧ (x.2).1 = s.1).
Proof using Hchain Hpath Hv4.
  intros Hw Hr Hen. unfold attempt_cleanup. destruct (rs_releasing r); cbn [negb]; [|by apply runs_ret; split; [apply steps_refl|]].
  assert (∀ r1 s1 w1, steps a r s w (r1, s1) w1 → s1.1 = s.1 →
    runs (if bool_decide (rs_rule r1 = Removing) then
            x ← delete_rule (pat_of s a) s1; mret (if x.1 : bool then set_rs_rule Missing r1 else r1, x.2) else mret (r1, s1)) w1
      (λ x w', steps a r s w x w' ∧ (x.2).1 = s.1)) as Hk.
  { intros r1 s1 w1 Hs Em. case_bool_decide as Hm; [|by apply runs_ret]. rewrite <-(pat_steps _ _ _ _ _ _ Hs). pose proof Hs as (_ & Hw1 & Hen1 & _).
    apply runs_bind. eapply runs_mono; [by apply (runs_delete_rule a r1 s1)|]. intros x w2 [Hs2 Em2]. apply runs_ret. split; [by eapply (steps_trans a r s w (r1, s1))|cbn; congruence]. }
  apply runs_bind. case_bool_decide as Hm; [|by apply runs_ret, Hk; [apply steps_refl|]].
  apply runs_bind. eapply runs_mono; [by apply runs_delete_own_route|]. intros x w1 [Hs Em]. apply runs_ret. by apply Hk.
Qed.

(** * The table *)
Record book (self : Client) : Prop := {
  bk_cfg : cl_cfg self = cfg;
  bk_underlay : cl_underlay self = u;
  bk_nodup : NoDup (in_addr <$> cl_installed self);
  bk_relay i : i ∈ cl_installed self → relay (in_addr i);
  bk_pat i : i ∈ cl_installed self → in_rule_pattern i = pat_of (0, cl_ipt self) (in_addr i);
  bk_entry i : i ∈ cl_installed self → entry_ok (in_addr i) (in_resources i) (in_route_metric i, cl_ipt self);
  bk_ipt : ipt_ok (cl_ipt self);
  bk_absent a it : cl_ipt self = Some it → relay a → entry self a = None → pattern_for cfg a ∉ ipt_patterns it }.

Lemma entry_some self a i : NoDup (in_addr <$> cl_installed self) →
  entry self a = Some i ↔ i ∈ cl_installed self ∧ in_addr i = a.
Proof.
  intros Hn. unfold entry. split.
  - intros ([j x] & (E & Ha & _)%list_find_Some & [= <-])%fmap_Some. split; [by eapply list_elem_of_lookup_2|done].
  - intros [(j & Hj)%list_elem_of_lookup_1 Ha]. apply fmap_Some. exists (j, i). split; [|done]. apply list_find_Some. split_and!; [done|done|].
    intros k y Hk Hlt Hy. assert (k = j); [|lia]. eapply (NoDup_lookup _ k j a Hn); rewrite list_lookup_fmap; [by rewrite Hk, <-Hy|by rewrite Hj, <-Ha].
Qed.
Lemma entry_none self a : entry self a = None ↔ a ∉ in_addr <$> cl_installed self.
Proof.
  unfold entry. rewrite fmap_None, list_find_None, Forall_forall. split.
  - intros H (i & -> & Hi)%list_elem_of_fmap. by apply (H i).
  - intros H i Hi E. apply H. rewrite <-E. by apply list_elem_of_fmap_2.
Qed.
Lemma position_entry self a : NoDup (in_addr <$> cl_installed self) →
  match position self a with
  | Some pos => ∃ i, cl_installed self !! pos = Some i ∧ in_addr i = a ∧ entry self a = Some i
  | None => entry self a = None
  end.
Proof.
  intros Hn. unfold position, entry. destruct (list_find _ _) as [[pos i]|] eqn:E; cbn; [|done].
  apply list_find_Some in E as (? & ? & _). by exists i.
Qed.

Lemma insert_other {A} (l : list A) pos x y i : l !! pos = Some i → y ∈ <[pos := x]> l → y = x ∨ ∃ k, k ≠ pos ∧ l !! k = Some y.
Proof.
  intros Hp (k & Hk)%list_elem_of_lookup_1. destruct (decide (k = pos)) as [->|Hne].
  - left. rewrite list_lookup_insert_eq in Hk by by eapply lookup_lt_Some. congruence.
  - right. exists k. by rewrite list_lookup_insert_ne in Hk.
Qed.
(** A record replaced by one of the same address. *)
Definition replaced (self : Client) (pos : nat) (o : option Iptables) (i' : Installed) : Client :=
  put_installed (set_cl_ipt o self) pos i'.
Lemma addrs_replaced self pos o i i' : cl_installed self !! pos = Some i → in_addr i' = in_addr i →
  in_addr <$> cl_installed (replaced self pos o i') = in_addr <$> cl_installed self.
Proof.
  intros Hp Ha. unfold replaced, put_installed. cbn [cl_installed set_cl_installed set_cl_ipt]. rewrite list_fmap_insert, Ha.
  apply list_insert_id. by rewrite list_lookup_fmap, Hp.
Qed.
Lemma entry_replaced self pos o i i' b : NoDup (in_addr <$> cl_installed self) → cl_installed self !! pos = Some i → in_addr i' = in_addr i →
  entry (replaced self pos o i') b = if bool_decide (b = in_addr i) then Some i' else entry self b.
Proof.
  intros Hn Hp Ha. pose proof (addrs_replaced self pos o i i' Hp Ha) as Ea.
  assert (NoDup (in_addr <$> cl_installed (replaced self pos o i'))) as Hn' by by rewrite Ea.
  case_bool_decide as Hb.
  - apply entry_some; [done|]. split; [|congruence]. unfold replaced, put_installed. cbn. apply list_elem_of_lookup. exists pos.
    apply list_lookup_insert_eq. by eapply lookup_lt_Some.
  - destruct (entry self b) as [x|] eqn:E.
    + apply entry_some in E as [(k & Hk)%list_elem_of_lookup_1 Hx]; [|done]. apply entry_some; [done|]. split; [|done].
      unfold replaced, put_installed. cbn. apply list_elem_of_lookup. exists k. rewrite list_lookup_insert_ne; [done|]. intros ->. congruence.
    + apply entry_none. rewrite Ea. by apply entry_none.
Qed.

Lemma entry_others a b r m o o' : relay a → relay b → a ≠ b → others a o o' → ipt_ok o' → entry_ok b r (m, o) → entry_ok b r (m, o').
Proof using Hclient Hport.
  intros Ha Hb Hne Ho Hok [E1 E2 E3 E4 E5]. destruct (relay_apart a b Ha Hb Hne) as [Hp _]. constructor; cbn [fst snd] in *; try done.
  - rewrite E1. by destruct o, o'.
  - intros it' ->. destruct o as [it|]; [|done]. rewrite (Ho (pattern_for cfg b)) by done. by apply E5.
Qed.
Lemma pat_others o o' a b m m' : others a o o' → pat_of (m, o') b = pat_of (m', o) b.
Proof. by destruct o, o'. Qed.
Lemma absent_others self self' a o : book self → relay a → cl_ipt self' = o → others a (cl_ipt self) o →
  (∀ b, b ≠ a → entry self' b = entry self b) →
  ∀ b it, o = Some it → relay b → b ≠ a → entry self' b = None → pattern_for cfg b ∉ ipt_patterns it.
Proof using Hclient Hport.
  intros Hb Ha Eo Ho He b it -> Hrb Hne Hn. destruct (relay_apart a b Ha Hrb ltac:(congruence)) as [Hp _].
  destruct (cl_ipt self) as [it0|] eqn:E0; [|done]. rewrite (Ho (pattern_for cfg b)) by done.
  apply (bk_absent _ Hb b it0); [done|done|]. by rewrite <-He.
Qed.

Lemma book_replaced self pos i r m o : book self → cl_installed self !! pos = Some i →
  entry_ok (in_addr i) r (m, o) → others (in_addr i) (cl_ipt self) o →
  book (replaced self pos o (mkInstalled (in_addr i) m (in_rule_pattern i) r)).
Proof using Hclient Hport.
  intros Hb Hp Hen Ho. set (i' := mkInstalled _ _ _ _). pose proof (list_elem_of_lookup_2 _ _ _ Hp) as Hi. pose proof (bk_relay _ Hb i Hi) as Hr.
  pose proof (addrs_replaced self pos o i i' Hp eq_refl) as Ea. pose proof Hb as [B1 B2 B3 B4 B5 B6 B7 B8].
  assert (∀ y, y ∈ cl_installed (replaced self pos o i') → y = i' ∨ y ∈ cl_installed self ∧ in_addr y ≠ in_addr i) as Hy.
  { intros y [->|(k & Hk & Hy)]%(insert_other _ _ _ _ i); [by left| |done]. change (cl_installed self !! k = Some y) in Hy. right.
    split; [by eapply list_elem_of_lookup_2|]. intros E. apply Hk. eapply (NoDup_lookup _ k pos (in_addr i) B3); rewrite list_lookup_fmap; [by rewrite Hy, <-E|by rewrite Hp]. }
  constructor; try done.
  - by rewrite Ea.
  - intros y [->|[Hy' _]]%Hy; [done|by apply B4].
  - intros y [->|[Hy' _]]%Hy; cbn [cl_ipt replaced put_installed set_cl_installed set_cl_ipt in_rule_pattern in_addr i'].
    + rewrite (B5 i Hi). symmetry. by eapply pat_others.
    + rewrite (B5 y Hy'). symmetry. by eapply pat_others.
  - intros y [->|[Hy' Hne]]%Hy; [done|]. change (cl_ipt (replaced _ _ _ _)) with o.
    apply (entry_others (in_addr i) _ _ _ (cl_ipt self)); try done; [by apply B4|apply (en_ipt _ _ _ Hen)|by apply B6].
  - apply (en_ipt _ _ _ Hen).
  - intros b it Eo Hrb He. change (cl_ipt (replaced _ _ _ _)) with o in Eo.
    assert (b ≠ in_addr i) as Hne.
    { intros ->. rewrite (entry_replaced self pos o i i') in He by done. by rewrite bool_decide_true in He. }
    apply (absent_others self (replaced self pos o i') (in_addr i) o Hb Hr eq_refl Ho); try done.
    intros c Hc. rewrite (entry_replaced self pos o i i') by done. by rewrite bool_decide_false.
Qed.

(** A record added for a new address, and a record removed. *)
Lemma entry_app self l b : entry (set_cl_installed (cl_installed self ++ l) self) b =
  match entry self b with Some i => Some i | None => snd <$> list_find (λ i, in_addr i = b) l end.
Proof.
  unfold entry. cbn [cl_installed set_cl_installed]. destruct (list_find (λ i, in_addr i = b) (cl_installed self)) as [[k i]|] eqn:E.
  - by rewrite (list_find_app_l _ _ _ _ _ E).
  - rewrite list_find_app_r by done. by destruct (list_find _ l) as [[]|].
Qed.
Definition added (self : Client) (i : Installed) : Client := set_cl_installed (cl_installed self ++ [i]) self.
Lemma entry_added self i b : entry self (in_addr i) = None →
  entry (added self i) b = if bool_decide (b = in_addr i) then Some i else entry self b.
Proof.
  intros Hn. unfold added. rewrite entry_app. case_bool_decide as Hb.
  - subst b. rewrite Hn. cbn. by rewrite decide_True.
  - destruct (entry self b); [done|]. cbn. rewrite decide_False by congruence. done.
Qed.
Lemma book_added self i : book self → relay (in_addr i) → entry self (in_addr i) = None →
  in_rule_pattern i = pat_of (0, cl_ipt self) (in_addr i) → entry_ok (in_addr i) (in_resources i) (in_route_metric i, cl_ipt self) →
  book (added self i).
Proof.
  intros [B1 B2 B3 B4 B5 B6 B7 B8] Hr Hn Hp Hen. constructor; try done; cbn [added cl_installed set_cl_installed cl_ipt].
  - rewrite fmap_app. apply NoDup_app. split_and!; [done| |apply NoDup_singleton].
    intros x Hx ->%list_elem_of_singleton. by apply entry_none in Hn.
  - intros y [Hy| ->%list_elem_of_singleton]%elem_of_app; auto.
  - intros y [Hy| ->%list_elem_of_singleton]%elem_of_app; auto.
  - intros y [Hy| ->%list_elem_of_singleton]%elem_of_app; auto.
  - intros b it Eo Hrb He. fold (added self i) in He. rewrite entry_added in He by done. case_bool_decide; [done|]. by eapply B8.
Qed.

Definition removed (self : Client) (pos : nat) : Client := set_cl_installed (delete pos (cl_installed self)) self.
Lemma delete_in {A} (l : list A) pos y i : l !! pos = Some i → y ∈ delete pos l ↔ ∃ k, k ≠ pos ∧ l !! k = Some y.
Proof.
  intros Hp. rewrite list_elem_of_lookup. split.
  - intros (k & Hk). destruct (decide (k < pos)%nat).
    + rewrite list_lookup_delete_lt in Hk by done. exists k. split; [lia|done].
    + rewrite list_lookup_delete_ge in Hk by lia. exists (S k). split; [lia|done].
  - intros (k & Hne & Hk). destruct (decide (k < pos)%nat).
    + exists k. by rewrite list_lookup_delete_lt.
    + exists (pred k). rewrite list_lookup_delete_ge by lia. by replace (S (pred k)) with k by lia.
Qed.
Lemma removed_in self pos i y : NoDup (in_addr <$> cl_installed self) → cl_installed self !! pos = Some i →
  y ∈ cl_installed (removed self pos) ↔ y ∈ cl_installed self ∧ in_addr y ≠ in_addr i.
Proof.
  intros Hn Hp. unfold removed. cbn [cl_installed set_cl_installed]. rewrite (delete_in _ _ _ i) by done. split.
  - intros (k & Hne & Hk). split; [by eapply list_elem_of_lookup_2|]. intros E. apply Hne.
    eapply (NoDup_lookup _ k pos (in_addr i) Hn); rewrite list_lookup_fmap; [by rewrite Hk, <-E|by rewrite Hp].
  - intros [(k & Hk)%list_elem_of_lookup_1 Hne]. exists k. split; [|done]. intros ->. congruence.
Qed.
Lemma removed_nodup self pos : NoDup (in_addr <$> cl_installed self) → NoDup (in_addr <$> cl_installed (removed self pos)).
Proof. intros Hn. unfold removed. cbn. eapply sublist_NoDup; [exact Hn|]. apply fmap_sublist, sublist_delete. Qed.
Lemma entry_removed self pos i b : NoDup (in_addr <$> cl_installed self) → cl_installed self !! pos = Some i →
  entry (removed self pos) b = if bool_decide (b = in_addr i) then None else entry self b.
Proof.
  intros Hn Hp. pose proof (removed_nodup self pos Hn) as Hn'. case_bool_decide as Hb.
  - apply entry_none. intros (y & -> & [_ Hy]%(removed_in _ _ i))%list_elem_of_fmap; done.
  - destruct (entry self b) as [x|] eqn:E.
    + apply entry_some in E as [Hx Ex]; [|done]. apply entry_some; [done|]. split; [|done]. apply (removed_in _ _ i); [done|done|]. split; [done|congruence].
    + apply entry_none. apply entry_none in E. intros (y & -> & [Hy _]%(removed_in _ _ i))%list_elem_of_fmap; [|done..].
      apply E. by apply list_elem_of_fmap_2.
Qed.
Lemma book_removed self pos i : book self → cl_installed self !! pos = Some i → ¬ live (rs_rule (in_resources i)) → book (removed self pos).
Proof.
  intros [B1 B2 B3 B4 B5 B6 B7 B8] Hp Hl.
  assert (∀ y, y ∈ cl_installed (removed self pos) → y ∈ cl_installed self) as Hy by (intros y [? _]%(removed_in _ _ i); done).
  constructor; try done; [by apply removed_nodup|auto..|].
  intros b it Eo Hrb He. rewrite (entry_removed self pos i b) in He by done. case_bool_decide as Hb; [|by eapply B8].
  subst b. rewrite (en_pattern _ _ _ (B6 i (list_elem_of_lookup_2 _ _ _ Hp)) it Eo). done.
Qed.

(** * Operations on the table *)
Definition resourced (self self' : Client) : Prop := ∃ l o, self' = set_cl_installed l (set_cl_ipt o self).
Lemma resourced_refl self : resourced self self.
Proof. exists (cl_installed self), (cl_ipt self). by destruct self. Qed.
Lemma resourced_trans s1 s2 s3 : resourced s1 s2 → resourced s2 s3 → resourced s1 s3.
Proof. intros (l1 & o1 & ->) (l2 & o2 & ->). by exists l2, o2. Qed.
Lemma ready_entry self a : endpoint_resources_ready self a = from_option (λ i, ready (in_resources i)) false (entry self a).
Proof. unfold endpoint_resources_ready, entry. by destruct (list_find _ _) as [[]|]. Qed.

(** What an operation does: the table stays right, and addresses that are ready and not
    given up stay as they are. *)
Record kstep (given_up : SocketAddr → Prop) (w : World) (self self' : Client) (w' : World) : Prop := {
  ks_later : later w w';
  ks_env : env_ok w';
  ks_frame : resourced self self';
  ks_book : book self';
  ks_keep b : ¬ given_up b → endpoint_resources_ready self b = true → entry self' b = entry self b;
  ks_acts : acts w w' (λ K K', tracked self K → tracked self' K') }.
Lemma kstep_refl g w self : env_ok w → book self → kstep g w self self w.
Proof. intros. constructor; try done; [apply resourced_refl|]. by apply acts_refl. Qed.
Lemma kstep_trans g w self w1 self1 self' w' : kstep g w self self1 w1 → kstep g w1 self1 self' w' → kstep g w self self' w'.
Proof.
  intros [L1 E1 F1 B1 K1 A1] [L2 E2 F2 B2 K2 A2]. constructor; [by transitivity w1|done|by eapply resourced_trans|done| |].
  - intros b Hb Hr. rewrite K2; [by apply K1|done|]. rewrite ready_entry, K1, <-ready_entry by done. done.
  - eapply acts_trans; [exact A1|exact A2|]. auto.
Qed.
Lemma kstep_mono (g g' : SocketAddr → Prop) w self self' w' : (∀ b, g b → g' b) → kstep g w self self' w' → kstep g' w self self' w'.
Proof. intros Hg [L F B K A]. constructor; auto. Qed.

Lemma tracked_step self self' a K K' : relay a → only a K K' → (∀ b, b ≠ a → entry self' b = entry self b) →
  (holds (view self a) a K → holds (view self' a) a K') → tracked self K → tracked self' K'.
Proof using Hclient Hport.
  intros Ha [Hj Hr] He Hh Ht b Hb. destruct (decide (b = a)) as [->|Hne]; [by apply Hh, Ht|].
  unfold view. rewrite He by done. destruct (relay_apart a b Ha Hb ltac:(done)) as [Hp Hd].
  destruct (Ht b Hb) as [H1 H2]. split; [by rewrite Hj by done|]. intros d Ed.
  assert (∀ m, k_routes K' d m = k_routes K d m ∧ k_lost K' d m = k_lost K d m) as Em by (intros m; apply Hr; intros E; by apply (Hd d)).
  destruct (H2 d Ed) as [H3 H4]. split; [intros Hp'; rewrite (proj1 (Em _)); by apply H3|]. intros m. destruct (Em m) as [-> ->]. apply H4.
Qed.
Lemma entry_cancel a r s : entry_ok a r s → entry_ok a (cancel_release r) s.
Proof. intros [E1 E2 E3 E4 E5]. by constructor. Qed.
Lemma cancel_ready r : ready r = true → cancel_release r = r.
Proof. destruct r as [x y []]; cbn; [done|]. done. Qed.
Lemma reconcile_ready {S : Type} (f g : S → Io (ReconcileResult * S)) r s : ready r = true → attempt_reconcile_for_retain f g r s = mret (r, s).
Proof. destruct r as [[] [] []]; intros [=]; done. Qed.
Lemma adds_ready {S : Type} (f g : S → Io (bool * S)) r s : ready r = true → attempt_adds f g r s = mret (r, s).
Proof. destruct r as [[] [] []]; intros [=]; done. Qed.

Lemma kstep_replaced (g : SocketAddr → Prop) w self pos i x w' : book self → cl_installed self !! pos = Some i →
  steps (in_addr i) (in_resources i) (in_route_metric i, cl_ipt self) w x w' →
  (¬ g (in_addr i) → ready (in_resources i) = true → x = (in_resources i, (in_route_metric i, cl_ipt self))) →
  let self' := replaced self pos (x.2).2 (mkInstalled (in_addr i) (x.2).1 (in_rule_pattern i) x.1) in
  kstep g w self self' w' ∧ (∀ b, b ≠ in_addr i → entry self' b = entry self b) ∧
  entry self' (in_addr i) = Some (mkInstalled (in_addr i) (x.2).1 (in_rule_pattern i) x.1).
Proof using Hclient Hport.
  intros Hb Hp (Hl & Hw' & Hen & Ho & Ha) Hrd. set (i' := mkInstalled _ _ _ _). pose proof (bk_nodup _ Hb) as Hn.
  pose proof (list_elem_of_lookup_2 _ _ _ Hp) as Hi. cbv zeta. set (self' := replaced _ _ _ _).
  assert (∀ b, entry self' b = if bool_decide (b = in_addr i) then Some i' else entry self b) as He.
  { intros b. by apply (entry_replaced self pos _ i i'). }
  assert (entry self (in_addr i) = Some i) as Hei by by apply entry_some.
  split_and!; [|intros b Hne; by rewrite He, bool_decide_false by done|by rewrite He, bool_decide_true].
  constructor; [done|done|by eexists _, _| | |].
  - apply (book_replaced self pos i x.1 (x.2).1 (x.2).2); try done. by destruct x as [? []].
  - intros b Hg Hr. rewrite He. case_bool_decide as Hba; [|done]. subst b. rewrite ready_entry, Hei in Hr. cbn in Hr.
    rewrite Hei. unfold i'. rewrite (Hrd Hg Hr). cbn. by destruct i.
  - eapply acts_mono; [exact Ha|]. intros K K' [Ho' Hh] Ht. eapply (tracked_step self _ (in_addr i)); [by apply (bk_relay _ Hb)|exact Ho'| | |done].
    + intros b Hne. by rewrite He, bool_decide_false.
    + unfold view. rewrite He, Hei, bool_decide_true by done. exact Hh.
Qed.

Lemma runs_ensure_at self pos i w : env_ok w → book self → cl_installed self !! pos = Some i →
  runs (ensure_at self pos (in_addr i)) w (λ x w', kstep (λ _, False) w self x.2 w' ∧ ∀ b, b ≠ in_addr i → entry x.2 b = entry self b).
Proof using Hclient Hport Hchain Hpath Hv4.
  intros Hw Hb Hp. pose proof (list_elem_of_lookup_2 _ _ _ Hp) as Hi. pose proof Hb as [B1 B2 B3 B4 B5 B6 B7 B8].
  unfold ensure_at, installed_at. rewrite Hp. apply runs_bind. eapply runs_lift; [done|]. rewrite B2, (B5 i Hi).
  change (pat_of (0, cl_ipt self) (in_addr i)) with (pat_of (in_route_metric i, cl_ipt self) (in_addr i)).
  set (s := (in_route_metric i, cl_ipt self)). set (a := in_addr i). pose proof (entry_cancel _ _ _ (B6 i Hi)) as Hen. fold s a in Hen.
  assert (runs (r ← attempt_reconcile_for_retain (reconcile_route u a) (reconcile_rule (pat_of s a)) (cancel_release (in_resources i)) s;
    attempt_adds (add_route u a) (add_rule (pat_of s a)) r.1 r.2) w (λ x w', steps a (in_resources i) s w x w' ∧ (ready (in_resources i) = true → x = (in_resources i, s)))) as Hrun.
  { destruct (ready (in_resources i)) eqn:Er.
    - rewrite cancel_ready, reconcile_ready by done. apply runs_bind, runs_ret. cbn [fst snd]. rewrite adds_ready by done. apply runs_ret.
      split; [|done]. apply steps_refl; [done|]. by apply B6.
    - apply runs_bind. eapply runs_mono; [by apply runs_reconcile; [|apply B4|]|]. intros x w1 Hs. pose proof Hs as (_ & Hw1 & Hen1 & _).
      rewrite <-(pat_steps _ _ _ _ _ _ Hs). eapply runs_mono; [by apply runs_adds; [|apply B4|]|]. intros y w2 Hs2. split; [|done].
      by eapply steps_trans. }
  apply runs_assoc, runs_bind. eapply runs_mono; [exact Hrun|]. intros x w' [Hs Hrd]. apply runs_ret.
  cbn [snd]. change (pat_of s a) with (pat_of (0, cl_ipt self) (in_addr i)). rewrite <-(B5 i Hi).
  destruct (kstep_replaced (λ _, False) w self pos i x w' Hb Hp Hs (λ _, Hrd)) as (Hk & He & _). by split.
Qed.

Lemma new_entry_ok self a : book self → relay a → entry self a = None →
  entry_ok a (Resources_new (route_needed self a) (is_some (rule_pattern_for self a))) (owned_metric (cl_const_id self), cl_ipt self).
Proof.
  intros [B1 B2 B3 B4 B5 B6 B7 B8] Hr Hn. unfold Resources_new, route_needed, rule_pattern_for. rewrite B2. fold (needs_route a).
  constructor; cbn [fst snd rs_rule rs_route]; [by destruct (cl_ipt self)|by destruct (needs_route a)|apply owned_metric_ok|done|].
  intros it Eo. rewrite Eo. cbn. split; [|by intros [|]]. intros Hin. by apply (B8 a it Eo Hr) in Hn.
Qed.
Lemma kstep_added g w self i : env_ok w → book self → relay (in_addr i) → entry self (in_addr i) = None →
  in_rule_pattern i = rule_pattern_for self (in_addr i) → in_route_metric i = owned_metric (cl_const_id self) →
  in_resources i = Resources_new (route_needed self (in_addr i)) (is_some (rule_pattern_for self (in_addr i))) →
  kstep g w self (added self i) w.
Proof using Hclient Hport.
  intros Hw Hb Hr Hn Hp Hm Hres. pose proof (new_entry_ok self _ Hb Hr Hn) as Hen. constructor; try done.
  - exists (cl_installed self ++ [i]), (cl_ipt self). done.
  - apply book_added; try done; [|by rewrite Hres, Hm]. rewrite Hp. unfold rule_pattern_for. by rewrite (bk_cfg _ Hb).
  - intros b _ Hrd. rewrite entry_added by done. case_bool_decide as Hba; [|done]. subst b. by rewrite ready_entry, Hn in Hrd.
  - apply acts_refl; [done|]. intros K. apply (tracked_step _ _ (in_addr i)); [done|done| |].
    + intros b Hne. by rewrite entry_added, bool_decide_false.
    + unfold view. rewrite entry_added, Hn, bool_decide_true by done. cbn [from_option]. unfold view_of. rewrite Hres.
      intros [[_ H1] H2]. split; cbn [fst snd nothing rs_rule rs_route Resources_new] in *.
      * split; [by destruct (is_some _)|]. intros [|]%H1; done.
      * intros d Ed. destruct (H2 d Ed) as [_ H3]. split; [by destruct (route_needed _ _)|]. intros m [[_ [|]]|?]%H3; try done. by right.
Qed.

Lemma runs_ensure self a w : env_ok w → book self → relay a →
  runs (ensure_installed self a) w (λ x w', kstep (λ _, False) w self x.2 w' ∧ ∀ b, b ≠ a → entry x.2 b = entry self b).
Proof using Hclient Hport Hchain Hpath Hv4.
  intros Hw Hb Hr. unfold ensure_installed. pose proof (position_entry self a (bk_nodup _ Hb)) as Hpos.
  destruct (position self a) as [pos|].
  - destruct Hpos as (i & Hp & <- & _). by apply runs_ensure_at.
  - cbv zeta. set (i := mkInstalled _ _ _ _). fold (added self i).
    assert (cl_installed (added self i) !! (length (cl_installed (added self i)) - 1)%nat = Some i) as Hp.
    { unfold added. cbn. rewrite length_app, lookup_app_r by (cbn; lia). cbn. by replace (_ - _)%nat with 0%nat by lia. }
    pose proof (kstep_added (λ _, False) w self i Hw Hb Hr Hpos eq_refl eq_refl eq_refl) as Hk.
    change a with (in_addr i) at 1. eapply runs_mono; [apply (runs_ensure_at (added self i)); [done|apply Hk|exact Hp]|].
    intros x w' [Hk' He]. split; [by eapply kstep_trans|]. intros b Hne. rewrite He by done. by rewrite entry_added, bool_decide_false.
Qed.

(** ** Giving an address up *)
Lemma put_replaced self pos i' : put_installed self pos i' = replaced self pos (cl_ipt self) i'.
Proof. done. Qed.
Lemma release_ok a r s : entry_ok a r s → entry_ok a (begin_release r) s.
Proof.
  intros [E1 E2 E3 E4 E5]. constructor; try done.
  - rewrite <-E1. by destruct r as [[] [] []].
  - rewrite <-E2. by destruct r as [[] [] []].
  - intros it Eo. rewrite (E5 it Eo). unfold live. destruct r as [[] [] []]; cbn; tauto.
Qed.
Lemma release_holds a r m K : holds (r, m) a K → holds (begin_release r, m) a K.
Proof.
  intros [[_ H1] H2]. split; cbn [fst snd] in *.
  - split; [by destruct r as [[] [] []]|]. intros Hj%H1. revert Hj. unfold live. destruct r as [[] [] []]; cbn; tauto.
  - intros d Ed. destruct (H2 d Ed) as [_ H3]. split; [by destruct r as [[] [] []]|]. intros m' Hm'. apply H3 in Hm' as [[-> Hl]|?]; [left|by right].
    split; [done|]. revert Hl. unfold live. destruct r as [[] [] []]; cbn; tauto.
Qed.
Lemma begin_releasing r : rs_releasing (begin_release r) = true.
Proof. by destruct r as [[] [] []]. Qed.
Lemma releasing_not_ready r : rs_releasing r = true → ready r = false.
Proof. destruct r as [? ? []]; done. Qed.
Lemma complete_absent r : cleanup_complete r = true → ¬ live (rs_rule r) ∧ ¬ live (rs_route r).
Proof. destruct r as [[] [] []]; intros [=]; split; by intros [|]. Qed.
Lemma holds_gone a r m K : ¬ live (rs_rule r) → ¬ live (rs_route r) → holds (r, m) a K → holds nothing a K.
Proof.
  intros H1 H2 [[_ H3] H4]. split; cbn [fst snd] in *.
  - split; [done|]. by intros ?%H3.
  - intros d Ed. destruct (H4 d Ed) as [_ H5]. split; [done|]. intros m' [[_ ?]|?]%H5; [done|by right].
Qed.

Definition leaving (self : Client) (a : SocketAddr) : Prop := ∀ i, entry self a = Some i → rs_releasing (in_resources i) = true.
Lemma cleanup_releasing {S : Type} (f g : S → Io (bool * S)) r s w x w' : attempt_cleanup f g r s w = Done (x, w') → rs_releasing x.1 = rs_releasing r.
Proof.
  unfold attempt_cleanup. destruct (negb _); [by intros [= <- _]|]. intros ([r1 s1] & w1 & E1 & E2)%io_bind_inv.
  assert (rs_releasing r1 = rs_releasing r) as Hr.
  { destruct (bool_decide (rs_route r = Removing)); [apply io_bind_inv in E1 as (y & w2 & _ & E1)|]; inversion E1; [|done]. by destruct (y.1). }
  case_bool_decide; [apply io_bind_inv in E2 as (y & w2 & _ & E2)|]; inversion E2; cbn; [|done]. by destruct (y.1).
Qed.

Lemma kstep_removed g w self pos i : env_ok w → book self → cl_installed self !! pos = Some i → cleanup_complete (in_resources i) = true →
  kstep g w self (removed self pos) w ∧ (∀ b, b ≠ in_addr i → entry (removed self pos) b = entry self b) ∧ entry (removed self pos) (in_addr i) = None.
Proof using Hclient Hport.
  intros Hw Hb Hp Hc. destruct (complete_absent _ Hc) as [Hlr Hlo]. pose proof (bk_nodup _ Hb) as Hn.
  pose proof (λ b, entry_removed self pos i b Hn Hp) as He. pose proof (list_elem_of_lookup_2 _ _ _ Hp) as Hi.
  assert (entry self (in_addr i) = Some i) as Hei by by apply entry_some.
  split_and!; [|intros b Hne; by rewrite He, bool_decide_false|by rewrite He, bool_decide_true].
  constructor; [done|done| | | |].
  - exists (delete pos (cl_installed self)), (cl_ipt self). done.
  - by apply (book_removed _ _ i).
  - intros b _ Hrd. rewrite He. case_bool_decide as Hba; [|done]. exfalso. subst b. rewrite ready_entry, Hei in Hrd. cbn in Hrd.
    unfold cleanup_complete in Hc. apply andb_true_iff in Hc as [[Hc _]%andb_true_iff _]. by rewrite releasing_not_ready in Hrd.
  - apply acts_refl; [done|]. intros K. apply (tracked_step _ _ (in_addr i)); [by apply (bk_relay _ Hb)|done| |].
    + intros b Hne. by rewrite He, bool_decide_false.
    + unfold view. rewrite He, Hei, bool_decide_true by done. by apply holds_gone.
Qed.

Lemma runs_retry_addr self a w : env_ok w → book self →
  runs (retry_cleanup_addr self a) w (λ self' w', kstep (λ _, False) w self self' w' ∧ (∀ b, b ≠ a → entry self' b = entry self b) ∧
    (leaving self a → leaving self' a)).
Proof using Hclient Hport Hchain Hpath Hv4.
  intros Hw Hb. unfold retry_cleanup_addr. pose proof (position_entry self a (bk_nodup _ Hb)) as Hpos.
  destruct (position self a) as [pos|]; [|apply runs_ret; split_and!; [by apply kstep_refl|done|done]].
  destruct Hpos as (i & Hp & <- & Hei). unfold installed_at. rewrite Hp. apply runs_bind. eapply runs_lift; [done|].
  destruct (rs_releasing (in_resources i)) eqn:Erel; cbn [negb]; [|apply runs_ret; split_and!; [by apply kstep_refl|done|done]].
  pose proof (list_elem_of_lookup_2 _ _ _ Hp) as Hi. pose proof Hb as [B1 B2 B3 B4 B5 B6 B7 B8]. rewrite B2, (B5 i Hi).
  change (pat_of (0, cl_ipt self) (in_addr i)) with (pat_of (in_route_metric i, cl_ipt self) (in_addr i)).
  set (s := (in_route_metric i, cl_ipt self)). apply runs_bind.
  destruct (runs_cleanup (in_addr i) (in_resources i) s w Hw (B4 i Hi) (B6 i Hi)) as (x & w1 & E & Hs & Em). exists x, w1. split; [exact E|].
  change ((x.2).1 = in_route_metric i) in Em. apply cleanup_releasing in E as Ex. rewrite Erel in Ex.
  destruct (kstep_replaced (λ _, False) w self pos i x w1 Hb Hp Hs) as (Hk1 & He1 & Hx1).
  { intros _ Hr. by rewrite releasing_not_ready in Hr. }
  rewrite Em in Hk1, He1, Hx1. set (i' := mkInstalled _ _ _ _) in *.
  change (put_installed (set_cl_ipt (x.2).2 self) pos (set_in_resources x.1 i)) with (replaced self pos (x.2).2 i').
  set (self1 := replaced self pos (x.2).2 i') in *. apply runs_ret.
  assert (cl_installed self1 !! pos = Some i') as Hp1 by (apply list_lookup_insert_eq; by eapply lookup_lt_Some).
  match goal with |- context [cleanup_complete ?y] => destruct (cleanup_complete y) eqn:Ec end.
  - destruct (kstep_removed (λ _, False) w1 self1 pos i' (ks_env _ _ _ _ _ Hk1) (ks_book _ _ _ _ _ Hk1) Hp1 Ec) as (Hk2 & He2 & Hn2).
    split_and!; [by eapply kstep_trans| |].
    + intros b Hne. etransitivity; [by apply He2|by apply He1].
    + intros _ y Hy. by pose proof (eq_trans (eq_sym Hy) Hn2).
  - split_and!; [done|done|]. intros _ y Hy. pose proof (eq_trans (eq_sym Hy) Hx1) as [= ->]. exact Ex.
Qed.

Definition still_leaving (self self' : Client) : Prop := ∀ b, leaving self b → leaving self' b.
Lemma leaving_but self self' a : (∀ b, b ≠ a → entry self' b = entry self b) → (leaving self a → leaving self' a) → still_leaving self self'.
Proof. intros He Ha b. destruct (decide (b = a)) as [->|Hne]; [done|]. unfold leaving. by rewrite He. Qed.

Lemma runs_release self a w : env_ok w → book self →
  runs (release self a) w (λ self' w', kstep (λ b, b = a) w self self' w' ∧ still_leaving self self' ∧ leaving self' a).
Proof using Hclient Hport Hchain Hpath Hv4.
  intros Hw Hb. unfold release. pose proof (position_entry self a (bk_nodup _ Hb)) as Hpos.
  destruct (position self a) as [pos|].
  2:{ apply runs_ret. split_and!; [by apply kstep_refl|by intros b|]. intros i. by rewrite Hpos. }
  destruct Hpos as (i & Hp & <- & Hei). unfold installed_at. rewrite Hp. apply runs_bind. eapply runs_lift; [done|].
  set (x := (begin_release (in_resources i), (in_route_metric i, cl_ipt self))). pose proof (list_elem_of_lookup_2 _ _ _ Hp) as Hi.
  pose proof (bk_entry _ Hb i Hi) as Hen.
  assert (steps (in_addr i) (in_resources i) (in_route_metric i, cl_ipt self) w x w) as Hs.
  { split_and!; [done|done|by apply release_ok|apply others_refl|]. apply acts_refl; [done|]. intros K. split; [done|]. apply release_holds. }
  destruct (kstep_replaced (λ b, b = in_addr i) w self pos i x w Hb Hp Hs) as (Hk & He & Hx); [by intros []|].
  set (self1 := replaced _ _ _ _) in *. change (put_installed self pos _) with self1.
  assert (leaving self1 (in_addr i)) as Hlv1 by (intros y Hy; pose proof (eq_trans (eq_sym Hy) Hx) as [= ->]; apply begin_releasing).
  eapply runs_mono; [apply runs_retry_addr; [done|apply Hk]|]. intros self' w' (Hk' & He' & Hlv).
  split_and!; [|apply (leaving_but _ _ (in_addr i)); [|auto]|auto].
  - eapply kstep_trans; [exact Hk|]. eapply kstep_mono; [|exact Hk']. done.
  - intros b Hne. etransitivity; [by apply He'|by apply He].
Qed.

Lemma runs_each (f : Client → SocketAddr → Io Client) (g : SocketAddr → Prop) (E : Client → Client → Prop) addrs self w :
  Reflexive E → Transitive E → env_ok w → book self →
  (∀ self a w, a ∈ addrs → env_ok w → book self → runs (f self a) w (λ self' w', kstep g w self self' w' ∧ E self self')) →
  runs (each_addr f self addrs) w (λ self' w', kstep g w self self' w' ∧ E self self').
Proof.
  intros HR HT Hw Hb Hf. revert self w Hw Hb. induction addrs as [|a addrs IH]; intros self w Hw Hb; cbn [each_addr].
  { apply runs_ret. split; [by apply kstep_refl|done]. }
  apply runs_bind. eapply runs_mono; [apply Hf; [by left|done|done]|]. intros self1 w1 [Hk1 E1].
  eapply runs_mono; [apply IH; [|apply (ks_env _ _ _ _ _ Hk1)|apply (ks_book _ _ _ _ _ Hk1)]|].
  - intros s b v Hin. apply Hf. by right.
  - intros self2 w2 [Hk2 E2]. split; [by eapply kstep_trans|by transitivity self1].
Qed.
#[local] Instance still_refl : Reflexive still_leaving.
Proof. by intros self b. Qed.
#[local] Instance still_trans : Transitive still_leaving.
Proof. intros s1 s2 s3 H1 H2 b Hb. auto. Qed.

Lemma runs_retry_cleanup self w : env_ok w → book self →
  runs (retry_cleanup self) w (λ self' w', kstep (λ _, False) w self self' w' ∧ still_leaving self self').
Proof using Hclient Hport Hchain Hpath Hv4.
  intros Hw Hb. unfold retry_cleanup. apply (runs_each retry_cleanup_addr (λ _, False) still_leaving); [apply _|apply _|done|done|].
  intros s a v _ Hv Hs. eapply runs_mono; [by apply runs_retry_addr|]. intros s' v' (Hk & He & Hl). split; [done|]. by apply (leaving_but _ _ a).
Qed.
Lemma runs_ensure_each self addrs w : env_ok w → book self → Forall relay addrs →
  runs (each_addr (λ self a, r ← ensure_installed self a; mret r.2) self addrs) w (kstep (λ _, False) w self).
Proof using Hclient Hport Hchain Hpath Hv4.
  intros Hw Hb Ha. eapply runs_mono; [apply (runs_each _ (λ _, False) (λ _ _, True)); [done|done|done|done|]|by intros s w' [Hk _]].
  intros s a v Hin Hv Hs. apply runs_bind. eapply runs_mono; [apply runs_ensure; [done|done|by apply (proj1 (Forall_forall _ _) Ha)]|].
  intros x v' [Hk _]. by apply runs_ret.
Qed.

Lemma runs_retain self a w : env_ok w → book self → relay a → runs (retain self a) w (kstep (λ _, False) w self).
Proof using Hclient Hport Hchain Hpath Hv4.
  intros Hw Hb Hr. unfold retain.
  assert (∀ self1, kstep (λ _, False) w self self1 w → runs (r ← ensure_installed self1 a; mret r.2) w (kstep (λ _, False) w self)) as Hk.
  { intros self1 Hk1. apply runs_bind. eapply runs_mono; [apply runs_ensure; [done|apply Hk1|done]|].
    intros x w' [Hk _]. apply runs_ret. by eapply kstep_trans. }
  pose proof (position_entry self a (bk_nodup _ Hb)) as Hpos. apply runs_bind.
  destruct (position self a) as [pos|]; [|by apply runs_ret, Hk, kstep_refl].
  destruct Hpos as (i & Hp & <- & Hei). unfold installed_at. rewrite Hp. apply runs_bind. eapply runs_lift; [done|]. apply runs_ret, Hk.
  set (x := (cancel_release (in_resources i), (in_route_metric i, cl_ipt self))). pose proof (list_elem_of_lookup_2 _ _ _ Hp) as Hi.
  apply (kstep_replaced (λ _, False) w self pos i x w Hb Hp).
  - split_and!; [done|done|apply entry_cancel, (bk_entry _ Hb i Hi)|apply others_refl|]. apply acts_refl; [done|]. done.
  - intros _ Hrd. unfold x. by rewrite cancel_ready.
Qed.

Lemma runs_release_except self keep w : env_ok w → book self → Forall relay keep →
  runs (release_except self keep) w (λ self' w', kstep (λ b, b ∉ keep) w self self' w' ∧
    ∀ i, i ∈ cl_installed self' → in_addr i ∉ keep → rs_releasing (in_resources i) = true).
Proof using Hclient Hport Hchain Hpath Hv4.
  intros Hw Hb Hkeep. unfold release_except. apply runs_bind.
  eapply runs_mono; [apply (runs_each retain (λ _, False) (λ _ _, True)); [done|done|done|done|]|].
  { intros s a v Hin Hv Hs. eapply runs_mono; [apply runs_retain; [done|done|by apply (proj1 (Forall_forall _ _) Hkeep)]|]. done. }
  intros self1 w1 [Hk1 _]. set (stale := filter _ _).
  assert (∀ addrs s v, (∀ a, a ∈ addrs → a ∈ stale) → env_ok v → book s →
    runs (each_addr release s addrs) v (λ s' v', kstep (λ b, b ∉ keep) v s s' v' ∧ still_leaving s s' ∧ ∀ a, a ∈ addrs → leaving s' a)) as Hrel.
  { induction addrs as [|a addrs IH]; intros s v Hst Hv Hs; cbn [each_addr].
    { apply runs_ret. split_and!; [by apply kstep_refl|by intros b|by intros a ?%elem_of_nil]. }
    apply runs_bind. eapply runs_mono; [by apply runs_release|]. intros s1 v1 (Hk & E1 & L1).
    eapply runs_mono; [apply IH; [|apply (ks_env _ _ _ _ _ Hk)|apply (ks_book _ _ _ _ _ Hk)]|]; [intros b Hin; apply Hst; by right|].
    intros s2 v2 (Hk2 & E2 & L2). split_and!; [|by transitivity s1|].
    - eapply kstep_trans; [|exact Hk2]. eapply kstep_mono; [|exact Hk]. intros b ->.
      specialize (Hst a ltac:(by left)). by apply list_elem_of_filter in Hst as [? _].
    - intros b [->|Hin]%elem_of_cons; auto. }
  eapply runs_mono; [apply (Hrel stale self1 w1); [done|apply (ks_env _ _ _ _ _ Hk1)|apply (ks_book _ _ _ _ _ Hk1)]|]. intros self2 w2 (Hk2 & E2 & L2). split.
  - eapply kstep_trans; [|exact Hk2]. by eapply kstep_mono; [|exact Hk1].
  - intros i Hi Hnk. pose proof (bk_nodup _ (ks_book _ _ _ _ _ Hk2)) as Hn.
    destruct (entry self1 (in_addr i)) as [j|] eqn:Ej.
    + apply (L2 (in_addr i)); [|by apply entry_some]. apply entry_some in Ej as [Hj Ej]; [|apply (bk_nodup _ (ks_book _ _ _ _ _ Hk1))].
      apply list_elem_of_filter. split; [done|]. rewrite <-Ej. by apply list_elem_of_fmap_2.
    + apply (E2 (in_addr i)); [|by apply entry_some]. intros j. by rewrite Ej.
Qed.
End kernel_state.
