(* ===== verification/ClientInv.v ===== *)
(** The client's invariant ([src/src/client.rs]): every handler keeps it and returns, on input
    that the transport parser survives; the table of installed addresses stays right, and no
    session is under way to an address whose rule or route is not there. *)
From stdpp Require Import strings.
From S2P Require Import Prelude Util Fips197 Prims Kdf Auth Cipher Crypto Wire AntiReplay Text.
From S2P Require Import Ip Tcp Conv Types World Config Route Iptables Kernel LowerLevel Resources EndpointState EndpointCache.
From S2P Require Import Endpoint EndpointInv EndpointOps FakeTcp Conn Pipeline Session Silence Client ClientKernel.

(** * The endpoint controller, for both kinds of endpoint *)
Definition literal (c : EndpointController) : Prop :=
  ∃ a, ec_spec c = Literal a ∧ ec_current c = a ∧ ec_committed_good c = None ∧ ec_probation c = None.
Definition ep_ok (spec : EndpointSpec) (c : EndpointController) : Prop := ec_spec c = spec ∧ (ep_inv c ∨ literal c).

Lemma current_relay spec c : ep_ok spec c → relay spec (ec_current c).
Proof.
  intros [<- [Hi|(a & Es & Ec & _)]].
  - destruct (ei_spec _ Hi) as (name & port & Es & _). destruct (ei_current _ Hi) as (cur & Ec & [Hv _]).
    unfold relay. rewrite Ec, Es. by exists cur.
  - unfold relay. by rewrite Es.
Qed.
Lemma retained_in c ip : ip ∈ retained_addresses c ↔ current_v4 c = Some ip ∨ ec_committed_good c = Some ip.
Proof.
  unfold retained_addresses. destruct (current_v4 c) as [cur|], (ec_committed_good c) as [good|]; [case_bool_decide as Hb| | |];
    rewrite ?elem_of_app, ?list_elem_of_singleton in *.
  - split; [by intros ->; left|]. intros [[= ->]|[= ->]]; done.
  - split; [intros [->| ->]; auto|]. intros [[= ->]|[= ->]]; auto.
  - split; [by intros ->; left|]. by intros [[= ->]|].
  - cbn. rewrite bool_decide_false by apply not_elem_of_nil. cbn. rewrite list_elem_of_singleton. split; [by intros ->; right|]. by intros [|[= ->]].
  - split; [by intros ?%elem_of_nil|by intros [|]].
Qed.
Lemma retained_relay spec c ip : ep_ok spec c → ip ∈ retained_addresses c → relay spec (V4 ip, (ec_current c).2).
Proof.
  intros [Es [Hi|(a & El & Ec & Eg & _)]] [Hc|Hg]%retained_in.
  - destruct (current_is c Hi) as (cur & Ev & Ec & _). rewrite Hc in Ev. injection Ev as <-.
    pose proof (current_relay spec c) as Hr. rewrite Ec in *. apply Hr. by split; [|left].
  - destruct (ei_committed _ Hi ip Hg) as [Hv _]. destruct (ei_spec _ Hi) as (name & port & Esp & _).
    destruct (ei_current _ Hi) as (cur & Ec & _). rewrite Ec, <-Es, Esp. cbn. by exists ip.
  - unfold current_v4 in Hc. rewrite Ec in Hc. rewrite <-Es, El, Ec. unfold relay. destruct a as [[o|o] p]; cbn in *; [congruence|done].
  - congruence.
Qed.
Lemma ep_core spec c c' : core c' = core c → ep_ok spec c → ep_ok spec c'.
Proof.
  intros E [Es H]. assert (ec_spec c' = ec_spec c) as Es' by (unfold core in E; congruence). split; [congruence|].
  destruct H as [Hi|(a & E1 & E2 & E3 & E4)]; [left; by eapply inv_core|right]. exists a. unfold core in E. split_and!; congruence.
Qed.

(** What an operation of the controller leaves. *)
Definition ep_step (spec : EndpointSpec) (w : World) (c' : EndpointController) (w' : World) : Prop :=
  ep_ok spec c' ∧ later w w' ∧ env_ok w' ∧ ∃ tr, w_trace w' = w_trace w ++ tr ∧ Forall silent tr.
Lemma moves_step spec c w c' w' : ec_spec c = spec → moves c w c' w' → ep_step spec w c' w'.
Proof.
  intros Es [H1 H2 H3 H4 H5 (tr & E & Ht)]. split_and!; [split; [congruence|by left]|done|done|]. exists tr. split; [done|].
  eapply Forall_impl; [exact Ht|]. by intros [].
Qed.
Lemma quiet_step spec c w w' : ep_ok spec c → env_ok w' → later w w' → w_trace w' = w_trace w → ep_step spec w c w'.
Proof. intros. split_and!; try done. exists []. by rewrite app_nil_r. Qed.

Lemma runs_cycle spec c now reason w : ep_ok spec c → env_ok w →
  runs (on_cycle c now reason) w (λ r w', ep_step spec w r.2 w' ∧
    match r.1 with Some sw => sw_to sw = ec_current r.2 ∧ ep_inv r.2 | None => ec_current r.2 = ec_current c end).
Proof.
  intros [Es [Hi|Hl]] Hw.
  - eapply runs_mono; [by apply runs_on_cycle|]. intros [o c'] w' (Hm & _ & _ & _ & H). split; [by eapply moves_step|]. cbn [fst snd] in *.
    destruct o as [sw|]; [|done]. destruct H as (_ & -> & _). split; [done|]. apply Hm.
  - unfold on_cycle. apply runs_bind, runs_unix; [done|]. intros t w1 _ Hl1 Ht1 Hw1.
    replace (ec_is_dynamic c) with false; [|by destruct Hl as (a & Ea & _); unfold ec_is_dynamic; rewrite Ea]. apply runs_ret. cbn. split; [|done].
    apply quiet_step; [by split; [|right]|done..].
Qed.

(** Only a cycle changes the current address. *)
Definition yields {A} (m : Io A) (Q : A → Prop) : Prop := ∀ w a w', m w = Done (a, w') → Q a.
Lemma yields_ret {A} (a : A) (Q : A → Prop) : Q a → yields (mret a) Q.
Proof. intros H w b w' [= <- _]. done. Qed.
Lemma yields_bind {A B} (m : Io A) (f : A → Io B) (R : A → Prop) (Q : B → Prop) : yields m R → (∀ a, R a → yields (f a) Q) → yields (m ≫= f) Q.
Proof. intros Hm Hf w b w' (a & w1 & E1%Hm & E2)%io_bind_inv. by eapply Hf. Qed.
Lemma yields_any {A} (m : Io A) : yields m (λ _, True).
Proof. done. Qed.
Lemma runs_yields {A} (m : Io A) w (P : A → World → Prop) (Q : A → Prop) : runs m w P → yields m Q → runs m w (λ a w', P a w' ∧ Q a).
Proof. intros (a & w' & E & HP) HQ. exists a, w'. split_and!; [done|done|by eapply HQ]. Qed.
Ltac yields_tac :=
  repeat match goal with
  | |- yields (mret _) _ => apply yields_ret; cbn [fst snd]
  | |- yields (_ ≫= _) _ => eapply yields_bind; [apply yields_any|intros ? _]
  | |- yields (if ?b then _ else _) _ => destruct b
  | |- yields (match ?x with _ => _ end) _ => destruct x
  | |- yields (let _ := _ in _) _ => cbv zeta
  end; try done.
Definition stays_put {A} (c : EndpointController) (r : A * EndpointController) : Prop := ec_current r.2 = ec_current c.

Lemma put_authenticated c : yields (on_authenticated c) (stays_put c).
Proof. unfold on_authenticated. yields_tac. Qed.
Lemma put_promote c expected now : yields (promote_candidate c expected now) (stays_put c).
Proof. unfold promote_candidate. yields_tac. Qed.
Lemma put_charge c wall cand : yields (charge_fallback c wall cand) (stays_put c).
Proof. unfold charge_fallback. yields_tac. Qed.
Lemma put_authorize c p wall : yields (authorize c p wall) (stays_put c).
Proof.
  unfold authorize. eapply (yields_bind _ _ (stays_put c)); [destruct (_ || _); [by apply yields_ret|apply put_charge]|].
  intros [ok c'] Hc. unfold stays_put in *. cbn [fst snd] in *. destruct ok; by apply yields_ret.
Qed.
Lemma put_rollback_due c now : yields (probation_rollback_due c now) (stays_put c).
Proof. unfold probation_rollback_due. yields_tac. apply put_authorize. Qed.
Lemma put_operator_rollback c expected now : yields (authorize_operator_rollback c expected now) (stays_put c).
Proof. unfold authorize_operator_rollback. yields_tac. apply put_authorize. Qed.
Lemma put_activity c now is_data : ec_current (on_authenticated_activity c now is_data) = ec_current c.
Proof.
  unfold on_authenticated_activity. destruct (current_v4 c); [|done]. cbv zeta. set (c1 := if _ && _ then _ else _).
  assert (ec_current c1 = ec_current c) as <- by (unfold c1; by destruct (_ && _)). destruct (negb _); [done|].
  destruct (ec_probation c1); [|done]. by destruct (negb _).
Qed.

Section endpoint.
Context (spec : EndpointSpec) (c : EndpointController) (w : World) (Hc : ep_ok spec c) (Hw : env_ok w).

Lemma runs_ep_authenticated : ep_inv c → runs (on_authenticated c) w (λ r w', (ep_step spec w r.2 w' ∧ ep_inv r.2) ∧ ec_current r.2 = ec_current c).
Proof using Hc Hw.
  intros Hi. apply runs_yields; [|apply put_authenticated]. eapply runs_mono; [by apply runs_on_authenticated|].
  intros r w' [Hm _]. split; [eapply moves_step; [apply Hc|done]|apply Hm].
Qed.
Lemma runs_ep_rollback_due now : runs (probation_rollback_due c now) w (λ r w', ep_step spec w r.2 w' ∧ ec_current r.2 = ec_current c).
Proof using Hc Hw.
  apply runs_yields; [|apply put_rollback_due]. pose proof Hc as [Es [Hi|Hl]].
  - eapply runs_mono; [by apply runs_rollback_due|]. intros r w' [Hm _]. by eapply moves_step.
  - unfold probation_rollback_due. apply runs_bind, runs_unix; [done|]. intros t w1 _ Hl1 Ht1 Hw1.
    destruct Hl as (a & H1 & H2 & H3 & H4). rewrite H4. destruct (current_v4 c); apply runs_ret; by apply quiet_step.
Qed.
Lemma runs_ep_operator_rollback expected now : runs (authorize_operator_rollback c expected now) w (λ r w', ep_step spec w r.2 w' ∧ ec_current r.2 = ec_current c).
Proof using Hc Hw.
  apply runs_yields; [|apply put_operator_rollback]. pose proof Hc as [Es [Hi|Hl]].
  - eapply runs_mono; [by apply runs_operator_rollback|]. intros r w' [Hm _]. by eapply moves_step.
  - unfold authorize_operator_rollback. apply runs_bind, runs_unix; [done|]. intros t w1 _ Hl1 Ht1 Hw1.
    destruct Hl as (a & H1 & H2 & H3 & H4). rewrite H4. destruct (current_v4 c); apply runs_ret; by apply quiet_step.
Qed.
Lemma runs_ep_promote expected now : runs (promote_candidate c expected now) w (λ r w', (ep_step spec w r.2 w' ∧ 
  match r.1 with Promoted _ => ep_inv r.2 | _ => True end) ∧ ec_current r.2 = ec_current c).
Proof using Hc Hw.
  apply runs_yields; [|apply put_promote]. pose proof Hc as [Es [Hi|Hl]].
  - eapply runs_mono; [by apply runs_promote|]. intros r w' [Hm _]. split; [by eapply moves_step|]. destruct (r.1); [apply Hm|done..].
  - unfold promote_candidate. pose proof Hl as (a & H1 & H2 & H3 & H4). rewrite H4. apply runs_ret. split; [|done]. by apply quiet_step.
Qed.
Lemma ep_activity now is_data : ep_ok spec (on_authenticated_activity c now is_data).
Proof using Hc.
  pose proof Hc as [Es [Hi|Hl]].
  - destruct (activity_step c now is_data Hi) as (cur & _ & Hi' & Es' & _). split; [congruence|by left].
  - pose proof Hl as (a & H1 & H2 & H3 & H4). unfold on_authenticated_activity. destruct (current_v4 c); [|done]. cbv zeta. rewrite H3, andb_false_r.
    destruct (negb _); [done|]. by rewrite H4.
Qed.
Lemma ep_refresh : ep_ok spec (request_refresh c) ∧ ec_current (request_refresh c) = ec_current c.
Proof using Hc. unfold request_refresh. destruct (ec_is_dynamic c); [|done]. split; [|done]. by apply (ep_core spec c). Qed.
End endpoint.

(** * The invariant *)
(** What the start of the program establishes: a client, its chain, the path of its routes,
    addresses of one family and a source that fits them. *)
Record setup_ok (cfg : Config) (spec : EndpointSpec) (chain0 : list Z) (u : option Underlay) : Prop := {
  su_client : cfg_is_client cfg = true;
  su_chain : word chain0;
  su_path x : u = Some x → path_ok (ud_gateway x) (ud_ifindex x) (ud_prefsrc x);
  su_family a : relay spec a → ip_ok a.1 ∧ is_ipv6 a.1 = raw_is_v6 cfg;
  su_port : is_u 16 (spec_port spec);
  su_source ip : cfg_source_ip cfg = Some ip → ip_ok ip ∧ is_ipv6 ip = raw_is_v6 cfg;
  su_source_port p : cfg_source_port cfg = Some p → is_u 16 p }.
Lemma su_v4 cfg spec chain0 u a d : setup_ok cfg spec chain0 u → relay spec a → a.1 = V4 d → v4_ok d.
Proof. intros Hs Ha Ed. destruct (su_family _ _ _ _ Hs a Ha) as [Hi _]. by rewrite Ed in Hi. Qed.
Lemma relay_port spec a : relay spec a → a.2 = spec_port spec.
Proof. unfold relay. destruct spec; [by intros ->|]. by intros (ip & _ & ->). Qed.

(** The transport parser reads the mode, the family and the bound address of the context. *)
Definition reads_as (a b : RawCtx) : Prop :=
  rc_raw_mode a = rc_raw_mode b ∧ rc_is_v6 a = rc_is_v6 b ∧ rc_bind_addr a = rc_bind_addr b.
Lemma reads_conf a b c : ctx_conf a = ctx_conf b → reads_as b c → reads_as a c.
Proof.
  intros E (H1 & H2 & H3). pose proof (f_equal rc_raw_mode E) as E1. pose proof (f_equal rc_is_v6 E) as E2.
  pose proof (f_equal rc_bind_addr E) as E3. cbn in *. split_and!; congruence.
Qed.
Lemma survives_reads a b buf : reads_as a b → survives b buf → survives a buf.
Proof.
  intros (H1 & H2 & H3) Hs (seg & (Hm & p & Hp & Hd & Ht & Hb) & Hd'). apply Hs. exists seg. split; [|done]. split; [congruence|].
  exists p. rewrite <-H2. split_and!; try done. intros x Hx. apply Hb. congruence.
Qed.
(** Two families agree. *)
Lemma family_same a b : is_ipv6 a = is_ipv6 b → same_family a b.
Proof. by destruct a, b. Qed.

Section inv.
Context `{P : Prims} {HP : PrimsOk P}.
Context (cr : Crypto) (cm : CipherMode) (am : AuthMode) (legacy : bool) (keys : Keys) (He : engine cr cm am legacy keys).
Context (n : nat) (gro : bool) (ctx0 : RawCtx).
Context (cfg : Config) (spec : EndpointSpec) (cmd chain0 : list Z) (u : option Underlay) (Hsu : setup_ok cfg spec chain0 u).

#[local] Abbreviation pipe_ok := (pipe_ok cr n gro).
#[local] Abbreviation relay := (relay spec).
#[local] Abbreviation book := (book cfg spec cmd chain0 u).
#[local] Abbreviation tracked := (tracked cfg spec).
#[local] Abbreviation kstep := (kstep cfg spec cmd chain0 u).
#[local] Abbreviation acts := (acts cmd chain0 (ours cfg spec) (u_gw u) (u_oif u) (u_src u)).

Record info_inv (w : World) (i : ConnInfo) : Prop := {
  ii_raw : raw_ok (ci_raw i);
  ii_family : is_ipv6 (pi_dst_ip (send_info (ci_raw i))) = raw_is_v6 cfg;
  ii_roller : is_byte (my_roller i);
  ii_state_time : past w (last_state_time i);
  ii_sent_time : past w (last_hb_sent_time i);
  ii_recv_time : past w (last_hb_recv_time i);
  ii_roller_time : past w (last_oppsite_roller_time i);
  ii_reserved : is_u 32 (reserved_send_seq (ci_raw i)) }.

(** The part that does not speak of the remote address, and the whole. *)
Record core_inv (w : World) (s : Client) : Prop := {
  c_book : book s;
  c_info : info_inv w (cl_info s);
  c_convs : conv_inv (cl_convs s);
  c_conv_num : conv_len (cl_convs s) ≤ MAX_CONV_NUM;
  c_crypto : cl_crypto s = cr;
  c_ctx : ctx_ok (cl_ctx s) ∧ reads_as (cl_ctx s) ctx0;
  c_pipe : pipe_ok (cl_pipeline s);
  c_hb : bytes (cl_hb_buf s);
  c_endpoint : ep_ok spec (cl_endpoint s) }.
Record client_inv (w : World) (s : Client) : Prop := {
  c_core :> core_inv w s;
  c_remote : cl_remote s = ec_current (cl_endpoint s);
  c_gate : cl_state s ≠ Idle → endpoint_resources_ready s (cl_remote s) = true }.

(** A handler that started in [(w, s)] ends well in [(w', s')]. *)
Record fine (w : World) (s : Client) (s' : Client) (w' : World) : Prop := {
  f_inv : client_inv w' s';
  f_later : later w w';
  f_env : env_ok w';
  f_acts : acts w w' (λ K K', tracked s K → tracked s' K') }.

Lemma info_later w w' i : env_ok w → later w w' → info_inv w i → info_inv w' i.
Proof. intros Hw Hl []. constructor; try done; by eapply past_later. Qed.
Lemma core_later w w' s : env_ok w → later w w' → core_inv w s → core_inv w' s.
Proof. intros Hw Hl []. constructor; try done. by apply (info_later w). Qed.
Lemma client_later w w' s : env_ok w → later w w' → client_inv w s → client_inv w' s.
Proof. intros Hw Hl [H1 H10 H11]. constructor; try done. by apply (core_later w). Qed.
Lemma fine_same w s : env_ok w → client_inv w s → fine w s s w.
Proof. intros. constructor; try done. by apply acts_refl. Qed.
Lemma fine_then w s w1 s1 s' w' : fine w s s1 w1 → fine w1 s1 s' w' → fine w s s' w'.
Proof.
  intros [I1 L1 E1 A1] [I2 L2 E2 A2]. constructor; [done|by transitivity w1|done|]. eapply acts_trans; [exact A1|exact A2|]. auto.
Qed.
Lemma runs_from (m : Io Client) w s w1 s1 : fine w s s1 w1 → runs m w1 (fine w1 s1) → runs m w1 (fine w s).
Proof. intros Hf Hm. eapply runs_mono; [exact Hm|]. intros s' w' H. by eapply fine_then. Qed.

(** Steps that leave the table and the kernel alone. *)
Definition hush_between (w w' : World) : Prop := ∃ tr, w_trace w' = w_trace w ++ tr ∧ Forall silent tr.
Lemma hush_refl w w' : w_trace w' = w_trace w → hush_between w w'.
Proof. intros E. exists []. by rewrite app_nil_r. Qed.
Lemma hush_trans w1 w2 w3 : hush_between w1 w2 → hush_between w2 w3 → hush_between w1 w3.
Proof. intros (t1 & E1 & H1) (t2 & E2 & H2). exists (t1 ++ t2). split; [by rewrite E2, E1, app_assoc|by apply Forall_app_2]. Qed.
Lemma fine_hush w s s' w' : client_inv w' s' → later w w' → env_ok w' → hush_between w w' → cl_installed s' = cl_installed s → fine w s s' w'.
Proof.
  intros Hi Hl Hw (tr & Et & Ht) E. constructor; try done. eapply acts_mono; [by eapply acts_silent|]. intros K K' -> H a Ha.
  unfold view, entry. rewrite E. by apply H.
Qed.
Lemma runs_hush {A} (m : Io A) w (Q : A → World → Prop) : hushed m → runs m w Q → runs m w (λ a w', Q a w' ∧ hush_between w w').
Proof. intros Hm (a & w' & E & HQ). exists a, w'. split_and!; [done|done|by eapply Hm]. Qed.

(** The fields the invariant reads. *)
Definition held (s : Client) :=
  (cl_cfg s, cl_crypto s, cl_ctx s, cl_pipeline s, cl_info s, cl_state s, cl_convs s, cl_hb_buf s, cl_remote s, cl_endpoint s,
   cl_ipt s, cl_underlay s, cl_installed s).
Lemma book_same s s' : cl_cfg s' = cl_cfg s → cl_underlay s' = cl_underlay s → cl_installed s' = cl_installed s → cl_ipt s' = cl_ipt s →
  book s → book s'.
Proof.
  intros E1 E2 E3 E4 [H1 H2 H3 H4 H5 H6 H7 H8]. constructor; rewrite ?E1, ?E2, ?E3, ?E4; try done.
  intros a it. unfold entry. rewrite E3. apply H8.
Qed.
Lemma ready_same s s' a : cl_installed s' = cl_installed s → endpoint_resources_ready s' a = endpoint_resources_ready s a.
Proof. intros E. unfold endpoint_resources_ready. by rewrite E. Qed.
Lemma core_held w s s' : held s' = held s → core_inv w s → core_inv w s'.
Proof.
  unfold held. intros [= E1 E2 E3 E4 E5 E6 E7 E8 E9 E10 E11 E12 E13] [H1 H2 H3 H4 H5 H6 H7 H8 H9].
  constructor; rewrite ?E2, ?E3, ?E4, ?E5, ?E6, ?E7, ?E8, ?E9, ?E10; try done. by apply (book_same s).
Qed.
Lemma inv_held w s s' : held s' = held s → client_inv w s → client_inv w s'.
Proof.
  intros E [H1 H10 H11]. constructor; [by apply (core_held w s)|unfold held in E; congruence|].
  unfold held in E. injection E as E1 E2 E3 E4 E5 E6 E7 E8 E9 E10 E11 E12 E13. rewrite E6, E9. intros Hs. rewrite (ready_same s); auto.
Qed.
Ltac core_tac := intros []; intros; constructor; try done; eapply book_same; [..|eassumption]; done.

(** Changes of single fields. *)
Lemma core_set_info w s i : core_inv w s → info_inv w i → core_inv w (set_cl_info i s).
Proof. core_tac. Qed.
Lemma core_ctx w s ctx : core_inv w s → ctx_ok ctx ∧ reads_as ctx ctx0 → core_inv w (set_cl_ctx ctx s).
Proof. core_tac. Qed.
Lemma core_pipe w s p : core_inv w s → pipe_ok p → core_inv w (set_cl_pipeline p s).
Proof. core_tac. Qed.
Lemma core_convs w s m : core_inv w s → conv_inv m → conv_len m ≤ MAX_CONV_NUM → core_inv w (set_cl_convs m s).
Proof. core_tac. Qed.
Lemma core_endpoint w s c : core_inv w s → ep_ok spec c → core_inv w (set_cl_endpoint c s).
Proof. core_tac. Qed.
Lemma core_state w s st : core_inv w s → core_inv w (set_cl_state st s).
Proof. core_tac. Qed.
Lemma core_remote w s a : core_inv w s → core_inv w (set_cl_remote a s).
Proof. core_tac. Qed.
(** The invariant after a change that leaves remote address, controller, state and table. *)
Lemma inv_still w w' s s' : client_inv w s → core_inv w' s' → cl_remote s' = cl_remote s → ec_current (cl_endpoint s') = ec_current (cl_endpoint s) →
  cl_state s' = cl_state s → cl_installed s' = cl_installed s → client_inv w' s'.
Proof.
  intros [_ H10 H11] Hc E1 E2 E3 E4. constructor; [done|congruence|]. rewrite E1, E3, (ready_same s) by done. done.
Qed.
Lemma inv_set_info w s i : client_inv w s → info_inv w i → client_inv w (set_cl_info i s).
Proof. intros Hi Hn. apply (inv_still w w s); try done. apply core_set_info; [apply Hi|done]. Qed.
Lemma inv_conf w s ctx : client_inv w s → ctx_conf ctx = ctx_conf (cl_ctx s) → client_inv w (set_cl_ctx ctx s).
Proof.
  intros Hi E. destruct (c_ctx _ _ Hi) as [Hc Hr]. apply (inv_still w w s); try done. apply core_ctx; [apply Hi|].
  split; [by eapply ctx_conf_ok|by eapply reads_conf].
Qed.
Lemma inv_pipe w s p : client_inv w s → pipe_ok p → client_inv w (set_cl_pipeline p s).
Proof. intros Hi Hp. apply (inv_still w w s); try done. apply core_pipe; [apply Hi|done]. Qed.
Lemma inv_set_convs w s m : client_inv w s → conv_inv m → conv_len m ≤ MAX_CONV_NUM → client_inv w (set_cl_convs m s).
Proof. intros Hi Hm Hl. apply (inv_still w w s); try done. by apply core_convs; [apply Hi|..]. Qed.
Lemma inv_endpoint w s c : client_inv w s → ep_ok spec c → ec_current c = ec_current (cl_endpoint s) → client_inv w (set_cl_endpoint c s).
Proof. intros Hi Hc E. apply (inv_still w w s); try done. apply core_endpoint; [apply Hi|done]. Qed.
Lemma inv_state w s st : client_inv w s → (st ≠ Idle → endpoint_resources_ready s (cl_remote s) = true) → client_inv w (set_cl_state st s).
Proof. intros [H1 H10 H11] Hst. constructor; [by apply core_state|done|done]. Qed.
Lemma inv_idle w s : core_inv w s → cl_remote s = ec_current (cl_endpoint s) → cl_state s = Idle → client_inv w s.
Proof. intros Hc Hr Hs. constructor; [done|done|by rewrite Hs]. Qed.

(** Operations on the table. *)
Lemma kstep_core (g : SocketAddr → Prop) w s s' w' : env_ok w → core_inv w s → kstep g w s s' w' → core_inv w' s'.
Proof. intros Hw Hi [L E (l & o & ->) B K A]. destruct (core_later _ _ _ Hw L Hi). by constructor. Qed.
Lemma kstep_inv (g : SocketAddr → Prop) w s s' w' : env_ok w → client_inv w s → kstep g w s s' w' → ¬ g (cl_remote s) → fine w s s' w'.
Proof.
  intros Hw Hi Hk Hg. pose proof (kstep_core g w s s' w' Hw Hi Hk) as Hc. destruct Hi as [_ H10 H11].
  destruct Hk as [L E (l & o & ->) B K A]. constructor; try done. constructor; [done|done|].
  intros Hst. rewrite ready_entry. cbn [cl_remote set_cl_installed set_cl_ipt]. rewrite K; [|done|by apply H11]. rewrite <-ready_entry. by apply H11.
Qed.

Lemma Hv4 a d : relay a → a.1 = V4 d → v4_ok d.
Proof using Hsu. by eapply su_v4. Qed.
Lemma runs_ensures s addrs w : env_ok w → book s → Forall relay addrs →
  runs (each_addr (λ self a, r ← ensure_installed self a; mret r.2) s addrs) w (kstep (λ _, False) w s).
Proof using Hsu. destruct Hsu. apply runs_ensure_each; try done. apply Hv4. Qed.
Lemma runs_ensures_one s a w : env_ok w → book s → relay a → runs (ensure_installed s a) w (λ x w', kstep (λ _, False) w s x.2 w').
Proof using Hsu.
  intros Hw Hb Hr. destruct Hsu. eapply runs_mono; [apply (runs_ensure cfg spec cmd chain0 u); try done; apply Hv4|]. by intros x w' [? _].
Qed.
Lemma runs_retries s w : env_ok w → book s → runs (retry_cleanup s) w (λ s' w', kstep (λ _, False) w s s' w' ∧ still_leaving s s').
Proof using Hsu. destruct Hsu. apply runs_retry_cleanup; try done. apply Hv4. Qed.
Lemma runs_releases s keep w : env_ok w → book s → Forall relay keep →
  runs (release_except s keep) w (λ s' w', kstep (λ b, b ∉ keep) w s s' w' ∧
    ∀ i, i ∈ cl_installed s' → in_addr i ∉ keep → rs_releasing (in_resources i) = true).
Proof using Hsu. destruct Hsu. apply runs_release_except; try done. apply Hv4. Qed.

Lemma remote_relay w s : client_inv w s → relay (cl_remote s).
Proof. intros Hi. rewrite (c_remote _ _ Hi). apply current_relay, Hi. Qed.
Lemma retained_addrs_relay w s : client_inv w s → Forall relay (retained_addrs s).
Proof.
  intros Hi. unfold retained_addrs. pose proof (remote_relay w s Hi) as Hr.
  assert (∀ ip, ip ∈ retained_addresses (cl_endpoint s) → relay (V4 ip, (cl_remote s).2)) as Hip.
  { intros ip. rewrite (c_remote _ _ Hi). apply retained_relay, Hi. }
  assert (Forall relay [cl_remote s]) as Hl by by constructor. revert Hip Hl. generalize [cl_remote s].
  induction (retained_addresses (cl_endpoint s)) as [|ip l IH]; intros acc Hip Hacc; cbn [foldl]; [done|].
  apply IH; [intros x Hx; apply Hip; by right|]. case_bool_decide; [done|]. apply Forall_app_2; [done|]. constructor; [|constructor]. apply Hip. by left.
Qed.

(** The session's part of the state. *)
Definition session_of (s : Client) := (cl_state s, cl_info s, cl_endpoint s, cl_generation s, cl_selected s, cl_remote s).
Lemma resourced_session s s' : resourced s s' → session_of s' = session_of s.
Proof. by intros (l & o & ->). Qed.
Lemma runs_kernel_session s now w : env_ok w → client_inv w s → runs (timer_kernel s now) w (λ s' w', fine w s s' w' ∧ session_of s' = session_of s).
Proof using Hsu.
  intros Hw Hi. unfold timer_kernel. destruct (_ <=? _); [|by apply runs_ret; split; [apply fine_same|]].
  assert (client_inv w (set_cl_last_kernel_retry now s)) as Hi1 by by apply (inv_held w s).
  set (s1 := set_cl_last_kernel_retry now s) in *. assert (fine w s s1 w) as Hf1 by (apply fine_hush; [done|done|done|by apply hush_refl|done]).
  apply runs_bind. eapply runs_mono; [apply (runs_ensures s1); [done|apply (c_book _ _ Hi1)|by apply (retained_addrs_relay w)]|]. intros s2 w2 Hk2.
  assert (fine w s s2 w2) as Hf2 by (eapply fine_then; [exact Hf1|]; by eapply kstep_inv; [..|exact Hk2|intros []]).
  eapply runs_mono; [apply runs_retries; [apply (f_env _ _ _ _ Hf2)|apply (c_book _ _ (f_inv _ _ _ _ Hf2))]|]. intros s3 w3 [Hk3 _]. split.
  - eapply fine_then; [exact Hf2|]. by eapply kstep_inv; [apply (f_env _ _ _ _ Hf2)|apply (f_inv _ _ _ _ Hf2)|exact Hk3|intros []].
  - apply ks_frame, resourced_session in Hk2, Hk3. by rewrite Hk3, Hk2.
Qed.
Lemma runs_timer_kernel s now w : env_ok w → client_inv w s → runs (timer_kernel s now) w (fine w s).
Proof using Hsu. intros Hw Hi. eapply runs_mono; [by apply runs_kernel_session|]. by intros s' w' [? _]. Qed.

Lemma runs_release_non_retained s w : env_ok w → client_inv w s → ep_inv (cl_endpoint s) →
  runs (release_non_retained_endpoints s) w (fine w s).
Proof using Hsu.
  intros Hw Hi Hep. unfold release_non_retained_endpoints. set (keep := _ <$> _).
  eapply runs_mono; [apply (runs_releases s keep); [done|apply (c_book _ _ Hi)|]|].
  - apply Forall_fmap, Forall_forall. intros ip Hip. cbn. rewrite (c_remote _ _ Hi). by apply retained_relay; [apply Hi|].
  - intros s' w' [Hk _]. eapply kstep_inv; [done|done|exact Hk|]. intros Hn. apply Hn. rewrite (c_remote _ _ Hi).
    destruct (current_is _ Hep) as (cur & Ev & Ec & _). apply list_elem_of_fmap. exists cur. rewrite (c_remote _ _ Hi), Ec. split; [done|].
    apply retained_in. by left.
Qed.
Lemma ep_dynamic c : ep_ok spec c → ec_is_dynamic c = true → ep_inv c.
Proof. intros [_ [Hi|(a & Ea & _)]]; [done|]. unfold ec_is_dynamic. by rewrite Ea. Qed.
(** The controller's events are no commands. *)
Lemma fine_endpoint w s c' w' : env_ok w → client_inv w s → ep_step spec w c' w' → ec_current c' = ec_current (cl_endpoint s) →
  fine w s (set_cl_endpoint c' s) w'.
Proof.
  intros Hw Hi (Hc & Hl & Hw' & Ht) E. apply fine_hush; try done. apply inv_endpoint; [by apply (client_later w)|done|done].
Qed.
Lemma runs_on_endpoint_authenticated s w : env_ok w → client_inv w s → runs (on_endpoint_authenticated s) w (fine w s).
Proof using Hsu.
  intros Hw Hi. unfold on_endpoint_authenticated. destruct (ec_is_dynamic (cl_endpoint s)) eqn:Ed; cbn [negb]; [|by apply runs_ret, fine_same].
  apply runs_bind. eapply runs_mono; [apply (runs_ep_authenticated spec); [apply Hi|done|by apply ep_dynamic; [apply Hi|]]|].
  intros r w1 [[Hs Hep] Ec]. pose proof (fine_endpoint w s r.2 w1 Hw Hi Hs Ec) as Hf. eapply runs_from; [exact Hf|].
  apply runs_release_non_retained; [apply (f_env _ _ _ _ Hf)|apply Hf|done].
Qed.

(** ** The end of a session *)
Lemma runs_go_idle s reason w : env_ok w → core_inv w s → cl_remote s = ec_current (cl_endpoint s) →
  runs (go_idle s reason) w (λ s' w', fine w s s' w' ∧ cl_state s' = Idle).
Proof.
  intros Hw Hi Hr. unfold go_idle. cbv zeta. apply runs_bind.
  eapply runs_mono; [apply (runs_hush _ w (λ _ w', later w w' ∧ env_ok w')); [apply hushed_nz|]|].
  { apply runs_secure_nz; [done|]. intros v w' _ _ Hl _ Hw'. done. }
  intros id w1 [[Hl1 Hw1] Hh]. apply runs_ret. split; [|done]. apply fine_hush; try done. apply inv_idle; [|done|done].
  pose proof (core_later _ _ _ Hw Hl1 Hi) as Hi1.
  apply (core_held w1 (set_cl_info (set_my_id id (cl_info s)) (set_cl_state Idle (set_cl_endpoint (on_session_ended (cl_endpoint s)) s)))); [done|].
  apply core_set_info; [apply core_state, core_endpoint; [done|]|].
  - apply (ep_core spec (cl_endpoint s)); [done|apply Hi1].
  - destruct (c_info _ _ Hi1). by constructor.
Qed.
Lemma go_idle_fine s reason w : env_ok w → client_inv w s → runs (go_idle s reason) w (fine w s).
Proof. intros Hw Hi. eapply runs_mono; [by apply runs_go_idle; [|apply Hi|apply Hi]|]. by intros s' w' [? _]. Qed.

(** ** The next attempt *)
Lemma kstep_fine (g : SocketAddr → Prop) w s s1 w' s' : client_inv w' s' → kstep g w s s1 w' → cl_installed s' = cl_installed s1 → fine w s s' w'.
Proof.
  intros Hi [L E F B K A] Ei. constructor; try done. eapply acts_mono; [exact A|]. intros K1 K2 H Ht a Ha. unfold view, entry. rewrite Ei. by apply H.
Qed.
Lemma info_dst w i a : info_inv w i → relay a →
  info_inv w (set_ci_raw (upd_send (λ x, set_pi_dst_port a.2 (set_pi_dst_ip a.1 x)) (ci_raw i)) i).
Proof using Hsu.
  intros [[Hs Hr] Hf H3 H4 H5 H6 H7 H8] Ha. destruct (su_family _ _ _ _ Hsu a Ha) as [Hip Hv]. constructor; try done.
  split; [|done]. destruct Hs. constructor; try done; [|by cbn; rewrite (relay_port spec a Ha); apply (su_port _ _ _ _ Hsu)].
  apply family_same. cbn. unfold same_family in *. congruence.
Qed.
Lemma runs_apply_switch s sw w : env_ok w → core_inv w s → cl_state s = Idle → sw_to sw = ec_current (cl_endpoint s) →
  runs (apply_switch s sw) w (λ s' w', fine w s s' w' ∧ cl_state s' = Idle).
Proof using Hsu.
  intros Hw Hi Hst Hsw. unfold apply_switch. cbv zeta. set (keep := _ :: _). pose proof (current_relay spec _ (c_endpoint _ _ Hi)) as Hcur.
  assert (Forall relay keep) as Hkeep.
  { constructor; [by rewrite Hsw|]. destruct (ec_committed_good (cl_endpoint s)) as [g|] eqn:Eg; constructor; [|constructor].
    rewrite Hsw. apply retained_relay; [apply Hi|]. apply retained_in. by right. }
  apply runs_bind. eapply runs_mono; [apply (runs_releases s keep); [done|apply (c_book _ _ Hi)|done]|]. intros s1 w1 [Hk1 _].
  apply runs_bind. eapply runs_mono; [apply (runs_ensures_one s1 (sw_to sw)); [apply (ks_env _ _ _ _ _ _ _ _ _ _ Hk1)|apply (ks_book _ _ _ _ _ _ _ _ _ _ Hk1)|by rewrite Hsw]|].
  intros [b s2] w2 Hk2. cbn [snd] in *. apply runs_ret.
  assert (kstep (λ _, True) w s s2 w2) as Hk by (eapply kstep_trans; [eapply kstep_mono; [|exact Hk1]; done|eapply kstep_mono; [|exact Hk2]; done]).
  pose proof (kstep_core _ w s s2 w2 Hw Hi Hk) as Hi2. destruct (ks_frame _ _ _ _ _ _ _ _ _ _ Hk) as (l & o & E2).
  assert (cl_endpoint s2 = cl_endpoint s) as Ee by by rewrite E2. assert (cl_state s2 = cl_state s) as Es by by rewrite E2.
  set (s' := set_cl_ll_ready _ _). split; [|change (cl_state s2 = Idle); congruence].
  apply (kstep_fine (λ _, True) w s s2 w2 s'); [|done|done]. apply inv_idle.
  - apply (core_held w2 (upd_sent (λ x, set_pi_dst_port (sw_to sw).2 (set_pi_dst_ip (sw_to sw).1 x)) (set_cl_remote (sw_to sw) s2))); [done|].
    apply core_set_info; [by apply core_remote|]. apply (info_dst w2 (cl_info s2)); [apply Hi2|by rewrite Hsw].
  - change (sw_to sw = ec_current (cl_endpoint s2)). by rewrite Ee.
  - change (cl_state s2 = Idle). congruence.
Qed.

Definition idled (w : World) (s s' : Client) (w' : World) : Prop := fine w s s' w' ∧ cl_state s' = Idle.
Lemma runs_idle_select s now w : env_ok w → client_inv w s → cl_state s = Idle → runs (idle_select s now) w (idled w s).
Proof using Hsu.
  intros Hw Hi Hst. unfold idle_select. destruct (cl_selected s); [by apply runs_ret; split; [apply fine_same|]|]. cbv zeta.
  apply runs_bind. eapply runs_mono; [apply (runs_hush _ w (λ _ w', later w w' ∧ env_ok w')); [apply hushed_nz|]|].
  { apply runs_secure_nz; [done|]. by intros v w' _ _ Hl _ Hw'. }
  intros id w1 [[Hl1 Hw1] Hh1]. set (s1 := set_cl_cycle_reason AttemptFailed _).
  assert (core_inv w1 s1) as Hi1.
  { apply (core_held w1 (set_cl_info (cl_info s1) s)); [done|]. pose proof (core_later _ _ _ Hw Hl1 (c_core _ _ Hi)) as Hc.
    apply core_set_info; [done|]. destruct (c_info _ _ Hc) as [[Hs Hr] H2 H3 H4 H5 H6 H7 H8]. by constructor. }
  assert (acts w w1 (λ K K', tracked s K → tracked s1 K')) as Ha1.
  { destruct Hh1 as (tr & Et & Ht). eapply acts_mono; [by eapply acts_silent|]. by intros K K' ->. }
  apply runs_bind. eapply runs_mono; [apply (runs_cycle spec (cl_endpoint s1)); [apply (c_endpoint _ _ Hi1)|done]|].
  intros [o c'] w2 [(Hc' & Hl2 & Hw2 & (tr & Et & Ht)) Hsw]. cbn [fst snd] in *. apply runs_bind.
  set (s2 := set_cl_endpoint c' s1). assert (core_inv w2 s2) as Hi2 by (apply core_endpoint; [by apply (core_later w1)|done]).
  assert (acts w w2 (λ K K', tracked s K → tracked s2 K')) as Ha2.
  { eapply acts_trans; [exact Ha1|by eapply acts_silent|]. by intros K1 K2 K3 H ->. }
  assert (∀ s3 w3, fine w2 s2 s3 w3 → cl_state s3 = Idle → idled w s (set_cl_setup_not_before 0 (set_cl_selected true s3)) w3) as Hend.
  { intros s3 w3 [F1 F2 F3 F4] Hs3. split; [|done]. constructor; [by apply (inv_held w3 s3)| |done|].
    - transitivity w1; [done|]. by transitivity w2.
    - eapply acts_trans; [exact Ha2|exact F4|]. intros K1 K2 K3 H H' Ht'. by apply H', H. }
  destruct o as [sw|].
  - destruct Hsw as [Hsw _]. eapply runs_mono; [by apply (runs_apply_switch s2 sw)|]. intros s3 w3 [Hf3 Hs3]. apply runs_ret. by apply Hend.
  - apply runs_ret, runs_ret. apply Hend; [|done]. apply fine_same; [done|]. apply inv_idle; [done| |done].
    change (cl_remote s = ec_current c'). rewrite (c_remote _ _ Hi). by rewrite Hsw.
Qed.

(** ** The session's packets *)
Definition calm (w w' : World) : Prop := later w w' ∧ env_ok w' ∧ hush_between w w'.
Lemma calm_refl w : env_ok w → calm w w.
Proof. intros Hw. split_and!; [done|done|by apply hush_refl]. Qed.
Lemma calm_trans w1 w2 w3 : calm w1 w2 → calm w2 w3 → calm w1 w3.
Proof. intros (L1 & E1 & H1) (L2 & E2 & H2). split_and!; [by transitivity w2|done|by eapply hush_trans]. Qed.
Lemma asks_calm w w' : asks w w' → calm w w'.
Proof. intros (L & E & T). split_and!; [done|done|by apply hush_refl]. Qed.
Lemma runs_calm {A} (m : Io A) w (R : A → World → Prop) : hushed m → runs m w (λ a w', later w w' ∧ env_ok w' ∧ R a w') →
  runs m w (λ a w', calm w w' ∧ R a w').
Proof. intros Hm Hr. eapply runs_mono; [by apply (runs_hush _ _ _ Hm Hr)|]. by intros a w' [(? & ? & ?) ?]. Qed.
Lemma fine_calm w s s' w' : client_inv w' s' → calm w w' → cl_installed s' = cl_installed s → fine w s s' w'.
Proof. intros Hi (L & E & H) Ei. by apply fine_hush. Qed.
Lemma inv_calm w s w' : env_ok w → client_inv w s → calm w w' → client_inv w' s.
Proof. intros Hw Hi (L & _). by apply (client_later w). Qed.

(** A reading of the clock. *)
Lemma runs_clock w : env_ok w → runs now_ms w (λ t w', t = time w ∧ calm w w' ∧ past w' t).
Proof.
  intros Hw. apply runs_now_ms; [done|]. intros t w' -> Hle Hl Ht Hw'. split_and!; [done|by apply asks_calm|]. split; [apply (eo_clock w Hw)|done].
Qed.

(** What no packet changes: the destination, and the sequence number kept for repetitions. *)
Definition aim (raw : RawInfo) : IpAddr * Z := (pi_dst_ip (send_info raw), reserved_send_seq raw).
Lemma info_raw w i raw : info_inv w i → raw_ok raw → aim raw = aim (ci_raw i) → info_inv w (set_ci_raw raw i).
Proof. unfold aim. intros [] Hr [= E1 E2]. constructor; try done; cbn; congruence. Qed.
Lemma aim_send_raw ctx raw payload : yields (send_raw ctx raw payload) (λ r, aim r.2 = aim raw).
Proof. unfold send_raw. yields_tac. by case_bool_decide. Qed.
Lemma aim_after_send ctx raw : yields (after_send ctx raw) (λ r, aim r = aim raw).
Proof.
  unfold after_send. yields_tac. unfold after_send_window. cbv zeta.
  repeat match goal with |- context [if ?b then _ else _] => destruct b end; done.
Qed.
Lemma aim_transmit ctx raw x : yields (transmit_safer ctx raw x) (λ r, aim r.2 = aim raw).
Proof.
  unfold transmit_safer. eapply yields_bind; [apply aim_send_raw|]. intros [ctx' raw'] E. eapply yields_bind; [apply aim_after_send|].
  intros raw2 E2. apply yields_ret. cbn in *. congruence.
Qed.
Lemma aim_after_recv ctx raw m : aim (after_recv ctx raw m) = aim raw.
Proof.
  unfold after_recv. destruct (rc_raw_mode ctx); [| |]; cbv zeta; repeat match goal with |- context [if ?b then _ else _] => destruct b end; done.
Qed.
Lemma aim_send_handshake ctx raw a b c : yields (send_handshake ctx cr raw a b c) (λ r, aim r.2 = aim raw).
Proof.
  unfold send_handshake, send_bare. do 3 (eapply yields_bind; [apply yields_any|intros ? _]; cbv zeta). destruct a2; [|by apply yields_ret].
  eapply yields_bind; [apply aim_send_raw|]. intros r E. by apply yields_ret.
Qed.
Lemma aim_parse_recv ctx raw buf ll o raw' : parse_recv ctx raw buf ll = Done (o, raw') → aim raw' = aim raw.
Proof.
  assert (∀ (X : Type) (m : outcome X) f (b : option (list Z) * RawInfo), m ≫= f = Done b → ∃ a, m = Done a ∧ f a = Done b) as Hb.
  { intros X m f b. destruct m; cbn; [eauto|done]. }
  unfold parse_recv. intros (ip & _ & E)%Hb. destruct ip as [ip|]; [|by injection E as _ <-]. cbv zeta in E.
  set (r0 := if rc_lower_level ctx then _ else _) in E. assert (aim r0 = aim raw) as <- by (unfold r0; by destruct (rc_lower_level ctx)).
  destruct (match rc_bind_addr ctx with Some _ => _ | None => _ end); [by injection E as _ <-|]. apply Hb in E as (payload & _ & E).
  destruct (rc_raw_mode ctx); (destruct (negb _); [by injection E as _ <-|]); apply Hb in E as ([p|] & _ & E); try by injection E as _ <-.
  - destruct p as [t data]. destruct (negb _); [by injection E as _ <-|]. injection E as _ <-. destruct (t_rst t); [|done]. unfold recv_rst. cbv zeta. by destruct (_ && _).
  - destruct p as [[sp dp] data]. destruct (negb _); by injection E as _ <-.
  - destruct p as [h data]. destruct (negb _); by injection E as _ <-.
Qed.

Lemma fine_pure w s s1 w1 s' : fine w s s1 w1 → client_inv w1 s' → cl_installed s' = cl_installed s1 → fine w s s' w1.
Proof. intros Hf Hi E. eapply fine_then; [exact Hf|]. apply fine_calm; [done|apply calm_refl, (f_env _ _ _ _ Hf)|done]. Qed.
Lemma ret_from w s s' w' : fine w s s' w' → runs (mret s') w' (fine w s).
Proof. intros. by apply runs_ret. Qed.
Lemma inv_sent w s f : client_inv w s → info_ok (f (send_info (ci_raw (cl_info s)))) →
  pi_dst_ip (f (send_info (ci_raw (cl_info s)))) = pi_dst_ip (send_info (ci_raw (cl_info s))) → client_inv w (upd_sent f s).
Proof.
  intros Hi Hf E. pose proof (c_info _ _ Hi) as Hn. apply inv_set_info; [done|]. apply info_raw; [done| |].
  - split; [done|apply Hn].
  - unfold aim. cbn. by rewrite E.
Qed.
Lemma sent_ok w s : client_inv w s → info_ok (send_info (ci_raw (cl_info s))) ∧ info_ok (recv_info (ci_raw (cl_info s))).
Proof. intros Hi. apply (c_info _ _ Hi). Qed.
Lemma inv_hb_sent w s now : client_inv w s → past w now → client_inv w (hb_sent s now).
Proof. intros Hi Hn. apply inv_set_info; [done|]. destruct (c_info _ _ Hi). by constructor. Qed.
Lemma fine_sent w s ctx raw w' : env_ok w → client_inv w s → calm w w' → ctx_conf ctx = ctx_conf (cl_ctx s) → raw_ok raw →
  aim raw = aim (ci_raw (cl_info s)) → fine w s (upd_info (set_ci_raw raw) (set_cl_ctx ctx s)) w'.
Proof.
  intros Hw Hi Hc Ec Hr Ea. pose proof (inv_calm _ _ _ Hw Hi Hc) as Hi'. apply fine_calm; [|done|done].
  apply inv_set_info; [by apply inv_conf|]. apply info_raw; [apply (c_info _ _ Hi')|done|done].
Qed.

Lemma runs_client_send s w : env_ok w → client_inv w s → runs (client_send_raw s) w (fine w s).
Proof.
  intros Hw Hi. unfold client_send_raw. apply runs_bind. destruct (c_ctx _ _ Hi) as [Hctx _]. destruct (sent_ok _ _ Hi) as [Hs Hr].
  eapply runs_mono; [apply runs_yields; [apply (runs_calm _ _ (λ r _, ctx_conf r.1 = ctx_conf (cl_ctx s) ∧ raw_ok r.2)); [apply hushed_send_raw|]|apply aim_send_raw]|].
  - apply runs_send_raw; [done|done|done|split; [constructor|done]| |]; [intros; by split_and!|].
    intros. split_and!; try done. by apply sent_raw_ok, (c_info _ _ Hi).
  - intros [ctx raw] w' [[Hc [Ec Hraw]] Ea]. apply runs_ret. by apply fine_sent.
Qed.
Lemma runs_client_handshake s id2 w : env_ok w → client_inv w s → runs (client_send_handshake s id2) w (fine w s).
Proof using He HP.
  intros Hw Hi. unfold client_send_handshake. rewrite (c_crypto _ _ Hi). apply runs_bind. destruct (c_ctx _ _ Hi) as [Hctx _].
  eapply runs_mono; [apply runs_yields; [apply (runs_calm _ _ (λ r _, ctx_conf r.1.2 = ctx_conf (cl_ctx s) ∧ raw_ok r.2)); [apply hushed_handshake|]|apply aim_send_handshake]|].
  - unfold send_handshake. apply (runs_send_bare cr cm am legacy keys He); [done|done|apply (c_info _ _ Hi)|unfold build_handshake; auto with bytes|].
    intros ok ctx raw w' Ec Hr Hl Hw'. by split_and!.
  - intros [[ok ctx] raw] w' [[Hc [Ec Hraw]] Ea]. apply runs_ret. by apply fine_sent.
Qed.
Lemma runs_handshake_tcp s id2 w : env_ok w → client_inv w s → runs (handshake_tcp s id2) w (fine w s).
Proof using He HP.
  intros Hw Hi. unfold handshake_tcp. apply runs_bind. eapply runs_mono; [by apply runs_client_handshake|]. intros s1 w1 Hf. apply runs_ret.
  pose proof (f_inv _ _ _ _ Hf) as Hi1. destruct (sent_ok _ _ Hi1) as [Hs _]. eapply fine_pure; [done| |done]. apply inv_sent; [done| |done].
  destruct Hs. constructor; try done. apply wrap_range. lia.
Qed.
Lemma runs_handshake_other s id2 w : env_ok w → client_inv w s → runs (handshake_other s id2) w (fine w s).
Proof using He HP.
  intros Hw Hi. unfold handshake_other. apply runs_bind. eapply runs_mono; [by apply runs_client_handshake|]. intros s1 w1 Hf. apply runs_ret.
  case_bool_decide; [|done]. pose proof (f_inv _ _ _ _ Hf) as Hi1. destruct (sent_ok _ _ Hi1) as [Hs _].
  eapply fine_pure; [done| |done]. apply inv_sent; [done| |done]. destruct Hs. constructor; try done. apply wrap_range. lia.
Qed.
Lemma runs_client_submit s j w : env_ok w → client_inv w s → job_ok j → runs (submit_job s j) w (fine w s).
Proof using He HP.
  intros Hw Hi Hj. destruct (c_pipe _ _ Hi) as (subs & outs & Hr & Hs). unfold submit_job. apply runs_bind.
  eapply runs_mono; [apply (runs_calm _ _ (λ r _, pipe_ok r.2)); [apply hushed_submit_among|]|].
  - apply (runs_submit_among cr cm am legacy keys He n gro subs outs); [done|done|done|done|]. intros ok p' w' Hr' Hl Hw' _. split_and!; [done|done|].
    exists (subs ++ [j]), outs. split; [done|]. apply Forall_app_2; [done|by constructor].
  - intros [ok p] w' [Hc Hp]. apply runs_ret. apply fine_calm; [|done|done]. apply inv_pipe; [by apply (inv_calm w)|done].
Qed.

(** ** The timer of each state *)
Lemma runs_timer_syn s now w : env_ok w → client_inv w s → past w now → runs (timer_syn s now) w (fine w s).
Proof.
  intros Hw Hi Hn. unfold timer_syn. destruct (timed_out s now); [by apply go_idle_fine|]. destruct (resend_due s now); [|by apply ret_from, fine_same].
  apply runs_bind. apply (runs_mono _ _ (fine w s)).
  - destruct (_ =? 0); [|by apply ret_from, fine_same]. apply runs_bind, runs_secure_u32; [done|]. intros seq w1 _ Hsq Hl1 Ht1 _ _ Hw1.
    apply runs_bind, runs_secure_u32; [done|]. intros ack w2 _ Hak Hl2 Ht2 _ _ Hw2. apply ret_from.
    assert (calm w w2) as Hc by (eapply calm_trans; apply asks_calm; by split_and!).
    pose proof (inv_calm _ _ _ Hw Hi Hc) as Hi2. apply fine_calm; [|done|done]. apply inv_sent; [done| |done].
    destruct (sent_ok _ _ Hi2) as [[] _]. by constructor.
  - intros s1 w1 Hf1. apply runs_bind. eapply runs_mono; [apply runs_client_send; [apply (f_env _ _ _ _ Hf1)|apply Hf1]|]. intros s2 w2 Hf2.
    pose proof (fine_then _ _ _ _ _ _ Hf1 Hf2) as Hf. apply ret_from. eapply fine_pure; [done| |done]. apply inv_hb_sent; [apply Hf|].
    apply (past_later w); [done|apply (f_later _ _ _ _ Hf)|done].
Qed.
Lemma runs_timer_dummy s now w : env_ok w → client_inv w s → runs (timer_dummy s now) w (fine w s).
Proof. intros Hw Hi. unfold timer_dummy. destruct (timed_out s now); [by apply go_idle_fine|by apply ret_from, fine_same]. Qed.
Lemma inv_reserve w s : client_inv w s → client_inv w (upd_raw (set_reserved_send_seq (pi_seq (sent_info s))) s).
Proof.
  intros Hi. destruct (sent_ok _ _ Hi) as [Hs _]. apply inv_set_info; [done|]. destruct (c_info _ _ Hi). constructor; try done. apply Hs.
Qed.
Lemma reserved_ok w s : client_inv w s → is_u 32 (reserved_send_seq (ci_raw (cl_info s))).
Proof. intros Hi. apply (c_info _ _ Hi). Qed.
(** A handler's end: the time of the packet is noted. *)
Lemma ret_hb_sent w s s1 w1 now : env_ok w → past w now → fine w s s1 w1 → runs (mret (hb_sent s1 now)) w1 (fine w s).
Proof.
  intros Hw Hn Hf. apply ret_from. eapply fine_pure; [done| |done]. apply inv_hb_sent; [apply Hf|].
  apply (past_later w); [done|apply (f_later _ _ _ _ Hf)|done].
Qed.
Lemma fine_inv w s s' : env_ok w → client_inv w s' → cl_installed s' = cl_installed s → fine w s s' w.
Proof. intros. apply fine_calm; [done|by apply calm_refl|done]. Qed.

Lemma runs_timer_handshake1 s now w : env_ok w → client_inv w s → past w now → runs (timer_handshake1 s now) w (fine w s).
Proof using He HP.
  intros Hw Hi Hn. unfold timer_handshake1. destruct (timed_out s now); [by apply go_idle_fine|]. destruct (resend_due s now); [|by apply ret_from, fine_same].
  apply runs_bind. apply (runs_mono _ _ (fine w s)); [|intros s1 w1 Hf; by apply ret_hb_sent].
  case_bool_decide; [|by apply runs_handshake_other]. cbv zeta. set (s1 := if _ =? 0 then _ else s).
  assert (client_inv w s1 ∧ cl_installed s1 = cl_installed s) as [Hi1 E1].
  { unfold s1. destruct (_ =? 0); [|done]. split; [|done]. apply inv_reserve, inv_sent; [done| |done].
    destruct (sent_ok _ _ Hi) as [[] []]. constructor; try done; apply wrap_range; lia. }
  clearbody s1. set (s2 := upd_sent _ s1). assert (client_inv w s2) as Hi2.
  { apply inv_sent; [done| |done]. destruct (sent_ok _ _ Hi1) as [[] _]. constructor; try done. by apply reserved_ok with w. }
  assert (fine w s s2 w) as Hf2 by by apply fine_inv. clearbody s2. apply runs_bind. apply (runs_mono _ _ (fine w s)).
  - destruct (negb _); [|by apply ret_from]. eapply runs_from; [done|]. by apply runs_client_send.
  - intros s3 w3 Hf3. eapply runs_from; [done|]. apply runs_handshake_tcp; [apply (f_env _ _ _ _ Hf3)|apply Hf3].
Qed.
Lemma runs_timer_handshake2 s now w : env_ok w → client_inv w s → past w now → runs (timer_handshake2 s now) w (fine w s).
Proof using He HP.
  intros Hw Hi Hn. unfold timer_handshake2. destruct (timed_out s now); [by apply go_idle_fine|]. destruct (resend_due s now); [|by apply ret_from, fine_same].
  cbv zeta. generalize (oppsite_id (cl_info s)). intros id2.
  apply runs_bind. apply (runs_mono _ _ (fine w s)); [|intros s1 w1 Hf; by apply ret_hb_sent].
  case_bool_decide; [|by apply runs_handshake_other]. set (s1 := if _ =? 0 then _ else s).
  assert (client_inv w s1 ∧ cl_installed s1 = cl_installed s) as [Hi1 E1].
  { unfold s1. destruct (_ =? 0); [|done]. split; [|done]. apply inv_reserve, inv_sent; [done| |done].
    destruct (sent_ok _ _ Hi) as [[] []]. constructor; try done. apply wrap_range. lia. }
  clearbody s1. set (s2 := upd_sent _ s1). assert (client_inv w s2) as Hi2.
  { apply inv_sent; [done| |done]. destruct (sent_ok _ _ Hi1) as [[] _]. constructor; try done. by apply reserved_ok with w. }
  eapply runs_from; [by apply (fine_inv w s s2)|]. by apply runs_handshake_tcp.
Qed.
(** The counter of a sent packet. *)
Lemma inv_prepared w s ar : client_inv w s → client_inv w (set_cl_info (set_anti_replay ar (cl_info s)) s).
Proof. intros Hi. apply inv_set_info; [done|]. destruct (c_info _ _ Hi). by constructor. Qed.
Lemma roller_ok w s : client_inv w s → is_byte (my_roller (cl_info s)).
Proof. intros Hi. apply (c_info _ _ Hi). Qed.
Lemma runs_timer_ready s now w : env_ok w → client_inv w s → past w now → runs (timer_ready s now) w (fine w s).
Proof using He HP.
  intros Hw Hi Hn. unfold timer_ready. cbv zeta. set (s0 := set_cl_fail_time_counter 0 s).
  assert (client_inv w s0) as Hi0 by by apply (inv_held w s). apply runs_bind.
  eapply runs_mono; [apply (runs_ep_rollback_due spec (cl_endpoint s0)); [apply (c_endpoint _ _ Hi0)|done]|]. intros [rb c'] w1 [Hs Ec]. cbn [fst snd].
  pose proof (fine_endpoint w s0 c' w1 Hw Hi0 Hs Ec) as Hf. set (s1 := set_cl_endpoint c' s0) in *.
  assert (fine w s s1 w1) as Hf1 by (eapply fine_then; [by apply (fine_inv w s s0)|done]). clear Hf Ec Hs. clearbody s1. clear s0 Hi0.
  pose proof (f_inv _ _ _ _ Hf1) as Hi1. pose proof (f_env _ _ _ _ Hf1) as Hw1.
  destruct rb; [eapply runs_from; [done|]; by apply go_idle_fine|].
  destruct (_ <? _); [eapply runs_from; [done|]; by apply go_idle_fine|]. destruct (_ <? _); [eapply runs_from; [done|]; by apply go_idle_fine|].
  destruct (_ <? _); [by apply ret_from|]. set (hb := if _ =? 0 then _ else _).
  assert (bytes hb) as Hhb by (unfold hb; destruct (_ =? 0); [constructor|apply (c_hb _ _ Hi1)]). clearbody hb.
  destruct (prepare_safer _ _ _) as [plain info] eqn:Ep.
  destruct (prepare_safer_ok _ _ _ _ _ (roller_ok _ _ Hi1) heartbeat_byte Hhb Ep) as (Hb & Hl & ar & ->).
  apply runs_bind. apply (runs_mono _ _ (fine w s)); [|intros s2 w2 Hf2; by apply ret_hb_sent].
  eapply runs_from; [eapply fine_then; [exact Hf1|]; apply (fine_inv w1 s1); [done|by apply (inv_prepared w1 s1 ar)|done]|].
  apply runs_client_submit; [done|by apply inv_prepared|done].
Qed.
Lemma runs_timer_state s now w : env_ok w → client_inv w s → past w now → runs (timer_state s now) w (fine w s).
Proof using He HP.
  intros Hw Hi Hn. unfold timer_state. destruct (cl_state s); [by apply ret_from, fine_same|by apply runs_timer_syn|by apply runs_timer_dummy
    |by apply runs_timer_handshake1|by apply runs_timer_handshake2|by apply runs_timer_ready].
Qed.

(** ** The start of an attempt *)
(** Nothing but the session's own fields changes. *)
Definition quietly (w : World) (s s' : Client) (w' : World) : Prop :=
  client_inv w' s' ∧ calm w w' ∧ cl_installed s' = cl_installed s ∧ cl_remote s' = cl_remote s ∧ cl_state s' = cl_state s ∧ cl_underlay s' = cl_underlay s.
Lemma quietly_refl w s : env_ok w → client_inv w s → quietly w s s w.
Proof. intros. split_and!; try done. by apply calm_refl. Qed.
Lemma quietly_trans w s w1 s1 w2 s2 : quietly w s s1 w1 → quietly w1 s1 s2 w2 → quietly w s s2 w2.
Proof. intros (_ & C1 & E1 & F1 & G1 & H1) (I & C2 & E2 & F2 & G2 & H2). split_and!; try congruence. by eapply calm_trans. Qed.
Lemma quietly_fine w s s' w' : quietly w s s' w' → fine w s s' w'.
Proof. intros (I & C & E & _). by apply fine_calm. Qed.
Lemma quietly_calm w s w' : env_ok w → client_inv w s → calm w w' → quietly w s s w'.
Proof. intros Hw Hi Hc. split_and!; try done; by apply (inv_calm w). Qed.
Lemma make_ll idx mac : length mac = 6%nat → ∃ a, make_sockaddr_ll idx mac = Done a.
Proof. intros E. unfold make_sockaddr_ll. rewrite put_Done by (rewrite ?length_replicate; lia). eauto. Qed.

Lemma runs_refresh_ll s w : env_ok w → client_inv w s → runs (refresh_lower_level_for_current s) w (λ r w', quietly w s r.2 w').
Proof.
  intros Hw Hi. unfold refresh_lower_level_for_current. destruct (_ || _); [by apply runs_ret, quietly_refl|].
  destruct (cl_remote s).1 as [v4|v6]; [|by apply runs_ret, quietly_refl]. apply runs_bind.
  eapply runs_mono; [by apply runs_lower_level|]. intros [[[d name] mac]|] w1 [Ha1 Hmac]; [|apply runs_ret, quietly_calm; [done..|by apply asks_calm]].
  specialize (Hmac d name mac eq_refl). apply runs_bind. pose proof Ha1 as (_ & Hw1 & _).
  eapply runs_mono; [by apply runs_index|]. intros i w2 Ha2. assert (quietly w s s w2) as Hq by (apply quietly_calm; [done..|]; apply asks_calm; by eapply asks_trans).
  destruct i as [idx|]; [|by apply runs_ret]. destruct (make_ll idx mac Hmac) as (a & Ea). apply runs_bind. eapply runs_lift; [exact Ea|].
  apply runs_ret. destruct Hq as (Hi2 & Hc & _). split_and!; try done.
  apply (inv_held w2 (upd_sent (set_pi_addr_ll a) s)); [done|]. apply inv_sent; [done| |done]. destruct (sent_ok _ _ Hi2) as [[] _]. by constructor.
Qed.
Lemma runs_source_port s w : env_ok w → client_inv w s →
  runs (source_port s) w (λ r w', quietly w s r.2 w' ∧ ∀ p, r.1 = Some p → is_u 16 p).
Proof using Hsu.
  intros Hw Hi. unfold source_port. rewrite (bk_cfg _ _ _ _ _ _ (c_book _ _ Hi)). destruct (cfg_source_port cfg) as [p|] eqn:Ep.
  - apply runs_ret. split; [by apply quietly_refl|]. intros q [= <-]. by eapply su_source_port.
  - apply runs_bind. eapply runs_mono; [apply (runs_calm _ _ (λ o _, ∀ fd p, o = Some (fd, p) → 10000 ≤ p < 65535)); [apply hushed_port|]|].
    + unfold bind_new_random_port. apply runs_bind. apply (runs_mono _ _ (λ _ w', later w w' ∧ env_ok w')).
      { destruct (cl_bind_fd s); [apply runs_emit; [done|]; intros; done|by apply runs_ret]. }
      intros _ w1 [Hl1 Hw1]. eapply runs_mono; [by apply runs_reserve|]. intros o w2 [(Hl2 & Hw2 & _) Ho]. split_and!; [by transitivity w1|done|done].
    + intros o w1 [Hc Ho]. pose proof (inv_calm _ _ _ Hw Hi Hc) as Hi1. destruct o as [[fd p]|]; apply runs_ret; (split; [split_and!; try done; by apply (inv_held w1 s)|]).
      * intros q [= <-]. specialize (Ho fd p eq_refl). unfold is_u. lia.
      * done.
Qed.
Lemma runs_attach_filter s port w : env_ok w → client_inv w s → runs (attach_filter s port) w (λ r w', quietly w s r.2 w').
Proof.
  intros Hw Hi. unfold attach_filter. cbv zeta. set (s1 := set_cl_ctx _ s). assert (client_inv w s1) as Hi1.
  { destruct (c_ctx _ _ Hi) as [Hc Hr]. apply (inv_still w w s); try done. apply core_ctx; [apply Hi|]. unfold set_filter. by case_bool_decide. }
  assert (∀ w', calm w w' → quietly w s s1 w') as Hq.
  { intros w' Hc. split_and!; try done; by apply (inv_calm w). }
  change (cl_cfg s1) with (cl_cfg s). destruct (cfg_disable_bpf _); [by apply runs_ret, Hq, calm_refl|].
  apply runs_bind, runs_ask; [done|]. intros r w' _ Ha. by apply runs_ret, Hq, asks_calm.
Qed.
Lemma runs_easy_device s w : env_ok w → runs (easy_device s) w (λ _ w', asks w w').
Proof. intros Hw. unfold easy_device. destruct (cl_bind_fd s), (cl_underlay s); try (by apply runs_ret, asks_refl). by apply runs_device. Qed.
Lemma past_0 w : env_ok w → past w 0.
Proof. intros Hw. split; [done|apply (eo_clock w Hw)]. Qed.
Lemma inv_clocked w s now : env_ok w → client_inv w s → past w now →
  client_inv w (upd_info (λ i, set_last_hb_sent_time 0 (set_last_state_time now i)) s).
Proof. intros Hw Hi Hn. apply inv_set_info; [done|]. pose proof (past_0 w Hw). destruct (c_info _ _ Hi). by constructor. Qed.
Lemma inv_started w s st now : env_ok w → client_inv w s → past w now → endpoint_resources_ready s (cl_remote s) = true →
  client_inv w (start_state s st now).
Proof.
  intros Hw Hi Hn Hr. apply (inv_clocked w (set_cl_selected false (set_cl_state st s))); [done| |done].
  apply (inv_held w (set_cl_state st s)); [done|]. by apply inv_state.
Qed.
Lemma inv_defer w s now : client_inv w s → client_inv w (defer s now).
Proof. by apply inv_held. Qed.
Lemma inv_src w s ip : client_inv w s → ip_ok ip → is_ipv6 ip = raw_is_v6 cfg → client_inv w (upd_sent (set_pi_src_ip ip) s).
Proof.
  intros Hi Hip Hv. apply inv_sent; [done| |done]. pose proof (ii_family _ _ (c_info _ _ Hi)) as Hf. destruct (sent_ok _ _ Hi) as [[] _]. constructor; try done.
  apply family_same. cbn. congruence.
Qed.
Lemma inv_ports w s port : client_inv w s → is_u 16 port →
  client_inv w (upd_sent (set_pi_src_port port) s) ∧ client_inv w (upd_sent (set_pi_dst_port port) s).
Proof. intros Hi Hp. split; (apply inv_sent; [done| |done]); destruct (sent_ok _ _ Hi) as [[] _]; by constructor. Qed.
Lemma runs_client_src s w : env_ok w → client_inv w s →
  runs (match cfg_source_ip (cl_cfg s) with
        | Some ip => mret (Some ip)
        | None => get_src_addr_dev (cl_remote s) (ud_dev <$> cl_underlay s)
        end) w (λ o w', calm w w' ∧ ∀ ip, o = Some ip → ip_ok ip ∧ is_ipv6 ip = raw_is_v6 cfg).
Proof using Hsu.
  intros Hw Hi. rewrite (bk_cfg _ _ _ _ _ _ (c_book _ _ Hi)). destruct (cfg_source_ip cfg) as [ip|] eqn:Es.
  - apply runs_ret. split; [by apply calm_refl|]. intros x [= <-]. by eapply su_source.
  - eapply runs_mono; [by apply runs_src|]. intros o w' [Ha Ho]. split; [by apply asks_calm|]. intros ip E. destruct (Ho ip E) as [Hip Hv].
    split; [done|]. rewrite Hv. eapply su_family; [done|]. by eapply remote_relay.
Qed.

(** An attempt starts only when the rule and the route of its address are there. *)
Lemma runs_idle_start s now w : env_ok w → client_inv w s → past w now → runs (idle_start s now) w (λ r w', fine w s r.2 w').
Proof using Hsu.
  intros Hw Hi Hn. unfold idle_start. destruct (_ <? _); [by apply runs_ret, fine_same|].
  assert (∀ s1 w1, quietly w s s1 w1 → quietly w s (defer s1 now) w1 ∧ quietly w s (set_cl_exit true s1) w1) as Hend.
  { intros s1 w1 (I & C & E). split; split; try done; by apply (inv_held w1 s1). }
  pose proof (quietly_refl w s Hw Hi) as Hq0.
  destruct (endpoint_resources_ready s (cl_remote s)) eqn:Er; cbn [negb]; [|by apply runs_ret, quietly_fine, Hend].
  apply runs_bind. eapply runs_mono; [by apply runs_refresh_ll|]. intros [ok1 s1] w1 Hq1. cbn [fst snd] in *.
  destruct ok1; cbn [negb]; [|by apply runs_ret, quietly_fine, Hend]. pose proof Hq1 as (Hi1 & (_ & Hw1 & _) & _).
  apply runs_bind. eapply runs_mono; [by apply runs_client_src|]. intros [src|] w2 [Hc2 Hsrc].
  2:{ apply runs_ret, quietly_fine, Hend. eapply quietly_trans; [exact Hq1|]. by apply quietly_calm. }
  destruct (Hsrc src eq_refl) as [Hip Hv]. set (s2 := upd_sent (set_pi_src_ip src) s1).
  assert (quietly w s s2 w2) as Hq2.
  { eapply quietly_trans; [exact Hq1|]. split_and!; try done. apply inv_src; [by apply (inv_calm w1)|done|done]. }
  clearbody s2. pose proof Hq2 as (Hi2 & (_ & Hw2 & _) & _). apply runs_bind.
  eapply runs_mono; [by apply runs_source_port|]. intros [[port|] s3] w3 [Hq3 Hport]; cbn [fst snd] in *; cycle 1.
  { apply runs_ret, quietly_fine, Hend. by eapply quietly_trans. }
  specialize (Hport port eq_refl). pose proof (quietly_trans _ _ _ _ _ _ Hq2 Hq3) as Hq. pose proof Hq3 as (Hi3 & (_ & Hw3 & _) & _).
  set (s4 := if bool_decide _ then _ else _). assert (quietly w s s4 w3) as Hq4.
  { eapply quietly_trans; [exact Hq|]. destruct (inv_ports w3 s3 port Hi3 Hport) as [Ha _]. unfold s4. case_bool_decide; split_and!; try done; [|apply calm_refl, Hw3..].
    by apply inv_ports. }
  clearbody s4. pose proof Hq4 as (Hi4 & _). apply runs_bind. eapply runs_mono; [by apply (runs_attach_filter s4)|]. intros [ok5 s5] w5 Hq5. cbn [fst snd] in *.
  pose proof (quietly_trans _ _ _ _ _ _ Hq4 Hq5) as Hq6. destruct ok5; cbn [negb]; [|by apply runs_ret, quietly_fine, Hend].
  pose proof Hq6 as (Hi5 & Hc5 & Ei5 & Er5 & _).
  assert (∀ st w', calm w5 w' → fine w s (start_state s5 st now) w') as Hgo.
  { intros st w' Hc. pose proof Hc5 as (Hl5 & Hw5 & _). pose proof (calm_trans _ _ _ Hc5 Hc) as (Hl & Hw' & _).
    apply fine_calm; [|by eapply calm_trans|done]. apply inv_started; [done|by apply (inv_calm w5)|by apply (past_later w)|].
    rewrite Er5. by rewrite (ready_same s). }
  pose proof Hc5 as (_ & Hw5 & _). destruct (cfg_raw_mode _); try by apply runs_ret, Hgo, calm_refl.
  destruct (cfg_easy_faketcp _); [|by apply runs_ret, Hgo, calm_refl]. apply runs_bind. eapply runs_mono; [by apply runs_easy_device|].
  intros d w6 Ha6. apply asks_calm in Ha6. destruct d; cbn [negb]; [by apply runs_ret, Hgo|]. apply runs_ret, quietly_fine, Hend.
  eapply quietly_trans; [exact Hq6|]. by apply quietly_calm.
Qed.

Lemma runs_timer_idle s now w : env_ok w → client_inv w s → cl_state s = Idle → past w now → runs (timer_idle s now) w (λ r w', fine w s r.2 w').
Proof using Hsu.
  intros Hw Hi Hs Hn. unfold timer_idle. apply runs_bind. eapply runs_mono; [by apply runs_idle_select|]. intros s1 w1 [Hf1 _].
  eapply runs_mono; [apply runs_idle_start; [apply (f_env _ _ _ _ Hf1)|apply Hf1|apply (past_later w); [done|apply (f_later _ _ _ _ Hf1)|done]]|].
  intros r w2 Hf2. by eapply fine_then.
Qed.
Lemma conv_len_cleared {T} `{Countable T} (m : ConvManager T) now : conv_inv m → conv_len (clear_inactive m now).2 ≤ conv_len m.
Proof.
  intros Hi. destruct (clear_inactive m now) as [gone m'] eqn:E. destruct (clear_inactive_gone m now gone m' Hi E) as (_ & _ & _ & Hl).
  unfold conv_len. apply inj_le, map_subseteq_size, map_subseteq_spec. intros c d. cbn [snd]. rewrite Hl. by case_decide.
Qed.
Lemma runs_client_timer s w : env_ok w → client_inv w s → runs (on_timer s) w (fine w s).
Proof using He HP Hsu.
  intros Hw Hi. unfold on_timer. apply runs_bind. eapply runs_mono; [by apply runs_clock|]. intros now w1 (_ & Hc1 & Hn1).
  assert (fine w s s w1) as Hf1 by (apply quietly_fine; by apply quietly_calm).
  apply runs_bind. eapply runs_mono; [apply runs_timer_kernel; [apply (f_env _ _ _ _ Hf1)|apply Hf1]|]. intros s2 w2 Hf2.
  pose proof (fine_then _ _ _ _ _ _ Hf1 Hf2) as Hf. pose proof (f_inv _ _ _ _ Hf) as Hi2. pose proof (f_env _ _ _ _ Hf) as Hw2.
  assert (past w2 now) as Hn2 by (apply (past_later w1); [apply Hc1|apply (f_later _ _ _ _ Hf2)|done]). cbv zeta.
  set (s3 := set_cl_convs _ s2). assert (fine w s s3 w2) as Hf3.
  { eapply fine_pure; [exact Hf| |done]. pose proof (c_convs _ _ Hi2) as Hcv. apply inv_set_convs; [done|by apply conv_inv_clear_inactive|].
    pose proof (conv_len_cleared (cl_convs s2) now Hcv). pose proof (c_conv_num _ _ Hi2). lia. }
  clearbody s3. pose proof (f_inv _ _ _ _ Hf3) as Hi3. apply runs_bind. apply (runs_mono _ _ (fine w2 s3)).
  { destruct (ri_disabled _); [by apply go_idle_fine|by apply ret_from, fine_same]. }
  intros s4 w4 Hf4'. pose proof (fine_then _ _ _ _ _ _ Hf3 Hf4') as Hf4. apply runs_bind. pose proof (f_env _ _ _ _ Hf4) as Hw4. pose proof (f_inv _ _ _ _ Hf4) as Hi4.
  assert (past w4 now) as Hn4 by (apply (past_later w2); [done|apply (f_later _ _ _ _ Hf4')|done]).
  apply (runs_mono _ _ (λ r w', fine w s r.2 w' ∧ past w' now)).
  { case_bool_decide; [|by apply runs_ret]. eapply runs_mono; [by apply runs_timer_idle|]. intros r w' Hf'. split; [by eapply fine_then|].
    apply (past_later w4); [done|apply (f_later _ _ _ _ Hf')|done]. }
  intros [go s5] w5 [Hf5 Hn5]. cbn [fst snd] in *. destruct go; cbn [negb]; [|by apply ret_from]. eapply runs_from; [exact Hf5|].
  pose proof (f_env _ _ _ _ Hf5). pose proof (f_inv _ _ _ _ Hf5). destruct (_ && _); [by apply go_idle_fine|by apply runs_timer_state].
Qed.

(** ** Local datagrams *)
(** The first draw that is not zero. *)
Lemma runs_nz_first fuel w (Q : Z → World → Prop) : env_ok w → (∃ j, (j < fuel)%nat ∧ word_at w (w_urandom_pos w + 4 * j) ≠ 0) →
  (∀ k w', (∀ i, (i < k)%nat → word_at w (w_urandom_pos w + 4 * i) = 0) → word_at w (w_urandom_pos w + 4 * k) ≠ 0 → asks w w' →
     w_urandom w' = w_urandom w → w_urandom_pos w' = (w_urandom_pos w + 4 * S k)%nat → Q (word_at w (w_urandom_pos w + 4 * k)) w') →
  runs (random_nz_loop fuel) w Q.
Proof.
  revert w Q. induction fuel as [|fuel IH]; intros w Q Hw (j & Hj & Hnz) HQ; [lia|]. cbn [random_nz_loop].
  apply runs_bind, runs_secure_u32; [done|]. intros v w1 Hv _ Hl Ht Hu Hp Hw1. destruct (Z.eqb_spec v 0) as [E|Hne].
  - assert (∀ i, word_at w1 (w_urandom_pos w1 + 4 * i) = word_at w (w_urandom_pos w + 4 * S i)) as Hsh.
    { intros i. unfold word_at. rewrite Hu, Hp. f_equal. apply list_fmap_ext. intros ? k _. f_equal. lia. }
    destruct j as [|j]; [rewrite Nat.mul_0_r, Nat.add_0_r in Hnz; congruence|]. apply IH; [done|exists j; split; [lia|by rewrite Hsh]|].
    intros k w' Hz Hk Ha Hu' Hp'. rewrite Hsh. apply (HQ (S k)); [|by rewrite <-Hsh| |congruence|lia].
    + intros [|i] Hi; [rewrite Nat.mul_0_r, Nat.add_0_r; congruence|]. rewrite <-Hsh. apply Hz. lia.
    + eapply asks_trans; [|exact Ha]. done.
  - apply runs_ret. assert (v = word_at w (w_urandom_pos w + 4 * 0)) as -> by by rewrite Nat.mul_0_r, Nat.add_0_r.
    apply HQ; [lia|done|done|done|lia].
Qed.
(** The search for a free number ends: among the next draws there is one. *)
Lemma runs_new_conv fuel m w : env_ok w →
  (∃ j, (j < fuel)%nat ∧ word_at w (w_urandom_pos w + 4 * j) ≠ 0 ∧ is_conv_used m (word_at w (w_urandom_pos w + 4 * j)) = false) →
  runs (new_conv_loop fuel m) w (λ c w', asks w w' ∧ is_conv_used m c = false).
Proof.
  revert w. induction fuel as [|fuel IH]; intros w Hw (j & Hj & Hnz & Hfree); [lia|]. cbn [new_conv_loop]. apply runs_bind.
  apply runs_nz_first; [done|apply (eo_nz w Hw)|]. intros k w1 Hz Hk Ha Hu Hp. destruct (is_conv_used m (word_at w (w_urandom_pos w + 4 * k))) eqn:Eu; [|by apply runs_ret].
  assert (k < j)%nat as Hkj.
  { destruct (decide (k = j)) as [->|]; [congruence|]. destruct (decide (j < k)%nat) as [Hlt|]; [by rewrite Hz in Hnz|lia]. }
  assert (word_at w1 (w_urandom_pos w1 + 4 * (j - S k)) = word_at w (w_urandom_pos w + 4 * j)) as E.
  { unfold word_at. rewrite Hu, Hp. f_equal. apply list_fmap_ext. intros ? x _. f_equal. lia. }
  eapply runs_mono; [apply IH; [apply Ha|]|].
  - exists (j - S k)%nat. rewrite E. split_and!; [lia|done|done].
  - intros c w' [Ha' Hc]. split; [by eapply asks_trans|done].
Qed.
Lemma runs_fresh_conv m w : env_ok w → conv_len m < MAX_CONV_NUM →
  runs (new_conv_loop FRESH_FUEL m) w (λ c w', asks w w' ∧ is_conv_used m c = false).
Proof.
  intros Hw Hl. apply runs_new_conv; [done|]. destruct (eo_fresh w Hw (w_urandom_pos w) (dom (conv_to_data m))) as (j & Hj & Hnz & Hf).
  { rewrite size_dom. unfold conv_len, MAX_CONV_NUM in Hl. lia. }
  exists j. split_and!; [done|done|]. apply is_conv_used_false. by apply not_elem_of_dom.
Qed.

Lemma inv_active w s conv now : client_inv w s → client_inv w (set_cl_convs (update_active_time (cl_convs s) conv now) s).
Proof.
  intros Hi. apply inv_set_convs; [done|apply conv_inv_update, (c_convs _ _ Hi)|]. unfold conv_len, update_active_time.
  pose proof (c_conv_num _ _ Hi). destruct (last_active _ !! _); [|done]. by destruct (_ =? _).
Qed.
Lemma runs_on_udp s data peer w : env_ok w → client_inv w s → bytes data → runs (on_udp_packet s data peer) w (fine w s).
Proof using He HP.
  intros Hw Hi Hd. unfold on_udp_packet. destruct (_ =? _); [by apply ret_from, fine_same|]. apply runs_bind.
  eapply runs_mono; [by apply runs_clock|]. intros now w1 (_ & Hc1 & _). pose proof Hc1 as (_ & Hw1 & _).
  pose proof (inv_calm _ _ _ Hw Hi Hc1) as Hi1. apply runs_bind.
  apply (runs_mono _ _ (λ o w', match o with None => calm w w' | Some (_, s') => fine w s s' w' end)).
  - destruct (find_conv_by_data _ _) as [c|] eqn:Ef; [apply runs_ret; by apply fine_calm|].
    destruct (Z.leb_spec MAX_CONV_NUM (conv_len (cl_convs s))); [by apply runs_ret|]. apply runs_bind.
    eapply runs_mono; [by apply runs_fresh_conv|]. intros c w2 [Ha2 Hf]. apply runs_ret. apply asks_calm in Ha2.
    apply fine_calm; [|by eapply calm_trans|done]. pose proof (inv_calm _ _ _ Hw1 Hi1 Ha2) as Hi2.
    apply is_conv_used_false in Hf. apply inv_set_convs; [done|apply conv_inv_insert; try done; apply (c_convs _ _ Hi2)|].
    unfold conv_len, conv_insert in *. cbn. rewrite map_size_insert_None by done. lia.
  - intros [[conv s1]|] w2 H2; [|apply ret_from, quietly_fine; by apply quietly_calm].
    pose proof (f_inv _ _ _ _ H2) as Hi2. pose proof (f_env _ _ _ _ H2) as Hw2. cbv zeta. set (s2 := set_cl_convs _ s1).
    assert (fine w s s2 w2) as Hf2.
    { eapply fine_pure; [done| |done]. by apply inv_active. }
    clearbody s2. pose proof (f_inv _ _ _ _ Hf2) as Hi3. case_bool_decide; [|by apply ret_from]. destruct (prepare_safer_data _ _ _) as [plain info] eqn:Ep.
    destruct (prepare_safer_data_ok _ _ _ _ _ (roller_ok _ _ Hi3) Hd Ep) as (Hb & Hl & ar & ->).
    eapply runs_from; [eapply fine_pure; [exact Hf2|by apply (inv_prepared w2 s2 ar)|done]|]. apply runs_client_submit; [done|by apply inv_prepared|done].
Qed.

(** ** Packets of the server *)
Lemma runs_enter s st w : env_ok w → client_inv w s → cl_state s ≠ Idle → runs (enter_handshake s st) w (fine w s).
Proof using He HP Hsu.
  intros Hw Hi Hs. unfold enter_handshake. apply runs_bind. eapply runs_mono; [by apply runs_clock|]. intros now w1 (_ & Hc & Hn).
  pose proof Hc as (_ & Hw1 & _). pose proof (inv_calm _ _ _ Hw Hi Hc) as Hi1. set (s1 := upd_info _ _).
  assert (client_inv w1 s1) as Hi2.
  { apply (inv_clocked w1 (set_cl_state st s)); [done| |done]. apply inv_state; [done|]. intros _. by apply (c_gate _ _ Hi1). }
  eapply runs_from; [by apply (fine_calm w s s1 w1)|]. by apply runs_client_timer.
Qed.
Lemma runs_on_syn_ack s data dst w : env_ok w → client_inv w s → cl_state s ≠ Idle → runs (on_syn_ack s data dst) w (fine w s).
Proof using He HP Hsu.
  intros Hw Hi Hs. unfold on_syn_ack. cbv zeta. pose proof (fine_same w s Hw Hi) as Hf. destruct (_ <? _); [by apply ret_from|].
  destruct (negb _); [by apply ret_from|]. destruct (_ && _); [|by apply ret_from]. case_bool_decide.
  - destruct (negb _); [by apply ret_from|by apply runs_enter].
  - set (s1 := upd_sent _ s). assert (client_inv w s1) as Hi1.
    { apply inv_sent; [done| |done]. destruct (sent_ok _ _ Hi) as [[] []]. constructor; try done. apply wrap_range. lia. }
    eapply runs_from; [by apply (fine_inv w s s1)|]. by apply runs_enter.
Qed.
Lemma runs_client_handshake1 s data dst w : env_ok w → client_inv w s → cl_state s ≠ Idle → bytes data → runs (on_handshake1 s data dst) w (fine w s).
Proof using He HP Hsu.
  intros Hw Hi Hs Hb. unfold on_handshake1. cbv zeta. pose proof (fine_same w s Hw Hi) as Hf. destruct (_ && _); [by apply ret_from|].
  rewrite (c_crypto _ _ Hi). destruct (conn_parse_bare_total cr cm am legacy keys He data Hb) as (b & Eb). apply runs_bind. eapply runs_lift; [exact Eb|].
  destruct b as [payload|]; [|by apply ret_from]. destruct (negb _); [by apply ret_from|].
  destruct (parse_handshake_total payload) as (h & Eh). apply runs_bind. eapply runs_lift; [exact Eh|].
  destruct h as [[[o m] k]|]; [|by apply ret_from]. destruct (negb _); [by apply ret_from|]. destruct (_ && _); [by apply ret_from|].
  set (s1 := upd_info _ s). assert (client_inv w s1) as Hi1 by (apply inv_set_info; [done|]; destruct (c_info _ _ Hi); by constructor).
  eapply runs_from; [by apply (fine_inv w s s1)|]. by apply runs_enter.
Qed.
Lemma runs_session_data s data dst w : env_ok w → client_inv w s → bytes data → runs (on_session_data s data dst) w (fine w s).
Proof using He HP.
  intros Hw Hi Hb. unfold on_session_data. cbv zeta. destruct (negb _); [by apply ret_from, fine_same|].
  apply runs_client_submit; [done|done|]. split; [done|]. destruct (sent_ok _ _ Hi) as [_ []]. by split.
Qed.
Lemma runs_client_raw s p w : env_ok w → client_inv w s → rx_ok ctx0 p → runs (on_raw_packet s (rx_buf p) (rx_len p) (rx_addr p)) w (fine w s).
Proof using He HP Hsu.
  destruct p as [buf len ll]. cbn [rx_buf rx_len rx_addr]. intros Hw Hi (Hb & Hlen & Hsv & Hsv'). cbn [rx_buf rx_len] in *. pose proof (fine_same w s Hw Hi) as Hf.
  unfold on_raw_packet. destruct (_ && _); [by apply ret_from|]. cbv zeta. set (len' := if len =? _ then _ else len). destruct (_ && _); [by apply ret_from|].
  assert (0 ≤ len' ≤ zlen buf ∧ survives ctx0 (take (Z.to_nat len') buf)) as [Hl' Hs'].
  { unfold len'. destruct (Z.eqb_spec len (HUGE_DATA_LEN + 1)) as [->|]; [|done]. split; [|by apply Hsv']. unfold HUGE_DATA_LEN in *. lia. }
  clear Hsv Hsv'. case_bool_decide as Hst; [by apply ret_from|].
  apply runs_bind. eapply runs_lift; [apply slice_Done; lia|]. rewrite Z.sub_0_r. change (drop (Z.to_nat 0) buf) with buf.
  set (b := take (Z.to_nat len') buf) in *. assert (bytes b) as Hbb by by apply Forall_take. clearbody b len'. destruct (c_ctx _ _ Hi) as [Hctx Hreads].
  destruct (parse_recv_returns (cl_ctx s) (ci_raw (cl_info s)) b ll Hbb) as (o & raw & Ep & Hr & Hd); [by eapply survives_reads|apply (c_info _ _ Hi)|].
  apply runs_bind. eapply runs_lift; [exact Ep|]. cbn [fst snd]. set (s1 := upd_info _ s).
  assert (client_inv w s1) as Hi1 by (apply inv_set_info; [done|]; apply info_raw; [apply (c_info _ _ Hi)|done|by eapply aim_parse_recv]).
  assert (fine w s s1 w) as Hf1 by by apply fine_inv. destruct o as [data|]; [|by apply ret_from]. specialize (Hd data eq_refl).
  assert (cl_state s1 ≠ Idle) as Hst1 by done. eapply runs_from; [exact Hf1|]. destruct (cl_state s1) eqn:Es; [done|..];
    [apply runs_on_syn_ack|apply runs_on_syn_ack|apply runs_client_handshake1|apply runs_session_data|apply runs_session_data]; try done; by rewrite Es.
Qed.

(** ** Completions *)
Lemma runs_flush_udp s w : env_ok w → client_inv w s → runs (flush_udp_tx s) w (quietly w s).
Proof.
  intros Hw Hi. unfold flush_udp_tx. case_bool_decide; [by apply runs_ret, quietly_refl|]. apply runs_bind.
  eapply runs_mono; [apply (runs_calm _ _ (λ _ _, True)); [apply hushed_batch|]|].
  - apply runs_send_batch; [done|]. intros sent w' _ Hl Hw' _. by split_and!.
  - intros x w' [Hc _]. apply runs_ret. split_and!; try done. apply (inv_held w' s); [done|]. by apply (inv_calm w).
Qed.
Lemma inv_activity w s now is_data : client_inv w s → client_inv w (activity s now is_data).
Proof.
  intros Hi. apply inv_endpoint; [done|apply ep_activity, (c_endpoint _ _ Hi)|apply put_activity].
Qed.
Lemma inv_hb_recv w s t : client_inv w s → past w t → client_inv w (upd_info (set_last_hb_recv_time t) s).
Proof. intros Hi Ht. apply inv_set_info; [done|]. destruct (c_info _ _ Hi). by constructor. Qed.
Lemma runs_client_ready s now w : env_ok w → client_inv w s → cl_state s ≠ Idle → past w now → runs (become_ready s now) w (fine w s).
Proof using He HP Hsu.
  intros Hw Hi Hs Hn. unfold become_ready. cbv zeta. set (s1 := upd_info _ _). assert (client_inv w s1) as Hi1.
  { apply (inv_set_info w (set_cl_state Ready s)).
    - apply inv_state; [done|]. intros _. by apply (c_gate _ _ Hi).
    - pose proof (past_0 w Hw). destruct (c_info _ _ Hi). by constructor. }
  apply runs_bind. eapply runs_mono; [by apply runs_on_endpoint_authenticated|]. intros s2 w2 Hf2. pose proof (f_inv _ _ _ _ Hf2) as Hi2.
  assert (past w2 now) as Hn2 by (apply (past_later w); [done|apply (f_later _ _ _ _ Hf2)|done]). set (s3 := upd_info _ s2).
  assert (client_inv w2 s3) as Hi3 by (apply inv_set_info; [done|]; destruct (c_info _ _ Hi2); by constructor).
  eapply runs_from; [eapply fine_pure; [eapply fine_then; [by apply (fine_inv w s s1)|exact Hf2]|exact Hi3|done]|].
  apply runs_client_timer; [apply (f_env _ _ _ _ Hf2)|done].
Qed.
(** The time of the peer's last new counter is a reading of the clock. *)
Lemma runs_accept_past info plain hb w (Q : option (Z * Z) * ConnInfo → World → Prop) : env_ok w → past w (last_oppsite_roller_time info) →
  runs (accept_safer_offset info plain hb) w Q →
  runs (accept_safer_offset info plain hb) w (λ r w', Q r w' ∧ past w' (last_oppsite_roller_time r.2)).
Proof.
  intros Hw Hp (r & w' & E & HQ). exists r, w'. split_and!; [done|done|]. clear HQ. unfold accept_safer_offset in E.
  assert (∀ (X : Type) (o : outcome X) a w1 w2, lift o w1 = Done (a, w2) → w2 = w1) as Hlift
    by (intros X o a w1 w2; unfold lift; destruct o; by intros [= _ <-]).
  apply io_bind_inv in E as (ids & w1 & ->%Hlift & E). destruct ids as [ids|]; [|by injection E as <- <-].
  destruct (_ || _); [by injection E as <- <-|]. destruct (is_valid _ _) as [valid ar]. destruct (negb valid); [by injection E as <- <-|].
  apply io_bind_inv in E as (body & w2 & ->%Hlift & E). destruct body as [[[ptype roller] d]|]; [|by injection E as <- <-].
  apply io_bind_inv in E as (info1 & w3 & E1 & E). injection E as <- <-.
  assert (past w3 (last_oppsite_roller_time info1)) as H1.
  { destruct (negb _); [apply io_bind_inv in E1 as (t & w4 & E4 & E1)|]; injection E1 as <- <-; [|done].
    destruct (runs_clock w Hw) as (t' & w' & E' & _ & _ & Ht). rewrite E' in E4. by injection E4 as <- <-. }
  cbn [snd]. by destruct (_ || _).
Qed.

Lemma runs_client_data s now plain off w : env_ok w → client_inv w s → 0 ≤ off ≤ zlen plain → runs (on_data s now plain off) w (fine w s).
Proof.
  intros Hw Hi Hoff. unfold on_data. apply runs_bind. eapply runs_lift; [apply slice_from_Done; lia|].
  destruct (parse_data_total (drop (Z.to_nat off) plain)) as (d & Ed). apply runs_bind. eapply runs_lift; [exact Ed|].
  destruct d as [[conv rest]|]; [|by apply ret_from, fine_same]. apply runs_bind. apply (runs_mono _ _ (fine w s)).
  { destruct (_ =? 0); [|by apply ret_from, fine_same]. apply runs_bind. eapply runs_mono; [by apply runs_clock|]. intros t w1 (_ & Hc & Ht).
    apply ret_from, fine_calm; [|done|done]. apply inv_hb_recv; [by apply (inv_calm w)|done]. }
  intros s1 w1 Hf1. pose proof (f_inv _ _ _ _ Hf1) as Hi1. destruct (is_conv_used (cl_convs s1) conv) eqn:Eu; cbn [negb]; [|by apply ret_from]. cbv zeta.
  set (s2 := activity s1 now true). assert (fine w s s2 w1) as Hf2 by (eapply fine_pure; [done|by apply inv_activity|done]).
  change (cl_convs s1) with (cl_convs s2) in Eu. clearbody s2. apply runs_bind. eapply runs_mono; [apply runs_clock, (f_env _ _ _ _ Hf2)|]. intros t w2 (_ & Hc2 & _).
  assert (fine w s s2 w2) as Hf2' by (eapply fine_then; [exact Hf2|]; apply quietly_fine, quietly_calm; [apply (f_env _ _ _ _ Hf2)|apply Hf2|done]).
  pose proof (f_inv _ _ _ _ Hf2') as Hi2. set (s3 := set_cl_convs _ s2). assert (fine w s s3 w2) as Hf3 by (eapply fine_pure; [done|by apply inv_active|done]).
  assert (conv_to_data (cl_convs s3) = conv_to_data (cl_convs s2)) as Ec.
  { unfold s3, update_active_time. cbn. destruct (last_active _ !! _); [|done]. by destruct (_ =? _). }
  destruct (find_data_by_conv (cl_convs s3) conv) as [peer|] eqn:Ef.
  - set (s4 := set_cl_udp_tx _ s3). assert (client_inv w2 s4) as Hi4 by by apply (inv_held w2 s3), Hf3.
    assert (fine w s s4 w2) as Hf4 by by eapply fine_pure. destruct (_ <=? _); [|by apply ret_from]. eapply runs_from; [exact Hf4|].
    eapply runs_mono; [apply runs_flush_udp; [apply (f_env _ _ _ _ Hf4)|done]|]. intros s5 w5 Hq. by apply quietly_fine.
  - exfalso. unfold find_data_by_conv in Ef. rewrite Ec in Ef. apply is_conv_used_false in Ef. congruence.
Qed.
Lemma runs_safer_packet s ptype plain off w : env_ok w → client_inv w s → 0 ≤ off ≤ zlen plain → runs (on_safer_packet s ptype plain off) w (fine w s).
Proof using He HP Hsu.
  intros Hw Hi Hoff. unfold on_safer_packet. apply runs_bind. eapply runs_mono; [by apply runs_clock|]. intros now w1 (_ & Hc1 & Hn).
  pose proof Hc1 as (_ & Hw1 & _). assert (fine w s s w1) as Hf1 by (apply quietly_fine; by apply quietly_calm). apply runs_bind. apply (runs_mono _ _ (fine w s)).
  { case_bool_decide as Hst; [|by apply ret_from]. eapply runs_from; [exact Hf1|]. apply runs_client_ready; [done|apply Hf1|by rewrite Hst|done]. }
  intros s2 w2 Hf2. pose proof (f_env _ _ _ _ Hf2) as Hw2. pose proof (f_inv _ _ _ _ Hf2) as Hi2. destruct (_ =? _).
  - cbv zeta. set (s3 := activity s2 now false). assert (client_inv w2 s3) as Hi3 by by apply inv_activity. apply runs_bind.
    eapply runs_mono; [by apply runs_clock|]. intros t w3 (_ & Hc3 & Ht). apply ret_from. eapply fine_then; [exact Hf2|].
    apply fine_calm; [|done|done]. apply (inv_hb_recv w3 s3); [by apply (inv_calm w2)|done].
  - destruct (_ =? _); [|by apply ret_from]. eapply runs_from; [exact Hf2|]. by apply runs_client_data.
Qed.
Lemma runs_client_plains s plains any w : env_ok w → client_inv w s → runs (accept_plains s plains any) w (λ r w', fine w s r.2 w').
Proof using He HP Hsu.
  revert s any w. induction plains as [|p plains IH]; intros s any w Hw Hi; cbn [accept_plains]; [by apply runs_ret, fine_same|].
  pose proof (c_info _ _ Hi) as Hn. apply runs_bind. set (P' := λ (r : option (Z * Z) * ConnInfo) w', (calm w w' ∧ conn_core r.2 = conn_core (cl_info s) ∧
    is_byte (my_roller r.2) ∧ ∀ ptype off, r.1 = Some (ptype, off) → off = SAFER_HEADER_LEN ∧ SAFER_HEADER_LEN ≤ zlen p) ∧ past w' (last_oppsite_roller_time r.2)).
  apply (runs_mono _ _ P').
  { apply runs_accept_past; [done|apply Hn|]. apply runs_calm; [apply hushed_accept|]. apply accept_roller; [done|apply Hn|]. intros. by split_and!. }
  intros [o info] w1 [(Hc1 & Ec & Hrol & Ho) Hpast]. cbn [fst snd] in *. pose proof Hc1 as (Hl1 & Hw1 & _).
  assert (client_inv w1 (set_cl_info info s)) as Hi1.
  { apply inv_set_info; [by apply (inv_calm w)|]. destruct (info_later _ _ _ Hw Hl1 Hn). unfold conn_core in Ec. injection Ec as E1 E2 E3 E4 E5 E6 E7.
    constructor; rewrite ?E1, ?E2, ?E3, ?E4; done. }
  assert (fine w s (set_cl_info info s) w1) as Hf1 by by apply fine_calm.
  assert (∀ s2 w2 any', fine w s s2 w2 → runs (accept_plains s2 plains any') w2 (λ r w', fine w s r.2 w')) as Hnext.
  { intros s2 w2 any' Hf. eapply runs_mono; [apply IH; [apply (f_env _ _ _ _ Hf)|apply Hf]|]. intros r w' Hf'. by eapply fine_then. }
  destruct o as [[ptype off]|]; [|by apply Hnext]. destruct (Ho ptype off eq_refl) as [-> Hlen]. apply runs_bind.
  eapply runs_mono; [apply runs_safer_packet; [done|done|unfold SAFER_HEADER_LEN in *; lia]|]. intros s2 w2 Hf2. apply Hnext. by eapply fine_then.
Qed.
Lemma runs_client_done s d w : env_ok w → client_inv w s → done_ok d → runs (on_done s d) w (fine w s).
Proof using He HP Hsu.
  intros Hw Hi Hd. pose proof (fine_same w s Hw Hi) as Hf0. destruct d as [key [x|]|key plains meta]; cbn [on_done]; [|by apply ret_from|].
  - destruct (_ && _); [|by apply ret_from]. destruct (c_ctx _ _ Hi) as [Hctx _]. apply runs_bind.
    eapply runs_mono; [apply runs_yields; [apply (runs_calm _ _ (λ r _, ctx_conf r.1 = ctx_conf (cl_ctx s) ∧ raw_ok r.2)); [apply hushed_transmit|]|apply aim_transmit]|].
    + apply runs_transmit_safer; [done|done|apply (c_info _ _ Hi)|destruct Hd; split; [done|lia]|]. intros. by split_and!.
    + intros [ctx raw] w' [[Hc [Ec Hraw]] Ea]. apply runs_ret. by apply fine_sent.
  - destruct (_ || _); [by apply ret_from|]. apply runs_bind. eapply runs_mono; [by apply runs_client_plains|]. intros [any s1] w1 Hf1. cbn [fst snd] in *.
    apply ret_from. destruct any; [|done]. pose proof (f_inv _ _ _ _ Hf1) as Hi1. eapply fine_pure; [done| |done]. destruct Hd as [Hd1 Hd2].
    apply inv_set_info; [done|]. apply info_raw; [apply (c_info _ _ Hi1)|apply after_recv_ok; [apply (c_info _ _ Hi1)|done|done]|apply aim_after_recv].
Qed.
Lemma runs_client_dones s ds w : env_ok w → client_inv w s → Forall done_ok ds → runs (on_dones s ds) w (fine w s).
Proof using He HP Hsu.
  intros Hw Hi Hds. revert s w Hw Hi. induction Hds as [|d ds Hd _ IH]; intros s w Hw Hi; cbn [on_dones]; [by apply ret_from, fine_same|].
  apply runs_bind. eapply runs_mono; [by apply runs_client_done|]. intros s1 w1 Hf1. eapply runs_from; [exact Hf1|].
  apply IH; [apply (f_env _ _ _ _ Hf1)|apply Hf1].
Qed.
Lemma runs_client_collect s w : env_ok w → client_inv w s → runs (client_collect s) w (fine w s).
Proof using He HP Hsu.
  intros Hw Hi. unfold client_collect. destruct (c_pipe _ _ Hi) as (subs & outs & Hr & Hj).
  apply runs_bind. eapply runs_mono; [apply (runs_calm _ _ (λ r _, reach n cr gro subs (outs ++ r.1) (r.2, Outside))); [apply hushed_collect_among|]|].
  { eapply runs_mono; [by apply (runs_collect_among cr cm am legacy keys He n gro subs outs)|]. intros r w' (Hr' & Hl & Hw' & _). by split_and!. }
  intros [ds p'] w1 [Hc Hr']. cbn [fst snd] in *. pose proof Hc as (_ & Hw1 & _).
  pose proof (delivered_ok cr cm am legacy keys He n gro _ _ _ Hr' Hj) as Hd. apply Forall_app in Hd as [_ Hd].
  assert (fine w s (set_cl_pipeline p' s) w1) as Hf.
  { apply fine_calm; [|done|done]. apply inv_pipe; [by apply (inv_calm w)|]. by exists subs, (outs ++ ds). }
  eapply runs_from; [exact Hf|]. apply runs_client_dones; [done|apply Hf|done].
Qed.

(** ** Commands *)
Lemma runs_fifo s input w : env_ok w → client_inv w s → runs (on_fifo s input) w (fine w s).
Proof using Hsu.
  intros Hw Hi. pose proof (fine_same w s Hw Hi) as Hf0. pose proof (c_endpoint _ _ Hi) as Hep. unfold on_fifo. destruct input as [text|]; [|by apply ret_from].
  destruct (split_whitespace _) as [|wd [|ex [|]]]; try by apply ret_from.
  - case_bool_decide; [|by apply ret_from]. set (s1 := set_cl_endpoint _ s). assert (client_inv w s1) as Hi1.
    { destruct (ep_refresh spec (cl_endpoint s) Hep) as [Hc Ec]. by apply inv_endpoint. }
    eapply runs_from; [by apply (fine_inv w s s1)|]. by apply go_idle_fine.
  - case_bool_decide; [|case_bool_decide; [|by apply ret_from]]; (destruct (parse_ipv4 ex) as [ip|]; [|by apply ret_from]);
      apply runs_bind; (eapply runs_mono; [by apply runs_clock|]); intros now w1 (_ & Hc1 & _); pose proof Hc1 as (_ & Hw1 & _);
      assert (fine w s s w1) as Hf1 by (apply quietly_fine; by apply quietly_calm); apply runs_bind.
    + eapply runs_mono; [apply (runs_ep_promote spec); [exact Hep|exact Hw1]|]. intros [o c'] w2 [[Hs Hp] Ec]. cbn [fst snd] in *.
      assert (fine w s (set_cl_endpoint c' s) w2) as Hf2 by (eapply fine_then; [exact Hf1|]; apply fine_endpoint; [done|apply Hf1|done|done]).
      destruct o; try by apply ret_from. eapply runs_from; [exact Hf2|]. apply runs_release_non_retained; [apply (f_env _ _ _ _ Hf2)|apply Hf2|done].
    + eapply runs_mono; [apply (runs_ep_operator_rollback spec); [exact Hep|exact Hw1]|]. intros [o c'] w2 [Hs Ec]. cbn [fst snd] in *.
      assert (fine w s (set_cl_endpoint c' s) w2) as Hf2 by (eapply fine_then; [exact Hf1|]; apply fine_endpoint; [done|apply Hf1|done|done]).
      destruct o; [|by apply ret_from]. eapply runs_from; [exact Hf2|]. apply go_idle_fine; [apply (f_env _ _ _ _ Hf2)|apply Hf2].
Qed.

(** ** The event loop *)
Definition udp_ok (p : option SocketAddr * list Z) : Prop := bytes p.2.
Record client_inputs_ok (inp : Inputs) : Prop := {
  ci_raw_ok : Forall (Forall (rx_ok ctx0)) (in_raw inp);
  ci_udp_ok : Forall (Forall udp_ok) (in_udp inp) }.

Lemma runs_client_raw_batch s pkts w : env_ok w → client_inv w s → Forall (rx_ok ctx0) pkts → runs (raw_batch s pkts) w (fine w s).
Proof using He HP Hsu.
  intros Hw Hi Hp. revert s w Hw Hi. induction Hp as [|p pkts Hp _ IH]; intros s w Hw Hi; cbn [raw_batch]; [by apply ret_from, fine_same|].
  apply runs_bind. eapply runs_mono; [by apply runs_client_raw|]. intros s1 w1 Hf. eapply runs_from; [exact Hf|]. apply IH; [apply (f_env _ _ _ _ Hf)|apply Hf].
Qed.
Lemma runs_client_raw_readable s batches rounds w : env_ok w → client_inv w s → Forall (Forall (rx_ok ctx0)) batches →
  runs (on_raw_readable s batches rounds) w (λ r w', fine w s r.2 w').
Proof using He HP Hsu.
  intros Hw Hi Hp. revert s rounds w Hw Hi. induction Hp as [|b batches Hb _ IH]; intros s rounds w Hw Hi; cbn [on_raw_readable]; [by apply runs_ret, fine_same|].
  apply runs_bind. eapply runs_mono; [by apply runs_client_raw_batch|]. intros s1 w1 Hf. cbv zeta. destruct (_ <? _); [by apply runs_ret|].
  destruct (_ <=? _); [by apply runs_ret|]. eapply runs_mono; [apply IH; [apply (f_env _ _ _ _ Hf)|apply Hf]|]. intros r w' Hf'. by eapply fine_then.
Qed.
Lemma runs_client_udp_batch s pkts w : env_ok w → client_inv w s → Forall udp_ok pkts → runs (udp_batch s pkts) w (fine w s).
Proof using He HP.
  intros Hw Hi Hp. revert s w Hw Hi. induction Hp as [|[peer data] pkts Hp _ IH]; intros s w Hw Hi; cbn [udp_batch]; [by apply ret_from, fine_same|].
  apply runs_bind. apply (runs_mono _ _ (fine w s)); [destruct peer; [by apply runs_on_udp|by apply ret_from, fine_same]|].
  intros s1 w1 Hf. eapply runs_from; [exact Hf|]. apply IH; [apply (f_env _ _ _ _ Hf)|apply Hf].
Qed.
Lemma runs_client_udp_readable s batches rounds w : env_ok w → client_inv w s → Forall (Forall udp_ok) batches →
  runs (on_udp_readable s batches rounds) w (λ r w', fine w s r.2 w').
Proof using He HP.
  intros Hw Hi Hp. revert s rounds w Hw Hi. induction Hp as [|b batches Hb _ IH]; intros s rounds w Hw Hi; cbn [on_udp_readable]; [by apply runs_ret, fine_same|].
  apply runs_bind. eapply runs_mono; [by apply runs_client_udp_batch|]. intros s1 w1 Hf. cbv zeta. destruct (_ <? _); [by apply runs_ret|].
  destruct (_ <=? _); [by apply runs_ret|]. eapply runs_mono; [apply IH; [apply (f_env _ _ _ _ Hf)|apply Hf]|]. intros r w' Hf'. by eapply fine_then.
Qed.
Lemma runs_client_tokens s tokens fifo w : env_ok w → client_inv w s → runs (on_tokens s tokens fifo) w (fine w s).
Proof using Hsu.
  revert s fifo w. induction tokens as [|t tokens IH]; intros s fifo w Hw Hi; cbn [on_tokens]; [by apply ret_from, fine_same|].
  assert (∀ s', held s' = held s → runs (on_tokens s' tokens fifo) w (fine w s)) as Hset.
  { intros s' E. assert (client_inv w s') as Hi' by by apply (inv_held w s). eapply runs_from; [apply (fine_inv w s s'); [done|done|unfold held in E; congruence]|]. by apply IH. }
  destruct (t =? TOK_UDP)%nat; [by apply Hset|]. destruct (t =? TOK_RAW)%nat; [by apply Hset|]. destruct (t =? TOK_FIFO)%nat; [|by apply Hset].
  apply runs_bind. eapply runs_mono; [by apply runs_fifo|]. intros s1 w1 Hf. eapply runs_from; [exact Hf|]. apply IH; [apply (f_env _ _ _ _ Hf)|apply Hf].
Qed.
(** A pending flag. *)
Lemma fine_flag w s s1 w1 s' : fine w s s1 w1 → held s' = held s1 → fine w s s' w1.
Proof. intros Hf E. eapply fine_pure; [exact Hf|apply (inv_held w1 s1); [done|apply Hf]|unfold held in E; congruence]. Qed.
Lemma runs_client_flush s w : env_ok w → client_inv w s →
  runs (ctx ← flush_tx (cl_ctx s); flush_udp_tx (set_cl_ctx ctx s)) w (fine w s).
Proof.
  intros Hw Hi. apply runs_bind. eapply runs_mono; [apply (runs_calm _ _ (λ ctx _, ctx_conf ctx = ctx_conf (cl_ctx s))); [apply hushed_flush|]|].
  - apply runs_flush_tx; [done|]. intros. by split_and!.
  - intros ctx w1 [Hc Ec]. pose proof (inv_calm _ _ _ Hw Hi Hc) as Hi1. pose proof (inv_conf w1 s ctx Hi1 Ec) as Hi2.
    eapply runs_from; [by apply (fine_calm w s (set_cl_ctx ctx s) w1)|]. eapply runs_mono; [apply runs_flush_udp; [apply Hc|done]|].
    intros s2 w2 Hq. by apply quietly_fine.
Qed.
Lemma runs_client_round s last inp w : env_ok w → client_inv w s → client_inputs_ok inp → runs (client_round s last inp) w (λ r w', fine w s r.2 w').
Proof using He HP Hsu.
  intros Hw Hi [Hraw Hudp]. unfold client_round. apply runs_bind. eapply runs_mono; [by apply runs_client_tokens|]. intros s1 w1 Hf1. apply runs_bind.
  apply (runs_mono _ _ (fine w s)).
  { destruct (cl_raw_pending s1); [|by apply ret_from]. apply runs_bind. eapply runs_mono; [apply runs_client_raw_readable; [apply (f_env _ _ _ _ Hf1)|apply Hf1|done]|].
    intros [b s2] w2 Hf2. apply ret_from. eapply fine_flag; [by eapply fine_then|done]. }
  clear s1 w1 Hf1. intros s1 w1 Hf1. apply runs_bind. apply (runs_mono _ _ (fine w s)).
  { destruct (cl_udp_pending s1); [|by apply ret_from]. apply runs_bind. eapply runs_mono; [apply runs_client_udp_readable; [apply (f_env _ _ _ _ Hf1)|apply Hf1|done]|].
    intros [b s2] w2 Hf2. apply ret_from. eapply fine_flag; [by eapply fine_then|done]. }
  clear s1 w1 Hf1. intros s1 w1 Hf1. apply runs_bind. eapply runs_mono; [apply runs_client_collect; [apply (f_env _ _ _ _ Hf1)|apply Hf1]|]. intros s2 w2 Hf2'.
  pose proof (fine_then _ _ _ _ _ _ Hf1 Hf2') as Hf2. clear Hf1 Hf2'. pose proof (f_env _ _ _ _ Hf2) as Hw2. apply runs_bind.
  eapply runs_mono; [by apply runs_clock|]. intros now w3 (_ & Hc3 & _). pose proof Hc3 as (_ & Hw3 & _).
  assert (fine w s s2 w3) as Hf3 by (eapply fine_then; [exact Hf2|]; apply quietly_fine, quietly_calm; [done|apply Hf2|done]). apply runs_bind.
  apply (runs_mono _ _ (λ r w', fine w s r.2 w')).
  { destruct (_ <=? _); [|by apply runs_ret]. apply runs_bind. eapply runs_mono; [apply runs_client_timer; [done|apply Hf3]|]. intros s4 w4 Hf4. apply runs_bind.
    eapply runs_mono; [apply runs_client_collect; [apply (f_env _ _ _ _ Hf4)|apply Hf4]|]. intros s5 w5 Hf5. apply runs_ret.
    eapply fine_then; [exact Hf3|]. by eapply fine_then. }
  intros [l s4] w4 Hf4. cbn [fst snd] in *. 
  pose proof (runs_client_flush s4 w4 (f_env _ _ _ _ Hf4) (f_inv _ _ _ _ Hf4)) as (s5 & w5 & E & Hf5). apply io_bind_inv in E as (ctx & w6 & E1 & E2).
  apply runs_bind. exists ctx, w6. split; [done|]. apply runs_bind. exists s5, w5. split; [done|]. apply runs_ret. by eapply fine_then.
Qed.

(** ** The exit *)
Lemma runs_final k s w : env_ok w → book s → (∀ a, leaving s a) →
  runs (final_cleanup k s) w (λ s' w', kstep (λ _, True) w s s' w' ∧ ∀ a, leaving s' a).
Proof using Hsu.
  revert s w. induction k as [|k IH]; intros s w Hw Hb Hl; cbn [final_cleanup]; [apply runs_ret; split; [by apply kstep_refl|done]|].
  destruct (negb _); [apply runs_ret; split; [by apply kstep_refl|done]|]. apply runs_bind.
  eapply runs_mono; [by apply runs_retries|]. intros s1 w1 [Hk Hsl].
  eapply runs_mono; [apply IH; [apply (ks_env _ _ _ _ _ _ _ _ _ _ Hk)|apply (ks_book _ _ _ _ _ _ _ _ _ _ Hk)|intros a; apply Hsl, Hl]|].
  intros s2 w2 [Hk2 Hl2]. split; [|done]. eapply kstep_trans; [eapply kstep_mono; [|exact Hk]; done|done].
Qed.
Lemma entry_member s i : book s → i ∈ cl_installed s → entry s (in_addr i) = Some i.
Proof. intros Hb Hi. apply entry_some; [apply (bk_nodup _ _ _ _ _ _ Hb)|done]. Qed.
Lemma leaving_all s : book s → (∀ a, leaving s a) → has_pending_cleanup s = false → cl_installed s = [].
Proof.
  intros Hb Hl Hp. destruct (cl_installed s) as [|i l] eqn:E; [done|]. exfalso.
  assert (i ∈ cl_installed s) as Hi by (rewrite E; by left). pose proof (Hl _ i (entry_member s i Hb Hi)) as Hr.
  unfold has_pending_cleanup in Hp. rewrite E in Hp. cbn in Hp. by rewrite Hr in Hp.
Qed.
(** After the exit, what is not pending is gone. *)
Lemma runs_exit s w : env_ok w → book s →
  runs (client_exit s) w (λ s' w', kstep (λ _, True) w s s' w' ∧ (has_pending_cleanup s' = false → cl_installed s' = [])).
Proof using Hsu.
  intros Hw Hb. unfold client_exit, release_all. apply runs_bind. eapply runs_mono; [apply (runs_releases s []); [done|done|constructor]|].
  intros s1 w1 [Hk1 Hr1]. pose proof (ks_book _ _ _ _ _ _ _ _ _ _ Hk1) as Hb1. eapply runs_mono; [apply runs_final; [apply (ks_env _ _ _ _ _ _ _ _ _ _ Hk1)|done|]|].
  - intros a i Ei%entry_some; [|apply (bk_nodup _ _ _ _ _ _ Hb1)]. apply Hr1; [apply Ei|apply not_elem_of_nil].
  - intros s2 w2 [Hk2 Hl2]. split; [eapply kstep_trans; [eapply kstep_mono; [|exact Hk1]; done|done]|].
    apply leaving_all; [apply (ks_book _ _ _ _ _ _ _ _ _ _ Hk2)|done].
Qed.
End inv.
