(* ===== verification/ClientSpec.v ===== *)
(** Theorems about the client's session ([src/src/client.rs]). *)
From stdpp Require Import strings.
From S2P Require Import Prelude Util Fips197 Prims Kdf Auth Cipher Crypto Wire AntiReplay Text.
From S2P Require Import Ip Tcp Conv Types World Config Route Iptables Kernel LowerLevel Resources EndpointState EndpointCache.
From S2P Require Import Endpoint EndpointInv EndpointOps FakeTcp Conn Pipeline Session Silence Client ClientKernel ClientInv.

(** The limit that a state's attempt or session has run into at [now]. *)
Definition overdue (s : Client) (now : Z) : Prop :=
  match cl_state s with
  | Idle => False
  | Ready => CLIENT_CONN_TIMEOUT_MS < now - last_hb_recv_time (cl_info s) ∨ CLIENT_CONN_UPLINK_TIMEOUT_MS < now - last_oppsite_roller_time (cl_info s)
  | _ => CLIENT_HANDSHAKE_TIMEOUT_MS < now - last_state_time (cl_info s)
  end.
(** A handshake whose round of addresses has run out of time: the endpoint controller's own limit. *)
Definition round_over (s : Client) (now : Z) : Prop := handshaking (cl_state s) && round_expired (cl_endpoint s) now = true.
Definition ended (s s' : Client) : Prop := cl_state s' = Idle ∧ cl_generation s' = cl_generation s +⟨64⟩ 1 ∧ cl_selected s' = false.

Lemma idle_ends s reason : yields (go_idle s reason) (ended s).
Proof. unfold go_idle. cbv zeta. yields_tac. Qed.

Section timeouts.
Context `{P : Prims} {HP : PrimsOk P}.
Context (cr : Crypto) (cm : CipherMode) (am : AuthMode) (legacy : bool) (keys : Keys) (He : engine cr cm am legacy keys).
Context (n : nat) (gro : bool) (ctx0 : RawCtx).
Context (cfg : Config) (spec : EndpointSpec) (cmd chain0 : list Z) (u : option Underlay) (Hsu : setup_ok cfg spec chain0 u).
#[local] Abbreviation client_inv := (client_inv cr n gro ctx0 cfg spec cmd chain0 u).

Lemma runs_idle_ends s reason w : env_ok w → client_inv w s → runs (go_idle s reason) w (λ s' _, ended s s').
Proof using Type.
  intros Hw Hi. eapply runs_mono; [apply runs_yields; [by eapply go_idle_fine|apply idle_ends]|]. by intros s' w' [_ ?].
Qed.
Lemma timed_out_past s now w : env_ok w → client_inv w s → past w (last_state_time (cl_info s)) → is_u 64 now → last_state_time (cl_info s) ≤ now →
  timed_out s now = (CLIENT_HANDSHAKE_TIMEOUT_MS <? now - last_state_time (cl_info s)).
Proof. intros Hw Hi Hp Hn Hle. unfold timed_out. rewrite elapsed; [done|done|]. destruct Hp. lia. Qed.
Lemma runs_overdue_state s now w : env_ok w → client_inv w s → is_u 64 now → past w now →
  last_state_time (cl_info s) ≤ now → last_hb_recv_time (cl_info s) ≤ now → last_oppsite_roller_time (cl_info s) ≤ now →
  overdue s now → runs (timer_state s now) w (λ s' _, ended s s').
Proof using Type.
  intros Hw Hi Hn Hp H1 H2 H3 Hd. destruct (c_info _ _ _ _ _ _ _ _ _ _ _ Hi) as [_ _ _ P1 P2 P3 P4 _].
  unfold timer_state, overdue in *. destruct (cl_state s) eqn:Es; [done|..];
    try (unfold timer_syn, timer_dummy, timer_handshake1, timer_handshake2; rewrite (timed_out_past s now w) by done;
         rewrite (proj2 (Z.ltb_lt _ _)) by done; by apply runs_idle_ends).
  unfold timer_ready. cbv zeta. apply runs_bind. set (s0 := set_cl_fail_time_counter 0 s).
  eapply runs_mono; [apply (runs_ep_rollback_due spec (cl_endpoint s0)); [apply (c_endpoint _ _ _ _ _ _ _ _ _ _ _ Hi)|done]|]. intros [rb c'] w1 [Hs Ec]. cbn [fst snd].
  assert (client_inv w s0) as Hi0 by by apply (inv_held _ _ _ _ _ _ _ _ _ w s).
  pose proof (fine_endpoint _ _ _ _ _ _ _ _ _ w s0 c' w1 Hw Hi0 Hs Ec) as Hf. set (s1 := set_cl_endpoint c' s0) in *.
  assert (∀ r, runs (go_idle s1 r) w1 (λ s' _, ended s s')) as Hgo.
  { intros r. apply (runs_mono _ _ (λ s' _, ended s1 s')); [by apply runs_idle_ends; [apply (f_env _ _ _ _ _ _ _ _ _ _ _ _ _ Hf)|apply Hf]|done]. }
  destruct rb; [done|]. change (cl_info s1) with (cl_info s). rewrite !elapsed by (done || (destruct P3, P4; lia)).
  destruct (Z.ltb_spec CLIENT_CONN_TIMEOUT_MS (now - last_hb_recv_time (cl_info s))); [done|]. rewrite (proj2 (Z.ltb_lt _ _)); [done|]. by destruct Hd; [lia|].
Qed.
Lemma runs_overdue s w : env_ok w → client_inv w s → ri_disabled (ci_raw (cl_info s)) = false → cl_state s ≠ Idle → overdue s (time w) ∨ round_over s (time w) → runs (on_timer s) w (λ s' _, ended s s').
Proof using Hsu.
  intros Hw Hi Hdis Hs Hd. destruct (c_info _ _ _ _ _ _ _ _ _ _ _ Hi) as [_ _ _ P1 P2 P3 P4 _]. unfold on_timer. apply runs_bind.
  eapply runs_mono; [by apply runs_clock|]. intros now w1 (-> & Hc1 & Hn1). pose proof Hc1 as (Hl1 & Hw1 & _). pose proof (inv_calm _ _ _ _ _ _ _ _ _ _ _ _ Hw Hi Hc1) as Hi1.
  apply runs_bind. eapply runs_mono; [by apply (runs_kernel_session cr n gro ctx0 cfg spec cmd chain0 u Hsu)|]. intros s2 w2 [Hf2 Es2]. unfold session_of in Es2. injection Es2 as E1 E2 E3 E4 E5 E6. cbv zeta.
  set (s3 := set_cl_convs _ s2). assert (client_inv w2 s3) as Hi3.
  { pose proof (f_inv _ _ _ _ _ _ _ _ _ _ _ _ _ Hf2) as Hi2. apply inv_set_convs; [done|apply conv_inv_clear_inactive, (c_convs _ _ _ _ _ _ _ _ _ _ _ Hi2)|].
    pose proof (conv_len_cleared (cl_convs s2) (time w) (c_convs _ _ _ _ _ _ _ _ _ _ _ Hi2)). pose proof (c_conv_num _ _ _ _ _ _ _ _ _ _ _ Hi2). lia. }
  assert (cl_info s3 = cl_info s ∧ cl_state s3 = cl_state s ∧ cl_endpoint s3 = cl_endpoint s ∧ cl_generation s3 = cl_generation s) as (F1 & F2 & F3 & F4) by done.
  clearbody s3. rewrite F1, Hdis. apply runs_bind, runs_ret. rewrite bool_decide_false by by rewrite F2.
  apply runs_bind, runs_ret. cbn [fst snd negb]. pose proof (f_env _ _ _ _ _ _ _ _ _ _ _ _ _ Hf2) as Hw2.
  assert (∀ s', ended s3 s' → ended s s') as Hend by (intros s'; unfold ended; by rewrite F4).
  destruct (_ && _) eqn:Ex; [eapply runs_mono; [by apply runs_idle_ends|auto]|]. rewrite F2, F3 in Ex. unfold round_over in Hd. rewrite Ex in Hd. destruct Hd as [Hd|?]; [|done]. eapply runs_mono; [apply runs_overdue_state; [done|done| | | | | |]|auto]; rewrite ?F1.
  - apply (eo_clock_64 w Hw).
  - apply (past_later w1); [done|apply (f_later _ _ _ _ _ _ _ _ _ _ _ _ _ Hf2)|done].
  - apply P1.
  - apply P3.
  - apply P4.
  - unfold overdue in *. by rewrite F1, F2.
Qed.

(** ** Within the limits *)
Definition kept (s s' : Client) : Prop := cl_state s' = cl_state s ∧ cl_generation s' = cl_generation s.
Lemma kept_then {A} (m : Io Client) (f : Client → Io A) (g : A → Client) s : yields m (kept s) → (∀ s1, kept s s1 → yields (f s1) (λ a, kept s1 (g a))) →
  yields (m ≫= f) (λ a, kept s (g a)).
Proof.
  intros Hm Hf. eapply yields_bind; [exact Hm|]. intros s1 H1 w a w' E. destruct H1 as [E1 E2], (Hf s1 (conj E1 E2) w a w' E) as [E3 E4]. split; congruence.
Qed.
Lemma kept_send s : yields (client_send_raw s) (kept s).
Proof. unfold client_send_raw. yields_tac. Qed.
Lemma kept_handshake s id2 : yields (client_send_handshake s id2) (kept s).
Proof. unfold client_send_handshake. yields_tac. Qed.
Lemma kept_handshake_tcp s id2 : yields (handshake_tcp s id2) (kept s).
Proof. unfold handshake_tcp. apply (kept_then _ _ id); [apply kept_handshake|]. intros s1 _. yields_tac. Qed.
Lemma kept_handshake_other s id2 : yields (handshake_other s id2) (kept s).
Proof. unfold handshake_other. apply (kept_then _ _ id); [apply kept_handshake|]. intros s1 _. yields_tac. by case_bool_decide. Qed.
Lemma kept_submit s j : yields (submit_job s j) (kept s).
Proof. unfold submit_job. yields_tac. Qed.
Lemma kept_syn s now : timed_out s now = false → yields (timer_syn s now) (kept s).
Proof.
  intros Ht. unfold timer_syn. rewrite Ht. destruct (resend_due s now); [|by apply yields_ret]. apply (kept_then _ _ id).
  - yields_tac.
  - intros s1 _. apply (kept_then _ _ id); [apply kept_send|]. intros s2 _. by apply yields_ret.
Qed.
Lemma kept_handshake1 s now : timed_out s now = false → yields (timer_handshake1 s now) (kept s).
Proof.
  intros Ht. unfold timer_handshake1. rewrite Ht. destruct (resend_due s now); [|by apply yields_ret]. apply (kept_then _ _ id); [|intros s2 _; by apply yields_ret].
  case_bool_decide; [|apply kept_handshake_other]. cbv zeta. set (s2 := upd_sent _ _). assert (kept s s2) as [K1 K2] by (unfold s2; by destruct (_ =? 0)).
  clearbody s2. intros w a w' E. enough (kept s2 a) as [E1 E2] by (split; congruence). revert w a w' E. apply (kept_then _ _ id).
  - destruct (negb _); [apply kept_send|by apply yields_ret].
  - intros s3 _. apply kept_handshake_tcp.
Qed.
Lemma kept_handshake2 s now : timed_out s now = false → yields (timer_handshake2 s now) (kept s).
Proof.
  intros Ht. unfold timer_handshake2. rewrite Ht. destruct (resend_due s now); [|by apply yields_ret]. apply (kept_then _ _ id); [|intros s2 _; by apply yields_ret].
  case_bool_decide; [|apply kept_handshake_other]. cbv zeta. set (s2 := upd_sent _ _). assert (kept s s2) as [K1 K2] by (unfold s2; by destruct (_ =? 0)).
  clearbody s2. intros w a w' E. enough (kept s2 a) as [E1 E2] by (split; congruence). revert w a w' E. apply kept_handshake_tcp.
Qed.
(** A session that is not overdue goes on, unless the relay is on probation and the endpoint
    controller gives it up. *)
Definition goes_on_or_rolls_back (s s' : Client) : Prop := kept s s' ∨ cl_state s = Ready ∧ ec_probation (cl_endpoint s) ≠ None ∧ ended s s'.
Lemma no_probation_no_rollback c now : ec_probation c = None → yields (probation_rollback_due c now) (λ r, r.1 = false).
Proof. intros Hp. unfold probation_rollback_due. rewrite Hp. yields_tac. Qed.
Lemma kept_ready s now : is_u 64 now →
  0 ≤ last_hb_recv_time (cl_info s) ≤ now → 0 ≤ last_oppsite_roller_time (cl_info s) ≤ now → cl_state s = Ready → ¬ overdue s now → yields (timer_ready s now) (goes_on_or_rolls_back s).
Proof using Type.
  intros Hn H1 H2 Es Ho. unfold overdue in Ho. rewrite Es in Ho. unfold timer_ready. cbv zeta.
  apply (yields_bind _ _ (λ r, ec_probation (cl_endpoint s) = None → r.1 = false)).
  { intros w a w' E Hp. exact (no_probation_no_rollback (cl_endpoint s) now Hp w a w' E). }
  intros [rb c'] Er. cbn [fst snd] in *. set (s1 := set_cl_endpoint c' _). destruct rb.
  { intros w a w' E. right. split; [done|]. split; [by intros ?%Er|]. by apply (idle_ends s1) in E. }
  change (cl_info s1) with (cl_info s). rewrite !(elapsed now (last_hb_recv_time _)), !(elapsed now (last_oppsite_roller_time _)) by done.
  rewrite !(proj2 (Z.ltb_ge _ _)) by lia. destruct (_ <? _); [apply yields_ret; by left|]. destruct (prepare_safer _ _ _) as [plain info].
  intros w1 a w2 E. left. enough (kept (set_cl_info info s1) a) as [E1 E2] by (split; [rewrite E1|rewrite E2]; done). revert w1 a w2 E.
  apply (kept_then _ _ id); [apply kept_submit|]. intros s2 _. by apply yields_ret.
Qed.

(** The timer up to the state's own part. *)
Lemma runs_timer_prefix s w : env_ok w → client_inv w s → ri_disabled (ci_raw (cl_info s)) = false → cl_state s ≠ Idle →
  ¬ round_over s (time w) → ∃ s3 w3, client_inv w3 s3 ∧ past w3 (time w) ∧ cl_info s3 = cl_info s ∧ cl_endpoint s3 = cl_endpoint s ∧ kept s s3 ∧
    on_timer s w = timer_state s3 (time w) w3.
Proof using Hsu.
  intros Hw Hi Hdis Hs Hx. destruct (runs_clock w Hw) as (now & w1 & E1 & -> & Hc1 & Hn1). pose proof Hc1 as (Hl1 & Hw1 & _). pose proof (inv_calm _ _ _ _ _ _ _ _ _ _ _ _ Hw Hi Hc1) as Hi1.
  destruct (runs_kernel_session cr n gro ctx0 cfg spec cmd chain0 u Hsu s (time w) w1 Hw1 Hi1) as (s2 & w2 & E2 & Hf2 & Es2). unfold session_of in Es2. injection Es2 as F1 F2 F3 F4 F5 F6.
  pose proof (f_inv _ _ _ _ _ _ _ _ _ _ _ _ _ Hf2) as Hi2. exists (set_cl_convs (clear_inactive (cl_convs s2) (time w)).2 s2), w2. split_and!; try done.
  - apply inv_set_convs; [done|apply conv_inv_clear_inactive, (c_convs _ _ _ _ _ _ _ _ _ _ _ Hi2)|].
    pose proof (conv_len_cleared (cl_convs s2) (time w) (c_convs _ _ _ _ _ _ _ _ _ _ _ Hi2)). pose proof (c_conv_num _ _ _ _ _ _ _ _ _ _ _ Hi2). lia.
  - apply (past_later w1); [done|apply (f_later _ _ _ _ _ _ _ _ _ _ _ _ _ Hf2)|done].
  - unfold on_timer, mbind, io_bind. rewrite E1, E2. change (cl_info (set_cl_convs _ s2)) with (cl_info s2). rewrite F2, Hdis. cbn [mret io_ret].
    change (cl_state (set_cl_convs _ s2)) with (cl_state s2). rewrite F1, bool_decide_false by done. cbv beta iota delta [mret io_ret fst snd negb].
    change (cl_state (set_cl_convs _ s2)) with (cl_state s2). change (cl_endpoint (set_cl_convs _ s2)) with (cl_endpoint s2). rewrite F1, F3. unfold round_over in Hx. by rewrite (not_true_is_false _ Hx).
Qed.
Lemma kept_state s now : is_u 64 now →
  0 ≤ last_state_time (cl_info s) ≤ now → 0 ≤ last_hb_recv_time (cl_info s) ≤ now → 0 ≤ last_oppsite_roller_time (cl_info s) ≤ now → ¬ overdue s now →
  yields (timer_state s now) (goes_on_or_rolls_back s).
Proof using Type.
  intros Hn H1 H2 H3 Ho. pose proof Ho as Ho'. unfold overdue in Ho'.
  assert (cl_state s ≠ Idle → cl_state s ≠ Ready → timed_out s now = false) as Ht.
  { intros Hs1 Hs2. unfold timed_out. rewrite elapsed by done. apply Z.ltb_ge. destruct (cl_state s); try done; lia. }
  assert (∀ m : Io Client, yields m (kept s) → yields m (goes_on_or_rolls_back s)) as Hk by (intros m Hm w a w' E; left; by eapply Hm).
  unfold timer_state. destruct (cl_state s) eqn:Es.
  - by apply Hk, yields_ret.
  - by apply Hk, kept_syn, Ht.
  - apply Hk. unfold timer_dummy. rewrite Ht by done. by apply yields_ret.
  - by apply Hk, kept_handshake1, Ht.
  - by apply Hk, kept_handshake2, Ht.
  - by apply kept_ready.
Qed.
End timeouts.

(** C10. A tick of the timer in a session or a handshake returns (the link not being disabled by
    resets, in which case the attempt ends before its limits are looked at).  If a handshake
    has lasted over 5 seconds or its round of addresses is over, or a session has heard
    nothing for 10 seconds or seen no progress of the peer's counter for 12, the client is
    idle afterwards, its generation has advanced, so that results of jobs of the old
    session are dropped, and the next attempt selects its relay anew.  Otherwise the state
    and the generation stay, with one exception: a session to a relay on probation, which
    the endpoint controller may give up for the former relay. *)
Theorem silence_ends_session `{P : Prims} {HP : PrimsOk P} (cr : Crypto) (cm : CipherMode) (am : AuthMode) (legacy : bool) (keys : Keys)
    (n : nat) (gro : bool) (ctx0 : RawCtx) (cfg : Config) (spec : EndpointSpec) (cmd chain0 : list Z) (u : option Underlay) (s : Client) (w : World)
    (He : engine cr cm am legacy keys) (Hsu : setup_ok cfg spec chain0 u) (Hw : env_ok w)
    (Hi : client_inv cr n gro ctx0 cfg spec cmd chain0 u w s) (Hs : cl_state s ≠ Idle) (Hdis : ri_disabled (ci_raw (cl_info s)) = false) :
  ∃ s' w', on_timer s w = Done (s', w') ∧ (overdue s (time w) ∨ round_over s (time w) → ended s s') ∧
    (¬ overdue s (time w) → ¬ round_over s (time w) →
       kept s s' ∨ cl_state s = Ready ∧ ec_probation (cl_endpoint s) ≠ None ∧ ended s s').
Proof.
  destruct (runs_client_timer cr cm am legacy keys He n gro ctx0 cfg spec cmd chain0 u Hsu s w Hw Hi) as (s' & w' & E & _). exists s', w'. split; [done|]. split.
  - intros Ho. destruct (runs_overdue cr n gro ctx0 cfg spec cmd chain0 u Hsu s w Hw Hi Hdis Hs Ho) as (s2 & w2 & E2 & H). rewrite E in E2. by injection E2 as <- <-.
  - intros Ho Hx. destruct (runs_timer_prefix cr n gro ctx0 cfg spec cmd chain0 u Hsu s w Hw Hi Hdis Hs Hx) as (s3 & w3 & Hi3 & Hp3 & F1 & F2 & [K1 K2] & E3).
    rewrite E3 in E. destruct (c_info _ _ _ _ _ _ _ _ _ _ _ Hi) as [_ _ _ P1 _ P3 P4 _].
    destruct (kept_state s3 (time w)) with (w := w3) (a := s') (w' := w') as [[E1 E2]|(E1 & E2 & E4 & E5 & E6)]; rewrite ?F1; try done.
    + apply (eo_clock_64 w Hw).
    + unfold overdue in *. by rewrite F1, K1.
    + left. split; congruence.
    + right. split; [congruence|]. split; [by rewrite <-F2|]. split_and!; [done|congruence|done].
Qed.
