(* ===== verification/Program.v ===== *)
(** The program as a client: [run] of [src/src/main.rs] around [run] and [event_loop] of
    [src/src/client.rs].

    [client_main] is [run] on an accepted command line; [main_run] is [run] with the fields of
    the configuration and the engine as arguments.  What the signal handler does is end the
    list of turns.  The exit codes are those of the process. *)
From stdpp Require Import strings.
From S2P Require Import Prelude Util Fips197 Prims Kdf Auth Cipher Crypto Wire AntiReplay Text.
From S2P Require Import Ip Tcp Conv Types World Config Route Iptables LowerLevel Resources EndpointState Endpoint CommandLine.
From S2P Require Import FakeTcp Conn Pipeline Session Client.

Definition set_cfg_remote_addr (a : SocketAddr) (c : Config) : Config :=
  mkConfig (cfg_mode c) (cfg_local_addr c) a (cfg_raw_mode c) (cfg_easy_faketcp c) (cfg_disable_anti_replay c) (cfg_fix_gro c)
    (cfg_disable_bpf c) (cfg_seq_mode c) (cfg_lower_level c) (cfg_hb_mode c) (cfg_hb_len c) (cfg_max_rst_to_show c)
    (cfg_max_rst_allowed c) (cfg_ttl c) (cfg_random_drop c) (cfg_threads c) (cfg_source_ip c) (cfg_source_port c)
    (cfg_wait_lock c) (cfg_underlay_dev c) (cfg_underlay_gateway c) (cfg_retry_on_error c).

(** The relay address to start with, or the code of a process that ends without one.  A failure
    is retried with [--retry-on-error] until the exit flag is seen in a pause; [pauses] is the
    number of pauses that pass before. *)
Fixpoint bootstrap_endpoint (pauses : nat) (cfg : Config) (spec : EndpointSpec) (opts : EndpointOptions)
    : Io (Z + (EndpointController * Config)) :=
  now ← now_ms;
  o ← bootstrap spec opts now;
  match o with
  | Some ep => mret (inr (ep, set_cfg_remote_addr (ec_current ep) cfg))
  | None =>
      if cfg_retry_on_error cfg then
        match pauses with O => mret (inl 0) | S pauses => bootstrap_endpoint pauses cfg spec opts end
      else mret (inl 255)
  end.

Section program.
Context `{P : Prims}.

(** A turn of the program: a round of the event loop, during which the workers go on too, or a
    step of a crypto worker while the I/O thread waits, with the nonces it draws. *)
Inductive Turn := Round (inp : Inputs) | Worker (nonces : nat → list Z) (i : nat).
Fixpoint event_loop (self : Client) (last_timer : Z) (turns : list Turn) : Io Client :=
  match turns with
  | [] => mret self
  | Worker nonces i :: turns =>
      p ← lift (worker_turn nonces i (cl_pipeline self));
      event_loop (set_cl_pipeline p self) last_timer turns
  | Round inp :: turns =>
      if cl_exit self then mret self else
      _ ← now_ms;
      r ← client_round self last_timer inp;
      event_loop r.2 r.1 turns
  end.

Definition clear_ipt (ipt : option Iptables) : Io unit := match ipt with Some it => clear it | None => mret tt end.

(** Up to the event loop; [inl] is the code of a process that ends before. *)
Definition main_start (tries : nat) (fl : Flags) (cfg : Config) (spec : EndpointSpec) (opts : EndpointOptions) (crypto : Crypto)
    : Io (Z + Client) :=
  o ← bootstrap_endpoint tries cfg spec opts;
  match o with
  | inl code => mret (inl code)
  | inr (endpoint, cfg) =>
      const_id ← secure_random_u32_nz;
      if fl_clear_rules fl then clear_all cfg;; mret (inl 255) else
      if fl_gen_rule fl then mret (inl 0) else
      if fl_gen_add fl then ok ← gen_add cfg (pattern cfg); mret (inl (if ok : bool then 0 else 255)) else
      ipt ← (if fl_auto_rule fl then it ← Iptables_init cfg (pattern cfg) const_id (fl_keep_rule fl); mret (Some <$> it)
             else mret (Some None));
      match ipt with
      | None => mret (inl 255)
      | Some ipt =>
          c ← Client_new tries cfg crypto const_id endpoint ipt;
          match c with
          | None => clear_ipt ipt;; mret (inl 255)
          | Some c => mret (inr c)
          end
      end
  end.
(** From the event loop to the end, with the client as it was left. *)
Definition main_loop (c : Client) (turns : list Turn) : Io Client :=
  c ← event_loop c 0 turns;
  c ← client_exit c;
  clear_ipt (cl_ipt c);;
  mret c.
Definition main_run (tries : nat) (fl : Flags) (cfg : Config) (spec : EndpointSpec) (opts : EndpointOptions) (crypto : Crypto)
    (turns : list Turn) : Io (Z + Client) :=
  s ← main_start tries fl cfg spec opts crypto;
  match s with
  | inl code => mret (inl code)
  | inr c => c ← main_loop c turns; mret (inr c)
  end.

(** [run] of an accepted command line. *)
Definition endpoint_options (s : Settings) : EndpointOptions :=
  mkEndpointOptions (se_allow_private_endpoint s) (bool_decide (is_Some (se_endpoint_cache s))) (se_bootstrap_addr s) 2000 60000
    (se_last_good_fallback s).
Definition make_crypto (cpu_has_aes : bool) (s : Settings) : outcome Crypto :=
  keys ← Keys_derive (se_key s) (cfg_is_client (se_cfg s));
  Crypto_with_backend cpu_has_aes (se_cipher_mode s) (se_auth_mode s) (se_cfb_legacy s) keys (se_aes_backend s).
Definition client_main (cpu_has_aes : bool) (tries : nat) (s : Settings) (turns : list Turn) : Io (Z + Client) :=
  crypto ← lift (make_crypto cpu_has_aes s);
  main_run tries (se_flags s) (se_cfg s) (se_remote s) (endpoint_options s) crypto turns.
End program.
