(* ===== verification/ProgramInv.v ===== *)
(** The start and the end of a client process ([src/src/main.rs]): what its first commands and
    requests do to the firewall and the routes, and the state in which the event loop starts. *)
From stdpp Require Import strings.
From S2P Require Import Prelude Util Fips197 Prims Kdf Auth Cipher Crypto Wire AntiReplay Text.
From S2P Require Import Ip Tcp Conv Types World Config Route Iptables Kernel LowerLevel Resources EndpointState EndpointCache.
From S2P Require Import Endpoint EndpointInv EndpointOps FakeTcp Conn Pipeline Session Silence Client ClientKernel ClientInv Program.

(** * Firewall commands *)
Lemma word_hex k z : Forall graphic (hex_digits k z).
Proof.
  revert z. induction k as [|k IH]; intros z; cbn [hex_digits]; [constructor|]. apply Forall_app_2; [destruct (_ <? _); [constructor|apply IH]|].
  constructor; [|constructor]. pose proof (Z.mod_pos_bound z 16 ltac:(lia)). unfold graphic, hex_digit. case_ifs; lia.
Qed.

Section commands.
Context (cmd chain0 : list Z) (ours : list Z → Prop) (gw : option (list Z)) (oif : Z) (src : option (list Z)).
Context (name : list Z) (Hname : chain0 = str "udp2raw" ++ name) (Hchain : word chain0).
#[local] Abbreviation acts := (acts cmd chain0 ours gw oif src).

(** Commands on the chain itself. *)
Lemma decode_chain op b : op = "-N " ∨ op = "-F " ∨ op = "-X " →
  decode_cmd cmd chain0 (shell (cmd ++ str op ++ chain0) b) = COther.
Proof using Hchain.
  intros Hop. unfold decode_cmd. rewrite app_assoc, shell_body, <-app_assoc, !strip_prefix_both by done.
  destruct Hop as [-> |[-> | ->]]; change (strip_prefix (str "-I INPUT ") _) with (@None (list Z));
    change (strip_prefix (str "-D INPUT ") _) with (@None (list Z)); cbn [mbind option_bind]; (rewrite bool_decide_false; [done|]); intros E%app_inv_head; discriminate.
Qed.
Lemma decode_drop b : decode_cmd cmd chain0 (shell (cmd ++ str "-I " ++ chain0 ++ str " -j DROP") b) = COther.
Proof using Hchain Hname.
  unfold decode_cmd. change (str " -j DROP") with (str " -j " ++ str "DROP"). rewrite !app_assoc, shell_body by by apply (word_const "DROP").
  rewrite <-!app_assoc, !strip_prefix_both. rewrite Hname. change (strip_prefix (str "-I INPUT ") _) with (@None (list Z));
  change (strip_prefix (str "-D INPUT ") _) with (@None (list Z)). cbn [mbind option_bind]. rewrite bool_decide_false; [done|]. intros E%app_inv_head. discriminate.
Qed.

Definition fewer (K K' : Kernel) : Prop := (∀ q, (k_jumps K' q ≤ k_jumps K q)%nat) ∧ k_routes K' = k_routes K ∧ k_lost K' = k_lost K.
Lemma fewer_refl K : fewer K K.
Proof. done. Qed.
Lemma fewer_trans K1 K2 K3 : fewer K1 K2 → fewer K2 K3 → fewer K1 K3.
Proof. intros (H1 & E1 & L1) (H2 & E2 & L2). split; [|split; congruence]. intros q. specialize (H1 q). specialize (H2 q). lia. Qed.
Definition does (Q : Kernel → Kernel → Prop) (w w' : World) : Prop := later w w' ∧ env_ok w' ∧ acts w w' Q.
Lemma does_refl (Q : Kernel → Kernel → Prop) w : env_ok w → (∀ K, Q K K) → does Q w w.
Proof. intros. split_and!; [done|done|by apply acts_refl]. Qed.
Lemma does_trans (Q1 Q2 Q : Kernel → Kernel → Prop) w1 w2 w3 : does Q1 w1 w2 → does Q2 w2 w3 → (∀ K1 K2 K3, Q1 K1 K2 → Q2 K2 K3 → Q K1 K3) → does Q w1 w3.
Proof. intros (L1 & E1 & A1) (L2 & E2 & A2) H. split_and!; [by transitivity w2|done|by eapply acts_trans]. Qed.
Lemma does_then (Q : Kernel → Kernel → Prop) w1 w2 w3 : does Q w1 w2 → does (λ K K', K' = K) w2 w3 → does Q w1 w3.
Proof. intros H1 H2. eapply does_trans; [exact H1|exact H2|]. by intros K1 K2 K3 H ->. Qed.
Lemma does_mono (Q Q' : Kernel → Kernel → Prop) w w' : does Q w w' → (∀ K K', Q K K' → Q' K K') → does Q' w w'.
Proof. intros (L & E & A) H. split_and!; [done|done|by eapply acts_mono]. Qed.
Lemma runs_does (Q : bool → Kernel → Kernel → Prop) c b w : env_ok w →
  (∀ K K' ok out, k_event cmd chain0 ours gw oif src K (EvCmd (shell c b) ok out) K' → Q ok K K') →
  runs (run_command c b) w (λ r w', does (Q r.1) w w').
Proof.
  intros Hw HQ. apply runs_command; [done|]. intros ok out w' Hl Hw' Ht. split_and!; [done|done|]. eapply acts_one; [done|]. intros K K' HK. by eapply HQ.
Qed.
Lemma runs_other c b w : env_ok w → decode_cmd cmd chain0 (shell c b) = COther → runs (run_command c b) w (λ _ w', does (λ K K', K' = K) w w').
Proof.
  intros Hw E. eapply runs_mono; [apply (runs_does (λ _ K K', K' = K)); [done|]|done]. intros K K' ok out. cbn [k_event]. by rewrite E.
Qed.

Section table.
Context (it : Iptables) (Hcmd : ipt_cmd it = cmd) (Hch : ipt_chain0 it = chain0) (Hkeep : ipt_keep it = false).

Lemma runs_clear_patterns ps w : env_ok w → runs (clear_patterns it 0 ps) w (λ _ w', does fewer w w').
Proof using Hchain Hcmd Hch.
  revert w. induction ps as [|p ps IH]; intros w Hw; cbn [clear_patterns]; [by apply runs_ret, does_refl|]. apply runs_bind.
  eapply runs_mono; [apply (runs_does (λ _, fewer)); [done|]|].
  - intros K K' ok out. cbn [k_event]. rewrite (decode_del cmd chain0 Hchain it Hcmd Hch). intros ->. destruct ok; [|done]. split; [|done].
    intros q. cbn. case_bool_decide; [subst q|]; lia.
  - intros r w1 H1. pose proof H1 as (_ & Hw1 & _). eapply runs_mono; [by apply IH|]. intros [] w2 H2. eapply does_trans; [exact H1|exact H2|apply fewer_trans].
Qed.
Lemma runs_clear w : env_ok w → runs (clear it) w (λ _ w', does fewer w w').
Proof using Hchain Hcmd Hch Hkeep.
  intros Hw. unfold clear, managed. rewrite Hkeep. cbn [clear_chains]. apply runs_bind. eapply runs_mono; [by apply runs_clear_patterns|]. intros [] w1 H1.
  pose proof H1 as (_ & Hw1 & _). unfold chain. cbn [Z.eqb]. rewrite Hcmd, Hch. apply runs_bind. eapply runs_mono; [apply runs_other; [done|apply decode_chain; auto]|].
  intros r2 w2 H2. pose proof H2 as (_ & Hw2 & _). apply runs_bind. eapply runs_mono; [apply runs_other; [done|apply decode_chain; auto]|].
  intros r3 w3 H3. apply runs_ret. exact (does_then _ _ _ _ (does_then _ _ _ _ H1 H2) H3).
Qed.
(** The first jump. *)
Definition jumped (p : list Z) (K K' : Kernel) : Prop := K' = set_jumps p (S (k_jumps K p)) K.
Lemma runs_init_chain p w : env_ok w → runs (init_chains it p [0]) w (λ ok w', later w w' ∧ env_ok w' ∧ (ok = true → acts w w' (jumped p))).
Proof using Hchain Hcmd Hch Hkeep Hname.
  intros Hw. cbn [init_chains]. unfold chain. cbn [Z.eqb]. rewrite Hcmd, Hch.
  assert (∀ w1, later w w1 → env_ok w1 → runs (clear it;; mret false) w1 (λ ok w', later w w' ∧ env_ok w' ∧ (ok = true → acts w w' (jumped p)))) as Hundo.
  { intros w1 Hl1 Hw1. apply runs_bind. eapply runs_mono; [by apply runs_clear|]. intros [] w2 (Hl2 & Hw2 & _). apply runs_ret. split_and!; [by transitivity w1|done|done]. }
  apply runs_bind. eapply runs_mono; [apply runs_other; [done|apply decode_chain; auto]|]. intros r1 w1 H1. pose proof H1 as (_ & Hw1 & _).
  apply runs_bind. eapply runs_mono; [apply runs_other; [done|apply decode_chain; auto]|]. intros r2 w2 H2.
  assert (does (λ K K', K' = K) w w2) as H12 by exact (does_then _ _ _ _ H1 H2). pose proof H12 as (Hl2 & Hw2 & _).
  destruct (negb _); [by apply Hundo|]. apply runs_bind. eapply runs_mono; [apply runs_other; [done|apply decode_drop]|]. intros r3 w3 H3.
  assert (does (λ K K', K' = K) w w3) as H13 by exact (does_then _ _ _ _ H12 H3). pose proof H13 as (Hl3 & Hw3 & _).
  destruct (negb _); [by apply Hundo|]. apply runs_bind.
  eapply runs_mono; [apply (runs_does (λ ok K K', ok = true → jumped p K K')); [done|]|].
  - intros K K' ok out. cbn [k_event]. rewrite (decode_add cmd chain0 Hchain it Hcmd Hch). by intros -> ->.
  - intros [ok out] w4 H4. cbn [fst] in *. destruct ok; cbn [negb].
    + apply runs_ret. assert (does (jumped p) w w4) as (Hl & Hw4 & Ha) by (eapply does_trans; [exact H13|exact H4|]; intros K1 K2 K3 -> H; by apply H). done.
    + pose proof H4 as (Hl4 & Hw4 & _). apply Hundo; [by transitivity w3|done].
Qed.
End table.
End commands.

(** * The path of the routes *)
Definition route_v4 (i : RouteInfo) : Prop := (∀ g, rt_gateway i = Some g → v4_ok g) ∧ (∀ p, rt_prefsrc i = Some p → v4_ok p).
Lemma parse_attr_v4 kind data i : bytes data → route_v4 i → route_v4 (parse_attr kind data i).
Proof.
  intros Hb Hi. unfold parse_attr. destruct (Z.eqb_spec (zlen data) 4) as [Hl|]; cbn [negb]; [|done].
  assert (v4_ok data) as Hd by (split; [done|lia]). destruct Hi as [Hg Hp].
  repeat match goal with |- context [if ?b then _ else _] => destruct b end; split; cbn; try done; by intros x [= <-].
Qed.
Lemma parse_attrs_v4 fuel payload off i r : bytes payload → route_v4 i → parse_attrs fuel payload off i = Done (Some r) → route_v4 r.
Proof.
  intros Hb. revert off i. induction fuel as [|fuel IH]; intros off i Hi; cbn [parse_attrs]; [by intros [= <-]|].
  destruct (_ <=? _); [|by intros [= <-]]. intros (b & _ & E)%bind_inv. apply bind_inv in E as (b2 & _ & E). cbv zeta in E. destruct (_ || _); [done|].
  apply bind_inv in E as (data & Ed & E). eapply IH; [|exact E]. apply parse_attr_v4; [|done]. unfold slice in Ed. destruct (_ && _); [|done]. injection Ed as <-.
  apply Forall_take, Forall_drop, Hb.
Qed.
Lemma parse_route_v4 payload r : bytes payload → parse_route payload = Done (Some r) → route_v4 r.
Proof.
  intros Hb. unfold parse_route. destruct (_ <? _); [done|]. intros (a & _ & E)%bind_inv. do 4 (apply bind_inv in E as (? & _ & E)).
  by eapply parse_attrs_v4; [exact Hb| |exact E].
Qed.

(** Questions about routes change nothing, whatever the path of the routes is. *)
Definition asks_routes (w w' : World) : Prop :=
  later w w' ∧ env_ok w' ∧ ∀ cmd chain0 ours gw oif src, acts cmd chain0 ours gw oif src w w' (λ K K', K' = K).
Lemma asks_routes_refl w w' : asks w w' → asks_routes w w'.
Proof. intros (L & E & T). split_and!; [done|done|]. intros. by apply acts_refl. Qed.
Lemma asks_routes_trans w1 w2 w3 : asks_routes w1 w2 → asks_routes w2 w3 → asks_routes w1 w3.
Proof.
  intros (L1 & E1 & A1) (L2 & E2 & A2). split_and!; [by transitivity w2|done|]. intros. eapply acts_trans; [apply A1|apply A2|]. by intros K1 K2 K3 -> ->.
Qed.
Lemma decode_get gw oif src flags seq dst (o : option Z) :
  decode_nl gw oif src (Route.message RTM_GETROUTE flags seq
    (match o with Some i => push_attr (push_attr (rtmsg 32 0 0 0 0) RTA_DST dst) RTA_OIF (to_le 4 i) | None => push_attr (rtmsg 32 0 0 0 0) RTA_DST dst end)) = NOther.
Proof.
  unfold decode_nl. rewrite nl_type_message, nl_body_message by done. change (RTM_GETROUTE =? RTM_NEWROUTE) with false. change (RTM_GETROUTE =? RTM_DELROUTE) with false.
  rewrite Z.eqb_refl. cbn [andb]. rewrite bool_decide_false; [done|]. destruct o; unfold push_attr, owned_route_dump_body; intros E%(f_equal (λ l, nth 1 l 0)); done.
Qed.
Lemma runs_get_route dst o w : env_ok w → runs (get_route dst o) w (λ r w', asks_routes w w' ∧ ∀ i, r = Some i → route_v4 i).
Proof.
  intros Hw. unfold get_route. cbv zeta. apply runs_bind, runs_request; [done|]. intros r tr w' Hl Ht Hw' Hr Htr.
  assert (asks_routes w w') as Ha.
  { split_and!; [done|done|]. intros. destruct Htr as [[-> _]|[seq ->]]; [apply acts_refl; [by rewrite Ht, app_nil_r|done]|].
    eapply acts_one; [exact Ht|]. intros K K'. cbn [k_event]. by rewrite decode_get. }
  destruct r as [[|p ps]|e]; [by apply runs_ret| |by apply runs_ret]. apply Forall_inv in Hr. destruct (parse_route_total p Hr) as (i & Ei).
  eapply runs_lift; [exact Ei|]. split; [done|]. intros x ->. by eapply parse_route_v4.
Qed.
Lemma runs_detect dev gateway remote w : env_ok w → (∀ g, gateway = Some g → v4_ok g) →
  runs (Underlay_detect dev gateway remote) w (λ r w', asks_routes w w' ∧ ∀ u, r = Some u → path_ok (ud_gateway u) (ud_ifindex u) (ud_prefsrc u)).
Proof.
  intros Hw Hg. unfold Underlay_detect. apply runs_bind. eapply runs_mono; [by apply runs_index|]. intros i w1 Ha1%asks_routes_refl.
  destruct i as [i|]; [|by apply runs_ret]. cbv zeta. assert (is_u 32 (wrap 32 i)) as Hi by by apply wrap_range.
  assert (path_ok gateway (wrap 32 i) None) as Hp0 by (unfold path_ok; by split_and!). destruct remote.1 as [v4|v6]; [|apply runs_ret; split; [done|]; by intros u [= <-]].
  pose proof Ha1 as (_ & Hw1 & _). apply runs_bind. eapply runs_mono; [by apply runs_get_route|]. intros r w2 [Ha2 Hr]. apply runs_bind.
  pose proof Ha2 as (_ & Hw2 & _). pose proof (asks_routes_trans _ _ _ Ha1 Ha2) as Ha12.
  apply (runs_mono _ _ (λ o w', asks_routes w w' ∧ ∀ i, o = Some i → route_v4 i)).
  { destruct r as [r|]; [by apply runs_ret|]. apply runs_bind. eapply runs_mono; [by apply runs_get_route|]. intros r' w3 [Ha3 Hr']. apply runs_ret.
    split; [by eapply asks_routes_trans|]. intros x. destruct r' as [r'|]; [|done]. cbn. case_bool_decide; [|done]. intros [= <-]. by apply Hr'. }
  intros o w3 [Ha Ho]. apply runs_ret. split; [done|]. intros u [= <-]. destruct o as [r'|]; [|done]. destruct (Ho r' eq_refl) as [Hrg Hrp].
  unfold path_ok. cbn [ud_gateway ud_ifindex ud_prefsrc]. split_and!; [|done|done]. destruct gateway; [done|]. exact Hrg.
Qed.

(** * The configuration *)
Definition spec_v6 (spec : EndpointSpec) : bool := match spec with Literal a => is_ipv6 a.1 | Hostname _ _ => false end.
(** What the command line and the configuration files are checked for, besides that a source
    address is of the relay's family, and that the rules are not to be kept. *)
Record prog_ok (fl : Flags) (cfg : Config) (spec : EndpointSpec) (opts : EndpointOptions) : Prop := {
  pg_client : cfg_mode cfg = ModeClient;
  pg_spec : match spec with Literal a => ip_ok a.1 ∧ is_u 16 a.2 | Hostname _ _ => boot_ok spec opts end;
  pg_source ip : cfg_source_ip cfg = Some ip → ip_ok ip ∧ is_ipv6 ip = spec_v6 spec;
  pg_source_port p : cfg_source_port cfg = Some p → is_u 16 p;
  pg_gateway g : cfg_underlay_gateway cfg = Some g → v4_ok g;
  pg_ttl : is_byte (cfg_ttl cfg);
  pg_mac name mac : cfg_lower_level cfg = Some (LlManual name mac) → length mac = 6%nat;
  pg_keep : fl_keep_rule fl = false }.

Definition booted (cfg : Config) (spec : EndpointSpec) (ep : EndpointController) (cfg' : Config) : Prop :=
  ep_ok spec ep ∧ cfg' = set_cfg_remote_addr (ec_current ep) cfg.
Lemma runs_boot_once fl cfg spec opts now w : prog_ok fl cfg spec opts → env_ok w →
  runs (bootstrap spec opts now) w (λ o w', asks w w' ∧ ∀ ep, o = Some ep → ep_ok spec ep).
Proof.
  intros Hp Hw. pose proof (pg_spec _ _ _ _ Hp) as Hs. destruct spec as [a|name port].
  - unfold bootstrap. apply runs_bind, runs_unix; [done|]. intros t w2 _ Hl2 Ht2 Hw2. apply runs_ret. split; [done|].
    intros ep [= <-]. split; [done|]. right. by exists a.
  - eapply runs_mono; [by apply runs_bootstrap|]. intros o w2 [[E2 L2 T2] Ho]. split; [done|]. intros ep Eo.
    destruct (Ho ep Eo) as (Hi & Es & _). split; [done|by left].
Qed.
Lemma runs_boot pauses fl cfg spec opts w : prog_ok fl cfg spec opts → env_ok w →
  runs (bootstrap_endpoint pauses cfg spec opts) w (λ r w', asks w w' ∧ ∀ ep cfg', r = inr (ep, cfg') → booted cfg spec ep cfg').
Proof.
  intros Hp. revert w. induction pauses as [|pauses IH]; intros w Hw; cbn [bootstrap_endpoint];
    (apply runs_bind, runs_now_ms; [done|]); intros now w1 _ _ Hl1 Ht1 Hw1; assert (asks w w1) as Ha1 by done;
    apply runs_bind; (eapply runs_mono; [by eapply runs_boot_once|]); intros [ep|] w2 [Ha Ho];
    try (apply runs_ret; split; [by eapply asks_trans|]; intros ep' cfg' [= <- <-]; by split; [apply Ho|]);
    (destruct (cfg_retry_on_error cfg); [|by apply runs_ret; split; [eapply asks_trans|]]).
  - by apply runs_ret; split; [eapply asks_trans|].
  - eapply runs_mono; [apply IH, Ha|]. intros r w3 [Ha3 Hr]. split; [|done]. eapply asks_trans; [exact Ha1|by eapply asks_trans].
Qed.

Lemma relay_ok fl cfg spec opts a : prog_ok fl cfg spec opts → relay spec a → ip_ok a.1 ∧ is_ipv6 a.1 = spec_v6 spec.
Proof.
  intros Hp Ha. pose proof (pg_spec _ _ _ _ Hp) as Hs. destruct spec as [b|name port]; cbn in *; [by subst a; split; [apply Hs|]|].
  destruct Ha as (ip & Hip & ->). done.
Qed.
Definition chain_name (const_id : Z) : list Z := (str "udp2rawDwrW_" ++ hex_u32 const_id) ++ str "_C0".
Definition chain_rest (const_id : Z) : list Z := str "DwrW_" ++ hex_u32 const_id ++ str "_C0".
Lemma chain_name_eq const_id : chain_name const_id = str "udp2raw" ++ chain_rest const_id.
Proof. unfold chain_name, chain_rest. by rewrite <-app_assoc. Qed.
Lemma chain_name_word const_id : word (chain_name const_id).
Proof.
  unfold chain_name. rewrite <-app_assoc. apply word_app; [by apply word_const|]. apply Forall_app_2; [apply word_hex|]. by apply (word_const "_C0").
Qed.
Lemma setup_start fl cfg spec opts ep cfg' const_id u : prog_ok fl cfg spec opts → booted cfg spec ep cfg' →
  (∀ x, u = Some x → path_ok (ud_gateway x) (ud_ifindex x) (ud_prefsrc x)) → setup_ok cfg' spec (chain_name const_id) u.
Proof.
  intros Hp [He ->] Hu. pose proof (current_relay spec ep He) as Hc.
  assert (raw_is_v6 (set_cfg_remote_addr (ec_current ep) cfg) = spec_v6 spec) as Ev.
  { unfold raw_is_v6. cbn. rewrite (pg_client _ _ _ _ Hp). by eapply relay_ok. }
  constructor; rewrite ?Ev; try done.
  - unfold cfg_is_client. cbn. by rewrite (pg_client _ _ _ _ Hp).
  - apply chain_name_word.
  - intros a Ha. by eapply relay_ok.
  - pose proof (pg_spec _ _ _ _ Hp) as Hs. destruct spec; cbn; [apply Hs|]. destruct (bt_spec _ _ Hs) as (n & q & [= -> ->] & _ & _ & Hq & _). done.
  - apply (pg_source _ _ _ _ Hp).
  - apply (pg_source_port _ _ _ _ Hp).
Qed.

(** * The client at its start *)
Lemma runs_detect_ll tries retry ip w : env_ok w →
  runs (detect_lower_level tries retry ip) w (λ o w', asks w w' ∧ ∀ name mac, o = Some (name, mac) → length mac = 6%nat).
Proof.
  revert w. induction tries as [|tries IH]; intros w Hw; cbn [detect_lower_level]; [apply runs_ret; split; [by apply asks_refl|done]|].
  apply runs_bind. eapply runs_mono; [by apply runs_lower_level|]. intros [[[d name] mac]|] w1 [Ha Hm].
  - apply runs_ret. split; [done|]. intros x y [= <- <-]. by eapply Hm.
  - destruct retry; [|by apply runs_ret]. eapply runs_mono; [apply IH, Ha|]. intros o w2 [Ha2 Ho]. split; [by eapply asks_trans|done].
Qed.
Definition aimed_ll (i i' : ConnInfo) : Prop := i' = i ∨ ∃ a, i' = set_ci_raw (upd_send (set_pi_addr_ll a) (ci_raw i)) i.
Lemma runs_start_ll tries cfg remote i w : env_ok w → (∀ name mac, cfg_lower_level cfg = Some (LlManual name mac) → length mac = 6%nat) →
  runs (start_lower_level tries cfg remote i) w (λ o w', asks w w' ∧ ∀ i', o = Some i' → aimed_ll i i').
Proof.
  intros Hw Hm. unfold start_lower_level. destruct (cfg_lower_level cfg) as [ll|]; [|apply runs_ret; split; [by apply asks_refl|]; intros i' [= <-]; by left].
  apply runs_bind. apply (runs_mono _ _ (λ o w', asks w w' ∧ ∀ name mac, o = Some (name, mac) → length mac = 6%nat)).
  - destruct ll as [|name mac]; [destruct remote.1; [by apply runs_detect_ll|apply runs_ret; split; [by apply asks_refl|done]]|].
    apply runs_ret. split; [by apply asks_refl|]. intros x y [= <- <-]. by eapply Hm.
  - intros [[name mac]|] w1 [Ha1 Hmac]; [|by apply runs_ret]. specialize (Hmac name mac eq_refl). apply runs_bind.
    eapply runs_mono; [apply runs_index, Ha1|]. intros o w2 Ha2. pose proof (asks_trans _ _ _ Ha1 Ha2) as Ha. destruct o as [idx|]; [|by apply runs_ret].
    destruct (make_ll idx mac Hmac) as (a & Ea). apply runs_bind. eapply runs_lift; [exact Ea|]. apply runs_ret. split; [done|]. intros i' [= <-]. right. by exists a.
Qed.
Lemma source_unset mode v6 : yields (RawInfo_new mode v6) (λ r, pi_src_ip (send_info r) = unspecified v6 ∧ reserved_send_seq r = 0).
Proof.
  unfold RawInfo_new. apply (yields_bind _ _ (λ s, pi_src_ip s = unspecified v6)).
  - unfold PacketInfo_new. yields_tac.
  - intros s Es. yields_tac.
Qed.

(** What the reception of packets depends on. *)
Definition client_ctx (mode : RawMode) (v6 : bool) : RawCtx := mkRawCtx mode v6 true 0 0 0 0 None false false 0 0 [] [] 0.

Section start.
Context `{P : Prims} {HP : PrimsOk P}.
Context (cr : Crypto) (cm : CipherMode) (am : AuthMode) (legacy : bool) (keys : Keys) (He : engine cr cm am legacy keys).
Context (fl : Flags) (cfg0 : Config) (spec : EndpointSpec) (opts : EndpointOptions) (Hprog : prog_ok fl cfg0 spec opts).
Context (cfg : Config) (ep : EndpointController) (Hboot : booted cfg0 spec ep cfg).
#[local] Abbreviation cmd := (base_command cfg).

(** The table of rules at the start. *)
Definition first_ipt (const_id : Z) (o : option Iptables) : Prop :=
  o = None ∨ ∃ it, o = Some it ∧ ipt_cmd it = cmd ∧ ipt_chain0 it = chain_name const_id ∧ ipt_keep it = false ∧
    ipt_patterns it = [pattern_for cfg (cfg_remote_addr cfg)].
(** The kernel then: only that rule exists. *)
Definition first_kernel (o : option Iptables) (K : Kernel) : Prop :=
  ∀ a, relay spec a → (0 < k_jumps K (pattern_for cfg a) ↔ o ≠ None ∧ a = cfg_remote_addr cfg)%nat ∧
    ∀ d m, a.1 = V4 d → k_routes K d m = false.

Lemma boot_current : ec_current ep = cfg_remote_addr cfg.
Proof using Hboot. by destruct Hboot as [_ ->]. Qed.
Lemma boot_relay : relay spec (cfg_remote_addr cfg).
Proof using Hboot. rewrite <-boot_current. apply current_relay, Hboot. Qed.

Definition first_entry (const_id : Z) (s : Client) : Installed :=
  mkInstalled (cl_remote s) (owned_metric const_id) (rule_pattern_for s (cl_remote s))
    (mark_initial_rule_present (Resources_new (route_needed s (cl_remote s)) (is_some (rule_pattern_for s (cl_remote s))))).

Section first.
Context (const_id : Z) (u : option Underlay) (s : Client) (Hsu : setup_ok cfg spec (chain_name const_id) u).
Context (Hcfg : cl_cfg s = cfg) (Hu : cl_underlay s = u) (Hremote : cl_remote s = cfg_remote_addr cfg).
Context (Hipt : first_ipt const_id (cl_ipt s)) (Hinst : cl_installed s = [first_entry const_id s]).
#[local] Abbreviation a0 := (cfg_remote_addr cfg).

Lemma entry_first b : entry s b = if bool_decide (b = a0) then Some (first_entry const_id s) else None.
Proof using Hinst Hremote.
  unfold entry. rewrite Hinst. cbn [list_find]. rewrite decide_bool_decide. cbn [in_addr first_entry]. rewrite Hremote.
  destruct (bool_decide_reflect (a0 = b)) as [->|Hne]; [by rewrite bool_decide_true|]. by rewrite bool_decide_false.
Qed.
Lemma ipt_first : ipt_ok cmd (chain_name const_id) (cl_ipt s).
Proof using Hipt.
  destruct Hipt as [->|(it & -> & E1 & E2 & E3 & E4)]; intros x; [done|]. intros [= <-]. split_and!; try done. rewrite E4. apply NoDup_singleton.
Qed.
Lemma entry_first_ok : entry_ok cfg cmd (chain_name const_id) u a0 (in_resources (first_entry const_id s)) (owned_metric const_id, cl_ipt s).
Proof using Hcfg Hu Hremote Hipt.
  pose proof ipt_first as Hok. unfold first_entry, mark_initial_rule_present, Resources_new, rule_pattern_for, route_needed. cbn [in_resources].
  rewrite Hremote, Hu. fold (needs_route u a0). constructor; cbn [fst snd]; try done; try apply owned_metric_ok.
  - by destruct (cl_ipt s).
  - destruct (cl_ipt s); cbn; by destruct (needs_route u a0).
  - intros it Ei. destruct Hipt as [E|(it' & E & _ & _ & _ & Ep)]; [congruence|]. rewrite Ei in E. injection E as <-. rewrite Ei. cbn. rewrite Ep.
    split; [by left|]. intros _. by apply list_elem_of_singleton.
Qed.
Lemma book_first : book cfg spec cmd (chain_name const_id) u s.
Proof using Hboot Hcfg Hu Hremote Hipt Hinst Hsu.
  assert (∀ i, i ∈ cl_installed s → i = first_entry const_id s) as Hone by (rewrite Hinst; intros i; by rewrite list_elem_of_singleton).
  constructor; try done.
  - rewrite Hinst. apply NoDup_singleton.
  - intros i ->%Hone. cbn. rewrite Hremote. apply boot_relay.
  - intros i ->%Hone. cbn. unfold rule_pattern_for, pat_of. cbn. by rewrite Hcfg.
  - intros i ->%Hone. cbn [in_addr in_route_metric first_entry]. rewrite Hremote. apply entry_first_ok.
  - apply ipt_first.
  - intros a it Ei Ha. rewrite entry_first. case_bool_decide as Hne; [done|]. intros _.
    destruct Hipt as [E|(it' & E & _ & _ & _ & Ep)]; [congruence|]. rewrite Ei in E. injection E as <-. rewrite Ep, list_elem_of_singleton.
    apply (relay_apart cfg spec (su_client _ _ _ _ Hsu) (su_port _ _ _ _ Hsu)); [done|apply boot_relay|done].
Qed.
Lemma tracked_first K : first_kernel (cl_ipt s) K → tracked cfg spec s K.
Proof using Hinst Hremote Hu Hcfg Hipt.
  intros HK a Ha. destruct (HK a Ha) as [Hj Hr]. unfold view. rewrite entry_first. case_bool_decide as E; cbn [from_option].
  - subst a. unfold view_of, first_entry, mark_initial_rule_present, Resources_new, rule_pattern_for. cbn [in_resources in_route_metric]. split.
    + destruct (cl_ipt s) as [it|] eqn:Ei; cbn; (split; [|]).
      * intros _. by apply Hj.
      * intros _. by left.
      * done.
      * by intros [H _]%Hj.
    + intros d Ed. split; [destruct (cl_ipt s); cbn; by destruct (route_needed _ _)|]. intros m. rewrite Hr by done. done.
  - split; cbn.
    + split; [done|]. by intros [_ H]%Hj.
    + intros d Ed. split; [done|]. intros m. by rewrite Hr.
Qed.
End first.

(** The first connection: no session, and the relay as destination. *)
Lemma runs_first_info w : env_ok w → runs (ConnInfo_new (cfg_raw_mode cfg) (raw_is_v6 cfg) (cfg_disable_anti_replay cfg)) w (λ i w', asks w w' ∧
  raw_ok (ci_raw i) ∧ pi_src_ip (send_info (ci_raw i)) = unspecified (raw_is_v6 cfg) ∧ reserved_send_seq (ci_raw i) = 0 ∧ my_roller i = 0 ∧
  last_state_time i = 0 ∧ last_hb_sent_time i = 0 ∧ last_hb_recv_time i = 0 ∧ last_oppsite_roller_time i = 0).
Proof.
  intros Hw. unfold ConnInfo_new. apply runs_bind. eapply runs_mono; [apply runs_yields; [|apply source_unset]; apply (runs_raw_new _ _ _ (λ r w', asks w w' ∧ raw_ok r)); [done|]|].
  - intros r w' Hr _ _ Hl Hw' Ht. by split.
  - intros raw w1 [[Ha1 Hr] [Es Er]]. pose proof Ha1 as (_ & Hw1 & _). apply runs_bind, runs_secure_u64; [done|]. intros seed w2 _ Hl2 Ht2 Hw2. apply runs_ret.
    split_and!; try done. by eapply asks_trans.
Qed.
Lemma first_info_ok const_id u w i i' id : setup_ok cfg spec (chain_name const_id) u → env_ok w →
  raw_ok (ci_raw i) ∧ pi_src_ip (send_info (ci_raw i)) = unspecified (raw_is_v6 cfg) ∧ reserved_send_seq (ci_raw i) = 0 ∧ my_roller i = 0 ∧
  last_state_time i = 0 ∧ last_hb_sent_time i = 0 ∧ last_hb_recv_time i = 0 ∧ last_oppsite_roller_time i = 0 →
  aimed_ll (set_my_id id i) i' →
  info_inv cfg w (set_ci_raw (upd_send (λ s, set_pi_dst_port (cfg_remote_addr cfg).2 (set_pi_dst_ip (cfg_remote_addr cfg).1 s)) (ci_raw i')) i').
Proof using Hboot.
  intros Hsu Hw (Hr & Es & Ez & Em & E1 & E2 & E3 & E4) Hll. pose proof boot_relay as Hrel. destruct (su_family _ _ _ _ Hsu _ Hrel) as [Hip Hv].
  pose proof (su_port _ _ _ _ Hsu) as Hp. rewrite <-(relay_port spec _ Hrel) in Hp. pose proof (past_0 w Hw) as H0.
  assert (raw_ok (ci_raw i') ∧ pi_src_ip (send_info (ci_raw i')) = unspecified (raw_is_v6 cfg) ∧ reserved_send_seq (ci_raw i') = 0) as ([Hs Hrc] & Es' & Ez').
  { destruct Hll as [->|[a ->]]; [done|]. split_and!; [|done|done]. destruct Hr as [Hs Hrc]. split; [|done]. by destruct Hs. }
  assert (my_roller i' = 0 ∧ last_state_time i' = 0 ∧ last_hb_sent_time i' = 0 ∧ last_hb_recv_time i' = 0 ∧ last_oppsite_roller_time i' = 0) as (F1 & F2 & F3 & F4 & F5).
  { destruct Hll as [->|[a ->]]; by split_and!. }
  constructor; cbn; rewrite ?F1, ?F2, ?F3, ?F4, ?F5, ?Ez'; try done. split; [|done]. destruct Hs. constructor; try done.
  apply family_same. cbn. rewrite Es', Hv. by destruct (raw_is_v6 cfg).
Qed.

#[local] Abbreviation client_inv c := (client_inv cr (Z.to_nat (cfg_threads cfg)) (cfg_fix_gro cfg) (client_ctx (cfg_raw_mode cfg) (raw_is_v6 cfg))
  cfg spec cmd (chain_name (cl_const_id c)) (cl_underlay c)).
#[local] Abbreviation client_acts c := (acts cmd (chain_name (cl_const_id c)) (ours cfg spec) (u_gw (cl_underlay c)) (u_oif (cl_underlay c)) (u_src (cl_underlay c))).

(** The state before the first installation. *)
Lemma core_first const_id s w : setup_ok cfg spec (chain_name const_id) (cl_underlay s) → env_ok w → cl_const_id s = const_id →
  cl_cfg s = cfg → cl_remote s = cfg_remote_addr cfg → first_ipt const_id (cl_ipt s) → cl_installed s = [first_entry const_id s] →
  info_inv cfg w (cl_info s) → cl_convs s = ConvManager_new → cl_crypto s = cr → ctx_ok (cl_ctx s) → reads_as (cl_ctx s) (client_ctx (cfg_raw_mode cfg) (raw_is_v6 cfg)) →
  cl_pipeline s = Pipeline_new (Z.to_nat (cfg_threads cfg)) cr (cfg_fix_gro cfg) → bytes (cl_hb_buf s) → cl_endpoint s = ep → cl_state s = Idle → client_inv s w s.
Proof using Hboot.
  intros Hsu Hw <- Ec Er Hi Hin Hn Ecv Ecr Hctx Hrd Ep Hb Ee Es. constructor; [constructor| |].
  - by apply book_first.
  - done.
  - rewrite Ecv. apply conv_inv_new.
  - rewrite Ecv. done.
  - done.
  - done.
  - rewrite Ep. exists [], []. split; [apply reach_new|constructor].
  - done.
  - rewrite Ee. apply Hboot.
  - by rewrite Er, Ee, boot_current.
  - by rewrite Es.
Qed.

Lemma runs_new tries const_id ipt w : env_ok w → first_ipt const_id ipt →
  runs (Client_new tries cfg cr const_id ep ipt) w (λ o w', later w w' ∧ env_ok w' ∧ ∀ s, o = Some s →
    cl_cfg s = cfg ∧ cl_const_id s = const_id ∧ setup_ok cfg spec (chain_name const_id) (cl_underlay s) ∧ client_inv s w' s ∧
    client_acts s w w' (λ K K', first_kernel ipt K → tracked cfg spec s K')).
Proof using Hboot Hprog.
  intros Hw Hipt. unfold Client_new. cbv zeta. rewrite boot_current. apply runs_bind.
  apply (runs_mono _ _ (λ o w', asks_routes w w' ∧ ∀ u, o = Some u → ∀ x, u = Some x → path_ok (ud_gateway x) (ud_ifindex x) (ud_prefsrc x))).
  { destruct (cfg_underlay_dev cfg) as [dev|]; [|apply runs_ret; split; [by apply asks_routes_refl, asks_refl|by intros u [= <-]]]. apply runs_bind.
    eapply runs_mono; [apply runs_detect; [done|]|].
    - destruct Hboot as [_ ->]. apply (pg_gateway _ _ _ _ Hprog).
    - intros o w1 [Ha Ho]. apply runs_ret. split; [done|]. intros u Eu x ->. apply Ho. destruct o; cbn in Eu; congruence. }
  intros [u|] w1 [Ha1 Hu]; [|apply runs_ret; split_and!; [apply Ha1..|done]]. specialize (Hu u eq_refl). pose proof Ha1 as (_ & Hw1 & _).
  pose proof (setup_start _ _ _ _ _ _ const_id u Hprog Hboot Hu) as Hsu.
  apply runs_bind. unfold RawCtx_new. apply runs_bind, runs_secure_u32; [done|]. intros rid w2 _ _ Hl2 Ht2 _ _ Hw2. apply runs_ret.
  assert (asks w1 w2) as Ha2 by done. set (ctx := mkRawCtx _ _ _ _ _ _ _ _ _ _ _ _ _ _ _).
  apply runs_bind. eapply runs_mono; [by apply runs_first_info|]. intros i w3 [Ha3 Hinfo]. pose proof Ha3 as (_ & Hw3 & _).
  apply runs_bind, runs_secure_nz; [done|]. intros id w4 _ _ Hl4 Ht4 Hw4. assert (asks w3 w4) as Ha4 by done.
  apply runs_bind. eapply runs_mono; [apply runs_start_ll; [done|]|].
  { destruct Hboot as [_ ->]. apply (pg_mac _ _ _ _ Hprog). }
  intros o w5 [Ha5 Ho]. pose proof Ha5 as (_ & Hw5 & _).
  assert (asks_routes w w5) as Ha.
  { eapply asks_routes_trans; [exact Ha1|]. apply asks_routes_refl. eapply asks_trans; [exact Ha2|]. eapply asks_trans; [exact Ha3|]. by eapply asks_trans. }
  destruct o as [i'|]; [|apply runs_ret; split_and!; [apply Ha..|done]]. specialize (Ho i' eq_refl).
  pose proof (first_info_ok const_id u w5 i i' id Hsu Hw5 Hinfo Ho) as Hii. set (info := set_ci_raw _ i') in *. clearbody info. clear i i' id Hinfo Ho.
  apply runs_bind. unfold record_initial_endpoint. cbv zeta. set (s0 := mkClient _ _ _ _ _ _ _ _ _ _ _ _ _ _ _ _ _ _ _ _ _ _ _ _ _ _).
  set (s1 := set_cl_installed _ s0). change (cl_remote s0) with (cfg_remote_addr cfg).
  assert (client_inv s1 w5 s1) as Hi1.
  { apply (core_first const_id); try done.
    - unfold ctx_ok, ctx. cbn. destruct Hboot as [_ ->]. apply (pg_ttl _ _ _ _ Hprog).
    - unfold reads_as, ctx, client_ctx. cbn. split_and!; try done. unfold cfg_is_client. destruct Hboot as [_ ->]. cbn. by rewrite (pg_client _ _ _ _ Hprog).
    - apply Forall_replicate. done. }
  apply runs_bind. eapply runs_mono; [apply (runs_ensures_one cfg spec cmd (chain_name const_id) u Hsu s1); [done|apply (c_book _ _ _ _ _ _ _ _ _ _ _ Hi1)|apply boot_relay]|].
  intros [b s2] w6 Hk. cbn [snd] in *. do 2 apply runs_ret.
  pose proof (kstep_inv _ _ _ _ _ _ _ _ _ _ _ _ _ _ Hw5 Hi1 Hk ltac:(intros [])) as Hf. destruct (ks_frame _ _ _ _ _ _ _ _ _ _ Hk) as (l & o & Es2).
  pose proof Ha as (HlA & _ & HaA). split_and!; [transitivity w5; [done|apply (f_later _ _ _ _ _ _ _ _ _ _ _ _ _ Hf)]|apply (f_env _ _ _ _ _ _ _ _ _ _ _ _ _ Hf)|].
  intros s [= <-]. assert (cl_underlay s2 = u ∧ cl_cfg s2 = cfg ∧ cl_const_id s2 = const_id) as (Eu & Ec & Ek) by by rewrite Es2.
  rewrite Eu, Ek. split_and!; [done|done|done|apply Hf|]. eapply acts_trans; [apply HaA|apply (f_acts _ _ _ _ _ _ _ _ _ _ _ _ _ Hf)|].
  intros K1 K2 K3 -> H HK. apply H. by apply (tracked_first const_id u s1).
Qed.
End start.

(** * The program *)
(** Nothing of the client's exists, and none of its requests was answered yet. *)
Definition clean (cfg : Config) (spec : EndpointSpec) (K : Kernel) : Prop :=
  (∀ a, relay spec a → k_jumps K (pattern_for cfg a) = 0%nat ∧ ∀ d m, a.1 = V4 d → k_routes K d m = false) ∧
  ∀ d m, k_lost K d m = false.
(** What the events since [w] did to the kernel, as client [c] sees it. *)
Definition client_acts (spec : EndpointSpec) (c : Client) : World → World → (Kernel → Kernel → Prop) → Prop :=
  acts (base_command (cl_cfg c)) (chain_name (cl_const_id c)) (ours (cl_cfg c) spec) (u_gw (cl_underlay c)) (u_oif (cl_underlay c)) (u_src (cl_underlay c)).

Lemma runs_forall {A X} (m : Io A) w (Q : X → A → World → Prop) (x0 : X) : (∀ x, runs m w (Q x)) → runs m w (λ a w', ∀ x, Q x a w').
Proof.
  intros H. destruct (H x0) as (a & w' & E & _). exists a, w'. split; [done|]. intros x. destruct (H x) as (b & w2 & E2 & HQ). rewrite E in E2. by injection E2 as <- <-.
Qed.
Lemma runs_cmd c b w : env_ok w → runs (run_command c b) w (λ _ w', later w w' ∧ env_ok w').
Proof. intros Hw. apply runs_command; [done|]. by intros. Qed.
Lemma runs_cmd_then {A} w c b (f : bool * list Z → Io A) w1 Q : later w w1 ∧ env_ok w1 →
  (∀ r w2, later w w2 ∧ env_ok w2 → runs (f r) w2 Q) → runs (run_command c b ≫= f) w1 Q.
Proof.
  intros [Hl1 Hw1] Hf. apply runs_bind. eapply runs_mono; [by apply runs_cmd|]. intros r w2 [Hl2 Hw2]. apply Hf. split; [by transitivity w1|done].
Qed.
Lemma runs_clear_all cfg w : env_ok w → runs (clear_all cfg) w (λ _ w', later w w' ∧ env_ok w').
Proof.
  intros Hw. unfold clear_all. cbv zeta. do 2 (apply (runs_cmd_then w); [done|intros]). by apply runs_ret.
Qed.
Lemma runs_gen_add cfg p w : env_ok w → runs (gen_add cfg p) w (λ _ w', later w w' ∧ env_ok w').
Proof.
  intros Hw. unfold gen_add. cbv zeta. do 6 (apply (runs_cmd_then w); [done|intros]). by apply runs_ret.
Qed.

Section program.
Context `{P : Prims} {HP : PrimsOk P}.
Context (cr : Crypto) (cm : CipherMode) (am : AuthMode) (legacy : bool) (keys : Keys) (He : engine cr cm am legacy keys).
Context (fl : Flags) (cfg0 : Config) (spec : EndpointSpec) (opts : EndpointOptions) (Hprog : prog_ok fl cfg0 spec opts).
#[local] Abbreviation ctx0 := (client_ctx (cfg_raw_mode cfg0) (spec_v6 spec)).

Definition inv_of (c : Client) : World → Client → Prop :=
  client_inv cr (Z.to_nat (cfg_threads cfg0)) (cfg_fix_gro cfg0) ctx0 (cl_cfg c) spec (base_command (cl_cfg c)) (chain_name (cl_const_id c)) (cl_underlay c).
Record running (w : World) (c : Client) (w' : World) : Prop := {
  ru_setup : setup_ok (cl_cfg c) spec (chain_name (cl_const_id c)) (cl_underlay c);
  ru_inv : inv_of c w' c;
  ru_acts : client_acts spec c w w' (λ K K', clean (cl_cfg c) spec K → tracked (cl_cfg c) spec c K') }.

(** [-a]: the first rule. *)
Lemma runs_first_rule cfg const_id w : env_ok w →
  runs (if fl_auto_rule fl then it ← Iptables_init cfg (pattern cfg) const_id (fl_keep_rule fl); mret (Some <$> it) else mret (Some None)) w
    (λ o w', later w w' ∧ env_ok w' ∧ ∀ ipt, o = Some ipt → first_ipt cfg const_id ipt ∧ ∀ u, 
       acts (base_command cfg) (chain_name const_id) (ours cfg spec) (u_gw u) (u_oif u) (u_src u) w w'
         (λ K K', clean cfg spec K → relay spec (cfg_remote_addr cfg) → (∀ a b, relay spec a → relay spec b → pattern_for cfg a = pattern_for cfg b → a = b) → first_kernel spec cfg ipt K')).
Proof using Hprog.
  intros Hw. rewrite (pg_keep _ _ _ _ Hprog). destruct (fl_auto_rule fl).
  - unfold Iptables_init. cbv zeta. set (it := mkIptables _ _ _ _ _ _). apply runs_bind, runs_bind. change (managed it) with [0].
    eapply runs_mono; [apply (runs_forall _ _ (λ u ok w', later w w' ∧ env_ok w' ∧ (ok = true →
      acts (base_command cfg) (chain_name const_id) (ours cfg spec) (u_gw u) (u_oif u) (u_src u) w w' (jumped (pattern cfg)))) None)|].
    + intros u. by apply (runs_init_chain _ _ _ _ _ _ _ (chain_name_eq const_id) (chain_name_word const_id) it).
    + intros ok w1 H. destruct (H None) as (Hl & Hw1 & _). do 2 apply runs_ret. split_and!; [done|done|]. intros ipt Ei. destruct ok; [|done]. injection Ei as <-.
      split; [right; by exists it|]. intros u. destruct (H u) as (_ & _ & Ha). eapply acts_mono; [by apply Ha|]. intros K K' -> [HK _] Hr Hinj a Hra.
      destruct (HK a Hra) as [Hj Hrt]. split; [|done]. cbn. case_bool_decide as Hp.
      * split; [|lia]. intros _. split; [done|]. by apply Hinj.
      * rewrite Hj. split; [lia|]. intros [_ ->]. done.
  - apply runs_ret. split_and!; [done|done|]. intros ipt [= <-]. split; [by left|]. intros u. apply acts_refl; [done|]. intros K [HK _] _ _ a Ha.
    destruct (HK a Ha) as [Hj Hrt]. split; [|done]. rewrite Hj. split; [lia|]. by intros [? _].
Qed.

Lemma runs_clear_ipt cfg const_id o w : env_ok w → ipt_ok (base_command cfg) (chain_name const_id) o →
  runs (clear_ipt o) w (λ _ w', later w w' ∧ env_ok w' ∧ ∀ u,
    acts (base_command cfg) (chain_name const_id) (ours cfg spec) (u_gw u) (u_oif u) (u_src u) w w' fewer).
Proof.
  intros Hw Ho. destruct o as [it|]; cbn [clear_ipt]; [|apply runs_ret; split_and!; [done|done|]; intros u; by apply acts_refl].
  destruct (Ho it eq_refl) as (E1 & E2 & E3 & _).
  eapply runs_mono; [apply (runs_forall _ _ (λ u _ w', later w w' ∧ env_ok w' ∧
    acts (base_command cfg) (chain_name const_id) (ours cfg spec) (u_gw u) (u_oif u) (u_src u) w w' fewer) None)|].
  - intros u. by apply (runs_clear _ _ _ _ _ _ (chain_name_word const_id) it).
  - intros x w' H. destruct (H None) as (Hl & Hw' & _). split_and!; [done|done|]. intros u. apply H.
Qed.
Lemma first_ipt_ok cfg const_id o : first_ipt cfg const_id o → ipt_ok (base_command cfg) (chain_name const_id) o.
Proof.
  intros [->|(it & -> & E1 & E2 & E3 & E4)] x; [done|]. intros [= <-]. split_and!; try done. rewrite E4. apply NoDup_singleton.
Qed.

Lemma runs_main_start tries w : env_ok w →
  runs (main_start tries fl cfg0 spec opts cr) w (λ r w', env_ok w' ∧ ∀ c, r = inr c → running w c w').
Proof using Hprog.
  intros Hw. unfold main_start. apply runs_bind. eapply runs_mono; [by apply (runs_boot tries fl)|]. intros o w1 [Ha1 Hb].
  pose proof Ha1 as (_ & Hw1 & _). destruct o as [code|[ep cfg]]; [by apply runs_ret|]. specialize (Hb ep cfg eq_refl).
  apply runs_bind, runs_secure_nz; [done|]. intros const_id w2 _ _ Hl2 Ht2 Hw2. assert (asks w w2) as Ha2 by by eapply asks_trans.
  destruct (fl_clear_rules fl); [apply runs_bind; eapply runs_mono; [by apply runs_clear_all|]; intros _ w3 [_ Hw3]; by apply runs_ret|].
  destruct (fl_gen_rule fl); [by apply runs_ret|].
  destruct (fl_gen_add fl); [apply runs_bind; eapply runs_mono; [by apply runs_gen_add|]; intros ok w3 [_ Hw3]; by apply runs_ret|].
  apply runs_bind. eapply runs_mono; [by apply runs_first_rule|]. intros o w3 (Hl3 & Hw3 & Hr). destruct o as [ipt|]; [|by apply runs_ret].
  destruct (Hr ipt eq_refl) as [Hipt Hacts]. apply runs_bind. eapply runs_mono; [by apply (runs_new cr fl cfg0 spec opts Hprog cfg ep Hb)|].
  intros [c|] w4 (Hl4 & Hw4 & Hc).
  - destruct (Hc c eq_refl) as (Ec & Ek & Hsu & Hi & Ha). apply runs_ret. split; [done|]. intros c' [= <-]. subst const_id.
    pose proof Hb as [Hep Ecfg].
    assert (raw_is_v6 cfg = spec_v6 spec) as Ev.
    { destruct (su_family _ _ _ _ Hsu _ (boot_relay _ _ _ _ Hb)) as [_ <-]. by eapply relay_ok, boot_relay. }
    assert (cfg_raw_mode cfg = cfg_raw_mode cfg0 ∧ cfg_threads cfg = cfg_threads cfg0 ∧ cfg_fix_gro cfg = cfg_fix_gro cfg0) as (E1 & E2 & E3) by by rewrite Ecfg.
    rewrite Ev, E1, E2, E3 in Hi. rewrite <-Ec in *. constructor; [done|done|].
    destruct Ha2 as (_ & _ & Ht). unfold client_acts. eapply acts_trans; [|exact Ha|].
    + eapply acts_trans; [by apply (acts_refl _ _ _ _ _ _ w w2 (λ K K', K' = K))|apply Hacts|]. intros K1 K2 K3 -> H. exact H.
    + intros K1 K2 K3 H1 H2 HK. apply H2, H1; [done|by eapply boot_relay|]. intros a b Hra Hrb E. destruct (decide (a = b)) as [|Hne]; [done|]. exfalso.
      by apply (relay_apart (cl_cfg c) spec (su_client _ _ _ _ Hsu) (su_port _ _ _ _ Hsu) a b Hra Hrb Hne).
  - apply runs_bind. eapply runs_mono; [apply (runs_clear_ipt cfg const_id); [done|by apply first_ipt_ok]|]. intros x w5 (_ & Hw5 & _). by apply runs_ret.
Qed.

(** ** The event loop *)
Definition turn_ok (t : Turn) : Prop :=
  match t with Round inp => client_inputs_ok ctx0 inp | Worker nonces _ => ∀ k, nonce_ok (nonces k) end.
(** What stays the same. *)
Definition same_run (c c' : Client) : Prop := cl_cfg c' = cl_cfg c ∧ cl_const_id c' = cl_const_id c ∧ cl_underlay c' = cl_underlay c.
Lemma runs_event_loop turns c c1 last w : setup_ok (cl_cfg c) spec (chain_name (cl_const_id c)) (cl_underlay c) → env_ok w → inv_of c w c1 → Forall turn_ok turns →
  runs (event_loop c1 last turns) w (λ c' w', fine cr (Z.to_nat (cfg_threads cfg0)) (cfg_fix_gro cfg0) ctx0 (cl_cfg c) spec (base_command (cl_cfg c))
    (chain_name (cl_const_id c)) (cl_underlay c) w c1 c' w').
Proof using He HP.
  intros Hsu Hw Hi Ht. revert c1 last w Hw Hi. induction Ht as [|t turns Ht _ IH]; intros c1 last w Hw Hi; cbn [event_loop]; [by apply runs_ret, fine_same|].
  destruct t as [inp|nonces i].
  - destruct (cl_exit c1); [by apply runs_ret, fine_same|]. apply runs_bind. eapply runs_mono; [by apply runs_clock|]. intros now w1 (_ & Hc1 & _).
    pose proof Hc1 as (_ & Hw1 & _). apply runs_bind. eapply runs_mono; [apply (runs_client_round cr cm am legacy keys He); [exact Hsu|done|by apply (inv_calm _ _ _ _ _ _ _ _ _ w)|done]|].
    intros r w2 Hf2. eapply runs_mono; [apply IH; [apply (f_env _ _ _ _ _ _ _ _ _ _ _ _ _ Hf2)|apply Hf2]|]. intros c2 w3 Hf3.
    eapply fine_then; [|exact Hf3]. eapply fine_then; [|exact Hf2]. apply fine_calm; [by apply (inv_calm _ _ _ _ _ _ _ _ _ w)|done|done].
  - destruct (c_pipe _ _ _ _ _ _ _ _ _ _ _ Hi) as (subs & outs & Hr & Hj). apply runs_bind.
    destruct (turn_reach cr cm am legacy keys He _ _ subs outs _ _ nonces i Hr Hj Ht) as (p & Ep & Hp). eapply runs_lift; [exact Ep|].
    assert (inv_of c w (set_cl_pipeline p c1)) as Hi2 by (apply inv_pipe; [done|]; by exists subs, outs).
    eapply runs_mono; [by apply (IH (set_cl_pipeline p c1))|]. intros c3 w3 Hf3. eapply fine_then; [|exact Hf3]. by apply fine_inv.
Qed.
End program.
