(* ===== verification/ProgramSpec.v ===== *)
(** Theorems about whole runs of the client program ([src/src/main.rs], [src/src/client.rs]):
    every run returns, no session is under way without the rule and the route of its relay,
    and no rule or route of the client outlives it unnoticed. *)
From stdpp Require Import strings.
From S2P Require Import Prelude Util Fips197 Prims Kdf Auth Cipher Crypto Wire AntiReplay Text.
From S2P Require Import Ip Tcp Conv Types World Config Route Iptables Kernel LowerLevel Resources EndpointState EndpointCache.
From S2P Require Import Endpoint EndpointInv EndpointOps EndpointSpec CommandLine CommandLineSpec FakeTcp Conn Pipeline Session Client ClientKernel ClientInv ClientSpec Program ProgramInv.

(** The kernels that agree with the answers in a trace. *)
Definition client_krun (spec : EndpointSpec) (c : Client) : Kernel → list Event → Kernel → Prop :=
  krun (base_command (cl_cfg c)) (chain_name (cl_const_id c)) (ours (cl_cfg c) spec) (u_gw (cl_underlay c)) (u_oif (cl_underlay c)) (u_src (cl_underlay c)).
(** The rule and the route of the relay of [c] that a run with [-a] and with an underlay needs. *)
Definition protected (c : Client) (K : Kernel) : Prop :=
  (cl_ipt c ≠ None → (0 < k_jumps K (pattern_for (cl_cfg c) (cl_remote c)))%nat) ∧
  (cl_underlay c ≠ None → ∀ d, (cl_remote c).1 = V4 d → ∃ m, k_routes K d m = true).

Section protection.
Context `{P : Prims}.
Context (cr : Crypto) (n : nat) (gro : bool) (ctx0 : RawCtx) (cfg : Config) (spec : EndpointSpec) (cmd chain0 : list Z) (u : option Underlay).

Lemma ready_protected w c K : client_inv cr n gro ctx0 cfg spec cmd chain0 u w c → cl_state c ≠ Idle → tracked cfg spec c K → protected c K.
Proof.
  intros Hi Hs HK. pose proof (c_gate _ _ _ _ _ _ _ _ _ _ _ Hi Hs) as Hg. pose proof (c_book _ _ _ _ _ _ _ _ _ _ _ Hi) as Hb.
  assert (relay spec (cl_remote c)) as Hr by (rewrite (c_remote _ _ _ _ _ _ _ _ _ _ _ Hi); apply current_relay, (c_endpoint _ _ _ _ _ _ _ _ _ _ _ Hi)).
  destruct (HK _ Hr) as [[Hj _] Hrt]. rewrite ready_entry in Hg. unfold view in *. destruct (entry c (cl_remote c)) as [i|] eqn:Ei; [|done]. cbn [from_option view_of fst snd] in *.
  apply entry_some in Ei as [Hin Ea]; [|apply (bk_nodup _ _ _ _ _ _ Hb)]. pose proof (bk_entry _ _ _ _ _ _ Hb i Hin) as Hen. rewrite Ea in Hen.
  unfold ready in Hg. apply andb_true_iff in Hg as [[_ Hro]%andb_true_iff Hru]. rewrite <-(bk_cfg _ _ _ _ _ _ Hb) in Hj. split.
  - intros Hipt. apply Hj. destruct (rs_rule (in_resources i)) eqn:E; try done. exfalso. apply Hipt. by apply (en_rule _ _ _ _ _ _ _ Hen).
  - intros Hu d Ed. destruct (Hrt d Ed) as [Hp _]. exists (in_route_metric i). apply Hp. destruct (rs_route (in_resources i)) eqn:E; try done. exfalso.
    apply (en_route _ _ _ _ _ _ _ Hen) in E. unfold needs_route in E. rewrite <-(bk_underlay _ _ _ _ _ _ Hb) in E. unfold is_v4 in E. rewrite Ed in E.
    by destruct (cl_underlay c).
Qed.
End protection.

(** A route of the client that a request in the trace was to create, and was answered by an
    error: the client does not know of it. *)
Definition unacknowledged (c : Client) (tr : list Event) (d : list Z) (m : Z) : Prop :=
  ∃ msg e, EvNl msg (NlErr e) ∈ tr ∧ decode_nl (u_gw (cl_underlay c)) (u_oif (cl_underlay c)) (u_src (cl_underlay c)) msg = NNew d m.
(** What is left of the client in the kernel: only what its table lists, and routes whose
    creation was not acknowledged; nothing else if no clean-up is pending. *)
Definition accounted (spec : EndpointSpec) (c c' : Client) (tr : list Event) (K : Kernel) : Prop :=
  ∀ a, relay spec a →
    ((0 < k_jumps K (pattern_for (cl_cfg c) a))%nat → a ∈ in_addr <$> cl_installed c') ∧
    (∀ d m, a.1 = V4 d → k_routes K d m = true → a ∈ in_addr <$> cl_installed c' ∨ unacknowledged c tr d m) ∧
    (has_pending_cleanup c' = false → k_jumps K (pattern_for (cl_cfg c) a) = 0%nat ∧
       ∀ d m, a.1 = V4 d → k_routes K d m = true → unacknowledged c tr d m).
(** What a right table says of a kernel with no more than it has. *)
Lemma left_listed spec c c' tr K K' : tracked (cl_cfg c) spec c' K → fewer K K' → (has_pending_cleanup c' = false → cl_installed c' = []) →
  (∀ d m, k_lost K' d m = true → unacknowledged c tr d m) → accounted spec c c' tr K'.
Proof.
  intros Ht (Hj & Er & El) Hn Hlost a Ha. destruct (Ht a Ha) as [[_ H1] H2].
  assert (∀ d m, a.1 = V4 d → k_routes K' d m = true → entry c' a ≠ None ∨ unacknowledged c tr d m) as Hroute.
  { intros d m Ed Hm. rewrite Er in Hm. destruct (proj2 (H2 d Ed) m Hm) as [[_ Hl]|Hl]; [left|right; apply Hlost; by rewrite El].
    intros He. unfold view in Hl. rewrite He in Hl. by destruct Hl. }
  assert ((0 < k_jumps K' (pattern_for (cl_cfg c) a))%nat → entry c' a ≠ None) as Hrule.
  { intros Hp He. specialize (Hj (pattern_for (cl_cfg c) a)). specialize (H1 ltac:(lia)). unfold view in H1. rewrite He in H1. by destruct H1. }
  assert (entry c' a ≠ None → a ∈ in_addr <$> cl_installed c') as Hin.
  { intros He. destruct (decide (a ∈ in_addr <$> cl_installed c')) as [|Hno]; [done|]. by apply entry_none in Hno. }
  split_and!; [auto| |].
  - intros d m Ed Hm. destruct (Hroute d m Ed Hm); auto.
  - intros Hp. assert (entry c' a = None) as He by (apply entry_none; rewrite (Hn Hp); apply not_elem_of_nil). split.
    + destruct (k_jumps K' (pattern_for (cl_cfg c) a)) eqn:E; [done|]. destruct (Hrule ltac:(lia)). done.
    + intros d m Ed Hm. by destruct (Hroute d m Ed Hm).
Qed.

(** C2. A client without [--keep-rule], whose [--source-ip], if any, is of the relay's family,
    and which receives no TCP segment that states a data offset of one to four words
    ([turn_ok]): whatever else it receives, whatever the kernel answers and however the crypto
    workers are scheduled, during its rounds and between them, its start, with any number of
    retries of [--retry-on-error], returns, and if it leads to the event loop, every number of
    turns of the loop returns.  In every kernel that held none of the client's rules and routes
    before the run and agrees with the answers ([k_event]: nothing else changes them; a command
    that fails has no effect; a request for a route that is answered by an error may have taken
    effect or not), a client
    that is not idle then, thus one in a handshake or in a session, has the firewall rule of
    its relay if it manages rules, and a host route of its relay if it manages routes. *)
Theorem session_needs_rule_and_route `{P : Prims} {HP : PrimsOk P} (cr : Crypto) (cm : CipherMode) (am : AuthMode) (legacy : bool) (keys : Keys)
    (fl : Flags) (cfg : Config) (spec : EndpointSpec) (opts : EndpointOptions) (tries : nat) (turns : list Turn) (w : World)
    (He : engine cr cm am legacy keys) (Hp : prog_ok fl cfg spec opts) (Hw : env_ok w) (Ht : Forall (turn_ok cfg spec) turns) :
  ∃ r w1, main_start tries fl cfg spec opts cr w = Done (r, w1) ∧ ∀ c, r = inr c →
    ∃ c' w2 tr, event_loop c 0 turns w1 = Done (c', w2) ∧ w_trace w2 = w_trace w ++ tr ∧
      ∀ K K', clean (cl_cfg c) spec K → client_krun spec c K tr K' → cl_state c' ≠ Idle → protected c' K'.
Proof.
  destruct (runs_main_start cr fl cfg spec opts Hp tries w Hw) as (r & w1 & E & Hw1 & Hr). exists r, w1. split; [done|]. intros c Ec.
  destruct (Hr c Ec) as [Hsu Hi (t1 & T1 & A1)].
  destruct (runs_event_loop cr cm am legacy keys He cfg spec turns c c 0 w1 Hsu Hw1 Hi Ht) as (c' & w2 & E2 & [Hi2 _ _ (t2 & T2 & A2)]).
  exists c', w2, (t1 ++ t2). split; [done|]. split; [by rewrite T2, T1, app_assoc|]. intros K K' HK (K1 & H1 & H2)%krun_app Hs.
  by eapply ready_protected; [exact Hi2|done|apply (A2 K1 K' H2), (A1 K K1 H1)].
Qed.

(** The whole of a run, with what it leaves in the kernel. *)
Lemma main_ends `{P : Prims} {HP : PrimsOk P} (cr : Crypto) (cm : CipherMode) (am : AuthMode) (legacy : bool) (keys : Keys)
    (fl : Flags) (cfg : Config) (spec : EndpointSpec) (opts : EndpointOptions) (tries : nat) (turns : list Turn) (w : World)
    (He : engine cr cm am legacy keys) (Hp : prog_ok fl cfg spec opts) (Hw : env_ok w) (Ht : Forall (turn_ok cfg spec) turns) :
  ∃ r w1, main_start tries fl cfg spec opts cr w = Done (r, w1) ∧ ∀ c, r = inr c →
    ∃ c' w2 tr, main_loop c turns w1 = Done (c', w2) ∧ w_trace w2 = w_trace w ++ tr ∧
      ∀ K K', clean (cl_cfg c) spec K → client_krun spec c K tr K' → accounted spec c c' tr K'.
Proof.
  destruct (runs_main_start cr fl cfg spec opts Hp tries w Hw) as (r & w1 & E & Hw1 & Hr). exists r, w1. split; [done|]. intros c Ec.
  destruct (Hr c Ec) as [Hsu Hi (t1 & T1 & A1)].
  destruct (runs_event_loop cr cm am legacy keys He cfg spec turns c c 0 w1 Hsu Hw1 Hi Ht) as (c2 & w2 & E2 & [Hi2 _ Hw2 (t2 & T2 & A2)]).
  destruct (runs_exit _ _ _ _ _ Hsu c2 w2 Hw2 (c_book _ _ _ _ _ _ _ _ _ _ _ Hi2)) as (c3 & w3 & E3 & [_ Hw3 _ Hb3 _ (t3 & T3 & A3)] & Hnone).
  destruct (runs_clear_ipt spec (cl_cfg c) (cl_const_id c) (cl_ipt c3) w3 Hw3 (bk_ipt _ _ _ _ _ _ Hb3)) as (x & w4 & E4 & _ & Hw4 & Ha4).
  destruct (Ha4 (cl_underlay c)) as (t4 & T4 & A4).
  exists c3, w4, (((t1 ++ t2) ++ t3) ++ t4). split_and!.
  - unfold main_loop, mbind, io_bind. by rewrite E2, E3, E4.
  - by rewrite T4, T3, T2, T1, !app_assoc.
  - intros K K' HK Hrun. assert (∀ d m, k_lost K' d m = true → unacknowledged c (((t1 ++ t2) ++ t3) ++ t4) d m) as Hlost.
    { intros d m Hm. destruct (krun_lost _ _ _ _ _ _ _ K K' Hrun d m Hm) as [E0|?]; [|done]. by rewrite (proj2 HK) in E0. }
    apply krun_app in Hrun as (K3 & (K2 & (K1 & H1 & H2)%krun_app & H3)%krun_app & H4).
    pose proof (A3 K2 K3 H3 (A2 K1 K2 H2 (A1 K K1 H1 HK))) as Htr. by eapply left_listed; [exact Htr|exact (A4 K3 K' H4)| |].
Qed.

(** C3. Under the same conditions the program ends, once its start has led to the event loop:
    after any number of turns the release of the addresses, its retries and the removal of the
    chain return.  In every kernel that held none of the client's rules and routes before the
    run and agrees with the answers, every rule of the client that is left belongs to an address
    that its table still lists, and so does every route, except those whose creation was
    requested in this run and answered by an error: these the client cannot know of, as the
    kernel may have lost only the acknowledgement.  If the table says that no clean-up is
    pending, nothing is left but such routes.  (Of a start that fails, only that it returns is
    shown.) *)
Theorem exit_leaves_nothing_unlisted `{P : Prims} {HP : PrimsOk P} (cr : Crypto) (cm : CipherMode) (am : AuthMode) (legacy : bool) (keys : Keys)
    (fl : Flags) (cfg : Config) (spec : EndpointSpec) (opts : EndpointOptions) (tries : nat) (turns : list Turn) (w : World)
    (He : engine cr cm am legacy keys) (Hp : prog_ok fl cfg spec opts) (Hw : env_ok w) (Ht : Forall (turn_ok cfg spec) turns) :
  ∃ r w1, main_start tries fl cfg spec opts cr w = Done (r, w1) ∧ ∀ c, r = inr c →
    ∃ c' w2 tr, main_loop c turns w1 = Done (c', w2) ∧ w_trace w2 = w_trace w ++ tr ∧
      ∀ K K', clean (cl_cfg c) spec K → client_krun spec c K tr K' → accounted spec c c' tr K'.
Proof. by eapply main_ends. Qed.

(** * Accepted command lines *)
Lemma fallback_policy p : fallback_ok p → policy_ok p.
Proof.
  intros [H1 H2 H3 H4 H5 H6 _ _ _ _]. constructor; unfold ms_to_secs, saturating_add, MAX_PERSISTED_COOLDOWN_SECS; try lia.
  - apply Z.div_str_pos. lia.
  - split; [apply Z.div_pos; lia|]. apply Z.lt_succ_r, Z.div_lt_upper_bound; lia.
Qed.
(** What the command line does not check: that a source address is of the relay's family (the
    code aborts otherwise); and the thread that keeps the rules is not part of the model. *)
Definition runnable (s : Settings) : Prop :=
  cfg_mode (se_cfg s) = ModeClient ∧ fl_keep_rule (se_flags s) = false ∧
  ∀ ip, cfg_source_ip (se_cfg s) = Some ip → is_ipv6 ip = spec_v6 (se_remote s).
Lemma settings_prog_ok s : settings_ok s → runnable s → prog_ok (se_flags s) (se_cfg s) (se_remote s) (endpoint_options s).
Proof.
  intros Hs (Hm & Hk & Hf). pose proof (st_cfg _ Hs) as Hc. constructor; try done.
  - destruct (st_remote _ Hs) as (Hr & _). destruct (se_remote s) as [a|name port]; [done|]. destruct Hr as (H1 & H2 & H3 & H4).
    constructor; [by exists name, port|apply fallback_policy, (st_fallback _ Hs)|]. intros ip Hip. by apply (st_bootstrap _ Hs).
  - intros ip Hip. split; [by apply (cf_source_ip _ Hc)|by apply Hf].
  - apply (cf_source_port _ Hc).
  - intros g Hg. by apply (cf_gateway _ Hc).
  - apply (cf_ttl _ Hc).
  - intros name mac Hmac. by apply (cf_mac _ Hc name mac).
Qed.
Lemma make_crypto_engine `{P : Prims} {HP : PrimsOk P} cpu s : ∃ cr keys, make_crypto cpu s = Done cr ∧ engine cr (se_cipher_mode s) (se_auth_mode s) (se_cfb_legacy s) keys.
Proof.
  unfold make_crypto. rewrite Keys_derive_expected, bind_Done. set (keys := if _ : bool then _ else _).
  assert (keys_ok keys) as Hk by (unfold keys; destruct (cfg_is_client _); apply expected_keys_ok).
  destruct (Crypto_with_backend_ok cpu (se_cipher_mode s) (se_auth_mode s) (se_cfb_legacy s) keys (se_aes_backend s) Hk) as (cr & E & He).
  by exists cr, keys.
Qed.

(** C4. A client started with an accepted command line without [--keep-rule] and, if it has a
    [--source-ip], with one of the relay's family, that receives no TCP segment with a data
    offset of one to four words, runs from its first step to its exit without an abort, of the
    I/O thread or of a worker (each aborts the process): for every password and cipher, every
    answer of the network and the kernel, every other packet and every schedule of the crypto
    workers, during the rounds and between them. *)
Theorem accepted_client_runs `{P : Prims} {HP : PrimsOk P} (read_file : list Z → option (list Z)) (try_parse_from : list (list Z) → option Cli)
    (parallelism : option Z) (raw_args : list (list Z)) (s : Settings) (cpu : bool) (tries : nat) (turns : list Turn) (w : World)
    (Hclap : ∀ args cli, try_parse_from args = Some cli → cli_typed cli)
    (Hok : parse_args read_file try_parse_from parallelism raw_args = Ok (Run s)) (Hs : runnable s) (Hw : env_ok w)
    (Ht : Forall (turn_ok (se_cfg s) (se_remote s)) turns) :
  ∃ r w', client_main cpu tries s turns w = Done (r, w').
Proof.
  apply parse_args_ok in Hok; [|done]. destruct (make_crypto_engine cpu s) as (cr & keys & Ec & He). unfold client_main. rewrite Ec. unfold mbind, io_bind, lift.
  destruct (main_ends cr _ _ _ keys _ _ _ _ tries turns w He (settings_prog_ok s Hok Hs) Hw Ht) as (r & w1 & E1 & H).
  unfold main_run, mbind, io_bind. rewrite E1. destruct r as [code|c]; [by eexists _, _|].
  destruct (H c eq_refl) as (c' & w2 & tr & E2 & _). rewrite E2. by eexists _, _.
Qed.

(** * A concrete run *)
(** What the events without listings do. *)
Definition k_after (cmd chain0 : list Z) (gw : option (list Z)) (oif : Z) (src : option (list Z)) (K : Kernel) (e : Event) : Kernel :=
  match e with
  | EvCmd text true _ =>
      match decode_cmd cmd chain0 text with
      | CAdd p => set_jumps p (S (k_jumps K p)) K
      | CDel p => set_jumps p (pred (k_jumps K p)) K
      | _ => K
      end
  | EvNl msg r =>
      match decode_nl gw oif src msg, r with
      | NNew d m, NlOk _ => set_route d m true K
      | NDel d m, _ => set_route d m false K
      | _, _ => K
      end
  | _ => K
  end.
Definition unlisted (cmd chain0 : list Z) (gw : option (list Z)) (oif : Z) (src : option (list Z)) (e : Event) : bool :=
  match e with
  | EvCmd text _ _ => match decode_cmd cmd chain0 text with CList => false | _ => true end
  | EvNl msg _ => match decode_nl gw oif src msg with NDump => false | _ => true end
  | _ => true
  end.
Lemma krun_after cmd chain0 ours gw oif src tr : forallb (unlisted cmd chain0 gw oif src) tr = true →
  ∀ K, krun cmd chain0 ours gw oif src K tr (foldl (k_after cmd chain0 gw oif src) K tr).
Proof.
  induction tr as [|e tr IH]; [done|]. intros [He Ht]%andb_true_iff K. cbn [krun foldl]. eexists. split; [|by apply IH].
  destruct e as [| | | | |text ok out|msg r]; try done; cbn [k_event k_after unlisted] in *.
  - destruct (decode_cmd cmd chain0 text); try done; by destruct ok.
  - destruct (decode_nl gw oif src msg); try done; [destruct r; [done|by left]|by left].
Qed.

(** A client of a host name, that manages rules and routes; its clock is past the timer's period. *)
Definition demo_client_cfg : Config :=
  mkConfig ModeClient (V4 [127; 0; 0; 1], 1500) (V4 [0; 0; 0; 0], 443) FakeTcp false false false false 3 None 1 100 10 (-1) 64 0 0 None None false
    (Some (str "eth0")) None false.
Definition demo_client_world : World := set_w_clock_pos 500 demo_world.
Lemma demo_client_world_ok : env_ok demo_client_world.
Proof. destruct demo_world_ok. by constructor. Qed.
Definition demo_client_engine : Crypto :=
  ltac:(let o := eval vm_compute in (Crypto_with_backend (P := demo_prims) true Xor AuthNone false demo_keys Auto) in
        match o with Done ?c => exact c end).
Lemma demo_client_engine_ok : engine (P := demo_prims) demo_client_engine Xor AuthNone false demo_keys.
Proof.
  destruct (Crypto_with_backend_ok (P := demo_prims) true Xor AuthNone false demo_keys Auto (proj1 demo_keys_ok)) as (cr & E & Hcr).
  assert (demo_client_engine = cr) as -> by (enough (Done demo_client_engine = Done cr) by congruence; rewrite <-E; vm_compute; reflexivity). exact Hcr.
Qed.
Definition demo_flags (auto_rule : bool) : Flags := mkFlags auto_rule false false false false.
Lemma demo_prog_ok b : prog_ok (demo_flags b) demo_client_cfg demo_spec demo_opts.
Proof. constructor; try done. apply demo_boot_ok. Qed.
Definition demo_turns : list Turn := [Round (mkInputs [TOK_UDP] [] [] [[(Some (V4 [127; 0; 0; 1], 9000), [1; 2; 3])]])].
Lemma demo_turns_ok : Forall (turn_ok demo_client_cfg demo_spec) demo_turns.
Proof. constructor; [|constructor]. split; [constructor|]. repeat constructor; unfold is_u; lia. Qed.
Definition no_kernel : Kernel := mkKernel (λ _, 0%nat) (λ _ _, false) (λ _ _, false).
(** The state of the run above and the kernel it leaves, computed. *)
Definition demo_gate (c c' : Client) (tr : list Event) : bool :=
  let u := cl_underlay c in
  let cmd := base_command (cl_cfg c) in
  let chain0 := chain_name (cl_const_id c) in
  forallb (unlisted cmd chain0 (u_gw u) (u_oif u) (u_src u)) tr &&
  bool_decide (cl_state c' = TcpHandshake) && is_some (cl_ipt c') && is_some (cl_underlay c') && bool_decide (cl_remote c' = (V4 [8; 8; 8; 8], 443)).
Lemma no_kernel_clean cfg spec : clean cfg spec no_kernel.
Proof. done. Qed.

Lemma session_needs_rule_and_route_witness : ∃ c' K', cl_state c' = TcpHandshake ∧ cl_remote c' = (V4 [8; 8; 8; 8], 443) ∧
  (0 < k_jumps K' (pattern_for (cl_cfg c') (V4 [8; 8; 8; 8], 443)%Z))%nat ∧ ∃ m, k_routes K' [8; 8; 8; 8] m = true.
Proof.
  destruct (session_needs_rule_and_route (P := demo_prims) demo_client_engine Xor AuthNone false demo_keys (demo_flags true) demo_client_cfg demo_spec demo_opts 1
    demo_turns demo_client_world demo_client_engine_ok (demo_prog_ok true) demo_client_world_ok demo_turns_ok) as (r & w1 & E1 & H).
  assert (match main_start 1 (demo_flags true) demo_client_cfg demo_spec demo_opts demo_client_engine demo_client_world with
          | Done (inr c, w) => match event_loop (P := demo_prims) c 0 demo_turns w with Done (c', w') => demo_gate c c' (w_trace w') | Panic => false end
          | _ => false end = true) as Hrun by (vm_compute; reflexivity).
  rewrite E1 in Hrun. destruct r as [code|c]; [discriminate Hrun|]. destruct (H c eq_refl) as (c' & w2 & tr & E2 & Et & HK). rewrite E2 in Hrun.
  change (w_trace demo_client_world) with (@nil Event) in Et. cbn in Et. rewrite Et in Hrun. unfold demo_gate in Hrun. rewrite !andb_true_iff, !bool_decide_eq_true in Hrun.
  destruct Hrun as [[[[Htr Hst] Hipt] Hu] Hrem].
  destruct (HK no_kernel _ (no_kernel_clean _ _) (krun_after _ _ _ _ _ _ tr Htr no_kernel)) as [H1 H2]; [by rewrite Hst|].
  eexists c', _. split; [exact Hst|]. split; [exact Hrem|]. rewrite Hrem in H1, H2. split.
  - apply H1. by destruct (cl_ipt c').
  - apply H2; [by destruct (cl_underlay c')|done].
Defined.

Lemma exit_leaves_nothing_unlisted_witness : ∃ c c' tr K', client_krun demo_spec c no_kernel tr K' ∧ accounted demo_spec c c' tr K' ∧ has_pending_cleanup c' = false ∧
  Exists (λ e, match e with EvNl _ _ => True | _ => False end) tr.
Proof.
  destruct (exit_leaves_nothing_unlisted (P := demo_prims) demo_client_engine Xor AuthNone false demo_keys (demo_flags false) demo_client_cfg demo_spec demo_opts 1
    demo_turns demo_client_world demo_client_engine_ok (demo_prog_ok false) demo_client_world_ok demo_turns_ok) as (r & w1 & E1 & H).
  assert (match main_start 1 (demo_flags false) demo_client_cfg demo_spec demo_opts demo_client_engine demo_client_world with
          | Done (inr c, w) => match main_loop (P := demo_prims) c demo_turns w with
              | Done (c', w') => let u := cl_underlay c in
                  forallb (unlisted (base_command (cl_cfg c)) (chain_name (cl_const_id c)) (u_gw u) (u_oif u) (u_src u)) (w_trace w') &&
                  bool_decide (length (cl_installed c') = 0%nat) && existsb (λ e, match e with EvNl _ _ => true | _ => false end) (w_trace w')
              | Panic => false end
          | _ => false end = true) as Hrun by (vm_compute; reflexivity).
  rewrite E1 in Hrun. destruct r as [code|c]; [discriminate Hrun|]. destruct (H c eq_refl) as (c' & w2 & tr & E2 & Et & HK). rewrite E2 in Hrun.
  change (w_trace demo_client_world) with (@nil Event) in Et. cbn in Et. rewrite Et in Hrun. cbv zeta in Hrun. rewrite !andb_true_iff, !bool_decide_eq_true in Hrun.
  destruct Hrun as [[Htr Hin] Hex]. apply nil_length_inv in Hin.
  pose proof (HK no_kernel _ (no_kernel_clean _ _) (krun_after _ _ _ _ _ _ tr Htr no_kernel)) as Hc.
  exists c, c', tr. eexists. split; [apply (krun_after _ _ _ _ _ _ tr Htr no_kernel)|]. split; [exact Hc|]. split; [unfold has_pending_cleanup; by rewrite Hin|].
  apply Exists_exists. apply existsb_exists in Hex as (e & Hin' & He). exists e. split; [by apply list_elem_of_In|]. by destruct e.
Defined.

(** The client of an accepted command line: a host name, an AEAD, the fallback policy. *)
Lemma accepted_client_runs_witness : ∃ s r w', demo_settings false = Some s ∧ client_main (P := demo_prims) true 1 s demo_turns demo_client_world = Done (r, w').
Proof.
  destruct (demo_settings false) as [s|] eqn:E; [|vm_compute in E; discriminate E]. exists s.
  destruct (accepted_client_runs (P := demo_prims) (λ _, None) (λ _, Some (demo_cli false)) (Some 8) demo_argv s true 1 demo_turns demo_client_world) as (r & w' & H).
  - intros args cli [= <-]. by constructor.
  - unfold demo_settings in E. destruct (parse_args _ _ _ _) as [[s'| |]|]; try discriminate E. by injection E as ->.
  - vm_compute in E. injection E as <-. split; [reflexivity|]. split; [reflexivity|]. intros ip Hip. discriminate Hip.
  - exact demo_client_world_ok.
  - constructor; [|constructor]. split; [constructor|]. repeat constructor; unfold is_u; lia.
  - by exists r, w'.
Defined.

(** The client of the first run, six seconds later. *)
Definition six_seconds (w : World) : World := set_w_clock_pos (Z.to_nat 6000 + w_clock_pos w) w.
Lemma six_seconds_later w : env_ok w → env_ok (six_seconds w) ∧ later w (six_seconds w).
Proof. intros []. split; [by constructor|]. split; [by intros []|done|cbn; lia|done|done]. Qed.
Lemma silence_ends_session_witness : ∃ s w s' w', cl_state s = TcpHandshake ∧ on_timer (P := demo_prims) s w = Done (s', w') ∧ cl_state s' = Idle.
Proof.
  assert (match main_start 1 (demo_flags true) demo_client_cfg demo_spec demo_opts demo_client_engine demo_client_world with
          | Done (inr c, w) => match event_loop (P := demo_prims) c 0 demo_turns w with
              | Done (c', w') => bool_decide (cl_state c' = TcpHandshake) && negb (ri_disabled (ci_raw (cl_info c'))) &&
                                 (CLIENT_HANDSHAKE_TIMEOUT_MS <? time (six_seconds w') - last_state_time (cl_info c'))
              | Panic => false end
          | _ => false end = true) as Hrun by (vm_compute; reflexivity).
  destruct (runs_main_start (P := demo_prims) demo_client_engine (demo_flags true) demo_client_cfg demo_spec demo_opts (demo_prog_ok true) 1 demo_client_world demo_client_world_ok)
    as (r & w1 & E1 & Hw1 & Hr). rewrite E1 in Hrun. destruct r as [code|c]; [discriminate Hrun|]. destruct (Hr c eq_refl) as [Hsu Hi _].
  destruct (runs_event_loop (P := demo_prims) demo_client_engine Xor AuthNone false demo_keys demo_client_engine_ok demo_client_cfg demo_spec demo_turns c c 0 w1 Hsu Hw1 Hi demo_turns_ok)
    as (c' & w2 & E2 & [Hi2 _ Hw2 _]). rewrite E2 in Hrun. rewrite !andb_true_iff, bool_decide_eq_true, negb_true_iff, Z.ltb_lt in Hrun. destruct Hrun as [[Hst Hdis] Hlate].
  destruct (six_seconds_later w2 Hw2) as [Hw3 Hl3].
  destruct (silence_ends_session (P := demo_prims) demo_client_engine Xor AuthNone false demo_keys _ _ _ _ demo_spec _ _ _ c' (six_seconds w2) demo_client_engine_ok Hsu Hw3
    (client_later _ _ _ _ _ _ _ _ _ w2 _ c' Hw2 Hl3 Hi2)) as (s' & w' & E & Hend & _); [by rewrite Hst|done|].
  exists c', (six_seconds w2), s', w'. split; [done|]. split; [done|]. apply Hend. left. unfold overdue. by rewrite Hst.
Defined.
