(* ===== verification/Server.v ===== *)
(** The server: [src/src/server.rs].

    One record for the event loop's state and one definition per method, composed as the
    source composes them; the loop's body is [server_round], whose inputs are the poller's
    tokens and the datagrams the kernel delivers.  [BufPool] only recycles allocations (a
    buffer it hands out is empty) and log lines have no effect, so neither appears. *)
From S2P Require Import Prelude Util Fips197 Prims Kdf Auth Cipher Crypto Wire AntiReplay.
From S2P Require Import Ip Tcp Conv Types World Config FakeTcp Conn Pipeline Session.

Definition MAX_HANDSHAKE_CONN_NUM : Z := 10000.
Definition MAX_READY_CONN_NUM : Z := 1000.
Definition SERVER_HANDSHAKE_TIMEOUT_MS : Z := CLIENT_HANDSHAKE_TIMEOUT_MS + 5000.
Definition CONN_CLEAR_RATIO : Z := 50.
Definition CONN_CLEAR_MIN : Z := 1.
Definition CONN_CLEAR_INTERVAL_MS : Z := 1000.
Definition SERVER_CONN_TIMEOUT_MS : Z := CONV_TIMEOUT_MS + 60000.

Definition TOK_RAW : nat := 0.
Definition TOK_PIPE : nat := 1.
Definition TOK_FIFO : nat := 2.
Definition TOK_SOCK_BASE : nat := 16.
Definition DRAIN_BUDGET : Z := 64.
Definition RX_BATCH : Z := 32.

Inductive State := Idle | Handshake1 | Ready.
#[export] Instance State_eq_dec : EqDecision State.
Proof. solve_decision. Defined.

(** The socket is its descriptor. *)
Record ConvSock := mkConvSock { cs_sock : Z; cs_conn_slot : nat; cs_conv : Z }.

Record ServerConn := mkServerConn {
  sc_info : ConnInfo;
  sc_state : State;
  sc_convs : ConvManager nat;
  sc_generation : Z;
  sc_addr : SocketAddr }.
Definition set_sc_info (v : ConnInfo) (r : ServerConn) : ServerConn :=
  mkServerConn v (sc_state r) (sc_convs r) (sc_generation r) (sc_addr r).
Definition set_sc_state (v : State) (r : ServerConn) : ServerConn :=
  mkServerConn (sc_info r) v (sc_convs r) (sc_generation r) (sc_addr r).
Definition set_sc_convs (v : ConvManager nat) (r : ServerConn) : ServerConn :=
  mkServerConn (sc_info r) (sc_state r) v (sc_generation r) (sc_addr r).
Definition set_sc_generation (v : Z) (r : ServerConn) : ServerConn :=
  mkServerConn (sc_info r) (sc_state r) (sc_convs r) v (sc_addr r).
Definition set_sc_addr (v : SocketAddr) (r : ServerConn) : ServerConn :=
  mkServerConn (sc_info r) (sc_state r) (sc_convs r) (sc_generation r) v.

(** The free lists are stacks, the last pushed first. *)
Record Server := mkServer {
  sv_cfg : Config;
  sv_crypto : Crypto;
  sv_ctx : RawCtx;
  sv_pipeline : Pipeline;
  sv_conns : list (option ServerConn);
  sv_free_conns : list nat;
  sv_by_addr : gmap SocketAddr nat;
  sv_by_const_id : gmap Z nat;
  sv_ready_num : Z;
  sv_socks : list (option ConvSock);
  sv_free_socks : list nat;
  sv_clear_cursor : nat;
  sv_last_conn_clear : Z;
  sv_next_generation : Z;
  sv_const_id : Z;
  sv_manual_ll : option SockaddrLl;
  sv_hb_buf : list Z;
  sv_raw_pending : bool;
  sv_socks_pending : list nat }.
Definition set_sv_cfg (v : Config) (r : Server) : Server :=
  mkServer v (sv_crypto r) (sv_ctx r) (sv_pipeline r) (sv_conns r) (sv_free_conns r)
    (sv_by_addr r) (sv_by_const_id r) (sv_ready_num r) (sv_socks r) (sv_free_socks r)
    (sv_clear_cursor r) (sv_last_conn_clear r) (sv_next_generation r) (sv_const_id r)
    (sv_manual_ll r) (sv_hb_buf r) (sv_raw_pending r) (sv_socks_pending r).
Definition set_sv_crypto (v : Crypto) (r : Server) : Server :=
  mkServer (sv_cfg r) v (sv_ctx r) (sv_pipeline r) (sv_conns r) (sv_free_conns r)
    (sv_by_addr r) (sv_by_const_id r) (sv_ready_num r) (sv_socks r) (sv_free_socks r)
    (sv_clear_cursor r) (sv_last_conn_clear r) (sv_next_generation r) (sv_const_id r)
    (sv_manual_ll r) (sv_hb_buf r) (sv_raw_pending r) (sv_socks_pending r).
Definition set_sv_ctx (v : RawCtx) (r : Server) : Server :=
  mkServer (sv_cfg r) (sv_crypto r) v (sv_pipeline r) (sv_conns r) (sv_free_conns r)
    (sv_by_addr r) (sv_by_const_id r) (sv_ready_num r) (sv_socks r) (sv_free_socks r)
    (sv_clear_cursor r) (sv_last_conn_clear r) (sv_next_generation r) (sv_const_id r)
    (sv_manual_ll r) (sv_hb_buf r) (sv_raw_pending r) (sv_socks_pending r).
Definition set_sv_pipeline (v : Pipeline) (r : Server) : Server :=
  mkServer (sv_cfg r) (sv_crypto r) (sv_ctx r) v (sv_conns r) (sv_free_conns r) (sv_by_addr r)
    (sv_by_const_id r) (sv_ready_num r) (sv_socks r) (sv_free_socks r) (sv_clear_cursor r)
    (sv_last_conn_clear r) (sv_next_generation r) (sv_const_id r) (sv_manual_ll r)
    (sv_hb_buf r) (sv_raw_pending r) (sv_socks_pending r).
Definition set_sv_conns (v : list (option ServerConn)) (r : Server) : Server :=
  mkServer (sv_cfg r) (sv_crypto r) (sv_ctx r) (sv_pipeline r) v (sv_free_conns r)
    (sv_by_addr r) (sv_by_const_id r) (sv_ready_num r) (sv_socks r) (sv_free_socks r)
    (sv_clear_cursor r) (sv_last_conn_clear r) (sv_next_generation r) (sv_const_id r)
    (sv_manual_ll r) (sv_hb_buf r) (sv_raw_pending r) (sv_socks_pending r).
Definition set_sv_free_conns (v : list nat) (r : Server) : Server :=
  mkServer (sv_cfg r) (sv_crypto r) (sv_ctx r) (sv_pipeline r) (sv_conns r) v (sv_by_addr r)
    (sv_by_const_id r) (sv_ready_num r) (sv_socks r) (sv_free_socks r) (sv_clear_cursor r)
    (sv_last_conn_clear r) (sv_next_generation r) (sv_const_id r) (sv_manual_ll r)
    (sv_hb_buf r) (sv_raw_pending r) (sv_socks_pending r).
Definition set_sv_by_addr (v : gmap SocketAddr nat) (r : Server) : Server :=
  mkServer (sv_cfg r) (sv_crypto r) (sv_ctx r) (sv_pipeline r) (sv_conns r) (sv_free_conns r) v
    (sv_by_const_id r) (sv_ready_num r) (sv_socks r) (sv_free_socks r) (sv_clear_cursor r)
    (sv_last_conn_clear r) (sv_next_generation r) (sv_const_id r) (sv_manual_ll r)
    (sv_hb_buf r) (sv_raw_pending r) (sv_socks_pending r).
Definition set_sv_by_const_id (v : gmap Z nat) (r : Server) : Server :=
  mkServer (sv_cfg r) (sv_crypto r) (sv_ctx r) (sv_pipeline r) (sv_conns r) (sv_free_conns r)
    (sv_by_addr r) v (sv_ready_num r) (sv_socks r) (sv_free_socks r) (sv_clear_cursor r)
    (sv_last_conn_clear r) (sv_next_generation r) (sv_const_id r) (sv_manual_ll r)
    (sv_hb_buf r) (sv_raw_pending r) (sv_socks_pending r).
Definition set_sv_ready_num (v : Z) (r : Server) : Server :=
  mkServer (sv_cfg r) (sv_crypto r) (sv_ctx r) (sv_pipeline r) (sv_conns r) (sv_free_conns r)
    (sv_by_addr r) (sv_by_const_id r) v (sv_socks r) (sv_free_socks r) (sv_clear_cursor r)
    (sv_last_conn_clear r) (sv_next_generation r) (sv_const_id r) (sv_manual_ll r)
    (sv_hb_buf r) (sv_raw_pending r) (sv_socks_pending r).
Definition set_sv_socks (v : list (option ConvSock)) (r : Server) : Server :=
  mkServer (sv_cfg r) (sv_crypto r) (sv_ctx r) (sv_pipeline r) (sv_conns r) (sv_free_conns r)
    (sv_by_addr r) (sv_by_const_id r) (sv_ready_num r) v (sv_free_socks r) (sv_clear_cursor r)
    (sv_last_conn_clear r) (sv_next_generation r) (sv_const_id r) (sv_manual_ll r)
    (sv_hb_buf r) (sv_raw_pending r) (sv_socks_pending r).
Definition set_sv_free_socks (v : list nat) (r : Server) : Server :=
  mkServer (sv_cfg r) (sv_crypto r) (sv_ctx r) (sv_pipeline r) (sv_conns r) (sv_free_conns r)
    (sv_by_addr r) (sv_by_const_id r) (sv_ready_num r) (sv_socks r) v (sv_clear_cursor r)
    (sv_last_conn_clear r) (sv_next_generation r) (sv_const_id r) (sv_manual_ll r)
    (sv_hb_buf r) (sv_raw_pending r) (sv_socks_pending r).
Definition set_sv_clear_cursor (v : nat) (r : Server) : Server :=
  mkServer (sv_cfg r) (sv_crypto r) (sv_ctx r) (sv_pipeline r) (sv_conns r) (sv_free_conns r)
    (sv_by_addr r) (sv_by_const_id r) (sv_ready_num r) (sv_socks r) (sv_free_socks r) v
    (sv_last_conn_clear r) (sv_next_generation r) (sv_const_id r) (sv_manual_ll r)
    (sv_hb_buf r) (sv_raw_pending r) (sv_socks_pending r).
Definition set_sv_last_conn_clear (v : Z) (r : Server) : Server :=
  mkServer (sv_cfg r) (sv_crypto r) (sv_ctx r) (sv_pipeline r) (sv_conns r) (sv_free_conns r)
    (sv_by_addr r) (sv_by_const_id r) (sv_ready_num r) (sv_socks r) (sv_free_socks r)
    (sv_clear_cursor r) v (sv_next_generation r) (sv_const_id r) (sv_manual_ll r) (sv_hb_buf r)
    (sv_raw_pending r) (sv_socks_pending r).
Definition set_sv_next_generation (v : Z) (r : Server) : Server :=
  mkServer (sv_cfg r) (sv_crypto r) (sv_ctx r) (sv_pipeline r) (sv_conns r) (sv_free_conns r)
    (sv_by_addr r) (sv_by_const_id r) (sv_ready_num r) (sv_socks r) (sv_free_socks r)
    (sv_clear_cursor r) (sv_last_conn_clear r) v (sv_const_id r) (sv_manual_ll r) (sv_hb_buf r)
    (sv_raw_pending r) (sv_socks_pending r).
Definition set_sv_const_id (v : Z) (r : Server) : Server :=
  mkServer (sv_cfg r) (sv_crypto r) (sv_ctx r) (sv_pipeline r) (sv_conns r) (sv_free_conns r)
    (sv_by_addr r) (sv_by_const_id r) (sv_ready_num r) (sv_socks r) (sv_free_socks r)
    (sv_clear_cursor r) (sv_last_conn_clear r) (sv_next_generation r) v (sv_manual_ll r)
    (sv_hb_buf r) (sv_raw_pending r) (sv_socks_pending r).
Definition set_sv_manual_ll (v : option SockaddrLl) (r : Server) : Server :=
  mkServer (sv_cfg r) (sv_crypto r) (sv_ctx r) (sv_pipeline r) (sv_conns r) (sv_free_conns r)
    (sv_by_addr r) (sv_by_const_id r) (sv_ready_num r) (sv_socks r) (sv_free_socks r)
    (sv_clear_cursor r) (sv_last_conn_clear r) (sv_next_generation r) (sv_const_id r) v
    (sv_hb_buf r) (sv_raw_pending r) (sv_socks_pending r).
Definition set_sv_hb_buf (v : list Z) (r : Server) : Server :=
  mkServer (sv_cfg r) (sv_crypto r) (sv_ctx r) (sv_pipeline r) (sv_conns r) (sv_free_conns r)
    (sv_by_addr r) (sv_by_const_id r) (sv_ready_num r) (sv_socks r) (sv_free_socks r)
    (sv_clear_cursor r) (sv_last_conn_clear r) (sv_next_generation r) (sv_const_id r)
    (sv_manual_ll r) v (sv_raw_pending r) (sv_socks_pending r).
Definition set_sv_raw_pending (v : bool) (r : Server) : Server :=
  mkServer (sv_cfg r) (sv_crypto r) (sv_ctx r) (sv_pipeline r) (sv_conns r) (sv_free_conns r)
    (sv_by_addr r) (sv_by_const_id r) (sv_ready_num r) (sv_socks r) (sv_free_socks r)
    (sv_clear_cursor r) (sv_last_conn_clear r) (sv_next_generation r) (sv_const_id r)
    (sv_manual_ll r) (sv_hb_buf r) v (sv_socks_pending r).
Definition set_sv_socks_pending (v : list nat) (r : Server) : Server :=
  mkServer (sv_cfg r) (sv_crypto r) (sv_ctx r) (sv_pipeline r) (sv_conns r) (sv_free_conns r)
    (sv_by_addr r) (sv_by_const_id r) (sv_ready_num r) (sv_socks r) (sv_free_socks r)
    (sv_clear_cursor r) (sv_last_conn_clear r) (sv_next_generation r) (sv_const_id r)
    (sv_manual_ll r) (sv_hb_buf r) (sv_raw_pending r) v.

(** The state [run] builds before it enters the loop. *)
Definition Server_new (cfg : Config) (crypto : Crypto) (const_id : Z) (manual_ll : option SockaddrLl) : Io Server :=
  ctx ← RawCtx_new cfg;
  let ctx := set_filter ctx (cfg_local_addr cfg).2 in
  mret (mkServer cfg crypto ctx (Pipeline_new (Z.to_nat (cfg_threads cfg)) crypto (cfg_fix_gro cfg))
          [] [] ∅ ∅ 0 [] [] 0 0 1 const_id manual_ll (replicate (Z.to_nat (cfg_hb_len cfg)) 0) false []).

(** * Slots *)
Definition alloc_conn (self : Server) (c : ServerConn) : outcome (nat * Server) :=
  match sv_free_conns self with
  | i :: free =>
      let self := set_sv_free_conns free self in
      if (i <? length (sv_conns self))%nat
      then Done (i, set_sv_conns (<[i := Some c]> (sv_conns self)) self) else Panic
  | [] =>
      let self := set_sv_conns (sv_conns self ++ [Some c]) self in
      Done ((length (sv_conns self) - 1)%nat, self)
  end.

Definition live_conns (self : Server) : Z := zlen (sv_conns self) -⟨64⟩ zlen (sv_free_conns self).

(** [self.conns[slot].as_mut().unwrap()] *)
Definition conn (self : Server) (slot : nat) : outcome ServerConn :=
  match sv_conns self !! slot with Some (Some c) => Done c | _ => Panic end.
(** Writing back the connection a [&mut] borrow of that slot has changed. *)
Definition put_conn (self : Server) (slot : nat) (c : ServerConn) : Server :=
  set_sv_conns (<[slot := Some c]> (sv_conns self)) self.
Definition upd_info (f : ConnInfo → ConnInfo) (c : ServerConn) : ServerConn := set_sc_info (f (sc_info c)) c.

Definition close_sock (self : Server) (sidx : nat) : Io Server :=
  match sv_socks self !! sidx with
  | None => panic
  | Some None => mret self
  | Some (Some cs) =>
      emit (EvClose (cs_sock cs));;
      let self := set_sv_socks (<[sidx := None]> (sv_socks self)) self in
      mret (set_sv_free_socks (sidx :: sv_free_socks self) self)
  end.
Fixpoint close_socks (self : Server) (sidxs : list nat) : Io Server :=
  match sidxs with
  | [] => mret self
  | sidx :: sidxs => self ← close_sock self sidx; close_socks self sidxs
  end.

Definition erase_conn (self : Server) (slot : nat) : Io Server :=
  match sv_conns self !! slot with
  | None => panic
  | Some None => mret self
  | Some (Some c) =>
      let self := set_sv_conns (<[slot := None]> (sv_conns self)) self in
      let self :=
        if bool_decide (sc_state c = Ready) then
          let self := set_sv_ready_num (sv_ready_num self -⟨64⟩ 1) self in
          set_sv_by_const_id (delete (oppsite_const_id (sc_info c)) (sv_by_const_id self)) self
        else self in
      self ← close_socks self (conv_clear (sc_convs c)).1;
      let self := set_sv_by_addr (delete (sc_addr c) (sv_by_addr self)) self in
      mret (set_sv_free_conns (slot :: sv_free_conns self) self)
  end.

Definition fill_lower_level (self : Server) (raw : RawInfo) : RawInfo :=
  if negb (rc_lower_level (sv_ctx self)) then raw else
  upd_send (set_pi_addr_ll (match sv_manual_ll self with
                            | Some ll => ll
                            | None => reply_sockaddr_ll (pi_addr_ll (recv_info raw))
                            end)) raw.

Section server.
Context `{P : Prims}.

Definition submit_job (self : Server) (job : Job) : Io Server :=
  r ← submit_among (sv_pipeline self) job;
  mret (set_sv_pipeline r.2 self).

Definition send_heartbeat (self : Server) (slot : nat) : Io Server :=
  let hb := if cfg_hb_mode (sv_cfg self) =? 0 then [] else sv_hb_buf self in
  c ← lift (conn self slot);
  let '(plain, info) := prepare_safer (sc_info c) TYPE_HEARTBEAT hb in
  let c := set_sc_info info c in
  let self := put_conn self slot c in
  let key := mkJobKey slot (sc_generation c) in
  submit_job self (Encrypt key plain).

(** * The handshake *)

(** The reply goes back where the packet came from. *)
Definition reply_to (r : PacketInfo) (raw : RawInfo) : RawInfo :=
  upd_send (λ s, set_pi_dst_ip (pi_src_ip r) (set_pi_dst_port (pi_src_port r)
                   (set_pi_src_port (pi_dst_port r) (set_pi_src_ip (pi_dst_ip r) s)))) raw.

Definition sync_seq (raw_mode : RawMode) (raw : RawInfo) : RawInfo :=
  let raw := if bool_decide (raw_mode = FakeTcp) then
               let r := recv_info raw in
               upd_send (λ s, set_pi_ts_ack (pi_ts r) (set_pi_ack_seq (pi_seq r +⟨32⟩ wrap 32 (pi_data_len r))
                                (set_pi_seq (pi_ack_seq r) s))) raw
             else raw in
  if bool_decide (raw_mode = RawIcmp) then upd_send (set_pi_icmp_seq (pi_icmp_seq (recv_info raw))) raw else raw.

(** The branch of [pre_ready] that makes the connection ready. *)
Definition become_ready (self : Server) (slot : nat) (const_id now : Z) : Io Server :=
  c ← lift (conn self slot);
  let c := set_sc_state Ready c in
  let c := upd_info (set_oppsite_const_id const_id) c in
  let c := upd_info (set_last_hb_recv_time now) c in
  let c := upd_info (set_last_hb_sent_time now) c in
  let c := upd_info (λ i, set_anti_replay (re_init (anti_replay i)) i) c in
  let self := put_conn self slot c in
  let self := set_sv_ready_num (sv_ready_num self +⟨64⟩ 1) self in
  let self := set_sv_by_const_id (<[const_id := slot]> (sv_by_const_id self)) self in
  send_heartbeat self slot.

(** The branch that moves an established connection to the address of a new one. *)
Definition recover (self : Server) (slot ori_slot : nat) (now : Z) : Io Server :=
  new_c ← lift (conn self slot);
  ori_c ← lift (conn self ori_slot);
  let addr_new := sc_addr new_c in
  let addr_old := sc_addr ori_c in
  let self := set_sv_by_addr (<[addr_old := slot]> (<[addr_new := ori_slot]> (sv_by_addr self))) self in
  let new_c := set_sc_addr addr_old new_c in
  let ori_c := set_sc_addr addr_new ori_c in
  let ori_c := upd_info (λ i, recover_from i (sc_info new_c)) ori_c in
  let ori_c := set_sc_generation (sv_next_generation self) ori_c in
  let self := set_sv_next_generation (sv_next_generation self +⟨64⟩ 1) self in
  let new_c := set_sc_state Idle new_c in
  let new_c := upd_info (set_oppsite_const_id 0) new_c in
  let self := put_conn (put_conn self slot new_c) ori_slot ori_c in
  self ← send_heartbeat self ori_slot;
  c ← lift (conn self ori_slot);
  mret (put_conn self ori_slot (upd_info (set_last_hb_recv_time now) c)).

Definition pre_ready (self : Server) (slot : nat) (tmp_oppsite_const_id : Z) : Io Server :=
  now ← now_ms;
  c ← lift (conn self slot);
  match sv_by_const_id self !! tmp_oppsite_const_id with
  | None =>
      if MAX_READY_CONN_NUM <=? sv_ready_num self
      then mret (put_conn self slot (set_sc_state Idle c))
      else become_ready self slot tmp_oppsite_const_id now
  | Some ori_slot =>
      if bool_decide (ori_slot = slot) then mret self else
      ori ← lift (conn self ori_slot);
      if negb (bool_decide (sc_state ori = Ready)) then
        mret (put_conn self slot (upd_info (set_oppsite_const_id 0) (set_sc_state Idle c)))
      else if last_state_time (sc_info c) <? last_state_time (sc_info ori) then
        mret (put_conn self slot (upd_info (set_oppsite_const_id 0) (set_sc_state Idle c)))
      else recover self slot ori_slot now
  end.

Definition on_handshake1 (self : Server) (slot : nat) (payload : list Z) : Io Server :=
  let raw_mode := cfg_raw_mode (sv_cfg self) in
  c ← lift (conn self slot);
  h ← lift (parse_handshake payload);
  match h with
  | None => mret self
  | Some (tmp_oppsite_id, tmp_my_id, tmp_oppsite_const_id) =>
      if tmp_my_id =? 0 then
        let raw := sync_seq raw_mode (ci_raw (sc_info c)) in
        r ← send_handshake (sv_ctx self) (sv_crypto self) raw (my_id (sc_info c)) tmp_oppsite_id (sv_const_id self);
        let self := set_sv_ctx r.1.2 self in
        mret (put_conn self slot (upd_info (set_ci_raw r.2) c))
      else if tmp_my_id =? my_id (sc_info c) then
        let c := upd_info (set_oppsite_id tmp_oppsite_id) c in
        let c := upd_info (λ i, set_ci_raw (sync_seq raw_mode (ci_raw i)) i) c in
        pre_ready (put_conn self slot c) slot tmp_oppsite_const_id
      else mret self
  end.

(** * The raw side *)

(** A SYN before the connection is ready: answered with a SYN-ACK. *)
Definition on_syn (self : Server) (buf : list Z) (ll : SockaddrLl) : Io Server :=
  tmp ← RawInfo_new (cfg_raw_mode (sv_cfg self)) (rc_is_v6 (sv_ctx self));
  p ← lift (parse_recv (sv_ctx self) tmp buf ll);
  match p with
  | (None, _) => mret self
  | (Some data, tmp) =>
      let data_len := zlen data in
      if MAX_DATA_LEN <? data_len then mret self else
      if cfg_easy_faketcp (sv_cfg self) then mret self else
      let r := recv_info tmp in
      let tmp := fill_lower_level self (reply_to r tmp) in
      if (data_len =? 0) && pi_syn r && negb (pi_ack r) then
        let tmp := upd_send (λ s, set_pi_ts_ack (pi_ts r) (set_pi_ack true (set_pi_syn true (set_pi_psh false
                                    (set_pi_ack_seq (pi_seq r +⟨32⟩ 1) s))))) tmp in
        s ← send_raw (sv_ctx self) tmp [];
        mret (set_sv_ctx s.1 self)
      else mret self
  end.

(** A packet from an address without a connection. *)
Definition on_new_addr (self : Server) (buf : list Z) (ll : SockaddrLl) (addr : SocketAddr) : Io Server :=
  let raw_mode := cfg_raw_mode (sv_cfg self) in
  if MAX_HANDSHAKE_CONN_NUM <=? live_conns self then mret self else
  tmp ← RawInfo_new raw_mode (rc_is_v6 (sv_ctx self));
  let tmp := if bool_decide (raw_mode = RawIcmp)
             then upd_send (λ s, set_pi_src_port addr.2 (set_pi_dst_port addr.2 s)) tmp else tmp in
  p ← lift (parse_recv (sv_ctx self) tmp buf ll);
  match p with
  | (None, _) => mret self
  | (Some data, tmp) =>
      let r := recv_info tmp in
      if bool_decide (raw_mode = FakeTcp) && (pi_syn r || negb (pi_ack r)) then mret self else
      b ← lift (conn_parse_bare (sv_crypto self) data);
      match b with
      | None => mret self
      | Some payload =>
          h ← lift (parse_handshake payload);
          match h with
          | None => mret self
          | Some (_, zero, _) =>
              if negb (zero =? 0) then mret self else
              info ← ConnInfo_new raw_mode (rc_is_v6 (sv_ctx self)) (cfg_disable_anti_replay (sv_cfg self));
              let info := set_ci_raw (fill_lower_level self (reply_to r tmp)) info in
              id ← secure_random_u32_nz;
              let info := set_my_id id info in
              t ← now_ms;
              let info := set_last_state_time t info in
              let generation := sv_next_generation self in
              let self := set_sv_next_generation (generation +⟨64⟩ 1) self in
              a ← lift (alloc_conn self (mkServerConn info Handshake1 ConvManager_new generation addr));
              let '(slot, self) := a in
              let self := set_sv_by_addr (<[addr := slot]> (sv_by_addr self)) self in
              on_handshake1 self slot payload
          end
      end
  end.

(** A packet for a connection in the handshake. *)
Definition on_hs_packet (self : Server) (slot : nat) (buf : list Z) (ll : SockaddrLl) : Io Server :=
  c ← lift (conn self slot);
  p ← lift (parse_recv (sv_ctx self) (ci_raw (sc_info c)) buf ll);
  let self := put_conn self slot (upd_info (set_ci_raw p.2) c) in
  match p.1 with
  | None => mret self
  | Some data =>
      let r := recv_info p.2 in
      if bool_decide (cfg_raw_mode (sv_cfg self) = FakeTcp) && (pi_syn r || negb (pi_ack r)) then mret self else
      b ← lift (conn_parse_bare (sv_crypto self) data);
      match b with
      | None => mret self
      | Some payload => on_handshake1 self slot payload
      end
  end.

(** A packet for a ready connection: decryption is handed to the pipeline. *)
Definition on_data_packet (self : Server) (slot : nat) (buf : list Z) (ll : SockaddrLl) : Io Server :=
  c ← lift (conn self slot);
  p ← lift (parse_recv (sv_ctx self) (ci_raw (sc_info c)) buf ll);
  let self := put_conn self slot (upd_info (set_ci_raw p.2) c) in
  match p.1 with
  | None => mret self
  | Some data =>
      let meta := from_recv (recv_info p.2) in
      submit_job self (Decrypt (mkJobKey slot (sc_generation c)) data meta)
  end.

(** [slot_opt.is_none_or(|s| self.conns[s].as_ref().is_none_or(|c| c.state != Ready))] *)
Definition not_ready (self : Server) (slot_opt : option nat) : outcome bool :=
  match slot_opt with
  | None => Done true
  | Some s =>
      match sv_conns self !! s with
      | None => Panic
      | Some None => Done true
      | Some (Some c) => Done (negb (bool_decide (sc_state c = Ready)))
      end
  end.

Definition on_raw_packet (self : Server) (buf : list Z) (len : Z) (ll : SockaddrLl) : Io Server :=
  if (len =? HUGE_DATA_LEN + 1) && negb (cfg_fix_gro (sv_cfg self)) then mret self else
  let len := if len =? HUGE_DATA_LEN + 1 then HUGE_DATA_LEN else len in
  if (MAX_DATA_LEN <? len) && negb (cfg_fix_gro (sv_cfg self)) then mret self else
  buf ← lift (slice buf 0 len);
  k ← lift (peek (sv_ctx self) buf);
  match k with
  | None => mret self
  | Some k =>
      let addr := (pk_src_ip k, pk_src_port k) in
      let slot_opt := sv_by_addr self !! addr in
      if bool_decide (cfg_raw_mode (sv_cfg self) = FakeTcp) && pk_syn k then
        nr ← lift (not_ready self slot_opt);
        if (nr : bool) then on_syn self buf ll else mret self
      else
        match slot_opt with
        | None => on_new_addr self buf ll addr
        | Some slot =>
            c ← lift (conn self slot);
            match sc_state c with
            | Handshake1 => on_hs_packet self slot buf ll
            | Ready => on_data_packet self slot buf ll
            | Idle => mret self
            end
        end
  end.

(** * Pipeline completions *)
Definition valid_ready (self : Server) (key : JobKey) : bool :=
  match sv_conns self !! jk_slot key with
  | Some (Some c) => (sc_generation c =? jk_generation key) && bool_decide (sc_state c = Ready)
  | _ => false
  end.

(** A slot for a new socket, as for connections. *)
Definition alloc_sock (self : Server) (cs : ConvSock) : outcome (nat * Server) :=
  match sv_free_socks self with
  | i :: free =>
      let self := set_sv_free_socks free self in
      if (i <? length (sv_socks self))%nat
      then Done (i, set_sv_socks (<[i := Some cs]> (sv_socks self)) self) else Panic
  | [] =>
      let self := set_sv_socks (sv_socks self ++ [Some cs]) self in
      Done ((length (sv_socks self) - 1)%nat, self)
  end.

(** A new conversation: its socket, its slot, its registration. *)
Definition open_conv (self : Server) (slot : nat) (conv now : Z) : Io (bool * Server) :=
  c ← lift (conn self slot);
  if MAX_CONV_NUM <=? conv_len (sc_convs c) then mret (false, self) else
  sock ← next_sock;
  match sock with
  | None => mret (false, self)
  | Some fd =>
      a ← lift (alloc_sock self (mkConvSock fd slot conv));
      let '(sidx, self) := a in
      registered ← next_reg;
      if negb registered then self ← close_sock self sidx; mret (false, self) else
      emit (EvOpen fd);;
      c ← lift (conn self slot);
      mret (true, put_conn self slot (set_sc_convs (conv_insert (sc_convs c) conv sidx now) c))
  end.

Definition on_ready_packet (self : Server) (slot : nat) (ptype : Z) (payload : list Z) : Io Server :=
  now ← now_ms;
  c ← lift (conn self slot);
  if ptype =? TYPE_HEARTBEAT then mret (put_conn self slot (upd_info (set_last_hb_recv_time now) c)) else
  if negb (ptype =? TYPE_DATA) then mret self else
  d ← lift (parse_data_payload payload);
  match d with
  | None => mret self
  | Some (conv, data) =>
      let self := if cfg_hb_mode (sv_cfg self) =? 0
                  then put_conn self slot (upd_info (set_last_hb_recv_time now) c) else self in
      o ← (if negb (is_conv_used (sc_convs c) conv) then open_conv self slot conv now else mret (true, self));
      let '(ok, self) := o in
      if negb ok then mret self else
      c ← lift (conn self slot);
      match find_data_by_conv (sc_convs c) conv with
      | None => panic
      | Some sidx =>
          let self := put_conn self slot (set_sc_convs (update_active_time (sc_convs c) conv now) c) in
          match sv_socks self !! sidx with
          | None => panic
          | Some None => mret self
          | Some (Some cs) => emit (EvUdp (cs_sock cs) data);; mret self
          end
      end
  end.

(** The loop over the decrypted packets; whether any was accepted. *)
Fixpoint accept_plains (self : Server) (slot : nat) (plains : list (list Z)) (any : bool) : Io (bool * Server) :=
  match plains with
  | [] => mret (any, self)
  | p :: plains =>
      c ← lift (conn self slot);
      r ← accept_safer_offset (sc_info c) p (cfg_hb_mode (sv_cfg self));
      let self := put_conn self slot (set_sc_info r.2 c) in
      match r.1 with
      | Some (ptype, off) =>
          d ← lift (slice_from p off);
          self ← on_ready_packet self slot ptype d;
          accept_plains self slot plains true
      | None => accept_plains self slot plains any
      end
  end.

Definition on_done (self : Server) (d : Completion) : Io Server :=
  match d with
  | Encrypted key None => mret self
  | Encrypted key (Some w) =>
      if valid_ready self key then
        c ← lift (conn self (jk_slot key));
        r ← transmit_safer (sv_ctx self) (ci_raw (sc_info c)) w;
        mret (put_conn (set_sv_ctx r.1 self) (jk_slot key) (upd_info (set_ci_raw r.2) c))
      else mret self
  | Decrypted key plains meta =>
      if negb (valid_ready self key) then mret self else
      match plains with
      | [] => mret self
      | _ =>
          r ← accept_plains self (jk_slot key) plains false;
          let '(any, self) := r in
          if (any : bool) then
            c ← lift (conn self (jk_slot key));
            mret (put_conn self (jk_slot key)
                    (upd_info (λ i, set_ci_raw (after_recv (sv_ctx self) (ci_raw i) meta) i) c))
          else mret self
      end
  end.
Fixpoint on_dones (self : Server) (ds : list Completion) : Io Server :=
  match ds with
  | [] => mret self
  | d :: ds => self ← on_done self d; on_dones self ds
  end.
Definition server_collect (self : Server) : Io Server :=
  r ← collect_among (sv_pipeline self);
  on_dones (set_sv_pipeline r.2 self) r.1.

(** * The UDP side *)
Definition on_sock_packet (self : Server) (slot : nat) (conv : Z) (data : list Z) : Io Server :=
  if zlen data =? MAX_DATA_LEN + 1 then mret self else
  match sv_conns self !! slot with
  | None => panic
  | Some None => mret self
  | Some (Some c) =>
      if negb (bool_decide (sc_state c = Ready)) then mret self else
      let '(plain, info) := prepare_safer_data (sc_info c) conv data in
      let self := put_conn self slot (set_sc_info info c) in
      submit_job self (Encrypt (mkJobKey slot (sc_generation c)) plain)
  end.

(** * Timers *)
Fixpoint clear_conns_loop (fuel : nat) (self : Server) (now num_to_clean cnt visited : Z) : Io Server :=
  match fuel with
  | O => mret self
  | S fuel =>
      if (cnt <? num_to_clean) && (visited <? zlen (sv_conns self)) then
        let self := if (length (sv_conns self) <=? sv_clear_cursor self)%nat
                    then set_sv_clear_cursor 0 self else self in
        let slot := sv_clear_cursor self in
        let self := set_sv_clear_cursor (sv_clear_cursor self + 1)%nat self in
        let visited := visited + 1 in
        match sv_conns self !! slot with
        | None => panic
        | Some None => clear_conns_loop fuel self now num_to_clean cnt visited
        | Some (Some c) =>
            let cnt := cnt + 1 in
            let keep := if bool_decide (sc_state c = Ready)
                        then (now -⟨64⟩ last_hb_recv_time (sc_info c) <=? SERVER_CONN_TIMEOUT_MS)
                             || negb (conv_is_empty (sc_convs c))
                        else now -⟨64⟩ last_state_time (sc_info c) <=? SERVER_HANDSHAKE_TIMEOUT_MS in
            self ← (if negb keep then erase_conn self slot else mret self);
            clear_conns_loop fuel self now num_to_clean cnt visited
        end
      else mret self
  end.

(** Every pass visits one slot, so [conns.len()] passes are enough. *)
Definition clear_inactive_conns (self : Server) (now : Z) : Io Server :=
  if saturating_sub now (sv_last_conn_clear self) <=? CONN_CLEAR_INTERVAL_MS then mret self else
  let self := set_sv_last_conn_clear now self in
  let size := live_conns self in
  if size =? 0 then mret self else
  let num_to_clean := Z.min (size / CONN_CLEAR_RATIO + CONN_CLEAR_MIN) size in
  clear_conns_loop (length (sv_conns self)) self now num_to_clean 0 0.

(** The body of the loop over the slots. *)
Definition timer_slot (self : Server) (now : Z) (slot : nat) : Io Server :=
  match sv_conns self !! slot with
  | None => panic
  | Some None => mret self
  | Some (Some c) =>
      if negb (bool_decide (sc_state c = Ready)) then mret self else
      let '(expired, convs) := clear_inactive (sc_convs c) now in
      let self := put_conn self slot (set_sc_convs convs c) in
      self ← close_socks self expired.*2;
      c ← lift (conn self slot);
      if now -⟨64⟩ last_hb_sent_time (sc_info c) <? HEARTBEAT_INTERVAL_MS then mret self else
      self ← send_heartbeat self slot;
      c ← lift (conn self slot);
      mret (put_conn self slot (upd_info (set_last_hb_sent_time now) c))
  end.
Fixpoint timer_slots (self : Server) (now : Z) (slots : list nat) : Io Server :=
  match slots with
  | [] => mret self
  | slot :: slots => self ← timer_slot self now slot; timer_slots self now slots
  end.
Definition on_timer (self : Server) : Io Server :=
  now ← now_ms;
  self ← clear_inactive_conns self now;
  timer_slots self now (seq 0 (length (sv_conns self))).

(** * The event loop *)

(** What the kernel gives one round: the poller's tokens, and what successive
    [recvmmsg] calls return on the raw socket and on each UDP socket (a call that
    fails, like one past the end of the list, returns nothing). *)
Record Inputs := mkInputs {
  in_tokens : list nat; in_raw : list (list RawRx); in_udp : nat → list (list (list Z)) }.

Fixpoint raw_batch (self : Server) (pkts : list RawRx) : Io Server :=
  match pkts with
  | [] => mret self
  | p :: pkts => self ← on_raw_packet self (rx_buf p) (rx_len p) (rx_addr p); raw_batch self pkts
  end.
Fixpoint on_raw_readable (self : Server) (batches : list (list RawRx)) (rounds : Z) : Io (bool * Server) :=
  match batches with
  | [] => mret (false, self)
  | b :: batches =>
      self ← raw_batch self b;
      let rounds := rounds + 1 in
      if zlen b <? RX_BATCH then mret (false, self) else
      if DRAIN_BUDGET <=? rounds * RX_BATCH then mret (true, self) else
      on_raw_readable self batches rounds
  end.

Fixpoint udp_batch (self : Server) (slot : nat) (conv : Z) (pkts : list (list Z)) : Io Server :=
  match pkts with
  | [] => mret self
  | p :: pkts => self ← on_sock_packet self slot conv p; udp_batch self slot conv pkts
  end.
Fixpoint on_sock_readable (self : Server) (sidx : nat) (batches : list (list (list Z))) (rounds : Z)
    : Io (bool * Server) :=
  match sv_socks self !! sidx with
  | None => panic
  | Some None => mret (false, self)
  | Some (Some cs) =>
      match batches with
      | [] => mret (false, self)
      | b :: batches =>
          self ← udp_batch self (cs_conn_slot cs) (cs_conv cs) b;
          let rounds := rounds + 1 in
          if zlen b <? RX_BATCH then mret (false, self) else
          if DRAIN_BUDGET <=? rounds * RX_BATCH then mret (true, self) else
          on_sock_readable self sidx batches rounds
      end
  end.
Fixpoint sock_loop (self : Server) (udp : nat → list (list (list Z))) (pending : list nat) : Io Server :=
  match pending with
  | [] => mret self
  | sidx :: pending =>
      r ← on_sock_readable self sidx (udp sidx) 0;
      let self := if r.1 : bool then set_sv_socks_pending (sv_socks_pending r.2 ++ [sidx]) r.2 else r.2 in
      sock_loop self udp pending
  end.

Definition on_token (self : Server) (t : nat) : Server :=
  if (t =? TOK_RAW)%nat then set_sv_raw_pending true self
  else if (TOK_SOCK_BASE <=? t)%nat then
    let sidx := (t - TOK_SOCK_BASE)%nat in
    if bool_decide (sidx ∈ sv_socks_pending self) then self
    else set_sv_socks_pending (sv_socks_pending self ++ [sidx]) self
  else self.

(** The loop's body, after the poll; [last_timer] is the loop's variable. *)
Definition server_round (self : Server) (last_timer : Z) (inp : Inputs) : Io (Z * Server) :=
  let self := foldl on_token self (in_tokens inp) in
  self ← (if sv_raw_pending self
          then r ← on_raw_readable self (in_raw inp) 0; mret (set_sv_raw_pending r.1 r.2) else mret self);
  let pending := sv_socks_pending self in
  self ← sock_loop (set_sv_socks_pending [] self) (in_udp inp) pending;
  self ← server_collect self;
  now ← now_ms;
  r ← (if TIMER_INTERVAL_MS <=? saturating_sub now last_timer
       then self ← on_timer self; self ← server_collect self; mret (now, self) else mret (last_timer, self));
  ctx ← flush_tx (sv_ctx r.2);
  mret (r.1, set_sv_ctx ctx r.2).
End server.
