(* ===== verification/ServerTables.v ===== *)
(** The server's tables, abstractly: a connection is its state, its address, the peer's
    constant id and its conversations ([src/src/server.rs]).  The invariant of the slot
    vectors, free lists and hash maps, and the effect on it of every change the handlers
    make. *)
From S2P Require Import Prelude Util Fips197 Prims Kdf Auth Cipher Crypto Wire AntiReplay.
From S2P Require Import Ip Tcp Conv Types World Config FakeTcp Conn Pipeline Session Server.

(** * Abstract connections *)
Record AConn := mkAConn {
  a_state : State; a_addr : SocketAddr; a_const : Z; a_convs : gmap Z nat }.
Definition abs (c : ServerConn) : AConn :=
  mkAConn (sc_state c) (sc_addr c) (oppsite_const_id (sc_info c)) (conv_to_data (sc_convs c)).
Definition view (s : Server) : list (option AConn) := (λ o : option ServerConn, abs <$> o) <$> sv_conns s.

(** ** The address and identity tables *)
Section tables.
Implicit Types (K : list (option AConn)) (free : list nat) (by_addr : gmap SocketAddr nat)
  (by_const : gmap Z nat).

Record tables K free by_addr by_const (ready : Z) : Prop := {
  t_nodup : NoDup free;
  t_free i : i ∈ free ↔ K !! i = Some None;
  t_addr a i : by_addr !! a = Some i ↔ ∃ k, K !! i = Some (Some k) ∧ a_addr k = a;
  t_const x i : by_const !! x = Some i ↔ ∃ k, K !! i = Some (Some k) ∧ a_state k = Ready ∧ a_const k = x;
  t_ready : ready = Z.of_nat (size by_const);
  t_max_ready : ready ≤ MAX_READY_CONN_NUM;
  t_max_live : zlen K ≤ MAX_HANDSHAKE_CONN_NUM;
  t_idle i k : K !! i = Some (Some k) → a_state k ≠ Ready → a_convs k = ∅ }.

Lemma tables_empty : tables [] [] ∅ ∅ 0.
Proof.
  constructor; try done.
  - constructor.
  - intros i. split; [by intros ?%elem_of_nil|done].
  - intros a i. rewrite lookup_empty. split; [done|by intros (k & ? & _)].
  - intros a i. rewrite lookup_empty. split; [done|by intros (k & ? & _)].
Qed.

Lemma tables_live K free by_addr by_const ready : tables K free by_addr by_const ready →
  (length free ≤ length K)%nat.
Proof.
  intros Ht. transitivity (length (seq 0 (length K))); [|by rewrite length_seq].
  apply submseteq_length, NoDup_submseteq; [apply Ht|].
  intros i Hi%(t_free _ _ _ _ _ Ht). apply elem_of_seq. apply lookup_lt_Some in Hi. lia.
Qed.

(** Lookups after one slot changed. *)
Lemma lookup_upd K i k j x : (i < length K)%nat →
  <[i := k]> K !! j = Some x ↔ (j = i ∧ x = k) ∨ (j ≠ i ∧ K !! j = Some x).
Proof.
  intros Hi. destruct (decide (j = i)) as [->|Hne].
  - rewrite list_lookup_insert_eq by done. naive_solver.
  - rewrite list_lookup_insert_ne by done. naive_solver.
Qed.

(** A fresh connection in a slot, reused or new. *)
Definition fresh_in K (i : nat) (k : AConn) K' : Prop :=
  (∀ j x, K' !! j = Some x ↔ (j = i ∧ x = Some k) ∨ (j ≠ i ∧ K !! j = Some x)).

Lemma tables_fresh K K' free free' by_addr by_const ready i k :
  tables K free by_addr by_const ready → fresh_in K i k K' → (∀ k', K !! i ≠ Some (Some k')) →
  NoDup free' → (∀ j, j ∈ free' ↔ j ∈ free ∧ j ≠ i) → zlen K' ≤ MAX_HANDSHAKE_CONN_NUM →
  a_state k ≠ Ready → a_convs k = ∅ → by_addr !! a_addr k = None →
  tables K' free' (<[a_addr k := i]> by_addr) by_const ready.
Proof.
  intros [Hnd Hf Ha Hc Hr Hm Hl Hi] HK' Hold Hnd' Hf' Hl' Hs Hcv Hfr. unfold fresh_in in HK'. constructor; try done.
  - intros j. rewrite Hf', Hf, HK'. naive_solver.
  - intros a j. rewrite lookup_insert_Some. setoid_rewrite HK'. split.
    + intros [[<- <-]|[Hne (k' & Hk' & <-)%Ha]]; [by exists k; eauto|].
      exists k'. split; [|done]. right. split; [|done]. intros ->. by apply Hold in Hk'.
    + intros (k' & [[-> [= ->]]|[Hne Hk']] & <-); [by left|]. right.
      assert (by_addr !! a_addr k' = Some j) as E by (apply Ha; eauto). split; [|done]. intros E'. rewrite E' in Hfr. congruence.
  - intros x j. rewrite Hc. setoid_rewrite HK'. split.
    + intros (k' & Hk' & ? & ?). exists k'. split; [|done]. right. split; [|done]. intros ->. by apply Hold in Hk'.
    + intros (k' & [[-> [= ->]]|[_ Hk']] & ? & ?); [done|eauto].
  - intros j k' [[-> [= ->]]|[_ Hk']]%HK' Hs'; [done|by eapply Hi].
Qed.

Lemma tables_erase K free by_addr by_const ready i k :
  tables K free by_addr by_const ready → K !! i = Some (Some k) →
  tables (<[i := None]> K) (i :: free) (delete (a_addr k) by_addr)
    (if decide (a_state k = Ready) then delete (a_const k) by_const else by_const)
    (if decide (a_state k = Ready) then ready - 1 else ready).
Proof.
  intros Ht Hk. pose proof (lookup_lt_Some _ _ _ Hk) as Hlt. destruct Ht as [Hnd Hf Ha Hc Hr Hm Hl Hi].
  assert (∀ j k', K !! j = Some (Some k') → a_addr k' = a_addr k → j = i) as Hinj.
  { intros j k' Hk' E. assert (by_addr !! a_addr k = Some j) by (apply Ha; eauto).
    assert (by_addr !! a_addr k = Some i) by (apply Ha; eauto). congruence. }
  assert (∀ j k', K !! j = Some (Some k') → a_state k' = Ready → a_state k = Ready → a_const k' = a_const k → j = i) as Hinj'.
  { intros j k' Hk' Es Es' E. assert (by_const !! a_const k = Some j) by (apply Hc; eauto).
    assert (by_const !! a_const k = Some i) by (apply Hc; eauto). congruence. }
  constructor; try done.
  - constructor; [|done]. rewrite Hf. congruence.
  - intros j. rewrite elem_of_cons, Hf, lookup_upd by done. naive_solver.
  - intros a j. rewrite lookup_delete_Some. setoid_rewrite lookup_upd; [|done..]. rewrite Ha. split.
    + intros [Hne (k' & Hk' & <-)]. exists k'. split; [|done]. right. split; [|done]. intros ->. congruence.
    + intros (k' & [[_ ?]|[Hne Hk']] & <-); [done|]. split; [|eauto]. intros E. by apply Hne, (Hinj j k').
  - intros x j. setoid_rewrite lookup_upd; [|done..]. destruct (decide (a_state k = Ready)) as [Es|Es].
    + rewrite lookup_delete_Some, Hc. split.
      * intros [Hne (k' & Hk' & Es' & <-)]. exists k'. split; [|done]. right. split; [|done]. intros ->. congruence.
      * intros (k' & [[_ ?]|[Hne Hk']] & Es' & <-); [done|]. split; [|eauto]. intros E. by apply Hne, (Hinj' j k').
    + rewrite Hc. split.
      * intros (k' & Hk' & Es' & <-). exists k'. split; [|done]. right. split; [|done]. intros ->. congruence.
      * intros (k' & [[_ ?]|[Hne Hk']] & Es' & <-); [done|eauto].
  - destruct (decide (a_state k = Ready)) as [Es|Es]; [|done].
    assert (by_const !! a_const k = Some i) as E by (apply Hc; eauto).
    rewrite map_size_delete_Some by done. assert (size by_const ≠ 0)%nat; [|lia].
    intros E0. apply map_size_empty_inv in E0. subst. by rewrite lookup_empty in E.
  - destruct (decide (a_state k = Ready)); lia.
  - by rewrite length_insert.
  - intros j k' [[_ ?]|[_ Hk']]%lookup_upd; [done| |done]. by eapply Hi.
Qed.

(** A connection changes, keeping its address; it is not ready before. *)
Lemma tables_change K free by_addr by_const by_const' ready ready' i k k' :
  tables K free by_addr by_const ready → K !! i = Some (Some k) → a_state k ≠ Ready → a_addr k' = a_addr k →
  a_convs k' = a_convs k →
  (∀ x j, by_const' !! x = Some j ↔ (j = i ∧ a_state k' = Ready ∧ a_const k' = x) ∨ by_const !! x = Some j) →
  ready' = Z.of_nat (size by_const') → ready' ≤ MAX_READY_CONN_NUM →
  tables (<[i := Some k']> K) free by_addr by_const' ready'.
Proof.
  intros Ht Hk Hs Ead Ecv Hc' Hr' Hm'. pose proof (lookup_lt_Some _ _ _ Hk) as Hlt.
  destruct Ht as [Hnd Hf Ha Hc Hr Hm Hl Hi]. constructor; try done.
  - intros j. rewrite Hf, lookup_upd by done. naive_solver.
  - intros a j. rewrite Ha. setoid_rewrite lookup_upd; [|done..]. split.
    + intros (k0 & Hk0 & <-). destruct (decide (j = i)) as [->|]; [exists k'|exists k0]; naive_solver.
    + intros (k0 & [[-> [= ->]]|[? ?]] & <-); [exists k|exists k0]; naive_solver.
  - intros x j. rewrite Hc', Hc. setoid_rewrite lookup_upd; [|done..]. split.
    + intros [(-> & ? & <-)|(k0 & Hk0 & Es & <-)]; [by exists k'; eauto|].
      exists k0. split; [|done]. right. split; [|done]. intros ->. congruence.
    + intros (k0 & [[-> [= ->]]|[? ?]] & ? & <-); [by left|right; eauto].
  - by rewrite length_insert.
  - intros j k0 [[-> [= ->]]|[_ Hk0]]%lookup_upd Hs0; [|by eapply Hi|done]. rewrite Ecv. by eapply Hi.
Qed.

Lemma tables_ready K free by_addr by_const ready i k k' :
  tables K free by_addr by_const ready → K !! i = Some (Some k) → a_state k ≠ Ready → a_addr k' = a_addr k →
  a_convs k' = a_convs k → a_state k' = Ready → by_const !! a_const k' = None → ready < MAX_READY_CONN_NUM →
  tables (<[i := Some k']> K) free by_addr (<[a_const k' := i]> by_const) (ready + 1).
Proof.
  intros Ht Hk Hs Ead Ecv Hs' Hn Hm. eapply tables_change; try done.
  - intros x j. rewrite lookup_insert_Some. split.
    + intros [[<- <-]|[? ?]]; auto.
    + intros [(-> & _ & <-)|E]; [by left|]. right. split; [|done]. intros <-. congruence.
  - rewrite map_size_insert_None by done. rewrite (t_ready _ _ _ _ _ Ht). lia.
  - lia.
Qed.
Lemma tables_idle K free by_addr by_const ready i k k' :
  tables K free by_addr by_const ready → K !! i = Some (Some k) → a_state k ≠ Ready → a_addr k' = a_addr k →
  a_convs k' = a_convs k → a_state k' ≠ Ready → tables (<[i := Some k']> K) free by_addr by_const ready.
Proof.
  intros Ht Hk Hs Ead Ecv Hs'. eapply tables_change; try done; [|apply Ht|apply Ht].
  intros x j. split; [auto|]. intros [(_ & ? & _)|?]; done.
Qed.

(** Two connections exchange their addresses; one of them is ready and stays so. *)
Lemma tables_swap K free by_addr by_const ready i j ki kj ki' kj' :
  tables K free by_addr by_const ready → K !! i = Some (Some ki) → K !! j = Some (Some kj) → i ≠ j →
  a_state ki ≠ Ready → a_state kj = Ready → a_state ki' ≠ Ready → a_state kj' = Ready →
  a_const kj' = a_const kj → a_convs ki' = a_convs ki → a_addr ki' = a_addr kj → a_addr kj' = a_addr ki →
  tables (<[j := Some kj']> (<[i := Some ki']> K)) free
    (<[a_addr kj := i]> (<[a_addr ki := j]> by_addr)) by_const ready.
Proof.
  intros Ht Hki Hkj Hij Hsi Hsj Hsi' Hsj' Ecj Ecv Eai Eaj.
  pose proof (lookup_lt_Some _ _ _ Hki) as Hli. pose proof (lookup_lt_Some _ _ _ Hkj) as Hlj.
  assert (∀ l x, <[j := Some kj']> (<[i := Some ki']> K) !! l = Some x ↔
    (l = j ∧ x = Some kj') ∨ (l = i ∧ x = Some ki') ∨ (l ≠ i ∧ l ≠ j ∧ K !! l = Some x)) as HK.
  { intros l x. rewrite lookup_upd by by rewrite length_insert. rewrite lookup_upd by done. naive_solver. }
  destruct Ht as [Hnd Hf Ha Hc Hr Hm Hl Hi].
  assert (∀ a l k, K !! l = Some (Some k) → a_addr k = a → by_addr !! a = Some l) as Ha' by (intros; apply Ha; eauto).
  constructor; try done.
  - intros l. rewrite Hf, HK. naive_solver.
  - intros a l. rewrite !lookup_insert_Some, Ha. setoid_rewrite HK. split.
    + intros [[<- <-]|[Hne [[<- <-]|[Hne' (k & Hk & <-)]]]].
      * exists ki'. auto.
      * exists kj'. auto.
      * exists k. split; [|done]. right; right. split_and!; [| |done]; intros ->; congruence.
    + intros (k & [[-> [= ->]]|[[-> [= ->]]|(Hni & Hnj & Hk)]] & <-).
      * right. rewrite Eaj. split; [|by left]. intros E.
        pose proof (Ha' _ _ _ Hki eq_refl). pose proof (Ha' _ _ _ Hkj eq_refl). congruence.
      * left. by rewrite Eai.
      * pose proof (Ha' _ _ _ Hk eq_refl) as E1. right. split; [|right; split; [|eauto]];
          intros E; [pose proof (Ha' _ _ _ Hkj eq_refl)|pose proof (Ha' _ _ _ Hki eq_refl)]; congruence.
  - intros x l. rewrite Hc. setoid_rewrite HK. split.
    + intros (k & Hk & Es & <-). destruct (decide (l = j)) as [->|]; [exists kj'; split; [auto|]; split; [done|congruence]|].
      exists k. split; [|done]. right; right. split_and!; [|done..]. intros ->. congruence.
    + intros (k & [[-> [= ->]]|[[-> [= ->]]|(_ & _ & Hk)]] & Es & <-); [exists kj; split_and!; congruence|done|eauto].
  - by rewrite !length_insert.
  - intros l k [[-> [= ->]]|[[-> [= ->]]|(_ & _ & Hk)]]%HK Hs; [done| |by eapply Hi]. rewrite Ecv. by eapply Hi.
Qed.

(** A ready connection gets other conversations. *)
Lemma tables_convs K free by_addr by_const ready i k k' :
  tables K free by_addr by_const ready → K !! i = Some (Some k) → a_state k = Ready →
  a_state k' = Ready → a_addr k' = a_addr k → a_const k' = a_const k →
  tables (<[i := Some k']> K) free by_addr by_const ready.
Proof.
  intros Ht Hk Hs Es Ead Eco. pose proof (lookup_lt_Some _ _ _ Hk) as Hlt.
  destruct Ht as [Hnd Hf Ha Hc Hr Hm Hl Hi]. constructor; try done.
  - intros j. rewrite Hf, lookup_upd by done. naive_solver.
  - intros a j. rewrite Ha. setoid_rewrite lookup_upd; [|done..]. split.
    + intros (k0 & Hk0 & <-). destruct (decide (j = i)) as [->|]; [exists k'|exists k0]; naive_solver.
    + intros (k0 & [[-> [= ->]]|[? ?]] & <-); [exists k|exists k0]; naive_solver.
  - intros x j. rewrite Hc. setoid_rewrite lookup_upd; [|done..]. split.
    + intros (k0 & Hk0 & ? & <-). destruct (decide (j = i)) as [->|]; [exists k'|exists k0]; naive_solver.
    + intros (k0 & [[-> [= ->]]|[? ?]] & ? & <-); [exists k|exists k0]; naive_solver.
  - by rewrite length_insert.
  - intros j k0 [[-> [= ->]]|[_ Hk0]]%lookup_upd Hs0; [done|by eapply Hi|done].
Qed.
End tables.

(** ** The sockets of the conversations *)
Section sockets.
Implicit Types (f : nat → gmap Z nat) (socks : list (option ConvSock)) (free : list nat).

(** [f]: the conversations of each slot. *)
Record sockets f socks free : Prop := {
  s_nodup : NoDup free;
  s_free i : i ∈ free ↔ socks !! i = Some None;
  s_fwd slot conv i : f slot !! conv = Some i → ∃ fd, socks !! i = Some (Some (mkConvSock fd slot conv));
  s_bwd i cs : socks !! i = Some (Some cs) → f (cs_conn_slot cs) !! cs_conv cs = Some i }.

Lemma sockets_ext f f' socks free : (∀ slot, f' slot = f slot) → sockets f socks free → sockets f' socks free.
Proof. intros E [? ? Hf Hb]. constructor; try done; intros *; rewrite E; [apply Hf|apply Hb]. Qed.

Lemma sockets_inj f socks free slot slot' conv conv' i :
  sockets f socks free → f slot !! conv = Some i → f slot' !! conv' = Some i → slot = slot' ∧ conv = conv'.
Proof. intros Hs [fd E]%(s_fwd _ _ _ Hs) [fd' E']%(s_fwd _ _ _ Hs). by simplify_eq. Qed.

(** One slot's conversations. *)
Definition at_slot f (slot : nat) (m : gmap Z nat) : nat → gmap Z nat :=
  λ j, if decide (j = slot) then m else f j.
Lemma at_slot_eq f slot m : at_slot f slot m slot = m.
Proof. unfold at_slot. by rewrite decide_True. Qed.
Lemma at_slot_ne f slot m j : j ≠ slot → at_slot f slot m j = f j.
Proof. intros. unfold at_slot. by rewrite decide_False. Qed.

Lemma sockets_close f socks free slot conv i :
  sockets f socks free → f slot !! conv = Some i →
  sockets (at_slot f slot (delete conv (f slot))) (<[i := None]> socks) (i :: free).
Proof.
  intros Hs Hi. destruct (s_fwd _ _ _ Hs _ _ _ Hi) as [fd Efd]. pose proof (lookup_lt_Some _ _ _ Efd) as Hlt.
  assert (∀ j x, <[i := None]> socks !! j = Some x ↔ (j = i ∧ x = None) ∨ (j ≠ i ∧ socks !! j = Some x)) as HL.
  { intros j x. destruct (decide (j = i)) as [->|]; [rewrite list_lookup_insert_eq by done|rewrite list_lookup_insert_ne by done];
      naive_solver. }
  assert (∀ s c j, at_slot f slot (delete conv (f slot)) s !! c = Some j ↔ f s !! c = Some j ∧ j ≠ i) as Hf'.
  { intros s c j. unfold at_slot. destruct (decide (s = slot)) as [->|Hne].
    - rewrite lookup_delete_Some. split.
      + intros [Hc Hj]. split; [done|]. intros ->. destruct (sockets_inj _ _ _ _ _ _ _ _ Hs Hi Hj). done.
      + intros [Hj Hni]. split; [|done]. intros ->. congruence.
    - split; [|by intros []]. intros Hj. split; [done|]. intros ->.
      destruct (sockets_inj _ _ _ _ _ _ _ _ Hs Hi Hj). done. }
  destruct Hs as [Hnd Hfr Hf Hb]. constructor.
  - constructor; [|done]. rewrite Hfr. congruence.
  - intros j. rewrite elem_of_cons, Hfr, HL. naive_solver.
  - intros s c j [Hj Hne]%Hf'. destruct (Hf _ _ _ Hj) as [fd' E]. exists fd'. apply HL. by right.
  - intros j cs [[_ ?]|[Hne Hj]]%HL; [done|]. apply Hf'. split; [by apply Hb|done].
Qed.

Lemma sockets_open f socks free socks' free' slot conv i fd :
  sockets f socks free → f slot !! conv = None → (∀ cs, socks !! i ≠ Some (Some cs)) →
  (∀ j x, socks' !! j = Some x ↔ (j = i ∧ x = Some (mkConvSock fd slot conv)) ∨ (j ≠ i ∧ socks !! j = Some x)) →
  NoDup free' → (∀ j, j ∈ free' ↔ j ∈ free ∧ j ≠ i) →
  sockets (at_slot f slot (<[conv := i]> (f slot))) socks' free'.
Proof.
  intros Hs Hn Hold HL Hnd' Hfr'. pose proof Hs as [Hnd Hfr Hf Hb].
  assert (∀ s c j, at_slot f slot (<[conv := i]> (f slot)) s !! c = Some j ↔
    (s = slot ∧ c = conv ∧ j = i) ∨ f s !! c = Some j) as Hf'.
  { intros s c j. unfold at_slot. destruct (decide (s = slot)) as [->|Hne].
    - rewrite lookup_insert_Some. split; [naive_solver|]. intros [(_ & -> & ->)|E]; [by left|].
      right. split; [|done]. intros <-. congruence.
    - naive_solver. }
  constructor; try done.
  - intros j. rewrite Hfr', Hfr, HL. naive_solver.
  - intros s c j [(-> & -> & ->)|Hj]%Hf'; [exists fd; apply HL; by left|].
    destruct (Hf _ _ _ Hj) as [fd' E]. exists fd'. apply HL. right. split; [|done]. intros ->. by apply Hold in E.
  - intros j cs [[-> [= ->]]|[Hne Hj]]%HL; apply Hf'; [by left|right; by apply Hb].
Qed.

(** Closing the sockets of several conversations of a slot. *)
Definition drop_convs (gone : list (Z * nat)) (m : gmap Z nat) : gmap Z nat :=
  foldl (λ m p, delete p.1 m) m gone.
Lemma lookup_drop_convs gone m c i :
  drop_convs gone m !! c = Some i ↔ (c ∉ gone.*1) ∧ m !! c = Some i.
Proof.
  revert m. induction gone as [|p gone IH]; intros m; cbn [drop_convs foldl].
  { split; [|by intros []]. intros. split; [apply not_elem_of_nil|done]. }
  fold (drop_convs gone (delete p.1 m)). rewrite IH, lookup_delete_Some, fmap_cons, not_elem_of_cons. naive_solver.
Qed.
Lemma drop_convs_all m : drop_convs (map_to_list m) m = ∅.
Proof.
  apply map_eq. intros c. rewrite lookup_empty. destruct (drop_convs _ _ !! c) as [i|] eqn:E; [|done].
  apply lookup_drop_convs in E as [Hn Hc]. destruct Hn. apply list_elem_of_fmap. exists (c, i).
  split; [done|]. by apply elem_of_map_to_list.
Qed.
End sockets.

Lemma runs_close_socks (s : Server) (f : nat → gmap Z nat) (slot : nat) (gone : list (Z * nat)) w
    (Q : Server → World → Prop) :
  env_ok w → sockets f (sv_socks s) (sv_free_socks s) → NoDup gone.*1 →
  Forall (λ p, f slot !! p.1 = Some p.2) gone →
  (∀ w' socks' free', later w w' → env_ok w' → length socks' = length (sv_socks s) →
     sockets (at_slot f slot (drop_convs gone (f slot))) socks' free' →
     Q (set_sv_free_socks free' (set_sv_socks socks' s)) w') →
  runs (close_socks s gone.*2) w Q.
Proof.
  revert s f w Q. induction gone as [|[c i] gone IH]; intros s f w Q Hw Hs Hnd Hall HQ; cbn [fmap list_fmap close_socks snd].
  { apply runs_ret. specialize (HQ w (sv_socks s) (sv_free_socks s)).
    replace (set_sv_free_socks (sv_free_socks s) (set_sv_socks (sv_socks s) s)) with s in HQ by by destruct s.
    apply HQ; [reflexivity|done|done|]. eapply sockets_ext; [|exact Hs]. intros j. unfold at_slot.
    by destruct (decide (j = slot)) as [->|]. }
  apply Forall_cons in Hall as [Hi Hall]. cbn [fst snd] in Hi. rewrite fmap_cons in Hnd. apply NoDup_cons in Hnd as [Hni Hnd].
  destruct (s_fwd _ _ _ Hs _ _ _ Hi) as [fd Efd]. apply runs_bind. unfold close_sock. rewrite Efd.
  apply runs_bind, runs_emit; [done|]. intros w1 Hl1 Ht1 Hw1. apply runs_ret.
  apply (IH _ (at_slot f slot (delete c (f slot)))); [done| |done| |].
  - cbn. by apply sockets_close.
  - rewrite at_slot_eq. eapply Forall_impl; [apply Forall_and; split; [exact Hall|]|].
    + apply (Forall_forall (λ p : Z * nat, c ≠ p.1)). intros p Hp ->. apply Hni. exact (list_elem_of_fmap_2 fst gone p Hp).
    + intros p [Hp Hne]. by rewrite lookup_delete_ne.
  - intros w2 socks' free' Hl2 Hw2 Hlen Hs2. cbn in Hlen. rewrite length_insert in Hlen.
    specialize (HQ w2 socks' free' ltac:(by transitivity w1) Hw2 Hlen). destruct s. cbn in *. apply HQ.
    eapply sockets_ext; [|exact Hs2]. intros j.
    destruct (decide (j = slot)) as [->|]; [by rewrite !at_slot_eq|by rewrite !at_slot_ne].
Qed.
