(* ===== verification/ServerInv.v ===== *)
(** The server's invariant ([src/src/server.rs]): every handler keeps it, and none of them
    aborts on input that the transport parser survives.

    The tables are those of [ServerTables], over the abstraction of the connections, so a
    handler that changes anything else about a connection preserves them for free. *)
From S2P Require Import Prelude Util Fips197 Prims Kdf Auth Cipher Crypto Wire AntiReplay.
From S2P Require Import Ip Tcp Conv Types World Config FakeTcp Conn Pipeline Session Server ServerTables.

(** * The invariant of the server *)
Definition conn_at (s : Server) (i : nat) (c : ServerConn) : Prop := sv_conns s !! i = Some (Some c).
Definition convs_of (s : Server) (slot : nat) : gmap Z nat :=
  match sv_conns s !! slot with Some (Some c) => conv_to_data (sc_convs c) | _ => ∅ end.

Record conn_ok (w : World) (c : ServerConn) : Prop := {
  co_raw : raw_ok (ci_raw (sc_info c));
  co_roller : is_byte (my_roller (sc_info c));
  co_state_time : past w (last_state_time (sc_info c));
  co_recv_time : past w (last_hb_recv_time (sc_info c));
  co_sent_time : past w (last_hb_sent_time (sc_info c));
  co_convs : conv_inv (sc_convs c);
  co_conv_num : conv_len (sc_convs c) ≤ MAX_CONV_NUM }.

Lemma view_lookup s i : view s !! i = (λ o : option ServerConn, abs <$> o) <$> sv_conns s !! i.
Proof. unfold view. by rewrite list_lookup_fmap. Qed.
Lemma view_at s i c : conn_at s i c → view s !! i = Some (Some (abs c)).
Proof. intros E. rewrite view_lookup, E. done. Qed.
Lemma view_some s i k : view s !! i = Some (Some k) → ∃ c, conn_at s i c ∧ k = abs c.
Proof.
  rewrite view_lookup. unfold conn_at. destruct (sv_conns s !! i) as [[c|]|]; try done. intros [= <-]. by exists c.
Qed.
Lemma view_none s i : view s !! i = Some None ↔ sv_conns s !! i = Some None.
Proof. rewrite view_lookup. by destruct (sv_conns s !! i) as [[c|]|]. Qed.
Lemma view_insert (l : list (option ServerConn)) i (o : option ServerConn) :
  (λ o : option ServerConn, abs <$> o) <$> (<[i := o]> l) = <[i := abs <$> o]> ((λ o : option ServerConn, abs <$> o) <$> l).
Proof. apply list_fmap_insert. Qed.
Lemma view_put s i c : view (put_conn s i c) = <[i := Some (abs c)]> (view s).
Proof. unfold view, put_conn. cbn [sv_conns set_sv_conns]. by rewrite view_insert. Qed.
Lemma length_view s : length (view s) = length (sv_conns s).
Proof. apply length_fmap. Qed.
Lemma conn_done s i c : conn_at s i c → conn s i = Done c.
Proof. unfold conn, conn_at. by intros ->. Qed.
Lemma convs_at s i c : conn_at s i c → convs_of s i = conv_to_data (sc_convs c).
Proof. unfold convs_of, conn_at. by intros ->. Qed.

Lemma conn_at_put s i c c' : conn_at s i c → conn_at (put_conn s i c') i c'.
Proof.
  intros E. unfold conn_at, put_conn. cbn. apply list_lookup_insert_eq. by eapply lookup_lt_Some.
Qed.
Lemma conn_at_put_ne s i j c c' : i ≠ j → conn_at (put_conn s i c') j c ↔ conn_at s j c.
Proof. intros Hne. unfold conn_at, put_conn. cbn. by rewrite list_lookup_insert_ne. Qed.
Lemma conn_at_put_inv s i j c c' : conn_at (put_conn s i c') j c → (j = i ∧ c = c') ∨ (j ≠ i ∧ conn_at s j c).
Proof.
  destruct (decide (j = i)) as [->|Hne].
  - unfold conn_at, put_conn. cbn. intros [(_ & [= ->] & _)|[? ?]]%list_lookup_insert_Some; [by left|done].
  - intros H. apply conn_at_put_ne in H; [|done]. by right.
Qed.
Lemma convs_of_put s i c c' j : conn_at s i c →
  convs_of (put_conn s i c') j = at_slot (convs_of s) i (conv_to_data (sc_convs c')) j.
Proof.
  intros E. unfold at_slot. destruct (decide (j = i)) as [->|Hne].
  - apply convs_at. by eapply conn_at_put.
  - unfold convs_of, put_conn. cbn. by rewrite list_lookup_insert_ne.
Qed.

Lemma conn_ok_later w w' c : env_ok w → later w w' → conn_ok w c → conn_ok w' c.
Proof. intros Hw Hl []. constructor; try done; by eapply past_later. Qed.
Section inv.
Context `{P : Prims} {HP : PrimsOk P}.
Context (cr : Crypto) (cm : CipherMode) (am : AuthMode) (legacy : bool) (keys : Keys).
Context (He : engine cr cm am legacy keys).
Context (n : nat) (gro : bool) (ctx0 : RawCtx).

#[local] Abbreviation pipe_ok := (pipe_ok cr n gro).
#[local] Abbreviation survives := (survives ctx0).
#[local] Abbreviation rx_ok := (rx_ok ctx0).

Record server_inv (w : World) (s : Server) : Prop := {
  i_tables : tables (view s) (sv_free_conns s) (sv_by_addr s) (sv_by_const_id s) (sv_ready_num s);
  i_sockets : sockets (convs_of s) (sv_socks s) (sv_free_socks s);
  i_conns i c : conn_at s i c → conn_ok w c;
  i_crypto : sv_crypto s = cr;
  i_ctx : ctx_ok (sv_ctx s) ∧ ctx_conf (sv_ctx s) = ctx_conf ctx0;
  i_pipe : pipe_ok (sv_pipeline s);
  i_hb : bytes (sv_hb_buf s);
  i_pending : Forall (λ i, i < length (sv_socks s))%nat (sv_socks_pending s) }.

(** A handler that started in [(w, s)] ends well in [(w', s')]. *)
Definition fine (w : World) (s : Server) (s' : Server) (w' : World) : Prop :=
  server_inv w' s' ∧ later w w' ∧ env_ok w' ∧ (length (sv_socks s) ≤ length (sv_socks s'))%nat.

Lemma fine_refl w s : env_ok w → server_inv w s → fine w s s w.
Proof. intros. by split_and!. Qed.
Lemma fine_trans w s w1 s1 s' w' : fine w s s1 w1 → fine w1 s1 s' w' → fine w s s' w'.
Proof. intros (_ & H2 & _ & H4) (H5 & H6 & H7 & H8). split_and!; [done|by transitivity w1|done|lia]. Qed.

Lemma inv_later w w' s : env_ok w → later w w' → server_inv w s → server_inv w' s.
Proof.
  intros Hw Hl [Ht Hs Hc Hcr Hctx Hp Hhb Hpe]. constructor; try done. intros i c Hi.
  eapply conn_ok_later; [exact Hw|exact Hl|by eapply Hc].
Qed.
Lemma fine_later w w' s : env_ok w → env_ok w' → later w w' → server_inv w s → fine w s s w'.
Proof. intros. split_and!; try done. by apply (inv_later w w'). Qed.

Lemma inv_put w s i c c' : server_inv w s → conn_at s i c → abs c' = abs c → conn_ok w c' →
  server_inv w (put_conn s i c').
Proof.
  intros [Ht Hs Hc Hcr Hctx Hp Hhb Hpe] Hat E Hok.
  assert (view (put_conn s i c') = view s) as Ev.
  { rewrite view_put, E. by apply list_insert_id, view_at. }
  constructor; try done.
  - by rewrite Ev.
  - eapply sockets_ext; [|exact Hs]. intros j. rewrite (convs_of_put s i c c' j Hat). unfold at_slot.
    destruct (decide (j = i)) as [->|]; [|done]. rewrite (convs_at _ _ _ Hat). unfold abs in E. congruence.
  - intros j c0 [[_ ->]|[_ H0]]%conn_at_put_inv; [done|by eapply Hc].
Qed.
Lemma inv_set_ctx w s ctx : server_inv w s → ctx_conf ctx = ctx_conf (sv_ctx s) → server_inv w (set_sv_ctx ctx s).
Proof.
  intros [Ht Hs Hc Hcr [Hctx Hcf] Hp Hhb Hpe] E. constructor; try done. cbn. split; [by eapply ctx_conf_ok|congruence].
Qed.
Lemma inv_set_pipe w s p : server_inv w s → pipe_ok p → server_inv w (set_sv_pipeline p s).
Proof. intros [] Hp. by constructor. Qed.

(** ** Jobs and heartbeats *)
Lemma runs_submit_job s j w (Q : Server → World → Prop) :
  env_ok w → server_inv w s → job_ok j →
  (∀ p w', fine w s (set_sv_pipeline p s) w' → Q (set_sv_pipeline p s) w') →
  runs (submit_job s j) w Q.
Proof using He HP.
  intros Hw Hi Hj HQ. destruct (i_pipe _ _ Hi) as (subs & outs & Hr & Hs). unfold submit_job.
  apply runs_bind. eapply (runs_submit_among cr cm am legacy keys He n gro subs outs); [exact Hw|exact Hr|exact Hs|exact Hj|].
  intros ok p' w' Hr' Hl Hw' _. apply runs_ret. cbn [snd]. apply HQ.
  split_and!; [|exact Hl|exact Hw'|cbn; lia]. apply inv_set_pipe; [by apply (inv_later w w')|].
  exists (subs ++ [j]), outs. split; [exact Hr'|]. apply Forall_app_2; [exact Hs|]. by constructor.
Qed.

(** A connection of which only the sequence counter changed. *)
Definition reseq (ar : AntiReplay) (c : ServerConn) : ServerConn := upd_info (set_anti_replay ar) c.

Lemma runs_send_heartbeat s i c w (Q : Server → World → Prop) :
  env_ok w → server_inv w s → conn_at s i c →
  (∀ p ar w', fine w s (set_sv_pipeline p (put_conn s i (reseq ar c))) w' →
     Q (set_sv_pipeline p (put_conn s i (reseq ar c))) w') →
  runs (send_heartbeat s i) w Q.
Proof using He HP.
  intros Hw Hi Hat HQ. unfold send_heartbeat. apply runs_bind. eapply runs_lift; [by apply conn_done|].
  pose proof (i_conns _ _ Hi _ _ Hat) as Hok. set (hb := if _ =? 0 then _ else _).
  assert (bytes hb) as Hhb by (unfold hb; destruct (_ =? 0); [constructor|apply Hi]). clearbody hb.
  destruct (prepare_safer (sc_info c) TYPE_HEARTBEAT hb) as [plain info] eqn:Ep.
  destruct (prepare_safer_ok _ _ _ _ _ (co_roller _ _ Hok) heartbeat_byte Hhb Ep) as (Hb & Hl & ar & ->).
  fold (reseq ar c). change (set_sc_info (set_anti_replay ar (sc_info c)) c) with (reseq ar c).
  assert (server_inv w (put_conn s i (reseq ar c))) as Hi'.
  { eapply inv_put; [exact Hi|exact Hat|reflexivity|]. destruct Hok. by constructor. }
  apply runs_submit_job; [exact Hw|exact Hi'|exact (conj Hb Hl)|]. intros p w' Hf. by apply HQ.
Qed.

(** ** The handshake *)
Lemma ready_range w s : server_inv w s → 0 ≤ sv_ready_num s ≤ MAX_READY_CONN_NUM.
Proof.
  intros Hi. pose proof (t_ready _ _ _ _ _ (i_tables _ _ Hi)). pose proof (t_max_ready _ _ _ _ _ (i_tables _ _ Hi)). lia.
Qed.

(** The connection [become_ready] stores. *)
Definition readied (const_id now : Z) (c : ServerConn) : ServerConn :=
  upd_info (λ i, set_anti_replay (re_init (anti_replay i)) i)
    (upd_info (set_last_hb_sent_time now) (upd_info (set_last_hb_recv_time now)
       (upd_info (set_oppsite_const_id const_id) (set_sc_state Ready c)))).

Lemma inv_readied w s i c k now : server_inv w s → conn_at s i c → sc_state c ≠ Ready → past w now →
  sv_by_const_id s !! k = None → sv_ready_num s < MAX_READY_CONN_NUM →
  server_inv w (set_sv_by_const_id (<[k := i]> (sv_by_const_id s))
    (set_sv_ready_num (sv_ready_num s +⟨64⟩ 1) (put_conn s i (readied k now c)))).
Proof.
  intros Hi Hat Hst Hnow Hk Hm. pose proof (ready_range w s Hi) as Hrr. pose proof Hi as [Ht Hs Hc Hcr Hctx Hp Hhb Hpe].
  constructor; try done.
  - cbn [sv_ready_num set_sv_by_const_id set_sv_ready_num].
    rewrite wrap_small by (unfold is_u, MAX_READY_CONN_NUM in *; lia).
    change (view (set_sv_by_const_id _ _)) with (view (put_conn s i (readied k now c))). rewrite view_put.
    apply (tables_ready (view s) _ _ _ _ i (abs c) (abs (readied k now c)) Ht); try done. by apply view_at.
  - eapply sockets_ext; [|exact Hs]. intros j.
    change (convs_of (put_conn s i (readied k now c)) j = convs_of s j).
    rewrite (convs_of_put s i c _ j Hat). unfold at_slot. destruct (decide (j = i)) as [->|]; [|done].
    by rewrite (convs_at _ _ _ Hat).
  - intros j c0 Hj. change (conn_at (put_conn s i (readied k now c)) j c0) in Hj.
    apply conn_at_put_inv in Hj as [[_ ->]|[_ Hj]]; [|by eapply Hc].
    pose proof (Hc _ _ Hat) as []. by constructor.
Qed.

Lemma runs_become_ready s i c k now w : env_ok w → server_inv w s → conn_at s i c → sc_state c ≠ Ready → past w now →
  sv_by_const_id s !! k = None → sv_ready_num s < MAX_READY_CONN_NUM →
  runs (become_ready s i k now) w (fine w s).
Proof using He HP.
  intros Hw Hi Hat Hst Hnow Hk Hm. unfold become_ready. apply runs_bind. eapply runs_lift; [by apply conn_done|].
  cbv zeta. fold (readied k now c). pose proof (inv_readied w s i c k now Hi Hat Hst Hnow Hk Hm) as Hi'.
  eapply runs_send_heartbeat; [exact Hw|exact Hi'| |].
  - unfold conn_at. cbn [sv_conns set_sv_by_const_id set_sv_ready_num]. by eapply (conn_at_put s i c).
  - intros p ar w' Hf. eapply fine_trans; [|exact Hf]. split_and!; [exact Hi'|reflexivity|exact Hw|cbn; lia].
Qed.

(** A connection that is not ready goes idle, or changes its constant id. *)
Lemma inv_unready w s i c c' : server_inv w s → conn_at s i c → sc_state c ≠ Ready → sc_state c' ≠ Ready →
  sc_addr c' = sc_addr c → sc_convs c' = sc_convs c → conn_ok w c' → server_inv w (put_conn s i c').
Proof.
  intros Hi Hat Hst Hst' Ea Ec Hok. pose proof Hi as [Ht Hs Hc Hcr Hctx Hp Hhb Hpe]. constructor; try done.
  - rewrite view_put. apply (tables_idle (view s) _ _ _ _ i (abs c) (abs c') Ht); try done; [by apply view_at|]. cbn. by rewrite Ec.
  - eapply sockets_ext; [|exact Hs]. intros j. rewrite (convs_of_put s i c c' j Hat). unfold at_slot.
    destruct (decide (j = i)) as [->|]; [|done]. by rewrite (convs_at _ _ _ Hat), Ec.
  - intros j c0 [[_ ->]|[_ H0]]%conn_at_put_inv; [done|by eapply Hc].
Qed.

(** The two connections [recover] stores. *)
Definition grabbed (c ori : ServerConn) : ServerConn :=
  upd_info (set_oppsite_const_id 0) (set_sc_state Idle (set_sc_addr (sc_addr ori) c)).
Definition recovered (g : Z) (c ori : ServerConn) : ServerConn :=
  set_sc_generation g (upd_info (λ i, recover_from i (sc_info (set_sc_addr (sc_addr ori) c))) (set_sc_addr (sc_addr c) ori)).

Definition recover_state (s : Server) (i j : nat) (c ori : ServerConn) : Server :=
  put_conn (put_conn (set_sv_next_generation (sv_next_generation s +⟨64⟩ 1)
    (set_sv_by_addr (<[sc_addr ori := i]> (<[sc_addr c := j]> (sv_by_addr s))) s)) i (grabbed c ori))
    j (recovered (sv_next_generation s) c ori).

Lemma inv_recover w s i j c ori : server_inv w s → conn_at s i c → conn_at s j ori → i ≠ j →
  sc_state c ≠ Ready → sc_state ori = Ready → server_inv w (recover_state s i j c ori).
Proof.
  intros Hi Hc Ho Hij Hsc Hso. pose proof Hi as [Ht Hs Hok Hcr Hctx Hp Hhb Hpe].
  unfold recover_state. set (s1 := set_sv_next_generation _ _).
  assert (conn_at s1 i c) as Hc1 by done. assert (conn_at s1 j ori) as Ho1 by done.
  assert (conn_at (put_conn s1 i (grabbed c ori)) j ori) as Ho2 by by apply conn_at_put_ne.
  constructor; try done.
  - rewrite !view_put. change (view s1) with (view s).
    apply (tables_swap (view s) _ _ _ _ i j (abs c) (abs ori) _ _ Ht); try done; by apply view_at.
  - eapply sockets_ext; [|exact Hs]. intros l. rewrite (convs_of_put _ j ori _ l Ho2). unfold at_slot.
    destruct (decide (l = j)) as [->|]; [by rewrite (convs_at s j ori Ho)|].
    rewrite (convs_of_put s1 i c _ l Hc1). unfold at_slot. destruct (decide (l = i)) as [->|]; [|done].
    by rewrite (convs_at s i c Hc).
  - intros l c0 [[_ ->]|[_ Hl]]%conn_at_put_inv.
    + destruct (Hok _ _ Hc), (Hok _ _ Ho). constructor; try done. 
    + apply conn_at_put_inv in Hl as [[_ ->]|[_ Hl]]; [|by eapply Hok]. destruct (Hok _ _ Hc). by constructor.
Qed.

Lemma runs_recover s i j c ori now w : env_ok w → server_inv w s → conn_at s i c → conn_at s j ori → i ≠ j →
  sc_state c ≠ Ready → sc_state ori = Ready → past w now → runs (recover s i j now) w (fine w s).
Proof using He HP.
  intros Hw Hi Hc Ho Hij Hsc Hso Hnow. unfold recover.
  apply runs_bind. eapply runs_lift; [by apply conn_done|]. apply runs_bind. eapply runs_lift; [by apply conn_done|].
  cbv zeta. pose proof (inv_recover w s i j c ori Hi Hc Ho Hij Hsc Hso) as Hi'.
  assert (conn_at (recover_state s i j c ori) j (recovered (sv_next_generation s) c ori)) as Hat.
  { eapply conn_at_put. apply conn_at_put_ne; [done|]. exact Ho. }
  apply runs_bind. eapply (runs_send_heartbeat (recover_state s i j c ori)); [exact Hw|exact Hi'|exact Hat|].
  intros p ar w' (Hi2 & Hl2 & Hw2 & Hlen). set (c2 := reseq ar _) in *.
  assert (conn_at (set_sv_pipeline p (put_conn (recover_state s i j c ori) j c2)) j c2) as Hat2
    by by eapply (conn_at_put (recover_state s i j c ori) j).
  apply runs_bind. eapply runs_lift; [by apply conn_done|]. apply runs_ret.
  split_and!; [|exact Hl2|exact Hw2|exact Hlen].
  eapply inv_put; [exact Hi2|exact Hat2|reflexivity|]. pose proof (past_later _ _ _ Hw Hl2 Hnow).
  destruct (i_conns _ _ Hi2 _ _ Hat2). by constructor.
Qed.

(** Composition: a prefix that ended well, then a computation that ends well. *)
Lemma runs_fine (m : Io Server) w s w1 s1 : fine w s s1 w1 → runs m w1 (fine w1 s1) → runs m w1 (fine w s).
Proof. intros Hf Hm. eapply runs_mono; [exact Hm|]. intros s' w' H. by eapply fine_trans. Qed.
Lemma ret_fine w s w1 s1 : fine w s s1 w1 → runs (mret s1) w1 (fine w s).
Proof. apply runs_ret. Qed.

Lemma runs_pre_ready s i c k w : env_ok w → server_inv w s → conn_at s i c → sc_state c ≠ Ready →
  runs (pre_ready s i k) w (fine w s).
Proof using He HP.
  intros Hw Hi Hat Hst. unfold pre_ready. apply runs_bind, runs_now_ms; [exact Hw|]. intros now w1 Enow Htm Hl1 _ Hw1.
  assert (past w1 now) as Hnow by (subst now; split; [apply (eo_clock w Hw)|exact Htm]).
  pose proof (inv_later _ _ _ Hw Hl1 Hi) as Hi1. pose proof (fine_later _ _ _ Hw Hw1 Hl1 Hi) as Hf1.
  apply runs_bind. eapply runs_lift; [by apply conn_done|].
  destruct (i_conns _ _ Hi1 _ _ Hat) as [].
  assert (∀ c', sc_state c' ≠ Ready → sc_addr c' = sc_addr c → sc_convs c' = sc_convs c → conn_ok w1 c' →
    runs (mret (put_conn s i c')) w1 (fine w s)) as Hidle.
  { intros c' H1 H2 H3 H4. apply ret_fine. split_and!; [by eapply inv_unready|exact Hl1|exact Hw1|done]. }
  destruct (sv_by_const_id s !! k) as [j|] eqn:Ek.
  - apply (t_const _ _ _ _ _ (i_tables _ _ Hi)) in Ek as (a & Ha & Hr & _). apply view_some in Ha as (ori & Ho & ->).
    assert (i ≠ j) as Hij by (intros ->; unfold conn_at in *; simplify_eq; done). cbn in Hr.
    rewrite bool_decide_false by congruence. apply runs_bind. eapply runs_lift; [by apply conn_done|].
    rewrite bool_decide_true by exact Hr. cbn [negb]. destruct (_ <? _).
    + apply Hidle; try done; by constructor.
    + eapply runs_fine; [exact Hf1|]. by eapply runs_recover.
  - destruct (Z.leb_spec MAX_READY_CONN_NUM (sv_ready_num s)).
    + apply Hidle; try done; by constructor.
    + eapply runs_fine; [exact Hf1|]. by eapply runs_become_ready.
Qed.

Lemma sync_seq_ok mode raw : raw_ok raw → raw_ok (sync_seq mode raw).
Proof.
  intros [Hs Hr]. unfold sync_seq. pose proof Hs as []. pose proof Hr as [].
  assert (is_u 32 (pi_seq (recv_info raw) +⟨32⟩ wrap 32 (pi_data_len (recv_info raw)))) by (apply wrap_range; lia).
  repeat case_bool_decide; split; try done; by constructor.
Qed.
Lemma reply_to_ok r raw : info_ok r → raw_ok raw → raw_ok (reply_to r raw).
Proof.
  intros [] [[] Hr]. split; [|done]. by constructor.
Qed.
Lemma fill_ok s raw : raw_ok raw → raw_ok (fill_lower_level s raw).
Proof. intros [Hs Hr]. unfold fill_lower_level. destruct (negb _); [done|]. split; [|done]. by destruct Hs. Qed.

Lemma runs_handshake1 s i c payload w : env_ok w → server_inv w s → conn_at s i c → sc_state c ≠ Ready →
  runs (on_handshake1 s i payload) w (fine w s).
Proof using He HP.
  intros Hw Hi Hat Hst. unfold on_handshake1. apply runs_bind. eapply runs_lift; [by apply conn_done|].
  destruct (parse_handshake_total payload) as (h & Eh). apply runs_bind. eapply runs_lift; [exact Eh|].
  destruct h as [[[o m] k]|]; [|apply ret_fine; by apply fine_refl].
  pose proof (i_conns _ _ Hi _ _ Hat) as [Hraw Hrol Ht1 Ht2 Ht3 Hcv Hcn].
  destruct (m =? 0); [|destruct (m =? my_id (sc_info c)); [|apply ret_fine; by apply fine_refl]].
  - unfold send_handshake. rewrite (i_crypto _ _ Hi). destruct (i_ctx _ _ Hi) as [Hctx _].
    apply runs_bind, (runs_send_bare cr cm am legacy keys He); [exact Hw|exact Hctx|by apply sync_seq_ok| |].
    { unfold build_handshake. auto with bytes. }
    intros ok ctx' raw' w1 Ec Hr' Hl1 Hw1. apply ret_fine. cbn [fst snd].
    split_and!; [|exact Hl1|exact Hw1|done].
    eapply (inv_put _ (set_sv_ctx ctx' s) i c); [|done|done|].
    + apply inv_set_ctx; [by apply (inv_later w w1)|exact Ec].
    + destruct (i_conns _ _ (inv_later _ _ _ Hw Hl1 Hi) _ _ Hat). by constructor.
  - cbv zeta. set (c' := upd_info _ (upd_info _ c)).
    assert (server_inv w (put_conn s i c')) as Hi'.
    { eapply inv_put; [exact Hi|exact Hat|done|]. constructor; try done. by apply sync_seq_ok. }
    eapply runs_fine; [|eapply runs_pre_ready; [exact Hw|exact Hi'|by eapply conn_at_put|done]].
    by split_and!.
Qed.

(** ** Raw packets *)

Lemma parse_recv_survives w s raw buf ll : server_inv w s → bytes buf → survives buf → raw_ok raw →
  ∃ o raw', parse_recv (sv_ctx s) raw buf ll = Done (o, raw') ∧ raw_ok raw' ∧
    (∀ data, o = Some data → bytes data).
Proof.
  intros Hi Hb Hsv Hr. destruct (i_ctx _ _ Hi) as [_ Ec]. rewrite (parse_recv_conf _ _ _ _ _ Ec). by apply parse_recv_returns.
Qed.

Lemma runs_on_syn s buf ll w : env_ok w → server_inv w s → bytes buf → survives buf →
  runs (on_syn s buf ll) w (fine w s).
Proof.
  intros Hw Hi Hb Hsv. unfold on_syn. apply runs_bind, runs_raw_new; [exact Hw|]. intros raw w1 Hraw _ _ Hl1 Hw1 _.
  pose proof (inv_later _ _ _ Hw Hl1 Hi) as Hi1. pose proof (fine_later _ _ _ Hw Hw1 Hl1 Hi) as Hf1.
  destruct (parse_recv_survives w s raw buf ll Hi Hb Hsv Hraw) as (o & raw' & Ep & Hr' & _).
  apply runs_bind. eapply runs_lift; [exact Ep|]. destruct o as [data|]; [|by apply ret_fine].
  destruct (_ <? _); [by apply ret_fine|]. destruct (cfg_easy_faketcp _); [by apply ret_fine|]. cbv zeta.
  destruct (_ && _); [|by apply ret_fine]. pose proof Hr' as [_ Hrecv].
  assert (raw_ok (fill_lower_level s (reply_to (recv_info raw') raw'))) as Hr2 by by apply fill_ok, reply_to_ok.
  set (raw2 := fill_lower_level _ _) in *. clearbody raw2.
  apply runs_bind, runs_send_raw; [exact Hw1|apply (i_ctx _ _ Hi)| |split; [constructor|done]| |].
  - destruct Hr2 as [[] _], Hrecv. constructor; try done. apply wrap_range. lia.
  - intros w2 _ Hl2 Hw2 _. apply ret_fine. split_and!; [|by transitivity w1|exact Hw2|done].
    apply inv_set_ctx; [by apply (inv_later w1 w2)|done].
  - intros ctx' pkt seg w2 Ec _ _ Hl2 Hw2 _. apply ret_fine. split_and!; [|by transitivity w1|exact Hw2|done].
    apply inv_set_ctx; [by apply (inv_later w1 w2)|exact Ec].
Qed.

(** A new connection in a slot that has none. *)
Lemma inv_fresh w s i c conns' free' : server_inv w s → (∀ c', ¬ conn_at s i c') →
  (∀ j, conns' !! j = if decide (j = i) then Some (Some c) else sv_conns s !! j) →
  NoDup free' → (∀ j, j ∈ free' ↔ j ∈ sv_free_conns s ∧ j ≠ i) → zlen conns' ≤ MAX_HANDSHAKE_CONN_NUM →
  sv_by_addr s !! sc_addr c = None → sc_state c ≠ Ready → conv_to_data (sc_convs c) = ∅ → conn_ok w c →
  server_inv w (set_sv_by_addr (<[sc_addr c := i]> (sv_by_addr s)) (set_sv_conns conns' (set_sv_free_conns free' s))).
Proof.
  intros Hi Hold HL Hnd Hfree Hlen Hfr Hst Hcv Hok. pose proof Hi as [Ht Hs Hc Hcr Hctx Hp Hhb Hpe].
  set (s1 := set_sv_by_addr _ _). assert (∀ j, sv_conns s1 !! j = if decide (j = i) then Some (Some c) else sv_conns s !! j)
    as HL1 by exact HL.
  constructor; try done.
  - apply (tables_fresh (view s) (view s1) (sv_free_conns s) free' (sv_by_addr s) _ _ i (abs c) Ht); try done.
    + intros j x. rewrite !view_lookup, HL1. destruct (decide (j = i)) as [->|Hne]; cbn; [clear|clear -Hne]; naive_solver.
    + intros k' (c' & Hc' & _)%view_some. by apply (Hold c').
    + rewrite length_view. exact Hlen.
  - eapply sockets_ext; [|exact Hs]. intros j. unfold convs_of. rewrite HL1. destruct (decide (j = i)) as [->|]; [|done].
    rewrite Hcv. destruct (sv_conns s !! i) as [[c0|]|] eqn:E; try done. by destruct (Hold c0).
  - intros j c0 Hj. unfold conn_at in Hj. rewrite HL1 in Hj. destruct (decide (j = i)); [by simplify_eq|by eapply Hc].
Qed.

Lemma live_conns_eq w s : server_inv w s → live_conns s = zlen (sv_conns s) - zlen (sv_free_conns s) ∧
  0 ≤ live_conns s ≤ MAX_HANDSHAKE_CONN_NUM.
Proof.
  intros Hi. pose proof (i_tables _ _ Hi) as Ht.
  pose proof (tables_live _ _ _ _ _ Ht) as Hlf. pose proof (t_max_live _ _ _ _ _ Ht) as Hml.
  rewrite length_view in Hlf, Hml. unfold live_conns.
  rewrite wrap_small by (unfold is_u, MAX_HANDSHAKE_CONN_NUM in *; lia). lia.
Qed.

Lemma inv_alloc w s c : server_inv w s → live_conns s < MAX_HANDSHAKE_CONN_NUM → sv_by_addr s !! sc_addr c = None →
  sc_state c ≠ Ready → conv_to_data (sc_convs c) = ∅ → conn_ok w c →
  ∃ i s1, alloc_conn s c = Done (i, s1) ∧ sv_socks s1 = sv_socks s ∧
    conn_at (set_sv_by_addr (<[sc_addr c := i]> (sv_by_addr s1)) s1) i c ∧
    server_inv w (set_sv_by_addr (<[sc_addr c := i]> (sv_by_addr s1)) s1).
Proof.
  intros Hi Hlive Hfr Hst Hcv Hok. pose proof (i_tables _ _ Hi) as Ht. destruct (live_conns_eq w s Hi) as [El _].
  pose proof (t_max_live _ _ _ _ _ Ht) as Hml. rewrite length_view in Hml.
  unfold alloc_conn. destruct (sv_free_conns s) as [|i free] eqn:Ef.
  - assert (∀ j, (sv_conns s ++ [Some c]) !! j = if decide (j = length (sv_conns s)) then Some (Some c) else sv_conns s !! j) as HL.
    { intros j. destruct (decide (j = length (sv_conns s))) as [->|Hne]; [by apply list_lookup_middle|].
      destruct (decide (j < length (sv_conns s))%nat); [by apply lookup_app_l|].
      rewrite !(proj2 (lookup_ge_None _ j)); [done|lia|rewrite length_app; cbn; lia]. }
    eexists _, _. split; [reflexivity|]. split; [done|].
    cbn [sv_conns sv_by_addr set_sv_conns].
    replace (length (sv_conns s ++ [Some c]) - 1)%nat with (length (sv_conns s)) by (rewrite length_app; cbn; lia).
    split; [unfold conn_at; cbn; rewrite HL; by rewrite decide_True|].
    replace (set_sv_conns (sv_conns s ++ [Some c]) s) with (set_sv_conns (sv_conns s ++ [Some c]) (set_sv_free_conns [] s))
      by (destruct s; cbn in *; by subst).
    apply inv_fresh; try done.
    + intros c' Hc'%lookup_lt_Some. lia.
    + constructor.
    + intros j. rewrite Ef. split; [by intros ?%elem_of_nil|]. intros [?%elem_of_nil _]. done.
    + rewrite length_app. cbn [length] in *. lia.
  - assert (sv_conns s !! i = Some None) as Hn.
    { apply view_none, (t_free _ _ _ _ _ Ht). by left. }
    pose proof (lookup_lt_Some _ _ _ Hn) as Hlt. pose proof (t_nodup _ _ _ _ _ Ht) as Hnd.
    apply NoDup_cons in Hnd as [Hni Hnd]. cbn [sv_conns set_sv_free_conns].
    replace (i <? length (sv_conns s))%nat with true by (symmetry; by apply Nat.ltb_lt).
    eexists _, _. split; [reflexivity|]. split; [done|].
    split; [unfold conn_at; cbn; by rewrite list_lookup_insert_eq|].
    change (server_inv w (set_sv_by_addr (<[sc_addr c := i]> (sv_by_addr s))
      (set_sv_conns (<[i := Some c]> (sv_conns s)) (set_sv_free_conns free s)))).
    apply inv_fresh; try done.
    + unfold conn_at. by intros c'; rewrite Hn.
    + intros j. destruct (decide (j = i)) as [->|]; [by rewrite list_lookup_insert_eq|by rewrite list_lookup_insert_ne].
    + intros j. rewrite Ef, elem_of_cons. split; [intros Hj; split; [by right|intros ->; done]|]. intros [[->|?] ?]; done.
    + by rewrite length_insert.
Qed.

Lemma live_next s g : live_conns (set_sv_next_generation g s) = live_conns s.
Proof. done. Qed.
Lemma inv_next w s g : server_inv w s → server_inv w (set_sv_next_generation g s).
Proof. intros []. by constructor. Qed.

Lemma runs_new_addr s buf ll addr w : env_ok w → server_inv w s → bytes buf → survives buf →
  sv_by_addr s !! addr = None → is_u 16 addr.2 → runs (on_new_addr s buf ll addr) w (fine w s).
Proof using He HP.
  intros Hw Hi Hb Hsv Hfr Hport. unfold on_new_addr.
  destruct (Z.leb_spec MAX_HANDSHAKE_CONN_NUM (live_conns s)) as [|Hlive]; [by apply ret_fine, fine_refl|].
  apply runs_bind, runs_raw_new; [exact Hw|]. intros raw w1 Hraw _ _ Hl1 Hw1 _.
  pose proof (inv_later _ _ _ Hw Hl1 Hi) as Hi1. pose proof (fine_later _ _ _ Hw Hw1 Hl1 Hi) as Hf1. cbv zeta.
  set (raw0 := if bool_decide _ then _ else raw).
  assert (raw_ok raw0) as Hraw0.
  { unfold raw0. case_bool_decide; [|done]. destruct Hraw as [[] ?]. split; [by constructor|done]. }
  clearbody raw0. destruct (parse_recv_survives w s raw0 buf ll Hi Hb Hsv Hraw0) as (o & raw' & Ep & Hr' & Hd).
  apply runs_bind. eapply runs_lift; [exact Ep|]. destruct o as [data|]; [|by apply ret_fine].
  destruct (_ && _); [by apply ret_fine|]. rewrite (i_crypto _ _ Hi).
  destruct (conn_parse_bare_total cr cm am legacy keys He data (Hd data eq_refl)) as (b & Eb).
  apply runs_bind. eapply runs_lift; [exact Eb|]. destruct b as [payload|]; [|by apply ret_fine].
  destruct (parse_handshake_total payload) as (h & Eh). apply runs_bind. eapply runs_lift; [exact Eh|].
  destruct h as [[[o z] k]|]; [|by apply ret_fine]. destruct (negb _); [by apply ret_fine|].
  unfold ConnInfo_new. do 2 apply runs_bind. apply runs_raw_new; [exact Hw1|]. intros raw2 w2 _ _ _ Hl2 Hw2 _.
  apply runs_bind, runs_secure_u64; [exact Hw2|]. intros seed w3 _ Hl3 _ Hw3. apply runs_ret.
  apply runs_bind, runs_secure_nz; [exact Hw3|]. intros id w4 _ _ Hl4 _ Hw4.
  apply runs_bind, runs_now_ms; [exact Hw4|]. intros t w5 Et Htm Hl5 _ Hw5.
  assert (later w w5) as Hl by (transitivity w1; [done|]; transitivity w2; [done|]; transitivity w3; [done|]; by transitivity w4).
  match goal with |- context [alloc_conn _ ?x] => set (c := x) end.
  assert (conn_ok w5 c) as Hok.
  { assert (past w5 0) by (split; [lia|apply (eo_clock w5 Hw5)]).
    constructor; try done; [|subst t; split; [apply (eo_clock w4 Hw4)|exact Htm]|apply conv_inv_new].
    cbn. apply fill_ok, reply_to_ok; [apply Hr'|exact Hr']. }
  pose proof (inv_next w5 s (sv_next_generation s +⟨64⟩ 1) (inv_later _ _ _ Hw Hl Hi)) as Hi5.
  destruct (inv_alloc w5 _ c Hi5) as (i & s1 & Ea & Eso & Hat & Hi6); try done.
  apply runs_bind. eapply runs_lift; [exact Ea|]. cbv beta iota.
  eapply runs_fine; [|by eapply runs_handshake1]. split_and!; [exact Hi6|exact Hl|exact Hw5|]. cbn in *. by rewrite Eso.
Qed.

(** Storing what the parser left of a connection's receive side. *)
Lemma inv_put_raw w s i c raw : server_inv w s → conn_at s i c → raw_ok raw →
  server_inv w (put_conn s i (upd_info (set_ci_raw raw) c)).
Proof.
  intros Hi Hat Hr. eapply inv_put; [exact Hi|exact Hat|done|]. destruct (i_conns _ _ Hi _ _ Hat). by constructor.
Qed.

Lemma runs_hs_packet s i c buf ll w : env_ok w → server_inv w s → bytes buf → survives buf → conn_at s i c →
  sc_state c ≠ Ready → runs (on_hs_packet s i buf ll) w (fine w s).
Proof using He HP.
  intros Hw Hi Hb Hsv Hat Hst. unfold on_hs_packet. apply runs_bind. eapply runs_lift; [by apply conn_done|].
  destruct (parse_recv_survives w s _ buf ll Hi Hb Hsv (co_raw _ _ (i_conns _ _ Hi _ _ Hat))) as (o & raw' & Ep & Hr' & Hd).
  apply runs_bind. eapply runs_lift; [exact Ep|]. cbv zeta. cbn [fst snd].
  pose proof (inv_put_raw w s i c raw' Hi Hat Hr') as Hi'. set (s' := put_conn _ _ _) in *.
  assert (fine w s s' w) as Hf by by split_and!. destruct o as [data|]; [|by apply ret_fine].
  destruct (_ && _); [by apply ret_fine|]. rewrite (i_crypto _ _ Hi').
  destruct (conn_parse_bare_total cr cm am legacy keys He data (Hd data eq_refl)) as (b & Eb).
  apply runs_bind. eapply runs_lift; [exact Eb|]. destruct b as [payload|]; [|by apply ret_fine].
  eapply runs_fine; [exact Hf|]. by eapply runs_handshake1; [|exact Hi'|eapply conn_at_put|].
Qed.

Lemma runs_data_packet s i c buf ll w : env_ok w → server_inv w s → bytes buf → survives buf → conn_at s i c →
  runs (on_data_packet s i buf ll) w (fine w s).
Proof using He HP.
  intros Hw Hi Hb Hsv Hat. unfold on_data_packet. apply runs_bind. eapply runs_lift; [by apply conn_done|].
  destruct (parse_recv_survives w s _ buf ll Hi Hb Hsv (co_raw _ _ (i_conns _ _ Hi _ _ Hat))) as (o & raw' & Ep & Hr' & Hd).
  apply runs_bind. eapply runs_lift; [exact Ep|]. cbv zeta. cbn [fst snd].
  pose proof (inv_put_raw w s i c raw' Hi Hat Hr') as Hi'. set (s' := put_conn _ _ _) in *.
  assert (fine w s s' w) as Hf by by split_and!. destruct o as [data|]; [|by apply ret_fine].
  apply runs_submit_job; [exact Hw|exact Hi'| |].
  - split; [by apply Hd|]. destruct Hr' as [_ []]. by split.
  - intros p w' Hf'. exact (fine_trans _ _ _ _ _ _ Hf Hf').
Qed.

Lemma peek_port ctx buf k : bytes buf → peek ctx buf = Done (Some k) → is_u 16 (pk_src_port k).
Proof.
  intros Hb E. unfold peek in E. apply bind_inv in E as (ip & Eip & E). destruct ip as [ip|]; [|discriminate].
  apply bind_inv in E as (seg & Es & E). pose proof (ip_payload_bytes _ _ _ Hb Es) as Hsb.
  destruct (rc_raw_mode ctx); run_inv E; subst k; cbn [pk_src_port];
    apply from_be2_u16; by apply nth_byte.
Qed.

Lemma runs_raw_packet s buf len ll w : env_ok w → server_inv w s → bytes buf → 0 ≤ len ≤ zlen buf →
  survives (take (Z.to_nat len) buf) → (len = HUGE_DATA_LEN + 1 → survives (take (Z.to_nat HUGE_DATA_LEN) buf)) →
  runs (on_raw_packet s buf len ll) w (fine w s).
Proof using He HP.
  intros Hw Hi Hb Hlen Hsv Hsv'. unfold on_raw_packet.
  destruct ((len =? HUGE_DATA_LEN + 1) && negb (cfg_fix_gro (sv_cfg s))); [by apply ret_fine, fine_refl|].
  cbv zeta. set (len' := if len =? _ then _ else len).
  destruct ((MAX_DATA_LEN <? len') && negb (cfg_fix_gro (sv_cfg s))); [by apply ret_fine, fine_refl|].
  assert (0 ≤ len' ≤ zlen buf ∧ survives (take (Z.to_nat len') buf)) as [Hl' Hs'].
  { unfold len'. destruct (Z.eqb_spec len (HUGE_DATA_LEN + 1)) as [->|]; [|done]. split; [|by apply Hsv'].
    unfold HUGE_DATA_LEN in *. lia. }
  clear Hsv Hsv'. apply runs_bind. eapply runs_lift; [apply slice_Done; lia|]. rewrite Z.sub_0_r. change (drop (Z.to_nat 0) buf) with buf.
  set (b := take (Z.to_nat len') buf) in *. assert (bytes b) as Hbb by by apply Forall_take. clearbody b len'.
  destruct (peek_total (sv_ctx s) b Hbb) as (k & Ek). apply runs_bind. eapply runs_lift; [exact Ek|].
  destruct k as [k|]; [|by apply ret_fine, fine_refl]. pose proof (peek_port _ _ _ Hbb Ek) as Hport.
  assert (∀ i, sv_by_addr s !! (pk_src_ip k, pk_src_port k) = Some i → ∃ c, conn_at s i c) as Haddr.
  { intros i (a & Ha & _)%(t_addr _ _ _ _ _ (i_tables _ _ Hi)). apply view_some in Ha as (c & Hc & _). by exists c. }
  destruct (_ && _).
  - assert (∃ nr, not_ready s (sv_by_addr s !! (pk_src_ip k, pk_src_port k)) = Done nr) as (nr & En).
    { unfold not_ready. destruct (sv_by_addr s !! _) as [i|]; [|by eexists].
      destruct (Haddr i eq_refl) as [c Hc]. rewrite Hc. by eexists. }
    apply runs_bind. eapply runs_lift; [exact En|]. destruct nr; [by apply runs_on_syn|by apply ret_fine, fine_refl].
  - destruct (sv_by_addr s !! _) as [i|] eqn:Ea; [|by apply runs_new_addr].
    destruct (Haddr i eq_refl) as [c Hc]. apply runs_bind. eapply runs_lift; [by apply conn_done|].
    destruct (sc_state c) eqn:Est; [by apply ret_fine, fine_refl| |by eapply runs_data_packet].
    eapply runs_hs_packet; try done. by rewrite Est.
Qed.

(** ** Erasing connections *)

(** What [erase_conn] leaves: the slot is empty and free, the conversations' sockets are closed. *)
Definition erased (s : Server) (i : nat) (c : ServerConn) (socks' : list (option ConvSock)) (free' : list nat) : Server :=
  let s1 := set_sv_conns (<[i := None]> (sv_conns s)) s in
  let s2 := if bool_decide (sc_state c = Ready)
            then set_sv_by_const_id (delete (oppsite_const_id (sc_info c)) (sv_by_const_id s))
                   (set_sv_ready_num (sv_ready_num s -⟨64⟩ 1) s1)
            else s1 in
  let s3 := set_sv_free_socks free' (set_sv_socks socks' s2) in
  set_sv_free_conns (i :: sv_free_conns s) (set_sv_by_addr (delete (sc_addr c) (sv_by_addr s)) s3).

Lemma erased_fields s i c socks' free' :
  sv_conns (erased s i c socks' free') = <[i := None]> (sv_conns s) ∧ sv_socks (erased s i c socks' free') = socks' ∧
  sv_free_socks (erased s i c socks' free') = free' ∧ sv_crypto (erased s i c socks' free') = sv_crypto s ∧
  sv_ctx (erased s i c socks' free') = sv_ctx s ∧ sv_pipeline (erased s i c socks' free') = sv_pipeline s ∧
  sv_hb_buf (erased s i c socks' free') = sv_hb_buf s ∧ sv_socks_pending (erased s i c socks' free') = sv_socks_pending s ∧
  sv_free_conns (erased s i c socks' free') = i :: sv_free_conns s ∧
  sv_by_addr (erased s i c socks' free') = delete (sc_addr c) (sv_by_addr s) ∧
  sv_by_const_id (erased s i c socks' free')
    = (if bool_decide (sc_state c = Ready) then delete (oppsite_const_id (sc_info c)) (sv_by_const_id s) else sv_by_const_id s) ∧
  sv_ready_num (erased s i c socks' free') = (if bool_decide (sc_state c = Ready) then sv_ready_num s -⟨64⟩ 1 else sv_ready_num s).
Proof. unfold erased. case_bool_decide; by split_and!. Qed.

Lemma inv_erased w s i c socks' free' : server_inv w s → conn_at s i c → length socks' = length (sv_socks s) →
  sockets (at_slot (convs_of s) i ∅) socks' free' → server_inv w (erased s i c socks' free').
Proof.
  intros Hi Hat Hlen Hs'. pose proof Hi as [Ht Hs Hc Hcr Hctx Hp Hhb Hpe].
  destruct (erased_fields s i c socks' free') as (E1 & E2 & E3 & E4 & E5 & E6 & E7 & E8 & E9 & E10 & E11 & E12).
  pose proof (tables_erase _ _ _ _ _ _ _ Ht (view_at _ _ _ Hat)) as Ht'. cbn [abs a_state a_addr a_const] in Ht'.
  pose proof (ready_range w s Hi) as Hr. set (s' := erased s i c socks' free') in *.
  assert (view s' = <[i := None]> (view s)) as Ev by (unfold view; rewrite E1; apply view_insert).
  constructor; rewrite ?E2, ?E3, ?E4, ?E5, ?E6, ?E7, ?E8; try done.
  - rewrite Ev, E9, E10, E11, E12. destruct (decide (sc_state c = Ready)) as [Er|Er];
      [rewrite !(bool_decide_true _ Er)|rewrite !(bool_decide_false _ Er); exact Ht'].
    pose proof (t_ready _ _ _ _ _ Ht') as Hz. rewrite wrap_small; [exact Ht'|].
    unfold is_u, MAX_READY_CONN_NUM in *. lia.
  - eapply sockets_ext; [|exact Hs']. intros j. unfold convs_of. rewrite E1. destruct (decide (j = i)) as [->|Hne].
    + rewrite at_slot_eq, list_lookup_insert_eq; [done|]. by eapply lookup_lt_Some.
    + by rewrite at_slot_ne, list_lookup_insert_ne.
  - intros j c0 Hj. unfold conn_at in Hj. rewrite E1 in Hj.
    apply list_lookup_insert_Some in Hj as [(_ & ? & _)|[_ Hj]]; [done|by eapply Hc].
  - by rewrite Hlen.
Qed.

Lemma clear_gone (c : ServerConn) : (conv_clear (sc_convs c)).1 = (map_to_list (conv_to_data (sc_convs c))).*2.
Proof. done. Qed.

Lemma runs_erase_conn s i c w (Q : Server → World → Prop) : env_ok w → server_inv w s → conn_at s i c →
  (∀ socks' free' w', fine w s (erased s i c socks' free') w' → Q (erased s i c socks' free') w') →
  runs (erase_conn s i) w Q.
Proof.
  intros Hw Hi Hat HQ. unfold erase_conn. rewrite (Hat : sv_conns s !! i = Some (Some c)). cbv zeta.
  set (s2 := if bool_decide _ then _ else _).
  assert (sv_socks s2 = sv_socks s ∧ sv_free_socks s2 = sv_free_socks s) as [Es Ef] by (unfold s2; by case_bool_decide).
  rewrite clear_gone. apply runs_bind.
  apply (runs_close_socks s2 (convs_of s) i); [exact Hw|rewrite Es, Ef; apply Hi|apply NoDup_fst_map_to_list| |].
  - apply Forall_forall. intros [cv sidx] Hin%elem_of_map_to_list. by rewrite (convs_at _ _ _ Hat).
  - rewrite (convs_at _ _ _ Hat), drop_convs_all, Es. intros w' socks' free' Hl Hw' Hlen Hs'. apply runs_ret.
    match goal with |- Q ?x w' => replace x with (erased s i c socks' free') by (unfold erased, s2; by case_bool_decide) end.
    apply HQ. split_and!; [|exact Hl|exact Hw'|].
    + apply inv_erased; [by apply (inv_later w w')|done|done|done].
    + destruct (erased_fields s i c socks' free') as (_ & -> & _). lia.
Qed.

(** ** Timers *)

(** No connection has a time after the reading the timer works with. *)
Definition timely (now : Z) (s : Server) : Prop := ∀ i c, conn_at s i c →
  0 ≤ last_state_time (sc_info c) ≤ now ∧ 0 ≤ last_hb_recv_time (sc_info c) ≤ now ∧
  0 ≤ last_hb_sent_time (sc_info c) ≤ now.

(** A connection the sweep may erase: unheard of for too long and without conversations
    when it is ready, or too old when it is not. *)
Definition stale (now : Z) (c : ServerConn) : Prop :=
  if decide (sc_state c = Ready)
  then SERVER_CONN_TIMEOUT_MS < now - last_hb_recv_time (sc_info c) ∧ conv_to_data (sc_convs c) = ∅
  else SERVER_HANDSHAKE_TIMEOUT_MS < now - last_state_time (sc_info c).

Definition swept (now : Z) (s s' : Server) : Prop := ∀ i,
  sv_conns s' !! i = sv_conns s !! i ∨ (∃ c, conn_at s i c ∧ stale now c) ∧ sv_conns s' !! i = Some None.
#[local] Instance swept_refl now : Reflexive (swept now).
Proof. intros s i. by left. Qed.
Lemma swept_trans now s1 s2 s3 : swept now s1 s2 → swept now s2 s3 → swept now s1 s3.
Proof.
  intros H12 H23 i. destruct (H23 i) as [E|[(c & Hc & Hst) E]].
  - rewrite E. apply H12.
  - right. split; [|done]. destruct (H12 i) as [E'|[? E']]; [|done]. exists c. split; [|done].
    unfold conn_at in *. congruence.
Qed.
Lemma swept_timely now s s' : swept now s s' → timely now s → timely now s'.
Proof.
  intros Hsw Ht i c Hc. destruct (Hsw i) as [E|[_ E]]; unfold conn_at in Hc; [apply (Ht i c); unfold conn_at; congruence|congruence].
Qed.

Lemma keep_stale now c : is_u 64 now → 0 ≤ last_state_time (sc_info c) ≤ now → 0 ≤ last_hb_recv_time (sc_info c) ≤ now →
  (if bool_decide (sc_state c = Ready)
   then (now -⟨64⟩ last_hb_recv_time (sc_info c) <=? SERVER_CONN_TIMEOUT_MS) || negb (conv_is_empty (sc_convs c))
   else now -⟨64⟩ last_state_time (sc_info c) <=? SERVER_HANDSHAKE_TIMEOUT_MS) = false ↔ stale now c.
Proof.
  intros Hn H1 H2. unfold stale, conv_is_empty. rewrite !elapsed by done. case_bool_decide as Er.
  - rewrite decide_True by done. rewrite orb_false_iff, negb_false_iff, bool_decide_eq_true, Z.leb_gt. done.
  - rewrite decide_False by done. by rewrite Z.leb_gt.
Qed.

Lemma inv_cursor w s k : server_inv w s → server_inv w (set_sv_clear_cursor k s).
Proof. intros []. by constructor. Qed.

Lemma runs_clear_loop fuel s now num cnt visited w : env_ok w → server_inv w s → timely now s → is_u 64 now →
  0 ≤ visited → runs (clear_conns_loop fuel s now num cnt visited) w (λ s' w', fine w s s' w' ∧ swept now s s').
Proof.
  revert s cnt visited w. induction fuel as [|fuel IH]; intros s cnt visited w Hw Hi Ht Hn Hv; cbn [clear_conns_loop].
  { apply runs_ret. split; [by apply fine_refl|reflexivity]. }
  destruct (_ && _) eqn:Eb; [|apply runs_ret; split; [by apply fine_refl|reflexivity]].
  apply andb_true_iff in Eb as [_ Hvis]. cbv zeta.
  set (s0 := if (length (sv_conns s) <=? sv_clear_cursor s)%nat then set_sv_clear_cursor 0 s else s).
  set (s1 := set_sv_clear_cursor _ s0).
  assert (∃ k, s1 = set_sv_clear_cursor k s) as [k Es1].
  { unfold s1, s0. destruct (_ <=? _)%nat; by eexists. }
  assert (sv_clear_cursor s0 < length (sv_conns s))%nat as Hlt.
  { unfold s0. destruct (Nat.leb_spec (length (sv_conns s)) (sv_clear_cursor s)); cbn; lia. }
  set (slot := sv_clear_cursor s0) in *. clearbody slot s1. clear s0. subst s1.
  change (sv_conns (set_sv_clear_cursor k s)) with (sv_conns s).
  assert (fine w s (set_sv_clear_cursor k s) w) as Hf1 by (split_and!; [by apply inv_cursor|done|done|done]).
  assert (∀ s2 w2 cnt', fine w s s2 w2 → swept now s s2 →
    runs (clear_conns_loop fuel s2 now num cnt' (visited + 1)) w2 (λ s' w', fine w s s' w' ∧ swept now s s')) as Hnext.
  { intros s2 w2 cnt' Hf Hsw. pose proof Hf as (Hi2 & Hl2 & Hw2 & Hln). eapply runs_mono; [apply IH|].
    - exact Hw2.
    - exact Hi2.
    - by eapply swept_timely.
    - exact Hn.
    - lia.
    - intros s' w' [Hf' Hsw']. split; [exact (fine_trans _ _ _ _ _ _ Hf Hf')|exact (swept_trans _ _ _ _ Hsw Hsw')]. }
  destruct (lookup_lt_is_Some_2 _ _ Hlt) as [o Eo]. rewrite Eo.
  assert (swept now s (set_sv_clear_cursor k s)) as Hsw1 by (intros j; by left).
  destruct o as [c|]; [|by apply Hnext].
  destruct (Ht slot c Eo) as (Ht1 & Ht2 & _). apply runs_bind.
  match goal with |- context [if negb ?b then _ else _] => destruct b eqn:Ek end; cbn [negb].
  - by apply runs_ret, Hnext.
  - apply (keep_stale now c Hn Ht1 Ht2) in Ek.
    apply (runs_erase_conn _ slot c); [done|by apply inv_cursor|done|]. intros socks' free' w' Hf'.
    apply Hnext; [exact (fine_trans _ _ _ _ _ _ Hf1 Hf')|].
    intros j. destruct (erased_fields (set_sv_clear_cursor k s) slot c socks' free') as (-> & _).
    change (sv_conns (set_sv_clear_cursor k s)) with (sv_conns s). destruct (decide (j = slot)) as [->|].
    + right. split; [by exists c|]. by rewrite list_lookup_insert_eq.
    + left. by rewrite list_lookup_insert_ne.
Qed.

(** The slot the sweep inspects next. *)
Definition cursor_slot (s : Server) : nat :=
  if (length (sv_conns s) <=? sv_clear_cursor s)%nat then 0%nat else sv_clear_cursor s.

Lemma swept_none now s s' i : swept now s s' → sv_conns s !! i = Some None → sv_conns s' !! i = Some None.
Proof. intros Hsw E. destruct (Hsw i) as [->|[_ ?]]; done. Qed.

(** The slots in the order of the sweep, and how many of the first [k] hold a connection. *)
Definition sweep_slot (s : Server) (k : nat) : nat := ((cursor_slot s + k) mod length (sv_conns s))%nat.
Fixpoint live_in (conns : list (option ServerConn)) (slots : list nat) : Z :=
  match slots with
  | [] => 0
  | i :: slots => (match conns !! i with Some (Some _) => 1 | _ => 0 end) + live_in conns slots
  end.
Definition met (s : Server) (k : nat) : Z := live_in (sv_conns s) (sweep_slot s <$> seq 0 k).
(** How many connections one sweep inspects. *)
Definition sweep_size (s : Server) : Z := Z.min (live_conns s / CONN_CLEAR_RATIO + CONN_CLEAR_MIN) (live_conns s).

Lemma live_in_nonneg conns slots : 0 ≤ live_in conns slots.
Proof. induction slots as [|i slots IH]; cbn; [lia|]. repeat case_match; lia. Qed.
Lemma live_in_ext conns conns' slots : (∀ i, i ∈ slots → conns !! i = conns' !! i) → live_in conns slots = live_in conns' slots.
Proof.
  induction slots as [|i slots IH]; [done|]. intros H. cbn [live_in]. rewrite IH by (intros; apply H; by constructor).
  by rewrite (H i) by constructor.
Qed.
Lemma cursor_slot_lt s : (0 < length (sv_conns s))%nat → (cursor_slot s < length (sv_conns s))%nat.
Proof. unfold cursor_slot. destruct (Nat.leb_spec (length (sv_conns s)) (sv_clear_cursor s)); lia. Qed.
Lemma sweep_slot_0 s : (0 < length (sv_conns s))%nat → sweep_slot s 0 = cursor_slot s.
Proof. intros H. unfold sweep_slot. rewrite Nat.add_0_r. by apply Nat.mod_small, cursor_slot_lt. Qed.
Lemma sweep_slot_S s k : (S k < length (sv_conns s))%nat → sweep_slot s (S k) ≠ cursor_slot s.
Proof.
  intros H E. unfold sweep_slot in E. pose proof (cursor_slot_lt s ltac:(lia)) as Hc.
  destruct (Nat.lt_ge_cases (cursor_slot s + S k) (length (sv_conns s))).
  - rewrite Nat.mod_small in E by done. lia.
  - replace (cursor_slot s + S k)%nat with ((cursor_slot s + S k - length (sv_conns s)) + 1 * length (sv_conns s))%nat in E by lia.
    rewrite Nat.Div0.mod_add, Nat.mod_small in E by lia. lia.
Qed.
(** After one step of the sweep. *)
Lemma sweep_slot_step s s2 k : (0 < length (sv_conns s))%nat → length (sv_conns s2) = length (sv_conns s) → sv_clear_cursor s2 = (cursor_slot s + 1)%nat →
  sweep_slot s2 k = sweep_slot s (S k).
Proof.
  intros Hp El Ec. unfold sweep_slot. unfold cursor_slot at 1. rewrite El, Ec. destruct (Nat.leb_spec (length (sv_conns s)) (cursor_slot s + 1)) as [H|H].
  - pose proof (cursor_slot_lt s Hp). replace (cursor_slot s + S k)%nat with (k + 1 * length (sv_conns s))%nat by lia.
    by rewrite Nat.Div0.mod_add.
  - f_equal. lia.
Qed.
Lemma met_step s s2 k : (S k < length (sv_conns s))%nat → length (sv_conns s2) = length (sv_conns s) →
  sv_clear_cursor s2 = (cursor_slot s + 1)%nat → (∀ i, i ≠ cursor_slot s → sv_conns s2 !! i = sv_conns s !! i) →
  met s (S k) = (match sv_conns s !! cursor_slot s with Some (Some _) => 1 | _ => 0 end) + met s2 k.
Proof.
  intros Hk El Ec Hsame. unfold met. cbn [seq fmap list_fmap live_in]. change (list_fmap _ _ ?f ?l) with (f <$> l).
  rewrite sweep_slot_0 by lia. f_equal. rewrite <-fmap_S_seq, <-list_fmap_compose.
  rewrite (list_fmap_ext (sweep_slot s ∘ S) (sweep_slot s2)) by (intros; cbn; symmetry; apply sweep_slot_step; (done || lia)).
  apply live_in_ext. intros i (j & -> & Hj)%list_elem_of_fmap. symmetry. apply Hsame. rewrite (sweep_slot_step s s2) by (done || lia).
  apply elem_of_seq in Hj. apply sweep_slot_S. lia.
Qed.

(** One pass of the loop. *)
Lemma clear_loop_step fuel s now num cnt visited : cnt < num → visited < zlen (sv_conns s) →
  clear_conns_loop (S fuel) s now num cnt visited =
  let s1 := set_sv_clear_cursor (cursor_slot s + 1) s in
  match sv_conns s !! cursor_slot s with
  | None => panic
  | Some None => clear_conns_loop fuel s1 now num cnt (visited + 1)
  | Some (Some c) =>
      let keep := if bool_decide (sc_state c = Ready)
                  then (now -⟨64⟩ last_hb_recv_time (sc_info c) <=? SERVER_CONN_TIMEOUT_MS) || negb (conv_is_empty (sc_convs c))
                  else now -⟨64⟩ last_state_time (sc_info c) <=? SERVER_HANDSHAKE_TIMEOUT_MS in
      s ← (if negb keep then erase_conn s1 (cursor_slot s) else mret s1);
      clear_conns_loop fuel s now num (cnt + 1) (visited + 1)
  end.
Proof.
  intros H1 H2. cbn [clear_conns_loop]. rewrite (proj2 (Z.ltb_lt _ _) H1), (proj2 (Z.ltb_lt _ _) H2). unfold cursor_slot.
  cbn [andb]. by destruct (_ <=? _)%nat.
Qed.
Lemma timely_erased now s i c k socks' free' : timely now s → timely now (erased (set_sv_clear_cursor k s) i c socks' free').
Proof.
  intros Ht j c0 Hj. destruct (erased_fields (set_sv_clear_cursor k s) i c socks' free') as (Ec & _). unfold conn_at in Hj. rewrite Ec in Hj.
  apply list_lookup_insert_Some in Hj as [(_ & ? & _)|[_ Hj]]; [done|by apply (Ht j)].
Qed.
(** The connection at the cursor is erased exactly if it is stale. *)
Lemma runs_clear_first fuel s now num cnt visited w c : env_ok w → server_inv w s → timely now s → is_u 64 now →
  0 ≤ visited < zlen (sv_conns s) → cnt < num → conn_at s (cursor_slot s) c →
  runs (clear_conns_loop (S fuel) s now num cnt visited) w (λ s' _, sv_conns s' !! cursor_slot s = Some None ↔ stale now c).
Proof.
  intros Hw Hi Ht Hn Hv Hnum Hat. rewrite clear_loop_step by lia. cbv zeta. rewrite (Hat : sv_conns s !! cursor_slot s = Some (Some c)).
  destruct (Ht _ c Hat) as (Ht1 & Ht2 & _). pose proof (keep_stale now c Hn Ht1 Ht2) as Hks. apply runs_bind.
  destruct (if bool_decide (sc_state c = Ready) then _ else _) eqn:Ek; cbn [negb].
  - apply runs_ret. eapply runs_mono; [apply runs_clear_loop; [done|by apply inv_cursor|done|done|lia]|]. intros s' w' [_ Hsw].
    assert (¬ stale now c) as Hns by (intros H%Hks; done). destruct (Hsw (cursor_slot s)) as [E|[(c' & Hc' & Hst) _]].
    + rewrite E. change (sv_conns (set_sv_clear_cursor _ s)) with (sv_conns s). by rewrite (Hat : sv_conns s !! _ = _).
    + unfold conn_at in *. cbn in Hc'. congruence.
  - apply (runs_erase_conn _ (cursor_slot s) c); [done|by apply inv_cursor|done|]. intros socks' free' w' Hf'.
    pose proof Hf' as (Hi' & _ & Hw' & _). eapply runs_mono; [apply runs_clear_loop; [exact Hw'|exact Hi'|by apply timely_erased|exact Hn|lia]|].
    intros s' w2 [_ Hsw]. split; intros _; [by apply Hks|]. eapply swept_none; [exact Hsw|].
    destruct (erased_fields (set_sv_clear_cursor (cursor_slot s + 1) s) (cursor_slot s) c socks' free') as (-> & _).
    apply list_lookup_insert_eq. apply (cursor_slot_lt s). lia.
Qed.
(** Exactly the stale connections among those the sweep inspects are erased. *)
Lemma runs_clear_exact fuel s now num cnt visited w k c : env_ok w → server_inv w s → timely now s → is_u 64 now →
  (k < fuel)%nat → 0 ≤ visited → visited + Z.of_nat k < zlen (sv_conns s) → conn_at s (sweep_slot s k) c →
  runs (clear_conns_loop fuel s now num cnt visited) w
    (λ s' _, sv_conns s' !! sweep_slot s k = Some None ↔ cnt + met s k < num ∧ stale now c).
Proof.
  revert s fuel cnt visited w. induction k as [|k IH]; intros s fuel cnt visited w Hw Hi Ht Hn Hfuel Hv Hlt Hat;
    (destruct fuel as [|fuel]; [lia|]); (destruct (Z.ltb_spec cnt num) as [Hnum|Hnum];
      [|pose proof (live_in_nonneg (sv_conns s)) as Hnn; cbn [clear_conns_loop]; rewrite (proj2 (Z.ltb_ge _ _) Hnum); apply runs_ret;
        rewrite (Hat : sv_conns s !! _ = _); split; [done|]; unfold met; intros [H _]; match type of H with context [live_in _ ?l] => specialize (Hnn l) end; lia]).
  { rewrite sweep_slot_0 in * by lia. eapply runs_mono; [by apply (runs_clear_first _ _ _ _ _ _ _ c); try lia|]. intros s' w' ->.
    unfold met. cbn. split; [intros ?; split; [lia|done]|naive_solver]. }
  assert (S k < length (sv_conns s))%nat as HSk by lia. rewrite clear_loop_step by lia. cbv zeta.
  assert (∀ s2 w2 cnt', env_ok w2 → server_inv w2 s2 → timely now s2 → length (sv_conns s2) = length (sv_conns s) →
    sv_clear_cursor s2 = (cursor_slot s + 1)%nat → (∀ i, i ≠ cursor_slot s → sv_conns s2 !! i = sv_conns s !! i) →
    cnt' = cnt + (match sv_conns s !! cursor_slot s with Some (Some _) => 1 | _ => 0 end) →
    runs (clear_conns_loop fuel s2 now num cnt' (visited + 1)) w2
      (λ s' _, sv_conns s' !! sweep_slot s (S k) = Some None ↔ cnt + met s (S k) < num ∧ stale now c)) as Hnext.
  { intros s2 w2 cnt' Hw2 Hi2 Ht2 El Ec Hsame ->. rewrite (met_step s s2 k) by done. rewrite <-(sweep_slot_step s s2 k) by (done || lia).
    rewrite Z.add_assoc. apply IH; try done; [lia|lia|rewrite El; lia|]. unfold conn_at. rewrite (sweep_slot_step s s2 k) by (done || lia).
    rewrite Hsame; [exact Hat|by apply sweep_slot_S]. }
  destruct (lookup_lt_is_Some_2 _ _ (cursor_slot_lt s ltac:(lia))) as [[c0|] E0]; rewrite E0 in Hnext |- *;
    [|apply Hnext; try done; [by apply inv_cursor|lia]].
  apply runs_bind. destruct (if bool_decide (sc_state c0 = Ready) then _ else _); cbn [negb].
  - apply runs_ret, Hnext; try done. by apply inv_cursor.
  - apply (runs_erase_conn _ (cursor_slot s) c0); [done|by apply inv_cursor|done|]. intros socks' free' w' Hf'.
    destruct (erased_fields (set_sv_clear_cursor (cursor_slot s + 1) s) (cursor_slot s) c0 socks' free') as (Ec & _).
    pose proof Hf' as (Hi' & _ & Hw' & _). apply Hnext; try done; [by apply timely_erased|..].
    + rewrite Ec. by rewrite length_insert.
    + unfold erased. by destruct (bool_decide _).
    + intros i Hii. rewrite Ec. by rewrite list_lookup_insert_ne.
Qed.

Lemma live_conns_pos w s i c : server_inv w s → conn_at s i c → 0 < live_conns s.
Proof.
  intros Hi Hat. pose proof (i_tables _ _ Hi) as Ht. destruct (live_conns_eq w s Hi) as [-> _].
  assert (length (i :: sv_free_conns s) ≤ length (seq 0 (length (sv_conns s))))%nat as Hle.
  { apply submseteq_length, NoDup_submseteq.
    - apply NoDup_cons. split; [|apply Ht]. rewrite (t_free _ _ _ _ _ Ht), view_none, (Hat : sv_conns s !! i = _). congruence.
    - intros j [->|Hj]%elem_of_cons; apply elem_of_seq; [apply lookup_lt_Some in Hat; lia|].
      apply (t_free _ _ _ _ _ Ht), view_none, lookup_lt_Some in Hj. lia. }
  rewrite length_seq in Hle. cbn [length] in Hle. lia.
Qed.

Lemma runs_sweep_exact s now w k c : env_ok w → server_inv w s → timely now s → is_u 64 now →
  sv_last_conn_clear s + CONN_CLEAR_INTERVAL_MS < now → (k < length (sv_conns s))%nat → conn_at s (sweep_slot s k) c →
  runs (clear_inactive_conns s now) w
    (λ s' _, sv_conns s' !! sweep_slot s k = Some None ↔ met s k < sweep_size s ∧ stale now c).
Proof.
  intros Hw Hi Ht Hn Hdue Hk Hat. unfold clear_inactive_conns. pose proof (live_conns_pos w s _ _ Hi Hat) as Hlive.
  replace (saturating_sub now (sv_last_conn_clear s) <=? CONN_CLEAR_INTERVAL_MS) with false
    by (unfold saturating_sub, CONN_CLEAR_INTERVAL_MS in *; destruct (now <? sv_last_conn_clear s) eqn:?; blia).
  cbv zeta. change (live_conns (set_sv_last_conn_clear now s)) with (live_conns s).
  replace (live_conns s =? 0) with false by blia.
  assert (server_inv w (set_sv_last_conn_clear now s)) as Hi' by by destruct Hi.
  apply (runs_clear_exact _ (set_sv_last_conn_clear now s) now (sweep_size s) 0 0 w k c); try done.
  change (0 + Z.of_nat k < zlen (sv_conns s)). lia.
Qed.
Lemma sweep_size_pos s : 0 < live_conns s → 0 < sweep_size s.
Proof. intros H. unfold sweep_size, CONN_CLEAR_MIN, CONN_CLEAR_RATIO. pose proof (Z.div_pos (live_conns s) 50). lia. Qed.

Lemma runs_clear_inactive_conns s now w : env_ok w → server_inv w s → timely now s → is_u 64 now →
  runs (clear_inactive_conns s now) w (λ s' w', fine w s s' w' ∧ swept now s s').
Proof.
  intros Hw Hi Ht Hn. unfold clear_inactive_conns.
  destruct (_ <=? _); [apply runs_ret; split; [by apply fine_refl|reflexivity]|]. cbv zeta.
  assert (server_inv w (set_sv_last_conn_clear now s)) as Hi' by by destruct Hi.
  destruct (_ =? _).
  - apply runs_ret. split; [by split_and!|]. intros j. by left.
  - by apply (runs_clear_loop _ (set_sv_last_conn_clear now s)).
Qed.

(** A ready connection with other conversations, and the sockets that go with them. *)
Lemma inv_convs w s i c c' socks' free' : server_inv w s → conn_at s i c → sc_state c = Ready →
  sc_state c' = Ready → sc_addr c' = sc_addr c → oppsite_const_id (sc_info c') = oppsite_const_id (sc_info c) →
  conn_ok w c' → sockets (at_slot (convs_of s) i (conv_to_data (sc_convs c'))) socks' free' →
  (length (sv_socks s) ≤ length socks')%nat →
  server_inv w (set_sv_free_socks free' (set_sv_socks socks' (put_conn s i c'))).
Proof.
  intros Hi Hat Hst Hst' Ea Ec Hok Hs' Hlen. pose proof Hi as [Ht Hs Hc Hcr Hctx Hp Hhb Hpe].
  set (s' := set_sv_free_socks _ _). constructor; try done.
  - change (view s') with (view (put_conn s i c')). rewrite view_put.
    apply (tables_convs (view s) _ _ _ _ i (abs c) (abs c') Ht); try done. by apply view_at.
  - eapply sockets_ext; [|exact Hs']. intros j. by rewrite <-(convs_of_put s i c c' j Hat).
  - intros j c0 Hj. change (conn_at (put_conn s i c') j c0) in Hj.
    apply conn_at_put_inv in Hj as [[_ ->]|[_ Hj]]; [done|by eapply Hc].
  - cbn. eapply Forall_impl; [exact Hpe|]. cbn. lia.
Qed.

Lemma timely_put now s i c : timely now s → (0 ≤ last_state_time (sc_info c) ≤ now) →
  (0 ≤ last_hb_recv_time (sc_info c) ≤ now) → (0 ≤ last_hb_sent_time (sc_info c) ≤ now) → timely now (put_conn s i c).
Proof. intros Ht H1 H2 H3 j c0 [[_ ->]|[_ Hj]]%conn_at_put_inv; [done|by apply (Ht j)]. Qed.

Lemma runs_timer_slot s now i w : env_ok w → server_inv w s → timely now s → is_u 64 now → now ≤ time w →
  (i < length (sv_conns s))%nat →
  runs (timer_slot s now i) w (λ s' w', fine w s s' w' ∧ timely now s' ∧ length (sv_conns s') = length (sv_conns s)).
Proof using He HP.
  intros Hw Hi Ht Hn Hnow Hlt. unfold timer_slot. destruct (lookup_lt_is_Some_2 _ _ Hlt) as [o Eo]. rewrite Eo.
  destruct o as [c|]; [|apply runs_ret; split; [by apply fine_refl|done]].
  case_bool_decide as Hst; cbn [negb]; [|apply runs_ret; split; [by apply fine_refl|done]].
  assert (conn_at s i c) as Hat by exact Eo. pose proof (i_conns _ _ Hi _ _ Hat) as [H1 H2 H3 H4 H5 H6 H7].
  destruct (Ht i c Hat) as (T1 & T2 & T3).
  destruct (clear_inactive (sc_convs c) now) as [gone convs'] eqn:Eg.
  destruct (clear_inactive_gone _ _ _ _ H6 Eg) as (Hi' & Hnd & Hall & Hlk).
  assert (drop_convs gone (convs_of s i) = conv_to_data convs') as Edrop.
  { apply map_eq. intros cv. rewrite Hlk, (convs_at _ _ _ Hat). apply option_eq. intros x.
    rewrite lookup_drop_convs. destruct (decide (cv ∈ gone.*1)); naive_solver. }
  assert (conv_len convs' ≤ MAX_CONV_NUM) as Hlen.
  { etrans; [|exact H7]. unfold conv_len. apply Nat2Z.inj_le, map_subseteq_size, map_subseteq_spec.
    intros cv x. rewrite Hlk. by destruct (decide _). }
  set (c1 := set_sc_convs convs' c). apply runs_bind.
  apply (runs_close_socks (put_conn s i c1) (convs_of s) i); [done|apply Hi|done|by rewrite (convs_at _ _ _ Hat)|].
  rewrite Edrop. intros w1 socks' free' Hl1 Hw1 Hls Hs'. cbn [sv_socks put_conn set_sv_conns] in Hls.
  assert (conn_ok w1 c1) as Hok1 by (eapply conn_ok_later; [exact Hw|exact Hl1|]; by constructor).
  assert (server_inv w1 (set_sv_free_socks free' (set_sv_socks socks' (put_conn s i c1)))) as Hi1.
  { eapply inv_convs; [apply (inv_later w w1); eassumption|exact Hat|done..|lia]. }
  set (s1 := set_sv_free_socks _ _) in *.
  assert (conn_at s1 i c1) as Hat1 by exact (conn_at_put s i c c1 Hat).
  assert (timely now s1) as Ht1 by exact (timely_put now s i c1 Ht T1 T2 T3).
  assert (fine w s s1 w1) as Hf1 by (split_and!; [done|done|done|cbn; lia]).
  assert (length (sv_conns s1) = length (sv_conns s)) as Hc1 by apply length_insert.
  apply runs_bind. eapply runs_lift; [by apply conn_done|].
  destruct (_ <? _); [by apply runs_ret|].
  apply runs_bind. apply (runs_send_heartbeat s1 i c1); [done|done|done|]. intros p ar w2 Hf2.
  pose proof (fine_trans _ _ _ _ _ _ Hf1 Hf2) as (Hi2 & Hl2 & Hw2 & Hlen2).
  set (s2 := set_sv_pipeline p (put_conn s1 i (reseq ar c1))) in *.
  assert (conn_at s2 i (reseq ar c1)) as Hat2 by exact (conn_at_put s1 i c1 _ Hat1).
  apply runs_bind. eapply runs_lift; [by apply conn_done|]. apply runs_ret. split; [|split].
  - split_and!; [|done|done|done]. eapply inv_put; [exact Hi2|exact Hat2|done|].
    destruct (i_conns _ _ Hi2 _ _ Hat2). constructor; try done. change (past w2 now).
    pose proof (later_time _ _ Hw Hl2). split; [apply Hn|lia].
  - apply timely_put; [|done|done|change (0 ≤ now ≤ now); split; [apply Hn|lia]]. exact (timely_put now s1 i (reseq ar c1) Ht1 T1 T2 T3).
  - unfold put_conn. cbn. by rewrite !length_insert.
Qed.

Lemma runs_timer_slots s now slots w : env_ok w → server_inv w s → timely now s → is_u 64 now → now ≤ time w →
  Forall (λ i, i < length (sv_conns s))%nat slots → runs (timer_slots s now slots) w (fine w s).
Proof using He HP.
  revert s w. induction slots as [|i slots IH]; intros s w Hw Hi Ht Hn Hnow Hall; cbn [timer_slots].
  { by apply runs_ret, fine_refl. }
  apply Forall_cons in Hall as [Hlt Hall]. apply runs_bind. eapply runs_mono; [by apply runs_timer_slot|].
  intros s1 w1 (Hf1 & Ht1 & Hl1). pose proof Hf1 as (Hi1 & Hla & Hw1 & _). eapply runs_fine; [exact Hf1|].
  apply IH; try done; [|by rewrite Hl1]. pose proof (later_time _ _ Hw Hla). lia.
Qed.

Lemma timely_inv w s : server_inv w s → timely (time w) s.
Proof. intros Hi i c Hc. destruct (i_conns _ _ Hi _ _ Hc). by split_and!; try apply co_state_time0; try apply co_recv_time0; try apply co_sent_time0. Qed.

Lemma runs_on_timer s w : env_ok w → server_inv w s → runs (on_timer s) w (fine w s).
Proof using He HP.
  intros Hw Hi. unfold on_timer. apply runs_bind, runs_now_ms; [exact Hw|]. intros now w1 -> Htm Hl1 _ Hw1.
  pose proof (fine_later _ _ _ Hw Hw1 Hl1 Hi) as Hf1. pose proof Hf1 as (Hi1 & _).
  assert (is_u 64 (time w)) as Hn by apply (eo_clock_64 w Hw). pose proof (timely_inv _ _ Hi) as Ht.
  apply runs_bind. eapply runs_mono; [by apply runs_clear_inactive_conns|].
  intros s2 w2 [Hf2 Hsw]. pose proof (fine_trans _ _ _ _ _ _ Hf1 Hf2) as Hf. pose proof Hf as (Hi2 & Hl2 & Hw2 & _).
  eapply runs_fine; [exact Hf|]. apply runs_timer_slots; [done|done|by eapply swept_timely|done| |].
  - by apply later_time.
  - apply Forall_forall. intros j [_ Hj]%elem_of_seq. lia.
Qed.

(** ** Completions *)

Lemma alloc_sock_ok s (f : nat → gmap Z nat) slot conv fd :
  sockets f (sv_socks s) (sv_free_socks s) → f slot !! conv = None →
  ∃ i socks' free', alloc_sock s (mkConvSock fd slot conv) = Done (i, set_sv_free_socks free' (set_sv_socks socks' s)) ∧
    (length (sv_socks s) ≤ length socks')%nat ∧ socks' !! i = Some (Some (mkConvSock fd slot conv)) ∧
    (∀ slot' conv', f slot' !! conv' ≠ Some i) ∧
    sockets (at_slot f slot (<[conv := i]> (f slot))) socks' free'.
Proof.
  intros Hs Hn. set (cs := mkConvSock fd slot conv).
  assert (∀ i, (∀ cs, sv_socks s !! i ≠ Some (Some cs)) → ∀ slot' conv', f slot' !! conv' ≠ Some i) as Hfresh.
  { intros i Hi slot' conv' [fd' E]%(s_fwd _ _ _ Hs). by apply Hi in E. }
  unfold alloc_sock. destruct (sv_free_socks s) as [|i free] eqn:Ef.
  - exists (length (sv_socks s)), (sv_socks s ++ [Some cs]), []. split.
    { cbn [sv_socks set_sv_socks]. rewrite length_app. cbn [length]. rewrite Nat.add_sub.
      do 2 f_equal. by destruct s; cbn in *; subst. }
    assert (∀ cs, sv_socks s !! length (sv_socks s) ≠ Some (Some cs)) as Hno by (intros cs' E%lookup_lt_Some; lia).
    split; [rewrite length_app; lia|]. split; [by apply list_lookup_middle|]. split; [by apply Hfresh|].
    eapply sockets_open; [exact Hs|done|done| |constructor|].
    + intros j x. rewrite lookup_snoc_Some. split.
      * intros [[Hj E]|[-> <-]]; [right; split; [lia|done]|by left].
      * intros [[-> ->]|[Hne E]]; [by right|]. left. split; [|done]. by eapply lookup_lt_Some.
    + intros j. split; [by intros ?%elem_of_nil|]. intros [?%elem_of_nil _]. done.
  - assert (sv_socks s !! i = Some None) as Ei by (apply (s_free _ _ _ Hs); by left).
    pose proof (lookup_lt_Some _ _ _ Ei) as Hlt. pose proof (s_nodup _ _ _ Hs) as [Hni Hnd]%NoDup_cons.
    exists i, (<[i := Some cs]> (sv_socks s)), free. split.
    { cbn [sv_socks set_sv_free_socks]. by rewrite (proj2 (Nat.ltb_lt _ _) Hlt). }
    assert (∀ cs, sv_socks s !! i ≠ Some (Some cs)) as Hno by (intros cs' E; congruence).
    split; [by rewrite length_insert|]. split; [by apply list_lookup_insert_eq|]. split; [by apply Hfresh|].
    eapply sockets_open; [exact Hs|done|done| |done|].
    + intros j x. destruct (decide (j = i)) as [->|].
      * rewrite list_lookup_insert_eq by done. clear. naive_solver.
      * rewrite list_lookup_insert_ne by done. clear -n0. naive_solver.
    + intros j. rewrite elem_of_cons. clear -Hni. naive_solver.
Qed.

(** A ready connection stays where it is, ready. *)
Definition stays (s : Server) (i : nat) (s' : Server) : Prop := ∀ c, conn_at s i c → sc_state c = Ready →
  ∃ c', conn_at s' i c' ∧ sc_state c' = Ready.
Lemma stays_refl s i : stays s i s.
Proof. intros c0 H0 H1. by exists c0. Qed.
Lemma stays_put s i c s' : sv_conns s' = sv_conns (put_conn s i c) → sc_state c = Ready → stays s i s'.
Proof. intros E Hst c0 H0 _. exists c. split; [|done]. unfold conn_at. rewrite E. by eapply (conn_at_put s i c0). Qed.
Lemma stays_trans s1 s2 s3 i : stays s1 i s2 → stays s2 i s3 → stays s1 i s3.
Proof. intros H1 H2 c Hc Hs. destruct (H1 c Hc Hs) as (c' & Hc' & Hs'). by apply (H2 c'). Qed.

(** The conversation is open: its connection is ready and knows its socket. *)
Definition open_at (s : Server) (i : nat) (conv : Z) : Prop :=
  ∃ c sidx, conn_at s i c ∧ sc_state c = Ready ∧ conv_to_data (sc_convs c) !! conv = Some sidx.

Lemma runs_open_conv s i c conv now w : env_ok w → server_inv w s → conn_at s i c → sc_state c = Ready → past w now →
  conv_to_data (sc_convs c) !! conv = None →
  runs (open_conv s i conv now) w (λ r w', fine w s r.2 w' ∧ stays s i r.2 ∧ (r.1 = true → open_at r.2 i conv)).
Proof.
  intros Hw Hi Hat Hst Hnow Hfr. unfold open_conv. apply runs_bind. eapply runs_lift; [by apply conn_done|].
  pose proof (stays_refl s i) as Hstay.
  destruct (Z.leb_spec MAX_CONV_NUM (conv_len (sc_convs c))) as [|Hroom]; [apply runs_ret; split; [by apply fine_refl|done]|].
  apply runs_bind, runs_next_sock; [exact Hw|]. intros o w1 Hl1 _ Hw1. pose proof (fine_later _ _ _ Hw Hw1 Hl1 Hi) as Hf1.
  destruct o as [fd|]; [|by apply runs_ret].
  destruct (alloc_sock_ok s (convs_of s) i conv fd (i_sockets _ _ Hi))
    as (sidx & socks' & free' & Ea & Hlen & Esock & Hnew & Hs'); [by rewrite (convs_at _ _ _ Hat)|].
  apply runs_bind. eapply runs_lift; [exact Ea|]. cbv beta iota.
  apply runs_bind, runs_next_reg; [exact Hw1|]. intros reg w2 Hl2 _ Hw2. assert (later w w2) as Hl by by transitivity w1.
  destruct reg; cbn [negb].
  - apply runs_bind, runs_emit; [exact Hw2|]. intros w3 Hl3 _ Hw3. assert (later w w3) as Hl' by by transitivity w2.
    apply runs_bind. eapply runs_lift; [by apply conn_done|]. apply runs_ret. cbn [fst snd].
    set (c' := set_sc_convs _ c). pose proof (inv_later _ _ _ Hw Hl' Hi) as Hi3.
    assert (conv_inv (sc_convs c')) as Hcv.
    { apply conv_inv_insert; [apply (i_conns _ _ Hi _ _ Hat)|done|].
      destruct (data_to_conv (sc_convs c) !! sidx) as [cv|] eqn:E; [|done]. exfalso.
      apply (ci_bwd _ (co_convs _ _ (i_conns _ _ Hi _ _ Hat))) in E. apply (Hnew i cv). by rewrite (convs_at _ _ _ Hat). }
    split; [|split].
    + split_and!; [|exact Hl'|exact Hw3|cbn; lia].
      change (put_conn (set_sv_free_socks free' (set_sv_socks socks' s)) i c')
        with (set_sv_free_socks free' (set_sv_socks socks' (put_conn s i c'))).
      eapply inv_convs; [exact Hi3|exact Hat|done|done|done|done| | |done].
      * destruct (i_conns _ _ Hi3 _ _ Hat). constructor; try done. unfold conv_len in *. cbn.
        rewrite map_size_insert_None by done. lia.
      * rewrite (convs_at _ _ _ Hat) in Hs'. exact Hs'.
    + by eapply (stays_put s i c').
    + intros _. exists c', sidx. split; [by eapply (conn_at_put s i c)|]. split; [done|]. cbn. by rewrite lookup_insert_eq.
  - apply runs_bind. unfold close_sock. cbn [sv_socks set_sv_free_socks set_sv_socks]. rewrite Esock.
    apply runs_bind, runs_emit; [exact Hw2|]. intros w3 Hl3 _ Hw3. assert (later w w3) as Hl' by by transitivity w2.
    do 2 apply runs_ret. cbn [fst snd]. split; [|split; [|done]].
    + split_and!; [|exact Hl'|exact Hw3|cbn; rewrite length_insert; lia].
      pose proof (inv_later _ _ _ Hw Hl' Hi) as [Ht Hs Hc Hcr Hctx Hp Hhb Hpe]. constructor; try done.
      * eapply sockets_ext; [|apply (sockets_close _ _ _ i conv sidx Hs'); rewrite at_slot_eq; apply lookup_insert_eq].
        intros j. destruct (decide (j = i)) as [->|]; [|by rewrite !at_slot_ne].
        rewrite !at_slot_eq. rewrite delete_insert_id; [done|]. by rewrite (convs_at _ _ _ Hat).
      * cbn. eapply Forall_impl; [exact Hpe|]. intros j. rewrite length_insert. lia.
    + intros c0 H0 H1. by exists c0.
Qed.

(** The last part of [on_ready_packet]: the datagram goes to the conversation's socket. *)
Lemma runs_forward s i conv now data w : env_ok w → server_inv w s → open_at s i conv →
  runs (c ← lift (conn s i);
        match find_data_by_conv (sc_convs c) conv with
        | None => panic
        | Some sidx =>
            let s := put_conn s i (set_sc_convs (update_active_time (sc_convs c) conv now) c) in
            match sv_socks s !! sidx with
            | None => panic
            | Some None => mret s
            | Some (Some cs) => emit (EvUdp (cs_sock cs) data);; mret s
            end
        end) w (λ s' w', fine w s s' w' ∧ stays s i s').
Proof.
  intros Hw Hi (c & sidx & Hat & Hst & Hcv). apply runs_bind. eapply runs_lift; [by apply conn_done|].
  unfold find_data_by_conv. rewrite Hcv. cbv zeta. set (c' := set_sc_convs _ c).
  assert (conv_to_data (sc_convs c') = conv_to_data (sc_convs c)) as Ec.
  { cbn. unfold update_active_time. destruct (last_active _ !! conv); [|done]. by destruct (_ =? now). }
  assert (server_inv w (put_conn s i c')) as Hi'.
  { eapply inv_put; [exact Hi|exact Hat|by unfold abs; rewrite Ec|].
    destruct (i_conns _ _ Hi _ _ Hat). constructor; try done; [by apply conv_inv_update|]. unfold conv_len in *. by rewrite Ec. }
  destruct (s_fwd _ _ _ (i_sockets _ _ Hi) i conv sidx) as [fd Efd]; [by rewrite (convs_at _ _ _ Hat)|].
  change (sv_socks (put_conn s i c')) with (sv_socks s). rewrite Efd.
  assert (stays s i (put_conn s i c')) as Hstay by by eapply stays_put.
  apply runs_bind, runs_emit; [exact Hw|]. intros w1 Hl1 _ Hw1. apply runs_ret. split; [|exact Hstay].
  split_and!; [by apply (inv_later w w1)|exact Hl1|exact Hw1|done].
Qed.

Lemma runs_ready_packet s i c ptype payload w : env_ok w → server_inv w s → conn_at s i c → sc_state c = Ready →
  runs (on_ready_packet s i ptype payload) w (λ s' w', fine w s s' w' ∧ stays s i s').
Proof.
  intros Hw Hi Hat Hst. unfold on_ready_packet. apply runs_bind, runs_now_ms; [exact Hw|].
  intros now w1 Enow Htm Hl1 _ Hw1. pose proof (fine_later _ _ _ Hw Hw1 Hl1 Hi) as Hf1. pose proof Hf1 as (Hi1 & _).
  assert (past w1 now) as Hnow by (subst now; split; [apply (eo_clock w Hw)|exact Htm]).
  apply runs_bind. eapply runs_lift; [by apply conn_done|]. set (c1 := upd_info (set_last_hb_recv_time now) c).
  assert (fine w s (put_conn s i c1) w1) as Hf2.
  { split_and!; [|exact Hl1|exact Hw1|done]. eapply inv_put; [exact Hi1|exact Hat|done|].
    destruct (i_conns _ _ Hi1 _ _ Hat). by constructor. }
  assert (stays s i (put_conn s i c1)) as Hs2 by by eapply stays_put.
  destruct (ptype =? TYPE_HEARTBEAT); [by apply runs_ret|].
  destruct (negb _); [apply runs_ret; split; [done|apply stays_refl]|].
  destruct (parse_data_total payload) as (r & Er). apply runs_bind. eapply runs_lift; [exact Er|].
  destruct r as [[conv data]|]; [|apply runs_ret; split; [done|apply stays_refl]]. cbv zeta.
  set (s1 := if cfg_hb_mode (sv_cfg s) =? 0 then put_conn s i c1 else s).
  assert (∃ c2, conn_at s1 i c2 ∧ sc_state c2 = Ready ∧ sc_convs c2 = sc_convs c ∧ fine w s s1 w1 ∧ stays s i s1)
    as (c2 & Hat2 & Hst2 & Ecv & Hf3 & Hs3).
  { unfold s1. destruct (_ =? 0); [exists c1|exists c]; split_and!; try done; [by eapply conn_at_put|apply stays_refl]. }
  clearbody s1. pose proof Hf3 as (Hi3 & _). apply runs_bind.
  assert (∀ s2 w2, fine w s s2 w2 → stays s i s2 → open_at s2 i conv → runs
    (c ← lift (conn s2 i);
     match find_data_by_conv (sc_convs c) conv with
     | None => panic
     | Some sidx =>
         let s := put_conn s2 i (set_sc_convs (update_active_time (sc_convs c) conv now) c) in
         match sv_socks s !! sidx with
         | None => panic
         | Some None => mret s
         | Some (Some cs) => emit (EvUdp (cs_sock cs) data);; mret s
         end
     end) w2 (λ s' w', fine w s s' w' ∧ stays s i s')) as Hfwd.
  { intros s2 w2 Hf Hs Ho. pose proof Hf as (Hi2 & _ & Hw2 & _). eapply runs_mono; [by apply runs_forward|].
    intros s' w' [Hf' Hs']. split; [exact (fine_trans _ _ _ _ _ _ Hf Hf')|exact (stays_trans _ _ _ _ Hs Hs')]. }
  destruct (is_conv_used (sc_convs c) conv) eqn:Eu; cbn [negb].
  - apply runs_ret. cbv beta iota. apply Hfwd; [exact Hf3|exact Hs3|]. unfold is_conv_used in Eu.
    apply bool_decide_eq_true in Eu as [sidx Eu]. exists c2, sidx. by rewrite Ecv.
  - apply is_conv_used_false in Eu. eapply runs_mono; [eapply (runs_open_conv s1 i c2); try done; by rewrite Ecv|].
    intros [ok s2] w2 (Hf & Hs & Ho). cbn [fst snd] in *. pose proof (fine_trans _ _ _ _ _ _ Hf3 Hf) as Hf4.
    pose proof (stays_trans _ _ _ _ Hs3 Hs) as Hs4. destruct ok; cbn [negb]; [|by apply runs_ret]. by apply Hfwd, Ho.
Qed.

Lemma runs_accept_plains s i c plains any w : env_ok w → server_inv w s → conn_at s i c → sc_state c = Ready →
  runs (accept_plains s i plains any) w (λ r w', fine w s r.2 w' ∧ stays s i r.2).
Proof.
  revert s c any w. induction plains as [|p plains IH]; intros s c any w Hw Hi Hat Hst; cbn [accept_plains].
  { apply runs_ret. split; [by apply fine_refl|apply stays_refl]. }
  apply runs_bind. eapply runs_lift; [by apply conn_done|]. pose proof (i_conns _ _ Hi _ _ Hat) as Hok.
  apply runs_bind, accept_roller; [exact Hw|apply Hok|]. intros o info' w1 Hc Hm Hl1 Hw1 Ho. cbn [fst snd].
  set (c1 := set_sc_info info' c).
  assert (fine w s (put_conn s i c1) w1) as Hf1.
  { split_and!; [|exact Hl1|exact Hw1|done]. unfold conn_core in Hc. injection Hc as E1 E2 E3 E4 E5 E6 E7.
    eapply inv_put; [apply (inv_later w w1); eassumption|exact Hat|by unfold abs; cbn; rewrite E7|].
    destruct (conn_ok_later _ _ _ Hw Hl1 Hok). constructor; cbn; try done; congruence. }
  assert (stays s i (put_conn s i c1)) as Hs1 by by eapply stays_put.
  assert (conn_at (put_conn s i c1) i c1) as Hat1 by by eapply conn_at_put.
  pose proof Hf1 as (Hi1 & _).
  assert (∀ s2 w2 any', fine w s s2 w2 → stays s i s2 →
    runs (accept_plains s2 i plains any') w2 (λ r w', fine w s r.2 w' ∧ stays s i r.2)) as Hnext.
  { intros s2 w2 any' Hf Hs. pose proof Hf as (Hi2 & _ & Hw2 & _). destruct (Hs c Hat Hst) as (c2 & Hat2 & Hst2).
    eapply runs_mono; [by eapply IH|]. intros r w' [Hf' Hs'].
    split; [exact (fine_trans _ _ _ _ _ _ Hf Hf')|exact (stays_trans _ _ _ _ Hs Hs')]. }
  destruct o as [[ptype off]|]; [|by apply Hnext]. destruct (Ho ptype off eq_refl) as [-> Hlen].
  apply runs_bind. eapply runs_lift; [apply slice_from_Done; unfold SAFER_HEADER_LEN in *; lia|].
  apply runs_bind. eapply runs_mono; [by eapply (runs_ready_packet (put_conn s i c1) i c1)|].
  intros s2 w2 [Hf2 Hs2]. apply Hnext; [exact (fine_trans _ _ _ _ _ _ Hf1 Hf2)|exact (stays_trans _ _ _ _ Hs1 Hs2)].
Qed.

Lemma valid_ready_at s key : valid_ready s key = true →
  ∃ c, conn_at s (jk_slot key) c ∧ sc_state c = Ready ∧ sc_generation c = jk_generation key.
Proof.
  unfold valid_ready, conn_at. destruct (sv_conns s !! _) as [[c|]|]; try done. intros [Hg Hs]%andb_true_iff.
  exists c. split; [done|]. apply bool_decide_eq_true in Hs. split; [done|lia].
Qed.

Lemma runs_on_done s d w : env_ok w → server_inv w s → done_ok d → runs (on_done s d) w (fine w s).
Proof.
  intros Hw Hi Hd. pose proof (fine_refl w s Hw Hi) as Hf0. destruct d as [key [x|]|key plains meta]; cbn [on_done].
  - destruct (valid_ready s key) eqn:Ev; [|by apply ret_fine]. apply valid_ready_at in Ev as (c & Hat & _ & _).
    apply runs_bind. eapply runs_lift; [by apply conn_done|]. destruct (i_ctx _ _ Hi) as [Hctx _].
    apply runs_bind, runs_transmit_safer; [exact Hw|exact Hctx|apply (i_conns _ _ Hi _ _ Hat)| |].
    { destruct Hd as [Hb Hl]. split; [exact Hb|lia]. }
    intros ctx' raw' w1 Ec Hr Hl1 Hw1. apply ret_fine. cbn [fst snd]. split_and!; [|exact Hl1|exact Hw1|done].
    apply inv_put_raw; [|exact Hat|exact Hr]. apply inv_set_ctx; [by apply (inv_later w w1)|exact Ec].
  - by apply ret_fine.
  - destruct (valid_ready s key) eqn:Ev; cbn [negb]; [|by apply ret_fine].
    apply valid_ready_at in Ev as (c & Hat & Hst & _). destruct plains as [|p plains]; [by apply ret_fine|].
    apply runs_bind. eapply runs_mono; [by eapply runs_accept_plains|]. intros [any s1] w1 [Hf1 Hs1]. cbn [fst snd] in *.
    destruct any; [|by apply ret_fine]. pose proof Hf1 as (Hi1 & _ & Hw1 & _). destruct (Hs1 c Hat Hst) as (c1 & Hat1 & Hst1).
    apply runs_bind. eapply runs_lift; [by apply conn_done|]. apply ret_fine.
    eapply fine_trans; [exact Hf1|]. split_and!; [|reflexivity|exact Hw1|done].
    eapply inv_put; [exact Hi1|exact Hat1|done|]. destruct Hd as [Hd1 Hd2].
    destruct (i_conns _ _ Hi1 _ _ Hat1). constructor; try done. by apply after_recv_ok.
Qed.

Lemma runs_on_dones s ds w : env_ok w → server_inv w s → Forall done_ok ds → runs (on_dones s ds) w (fine w s).
Proof.
  intros Hw Hi Hds. revert s w Hw Hi. induction Hds as [|d ds Hd _ IH]; intros s w Hw Hi; cbn [on_dones].
  { by apply ret_fine, fine_refl. }
  apply runs_bind. eapply runs_mono; [by apply runs_on_done|]. intros s1 w1 Hf1. pose proof Hf1 as (Hi1 & _ & Hw1 & _).
  eapply runs_fine; [exact Hf1|]. by apply IH.
Qed.

Lemma runs_collect s w : env_ok w → server_inv w s → runs (server_collect s) w (fine w s).
Proof using He HP.
  intros Hw Hi. unfold server_collect. destruct (i_pipe _ _ Hi) as (subs & outs & Hr & Hj).
  apply runs_bind. eapply runs_mono; [by apply (runs_collect_among cr cm am legacy keys He n gro subs outs)|]. intros [ds p'] w1 (Hr' & Hl1 & Hw1 & _). cbn [fst snd] in *.
  pose proof (delivered_ok cr cm am legacy keys He n gro _ _ _ Hr' Hj) as Hd. apply Forall_app in Hd as [_ Hd].
  assert (fine w s (set_sv_pipeline p' s) w1) as Hf.
  { split_and!; [|done|done|done]. apply inv_set_pipe; [by apply (inv_later w w1)|]. by exists subs, (outs ++ ds). }
  eapply runs_fine; [exact Hf|]. apply runs_on_dones; [exact Hw1|apply Hf|exact Hd].
Qed.

(** ** The UDP side *)
(** A handler that leaves the sockets alone. *)
Definition same_socks (s s' : Server) : Prop := sv_socks s' = sv_socks s ∧ length (sv_conns s') = length (sv_conns s).

Lemma runs_sock_packet s i conv data w : env_ok w → server_inv w s → bytes data → (i < length (sv_conns s))%nat →
  runs (on_sock_packet s i conv data) w (λ s' w', fine w s s' w' ∧ same_socks s s').
Proof using He HP.
  intros Hw Hi Hb Hlt. unfold on_sock_packet.
  assert (fine w s s w ∧ same_socks s s) as Hsame by (split; [by apply fine_refl|done]).
  destruct (_ =? _); [by apply runs_ret|]. destruct (lookup_lt_is_Some_2 _ _ Hlt) as [o Eo]. rewrite Eo.
  destruct o as [c|]; [|by apply runs_ret]. destruct (negb _); [by apply runs_ret|].
  assert (conn_at s i c) as Hat by exact Eo. pose proof (i_conns _ _ Hi _ _ Hat) as Hok.
  destruct (prepare_safer_data (sc_info c) conv data) as [plain info] eqn:Ep.
  destruct (prepare_safer_data_ok _ _ _ _ _ (co_roller _ _ Hok) Hb Ep) as (Hpb & Hpl & ar & ->).
  change (set_sc_info (set_anti_replay ar (sc_info c)) c) with (reseq ar c).
  assert (server_inv w (put_conn s i (reseq ar c))) as Hi'.
  { eapply inv_put; [exact Hi|exact Hat|reflexivity|]. destruct Hok. by constructor. }
  apply runs_submit_job; [exact Hw|exact Hi'|exact (conj Hpb Hpl)|]. intros p w' Hf. split; [exact Hf|].
  split; [done|]. apply length_insert.
Qed.

Lemma runs_udp_batch s i conv pkts w : env_ok w → server_inv w s → Forall bytes pkts → (i < length (sv_conns s))%nat →
  runs (udp_batch s i conv pkts) w (λ s' w', fine w s s' w' ∧ same_socks s s').
Proof using He HP.
  intros Hw Hi Hb. revert s w Hw Hi. induction Hb as [|p pkts Hp _ IH]; intros s w Hw Hi Hlt; cbn [udp_batch].
  { apply runs_ret. split; [by apply fine_refl|done]. }
  apply runs_bind. eapply runs_mono; [by apply runs_sock_packet|]. intros s1 w1 [Hf1 [E1 E2]].
  pose proof Hf1 as (Hi1 & _ & Hw1 & _). eapply runs_mono; [apply IH; [exact Hw1|exact Hi1|lia]|].
  intros s2 w2 [Hf2 [E3 E4]]. split; [exact (fine_trans _ _ _ _ _ _ Hf1 Hf2)|]. split; congruence.
Qed.

Lemma runs_sock_readable s sidx batches rounds w : env_ok w → server_inv w s → Forall (Forall bytes) batches →
  (sidx < length (sv_socks s))%nat →
  runs (on_sock_readable s sidx batches rounds) w (λ r w', fine w s r.2 w' ∧ sv_socks r.2 = sv_socks s).
Proof using He HP.
  intros Hw Hi Hb. revert s rounds w Hw Hi. induction Hb as [|b batches Hb _ IH]; intros s rounds w Hw Hi Hlt;
    cbn [on_sock_readable]; destruct (lookup_lt_is_Some_2 _ _ Hlt) as [o Eo]; rewrite Eo;
    (destruct o as [cs|]; [|apply runs_ret; split; [by apply fine_refl|done]]).
  { apply runs_ret. split; [by apply fine_refl|done]. }
  pose proof (s_bwd _ _ _ (i_sockets _ _ Hi) _ _ Eo) as Hcv. unfold convs_of in Hcv.
  destruct (sv_conns s !! cs_conn_slot cs) as [[c|]|] eqn:Ec; [|by rewrite lookup_empty in Hcv..].
  apply runs_bind. eapply runs_mono; [apply (runs_udp_batch s (cs_conn_slot cs) (cs_conv cs) b w Hw Hi Hb)|].
  { by eapply lookup_lt_Some. }
  intros s1 w1 [Hf1 [E1 _]]. pose proof Hf1 as (Hi1 & _ & Hw1 & _). cbv zeta.
  destruct (_ <? _); [by apply runs_ret|]. destruct (_ <=? _); [by apply runs_ret|].
  eapply runs_mono; [apply IH; [exact Hw1|exact Hi1|by rewrite E1]|].
  intros r w2 [Hf2 E2]. split; [exact (fine_trans _ _ _ _ _ _ Hf1 Hf2)|congruence].
Qed.

Lemma inv_pending_set w s l : server_inv w s → Forall (λ i, i < length (sv_socks s))%nat l →
  server_inv w (set_sv_socks_pending l s).
Proof. intros [] Hl. by constructor. Qed.
Lemma inv_raw_pending w s b : server_inv w s → server_inv w (set_sv_raw_pending b s).
Proof. intros []. by constructor. Qed.

Lemma runs_sock_loop s udp pending w : env_ok w → server_inv w s → (∀ i, Forall (Forall bytes) (udp i)) →
  Forall (λ i, i < length (sv_socks s))%nat pending → runs (sock_loop s udp pending) w (fine w s).
Proof using He HP.
  intros Hw Hi Hu. revert s w Hw Hi. induction pending as [|sidx pending IH]; intros s w Hw Hi Hall; cbn [sock_loop].
  { by apply ret_fine, fine_refl. }
  apply Forall_cons in Hall as [Hlt Hall]. apply runs_bind. eapply runs_mono; [by apply runs_sock_readable|].
  intros [more s1] w1 [Hf1 E1]. cbn [fst snd] in *. pose proof Hf1 as (Hi1 & Hl1 & Hw1 & Hlen).
  set (s2 := if more then _ else s1).
  assert (fine w s s2 w1 ∧ sv_socks s2 = sv_socks s1) as [Hf2 E2].
  { unfold s2. destruct more; [|done]. split; [|done]. split_and!; [|done|done|done].
    apply inv_pending_set; [done|]. apply Forall_app_2; [apply Hi1|]. constructor; [by rewrite E1|constructor]. }
  clearbody s2. pose proof Hf2 as (Hi2 & _). eapply runs_fine; [exact Hf2|]. apply IH; [exact Hw1|exact Hi2|].
  by rewrite E2, E1.
Qed.

(** ** The event loop *)
Lemma runs_raw_batch s pkts w : env_ok w → server_inv w s → Forall rx_ok pkts → runs (raw_batch s pkts) w (fine w s).
Proof using He HP.
  intros Hw Hi Hp. revert s w Hw Hi. induction Hp as [|p pkts (H1 & H2 & H3 & H4) _ IH]; intros s w Hw Hi; cbn [raw_batch].
  { by apply ret_fine, fine_refl. }
  apply runs_bind. eapply runs_mono; [by apply runs_raw_packet|]. intros s1 w1 Hf1. pose proof Hf1 as (Hi1 & _ & Hw1 & _).
  eapply runs_fine; [exact Hf1|]. by apply IH.
Qed.
Lemma runs_raw_readable s batches rounds w : env_ok w → server_inv w s → Forall (Forall rx_ok) batches →
  runs (on_raw_readable s batches rounds) w (λ r w', fine w s r.2 w').
Proof using He HP.
  intros Hw Hi Hb. revert s rounds w Hw Hi. induction Hb as [|b batches Hb _ IH]; intros s rounds w Hw Hi; cbn [on_raw_readable].
  { apply runs_ret. by apply fine_refl. }
  apply runs_bind. eapply runs_mono; [by apply runs_raw_batch|]. intros s1 w1 Hf1. pose proof Hf1 as (Hi1 & _ & Hw1 & _).
  cbv zeta. destruct (_ <? _); [by apply runs_ret|]. destruct (_ <=? _); [by apply runs_ret|].
  eapply runs_mono; [by apply IH|]. intros r w2 Hf2. exact (fine_trans _ _ _ _ _ _ Hf1 Hf2).
Qed.

Definition inputs_ok (s : Server) (inp : Inputs) : Prop :=
  Forall (λ t, t < TOK_SOCK_BASE + length (sv_socks s))%nat (in_tokens inp) ∧ Forall (Forall rx_ok) (in_raw inp) ∧
  ∀ i, Forall (Forall bytes) (in_udp inp i).

Lemma inv_tokens w s ts : server_inv w s → Forall (λ t, t < TOK_SOCK_BASE + length (sv_socks s))%nat ts →
  server_inv w (foldl on_token s ts) ∧ sv_socks (foldl on_token s ts) = sv_socks s.
Proof.
  revert s. induction ts as [|t ts IH]; intros s Hi Hts; cbn [foldl]; [done|]. apply Forall_cons in Hts as [Ht Hts].
  assert (server_inv w (on_token s t) ∧ sv_socks (on_token s t) = sv_socks s) as [Hi' Es].
  { unfold on_token. destruct (_ =? _)%nat; [split; [by apply inv_raw_pending|done]|].
    destruct (Nat.leb_spec TOK_SOCK_BASE t); [|done]. case_bool_decide; [done|]. split; [|done].
    apply inv_pending_set; [done|]. apply Forall_app_2; [apply Hi|]. constructor; [lia|constructor]. }
  destruct (IH (on_token s t) Hi') as [Hi2 E2]; [by rewrite Es|]. split; [exact Hi2|congruence].
Qed.

Lemma runs_round s last inp w : env_ok w → server_inv w s → inputs_ok s inp →
  runs (server_round s last inp) w (λ r w', fine w s r.2 w').
Proof using He HP.
  intros Hw Hi (Htok & Hraw & Hudp). unfold server_round. destruct (inv_tokens w s _ Hi Htok) as [Hi0 E0].
  set (s0 := foldl on_token s (in_tokens inp)) in *. clearbody s0. cbv zeta.
  assert (fine w s s0 w) as Hf0 by (split_and!; [done|done|done|by rewrite E0]).
  apply runs_bind.
  assert (∀ s1 w1, fine w s s1 w1 → runs
    (self ← sock_loop (set_sv_socks_pending [] s1) (in_udp inp) (sv_socks_pending s1);
     self ← server_collect self;
     now ← now_ms;
     r ← (if TIMER_INTERVAL_MS <=? saturating_sub now last
          then self ← on_timer self; self ← server_collect self; mret (now, self) else mret (last, self));
     ctx ← flush_tx (sv_ctx r.2);
     mret (r.1, set_sv_ctx ctx r.2)) w1 (λ (r : Z * Server) w', fine w s r.2 w')) as Hk.
  { intros s1 w1 Hf1. pose proof Hf1 as (Hi1 & _ & Hw1 & Hlen1).
    assert (fine w s (set_sv_socks_pending [] s1) w1) as Hf1'.
    { split_and!; [|apply Hf1..]. apply inv_pending_set; [done|constructor]. }
    apply runs_bind. eapply runs_mono; [apply runs_sock_loop; [exact Hw1|apply Hf1'|exact Hudp|apply Hi1]|].
    intros s2 w2 Hf2. pose proof (fine_trans _ _ _ _ _ _ Hf1' Hf2) as Hf. clear Hf2. pose proof Hf as (Hi2 & _ & Hw2 & _).
    apply runs_bind. eapply runs_mono; [apply runs_collect; [exact Hw2|exact Hi2]|].
    intros s3 w3 Hf3'. pose proof (fine_trans _ _ _ _ _ _ Hf Hf3') as Hf3. clear Hf3'. pose proof Hf3 as (Hi3 & _ & Hw3 & _).
    apply runs_bind, runs_now_ms; [exact Hw3|]. intros now w4 _ _ Hl4 _ Hw4.
    pose proof (fine_trans _ _ _ _ _ _ Hf3 (fine_later _ _ _ Hw3 Hw4 Hl4 Hi3)) as Hf4.
    assert (∀ (r : Z * Server) w5, fine w s r.2 w5 →
      runs (ctx ← flush_tx (sv_ctx r.2); mret (r.1, set_sv_ctx ctx r.2)) w5 (λ (r : Z * Server) w', fine w s r.2 w')) as Hend.
    { intros r w5 Hf5. pose proof Hf5 as (Hi5 & Hl5 & Hw5 & Hlen5). apply runs_bind, runs_flush_tx; [exact Hw5|].
      intros pool dropped sent w6 _ Hl6 Hw6 _. apply runs_ret. cbn [snd].
      split_and!; [|by transitivity w5|exact Hw6|exact Hlen5].
      apply inv_set_ctx; [by apply (inv_later w5 w6)|done]. }
    apply runs_bind. destruct (_ <=? _); [|apply runs_ret; by apply Hend].
    pose proof Hf4 as (Hi4 & _). apply runs_bind. eapply runs_mono; [apply runs_on_timer; [exact Hw4|exact Hi4]|].
    intros s5 w5 Hf5'. pose proof (fine_trans _ _ _ _ _ _ Hf4 Hf5') as Hf5. clear Hf5'. pose proof Hf5 as (Hi5 & _ & Hw5 & _).
    apply runs_bind. eapply runs_mono; [apply runs_collect; [exact Hw5|exact Hi5]|].
    intros s6 w6 Hf6'. pose proof (fine_trans _ _ _ _ _ _ Hf5 Hf6') as Hf6. apply runs_ret. by apply Hend. }
  destruct (sv_raw_pending s0); [|by apply runs_ret, Hk].
  apply runs_bind. eapply runs_mono; [by apply runs_raw_readable|]. intros [more s1] w1 Hf1'. cbn [fst snd] in *.
  pose proof (fine_trans _ _ _ _ _ _ Hf0 Hf1') as Hf1. apply runs_ret, Hk. split_and!; [|apply Hf1..].
  apply inv_raw_pending, Hf1.
Qed.
End inv.

(** * Executions of the server *)
Section execution.
Context `{P : Prims} {HP : PrimsOk P}.
Context (cr : Crypto) (cm : CipherMode) (am : AuthMode) (legacy : bool) (keys : Keys).
Context (He : engine cr cm am legacy keys).

Lemma inv_start cfg const_id ll w : env_ok w → is_byte (cfg_ttl cfg) →
  runs (Server_new cfg cr const_id ll) w (λ s w', env_ok w' ∧
    server_inv cr (Z.to_nat (cfg_threads cfg)) (cfg_fix_gro cfg) (sv_ctx s) w' s).
Proof.
  intros Hw Htt. unfold Server_new, RawCtx_new. apply runs_bind, runs_bind, runs_secure_u32; [exact Hw|].
  intros id w1 _ _ _ _ _ _ Hw1. do 2 apply runs_ret. split; [exact Hw1|]. constructor; cbn; try done.
  - apply tables_empty.
  - constructor; cbn; try done; [constructor|intros i; split; [by intros ?%elem_of_nil|done]].
  - split; [|done]. unfold ctx_ok, set_filter. by case_bool_decide.
  - exists [], []. split; [apply reach_new|constructor].
  - apply Forall_replicate. done.
Qed.

(** Rounds of the event loop, interleaved with steps of the crypto workers. *)
Inductive server_run (cfg : Config) (const_id : Z) (ll : option SockaddrLl) (w0 : World) (ctx0 : RawCtx)
    : World → Server → Z → Prop :=
| run_start s w : Server_new cfg cr const_id ll w0 = Done (s, w) → sv_ctx s = ctx0 →
    server_run cfg const_id ll w0 ctx0 w s 0
| run_round w s last inp r w' : server_run cfg const_id ll w0 ctx0 w s last → inputs_ok ctx0 s inp →
    server_round s last inp w = Done (r, w') → server_run cfg const_id ll w0 ctx0 w' r.2 r.1
| run_worker w s last nonces i p : server_run cfg const_id ll w0 ctx0 w s last → (∀ k, nonce_ok (nonces k)) →
    worker_step nonces i (sv_pipeline s) = Some p →
    server_run cfg const_id ll w0 ctx0 w (set_sv_pipeline p s) last.

Lemma run_inv cfg const_id ll w0 ctx0 w s last : env_ok w0 → is_byte (cfg_ttl cfg) →
  server_run cfg const_id ll w0 ctx0 w s last →
  env_ok w ∧ server_inv cr (Z.to_nat (cfg_threads cfg)) (cfg_fix_gro cfg) ctx0 w s.
Proof using He HP.
  intros Hw Htt. induction 1 as [s w E <-|w s last inp r w' _ [Hwo Hi] Hin E|w s last nonces i p _ [Hwo Hi] Hn E].
  - destruct (inv_start cfg const_id ll w0 Hw Htt) as (s' & w' & E' & H). rewrite E in E'. by injection E' as <- <-.
  - destruct (runs_round cr cm am legacy keys He _ _ _ s last inp w Hwo Hi Hin) as (r' & w2 & E' & Hf).
    rewrite E in E'. injection E' as <- <-. destruct Hf as (? & _ & ? & _). by split.
  - split; [exact Hwo|]. apply inv_set_pipe; [exact Hi|]. destruct (i_pipe _ _ _ _ _ _ Hi) as (subs & outs & Hr & Hj).
    exists subs, outs. split; [|exact Hj]. rewrite <-(app_nil_r subs), <-(app_nil_r outs).
    eapply reach_step; [exact Hr|]. by eapply step_worker.
Qed.
End execution.

(** ** Recovery, exactly *)
Section recovery.
Context `{P : Prims} {HP : PrimsOk P}.
Context (cr : Crypto) (cm : CipherMode) (am : AuthMode) (legacy : bool) (keys : Keys).
Context (He : engine cr cm am legacy keys) (n : nat) (gro : bool) (ctx0 : RawCtx).

Lemma runs_recover_exact s i j c ori now w : env_ok w → server_inv cr n gro ctx0 w s → conn_at s i c → conn_at s j ori →
  i ≠ j → sc_state c ≠ Ready → sc_state ori = Ready →
  runs (recover s i j now) w (λ s' _, ∃ p ar, s' = set_sv_pipeline p (put_conn (put_conn (recover_state s i j c ori) j
    (reseq ar (recovered (sv_next_generation s) c ori))) j
    (upd_info (set_last_hb_recv_time now) (reseq ar (recovered (sv_next_generation s) c ori))))).
Proof using He HP.
  intros Hw Hi Hc Ho Hij Hsc Hso. unfold recover.
  apply runs_bind. eapply runs_lift; [by apply conn_done|]. apply runs_bind. eapply runs_lift; [by apply conn_done|].
  cbv zeta. pose proof (inv_recover _ _ _ _ w s i j c ori Hi Hc Ho Hij Hsc Hso) as Hi'.
  assert (conn_at (recover_state s i j c ori) j (recovered (sv_next_generation s) c ori)) as Hat.
  { eapply conn_at_put. apply conn_at_put_ne; [done|]. exact Ho. }
  apply runs_bind. eapply (runs_send_heartbeat cr cm am legacy keys He _ _ _ (recover_state s i j c ori)); [exact Hw|exact Hi'|exact Hat|].
  intros p ar w' _. apply runs_bind. eapply runs_lift; [apply conn_done; by eapply (conn_at_put (recover_state s i j c ori) j)|].
  apply runs_ret. by exists p, ar.
Qed.
End recovery.
