(* ===== verification/ServerSpec.v ===== *)
(** Theorems about the server ([src/src/server.rs]) over whole executions: its tables agree
    and stay within their limits, no round aborts, a client that changes its address keeps
    its conversations, and the sweep erases only stale connections. *)
From S2P Require Import Prelude Util Fips197 Prims Kdf Auth Cipher Crypto Wire AntiReplay.
From S2P Require Import Ip Tcp Conv Types World Config FakeTcp Conn Pipeline Session Server ServerTables ServerInv.

(** C5. In every state of the server that its event loop reaches, from any environment, any
    input and any schedule of the workers: the address table maps exactly the addresses of
    the live connections to their slots, the identity table exactly the constant ids of the
    ready ones (so no two connections share an address, no two ready ones an id); the free
    list holds each empty slot once; the ready counter is the size of the identity table
    and at most 1000; there are at most 10000 connections; a socket slot holds a socket
    exactly when the conversation it names maps to it; connections that are not ready have
    no conversations and none has more than 10000. *)
Theorem server_tables_agree `{P : Prims} {HP : PrimsOk P} (cr : Crypto) (cm : CipherMode) (am : AuthMode)
    (legacy : bool) (keys : Keys) (cfg : Config) (const_id : Z) (ll : option SockaddrLl) (w0 : World)
    (ctx0 : RawCtx) (w : World) (s : Server) (last : Z)
    (He : engine cr cm am legacy keys) (Hw : env_ok w0) (Ht : is_byte (cfg_ttl cfg))
    (Hr : server_run cr cfg const_id ll w0 ctx0 w s last) :
  (∀ a i, sv_by_addr s !! a = Some i ↔ ∃ c, conn_at s i c ∧ sc_addr c = a) ∧
  (∀ k i, sv_by_const_id s !! k = Some i ↔
     ∃ c, conn_at s i c ∧ sc_state c = Ready ∧ oppsite_const_id (sc_info c) = k) ∧
  (NoDup (sv_free_conns s) ∧ ∀ i, i ∈ sv_free_conns s ↔ sv_conns s !! i = Some None) ∧
  (sv_ready_num s = Z.of_nat (size (sv_by_const_id s)) ∧ sv_ready_num s ≤ MAX_READY_CONN_NUM) ∧
  0 ≤ live_conns s ≤ MAX_HANDSHAKE_CONN_NUM ∧
  (∀ slot conv i, (∃ c, conn_at s slot c ∧ find_data_by_conv (sc_convs c) conv = Some i) ↔
     ∃ fd, sv_socks s !! i = Some (Some (mkConvSock fd slot conv))) ∧
  (∀ i c, conn_at s i c → conv_inv (sc_convs c) ∧ conv_len (sc_convs c) ≤ MAX_CONV_NUM ∧
     (sc_state c ≠ Ready → conv_len (sc_convs c) = 0)).
Proof.
  destruct (run_inv cr cm am legacy keys He _ _ _ _ _ _ _ _ Hw Ht Hr) as [_ Hi].
  pose proof (i_tables _ _ _ _ _ _ Hi) as Htab. pose proof (i_sockets _ _ _ _ _ _ Hi) as Hs.
  split_and!.
  - intros a i. rewrite (t_addr _ _ _ _ _ Htab). split.
    + intros (k & (c & Hc & ->)%view_some & <-). by exists c.
    + intros (c & Hc & <-). exists (abs c). split; [by apply view_at|done].
  - intros k i. rewrite (t_const _ _ _ _ _ Htab). split.
    + intros (a & (c & Hc & ->)%view_some & Hst & <-). by exists c.
    + intros (c & Hc & Hst & <-). exists (abs c). split; [by apply view_at|done].
  - apply Htab.
  - intros i. by rewrite (t_free _ _ _ _ _ Htab), view_none.
  - apply Htab.
  - apply Htab.
  - apply (live_conns_eq _ _ _ _ _ _ Hi).
  - apply (live_conns_eq _ _ _ _ _ _ Hi).
  - intros slot conv i. split.
    + intros (c & Hc & Hcv). apply (s_fwd _ _ _ Hs). by rewrite (convs_at _ _ _ Hc).
    + intros [fd E]. apply (s_bwd _ _ _ Hs) in E. cbn in E. unfold convs_of in E.
      destruct (sv_conns s !! slot) as [[c|]|] eqn:Ec; [by exists c|by rewrite lookup_empty in E..].
  - intros i c Hc. destruct (i_conns _ _ _ _ _ _ Hi _ _ Hc). split_and!; try done. intros Hst.
    pose proof (t_idle _ _ _ _ _ Htab i (abs c) (view_at _ _ _ Hc) Hst) as E. cbn in E. unfold conv_len. by rewrite E.
Qed.

(** C6. The event loop never aborts and never blocks on its own data: from every reachable
    state, a round over any tokens of registered sources and any datagrams returns, provided
    no datagram is a TCP segment whose data offset is below the minimum (the one input the
    transport parser aborts on). *)
Theorem server_round_returns `{P : Prims} {HP : PrimsOk P} (cr : Crypto) (cm : CipherMode) (am : AuthMode)
    (legacy : bool) (keys : Keys) (cfg : Config) (const_id : Z) (ll : option SockaddrLl) (w0 : World)
    (ctx0 : RawCtx) (w : World) (s : Server) (last : Z) (inp : Inputs)
    (He : engine cr cm am legacy keys) (Hw : env_ok w0) (Ht : is_byte (cfg_ttl cfg))
    (Hr : server_run cr cfg const_id ll w0 ctx0 w s last) (Hin : inputs_ok ctx0 s inp) :
  ∃ last' s' w', server_round s last inp w = Done ((last', s'), w') ∧
    server_run cr cfg const_id ll w0 ctx0 w' s' last'.
Proof.
  destruct (run_inv cr cm am legacy keys He _ _ _ _ _ _ _ _ Hw Ht Hr) as [Hwo Hi].
  destruct (runs_round cr cm am legacy keys He _ _ _ s last inp w Hwo Hi Hin) as ([last' s'] & w' & E & _).
  exists last', s', w'. split; [exact E|]. by apply (run_round _ _ _ _ _ _ _ _ _ _ _ _ Hr Hin E).
Qed.

(** C22. Recovery: when a connection in the handshake presents the constant id of a ready
    connection that is not newer, the ready one takes over the new address, the ids and
    the sequence state of the handshake and a new generation, and keeps its conversations,
    whose sockets stay as they are; the other gets the old address and goes idle; no other
    connection and neither counter changes. *)
Theorem recovery_keeps_conversations `{P : Prims} {HP : PrimsOk P} (cr : Crypto) (cm : CipherMode)
    (am : AuthMode) (legacy : bool) (keys : Keys) (n : nat) (gro : bool) (ctx0 : RawCtx) (w : World)
    (s : Server) (i j : nat) (c ori : ServerConn) (k : Z)
    (He : engine cr cm am legacy keys) (Hw : env_ok w) (Hi : server_inv cr n gro ctx0 w s)
    (Hc : conn_at s i c) (Ho : conn_at s j ori) (Hst : sc_state c ≠ Ready)
    (Hk : sv_by_const_id s !! k = Some j)
    (Hnew : last_state_time (sc_info ori) ≤ last_state_time (sc_info c)) :
  ∃ s' w' c' o', pre_ready s i k w = Done (s', w') ∧ conn_at s' i c' ∧ conn_at s' j o' ∧
    sv_by_addr s' !! sc_addr c = Some j ∧ sv_by_addr s' !! sc_addr ori = Some i ∧
    sc_addr o' = sc_addr c ∧ sc_state o' = Ready ∧ oppsite_const_id (sc_info o') = k ∧
    sc_convs o' = sc_convs ori ∧ sv_socks s' = sv_socks s ∧ sc_generation o' = sv_next_generation s ∧
    my_id (sc_info o') = my_id (sc_info c) ∧ oppsite_id (sc_info o') = oppsite_id (sc_info c) ∧
    send_info (ci_raw (sc_info o')) = send_info (ci_raw (sc_info c)) ∧
    sc_addr c' = sc_addr ori ∧ sc_state c' = Idle ∧
    (∀ l, l ≠ i → l ≠ j → sv_conns s' !! l = sv_conns s !! l) ∧
    sv_ready_num s' = sv_ready_num s ∧ sv_by_const_id s' = sv_by_const_id s.
Proof.
  pose proof (i_tables _ _ _ _ _ _ Hi) as Htab. pose proof Hk as Hk'.
  apply (t_const _ _ _ _ _ Htab) in Hk as (a & (ori' & Ho' & ->)%view_some & Hso & Eco).
  assert (ori' = ori) as -> by (unfold conn_at in *; congruence). cbn in Hso, Eco.
  assert (i ≠ j) as Hij by (intros ->; unfold conn_at in *; simplify_eq; done).
  assert (sc_addr c ≠ sc_addr ori) as Hne.
  { intros E. assert (sv_by_addr s !! sc_addr c = Some i) by (apply (t_addr _ _ _ _ _ Htab); exists (abs c); split; [by apply view_at|done]).
    assert (sv_by_addr s !! sc_addr c = Some j) by (apply (t_addr _ _ _ _ _ Htab); exists (abs ori); split; [by apply view_at|done]).
    congruence. }
  assert (runs (pre_ready s i k) w (λ s' _, ∃ now p ar, s' = set_sv_pipeline p (put_conn (put_conn (recover_state s i j c ori) j
    (reseq ar (recovered (sv_next_generation s) c ori))) j
    (upd_info (set_last_hb_recv_time now) (reseq ar (recovered (sv_next_generation s) c ori)))))) as (s' & w' & E & now & p & ar & ->).
  { unfold pre_ready. apply runs_bind, runs_now_ms; [exact Hw|]. intros now w1 _ _ Hl1 _ Hw1.
    apply runs_bind. eapply runs_lift; [by apply conn_done|]. rewrite Hk', bool_decide_false by congruence.
    apply runs_bind. eapply runs_lift; [by apply conn_done|]. rewrite bool_decide_true by exact Hso. cbn [negb].
    rewrite (proj2 (Z.ltb_ge _ _) Hnew). eapply runs_mono.
    - eapply (runs_recover_exact cr cm am legacy keys He n gro ctx0 s i j c ori); try done. by apply (inv_later _ _ _ _ w w1).
    - intros s' w' (p & ar & ->). by exists now, p, ar. }
  set (o' := upd_info (set_last_hb_recv_time now) (reseq ar (recovered (sv_next_generation s) c ori))) in *.
  assert (∀ l, sv_conns (set_sv_pipeline p (put_conn (put_conn (recover_state s i j c ori) j
    (reseq ar (recovered (sv_next_generation s) c ori))) j o')) !! l
    = if decide (l = j) then Some (Some o') else if decide (l = i) then Some (Some (grabbed c ori)) else sv_conns s !! l) as HL.
  { intros l. cbn. pose proof (lookup_lt_Some _ _ _ Hc) as Hli. pose proof (lookup_lt_Some _ _ _ Ho) as Hlj.
    destruct (decide (l = j)) as [->|]; [rewrite list_lookup_insert_eq; [done|by rewrite !length_insert]|].
    rewrite !(list_lookup_insert_ne _ j) by done. destruct (decide (l = i)) as [->|]; [by rewrite list_lookup_insert_eq|].
    by rewrite list_lookup_insert_ne. }
  eexists _, w', (grabbed c ori), o'. split; [exact E|]. unfold conn_at. split_and!; try done.
  - rewrite HL, decide_False, decide_True; done.
  - by rewrite HL, decide_True.
  - cbn. rewrite lookup_insert_ne by congruence. by rewrite lookup_insert_eq.
  - cbn. by rewrite lookup_insert_eq.
  - intros l Hli Hlj. by rewrite HL, !decide_False.
Qed.

(** C34. The sweep, with the reading of the clock the timer took, never erases a connection
    that is not stale (ready: silent for more than 240 s and without conversations; not
    ready: in that state for more than 10 s), never adds or changes one, and keeps every
    table consistent.  When it is due, it inspects the connections from its cursor on, in
    cyclic order, one in [CONN_CLEAR_RATIO] and [CONN_CLEAR_MIN] more of them (or all), and
    erases exactly those of them that are stale. *)
Theorem sweep_erases_stale `{P : Prims} (cr : Crypto) (n : nat) (gro : bool) (ctx0 : RawCtx) (w w1 : World)
    (s : Server) (Hw : env_ok w) (Hw1 : env_ok w1) (Hl : later w w1) (Hi : server_inv cr n gro ctx0 w s) :
  ∃ s' w', clear_inactive_conns s (time w) w1 = Done (s', w') ∧ server_inv cr n gro ctx0 w' s' ∧
    (∀ i, sv_conns s' !! i = sv_conns s !! i ∨
          (∃ c, conn_at s i c ∧ stale (time w) c) ∧ sv_conns s' !! i = Some None) ∧
    (∀ k c, sv_last_conn_clear s + CONN_CLEAR_INTERVAL_MS < time w → (k < length (sv_conns s))%nat →
       conn_at s (sweep_slot s k) c →
       (sv_conns s' !! sweep_slot s k = Some None ↔ met s k < sweep_size s ∧ stale (time w) c)) ∧
    (0 < live_conns s → 0 < sweep_size s).
Proof.
  pose proof (inv_later _ _ _ _ w w1 _ Hw Hl Hi) as Hi1. pose proof (timely_inv _ _ _ _ _ _ Hi) as Ht.
  pose proof (eo_clock_64 w Hw (w_clock_pos w)) as Hn.
  destruct (runs_clear_inactive_conns cr n gro ctx0 s (time w) w1 Hw1 Hi1 Ht Hn) as (s' & w' & E & (Hi' & _) & Hsw).
  exists s', w'. split; [exact E|]. split; [exact Hi'|]. split; [exact Hsw|]. split; [|apply sweep_size_pos].
  intros k c Hdue Hk Hat.
  destruct (runs_sweep_exact cr n gro ctx0 s (time w) w1 k c Hw1 Hi1 Ht Hn Hdue Hk Hat) as (s2 & w2 & E2 & H).
  rewrite E in E2. by injection E2 as <- <-.
Qed.

(** * Concrete instances *)
Definition demo_cfg : Config :=
  mkConfig ModeServer (V4 [5; 6; 7; 8], 443) (V4 [127; 0; 0; 1], 7777) FakeTcp false false false false 3 None
    1 1200 15 (-1) 64 0 0 None None false None None false.

(** ** A session: the two handshakes of a client and its first datagram *)
Definition demo_engine : Crypto :=
  ltac:(let o := eval vm_compute in (Crypto_with_backend (P := demo_prims) true Xor AuthNone false demo_keys Auto) in
        match o with Done ?c => exact c end).
Definition demo_peer : SocketAddr := (V4 [9; 9; 9; 9], 4000).
Definition demo_packet (seq : Z) (plain : list Z) : outcome (list Z) :=
  cr ← Crypto_with_backend (P := demo_prims) true Xor AuthNone false demo_keys' Auto;
  e ← encrypt_vec (P := demo_prims) cr [] plain;
  e ← unwrap e;
  b ← build_tcp [] demo_peer.1 (cfg_local_addr demo_cfg).1
        (mkTcpSendParams demo_peer.2 443 seq 1 false true false 40000 1 1) e;
  hdr ← build_ip_header [] demo_peer.1 (cfg_local_addr demo_cfg).1 IPPROTO_TCP 64 1 (zlen b.1);
  Done (hdr ++ b.1).
(** The server's id is the first word of the demo environment's randomness. *)
Definition demo_plains : list (list Z) :=
  [build_bare 1 2 (build_handshake 5 0 99);
   build_bare 3 4 (build_handshake 5 0x01010101 99);
   plain_of 5 0x01010101 (mkMessage 1 TYPE_DATA 0 (build_data_payload 7 [104; 105]))].
Definition demo_packets : list (list Z) :=
  ltac:(let o := eval vm_compute in (mapM (M := outcome) (demo_packet 10) demo_plains) in
        match o with Done ?ps => exact ps end).
Definition demo_round (p : list Z) : Inputs :=
  mkInputs [TOK_RAW] [[mkRawRx p (zlen p) sockaddr_ll_zeroed]] (λ _, []).

Fixpoint server_rounds `{P : Prims} (s : Server) (last : Z) (inps : list Inputs) : Io (Z * Server) :=
  match inps with
  | [] => mret (last, s)
  | inp :: inps => r ← server_round s last inp; server_rounds r.2 r.1 inps
  end.
Lemma rounds_run `{P : Prims} cr cfg const_id ll w0 ctx0 inps w s last r w' :
  server_run cr cfg const_id ll w0 ctx0 w s last → Forall (λ inp, ∀ s, inputs_ok ctx0 s inp) inps →
  server_rounds s last inps w = Done (r, w') → server_run cr cfg const_id ll w0 ctx0 w' r.2 r.1.
Proof.
  intros Hr Hin. revert w s last Hr. induction Hin as [|inp inps Hi _ IH]; intros w s last Hr E; cbn [server_rounds] in E.
  - by injection E as <- <-.
  - apply io_bind_inv in E as ([last1 s1] & w1 & E1 & E2). eapply IH; [|exact E2].
    by eapply run_round; [exact Hr|apply Hi|exact E1].
Qed.

Definition demo_s0 : Server :=
  ltac:(let o := eval vm_compute in (match Server_new demo_cfg demo_engine 77 None demo_world with
                                   | Done r => Some r.1 | Panic => None end) in
        match o with Some ?s => exact s end).
Definition demo_w0 : World := set_w_urandom_pos 4 demo_world.

#[export] Instance ConvSock_eq_dec : EqDecision ConvSock.
Proof. solve_decision. Defined.
(** The connection is ready, and conversation 7 has its socket. *)
Definition demo_check (s : Server) : bool :=
  bool_decide (sv_by_addr s !! demo_peer = Some 0%nat) && bool_decide (sv_by_const_id s !! 99 = Some 0%nat) &&
  bool_decide (sv_socks s = [Some (mkConvSock 0 0 7)]) && (sv_ready_num s =? 1).

Lemma demo_rounds_ok s : Forall (λ p, inputs_ok (sv_ctx demo_s0) s (demo_round p)) demo_packets.
Proof.
  assert (∀ p, bytes p → parse_recv (sv_ctx demo_s0) demo_raw p sockaddr_ll_zeroed ≠ Panic → zlen p < HUGE_DATA_LEN →
    inputs_ok (sv_ctx demo_s0) s (demo_round p)) as H.
  { intros p Hb Hp Hl. split_and!; [constructor; [unfold TOK_RAW, TOK_SOCK_BASE; lia|constructor]| |intros; constructor].
    constructor; [|constructor]. constructor; [|constructor]. unfold rx_ok. cbn [rx_len rx_buf].
    split_and!; [exact Hb|lia|lia| |lia].
    unfold survives. rewrite Nat2Z.id, take_ge by lia. by rewrite <-(parse_recv_panic _ demo_raw _ sockaddr_ll_zeroed). }
  repeat apply Forall_cons_2; try apply Forall_nil_2; (apply H; [apply bytes_check; reflexivity|vm_compute; discriminate|reflexivity]).
Qed.

Lemma demo_session : ∃ last s w,
  server_run (P := demo_prims) demo_engine demo_cfg 77 None demo_world (sv_ctx demo_s0) w s last ∧ demo_check s = true.
Proof.
  assert (match server_rounds (P := demo_prims) demo_s0 0 (demo_round <$> demo_packets) demo_w0 with
          | Done (r, _) => demo_check r.2 | Panic => false end = true) as E by (vm_compute; reflexivity).
  destruct (server_rounds _ _ _ _) as [[[last s] w]|] eqn:Es; [|done]. exists last, s, w. split; [|exact E].
  eapply (rounds_run (P := demo_prims) demo_engine demo_cfg 77 None demo_world _ _ demo_w0 demo_s0 0 (last, s)); [| |exact Es].
  - by apply run_start.
  - apply Forall_fmap, Forall_forall. intros p Hp s'. by eapply (proj1 (Forall_forall _ _) (demo_rounds_ok s')).
Qed.

Lemma demo_engine_ok : engine (P := demo_prims) demo_engine Xor AuthNone false demo_keys.
Proof.
  destruct (Crypto_with_backend_ok (P := demo_prims) true Xor AuthNone false demo_keys Auto (proj1 demo_keys_ok))
    as (cr & E & He).
  assert (demo_engine = cr) as -> by (enough (Done demo_engine = Done cr) by congruence; rewrite <-E; vm_compute; reflexivity).
  exact He.
Qed.

Lemma server_tables_agree_witness :
  ∃ s c, sv_by_addr s !! demo_peer = Some 0%nat ∧ conn_at s 0 c ∧ sc_addr c = demo_peer ∧ sc_state c = Ready ∧
    find_data_by_conv (sc_convs c) 7 = Some 0%nat ∧ sv_ready_num s = 1.
Proof.
  destruct demo_session as (last & s & w & Hr & Hc).
  destruct (server_tables_agree (P := demo_prims) demo_engine Xor AuthNone false demo_keys demo_cfg 77 None demo_world
    (sv_ctx demo_s0) w s last demo_engine_ok demo_world_ok ltac:(split; vm_compute; congruence) Hr)
    as (Haddr & Hconst & _ & _ & _ & Hsock & _).
  unfold demo_check in Hc. rewrite !andb_true_iff, !bool_decide_eq_true, Z.eqb_eq in Hc. destruct Hc as [[[Ha Hk] Hs] Hn].
  destruct (proj1 (Haddr _ _) Ha) as (c & Hc & Hca). destruct (proj1 (Hconst _ _) Hk) as (c' & Hc' & Hst & _).
  destruct (proj2 (Hsock 0%nat 7 0%nat)) as (c'' & Hc'' & Hcv); [exists 0; by rewrite Hs|].
  unfold conn_at in *. simplify_eq. exists s, c. exact (conj Ha (conj Hc (conj Hca (conj Hst (conj Hcv Hn))))).
Defined.

Lemma server_round_returns_witness :
  ∃ (s : Server) w last last' s' w', sv_ready_num s = 1 ∧
    server_round (P := demo_prims) s last (mkInputs [TOK_RAW; TOK_SOCK_BASE] [] (λ _, [[[1; 2; 3]]])) w
      = Done ((last', s'), w').
Proof.
  destruct demo_session as (last & s & w & Hr & Hc).
  unfold demo_check in Hc. rewrite !andb_true_iff, !bool_decide_eq_true, Z.eqb_eq in Hc. destruct Hc as [[[Ha Hk] Hs] Hn].
  destruct (server_round_returns (P := demo_prims) demo_engine Xor AuthNone false demo_keys demo_cfg 77 None demo_world
    (sv_ctx demo_s0) w s last (mkInputs [TOK_RAW; TOK_SOCK_BASE] [] (λ _, [[[1; 2; 3]]]))
    demo_engine_ok demo_world_ok ltac:(split; vm_compute; congruence) Hr) as (last' & s' & w' & E' & _).
  - split_and!; [|constructor|].
    + cbn [in_tokens]. rewrite Hs. cbn [length]. unfold TOK_RAW, TOK_SOCK_BASE.
      constructor; [lia|]. constructor; [lia|constructor].
    + intros i. constructor; [|constructor]. constructor; [apply bytes_check; reflexivity|constructor].
  - exists s, w, last, last', s', w'. exact (conj Hn E').
Defined.

(** A ready connection (slot 0) and a connection in the handshake (slot 1). *)
Definition demo_addr_a : SocketAddr := (V4 [9; 9; 9; 1], 4000).
Definition demo_addr_b : SocketAddr := (V4 [9; 9; 9; 2], 4001).
Definition demo_ori : ServerConn :=
  mkServerConn (set_oppsite_const_id 5 demo_conn) Ready ConvManager_new 1 demo_addr_a.
Definition demo_new : ServerConn := mkServerConn demo_conn Handshake1 ConvManager_new 2 demo_addr_b.
Definition demo_server (cr : Crypto) : Server :=
  mkServer demo_cfg cr (demo_ctx false 443) (Pipeline_new 0 cr false) [Some demo_ori; Some demo_new] []
    (<[demo_addr_b := 1%nat]> (<[demo_addr_a := 0%nat]> ∅)) (<[5 := 0%nat]> ∅) 1 [] [] 0 0 3 77 None [] false [].

Lemma demo_tables cr : tables (view (demo_server cr)) [] (sv_by_addr (demo_server cr)) (sv_by_const_id (demo_server cr)) 1.
Proof.
  pose (ka := mkAConn Handshake1 demo_addr_a 5 ∅). pose (kr := mkAConn Ready demo_addr_a 5 ∅).
  pose (kb := mkAConn Handshake1 demo_addr_b 0 ∅).
  assert (tables [Some ka] [] (<[a_addr ka := 0%nat]> ∅) ∅ 0) as T1.
  { apply (tables_fresh [] [Some ka] [] [] ∅ ∅ 0 0 ka tables_empty); try done.
    - intros [|j] x; cbn; rewrite ?lookup_nil; naive_solver.
    - constructor.
    - intros j. rewrite elem_of_nil. naive_solver. }
  assert (tables [Some kr] [] (<[a_addr ka := 0%nat]> ∅) (<[a_const kr := 0%nat]> ∅) 1) as T2
    by by apply (tables_ready _ _ _ _ 0 0 ka kr T1).
  apply (tables_fresh [Some kr] [Some kr; Some kb] [] [] _ _ 1 1 kb T2); try done.
  - intros [|[|j]] x; cbn; rewrite ?lookup_nil; naive_solver.
  - constructor.
  - intros j. rewrite elem_of_nil. naive_solver.
Qed.

Lemma demo_conn_ok w c : env_ok w → c = demo_ori ∨ c = demo_new → conn_ok w c.
Proof.
  intros Hw Hc. assert (past w 0) by (split; [lia|apply (eo_clock w Hw)]).
  assert (raw_ok demo_raw) by (split; apply demo_info_ok).
  destruct Hc as [-> | ->]; constructor; try done; apply conv_inv_new.
Qed.

Lemma demo_server_inv cr w : env_ok w →
  server_inv (P := demo_prims) cr 0 false (demo_ctx false 443) w (demo_server cr).
Proof.
  intros Hw. constructor; try done.
  - apply demo_tables.
  - constructor; try done; [constructor|intros i; split; [by intros ?%elem_of_nil|done]|].
    intros [|[|slot]] conv i; done.
  - intros [|[|i]] c Hc; try done; injection Hc as <-; apply demo_conn_ok; auto.
  - exists [], []. split; [apply reach_new|constructor].
Qed.

Lemma recovery_keeps_conversations_witness :
  ∃ cr s' w' o', pre_ready (P := demo_prims) (demo_server cr) 1 5 demo_world = Done (s', w') ∧
    conn_at s' 0 o' ∧ sv_by_addr s' !! demo_addr_b = Some 0%nat ∧ sc_state o' = Ready ∧
    sc_convs o' = sc_convs demo_ori.
Proof.
  destruct (Crypto_with_backend_ok (P := demo_prims) true Xor AuthNone false demo_keys Auto (proj1 demo_keys_ok))
    as (cr & _ & He).
  destruct (recovery_keeps_conversations (P := demo_prims) cr Xor AuthNone false demo_keys 0 false (demo_ctx false 443)
    demo_world (demo_server cr) 1 0 demo_new demo_ori 5 He demo_world_ok (demo_server_inv cr demo_world demo_world_ok)
    eq_refl eq_refl ltac:(discriminate) (lookup_insert_eq _ _ _) ltac:(cbn; lia))
    as (s' & w' & c' & o' & E & _ & Ho & Ha & _ & _ & Hst & _ & Hcv & _).
  exists cr, s', w', o'. exact (conj E (conj Ho (conj Ha (conj Hst Hcv)))).
Defined.

(** Five minutes later. *)
Definition late_world : World := set_w_clock_pos (Z.to_nat 300000) demo_world.
Lemma late_world_ok : env_ok late_world.
Proof. destruct demo_world_ok. by constructor. Qed.
Lemma late_time : time late_world = 300000.
Proof.
  change (time late_world) with (Z.min (Z.of_nat (Z.to_nat 300000)) 1000000). rewrite Z2Nat.id by lia. reflexivity.
Qed.

Lemma sweep_erases_stale_witness :
  ∃ cr s' w', clear_inactive_conns (demo_server cr) (time late_world) late_world = Done (s', w') ∧
    sv_conns s' !! 0%nat = Some None.
Proof.
  destruct (Crypto_with_backend_ok (P := demo_prims) true Xor AuthNone false demo_keys Auto (proj1 demo_keys_ok))
    as (cr & _ & _).
  destruct (sweep_erases_stale (P := demo_prims) cr 0 false (demo_ctx false 443) late_world late_world (demo_server cr)
    late_world_ok late_world_ok (reflexivity _) (demo_server_inv cr late_world late_world_ok))
    as (s' & w' & E & _ & _ & Hhit & Hsize).
  exists cr, s', w'. split; [exact E|]. apply (Hhit 0%nat demo_ori); rewrite ?late_time.
  - cbn. unfold CONN_CLEAR_INTERVAL_MS. lia.
  - cbn. lia.
  - reflexivity.
  - split; [apply Hsize; reflexivity|].
    unfold stale. rewrite decide_True by reflexivity. split; [cbn; unfold SERVER_CONN_TIMEOUT_MS, CONV_TIMEOUT_MS; lia|reflexivity].
Defined.
